(* ===== verification/_CoqProject ===== *)
-Q . S2P
Prelude.v
BitPos.v
RingBuf.v
RingBytes.v
RingQueue.v
RingSteps.v
RingTheorems.v
QueuePush.v
QueueDecode.v
QueueManager.v
QueueShip.v
QueueReplay.v
QueueTheorems.v
Dll.v
FlushList.v
CopyBuf.v
ConsistentLsn.v
ConsistentChanges.v
CheckpointRing.v
XlogBuf.v
BufTag.v
FlogList.v
FlogPos.v
FlogBuf.v
FlogBufLog.v
FlogBufTheorems.v
HashFn.v
Bloom.v
MiniTrans.v
MiniTransSteps.v
LogIndexTable.v
LogIndexRepr.v
LogIndexInsert.v
LogIndexBloom.v
LogIndexSnapshot.v
LogIndexTheorems.v
LogIndexIter.v
LogIndexFile.v
LogIndexReplay.v
LogIndexPages.v
LogIndexHistory.v
LogIndexLsnIter.v
LogIndexLsnRead.v
LogIndexTruncate.v
LogIndexFlush.v
LogIndexStartup.v
RedoPage.v
RedoReplay.v
RedoSteps.v
RedoTheorems.v
RelSize.v
RelSizeSearch.v
RelSizeTheorems.v
