(* ===== verification/Prelude.v ===== *)
(** * PolarDB for PostgreSQL: verification of the shared-storage core

    PolarDB runs PostgreSQL with one primary and several replicas on one
    copy of the data in shared storage.  Replicas do not wait for pages to
    be written: they replay WAL themselves, page by page and on demand.
    What makes this work is PolarDB's own code around the buffer manager
    and the WAL, and that is what this library verifies.

    ** The parts of the program and how they interact

    - The _WAL queue_ (access/logindex/polar_ringbuf.c, polar_queue_manager.c)
      is a ring buffer in shared memory.  The primary puts the meta data of
      its WAL records in it, the walsender makes messages of it, the
      walreceiver puts these in the queue of the replica, and the startup
      process there takes records from the queue or reads WAL files; readers
      own a slot with their position.
    - The _log index_ (access/logindex/polar_logindex.c) records for every
      page the LSNs of the WAL records that changed it.  Entries go to a
      table in memory; full tables are saved with a Bloom filter
      (lib/bloomfilter.c, common/hashfn.c) of their pages.  To replay a page a process
      creates a _page iterator_; the background replayer reads all entries
      with an _LSN iterator_ (both polar_logindex_iterator.c).
    - A _mini transaction_ (polar_mini_transaction.c) locks all pages of one
      WAL record while they are added to the log index.
    - _Replay on demand_ (polar_logindex_redo.c): the startup process of a
      replica adds records to the log index and marks pages as outdated; the
      backends that use a page, and a background process, apply its records.
    - The _relation size cache_ (polar_rel_size_cache.c) remembers when
      relations were truncated and databases created or dropped; replay asks it
      whether a block still exists and from where its records count.
    - The _flush list_ (storage/buffer/polar_flushlist.c) has the dirty buffers
      in the order of their oldest LSN, and the _copy buffers_
      (polar_copybuf.c) keep old versions of hot pages.  From both the
      _consistent LSN_ is computed (polar_bufmgr.c): everything before it is on storage, so
      a lazy checkpoint may start redo there.
    - The _ring of stashed checkpoints_
      (access/transam/polar_checkpoint_ringbuf.c) holds the checkpoints seen
      in the WAL until background replay has passed their redo.
    - The _buffer of WAL pages_ (storage/buffer/polar_xlogbuf.c) keeps recent
      WAL pages for the readers that feed replay.
    - The _flashback log_ (polar_flashback/) gets the original of a page
      before its first change after a flashback point; buffers wait in its
      _list_ (polar_flashback_log_list.c) for a background worker, and the
      records go to the file through its _buffers_
      (polar_flashback_log_mem.c).

    ** The files

    Paths of the source are below src/src/backend and src/src/include.

    - Prelude: machine integers, outcomes and their monad, arrays, tactics.
    - BitPos: utils/polar_bitpos.h, the macros on occupancy masks.
    - RingBuf: the data and operations of polar_ringbuf.[ch], one definition
      per function; RingBytes: its split copies as reads and writes modulo
      the size; RingQueue: the buffer as a queue of packets ([queue_wf]);
      RingSteps: the steps of writers and readers ([qstep]), the flashback
      queue's callback and the receiving side; RingTheorems: the
      properties.
    - The queue of WAL meta data, polar_queue_manager.[ch].  QueuePush: what
      is reserved and written for a record; QueueDecode: decoding, and the
      format of a record without payload; QueueManager: sending, looking for a
      start, and the records of the primary, a standby and a replica;
      QueueShip: what a reader finds ([reader_at]), the message and the push
      of a standby; QueueReplay: the records a replica takes from a queue
      whose packets are the records of the WAL ([numbered], [position]);
      QueueTheorems: the properties.
    - Dll: lemmas on doubly linked lists in arrays, for the two below.
    - FlushList: buffer descriptors and polar_flushlist.[ch], with the
      refinement of the linked list to a list.  CopyBuf: polar_copybuf.[ch]
      and the parts of polar_bufmgr.c on oldest and consistent LSNs.
      ConsistentLsn: their common invariant, steps and properties.
      ConsistentChanges: the changes of the pages, with the content locks and
      the writes of bufmgr.c ([wstep]).
    - CheckpointRing: polar_checkpoint_ringbuf.[ch] as a list.
    - XlogBuf: polar_xlogbuf.[ch] and the steps of its processes ([xstep]).
    - FlogList: polar_flashback_log_list.[ch] and what puts buffers in the
      list and takes them out (polar_flashback_log.c).
    - FlogPos: the positions in the flashback log
      (polar_flashback_log_file.c).  FlogBuf: its buffers,
      polar_flashback_log_mem.[ch]; FlogBufLog: their invariant ([flog_inv]);
      FlogBufTheorems: several processes ([flog_step]) and the properties.
    - RedoPage: one page in polar_logindex_redo.c, its redo state and the
      steps of all processes ([rstep]); [IdxRedo] is the interface to the
      redo functions of the resource managers.  RedoReplay: the invariant
      ([redo_inv]) and the startup process; RedoSteps: the other processes;
      RedoTheorems: the properties.
    - RelSize: polar_rel_size_cache.[ch]; RelSizeSearch: the history it
      stands for and what a search finds; RelSizeTheorems: the cache as a
      history ([cache_repr]) and its properties.
    - BufTag: page tags.  HashFn: common/hashfn.c.  Bloom:
      lib/bloomfilter.c.
    - MiniTrans: polar_mini_transaction.[ch], its coalesced hash table as a
      finite map; MiniTransSteps: several processes.
    - LogIndexTable: the memory of a table, looking up and adding entries;
      LogIndexRepr: the log a table stands for ([table_repr]);
      LogIndexInsert: adding preserves it; LogIndexBloom: the Bloom data of
      a table; LogIndexSnapshot: the ring of tables, switching and saving
      ([log_index_env] is the interface to the hash functions, the checksum
      and the caller's callback); LogIndexTheorems: their properties.
    - LogIndexIter: the stacks and the collection of a page iterator from a
      table and from memory; LogIndexFile: from storage, through Bloom data
      and segment cache; LogIndexReplay, LogIndexPages and LogIndexHistory:
      what it returns, for one table, for memory, for all tables.
    - LogIndexLsnIter: the LSN iterator; LogIndexLsnRead: what it returns.
    - LogIndexTruncate: removing old segment files.  LogIndexFlush: the
      background writer.  LogIndexStartup: the meta file, loading the saved
      tables at start-up and on a replica, promotion, and the start LSN.

    ** How the code is modelled

    Every C function is a Rocq function of the same name where the name is
    free; helpers named [.._loop] are the loops inside one, with what is left to do or fuel as
    first argument.  Structures are records, unions and enumerations
    inductive types, arrays lists read with [aget] and written with [aset].
    A [uint32] or [uint64] is a [Z] and its wrapping is written out with
    [u32] and [u64] where the code can reach it.  [outcome] is the result of
    a function that may end in [elog(ERROR)], [FATAL] or [PANIC], read
    outside an array or through the wrong member of a union ([UNDEFINED]),
    or wait for a lock that is never released ([BLOCKED]).

    Code that runs under one lock is one step; processes interleave between
    steps ([qstep] in RingSteps, [mstep] in MiniTransSteps, [xstep] in
    XlogBuf, [rstep] in RedoPage, [sstep] in ConsistentLsn and [wstep] in ConsistentChanges), and the invariants are
    proved for every reachable state by induction on the steps.  In
    [lsn_run] (LogIndexLsnRead) and [flog_step] (FlogBufTheorems) a whole call
    is a step: insertions within a call of the LSN iterator or of the
    flashback log are not modelled.  Where a step relation leaves out what the
    code can do, the file says so: [qstep] takes data to be dropped only over
    packets whose length is written, [rstep] has no error in a replay (that is
    [abort_step]), [xstep] no failing read, [wstep] no use of a buffer for another
    page and no end of recovery.

    _Fuel._  A loop that is not structural takes fuel and gives [OUT_OF_FUEL]
    without it; the functions of the program pass a bound of their data: the number of
    segments of a table for a hash chain, the number of buffers for the
    flush list, the slots of a mini transaction for a chain, the table id for a walk
    down the tables, the length of the key for hashing,
    the pages ahead for the buffers of the flashback log.  The theorems show
    a result other than [OUT_OF_FUEL], so the bounds are enough.  Only the loops that wait
    for another process (a writer for room, an insertion for a free table)
    and the background writer
    have fuel as an argument: their theorems say how much is enough, or why
    the loop waits.

    _Parameters._  [log_index_env] has the callback that says whether a table
    may be flushed, which belongs to the caller, the 64-bit hash and the
    checksum, for which the theorems hold whatever they are (the witnesses
    use [jenkins], the function of HashFn), and the rounding of a floating
    point expression, the number of hash functions.  [try_lock] answers conditional
    lock requests, arbitrarily, [rename_ok] whether renaming a file succeeds,
    and [slru_keeps] which pages [SimpleLruTruncate] leaves, with the
    hypothesis that it leaves those from the cutoff on.  [meta_crc] is the
    checksum of the meta file and [polar_is_standby] an answer of the server
    (LogIndexStartup).  [wal] has the bytes of the WAL (XlogBuf);
    [page_on_disk] is what the storage manager reads and [rec_end] the end of
    the flashback log (FlogList); [GetSystemIdentifier] is put in its pages
    (FlogBuf).  Of the WAL reader, whose file has conflicts in this tree,
    [XLogReadRecord] reads the next record from files ([reads_files] says that
    it is the one behind the last, if the files have it), [DecodeXLogRecord]
    decodes whole records and [allocate_recordbuf] gives at least the room that is
    asked for; [heap2_codes] has the codes and sizes of three kinds of records
    that this tree does not define (QueuePush, QueueManager).  [tag_hash] is any hash of a page.  [IdxRedo] says of the redo
    functions that a record is applied only if it ends behind the LSN of the
    page, which it then sets (the witnesses use pages that list their records).  The
    settings and answers of the rest of the server are the [env] record of
    CopyBuf.

    ** What the theorems show

    - WAL queue: every reachable buffer is well formed, also after a reset; a
      published packet is what each valid reader gets, in order and unchanged,
      as long as some reader stays; an evicted reader is
      never taken for a valid one; making room ends, or waits for a stated
      reason; a received message is unpacked into its packets.
    - WAL meta data: what is reserved for a record is exactly filled; the
      message has the next safe packets and the queue of the replica gets
      exactly these; a record that does not keep its whole main data is
      decoded to its references and the kept part of it; while the queue
      carries records only, a replica gets one after the other, from the
      queue or from files, and a promoted one has read all files; a start
      point is found only if nothing behind it is missing.
    - Log index: inserting appends to the log of the active table or starts
      the next one; saving keeps the log, with Bloom data that lacks none of
      its pages; a page iterator returns exactly the page's records in the
      range, oldest first, from memory and storage; a gap in a page's
      records is detected; the LSN iterator returns every entry from its
      start on, once and in order, while tables are filled and saved;
      truncation ends and removes no entry that is needed; the background
      writer saves the tables in order; a restart gives back what was
      saved, and redo after it adds nothing twice; a replica follows what
      the primary saves, and its promotion marks only saved tables and, unless
      the replica lags, hands over the others.
    - Bloom filter and hash: no false negatives; the four code paths of the
      hash are two functions; its shortcut for
      32-bit keys agrees, and its mixing is reversible.
    - Mini transactions: the hash table refines a finite map, all pages of
      a record find a slot, reference counts are exact, nothing PANICs, and the end waits for
      all holders.
    - Replay on demand: in every interleaving a page in use has all the
      records the log index has for it, and the loop that replays a page
      ends after one or two rounds when it is left alone.
    - Relation size cache: recording appends to a history, whose tables are in
      memory or in files; a block is valid exactly if no later truncation
      cuts it off and the newest event of its database is no drop;
      truncation removes the old tables and no later event.
    - Flush list, copy buffers: the list refines an ordered list, batches
      cover it; every change of a page that starts before the published
      consistent LSN is on storage, and that LSN never goes back; what is
      written obeys
      WAL-first and what the replicas have replayed.
    - Checkpoints: inserting and shrinking refine list operations.
    - WAL pages: a hit gives the bytes of the WAL.
    - Flashback log list: the operations refine a queue of records that are
      fixed when a buffer is put in it; the worker empties it in order.
    - Flashback log buffers: positions and pointers convert into each other;
      whatever the order in which processes insert and flush, the buffers
      and the file are a log of records, and a flushed record is read back.

    Some theorems state behaviour that is not meant: the portable variant
    of the least-bit macro, a batch that is skipped, a lag of 4 GiB that
    wraps, a unit that is ignored, a lock that stays held, a read before an array, stacks that are
    not freed, a search that starts at table 0, a rejected meta file that stays
    in use, a hit on a page that could not be read, a write outside the flashback
    list, an outdated page that is logged as the original,
    main data that is decoded five bytes too long, records that are replayed
    again after a request to read files, a page that looks current after an error in its replay,
    a reference that stops inside a packet, and a change that a copy made
    in recovery lets the consistent LSN pass.

    ** Not modelled

    - The resource managers that parse and apply WAL records
      (polar_xlog_idx.c and the per-access-method
      files): they depend on the page formats of all access methods.
    - Of polar_logindex_redo.c: parallel replay and promotion of the
      background process, pages of the future that are restored from full page
      snapshots, and truncated relations.  Replay on demand is modelled for one
      page of a replica: the page lock, whose table is in MiniTrans, is a slot
      of the page, and the page iterator, whose result is the theorem on it in
      LogIndexHistory, is the list of the records in the range.
    - Full page snapshots: file operations
      around the functions that are modelled; an I/O error ends the process,
      and storage is a map here.
    - The format of flashback records, their reading, and insertions into the flashback log at the same time.
    - The CSN log: the SLRU layer it builds on has unresolved merge
      conflicts in this tree, as have many files of upstream PostgreSQL
      (xlog.c, bufmgr.c).
    - Shared memory sizing, statistics, memory contexts, and the [Assert]s,
      which are not compiled in production.

    Open for extension: concurrent insertions into the flashback log. *)

From Stdlib Require Export ZArith Lia Sorted.
From stdpp Require Export base tactics numbers list gmap.

#[global] Open Scope Z_scope.

(** ** Machine integers

    C unsigned integers of width [w] are integers reduced modulo [2^w]. *)

Definition wrap (w z : Z) : Z := z mod 2 ^ w.
Definition u8 : Z -> Z := wrap 8.
Definition u16 : Z -> Z := wrap 16.
Definition u32 : Z -> Z := wrap 32.
Definition u64 : Z -> Z := wrap 64.

Definition UINT64_MAX : Z := 2 ^ 64 - 1.
Definition is_u8 (z : Z) : Prop := 0 <= z < 2 ^ 8.
Definition is_u32 (z : Z) : Prop := 0 <= z < 2 ^ 32.
Definition is_u64 (z : Z) : Prop := 0 <= z < 2 ^ 64.

Lemma wrap_small w z : 0 <= z < 2 ^ w -> wrap w z = z.
Proof. intros. unfold wrap. by apply Z.mod_small. Qed.

Lemma wrap_range w z : 0 <= w -> 0 <= wrap w z < 2 ^ w.
Proof. intros. unfold wrap. apply Z.mod_pos_bound. apply Z.pow_pos_nonneg; lia. Qed.

Lemma u64_small z : is_u64 z -> u64 z = z.
Proof. apply wrap_small. Qed.

Lemma u32_small z : is_u32 z -> u32 z = z.
Proof. apply wrap_small. Qed.

(** ** Positions in the WAL *)

Definition InvalidXLogRecPtr : Z := 0.
Definition XLogRecPtrIsInvalid (lsn : Z) : bool := lsn =? InvalidXLogRecPtr.

(** ** Failures

    [elog]/[ereport] at these levels do not return to the caller; a C
    dereference of a null pointer or of an index outside an array is
    undefined and is kept apart as [UNDEFINED]; [BLOCKED] is an acquisition
    of a lock that is never released. *)

Inductive fault : Set := ERROR | FATAL | PANIC | UNDEFINED | BLOCKED | OUT_OF_FUEL.

#[export] Instance fault_eq_dec : EqDecision fault.
Proof. solve_decision. Defined.

Inductive outcome (A : Type) : Type :=
| Done (a : A)
| Fault (f : fault).
Arguments Done {A} a.
Arguments Fault {A} f.

Definition obind {A B} (m : outcome A) (k : A -> outcome B) : outcome B :=
  match m with
  | Done a => k a
  | Fault f => Fault f
  end.

Declare Scope polar_scope.
Delimit Scope polar_scope with polar.
Notation "'let!' x := m 'in' k" := (obind m (fun x => k))
  (at level 10, x pattern, m at level 100, k at level 200) : polar_scope.
#[global] Open Scope polar_scope.

Definition is_done {A} (m : outcome A) : bool :=
  match m with Done _ => true | Fault _ => false end.

Lemma obind_Done {A B} (m : outcome A) (k : A -> outcome B) b :
  obind m k = Done b <-> exists a, m = Done a /\ k a = Done b.
Proof.
  destruct m as [a|f]; simpl; [|naive_solver].
  split; [by eauto|]. intros (a' & [= <-] & ?). done.
Qed.

(** ** Arrays

    A C array of fixed length is a list; [aget] reads it and [aset]
    writes it.  Reads outside the bounds give the default element and
    writes outside leave the list alone, so every use is guarded by the
    invariant of its component. *)

Definition aget {A} (d : A) (l : list A) (i : Z) : A :=
  if decide (0 <= i) then default d (l !! Z.to_nat i) else d.

Definition aset {A} (l : list A) (i : Z) (x : A) : list A :=
  if decide (0 <= i) then <[Z.to_nat i := x]> l else l.

Section arrays.
Context {A : Type}.
Implicit Types (l : list A) (i j : Z) (x d : A).

Lemma length_aset l i x : length (aset l i x) = length l.
Proof. unfold aset. case_decide; [apply length_insert | done]. Qed.

Lemma aget_aset_eq d l i x :
  0 <= i < Z.of_nat (length l) -> aget d (aset l i x) i = x.
Proof.
  intros Hi. unfold aget, aset. rewrite decide_True by lia. rewrite decide_True by lia.
  rewrite list_lookup_insert_eq by lia. done.
Qed.

Lemma aget_aset_ne d l i j x : i <> j -> aget d (aset l i x) j = aget d l j.
Proof.
  intros Hne. unfold aget, aset. case_decide; [|done]. case_decide; [|done].
  rewrite list_lookup_insert_ne by lia. done.
Qed.

Lemma aget_aset d l i j x :
  0 <= i < Z.of_nat (length l) ->
  aget d (aset l i x) j = if decide (i = j) then x else aget d l j.
Proof.
  intros Hi. case_decide as Hd.
  - subst. by apply aget_aset_eq.
  - by apply aget_aset_ne.
Qed.

Lemma aget_replicate d (n : nat) i : aget d (replicate n d) i = d.
Proof.
  unfold aget. case_decide; [|done].
  destruct (replicate n d !! Z.to_nat i) eqn:E; [|done].
  apply lookup_replicate in E as [-> _]. done.
Qed.
End arrays.

(** ** Lists *)

Lemma filter_none {A} (P : A -> Prop) `{!forall x, Decision (P x)} (l : list A) :
  (forall x, x ∈ l -> ~ P x) -> filter P l = [].
Proof.
  induction l as [|x l IH]; intros Hl; [done|].
  rewrite filter_cons_False by (apply Hl; set_solver). apply IH. set_solver.
Qed.

Lemma filter_all {A} (P : A -> Prop) `{!forall x, Decision (P x)} (l : list A) :
  (forall x, x ∈ l -> P x) -> filter P l = l.
Proof.
  induction l as [|x l IH]; intros Hl; [done|].
  rewrite filter_cons_True by (apply Hl; set_solver). f_equal. apply IH. set_solver.
Qed.

Lemma filter_ext_in {A} (P Q : A -> Prop) `{!forall x, Decision (P x), !forall x, Decision (Q x)}
  (l : list A) : (forall x, x ∈ l -> P x <-> Q x) -> filter P l = filter Q l.
Proof.
  induction l as [|x l IH]; intros Hl; [done|].
  assert (filter P l = filter Q l) as E by (apply IH; set_solver).
  destruct (decide (P x)) as [HP|HP].
  - rewrite !filter_cons_True; [by rewrite E| |done]. apply Hl; [set_solver|done].
  - rewrite !filter_cons_False; [done| |done]. rewrite <- Hl; [done|set_solver].
Qed.

(** ** Automation *)

Create HintDb polar.
#[export] Hint Resolve wrap_range : polar.

(** Split the [if]s and [match]es of the goal or of a hypothesis. *)
Ltac split_ifs :=
  repeat match goal with
  | |- context [if ?b then _ else _] => destruct b eqn:?
  | H : context [if ?b then _ else _] |- _ => destruct b eqn:?
  end.

(** Turn boolean tests on [Z] into propositions. *)
Ltac zbool :=
  repeat match goal with
  | H : (_ =? _) = true |- _ => apply Z.eqb_eq in H
  | H : (_ =? _) = false |- _ => apply Z.eqb_neq in H
  | H : (_ <? _) = true |- _ => apply Z.ltb_lt in H
  | H : (_ <? _) = false |- _ => apply Z.ltb_ge in H
  | H : (_ <=? _) = true |- _ => apply Z.leb_le in H
  | H : (_ <=? _) = false |- _ => apply Z.leb_gt in H
  | H : (_ >? _) = true |- _ => rewrite Z.gtb_ltb in H; apply Z.ltb_lt in H
  | H : (_ >? _) = false |- _ => rewrite Z.gtb_ltb in H; apply Z.ltb_ge in H
  | H : (_ >=? _) = true |- _ => rewrite Z.geb_leb in H; apply Z.leb_le in H
  | H : (_ >=? _) = false |- _ => rewrite Z.geb_leb in H; apply Z.leb_gt in H
  | H : (_ && _) = true |- _ => apply andb_true_iff in H; destruct H
  | H : (_ || _) = false |- _ => apply orb_false_iff in H; destruct H
  | H : negb _ = true |- _ => apply negb_true_iff in H
  | H : negb _ = false |- _ => apply negb_false_iff in H
  end.

(** [lia] with the equations of [/] and [mod]. *)
Ltac mlia := Z.div_mod_to_equations; nia.
