(* ===== verification/BitPos.v ===== *)
(** * Bit positions of 64-bit masks (src/include/utils/polar_bitpos.h)

    The occupancy masks of the ring buffer and of the mini transaction
    table are [uint64] values whose bit [i-1] says that position [i] is
    used.  This file models the macros on such masks, the loop that walks
    over the set bits of a mask, and shows that the loop visits exactly
    the set bits, in increasing order. *)

From S2P Require Import Prelude.

(** ** The macros *)

(** [__builtin_ffsl]: one plus the index of the least significant set
    bit, zero for zero. *)
Fixpoint pos_ffs (p : positive) : Z :=
  match p with
  | xO q => 1 + pos_ffs q
  | _ => 1
  end.

Definition POLAR_BIT_LEAST_POS (v : Z) : Z :=
  match v with
  | Zpos p => pos_ffs p
  | _ => 0
  end.

(** The variant of the same macro for compilers without [__GNUC__]: a
    binary search for the lowest set bit. *)
Definition bit_halve (mask sh : Z) (pv : Z * Z) : Z * Z :=
  let '(p, v) := pv in
  if Z.land v mask =? 0 then (p + sh, Z.shiftr v sh) else (p, v).

Definition POLAR_BIT_LEAST_POS_portable (val : Z) : Z :=
  let pv := bit_halve 0xffffffff 32 (0, val) in
  let pv := bit_halve 0xffff 16 pv in
  let pv := bit_halve 0xff 8 pv in
  let pv := bit_halve 0xf 4 pv in
  let pv := bit_halve 0x3 2 pv in
  let '(p, v) := pv in
  if Z.land v 0x1 =? 0 then p + 1 else p.

Definition POLAR_BIT_CLEAR_LEAST (x : Z) : Z := Z.land x (u64 (x - 1)).

Definition POLAR_BIT_OCCUPY (x i : Z) : Z := Z.lor x (u64 (Z.shiftl 1 (i - 1))).

Definition POLAR_BIT_IS_OCCUPIED (x i : Z) : bool :=
  negb (Z.land x (u64 (Z.shiftl 1 (i - 1))) =? 0).

Definition POLAR_BIT_RELEASE_OCCUPIED (x i : Z) : Z :=
  Z.land x (u64 (Z.lnot (Z.shiftl 1 (i - 1)))).

(** [while (occupied) { POLAR_BIT_LEAST_POS(occupied, i); body; POLAR_BIT_CLEAR_LEAST(occupied); }]
    with [body] a function of the position (from 1) and of the loop's
    variables.  A 64-bit mask has at most 64 set bits, hence the fuel. *)
Fixpoint for_each_bit_aux {A} (fuel : nat) (body : Z -> A -> A) (occupied : Z) (a : A) : A :=
  match fuel with
  | O => a
  | S n =>
    if occupied =? 0 then a
    else for_each_bit_aux n body (POLAR_BIT_CLEAR_LEAST occupied)
           (body (POLAR_BIT_LEAST_POS occupied) a)
  end.

Definition for_each_bit {A} (body : Z -> A -> A) (occupied : Z) (a : A) : A :=
  for_each_bit_aux 64 body occupied a.

(** ** Specification: the positions a mask occupies *)

Definition occupied_pos (v i : Z) : Prop := 1 <= i /\ Z.testbit v (i - 1) = true.

#[export] Instance occupied_pos_dec v i : Decision (occupied_pos v i).
Proof. unfold occupied_pos. apply _. Defined.

(** The occupied positions from [lo] to 64, in increasing order. *)
Definition positions_from (v lo : Z) : list Z :=
  filter (fun i => Z.testbit v (i - 1) = true) (seqZ lo (65 - lo)).

Definition positions (v : Z) : list Z := positions_from v 1.

(** ** Lemmas *)

Lemma pos_ffs_spec (p : positive) :
  1 <= pos_ffs p /\ Z.testbit (Zpos p) (pos_ffs p - 1) = true /\
  (forall j, 0 <= j < pos_ffs p - 1 -> Z.testbit (Zpos p) j = false).
Proof.
  induction p as [q IH|q IH|]; simpl pos_ffs.
  - split; [lia|]. split; [done|]. intros; lia.
  - destruct IH as (H1 & H2 & H3). split; [lia|]. split.
    + replace (1 + pos_ffs q - 1) with (Z.succ (pos_ffs q - 1)) by lia.
      change (Zpos (xO q)) with (2 * Zpos q). rewrite Z.testbit_even_succ; [done|lia].
    + intros j Hj. change (Zpos (xO q)) with (2 * Zpos q).
      destruct (decide (j = 0)) as [->|]; [apply Z.testbit_even_0|].
      replace j with (Z.succ (j - 1)) by lia. rewrite Z.testbit_even_succ by lia.
      apply H3. lia.
  - split; [lia|]. split; [done|]. intros; lia.
Qed.

Lemma testbit_lt_pow2 v i : 0 <= v < 2 ^ 64 -> Z.testbit v i = true -> 0 <= i < 64.
Proof.
  intros Hv Hb. destruct (decide (i < 0)) as [|Hi].
  { rewrite Z.testbit_neg_r in Hb; [done|lia]. }
  split; [lia|]. destruct (decide (64 <= i)) as [H64|]; [|lia].
  rewrite <- (Z.mod_small v (2 ^ 64)) in Hb by lia.
  rewrite Z.mod_pow2_bits_high in Hb; [done|lia].
Qed.

Lemma bits_below_lt v n :
  0 <= v -> 0 <= n -> (forall j, Z.testbit v j = true -> j < n) -> v < 2 ^ n.
Proof.
  intros Hv Hn Hb. destruct (decide (v = 0)) as [->|Hne]; [by apply Z.pow_pos_nonneg|].
  apply Z.log2_lt_pow2; [lia|]. apply Hb. apply Z.bit_log2. lia.
Qed.

(** The positions that a mask leaves free. *)
Lemma lnot_u64_testbit v j : 0 <= j < 64 -> Z.testbit (u64 (Z.lnot v)) j = negb (Z.testbit v j).
Proof. intros Hj. unfold u64, wrap. rewrite Z.mod_pow2_bits_low by lia. apply Z.lnot_spec. lia. Qed.

Lemma least_pos_spec v :
  0 < v < 2 ^ 64 ->
  1 <= POLAR_BIT_LEAST_POS v <= 64 /\
  Z.testbit v (POLAR_BIT_LEAST_POS v - 1) = true /\
  (forall j, 0 <= j < POLAR_BIT_LEAST_POS v - 1 -> Z.testbit v j = false).
Proof.
  intros Hv. destruct v as [|p|p]; try lia.
  unfold POLAR_BIT_LEAST_POS. destruct (pos_ffs_spec p) as (H1 & H2 & H3).
  split; [|done]. apply testbit_lt_pow2 in H2; lia.
Qed.

Lemma least_pos_unique v p :
  0 < v < 2 ^ 64 -> 1 <= p -> Z.testbit v (p - 1) = true ->
  (forall j, 0 <= j < p - 1 -> Z.testbit v j = false) -> POLAR_BIT_LEAST_POS v = p.
Proof.
  intros Hv Hp Hb Hl. destruct (least_pos_spec v Hv) as (H1 & H2 & H3).
  destruct (Z.lt_trichotomy (POLAR_BIT_LEAST_POS v) p) as [H|[H|H]]; [|done|].
  - rewrite Hl in H2; [done|lia].
  - rewrite H3 in Hb; [done|lia].
Qed.

(** Clearing the lowest set bit removes that bit and no other. *)
Lemma clear_least_testbit v j :
  0 < v < 2 ^ 64 ->
  Z.testbit (POLAR_BIT_CLEAR_LEAST v) j =
  Z.testbit v j && negb (j =? POLAR_BIT_LEAST_POS v - 1).
Proof.
  intros Hv. unfold POLAR_BIT_CLEAR_LEAST. rewrite u64_small by (unfold is_u64; lia).
  rewrite Z.land_spec. destruct (least_pos_spec v Hv) as (Hp1 & Hp2 & Hp3).
  set (k := POLAR_BIT_LEAST_POS v - 1) in *. assert (0 <= k) by lia.
  (* v = 2^k * (2 m + 1) *)
  assert (v mod 2 ^ k = 0) as Hmod.
  { apply Z.bits_inj_0. intros n. destruct (decide (n < 0)); [apply Z.testbit_neg_r; lia|].
    destruct (decide (n < k)).
    - rewrite Z.mod_pow2_bits_low by lia. apply Hp3. lia.
    - apply Z.mod_pow2_bits_high. lia. }
  set (w := v / 2 ^ k) in *.
  assert (0 < 2 ^ k) as Hpk by (apply Z.pow_pos_nonneg; lia).
  assert (v = 2 ^ k * w) as Hvw. { pose proof (Z.div_mod v (2 ^ k)). lia. }
  assert (Z.testbit w 0 = true) as Hw0.
  { unfold w. rewrite Z.div_pow2_bits by lia. rewrite Z.add_0_l. done. }
  rewrite Z.bit0_odd in Hw0. apply Z.odd_spec in Hw0 as [m Hm].
  assert (v = (2 * m) * 2 ^ k + 2 ^ k) as Hv2 by lia.
  assert (v - 1 = (2 * m) * 2 ^ k + (2 ^ k - 1)) as Hv1 by lia.
  destruct (decide (j < 0)).
  { rewrite Z.testbit_neg_r by lia. done. }
  destruct (decide (j < k)).
  { rewrite Hp3 by lia. done. }
  assert (Z.testbit (v - 1) j = Z.testbit (2 * m) (j - k)) as Hlow.
  { replace j with ((j - k) + k) at 1 by lia. rewrite <- Z.div_pow2_bits by lia.
    f_equal. rewrite Hv1. rewrite Z.div_add_l by lia. rewrite Z.div_small by lia. lia. }
  assert (Z.testbit v j = Z.testbit (2 * m + 1) (j - k)) as Hhigh.
  { replace j with ((j - k) + k) at 1 by lia. rewrite <- Z.div_pow2_bits by lia.
    f_equal. fold w. lia. }
  rewrite Hlow, Hhigh. destruct (decide (j = k)) as [->|].
  - rewrite Z.sub_diag, Z.testbit_odd_0, Z.testbit_even_0, Z.eqb_refl. done.
  - replace (j - k) with (Z.succ (j - k - 1)) by lia.
    rewrite Z.testbit_odd_succ, Z.testbit_even_succ by lia.
    destruct (Z.eqb_spec j k); [lia|]. rewrite andb_diag. rewrite andb_true_r. done.
Qed.

Lemma clear_least_range v : 0 < v < 2 ^ 64 -> 0 <= POLAR_BIT_CLEAR_LEAST v < 2 ^ 64.
Proof.
  intros Hv. unfold POLAR_BIT_CLEAR_LEAST. rewrite u64_small by (unfold is_u64; lia).
  split; [apply Z.land_nonneg; lia|].
  assert (Z.land v (v - 1) <= v); [|lia].
  apply Z.ldiff_le; [lia|]. apply Z.bits_inj. intros n.
  rewrite Z.ldiff_spec, Z.land_spec, Z.bits_0. by destruct (Z.testbit v n), (Z.testbit (v - 1) n).
Qed.

Lemma positions_from_none v lo :
  0 <= v < 2 ^ 64 -> (forall j, lo - 1 <= j -> Z.testbit v j = false) ->
  positions_from v lo = [].
Proof.
  intros Hv Hb. unfold positions_from. apply filter_none.
  intros i Hi. apply elem_of_seqZ in Hi. rewrite Hb; [done|lia].
Qed.

(** The lowest occupied position comes first, the positions of the mask
    with that bit cleared follow. *)
Lemma positions_from_least v lo :
  0 < v < 2 ^ 64 -> 1 <= lo -> (forall j, 0 <= j < lo - 1 -> Z.testbit v j = false) ->
  positions_from v lo =
  POLAR_BIT_LEAST_POS v ::
    positions_from (POLAR_BIT_CLEAR_LEAST v) (POLAR_BIT_LEAST_POS v + 1).
Proof.
  intros Hv Hlo Hb. destruct (least_pos_spec v Hv) as (Hp1 & Hp2 & Hp3).
  set (p := POLAR_BIT_LEAST_POS v) in *.
  assert (lo <= p). { destruct (decide (lo <= p)); [done|]. rewrite Hb in Hp2; [done|lia]. }
  unfold positions_from at 1.
  replace (65 - lo) with ((p - lo) + (65 - p)) by lia.
  rewrite seqZ_app by lia. rewrite filter_app.
  replace (lo + (p - lo)) with p by lia.
  rewrite (seqZ_cons p) by lia. rewrite filter_cons_True by done.
  replace (filter _ (seqZ lo (p - lo))) with (@nil Z).
  2: { symmetry. apply filter_none. intros i Hi.
       apply elem_of_seqZ in Hi. rewrite Hp3; [done|lia]. }
  simpl. f_equal. unfold positions_from.
  replace (65 - (p + 1)) with (Z.pred (65 - p)) by lia.
  apply filter_ext_in. intros i Hi. apply elem_of_seqZ in Hi.
  rewrite clear_least_testbit by done. fold p.
  destruct (Z.eqb_spec (i - 1) (p - 1)); [lia|]. by rewrite andb_true_r.
Qed.

(** The loop over a mask is the fold over its positions. *)
Lemma for_each_bit_aux_fold {A} (body : Z -> A -> A) n lo v a :
  0 <= v < 2 ^ 64 -> 1 <= lo -> 65 - lo <= Z.of_nat n ->
  (forall j, 0 <= j < lo - 1 -> Z.testbit v j = false) ->
  for_each_bit_aux n body v a = fold_left (fun a i => body i a) (positions_from v lo) a.
Proof.
  revert lo v a. induction n as [|n IH]; intros lo v a Hv Hlo Hn Hb; simpl.
  { unfold positions_from. by rewrite seqZ_nil by lia. }
  destruct (Z.eqb_spec v 0) as [->|Hnz].
  { rewrite positions_from_none; [done|lia|]. intros. apply Z.bits_0. }
  assert (0 < v < 2 ^ 64) as Hv' by lia.
  destruct (least_pos_spec v Hv') as (Hp1 & Hp2 & Hp3).
  assert (lo <= POLAR_BIT_LEAST_POS v).
  { destruct (decide (lo <= POLAR_BIT_LEAST_POS v)); [done|]. rewrite Hb in Hp2; [done|lia]. }
  rewrite (positions_from_least v lo) by done. simpl.
  apply IH; [by apply clear_least_range|lia|lia|].
  intros j Hj. rewrite clear_least_testbit by done.
  destruct (Z.eqb_spec j (POLAR_BIT_LEAST_POS v - 1)); [by rewrite andb_false_r|].
  rewrite Hp3; [done|lia].
Qed.

Lemma for_each_bit_fold {A} (body : Z -> A -> A) v a :
  0 <= v < 2 ^ 64 -> for_each_bit body v a = fold_left (fun a i => body i a) (positions v) a.
Proof. intros Hv. apply for_each_bit_aux_fold; [done|lia|lia|]. intros; lia. Qed.

Lemma elem_of_positions v i : i ∈ positions v <-> 1 <= i <= 64 /\ Z.testbit v (i - 1) = true.
Proof.
  unfold positions, positions_from. rewrite list_elem_of_filter, elem_of_seqZ. naive_solver lia.
Qed.

Lemma positions_NoDup v : NoDup (positions v).
Proof. apply NoDup_filter, NoDup_seqZ. Qed.

(** ** Occupying and releasing a position *)

Section occupancy.
Variables (x i : Z).
Hypothesis Hx : 0 <= x < 2 ^ 64.
Hypothesis Hi : 1 <= i <= 64.

Lemma bit_mask_testbit j : 0 <= j -> Z.testbit (Z.shiftl 1 (i - 1)) j = bool_decide (j = i - 1).
Proof.
  intros Hj. rewrite Z.shiftl_1_l, Z.pow2_bits_eqb by lia.
  case_bool_decide; destruct (Z.eqb_spec (i - 1) j); done || lia.
Qed.

Lemma bit_mask_range : 0 < Z.shiftl 1 (i - 1) < 2 ^ 64.
Proof.
  rewrite Z.shiftl_1_l. split; [apply Z.pow_pos_nonneg; lia|apply Z.pow_lt_mono_r; lia].
Qed.

Lemma is_occupied_testbit : POLAR_BIT_IS_OCCUPIED x i = Z.testbit x (i - 1).
Proof.
  unfold POLAR_BIT_IS_OCCUPIED. pose proof bit_mask_range.
  rewrite u64_small by (unfold is_u64; lia).
  destruct (Z.testbit x (i - 1)) eqn:E.
  - destruct (Z.eqb_spec (Z.land x (Z.shiftl 1 (i - 1))) 0) as [E0|]; [|done].
    assert (Z.testbit (Z.land x (Z.shiftl 1 (i - 1))) (i - 1) = true) as Hc.
    { rewrite Z.land_spec, E, bit_mask_testbit by lia. by rewrite bool_decide_true. }
    by rewrite E0, Z.bits_0 in Hc.
  - replace (Z.land x (Z.shiftl 1 (i - 1))) with 0; [done|].
    symmetry. apply Z.bits_inj_0. intros n. rewrite Z.land_spec.
    destruct (decide (n < 0)); [by rewrite Z.testbit_neg_r by lia|].
    rewrite bit_mask_testbit by lia. case_bool_decide; [subst; by rewrite E|apply andb_false_r].
Qed.

Lemma occupy_testbit j :
  Z.testbit (POLAR_BIT_OCCUPY x i) j = Z.testbit x j || bool_decide (j = i - 1).
Proof.
  unfold POLAR_BIT_OCCUPY. pose proof bit_mask_range.
  rewrite u64_small by (unfold is_u64; lia). rewrite Z.lor_spec.
  destruct (decide (j < 0)).
  - rewrite !Z.testbit_neg_r by lia. rewrite bool_decide_false; [done|lia].
  - by rewrite bit_mask_testbit by lia.
Qed.

Lemma occupy_range : 0 <= POLAR_BIT_OCCUPY x i < 2 ^ 64.
Proof.
  unfold POLAR_BIT_OCCUPY. pose proof bit_mask_range as Hr.
  rewrite u64_small by (unfold is_u64; lia).
  split; [apply Z.lor_nonneg; lia|]. apply Z.log2_lt_cancel. rewrite Z.log2_lor by lia.
  change (Z.log2 (2 ^ 64)) with 64.
  apply Z.max_lub_lt; [|apply Z.log2_lt_pow2; lia].
  destruct (decide (x = 0)) as [->|]; [done|]. apply Z.log2_lt_pow2; lia.
Qed.

Lemma release_testbit j :
  Z.testbit (POLAR_BIT_RELEASE_OCCUPIED x i) j = Z.testbit x j && negb (bool_decide (j = i - 1)).
Proof.
  unfold POLAR_BIT_RELEASE_OCCUPIED. rewrite Z.land_spec.
  destruct (decide (j < 0)); [by rewrite Z.testbit_neg_r by lia|].
  destruct (decide (64 <= j)).
  - destruct (Z.testbit x j) eqn:E; [|done]. apply testbit_lt_pow2 in E; lia.
  - unfold u64, wrap. rewrite Z.mod_pow2_bits_low by lia.
    rewrite Z.lnot_spec by lia. by rewrite bit_mask_testbit by lia.
Qed.

Lemma release_range : 0 <= POLAR_BIT_RELEASE_OCCUPIED x i < 2 ^ 64.
Proof.
  unfold POLAR_BIT_RELEASE_OCCUPIED.
  split; [apply Z.land_nonneg; lia|].
  assert (Z.land x (u64 (Z.lnot (Z.shiftl 1 (i - 1)))) <= x); [|lia].
  apply Z.ldiff_le; [lia|]. apply Z.bits_inj. intros n.
  rewrite Z.ldiff_spec, Z.land_spec, Z.bits_0.
  by destruct (Z.testbit x n), (Z.testbit (u64 _) n).
Qed.
End occupancy.

(** The lowest free position of a mask with a free bit below [n]. *)
Lemma least_free_pos v n :
  0 <= v < 2 ^ n -> 0 <= n < 64 ->
  let i := POLAR_BIT_LEAST_POS (u64 (Z.lnot v)) in
  1 <= i <= 64 /\ Z.testbit v (i - 1) = false /\
  forall j, 0 <= j < i - 1 -> Z.testbit v j = true.
Proof.
  intros Hv Hn i. set (un := u64 (Z.lnot v)) in *.
  assert (0 <= un < 2 ^ 64) as Hun by (apply wrap_range; lia).
  assert (un <> 0) as Hne.
  { intros E. pose proof (lnot_u64_testbit v n ltac:(lia)) as Hb. fold un in Hb.
    rewrite E, Z.bits_0 in Hb. rewrite <- (Z.mod_small v (2 ^ n)) in Hb by lia.
    by rewrite Z.mod_pow2_bits_high in Hb by lia. }
  destruct (least_pos_spec un ltac:(lia)) as (Hp1 & Hp2 & Hp3). fold i in Hp1, Hp2, Hp3.
  split; [done|]. split.
  - apply negb_true_iff. by rewrite <- lnot_u64_testbit by lia.
  - intros j Hj. apply negb_false_iff. rewrite <- lnot_u64_testbit by lia. by apply Hp3.
Qed.

(** ** The portable variant *)

(** [k] is the index of the lowest set bit of [v]. *)
Definition lowest_bit (v k : Z) : Prop :=
  0 <= k /\ Z.testbit v k = true /\ forall j, 0 <= j < k -> Z.testbit v j = false.

Lemma lowest_bit_least_pos v k :
  0 < v < 2 ^ 64 -> lowest_bit v k -> POLAR_BIT_LEAST_POS v = k + 1.
Proof.
  intros Hv (Hk & Hb & Hl). apply least_pos_unique; [done|lia| |].
  - by replace (k + 1 - 1) with k by lia.
  - intros j Hj. apply Hl. lia.
Qed.

(** The mask test says whether the lowest bit is below the shift. *)
Lemma lowest_bit_mask v k sh :
  0 <= sh -> lowest_bit v k -> (Z.land v (Z.ones sh) =? 0) = bool_decide (sh <= k).
Proof.
  intros Hsh (Hk & Hb & Hl). rewrite Z.land_ones by done. case_bool_decide as Hc.
  - apply Z.eqb_eq, Z.bits_inj_0. intros n.
    destruct (decide (n < 0)); [by apply Z.testbit_neg_r; lia|].
    destruct (decide (n < sh)).
    + rewrite Z.mod_pow2_bits_low by lia. apply Hl. lia.
    + apply Z.mod_pow2_bits_high. lia.
  - apply Z.eqb_neq. intros E.
    assert (Z.testbit (v mod 2 ^ sh) k = true) as Ht by (rewrite Z.mod_pow2_bits_low by lia; done).
    by rewrite E, Z.bits_0 in Ht.
Qed.

(** One halving step keeps the index [p + k] of the lowest bit and
    brings [k] below the shift. *)
Lemma bit_halve_step sh p v k p' v' :
  0 <= sh -> lowest_bit v k -> k < 2 * sh -> bit_halve (Z.ones sh) sh (p, v) = (p', v') ->
  exists k', lowest_bit v' k' /\ k' < sh /\ p' + k' = p + k.
Proof.
  intros Hsh Hlow Hk2 H. unfold bit_halve in H.
  rewrite (lowest_bit_mask v k sh) in H by done. destruct Hlow as (Hk & Hb & Hl).
  case_bool_decide; injection H as <- <-.
  - exists (k - sh). repeat split; [lia| | |lia|lia].
    + rewrite Z.shiftr_spec by lia. by replace (k - sh + sh) with k by lia.
    + intros j Hj. rewrite Z.shiftr_spec by lia. apply Hl. lia.
  - exists k. repeat split; [done|done|done|lia].
Qed.

Lemma portable_lowest_bit v k :
  lowest_bit v k -> k < 64 -> POLAR_BIT_LEAST_POS_portable v = k.
Proof.
  intros Hlow Hk. unfold POLAR_BIT_LEAST_POS_portable.
  change 0xffffffff with (Z.ones 32). change 0xffff with (Z.ones 16).
  change 0xff with (Z.ones 8). change 0xf with (Z.ones 4). change 0x3 with (Z.ones 2).
  change 0x1 with (Z.ones 1).
  destruct (bit_halve (Z.ones 32) 32 (0, v)) as [p1 v1] eqn:E1.
  apply (bit_halve_step 32 0 v k) in E1 as (k1 & H1 & B1 & S1); [|done..].
  destruct (bit_halve (Z.ones 16) 16 (p1, v1)) as [p2 v2] eqn:E2.
  apply (bit_halve_step 16 p1 v1 k1) in E2 as (k2 & H2 & B2 & S2); [|done..].
  destruct (bit_halve (Z.ones 8) 8 (p2, v2)) as [p3 v3] eqn:E3.
  apply (bit_halve_step 8 p2 v2 k2) in E3 as (k3 & H3 & B3 & S3); [|done..].
  destruct (bit_halve (Z.ones 4) 4 (p3, v3)) as [p4 v4] eqn:E4.
  apply (bit_halve_step 4 p3 v3 k3) in E4 as (k4 & H4 & B4 & S4); [|done..].
  destruct (bit_halve (Z.ones 2) 2 (p4, v4)) as [p5 v5] eqn:E5.
  apply (bit_halve_step 2 p4 v4 k4) in E5 as (k5 & H5 & B5 & S5); [|done..].
  rewrite (lowest_bit_mask v5 k5 1) by done. destruct H5 as (Hk5 & _ & _).
  change (Z.ones 1) with 1. case_bool_decide; lia.
Qed.

(** ** Properties *)

(** The loop over an occupancy mask terminates within its fuel and
    visits exactly the set bits of the 64-bit mask, each once, in
    increasing order. *)
Theorem for_each_bit_visits_set_bits (v : Z) :
  0 <= v < 2 ^ 64 ->
  for_each_bit (fun i l => l ++ [i]) v [] = positions v /\
  StronglySorted Z.lt (positions v) /\
  forall i, i ∈ positions v <-> 1 <= i <= 64 /\ Z.testbit v (i - 1) = true.
Proof.
  intros Hv. split; [|split].
  - rewrite for_each_bit_fold by done.
    enough (forall l a, fold_left (fun a i => a ++ [i]) l a = a ++ l) as Hf by (by rewrite Hf).
    induction l as [|x l IH]; intros a; simpl; [by rewrite app_nil_r|].
    rewrite IH. by rewrite <- app_assoc.
  - unfold positions, positions_from. 
    assert (forall n lo, StronglySorted Z.lt (seqZ lo (Z.of_nat n))) as Hs.
    { induction n as [|n IH]; intros lo; [constructor|]. rewrite seqZ_cons by lia.
      replace (Z.pred (Z.of_nat (S n))) with (Z.of_nat n) by lia.
      constructor; [apply IH|]. apply Forall_forall. intros y Hy.
      apply elem_of_seqZ in Hy. lia. }
    change (65 - 1) with (Z.of_nat 64). specialize (Hs 64%nat 1).
    induction Hs as [|a l Hs IH Ha]; [constructor|].
    destruct (decide (Z.testbit v (a - 1) = true)).
    + rewrite filter_cons_True by done. constructor; [done|].
      apply Forall_forall. intros y Hy. apply list_elem_of_filter in Hy as [_ Hy].
      rewrite Forall_forall in Ha. by apply Ha.
    + by rewrite filter_cons_False by done.
  - apply elem_of_positions.
Qed.

Lemma for_each_bit_visits_witness :
  for_each_bit (fun i l => l ++ [i]) 0x8000000000000105 [] = positions 0x8000000000000105 /\
  positions 0x8000000000000105 = [1; 3; 9; 64].
Proof.
  split; [|vm_compute; reflexivity].
  apply (for_each_bit_visits_set_bits 0x8000000000000105). lia.
Defined.

(** C39: the two variants of the macro disagree: where [__GNUC__] is not
    defined the macro yields the index of the lowest set bit counted from
    zero, one less than [__builtin_ffsl], while the callers use positions
    that start from 1. *)
Theorem portable_least_pos_off_by_one (v : Z) :
  0 < v < 2 ^ 64 -> POLAR_BIT_LEAST_POS_portable v = POLAR_BIT_LEAST_POS v - 1.
Proof.
  intros Hv. destruct (least_pos_spec v Hv) as (H1 & H2 & H3).
  rewrite (portable_lowest_bit v (POLAR_BIT_LEAST_POS v - 1)); [done| |lia].
  split; [lia|done].
Qed.

Lemma portable_least_pos_witness :
  POLAR_BIT_LEAST_POS_portable 1 = POLAR_BIT_LEAST_POS 1 - 1 /\ POLAR_BIT_LEAST_POS 1 = 1.
Proof.
  split; [|reflexivity]. apply (portable_least_pos_off_by_one 1). lia.
Defined.
