(* ===== verification/RingBuf.v ===== *)
(** * The WAL queue's ring buffer (polar_ringbuf.h, polar_ringbuf.c)

    A ring buffer in shared memory carries packets from the writers of WAL
    meta data to the readers that parse it.  Each packet is one flag byte,
    four bytes of length and the payload; it may wrap around the end of
    the buffer.  A reader owns a slot with its read position and the
    number of packets it has read; the least of those bounds what a writer
    may overwrite.

    This file holds the data and one definition per C function; every
    operation that the C code runs under the buffer's lock is one step.
    Sizes and positions are below the buffer size and stay far from
    [2^64], so position arithmetic is exact; counters ([visit],
    [ref_num]) wrap at 64 bits. *)

From Stdlib Require Import Ascii String.
From S2P Require Import Prelude BitPos.

(** ** Data *)

Definition POLAR_RINGBUF_MAX_SLOT : Z := 32.
Definition POLAR_RINGBUF_MAX_REF_NAME : Z := 63.

Definition POLAR_RINGBUF_PKTHDRSIZE : Z := 5.
Definition POLAR_RINGBUF_PKT_SIZE (len : Z) : Z := len + POLAR_RINGBUF_PKTHDRSIZE.

Definition POLAR_RINGBUF_PKT_FREE : Z := 0x00.
Definition POLAR_RINGBUF_PKT_READY : Z := 0x01.
Definition POLAR_RINGBUF_PKT_STATE_MASK : Z := 0x01.
Definition POLAR_RINGBUF_PKT_INVALID_TYPE : Z := 0x00.
Definition POLAR_RINGBUF_PKT_WAL_META : Z := 0x10.
Definition POLAR_RINGBUF_PKT_WAL_STORAGE_BEGIN : Z := 0x20.
Definition POLAR_RINGBUF_PKT_WAL_STORAGE_END : Z := 0x30.
Definition POLAR_RINGBUF_PKT_TYPE_MASK : Z := 0xF0.

Record polar_ringbuf_slot_t := mk_slot {
  s_strong : bool;
  s_pread : Z;
  s_visit : Z;
  s_ref_num : Z;
  s_ref_name : list Z
}.

(** A slot cleared by [MemSet]. *)
Definition zero_slot : polar_ringbuf_slot_t := mk_slot false 0 0 0 [].

(** [ref_rbuf] says whether the reference's [rbuf] pointer is set. *)
Record polar_ringbuf_ref_t := mk_ref {
  ref_rbuf : bool;
  ref_ref_num : Z;
  ref_slot : Z;
  ref_strong : bool;
  ref_ref_name : list Z
}.

Record polar_ringbuf_data_t := mk_rbuf {
  rb_pread : Z;
  rb_pwrite : Z;
  rb_ref_num : Z;
  rb_occupied : Z;
  rb_slot : list polar_ringbuf_slot_t;
  rb_min_visit : Z;
  rb_size : Z;
  rb_data : list Z
}.

Definition slot_at (rb : polar_ringbuf_data_t) (i : Z) : polar_ringbuf_slot_t :=
  aget zero_slot (rb_slot rb) i.

Definition with_pread (rb : polar_ringbuf_data_t) (p : Z) :=
  mk_rbuf p (rb_pwrite rb) (rb_ref_num rb) (rb_occupied rb) (rb_slot rb)
          (rb_min_visit rb) (rb_size rb) (rb_data rb).
Definition with_pwrite (rb : polar_ringbuf_data_t) (p : Z) :=
  mk_rbuf (rb_pread rb) p (rb_ref_num rb) (rb_occupied rb) (rb_slot rb)
          (rb_min_visit rb) (rb_size rb) (rb_data rb).
Definition with_ref_num (rb : polar_ringbuf_data_t) (n : Z) :=
  mk_rbuf (rb_pread rb) (rb_pwrite rb) n (rb_occupied rb) (rb_slot rb)
          (rb_min_visit rb) (rb_size rb) (rb_data rb).
Definition with_occupied (rb : polar_ringbuf_data_t) (o : Z) :=
  mk_rbuf (rb_pread rb) (rb_pwrite rb) (rb_ref_num rb) o (rb_slot rb)
          (rb_min_visit rb) (rb_size rb) (rb_data rb).
Definition with_slot (rb : polar_ringbuf_data_t) (i : Z) (s : polar_ringbuf_slot_t) :=
  mk_rbuf (rb_pread rb) (rb_pwrite rb) (rb_ref_num rb) (rb_occupied rb)
          (aset (rb_slot rb) i s) (rb_min_visit rb) (rb_size rb) (rb_data rb).
Definition with_min_visit (rb : polar_ringbuf_data_t) (v : Z) :=
  mk_rbuf (rb_pread rb) (rb_pwrite rb) (rb_ref_num rb) (rb_occupied rb) (rb_slot rb)
          v (rb_size rb) (rb_data rb).
Definition with_data (rb : polar_ringbuf_data_t) (d : list Z) :=
  mk_rbuf (rb_pread rb) (rb_pwrite rb) (rb_ref_num rb) (rb_occupied rb) (rb_slot rb)
          (rb_min_visit rb) (rb_size rb) d.

(** ** Bytes

    The length field is the in-memory image of a [uint32]; the model is
    little endian. *)

Fixpoint le_encode (n : nat) (z : Z) : list Z :=
  match n with
  | O => []
  | S n => z mod 256 :: le_encode n (z / 256)
  end.

Fixpoint le_decode (l : list Z) : Z :=
  match l with
  | [] => 0
  | b :: l => b + 256 * le_decode l
  end.

(** [memcpy] out of and into the data area at [idx]. *)
Definition mem_read (data : list Z) (idx n : Z) : list Z :=
  take (Z.to_nat n) (drop (Z.to_nat idx) data).

Definition mem_write (data : list Z) (idx : Z) (buf : list Z) : list Z :=
  take (Z.to_nat idx) data ++ buf ++ drop (Z.to_nat idx + length buf) data.

(** The copies that may wrap around: when the range passes the end of
    the data area it is split and the rest is copied at position 0. *)
Definition copy_from_ring (rb : polar_ringbuf_data_t) (idx todo : Z) : list Z :=
  let split := if idx + todo >? rb_size rb then rb_size rb - idx else 0 in
  if split >? 0 then
    mem_read (rb_data rb) idx split ++ mem_read (rb_data rb) 0 (todo - split)
  else mem_read (rb_data rb) idx todo.

Definition copy_to_ring (rb : polar_ringbuf_data_t) (idx : Z) (buf : list Z) : polar_ringbuf_data_t :=
  let todo := Z.of_nat (length buf) in
  let split := if idx + todo >? rb_size rb then rb_size rb - idx else 0 in
  if split >? 0 then
    let d := mem_write (rb_data rb) idx (take (Z.to_nat split) buf) in
    with_data rb (mem_write d 0 (drop (Z.to_nat split) buf))
  else with_data rb (mem_write (rb_data rb) idx buf).

(** ** Packets *)

Definition polar_ringbuf_pkt_len (rb : polar_ringbuf_data_t) (idx : Z) : Z :=
  le_decode (copy_from_ring rb ((idx + 1) mod rb_size rb) 4).

Definition polar_ringbuf_set_pkt_length (rb : polar_ringbuf_data_t) (idx len : Z)
  : polar_ringbuf_data_t :=
  copy_to_ring rb ((idx + 1) mod rb_size rb) (le_encode 4 len).

Definition polar_ringbuf_set_pkt_flag (rb : polar_ringbuf_data_t) (idx flag : Z)
  : polar_ringbuf_data_t :=
  with_data rb (aset (rb_data rb) idx flag).

Definition polar_ringbuf_free_size (rb : polar_ringbuf_data_t) : Z :=
  let free_bytes := rb_pread rb - rb_pwrite rb in
  (if free_bytes <=? 0 then free_bytes + rb_size rb else free_bytes) - 1.

Definition polar_ringbuf_avail (rb : polar_ringbuf_data_t) (ref : polar_ringbuf_ref_t) : Z :=
  let avail := rb_pwrite rb - s_pread (slot_at rb (ref_slot ref)) in
  if avail <? 0 then avail + rb_size rb else avail.

Definition polar_ringbuf_pkt_reserve (rb : polar_ringbuf_data_t) (len : Z)
  : polar_ringbuf_data_t * Z :=
  let idx := rb_pwrite rb in
  let rb := with_data rb (aset (rb_data rb) idx POLAR_RINGBUF_PKT_FREE) in
  (with_pwrite rb ((idx + len) mod rb_size rb), idx).

(** Packet type and length; the type is [POLAR_RINGBUF_PKT_INVALID_TYPE]
    and the length 0 when the packet is not ready. *)
Definition polar_ringbuf_next_ready_pkt (rb : polar_ringbuf_data_t) (ref : polar_ringbuf_ref_t)
  : Z * Z :=
  let idx := s_pread (slot_at rb (ref_slot ref)) in
  if negb (Z.land (aget 0 (rb_data rb) idx) POLAR_RINGBUF_PKT_STATE_MASK
           =? POLAR_RINGBUF_PKT_READY)
  then (POLAR_RINGBUF_PKT_INVALID_TYPE, 0)
  else
    let pktlen := polar_ringbuf_pkt_len rb idx in
    (Z.land (aget 0 (rb_data rb) idx) POLAR_RINGBUF_PKT_TYPE_MASK, pktlen).

(** [None] is the return value -1; otherwise the bytes copied to the
    caller's buffer.  [offset] is a C [int] promoted to [size_t]. *)
Definition polar_ringbuf_read_next_pkt (rb : polar_ringbuf_data_t) (ref : polar_ringbuf_ref_t)
    (offset len : Z) : option (list Z) :=
  let idx := s_pread (slot_at rb (ref_slot ref)) in
  let pktlen := polar_ringbuf_pkt_len rb idx in
  if u64 offset >=? pktlen then None
  else
    let len := if u64 (offset + len) >? pktlen then pktlen - offset else len in
    let idx := (idx + POLAR_RINGBUF_PKTHDRSIZE + offset) mod rb_size rb in
    Some (copy_from_ring rb idx len).

(** [None] is the return value -1, with nothing written; otherwise the
    new buffer and the returned length. *)
Definition polar_ringbuf_pkt_write (rb : polar_ringbuf_data_t) (idx offset : Z) (buf : list Z)
  : option (polar_ringbuf_data_t * Z) :=
  let len := Z.of_nat (length buf) in
  let pktlen := polar_ringbuf_pkt_len rb idx in
  if (u64 offset >=? pktlen) || (u64 (offset + len) >? pktlen) then None
  else
    let idx := (idx + POLAR_RINGBUF_PKTHDRSIZE + offset) mod rb_size rb in
    Some (copy_to_ring rb idx buf, len).

(** ** References *)

(** [polar_ringbuf_init] on a memory area whose other fields hold what
    [rb] says; [min_visit] and [ref_num] keep their value. *)
Definition polar_ringbuf_init (rb : polar_ringbuf_data_t) (data_size : Z) : polar_ringbuf_data_t :=
  mk_rbuf 0 0 (rb_ref_num rb) 0
          (replicate (Z.to_nat POLAR_RINGBUF_MAX_SLOT) zero_slot)
          (rb_min_visit rb) data_size (rb_data rb).

Definition RINGBUF_REF_MATCH (rb : polar_ringbuf_data_t) (ref : polar_ringbuf_ref_t) : bool :=
  (0 <=? ref_slot ref) && (ref_slot ref <? POLAR_RINGBUF_MAX_SLOT) &&
  (s_ref_num (slot_at rb (ref_slot ref)) =? ref_ref_num ref).

Definition polar_ringbuf_new_ref (rb : polar_ringbuf_data_t) (strong : bool)
    (ref_name : option (list Z)) : polar_ringbuf_data_t * option polar_ringbuf_ref_t :=
  let unoccupied := u64 (Z.lnot (rb_occupied rb)) in
  let i := POLAR_BIT_LEAST_POS unoccupied in
  if (0 <? i) && (i <=? POLAR_RINGBUF_MAX_SLOT) then
    let rb := with_occupied rb (POLAR_BIT_OCCUPY (rb_occupied rb) i) in
    let i := i - 1 in
    let rb := with_ref_num rb (u64 (rb_ref_num rb + 1)) in
    let name := match ref_name with
                | Some n => take (Z.to_nat POLAR_RINGBUF_MAX_REF_NAME) n
                | None => []
                end in
    let rb := with_slot rb i
                (mk_slot strong (rb_pread rb) (rb_min_visit rb) (rb_ref_num rb) name) in
    (rb, Some (mk_ref true (rb_ref_num rb) i strong name))
  else (rb, None).

(** The slot with the least visit count among those [sel] selects:
    [(min_visit, min_slot)], with [min_slot] 32 when there is none. *)
Definition min_visit_body (rb : polar_ringbuf_data_t) (sel : polar_ringbuf_slot_t -> bool)
    (i : Z) (acc : Z * Z) : Z * Z :=
  let '(min_visit, min_slot) := acc in
  let i := i - 1 in
  if sel (slot_at rb i) && (min_visit >? s_visit (slot_at rb i))
  then (s_visit (slot_at rb i), i)
  else (min_visit, min_slot).

Definition min_visit_scan (rb : polar_ringbuf_data_t) (sel : polar_ringbuf_slot_t -> bool) : Z * Z :=
  for_each_bit (min_visit_body rb sel) (rb_occupied rb) (UINT64_MAX, POLAR_RINGBUF_MAX_SLOT).

Definition polar_ringbuf_update_pread (rb : polar_ringbuf_data_t) : polar_ringbuf_data_t * bool :=
  let '(min_visit, min_slot) := min_visit_scan rb (fun _ => true) in
  if negb (min_slot =? POLAR_RINGBUF_MAX_SLOT) && negb (rb_min_visit rb =? min_visit) then
    let rb := with_min_visit rb min_visit in
    (with_pread rb (s_pread (slot_at rb min_slot)), true)
  else (rb, false).

Definition clear_slot (rb : polar_ringbuf_data_t) (i : Z) : polar_ringbuf_data_t :=
  with_slot (with_occupied rb (POLAR_BIT_RELEASE_OCCUPIED (rb_occupied rb) (i + 1))) i zero_slot.

Definition polar_ringbuf_release_ref (rb : polar_ringbuf_data_t) (ref : polar_ringbuf_ref_t)
  : polar_ringbuf_data_t * polar_ringbuf_ref_t :=
  if ref_rbuf ref then
    let rb := if RINGBUF_REF_MATCH rb ref
              then (polar_ringbuf_update_pread (clear_slot rb (ref_slot ref))).1
              else rb in
    (rb, mk_ref false (ref_ref_num ref) (ref_slot ref) (ref_strong ref) (ref_ref_name ref))
  else (rb, ref).

Definition set_strong (rb : polar_ringbuf_data_t) (i : Z) (b : bool) : polar_ringbuf_data_t :=
  let s := slot_at rb i in
  with_slot rb i (mk_slot b (s_pread s) (s_visit s) (s_ref_num s) (s_ref_name s)).

Definition polar_ringbuf_get_ref (rb : polar_ringbuf_data_t) (ref : polar_ringbuf_ref_t)
  : polar_ringbuf_data_t * bool :=
  if RINGBUF_REF_MATCH rb ref then (set_strong rb (ref_slot ref) true, true) else (rb, false).

Definition polar_ringbuf_clear_ref (rb : polar_ringbuf_data_t) (ref : polar_ringbuf_ref_t)
  : polar_ringbuf_data_t * bool :=
  if RINGBUF_REF_MATCH rb ref then (set_strong rb (ref_slot ref) false, true) else (rb, false).

Definition polar_ringbuf_valid_ref (rb : polar_ringbuf_data_t) (ref : option polar_ringbuf_ref_t)
  : bool :=
  match ref with
  | None => false
  | Some r => if ref_rbuf r then RINGBUF_REF_MATCH rb r else false
  end.

Definition polar_ringbuf_update_ref (rb : polar_ringbuf_data_t) (ref : polar_ringbuf_ref_t)
  : polar_ringbuf_data_t :=
  let s := slot_at rb (ref_slot ref) in
  let idx := s_pread s in
  let pktlen := polar_ringbuf_pkt_len rb idx in
  with_slot rb (ref_slot ref)
    (mk_slot (s_strong s) ((idx + POLAR_RINGBUF_PKTHDRSIZE + pktlen) mod rb_size rb)
             (u64 (s_visit s + 1)) (s_ref_num s) (s_ref_name s)).

Definition polar_ringbuf_evict_ref (rb : polar_ringbuf_data_t) : polar_ringbuf_data_t * bool :=
  let '(_, min_slot) := min_visit_scan rb (fun s => negb (s_strong s)) in
  if negb (min_slot =? POLAR_RINGBUF_MAX_SLOT)
     && (rb_pread rb =? s_pread (slot_at rb min_slot))
  then (clear_slot rb min_slot, true)
  else (rb, false).

Definition polar_ringbuf_update_keep_data (rb : polar_ringbuf_data_t) : polar_ringbuf_data_t :=
  (polar_ringbuf_update_pread rb).1.

(** One iteration of the loop of [polar_ringbuf_free_up]: enough space,
    space or a reference was freed, or the caller sleeps and retries. *)
Inductive free_up_status : Set := FreeEnough | FreedSome | MustWait.

Definition free_up_iter (rb : polar_ringbuf_data_t) (len : Z)
  : polar_ringbuf_data_t * free_up_status :=
  if polar_ringbuf_free_size rb >? len then (rb, FreeEnough)
  else
    match polar_ringbuf_update_pread rb with
    | (rb, true) => (rb, FreedSome)
    | (rb, false) =>
      match polar_ringbuf_evict_ref rb with
      | (rb, true) => (rb, FreedSome)
      | (rb, false) => (rb, MustWait)
      end
    end.

(** The loop; [callback] is what the caller does between two attempts
    (nothing when it is NULL). *)
Fixpoint polar_ringbuf_free_up (fuel : nat)
    (callback : polar_ringbuf_data_t -> outcome polar_ringbuf_data_t)
    (rb : polar_ringbuf_data_t) (len : Z) : outcome polar_ringbuf_data_t :=
  match fuel with
  | O => Fault OUT_OF_FUEL
  | S n =>
    match free_up_iter rb len with
    | (rb, FreeEnough) => Done rb
    | (rb, FreedSome) => polar_ringbuf_free_up n callback rb len
    | (rb, MustWait) => let! rb := callback rb in polar_ringbuf_free_up n callback rb len
    end
  end.

(** [keep_size] is [rbuf->size * ratio] converted to [ssize_t]. *)
Fixpoint ref_keep_data_loop (fuel : nat) (rb : polar_ringbuf_data_t) (ref : polar_ringbuf_ref_t)
    (keep_size : Z) (updated : bool) : outcome (polar_ringbuf_data_t * bool) :=
  match fuel with
  | O => Fault OUT_OF_FUEL
  | S n =>
    if polar_ringbuf_avail rb ref >? keep_size
    then ref_keep_data_loop n (polar_ringbuf_update_ref rb ref) ref keep_size true
    else Done (rb, updated)
  end.

Definition polar_ringbuf_ref_keep_data (fuel : nat) (rb : polar_ringbuf_data_t)
    (ref : polar_ringbuf_ref_t) (keep_size : Z) : outcome polar_ringbuf_data_t :=
  let! (rb, updated) := ref_keep_data_loop fuel rb ref keep_size false in
  Done (if updated then polar_ringbuf_update_keep_data rb else rb).

(** [None]: the loop goes round again until every slot is released. *)
Definition polar_ringbuf_reset (rb : polar_ringbuf_data_t) : option polar_ringbuf_data_t :=
  if negb (rb_occupied rb =? 0) then None
  else Some (with_pwrite (with_pread rb 0) 0).

(** The bytes of a C string literal. *)
Definition c_string (s : String.string) : list Z :=
  map (fun a => Z.of_N (Ascii.N_of_ascii a)) (String.list_ascii_of_string s).

(** ** The flashback log index queue's callback

    A temporary strong reference skips data until at most [keep_size]
    bytes are left. *)
Definition flog_index_queue_keep_data (fuel : nat) (keep_size : Z) (rb : polar_ringbuf_data_t)
  : outcome polar_ringbuf_data_t :=
  match polar_ringbuf_new_ref rb true
          (Some (c_string "flashback_logindex_queue_data_keep"%string)) with
  | (_, None) => Fault PANIC
  | (rb, Some ref) =>
    let! rb := polar_ringbuf_ref_keep_data fuel rb ref keep_size in
    Done (polar_ringbuf_release_ref rb ref).1
  end.

(** ** A writer: [polar_xlog_recv_queue_push] *)

(** The body of the loop for one packet, once there is room for it. *)
Definition recv_queue_push_pkt (rb : polar_ringbuf_data_t) (buf : list Z)
  : outcome polar_ringbuf_data_t :=
  let pktlen := Z.of_nat (length buf) in
  let '(rb, idx) := polar_ringbuf_pkt_reserve rb (POLAR_RINGBUF_PKT_SIZE pktlen) in
  if (idx <? 0) || (idx >=? rb_size rb) then Fault PANIC
  else
    let rb := polar_ringbuf_set_pkt_length rb idx pktlen in
    match polar_ringbuf_pkt_write rb idx 0 buf with
    | Some (rb, write_len) =>
      if negb (u32 write_len =? pktlen) then Fault PANIC
      else Done (polar_ringbuf_set_pkt_flag rb idx
                   (Z.lor POLAR_RINGBUF_PKT_WAL_META POLAR_RINGBUF_PKT_READY))
    | None => Fault PANIC
    end.

(** The inner [while] that makes room. *)
Fixpoint recv_queue_wait_room (fuel : nat)
    (callback : polar_ringbuf_data_t -> outcome polar_ringbuf_data_t)
    (rb : polar_ringbuf_data_t) (size : Z) : outcome polar_ringbuf_data_t :=
  match fuel with
  | O => Fault OUT_OF_FUEL
  | S n =>
    if polar_ringbuf_free_size rb <? size then
      let! rb := polar_ringbuf_free_up n callback rb size in
      recv_queue_wait_room n callback rb size
    else Done rb
  end.

(** The loop over the packets of the received message; reading past the
    end of the message is undefined. *)
Fixpoint recv_queue_push_loop (fuel : nat)
    (callback : polar_ringbuf_data_t -> outcome polar_ringbuf_data_t)
    (rb : polar_ringbuf_data_t) (buf : list Z) (copy_len len : Z)
  : outcome polar_ringbuf_data_t :=
  match fuel with
  | O => Fault OUT_OF_FUEL
  | S n =>
    if Z.of_nat (length buf) <? 4 then Fault UNDEFINED else
    let pktlen := le_decode (take 4 buf) in
    let buf := drop 4 buf in
    let copy_len := copy_len + 4 in
    let! rb := recv_queue_wait_room n callback rb (POLAR_RINGBUF_PKT_SIZE pktlen) in
    if Z.of_nat (length buf) <? pktlen then Fault UNDEFINED else
    let! rb := recv_queue_push_pkt rb (take (Z.to_nat pktlen) buf) in
    let buf := drop (Z.to_nat pktlen) buf in
    let copy_len := copy_len + pktlen in
    if copy_len <? len then recv_queue_push_loop n callback rb buf copy_len len
    else if negb (copy_len =? len) then Fault PANIC
    else Done rb
  end.

Definition polar_xlog_recv_queue_push (fuel : nat)
    (callback : polar_ringbuf_data_t -> outcome polar_ringbuf_data_t)
    (rb : polar_ringbuf_data_t) (buf : list Z) : outcome polar_ringbuf_data_t :=
  recv_queue_push_loop fuel callback rb buf 0 (Z.of_nat (length buf)).
