(* ===== verification/RingBytes.v ===== *)
(** * Byte-level facts of the ring buffer

    The split copies of polar_ringbuf.[ch] read and write the bytes at
    consecutive positions modulo the buffer size: this file relates
    [copy_from_ring] and [copy_to_ring] to that view, and shows that a
    length or payload that was stored is read back. *)

From S2P Require Import Prelude BitPos RingBuf.

(** ** Little-endian round trip *)

Lemma length_le_encode n z : length (le_encode n z) = n.
Proof. revert z. induction n as [|n IH]; intros z; simpl; [done|by rewrite IH]. Qed.

Lemma le_decode_encode n z : le_decode (le_encode n z) = z mod 256 ^ Z.of_nat n.
Proof.
  revert z. induction n as [|n IH]; intros z; cbn [le_encode le_decode].
  { symmetry. apply Z.mod_1_r. }
  rewrite IH, Nat2Z.inj_succ, Z.pow_succ_r by lia.
  rewrite (Z.rem_mul_r z 256 (256 ^ Z.of_nat n)); [lia|lia|].
  apply Z.pow_pos_nonneg; lia.
Qed.

Lemma le_decode_encode4 z : is_u32 z -> le_decode (le_encode 4 z) = z.
Proof.
  intros Hz. rewrite le_decode_encode. apply Z.mod_small. unfold is_u32 in Hz.
  change (256 ^ Z.of_nat 4) with (2 ^ 32). lia.
Qed.

(** ** Reads and writes of the flat data area *)

Lemma aget_lookup {A} (d : A) l i x : 0 <= i -> l !! Z.to_nat i = Some x -> aget d l i = x.
Proof. intros Hi Hx. unfold aget. rewrite decide_True by done. by rewrite Hx. Qed.

Lemma lookup_aget {A} (d : A) (l : list A) (k : nat) :
  (k < length l)%nat -> l !! k = Some (aget d l (Z.of_nat k)).
Proof.
  intros Hk. unfold aget. rewrite decide_True by lia. rewrite Nat2Z.id.
  apply lookup_lt_is_Some in Hk as [x Hx]. by rewrite Hx.
Qed.

Lemma length_mem_read data idx n :
  0 <= idx -> 0 <= n -> idx + n <= Z.of_nat (length data) ->
  length (mem_read data idx n) = Z.to_nat n.
Proof. intros. unfold mem_read. rewrite length_take, length_drop. lia. Qed.

Lemma lookup_mem_read data idx n (k : nat) :
  0 <= idx -> Z.of_nat k < n -> idx + n <= Z.of_nat (length data) ->
  mem_read data idx n !! k = Some (aget 0 data (idx + Z.of_nat k)).
Proof.
  intros. unfold mem_read. rewrite lookup_take_lt by lia. rewrite lookup_drop.
  rewrite (lookup_aget 0) by lia. do 2 f_equal. lia.
Qed.

Lemma length_mem_write data idx buf :
  0 <= idx -> idx + Z.of_nat (length buf) <= Z.of_nat (length data) ->
  length (mem_write data idx buf) = length data.
Proof.
  intros. unfold mem_write. rewrite !length_app, length_take, length_drop. lia.
Qed.

Lemma aget_mem_write data idx buf p :
  0 <= idx -> idx + Z.of_nat (length buf) <= Z.of_nat (length data) -> 0 <= p ->
  aget 0 (mem_write data idx buf) p =
  if decide (idx <= p < idx + Z.of_nat (length buf)) then aget 0 buf (p - idx) else aget 0 data p.
Proof.
  intros Hi Hl Hp. unfold aget, mem_write. rewrite !(decide_True (P := 0 <= p)) by lia.
  case_decide as Hd.
  - rewrite decide_True by lia. rewrite lookup_app_r by (rewrite length_take; lia).
    rewrite length_take. rewrite lookup_app_l by lia.
    do 2 f_equal. lia.
  - destruct (decide (p < idx)).
    + rewrite lookup_app_l by (rewrite length_take; lia). by rewrite lookup_take_lt by lia.
    + rewrite lookup_app_r by (rewrite length_take; lia). rewrite length_take.
      rewrite lookup_app_r by lia. rewrite lookup_drop. do 2 f_equal. lia.
Qed.

(** ** The circular view *)

Record ring_ok (rb : polar_ringbuf_data_t) : Prop := {
  ro_size : 5 <= rb_size rb < 2 ^ 62;
  ro_data : Z.of_nat (length (rb_data rb)) = rb_size rb
}.

Definition ring_byte (rb : polar_ringbuf_data_t) (q : Z) : Z :=
  aget 0 (rb_data rb) (q mod rb_size rb).

Definition ring_bytes (rb : polar_ringbuf_data_t) (q n : Z) : list Z :=
  (fun k => ring_byte rb (q + k)) <$> seqZ 0 n.

Lemma length_ring_bytes rb q n : length (ring_bytes rb q n) = Z.to_nat n.
Proof. unfold ring_bytes. by rewrite length_fmap, length_seqZ. Qed.

Lemma lookup_ring_bytes rb q n (k : nat) :
  Z.of_nat k < n -> ring_bytes rb q n !! k = Some (ring_byte rb (q + Z.of_nat k)).
Proof.
  intros Hk. unfold ring_bytes. rewrite list_lookup_fmap, lookup_seqZ_lt by done.
  simpl. by rewrite Z.add_0_l.
Qed.

Lemma ring_bytes_ext rb rb' q q' n :
  (forall k, 0 <= k < n -> ring_byte rb (q + k) = ring_byte rb' (q' + k)) ->
  ring_bytes rb q n = ring_bytes rb' q' n.
Proof.
  intros Hk. unfold ring_bytes. apply list_fmap_ext. intros i x Hx.
  apply lookup_seqZ in Hx as [-> ?]. apply Hk. lia.
Qed.

Lemma list_eq_lookup_len {A} (l k : list A) :
  length l = length k -> (forall i, (i < length l)%nat -> l !! i = k !! i) -> l = k.
Proof.
  intros Hlen Hlk. apply list_eq. intros i. destruct (decide (i < length l)%nat) as [Hi|Hi]; [auto|].
  rewrite !lookup_ge_None_2; [done|lia|lia].
Qed.

Section circular.
Context (rb : polar_ringbuf_data_t) (Hok : ring_ok rb).

Lemma ring_byte_small q : 0 <= q < rb_size rb -> ring_byte rb q = aget 0 (rb_data rb) q.
Proof. intros Hq. unfold ring_byte. by rewrite Z.mod_small. Qed.

Lemma ring_byte_wrap q :
  rb_size rb <= q < 2 * rb_size rb -> ring_byte rb q = aget 0 (rb_data rb) (q - rb_size rb).
Proof.
  intros Hq. unfold ring_byte. f_equal.
  rewrite <- (Z.mod_small (q - rb_size rb) (rb_size rb)) by lia.
  rewrite <- (Z_mod_plus_full (q - rb_size rb) 1). f_equal. lia.
Qed.

Lemma copy_from_ring_bytes idx n :
  0 <= idx < rb_size rb -> 0 <= n <= rb_size rb ->
  copy_from_ring rb idx n = ring_bytes rb idx n.
Proof.
  intros Hi Hn. destruct Hok as [Hs Hd]. unfold copy_from_ring.
  destruct (idx + n >? rb_size rb) eqn:E; zbool.
  - assert (rb_size rb - idx >? 0 = true) as -> by (apply Z.gtb_lt; lia).
    apply list_eq_lookup_len.
    { rewrite length_app, !length_mem_read, length_ring_bytes by lia. lia. }
    intros i Hlt. rewrite length_app, !length_mem_read in Hlt by lia.
    rewrite lookup_ring_bytes by lia.
    destruct (decide (Z.of_nat i < rb_size rb - idx)).
    + rewrite lookup_app_l by (rewrite length_mem_read by lia; lia).
      rewrite lookup_mem_read by lia. by rewrite ring_byte_small by lia.
    + rewrite lookup_app_r by (rewrite length_mem_read by lia; lia).
      rewrite length_mem_read by lia. rewrite lookup_mem_read by lia.
      rewrite ring_byte_wrap by lia. do 2 f_equal. lia.
  - change (0 >? 0) with false. cbn iota. apply list_eq_lookup_len.
    { by rewrite length_mem_read, length_ring_bytes by lia. }
    intros i Hlt. rewrite length_mem_read in Hlt by lia.
    rewrite lookup_ring_bytes, lookup_mem_read by lia. by rewrite ring_byte_small by lia.
Qed.

Lemma copy_to_ring_fields idx buf :
  let rb' := copy_to_ring rb idx buf in
  rb_size rb' = rb_size rb /\ rb_pread rb' = rb_pread rb /\ rb_pwrite rb' = rb_pwrite rb /\
  rb_ref_num rb' = rb_ref_num rb /\ rb_occupied rb' = rb_occupied rb /\
  rb_slot rb' = rb_slot rb /\ rb_min_visit rb' = rb_min_visit rb.
Proof. unfold copy_to_ring. simpl. destruct (_ >? 0); done. Qed.

Lemma copy_to_ring_data idx buf :
  0 <= idx < rb_size rb -> Z.of_nat (length buf) <= rb_size rb ->
  Z.of_nat (length (rb_data (copy_to_ring rb idx buf))) = rb_size rb /\
  forall q, ring_byte (copy_to_ring rb idx buf) q =
    if decide ((q - idx) mod rb_size rb < Z.of_nat (length buf))
    then aget 0 buf ((q - idx) mod rb_size rb) else ring_byte rb q.
Proof.
  intros Hi Hn. destruct Hok as [Hs Hd].
  pose proof (copy_to_ring_fields idx buf) as (Hsz & _).
  unfold ring_byte at 1. rewrite Hsz. unfold copy_to_ring.
  set (n := Z.of_nat (length buf)) in *. set (sz := rb_size rb) in *.
  assert (forall q, let p := q mod sz in 0 <= p < sz /\
    ((idx <= p /\ (q - idx) mod sz = p - idx) \/ (p < idx /\ (q - idx) mod sz = p - idx + sz))) as Hq.
  { intros q p. assert (0 <= p < sz) by (apply Z.mod_pos_bound; lia). split; [done|].
    assert ((q - idx) mod sz = (p - idx) mod sz) as ->.
    { unfold p. by rewrite Zminus_mod_idemp_l. }
    destruct (decide (idx <= p)); [left|right]; (split; [lia|]).
    - apply Z.mod_small. lia.
    - rewrite <- (Z_mod_plus_full (p - idx) 1), Z.mul_1_l. apply Z.mod_small. lia. }
  destruct (idx + n >? sz) eqn:E; zbool.
  - assert (sz - idx >? 0 = true) as -> by (apply Z.gtb_lt; lia). simpl.
    assert (length (take (Z.to_nat (sz - idx)) buf) = Z.to_nat (sz - idx)) as Ht
      by (rewrite length_take; lia).
    assert (length (drop (Z.to_nat (sz - idx)) buf) = Z.to_nat (n - (sz - idx))) as Hr
      by (rewrite length_drop; lia).
    assert (length (mem_write (rb_data rb) idx (take (Z.to_nat (sz - idx)) buf)) = length (rb_data rb))
      as Hl1 by (apply length_mem_write; lia).
    split; [rewrite length_mem_write; lia|].
    intros q. destruct (Hq q) as [Hp Hcase]. set (p := q mod sz) in *.
    rewrite aget_mem_write by lia. rewrite aget_mem_write by lia.
    rewrite Ht, Hr. unfold ring_byte. fold sz p.
    destruct Hcase as [[? ->]|[? ->]]; repeat case_decide; try lia; try done.
    + unfold aget. rewrite !decide_True by lia. by rewrite lookup_take_lt by lia.
    + unfold aget. rewrite !decide_True by lia. rewrite lookup_drop. do 2 f_equal. lia.
  - change (0 >? 0) with false. cbn [rb_data with_data].
    split; [rewrite length_mem_write; lia|].
    intros q. destruct (Hq q) as [Hp Hcase]. set (p := q mod sz) in *.
    rewrite aget_mem_write by lia. unfold ring_byte. fold sz p n.
    destruct Hcase as [[? ->]|[? ->]]; repeat case_decide; lia || done.
Qed.
End circular.
