(* ===== verification/RingQueue.v ===== *)
(** * The ring buffer as a queue of packets

    Specification of polar_ringbuf.[ch]: the buffer holds the packets
    that were reserved and not yet passed by every reader, one after the
    other from the least read position to the write position, and each
    reader stands at the start of one of them.  [queue_wf] is that
    representation invariant, [qstep] the steps writers and readers take,
    and the theorems show that every reachable buffer is well formed and
    that a reader gets the packets that were published, in order and
    unchanged, however the steps interleave. *)

From S2P Require Import Prelude BitPos RingBuf RingBytes.

(** ** Abstract packets *)

Record packet := mk_pkt {
  pk_idx : Z;
  pk_len : Z;
  pk_sized : bool;
  pk_flag : Z;
  pk_body : list Z
}.

Definition pk_size (p : packet) : Z := POLAR_RINGBUF_PKT_SIZE (pk_len p).

Definition pk_ready (p : packet) : bool :=
  Z.land (pk_flag p) POLAR_RINGBUF_PKT_STATE_MASK =? POLAR_RINGBUF_PKT_READY.

(** Bytes from the first packet to packet [k]. *)
Definition off (pkts : list packet) (k : nat) : Z :=
  foldr (fun p a => pk_size p + a) 0 (take k pkts).

Definition total (pkts : list packet) : Z := off pkts (length pkts).

(** Packet [p] is stored at byte [o] counted from position [b]. *)
Record pkt_at (rb : polar_ringbuf_data_t) (b o : Z) (p : packet) : Prop := {
  pa_idx : pk_idx p = (b + o) mod rb_size rb;
  pa_len : is_u32 (pk_len p);
  pa_flag : ring_byte rb (b + o) = pk_flag p;
  pa_sized : pk_sized p = true ->
             ring_bytes rb (b + (o + 1)) 4 = le_encode 4 (pk_len p);
  pa_ready : pk_ready p = true -> pk_sized p = true;
  pa_body : ring_bytes rb (b + (o + 5)) (pk_len p) = pk_body p
}.

Definition occ (rb : polar_ringbuf_data_t) (i : Z) : Prop :=
  0 <= i < POLAR_RINGBUF_MAX_SLOT /\ Z.testbit (rb_occupied rb) i = true.

(** Slot [i] stands at the start of packet [k]. *)
Definition ref_at (rb : polar_ringbuf_data_t) (pkts : list packet) (i : Z) (k : nat) : Prop :=
  (k <= length pkts)%nat /\
  s_visit (slot_at rb i) = rb_min_visit rb + Z.of_nat k /\
  s_pread (slot_at rb i) = (rb_pread rb + off pkts k) mod rb_size rb.

Record queue_wf (rb : polar_ringbuf_data_t) (pkts : list packet) : Prop := {
  qw_ring : ring_ok rb;
  qw_pread : 0 <= rb_pread rb < rb_size rb;
  qw_slots : length (rb_slot rb) = Z.to_nat POLAR_RINGBUF_MAX_SLOT;
  qw_occ : 0 <= rb_occupied rb < 2 ^ POLAR_RINGBUF_MAX_SLOT;
  qw_total : total pkts < rb_size rb;
  qw_pwrite : rb_pwrite rb = (rb_pread rb + total pkts) mod rb_size rb;
  qw_visit : 0 <= rb_min_visit rb /\ rb_min_visit rb + Z.of_nat (length pkts) < UINT64_MAX;
  qw_refs : forall i, occ rb i -> exists k, ref_at rb pkts i k;
  qw_free : forall i, 0 <= i < POLAR_RINGBUF_MAX_SLOT -> ~ occ rb i -> slot_at rb i = zero_slot;
  qw_refnum : 0 <= rb_ref_num rb < UINT64_MAX /\
              forall i, occ rb i -> 1 <= s_ref_num (slot_at rb i) <= rb_ref_num rb;
  qw_pkts : forall k p, pkts !! k = Some p -> pkt_at rb (rb_pread rb) (off pkts k) p
}.

(** ** Offsets *)

Lemma pk_size_pos p : is_u32 (pk_len p) -> 5 <= pk_size p.
Proof. unfold is_u32, pk_size, POLAR_RINGBUF_PKT_SIZE, POLAR_RINGBUF_PKTHDRSIZE. lia. Qed.

Lemma off_app_l l1 l2 (k : nat) : (k <= length l1)%nat -> off (l1 ++ l2) k = off l1 k.
Proof. intros. unfold off. rewrite take_app_le by lia. done. Qed.

Lemma foldr_sizes_app l1 l2 :
  foldr (fun p a => pk_size p + a) 0 (l1 ++ l2) =
  foldr (fun p a => pk_size p + a) 0 l1 + foldr (fun p a => pk_size p + a) 0 l2.
Proof. induction l1 as [|p l1 IH]; simpl; [done|]. rewrite IH. lia. Qed.

Lemma off_S pkts (k : nat) p : pkts !! k = Some p -> off pkts (S k) = off pkts k + pk_size p.
Proof.
  intros Hk. unfold off. rewrite (take_S_r _ _ p) by done. rewrite foldr_sizes_app. simpl. lia.
Qed.

Lemma off_drop pkts (k j : nat) : off (drop k pkts) j = off pkts (k + j) - off pkts k.
Proof.
  unfold off. rewrite <- (take_drop k (take (k + j) pkts)).
  rewrite take_take, Nat.min_l by lia. rewrite foldr_sizes_app.
  rewrite skipn_firstn_comm. replace (k + j - k)%nat with j by lia. lia.
Qed.

Lemma total_app l1 l2 : total (l1 ++ l2) = total l1 + total l2.
Proof. unfold total, off. rewrite !take_ge by lia. apply foldr_sizes_app. Qed.

Lemma total_drop pkts (k : nat) : (k <= length pkts)%nat -> total (drop k pkts) = total pkts - off pkts k.
Proof.
  intros. unfold total. rewrite length_drop, off_drop. f_equal. f_equal. lia.
Qed.

Lemma off_insert pkts (k j : nat) p p' :
  pkts !! k = Some p -> pk_len p' = pk_len p -> off (<[k := p']> pkts) j = off pkts j.
Proof.
  intros Hk Hl. unfold off.
  enough (forall l k, l !! k = Some p -> foldr (fun p a => pk_size p + a) 0 (<[k:=p']> l) =
                     foldr (fun p a => pk_size p + a) 0 l) as Hgen.
  { destruct (decide (k < j)%nat).
    - rewrite take_insert_lt by lia. apply Hgen. by rewrite lookup_take_lt by lia.
    - by rewrite take_insert_ge by lia. }
  clear -Hl. induction l as [|x l IH]; intros k Hk; [done|]. destruct k as [|k]; simpl in *.
  - simplify_eq. unfold pk_size. by rewrite Hl.
  - by rewrite IH.
Qed.

Section offsets.
Context (pkts : list packet) (Hlen : forall k p, pkts !! k = Some p -> is_u32 (pk_len p)).

Lemma off_mono_S (k : nat) : off pkts k <= off pkts (S k).
Proof.
  destruct (pkts !! k) as [p|] eqn:E.
  - rewrite (off_S _ _ p E). pose proof (pk_size_pos p (Hlen _ _ E)). lia.
  - unfold off. apply lookup_ge_None in E. rewrite !take_ge by lia. done.
Qed.

Lemma off_mono (j k : nat) : (j <= k)%nat -> off pkts j <= off pkts k.
Proof.
  induction 1 as [|k _ IH]; [done|]. pose proof (off_mono_S k). lia.
Qed.

Lemma off_nonneg (k : nat) : 0 <= off pkts k.
Proof. apply (off_mono 0 k). lia. Qed.

Lemma off_le_total (k : nat) : (k <= length pkts)%nat -> off pkts k <= total pkts.
Proof. apply off_mono. Qed.

Lemma off_pkt_end (k : nat) p : pkts !! k = Some p -> off pkts k + pk_size p <= total pkts.
Proof.
  intros Hk. rewrite <- (off_S _ _ _ Hk). apply off_le_total. apply lookup_lt_Some in Hk. lia.
Qed.

(** Two different packets do not overlap. *)
Lemma off_disjoint (j k : nat) p q :
  pkts !! j = Some p -> pkts !! k = Some q -> j <> k ->
  off pkts j + pk_size p <= off pkts k \/ off pkts k + pk_size q <= off pkts j.
Proof.
  intros Hj Hk Hne. destruct (decide (j < k)%nat).
  - left. rewrite <- (off_S _ _ _ Hj). apply off_mono. lia.
  - right. rewrite <- (off_S _ _ _ Hk). apply off_mono. lia.
Qed.

Lemma off_inj (j k : nat) :
  (j <= length pkts)%nat -> (k <= length pkts)%nat -> off pkts j = off pkts k -> j = k.
Proof.
  intros Hj Hk He. destruct (Nat.lt_trichotomy j k) as [Hlt|[?|Hlt]]; [|done|].
  - destruct (lookup_lt_is_Some_2 pkts j ltac:(lia)) as [p Hp].
    pose proof (off_S _ _ _ Hp). pose proof (off_mono (S j) k ltac:(lia)).
    pose proof (pk_size_pos p (Hlen _ _ Hp)). lia.
  - destruct (lookup_lt_is_Some_2 pkts k ltac:(lia)) as [p Hp].
    pose proof (off_S _ _ _ Hp). pose proof (off_mono (S k) j ltac:(lia)).
    pose proof (pk_size_pos p (Hlen _ _ Hp)). lia.
Qed.
End offsets.

(** ** Relative positions *)

Lemma mod_rel sz b o e :
  0 < sz -> 0 <= o < sz -> 0 <= e < sz ->
  (b + e - (b + o) mod sz) mod sz = if decide (o <= e) then e - o else e - o + sz.
Proof.
  intros Hs Ho He. rewrite Zminus_mod_idemp_r. replace (b + e - (b + o)) with (e - o) by lia.
  case_decide.
  - apply Z.mod_small. lia.
  - rewrite <- (Z_mod_plus_full (e - o) 1), Z.mul_1_l. apply Z.mod_small. lia.
Qed.

Lemma mod_rel_eq sz b o e :
  0 < sz -> 0 <= o < sz -> 0 <= e < sz -> (b + o) mod sz = (b + e) mod sz -> o = e.
Proof.
  intros Hs Ho He Heq. pose proof (mod_rel sz b o e Hs Ho He) as Hr. rewrite Heq in Hr.
  rewrite Zminus_mod_idemp_r in Hr. replace (b + e - (b + e)) with 0 in Hr by lia.
  rewrite Z.mod_0_l in Hr by lia. case_decide; lia.
Qed.

(** Bytes at offset [e] from [b] after a copy to offset [o] from [b]. *)
Lemma copy_to_ring_rel rb b o buf e :
  ring_ok rb -> 0 <= o < rb_size rb -> o + Z.of_nat (length buf) <= rb_size rb ->
  0 <= e < rb_size rb ->
  ring_byte (copy_to_ring rb ((b + o) mod rb_size rb) buf) (b + e) =
  if decide (o <= e < o + Z.of_nat (length buf)) then aget 0 buf (e - o) else ring_byte rb (b + e).
Proof.
  intros Hok Ho Hn He. assert (0 < rb_size rb) by (destruct Hok; lia).
  destruct (copy_to_ring_data rb Hok ((b + o) mod rb_size rb) buf) as [_ Hb];
    [apply Z.mod_pos_bound; lia|lia|].
  rewrite Hb, mod_rel by lia. repeat case_decide; lia || done.
Qed.

Lemma set_byte_rel rb b o x e :
  ring_ok rb -> 0 <= o < rb_size rb -> 0 <= e < rb_size rb ->
  ring_byte (with_data rb (aset (rb_data rb) ((b + o) mod rb_size rb) x)) (b + e) =
  if decide (e = o) then x else ring_byte rb (b + e).
Proof.
  intros [Hs Hd] Ho He. unfold ring_byte. simpl.
  assert (0 <= (b + o) mod rb_size rb < rb_size rb) by (apply Z.mod_pos_bound; lia).
  case_decide as Hc.
  - subst. rewrite aget_aset_eq; [done|lia].
  - rewrite aget_aset_ne; [done|]. intros Heq. apply Hc. symmetry.
    apply (mod_rel_eq (rb_size rb) b); lia || done.
Qed.

Lemma ring_ok_copy rb idx buf :
  ring_ok rb -> 0 <= idx < rb_size rb -> Z.of_nat (length buf) <= rb_size rb ->
  ring_ok (copy_to_ring rb idx buf).
Proof.
  intros Hok Hi Hn. destruct (copy_to_ring_data rb Hok idx buf Hi Hn) as [Hd _].
  destruct (copy_to_ring_fields rb idx buf) as (Hs & _).
  destruct Hok as [H1 H2]. split; rewrite Hs; [done|]. by rewrite Hd.
Qed.

(** A packet whose bytes did not change is still there. *)
Lemma pkt_at_frame rb rb' b o p :
  rb_size rb' = rb_size rb -> is_u32 (pk_len p) -> 0 <= o ->
  (forall d, 0 <= d < pk_size p -> ring_byte rb' (b + (o + d)) = ring_byte rb (b + (o + d))) ->
  pkt_at rb b o p -> pkt_at rb' b o p.
Proof.
  unfold pk_size, POLAR_RINGBUF_PKT_SIZE, POLAR_RINGBUF_PKTHDRSIZE, is_u32.
  intros Hs Hlen Ho Hd [H1 H2 H3 H4 H5 H6]. split; [by rewrite Hs|done| | |done|].
  - specialize (Hd 0). rewrite Z.add_0_r in Hd. rewrite Hd by lia. done.
  - intros Hz. rewrite <- H4 by done. apply ring_bytes_ext. intros k Hk.
    replace (b + (o + 1) + k) with (b + (o + (1 + k))) by lia. apply Hd. lia.
  - rewrite <- H6. apply ring_bytes_ext. intros k Hk.
    replace (b + (o + 5) + k) with (b + (o + (5 + k))) by lia. apply Hd. lia.
Qed.

Lemma pkt_at_ext rb rb' b o p :
  rb_size rb' = rb_size rb -> rb_data rb' = rb_data rb -> pkt_at rb b o p -> pkt_at rb' b o p.
Proof.
  intros Hs Hd Hp. destruct rb as [? ? ? ? ? ? sz d], rb' as [? ? ? ? ? ? sz' d'].
  simpl in Hs, Hd. subst. destruct Hp as [H1 H2 H3 H4 H5 H6]. by split.
Qed.

(** Moving the base position moves the offset the other way. *)
Lemma pkt_at_rebase rb b o b' o' p :
  0 < rb_size rb -> b' mod rb_size rb = (b + (o - o')) mod rb_size rb ->
  pkt_at rb b o p -> pkt_at rb b' o' p.
Proof.
  intros Hs Hb [H1 H2 H3 H4 H5 H6].
  assert (forall d, (b' + (o' + d)) mod rb_size rb = (b + (o + d)) mod rb_size rb) as Hm.
  { intros d. rewrite <- (Zplus_mod_idemp_l b'), Hb, Zplus_mod_idemp_l. f_equal. lia. }
  assert (forall d, ring_byte rb (b' + (o' + d)) = ring_byte rb (b + (o + d))) as Hby.
  { intros d. unfold ring_byte. by rewrite Hm. }
  split; [|done| | |done|].
  - rewrite H1. specialize (Hm 0). by rewrite !Z.add_0_r in Hm.
  - specialize (Hby 0). rewrite !Z.add_0_r in Hby. by rewrite Hby.
  - intros Hz. rewrite <- H4 by done. apply ring_bytes_ext. intros k Hk.
    rewrite <- !Z.add_assoc. apply Hby.
  - rewrite <- H6. apply ring_bytes_ext. intros k Hk. rewrite <- !Z.add_assoc. apply Hby.
Qed.

Lemma ring_bytes_mod rb q n : ring_bytes rb (q mod rb_size rb) n = ring_bytes rb q n.
Proof.
  apply ring_bytes_ext. intros k _. unfold ring_byte. by rewrite Zplus_mod_idemp_l.
Qed.

(** The stored length field is what [polar_ringbuf_pkt_len] returns. *)
Lemma pkt_len_at rb b o p :
  ring_ok rb -> pkt_at rb b o p -> pk_sized p = true ->
  polar_ringbuf_pkt_len rb (pk_idx p) = pk_len p.
Proof.
  intros Hok Hp Hz. pose proof (ro_size rb Hok). unfold polar_ringbuf_pkt_len.
  rewrite (pa_idx _ _ _ _ Hp), Zplus_mod_idemp_l.
  rewrite copy_from_ring_bytes by (done || lia || (apply Z.mod_pos_bound; lia)).
  rewrite ring_bytes_mod, <- Z.add_assoc, (pa_sized _ _ _ _ Hp) by done.
  apply le_decode_encode4. apply Hp.
Qed.

(** The payload from [offset] on. *)
Lemma pkt_body_at rb b o p offset n :
  ring_ok rb -> pkt_at rb b o p -> 0 <= offset -> 0 <= n -> offset + n <= pk_len p ->
  pk_len p <= rb_size rb ->
  copy_from_ring rb ((pk_idx p + POLAR_RINGBUF_PKTHDRSIZE + offset) mod rb_size rb) n =
  take (Z.to_nat n) (drop (Z.to_nat offset) (pk_body p)).
Proof.
  intros Hok Hp Ho Hn Hl Hsz. pose proof (ro_size rb Hok).
  rewrite copy_from_ring_bytes by (done || lia || (apply Z.mod_pos_bound; lia)).
  rewrite ring_bytes_mod, (pa_idx _ _ _ _ Hp).
  replace ((b + o) mod rb_size rb + POLAR_RINGBUF_PKTHDRSIZE + offset)
    with ((b + o) mod rb_size rb + (5 + offset)) by (unfold POLAR_RINGBUF_PKTHDRSIZE; lia).
  rewrite <- (ring_bytes_mod rb (_ + (5 + offset))), Zplus_mod_idemp_l, ring_bytes_mod.
  rewrite <- (pa_body _ _ _ _ Hp). apply list_eq_lookup_len.
  { rewrite length_take, length_drop, !length_ring_bytes. lia. }
  intros i Hi. rewrite length_ring_bytes in Hi. rewrite lookup_ring_bytes by lia.
  rewrite lookup_take_lt, lookup_drop, lookup_ring_bytes by lia. do 2 f_equal. lia.
Qed.

(** ** Lookups of well-formed queues *)

Section wf_facts.
Context (rb : polar_ringbuf_data_t) (pkts : list packet) (Hwf : queue_wf rb pkts).

Lemma wf_lens (k : nat) p : pkts !! k = Some p -> is_u32 (pk_len p).
Proof. intros Hk. apply (qw_pkts _ _ Hwf) in Hk. apply Hk. Qed.

Lemma wf_size_pos : 0 < rb_size rb.
Proof. pose proof (ro_size rb (qw_ring _ _ Hwf)). lia. Qed.

Lemma wf_off_range (k : nat) : (k <= length pkts)%nat -> 0 <= off pkts k < rb_size rb.
Proof.
  intros Hk. pose proof (off_nonneg pkts wf_lens k).
  pose proof (off_le_total pkts wf_lens k Hk). pose proof (qw_total _ _ Hwf). lia.
Qed.

Lemma wf_pkt_range (k : nat) p :
  pkts !! k = Some p -> 0 <= off pkts k /\ 5 <= pk_size p /\ off pkts k + pk_size p < rb_size rb.
Proof.
  intros Hk. pose proof (off_nonneg pkts wf_lens k).
  pose proof (off_pkt_end pkts wf_lens k p Hk). pose proof (qw_total _ _ Hwf).
  pose proof (pk_size_pos p (wf_lens _ _ Hk)). lia.
Qed.

(** Free space and pending bytes add up to the size less one. *)
Lemma free_size_total : polar_ringbuf_free_size rb = rb_size rb - 1 - total pkts.
Proof.
  unfold polar_ringbuf_free_size. rewrite (qw_pwrite _ _ Hwf).
  pose proof (qw_pread _ _ Hwf). pose proof (wf_off_range (length pkts) ltac:(lia)).
  fold (total pkts) in *. set (t := total pkts) in *. set (s := rb_size rb) in *.
  set (p := rb_pread rb) in *.
  destruct (decide (p + t < s)).
  - rewrite Z.mod_small by lia. destruct (p - (p + t) <=? 0) eqn:E; zbool; lia.
  - replace ((p + t) mod s) with (p + t - s).
    + destruct (p - (p + t - s) <=? 0) eqn:E; zbool; lia.
    + rewrite <- (Z.mod_small (p + t - s) s) by lia.
      rewrite <- (Z_mod_plus_full (p + t - s) 1). f_equal. lia.
Qed.

(** What a reader at packet [k] still has to read. *)
Lemma avail_total ref (k : nat) :
  ref_at rb pkts (ref_slot ref) k ->
  polar_ringbuf_avail rb ref = total pkts - off pkts k.
Proof.
  intros (Hk & _ & Hp). unfold polar_ringbuf_avail. rewrite Hp, (qw_pwrite _ _ Hwf).
  pose proof (wf_off_range k Hk) as Ho. pose proof (wf_off_range (length pkts) ltac:(lia)) as Ht.
  pose proof (off_le_total pkts wf_lens k Hk). pose proof (qw_pread _ _ Hwf).
  fold (total pkts) in *. set (t := total pkts) in *. set (o := off pkts k) in *.
  set (s := rb_size rb) in *. set (p := rb_pread rb) in *.
  assert (forall x, 0 <= x < s -> (p + x) mod s = if decide (p + x < s) then p + x else p + x - s) as Hm.
  { intros x Hx. case_decide; [by rewrite Z.mod_small by lia|].
    rewrite <- (Z.mod_small (p + x - s) s) by lia.
    rewrite <- (Z_mod_plus_full (p + x - s) 1). f_equal. lia. }
  rewrite !Hm by done. repeat case_decide; destruct (_ <? 0) eqn:E; zbool; lia.
Qed.

(** A reader at packet [k] points to where that packet was reserved. *)
Lemma ref_at_idx i (k : nat) p :
  ref_at rb pkts i k -> pkts !! k = Some p -> s_pread (slot_at rb i) = pk_idx p.
Proof.
  intros (_ & _ & Hp) Hk. rewrite Hp. symmetry. apply (qw_pkts _ _ Hwf _ _ Hk).
Qed.

Lemma ref_at_unique i (j k : nat) : ref_at rb pkts i j -> ref_at rb pkts i k -> j = k.
Proof. intros (_ & H1 & _) (_ & H2 & _). lia. Qed.

Lemma wf_slot_len : Z.of_nat (length (rb_slot rb)) = POLAR_RINGBUF_MAX_SLOT.
Proof. rewrite (qw_slots _ _ Hwf). done. Qed.

Lemma wf_occ64 : 0 <= rb_occupied rb < 2 ^ 64.
Proof.
  pose proof (qw_occ _ _ Hwf). unfold POLAR_RINGBUF_MAX_SLOT in *.
  assert (2 ^ 32 < 2 ^ 64) by (apply Z.pow_lt_mono_r; lia). lia.
Qed.

Lemma wf_testbit_occ i : Z.testbit (rb_occupied rb) i = true -> occ rb i.
Proof.
  intros Hb. split; [|done]. pose proof (qw_occ _ _ Hwf).
  destruct (decide (i < 0)); [by rewrite Z.testbit_neg_r in Hb by lia|].
  unfold POLAR_RINGBUF_MAX_SLOT in *. split; [lia|].
  destruct (decide (32 <= i)); [|lia].
  rewrite <- (Z.mod_small (rb_occupied rb) (2 ^ 32)) in Hb by lia.
  by rewrite Z.mod_pow2_bits_high in Hb by lia.
Qed.

Lemma occ_positions i : occ rb i <-> (i + 1) ∈ positions (rb_occupied rb).
Proof.
  rewrite elem_of_positions. replace (i + 1 - 1) with i by lia. split.
  - intros [Hi Hb]. unfold POLAR_RINGBUF_MAX_SLOT in Hi. split; [lia|done].
  - intros [_ Hb]. by apply wf_testbit_occ.
Qed.
End wf_facts.

(** ** The scan for the least visit count *)

Lemma min_visit_fold rb sel (l : list Z) acc mv ms :
  fold_left (fun a i => min_visit_body rb sel i a) l acc = (mv, ms) ->
  ((mv, ms) = acc \/
   exists i, i ∈ l /\ ms = i - 1 /\ sel (slot_at rb ms) = true /\ mv = s_visit (slot_at rb ms)
             /\ mv < acc.1) /\
  mv <= acc.1 /\
  forall i, i ∈ l -> sel (slot_at rb (i - 1)) = true -> mv <= s_visit (slot_at rb (i - 1)).
Proof.
  revert acc. induction l as [|x l IH]; intros acc; simpl.
  { intros ->. split; [by left|]. split; [simpl; lia|]. set_solver. }
  intros Hf. apply IH in Hf as (Hcase & Hle & Hmin). clear IH.
  destruct acc as [av as_]. unfold min_visit_body in *.
  destruct (sel (slot_at rb (x - 1))) eqn:Es; [destruct (av >? s_visit (slot_at rb (x - 1))) eqn:Ev|];
    simpl in *; zbool.
  - split; [|split; [lia|]].
    + right. destruct Hcase as [[= -> ->]|(i & Hi & ? & ? & ? & ?)].
      * exists x. split_and!; [set_solver|done|done|done|lia].
      * exists i. split_and!; [set_solver|done|done|done|lia].
    + intros i Hi Hs. apply elem_of_cons in Hi as [->|Hi]; [lia|by apply Hmin].
  - split; [|split; [lia|]].
    + destruct Hcase as [?|(i & Hi & ? & ? & ? & ?)]; [by left|].
      right. exists i. split; [set_solver|done].
    + intros i Hi Hs. apply elem_of_cons in Hi as [->|Hi]; [lia|by apply Hmin].
  - split; [|split; [lia|]].
    + destruct Hcase as [?|(i & Hi & ? & ? & ? & ?)]; [by left|].
      right. exists i. split; [set_solver|done].
    + intros i Hi Hs. apply elem_of_cons in Hi as [->|Hi]; [congruence|by apply Hmin].
Qed.

(** The scan returns an occupied, selected slot of least visit count, or
    says that there is none. *)
Lemma min_visit_scan_spec rb pkts sel mv ms :
  queue_wf rb pkts -> min_visit_scan rb sel = (mv, ms) ->
  (ms = POLAR_RINGBUF_MAX_SLOT /\ forall i, occ rb i -> sel (slot_at rb i) = false) \/
  (occ rb ms /\ sel (slot_at rb ms) = true /\ mv = s_visit (slot_at rb ms) /\
   forall i, occ rb i -> sel (slot_at rb i) = true -> mv <= s_visit (slot_at rb i)).
Proof.
  intros Hwf Hs. unfold min_visit_scan in Hs.
  rewrite for_each_bit_fold in Hs by (by eapply wf_occ64).
  apply min_visit_fold in Hs as (Hcase & _ & Hmin).
  assert (forall i, occ rb i -> s_visit (slot_at rb i) < UINT64_MAX) as Hlt.
  { intros i Hi. destruct (qw_refs _ _ Hwf i Hi) as (k & Hk & -> & _).
    pose proof (qw_visit _ _ Hwf). lia. }
  assert (forall i, occ rb i -> sel (slot_at rb i) = true -> mv <= s_visit (slot_at rb i)) as Hmin'.
  { intros i Hi Hsel. apply (occ_positions rb pkts Hwf) in Hi. specialize (Hmin _ Hi).
    replace (i + 1 - 1) with i in Hmin by lia. auto. }
  destruct Hcase as [[= -> ->]|(i & Hi & -> & Hsel & -> & _)].
  - left. split; [done|]. intros i Hi. destruct (sel (slot_at rb i)) eqn:E; [|done].
    specialize (Hmin' i Hi E). specialize (Hlt i Hi). lia.
  - right. assert (occ rb (i - 1)) as Hoc.
    { apply (occ_positions rb pkts Hwf). by replace (i - 1 + 1) with i by lia. }
    done.
Qed.

(** ** Every operation keeps the queue well formed *)

Section preservation.
Context (rb : polar_ringbuf_data_t) (pkts : list packet) (Hwf : queue_wf rb pkts).

Let Hring : ring_ok rb := qw_ring _ _ Hwf.

(** Bytes of one packet change; its length does not. *)
Lemma wf_update_pkt d (k : nat) p p' :
  pkts !! k = Some p -> length d = length (rb_data rb) -> pk_len p' = pk_len p ->
  (forall e, 0 <= e < rb_size rb -> ~ (off pkts k <= e < off pkts k + pk_size p) ->
     ring_byte (with_data rb d) (rb_pread rb + e) = ring_byte rb (rb_pread rb + e)) ->
  pkt_at (with_data rb d) (rb_pread rb) (off pkts k) p' ->
  queue_wf (with_data rb d) (<[k := p']> pkts).
Proof.
  intros Hk Hd Hl Hout Hp'.
  assert (forall j, off (<[k:=p']> pkts) j = off pkts j) as Hoff by (intros; by eapply off_insert).
  assert (total (<[k:=p']> pkts) = total pkts) as Htot
    by (unfold total; rewrite length_insert; apply Hoff).
  destruct Hwf as [H1 H2 H3 H4 H5 H6 H7 H8 H9 H10 H11].
  split; simpl; try done.
  - destruct H1. split; simpl; [done|]. by rewrite Hd.
  - by rewrite Htot.
  - by rewrite Htot.
  - by rewrite length_insert.
  - intros i Hi. destruct (H8 i Hi) as (j & Hj & Hv & Hr). exists j.
    split; [by rewrite length_insert|]. simpl. by rewrite Hoff.
  - intros j q Hj. rewrite Hoff. destruct (decide (j = k)) as [->|Hne].
    + rewrite list_lookup_insert_eq in Hj by (by eapply lookup_lt_Some). by simplify_eq.
    + rewrite list_lookup_insert_ne in Hj by done.
      pose proof (wf_pkt_range rb pkts Hwf j q Hj). pose proof (wf_pkt_range rb pkts Hwf k p Hk).
      apply (pkt_at_frame rb); [done|by eapply wf_lens|lia| |by apply H11].
      intros e He. apply Hout; [lia|].
      destruct (off_disjoint pkts (wf_lens rb pkts Hwf) j k q p Hj Hk Hne); lia.
Qed.

Lemma copy_to_ring_with_data idx buf :
  copy_to_ring rb idx buf = with_data rb (rb_data (copy_to_ring rb idx buf)).
Proof. unfold copy_to_ring. destruct (_ >? 0); done. Qed.

(** A copy into the packet at its byte [c]. *)
Lemma wf_copy_pkt (k : nat) p p' c buf :
  pkts !! k = Some p -> pk_len p' = pk_len p -> 0 <= c ->
  c + Z.of_nat (length buf) <= pk_size p ->
  let rb' := copy_to_ring rb ((pk_idx p + c) mod rb_size rb) buf in
  pkt_at rb' (rb_pread rb) (off pkts k) p' -> queue_wf rb' (<[k := p']> pkts).
Proof.
  intros Hk Hl Hc Hn rb' Hp'. pose proof (wf_size_pos rb pkts Hwf).
  pose proof (wf_pkt_range rb pkts Hwf k p Hk).
  assert (rb' = copy_to_ring rb ((rb_pread rb + (off pkts k + c)) mod rb_size rb) buf) as Hrb'.
  { unfold rb'. rewrite (pa_idx _ _ _ _ (qw_pkts _ _ Hwf k p Hk)), Zplus_mod_idemp_l.
    do 2 f_equal. lia. }
  unfold rb' in *. clear rb'. rewrite copy_to_ring_with_data in Hp' |- *.
  apply (wf_update_pkt _ k p p'); [done| |done| |done].
  - destruct (copy_to_ring_data rb Hring ((pk_idx p + c) mod rb_size rb) buf) as [Hd _];
      [apply Z.mod_pos_bound; lia|lia|].
    pose proof (ro_data rb Hring). lia.
  - intros e He Hout. rewrite <- copy_to_ring_with_data, Hrb'.
    rewrite copy_to_ring_rel by (done || lia). rewrite decide_False; [done|lia].
Qed.

(** What a copy to byte [c] of the packet leaves at its byte [d]. *)
Lemma copy_pkt_byte (k : nat) p c buf d :
  pkts !! k = Some p -> 0 <= c -> c + Z.of_nat (length buf) <= pk_size p -> 0 <= d < pk_size p ->
  ring_byte (copy_to_ring rb ((pk_idx p + c) mod rb_size rb) buf)
            (rb_pread rb + (off pkts k + d)) =
  if decide (c <= d < c + Z.of_nat (length buf)) then aget 0 buf (d - c)
  else ring_byte rb (rb_pread rb + (off pkts k + d)).
Proof.
  intros Hk Hc Hn Hd. pose proof (wf_pkt_range rb pkts Hwf k p Hk).
  rewrite (pa_idx _ _ _ _ (qw_pkts _ _ Hwf k p Hk)), Zplus_mod_idemp_l, <- Z.add_assoc.
  rewrite copy_to_ring_rel by (done || lia). repeat case_decide; try lia; try done; f_equal; lia.
Qed.

Lemma ring_bytes_aget rb' q buf :
  (forall d, 0 <= d < Z.of_nat (length buf) -> ring_byte rb' (q + d) = aget 0 buf d) ->
  ring_bytes rb' q (Z.of_nat (length buf)) = buf.
Proof.
  intros Hb. apply list_eq_lookup_len; rewrite length_ring_bytes; [lia|].
  intros i Hi. rewrite lookup_ring_bytes by lia. rewrite (lookup_aget 0) by lia.
  f_equal. apply Hb. lia.
Qed.

Lemma wf_set_pkt_length (k : nat) p :
  pkts !! k = Some p -> pk_ready p = false ->
  queue_wf (polar_ringbuf_set_pkt_length rb (pk_idx p) (pk_len p))
           (<[k := mk_pkt (pk_idx p) (pk_len p) true (pk_flag p) (pk_body p)]> pkts).
Proof.
  intros Hk Hr. unfold polar_ringbuf_set_pkt_length.
  pose proof (qw_pkts _ _ Hwf k p Hk) as [H1 H2 H3 H4 H5 H6].
  pose proof (wf_pkt_range rb pkts Hwf k p Hk).
  assert (pk_size p = pk_len p + 5) as Hsz by done. unfold is_u32 in H2.
  destruct (copy_to_ring_fields rb ((pk_idx p + 1) mod rb_size rb) (le_encode 4 (pk_len p))) as [Hs _].
  apply wf_copy_pkt; [done|done|lia|rewrite length_le_encode; lia|].
  assert (forall d, 0 <= d < pk_size p -> ring_byte (copy_to_ring rb ((pk_idx p + 1) mod rb_size rb)
      (le_encode 4 (pk_len p))) (rb_pread rb + (off pkts k + d)) =
    if decide (1 <= d < 5) then aget 0 (le_encode 4 (pk_len p)) (d - 1)
    else ring_byte rb (rb_pread rb + (off pkts k + d))) as Hb.
  { intros d Hd. rewrite (copy_pkt_byte k p) by (done || rewrite ?length_le_encode; lia).
    by rewrite length_le_encode. }
  split; cbn [pk_idx pk_len pk_sized pk_flag pk_body]; [by rewrite Hs|done| | |done|].
  - specialize (Hb 0). rewrite Z.add_0_r in Hb. rewrite Hb by lia. done.
  - intros _. apply (ring_bytes_aget _ _ (le_encode 4 (pk_len p))).
    rewrite length_le_encode. intros d Hd.
    replace (rb_pread rb + (off pkts k + 1) + d) with (rb_pread rb + (off pkts k + (1 + d))) by lia.
    rewrite Hb by lia. rewrite decide_True by lia. f_equal. lia.
  - rewrite <- H6. apply ring_bytes_ext. intros d Hd.
    replace (rb_pread rb + (off pkts k + 5) + d) with (rb_pread rb + (off pkts k + (5 + d))) by lia.
    rewrite Hb by lia. by rewrite decide_False by lia.
Qed.

(** A payload write replaces the bytes it covers. *)
Lemma wf_pkt_write (k : nat) p offset buf :
  pkts !! k = Some p -> pk_ready p = false -> pk_sized p = true -> 0 <= offset < pk_len p ->
  offset + Z.of_nat (length buf) <= pk_len p ->
  exists rb', polar_ringbuf_pkt_write rb (pk_idx p) offset buf =
                Some (rb', Z.of_nat (length buf)) /\
    queue_wf rb' (<[k := mk_pkt (pk_idx p) (pk_len p) true (pk_flag p)
                          (mem_write (pk_body p) offset buf)]> pkts).
Proof.
  intros Hk Hr Hz Ho Hn. pose proof (qw_pkts _ _ Hwf k p Hk) as Hp.
  pose proof (wf_pkt_range rb pkts Hwf k p Hk).
  pose proof Hp as [H1 H2 H3 H4 H5 H6]. unfold is_u32 in H2.
  assert (pk_size p = pk_len p + 5) as Hsz by done.
  unfold polar_ringbuf_pkt_write. rewrite (pkt_len_at _ _ _ _ Hring Hp Hz).
  assert (2 ^ 32 < 2 ^ 64) by (apply Z.pow_lt_mono_r; lia).
  rewrite !u64_small by (unfold is_u64; lia).
  destruct (offset >=? pk_len p) eqn:E1; zbool; [lia|].
  destruct (offset + Z.of_nat (length buf) >? pk_len p) eqn:E2; zbool; [lia|]. simpl.
  eexists. split; [done|].
  unfold POLAR_RINGBUF_PKTHDRSIZE. rewrite <- Z.add_assoc.
  destruct (copy_to_ring_fields rb ((pk_idx p + (5 + offset)) mod rb_size rb) buf) as [Hs _].
  apply wf_copy_pkt; [done|done|lia|lia|].
  assert (length (pk_body p) = Z.to_nat (pk_len p)) as Hlb by (by rewrite <- H6, length_ring_bytes).
  assert (forall d, 0 <= d < pk_size p -> ring_byte (copy_to_ring rb ((pk_idx p + (5 + offset)) mod rb_size rb)
      buf) (rb_pread rb + (off pkts k + d)) =
    if decide (5 + offset <= d < 5 + offset + Z.of_nat (length buf)) then aget 0 buf (d - (5 + offset))
    else ring_byte rb (rb_pread rb + (off pkts k + d))) as Hb.
  { intros d Hd. by rewrite (copy_pkt_byte k p) by (done || lia). }
  split; cbn [pk_idx pk_len pk_sized pk_flag pk_body]; [by rewrite Hs|done| | |done|].
  - specialize (Hb 0). rewrite Z.add_0_r in Hb. rewrite Hb by lia. by rewrite decide_False by lia.
  - intros _. rewrite <- H4 by done. apply ring_bytes_ext. intros d Hd.
    replace (rb_pread rb + (off pkts k + 1) + d) with (rb_pread rb + (off pkts k + (1 + d))) by lia.
    rewrite Hb by lia. by rewrite decide_False by lia.
  - assert (Z.of_nat (length (mem_write (pk_body p) offset buf)) = pk_len p) as Hlw
      by (rewrite length_mem_write; lia).
    rewrite <- Hlw at 1. apply ring_bytes_aget. rewrite Hlw. intros d Hd.
    replace (rb_pread rb + (off pkts k + 5) + d) with (rb_pread rb + (off pkts k + (5 + d))) by lia.
    rewrite Hb by lia. rewrite aget_mem_write by lia. repeat case_decide; try lia.
    + f_equal. lia.
    + rewrite <- H6. symmetry. apply aget_lookup; [lia|]. rewrite lookup_ring_bytes by lia.
      do 2 f_equal. lia.
Qed.

Lemma wf_set_pkt_flag (k : nat) p flag :
  pkts !! k = Some p -> pk_sized p = true ->
  queue_wf (polar_ringbuf_set_pkt_flag rb (pk_idx p) flag)
           (<[k := mk_pkt (pk_idx p) (pk_len p) true flag (pk_body p)]> pkts).
Proof.
  intros Hk Hz. unfold polar_ringbuf_set_pkt_flag.
  pose proof (qw_pkts _ _ Hwf k p Hk) as [H1 H2 H3 H4 H5 H6].
  pose proof (wf_pkt_range rb pkts Hwf k p Hk).
  assert (pk_size p = pk_len p + 5) as Hsz by done. unfold is_u32 in H2.
  assert (forall e, 0 <= e < rb_size rb ->
    ring_byte (with_data rb (aset (rb_data rb) (pk_idx p) flag)) (rb_pread rb + e) =
    if decide (e = off pkts k) then flag else ring_byte rb (rb_pread rb + e)) as Hb.
  { intros e He. rewrite H1. apply set_byte_rel; [done|lia|done]. }
  apply (wf_update_pkt _ k p); [done|by rewrite length_aset|done| |].
  - intros e He Hout. rewrite Hb by done. by rewrite decide_False by lia.
  - split; cbn [pk_idx pk_len pk_sized pk_flag pk_body]; [done|done| | |done|].
    + rewrite Hb by lia. by rewrite decide_True.
    + intros _. rewrite <- H4 by done. apply ring_bytes_ext. intros d Hd.
      rewrite <- Z.add_assoc, Hb by lia. by rewrite decide_False by lia.
    + rewrite <- H6. apply ring_bytes_ext. intros d Hd.
      rewrite <- Z.add_assoc, Hb by lia. by rewrite decide_False by lia.
Qed.

(** Reserving appends a packet that is not ready and whose payload is
    whatever the buffer held. *)
Lemma wf_pkt_reserve len rb' idx :
  is_u32 len -> POLAR_RINGBUF_PKT_SIZE len <= polar_ringbuf_free_size rb ->
  rb_min_visit rb + Z.of_nat (length pkts) + 1 < UINT64_MAX ->
  polar_ringbuf_pkt_reserve rb (POLAR_RINGBUF_PKT_SIZE len) = (rb', idx) ->
  0 <= idx < rb_size rb /\
  queue_wf rb' (pkts ++ [mk_pkt idx len false POLAR_RINGBUF_PKT_FREE
                           (ring_bytes rb' (rb_pread rb + (total pkts + 5)) len)]).
Proof.
  intros Hlen Hfree Hvis Hres. rewrite (free_size_total rb pkts Hwf) in Hfree.
  unfold POLAR_RINGBUF_PKT_SIZE, POLAR_RINGBUF_PKTHDRSIZE, is_u32 in *.
  unfold polar_ringbuf_pkt_reserve in Hres. injection Hres as <- <-.
  pose proof (wf_size_pos rb pkts Hwf) as Hs.
  pose proof (wf_off_range rb pkts Hwf (length pkts) ltac:(lia)) as Ht. fold (total pkts) in Ht.
  rewrite (qw_pwrite _ _ Hwf) at 1 2. split; [apply Z.mod_pos_bound; lia|].
  set (p := mk_pkt _ _ _ _ _).
  set (rb1 := with_data rb (aset (rb_data rb) (rb_pwrite rb) POLAR_RINGBUF_PKT_FREE)) in *.
  assert (forall e, 0 <= e < rb_size rb -> ring_byte rb1 (rb_pread rb + e) =
    if decide (e = total pkts) then 0 else ring_byte rb (rb_pread rb + e)) as Hb.
  { intros e He. unfold rb1. rewrite (qw_pwrite _ _ Hwf). by apply set_byte_rel. }
  set (rb2 := with_pwrite rb1 _) in *.
  assert (forall q, ring_byte rb2 q = ring_byte rb1 q) as Hb2 by done.
  assert (total (pkts ++ [p]) = total pkts + (len + 5)) as Htot
    by (rewrite total_app; unfold total, off, pk_size; simpl; unfold POLAR_RINGBUF_PKT_SIZE,
        POLAR_RINGBUF_PKTHDRSIZE; lia).
  destruct Hwf as [H1 H2 H3 H4 H5 H6 H7 H8 H9 H10 H11]. split; simpl.
  - destruct H1. split; simpl; [done|]. by rewrite length_aset.
  - done.
  - done.
  - done.
  - rewrite Htot. lia.
  - rewrite Htot, H6, Zplus_mod_idemp_l. f_equal. lia.
  - rewrite length_app. simpl. lia.
  - intros i Hi. destruct (H8 i Hi) as (j & Hj & Hv & Hr). exists j.
    split; [rewrite length_app; lia|]. simpl. rewrite off_app_l by done. done.
  - done.
  - done.
  - intros j q Hj. apply lookup_app_Some in Hj as [Hj|[Hge Hj]].
    + pose proof (wf_pkt_range rb pkts Hwf j q Hj).
      pose proof (off_pkt_end pkts (wf_lens rb pkts Hwf) j q Hj).
      rewrite off_app_l by (apply lookup_lt_Some in Hj; lia).
      apply (pkt_at_frame rb); [done|by eapply wf_lens|lia| |by apply H11].
      intros d Hd. rewrite Hb2, Hb by lia. by rewrite decide_False by lia.
    + apply list_lookup_singleton_Some in Hj as [Hj <-].
      replace j with (length pkts) by lia. rewrite off_app_l by done. fold (total pkts).
      split; simpl; [by rewrite H6|done| |done|done|done].
      rewrite Hb2, Hb by lia. by rewrite decide_True.
Qed.

(** A change of one slot and of its occupancy bit. *)
Lemma wf_occ_range occ' :
  0 <= occ' -> (forall j, Z.testbit occ' j = true -> 0 <= j < POLAR_RINGBUF_MAX_SLOT) ->
  0 <= occ' < 2 ^ POLAR_RINGBUF_MAX_SLOT.
Proof.
  intros H0 Hb. split; [done|]. apply bits_below_lt; [done|done|]. intros j Hj.
  specialize (Hb j Hj). lia.
Qed.

(** Only the slots, the mask and the reference counter change. *)
Lemma wf_slots_change rb' :
  rb_size rb' = rb_size rb -> rb_data rb' = rb_data rb -> rb_pread rb' = rb_pread rb ->
  rb_pwrite rb' = rb_pwrite rb -> rb_min_visit rb' = rb_min_visit rb ->
  length (rb_slot rb') = length (rb_slot rb) -> 0 <= rb_occupied rb' ->
  (forall j, Z.testbit (rb_occupied rb') j = true -> 0 <= j < POLAR_RINGBUF_MAX_SLOT) ->
  rb_ref_num rb <= rb_ref_num rb' < UINT64_MAX ->
  (forall j, occ rb' j -> (exists k, ref_at rb' pkts j k) /\
                          1 <= s_ref_num (slot_at rb' j) <= rb_ref_num rb') ->
  (forall j, 0 <= j < POLAR_RINGBUF_MAX_SLOT -> ~ occ rb' j -> slot_at rb' j = zero_slot) ->
  queue_wf rb' pkts.
Proof.
  intros E1 E2 E3 E4 E5 E6 E7 E8 E9 E10 E11.
  split; rewrite ?E1, ?E3, ?E4, ?E5, ?E6; try apply Hwf.
  - destruct Hring. by split; rewrite ?E1, ?E2.
  - by apply wf_occ_range.
  - intros i Hi. by apply E10.
  - done.
  - split; [pose proof (proj1 (qw_refnum _ _ Hwf)); lia|]. intros i Hi. by apply E10.
  - intros k p Hk. apply (pkt_at_ext rb); [done|done|]. by apply (qw_pkts _ _ Hwf).
Qed.

(** Occupying slot [i] with a reader at the least read position. *)
Lemma wf_occupy i strong name num :
  0 <= i < POLAR_RINGBUF_MAX_SLOT -> ~ occ rb i -> rb_ref_num rb < num < UINT64_MAX ->
  let s := mk_slot strong (rb_pread rb) (rb_min_visit rb) num name in
  let rb' := with_slot (with_ref_num (with_occupied rb (POLAR_BIT_OCCUPY (rb_occupied rb) (i + 1))) num) i s in
  queue_wf rb' pkts /\ occ rb' i /\ slot_at rb' i = s /\
  (forall j, j <> i -> slot_at rb' j = slot_at rb j).
Proof.
  intros Hi Hfree Hnum s rb'. unfold POLAR_RINGBUF_MAX_SLOT in Hi.
  pose proof (wf_occ64 rb pkts Hwf) as Ho.
  assert (forall j, Z.testbit (rb_occupied rb') j = true <-> Z.testbit (rb_occupied rb) j = true \/ j = i)
    as Hbit.
  { intros j. simpl. rewrite occupy_testbit by lia. rewrite orb_true_iff, bool_decide_eq_true.
    replace (i + 1 - 1) with i by lia. done. }
  assert (forall j, occ rb' j <-> occ rb j \/ j = i) as Hocc.
  { intros j. unfold occ, POLAR_RINGBUF_MAX_SLOT. rewrite Hbit. naive_solver lia. }
  pose proof (wf_slot_len rb pkts Hwf) as Hl32. unfold POLAR_RINGBUF_MAX_SLOT in Hl32.
  assert (forall j, slot_at rb' j = if decide (i = j) then s else slot_at rb j) as Hslot.
  { intros j. unfold slot_at, rb'. simpl. by rewrite aget_aset by lia. }
  assert (slot_at rb' i = s) as Hsi by (by rewrite Hslot, decide_True).
  assert (ref_at rb' pkts i 0) as Hat.
  { split; [lia|]. rewrite Hsi. simpl. split; [lia|].
    unfold off. simpl. rewrite Z.add_0_r, Z.mod_small; [done|]. apply Hwf. }
  split_and!; [|apply Hocc; by right|done|intros j Hj; by rewrite Hslot, decide_False].
  apply wf_slots_change; try done.
  - simpl. apply length_aset.
  - apply occupy_range; lia.
  - intros j Hj. apply Hbit in Hj as [Hj| ->]; [by apply (wf_testbit_occ rb pkts Hwf)|done].
  - simpl. lia.
  - intros j Hj. rewrite Hslot. apply Hocc in Hj as [Hj| ->].
    + rewrite decide_False by (by intros ->). unfold ref_at.
      rewrite Hslot, decide_False by (by intros ->).
      split; [by apply (qw_refs _ _ Hwf)|].
      pose proof (proj2 (qw_refnum _ _ Hwf) j Hj). simpl. lia.
    + rewrite decide_True by done. split; [by eauto|]. simpl.
      pose proof (qw_refnum _ _ Hwf). lia.
  - intros j Hj Hnj. rewrite Hslot, decide_False.
    + apply (qw_free _ _ Hwf); [done|]. intros ?. apply Hnj, Hocc. by left.
    + intros <-. apply Hnj, Hocc. by right.
Qed.

(** A new reference gets a free slot and starts at the least read
    position; there is none only when all slots are in use. *)
Lemma wf_new_ref strong name rb' ref :
  rb_ref_num rb + 1 < UINT64_MAX ->
  polar_ringbuf_new_ref rb strong name = (rb', ref) ->
  queue_wf rb' pkts /\
  match ref with
  | Some r => occ rb' (ref_slot r) /\ ~ occ rb (ref_slot r) /\
      RINGBUF_REF_MATCH rb' r = true /\ ref_at rb' pkts (ref_slot r) 0 /\
      ref_ref_num r = rb_ref_num rb + 1 /\ rb_ref_num rb' = rb_ref_num rb + 1 /\
      (forall i, i <> ref_slot r -> slot_at rb' i = slot_at rb i)
  | None => rb' = rb /\ forall i, 0 <= i < POLAR_RINGBUF_MAX_SLOT -> occ rb i
  end.
Proof.
  intros Hnum Hnew. unfold polar_ringbuf_new_ref in Hnew.
  destruct (least_free_pos (rb_occupied rb) 32 ltac:(apply Hwf) ltac:(lia)) as (Hp1 & Hp2 & Hp3).
  set (i := POLAR_BIT_LEAST_POS _) in *. unfold POLAR_RINGBUF_MAX_SLOT in *.
  assert (0 <? i = true) as Hi0 by (apply Z.ltb_lt; lia). rewrite Hi0 in Hnew. simpl in Hnew.
  assert (is_u64 (rb_ref_num rb + 1)) as Hu.
  { pose proof (qw_refnum _ _ Hwf). unfold is_u64, UINT64_MAX in *. lia. }
  rewrite u64_small in Hnew by done.
  destruct (i <=? 32) eqn:Ei; zbool; injection Hnew as <- <-.
  2: { split; [done|]. split; [done|]. intros j Hj. split; [done|]. apply Hp3. lia. }
  destruct (wf_occupy (i - 1) strong (match name with Some n => take (Pos.to_nat 63) n | None => [] end)
              (rb_ref_num rb + 1)) as (Hw & Ho & Hs & Hother).
  { unfold POLAR_RINGBUF_MAX_SLOT. lia. } { intros [_ Hb]. congruence. } { lia. }
  replace (i - 1 + 1) with i in * by lia.
  set (rb' := with_slot _ _ _) in *. split; [done|]. simpl.
  split_and!; [done|intros [_ Hb]; congruence| | |done|done|done].
  - unfold RINGBUF_REF_MATCH. simpl. rewrite Hs. simpl. rewrite Z.eqb_refl, andb_true_r.
    unfold POLAR_RINGBUF_MAX_SLOT. apply andb_true_iff. split; [apply Z.leb_le|apply Z.ltb_lt]; lia.
  - split; [lia|]. rewrite Hs. simpl. split; [lia|].
    unfold off. simpl. rewrite Z.add_0_r, Z.mod_small; [done|]. apply Hwf.
Qed.

(** Freeing a slot. *)
Lemma wf_clear_slot i :
  0 <= i < POLAR_RINGBUF_MAX_SLOT ->
  queue_wf (clear_slot rb i) pkts /\ slot_at (clear_slot rb i) i = zero_slot /\
  (forall j, j <> i -> slot_at (clear_slot rb i) j = slot_at rb j) /\
  (forall j, occ (clear_slot rb i) j <-> occ rb j /\ j <> i).
Proof.
  intros Hi. unfold POLAR_RINGBUF_MAX_SLOT in Hi. set (rb' := clear_slot rb i).
  pose proof (wf_occ64 rb pkts Hwf) as Ho.
  assert (forall j, Z.testbit (rb_occupied rb') j = true <-> Z.testbit (rb_occupied rb) j = true /\ j <> i)
    as Hbit.
  { intros j. simpl. rewrite release_testbit by lia. replace (i + 1 - 1) with i by lia.
    rewrite andb_true_iff, negb_true_iff, bool_decide_eq_false. done. }
  assert (forall j, occ rb' j <-> occ rb j /\ j <> i) as Hocc.
  { intros j. unfold occ. rewrite Hbit. naive_solver. }
  pose proof (wf_slot_len rb pkts Hwf) as Hl32. unfold POLAR_RINGBUF_MAX_SLOT in Hl32.
  assert (forall j, slot_at rb' j = if decide (i = j) then zero_slot else slot_at rb j) as Hslot.
  { intros j. unfold slot_at, rb', clear_slot. simpl. by rewrite aget_aset by lia. }
  split_and!; [|by rewrite Hslot, decide_True|intros j Hj; by rewrite Hslot, decide_False|done].
  apply wf_slots_change; try done.
  - simpl. apply length_aset.
  - apply release_range; lia.
  - intros j Hj. apply Hbit in Hj as [Hj _]. by apply (wf_testbit_occ rb pkts Hwf).
  - pose proof (proj1 (qw_refnum _ _ Hwf)). simpl. lia.
  - intros j Hj. apply Hocc in Hj as [Hj Hne]. unfold ref_at. rewrite !Hslot, !decide_False by done.
    split; [by apply (qw_refs _ _ Hwf)|by apply (qw_refnum _ _ Hwf)].
  - intros j Hj Hnj. rewrite Hslot. case_decide as Hd; [done|].
    apply (qw_free _ _ Hwf); [done|]. intros ?. by apply Hnj, Hocc.
Qed.

(** Changing an occupied slot that stays at a packet boundary. *)
Lemma wf_move_slot i s (k : nat) :
  occ rb i -> s_ref_num s = s_ref_num (slot_at rb i) -> (k <= length pkts)%nat ->
  s_visit s = rb_min_visit rb + Z.of_nat k ->
  s_pread s = (rb_pread rb + off pkts k) mod rb_size rb ->
  queue_wf (with_slot rb i s) pkts /\ ref_at (with_slot rb i s) pkts i k /\
  slot_at (with_slot rb i s) i = s /\
  (forall j, j <> i -> slot_at (with_slot rb i s) j = slot_at rb j).
Proof.
  intros Hi Hn Hk Hv Hp. set (rb' := with_slot rb i s).
  pose proof (wf_slot_len rb pkts Hwf) as Hl32.
  assert (forall j, slot_at rb' j = if decide (i = j) then s else slot_at rb j) as Hslot.
  { intros j. unfold slot_at, rb'. simpl. destruct Hi. by rewrite aget_aset by lia. }
  assert (slot_at rb' i = s) as Hsi by (by rewrite Hslot, decide_True).
  assert (ref_at rb' pkts i k) as Hat by (split; [done|]; by rewrite Hsi).
  split_and!; [|done|done|intros j Hj; by rewrite Hslot, decide_False].
  apply wf_slots_change; try done.
  - simpl. apply length_aset.
  - apply (wf_occ64 rb pkts Hwf).
  - intros j Hj. by apply (wf_testbit_occ rb pkts Hwf).
  - pose proof (proj1 (qw_refnum _ _ Hwf)). simpl. lia.
  - intros j Hj. change (occ rb j) in Hj. destruct (decide (j = i)) as [->|Hne].
    + split; [by eauto|]. rewrite Hsi, Hn. by apply (qw_refnum _ _ Hwf).
    + unfold ref_at. rewrite !Hslot, !decide_False by congruence.
      split; [by apply (qw_refs _ _ Hwf)|by apply (qw_refnum _ _ Hwf)].
  - intros j Hj Hnj. change (~ occ rb j) in Hnj. rewrite Hslot.
    case_decide as Hd; [by rewrite <- Hd in Hnj|]. by apply (qw_free _ _ Hwf).
Qed.

(** A matching reference with a non-zero number owns an occupied slot. *)
Lemma ref_match_occ ref :
  RINGBUF_REF_MATCH rb ref = true -> ref_ref_num ref <> 0 -> occ rb (ref_slot ref).
Proof.
  intros Hm Hnz. unfold RINGBUF_REF_MATCH in Hm. zbool.
  destruct (Z.testbit (rb_occupied rb) (ref_slot ref)) eqn:E; [by split|].
  rewrite (qw_free _ _ Hwf) in *; [simpl in *; congruence|done|]. intros [_ Hb]. congruence.
Qed.

Lemma wf_set_strong i b : occ rb i -> queue_wf (set_strong rb i b) pkts.
Proof.
  intros Hi. destruct (qw_refs _ _ Hwf i Hi) as (k & Hk & Hv & Hp).
  by apply (wf_move_slot i _ k).
Qed.

(** Reading past a packet moves the reader to the next one. *)
Lemma wf_update_ref ref (k : nat) p :
  occ rb (ref_slot ref) -> ref_at rb pkts (ref_slot ref) k -> pkts !! k = Some p ->
  pk_sized p = true ->
  queue_wf (polar_ringbuf_update_ref rb ref) pkts /\
  ref_at (polar_ringbuf_update_ref rb ref) pkts (ref_slot ref) (S k) /\
  (forall j, j <> ref_slot ref -> slot_at (polar_ringbuf_update_ref rb ref) j = slot_at rb j).
Proof.
  intros Hi Hat Hk Hz. unfold polar_ringbuf_update_ref.
  pose proof (qw_pkts _ _ Hwf k p Hk) as Hp.
  rewrite (ref_at_idx rb pkts Hwf _ k p Hat Hk), (pkt_len_at _ _ _ _ Hring Hp Hz).
  destruct Hat as (Hkl & Hv & Hpr). pose proof (lookup_lt_Some _ _ _ Hk).
  edestruct (wf_move_slot (ref_slot ref)) as (Hw & Ha & _ & Ho);
    [done| | | | |split; [exact Hw|split; [exact Ha|exact Ho]]]; simpl.
  - done.
  - lia.
  - rewrite Hv, u64_small; [lia|]. pose proof (qw_visit _ _ Hwf).
    unfold is_u64, UINT64_MAX in *. lia.
  - rewrite (off_S _ _ _ Hk), (pa_idx _ _ _ _ Hp), <- Z.add_assoc, Zplus_mod_idemp_l.
    f_equal. unfold pk_size, POLAR_RINGBUF_PKT_SIZE. lia.
Qed.

(** Advancing the least read position to packet [k] drops the packets
    every reader has passed. *)
Lemma wf_advance (k : nat) :
  (k <= length pkts)%nat -> (forall i j, occ rb i -> ref_at rb pkts i j -> (k <= j)%nat) ->
  queue_wf (with_pread (with_min_visit rb (rb_min_visit rb + Z.of_nat k))
                       ((rb_pread rb + off pkts k) mod rb_size rb)) (drop k pkts).
Proof.
  intros Hk Hmin. pose proof (wf_size_pos rb pkts Hwf) as Hs.
  pose proof (wf_off_range rb pkts Hwf k Hk) as Ho.
  set (rb' := with_pread _ _).
  assert (forall x, ((rb_pread rb + off pkts k) mod rb_size rb + x) mod rb_size rb
                    = (rb_pread rb + (off pkts k + x)) mod rb_size rb) as Hm.
  { intros x. rewrite Zplus_mod_idemp_l. f_equal. lia. }
  split; simpl; try apply Hwf.
  - destruct Hring. by split.
  - apply Z.mod_pos_bound. lia.
  - rewrite total_drop by done. pose proof (qw_total _ _ Hwf). lia.
  - rewrite total_drop, Hm, (qw_pwrite _ _ Hwf) by done. f_equal. lia.
  - rewrite length_drop. pose proof (qw_visit _ _ Hwf). lia.
  - intros i Hi. destruct (qw_refs _ _ Hwf i Hi) as (j & Hj).
    pose proof (Hmin i j Hi Hj) as Hkj. destruct Hj as (Hj & Hv & Hp). exists (j - k)%nat.
    split; [rewrite length_drop; lia|]. simpl. unfold slot_at in *. simpl. rewrite Hv, Hp. split; [lia|].
    rewrite off_drop, Hm. f_equal. replace (k + (j - k))%nat with j by lia. lia.
  - intros j p Hj. rewrite lookup_drop in Hj. apply (pkt_at_ext rb); [done|done|].
    apply (pkt_at_rebase rb (rb_pread rb) (off pkts (k + j))); [done| |by apply (qw_pkts _ _ Hwf)].
    rewrite off_drop, Z.mod_mod by lia. f_equal. lia.
Qed.

(** [polar_ringbuf_update_pread] advances to the slowest reader. *)
Lemma wf_update_pread rb' b :
  polar_ringbuf_update_pread rb = (rb', b) ->
  exists k, (k <= length pkts)%nat /\ queue_wf rb' (drop k pkts) /\ rb_slot rb' = rb_slot rb /\
    rb_occupied rb' = rb_occupied rb /\ rb_ref_num rb' = rb_ref_num rb /\
    rb_min_visit rb' = rb_min_visit rb + Z.of_nat k /\
    (b = true -> (0 < k)%nat /\ exists i, occ rb i /\ ref_at rb pkts i k) /\
    (b = false -> k = 0%nat /\ rb' = rb /\
       ((forall i, ~ occ rb i) \/ exists i, occ rb i /\ ref_at rb pkts i 0)).
Proof.
  intros Hu. unfold polar_ringbuf_update_pread in Hu.
  destruct (min_visit_scan rb (fun _ => true)) as [mv ms] eqn:Hscan.
  destruct (min_visit_scan_spec rb pkts _ mv ms Hwf Hscan) as [[-> Hnone]|(Hms & _ & Hmv & Hmin)].
  { rewrite Z.eqb_refl in Hu. simpl in Hu. injection Hu as <- <-. exists 0%nat.
    rewrite drop_0. split_and!; try done; [lia|lia|]. intros _. split_and!; try done.
    left. intros i Hi. by specialize (Hnone i Hi). }
  destruct (qw_refs _ _ Hwf ms Hms) as (k & Hk). pose proof Hk as (Hkl & Hv & Hp).
  assert (negb (ms =? POLAR_RINGBUF_MAX_SLOT) = true) as Hne.
  { apply negb_true_iff, Z.eqb_neq. destruct Hms. lia. }
  rewrite Hne in Hu. simpl in Hu.
  destruct (rb_min_visit rb =? mv) eqn:Ev; zbool; simpl in Hu; injection Hu as <- <-.
  - exists 0%nat. rewrite drop_0. split_and!; try done; [lia|lia|]. intros _. split_and!; try done.
    right. exists ms. split; [done|]. by replace 0%nat with k by lia.
  - exists k. rewrite Hmv, Hv.
    change (s_pread (slot_at (with_min_visit rb _) ms)) with (s_pread (slot_at rb ms)). rewrite Hp.
    split_and!; try done; [|intros _; split; [lia|by exists ms]].
    apply wf_advance; [done|]. intros i j Hi (_ & Hj & _).
    specialize (Hmin i Hi eq_refl). lia.
Qed.

(** [polar_ringbuf_evict_ref] frees a weak reference that stands at the
    least read position, and finds one when there is one. *)
Lemma wf_evict_ref rb' b :
  polar_ringbuf_evict_ref rb = (rb', b) ->
  queue_wf rb' pkts /\
  if b then exists i, occ rb i /\ s_strong (slot_at rb i) = false /\ ref_at rb pkts i 0 /\
                      rb' = clear_slot rb i
  else rb' = rb /\ forall i, occ rb i -> ref_at rb pkts i 0 -> s_strong (slot_at rb i) = true.
Proof.
  intros He. unfold polar_ringbuf_evict_ref in He.
  destruct (min_visit_scan rb (fun s => negb (s_strong s))) as [mv ms] eqn:Hscan.
  destruct (min_visit_scan_spec rb pkts _ mv ms Hwf Hscan) as [[-> Hnone]|(Hms & Hweak & Hmv & Hmin)].
  { rewrite Z.eqb_refl in He. simpl in He. injection He as <- <-. split; [done|]. split; [done|].
    intros i Hi _. specialize (Hnone i Hi). by apply negb_false_iff in Hnone. }
  assert (negb (ms =? POLAR_RINGBUF_MAX_SLOT) = true) as Hne.
  { apply negb_true_iff, Z.eqb_neq. destruct Hms. lia. }
  rewrite Hne in He. simpl in He. apply negb_true_iff in Hweak.
  destruct (qw_refs _ _ Hwf ms Hms) as (k & Hk). pose proof Hk as (Hkl & Hv & Hp).
  assert (rb_pread rb = (rb_pread rb + 0) mod rb_size rb) as Hp0.
  { rewrite Z.add_0_r, Z.mod_small; [done|]. apply Hwf. }
  destruct (rb_pread rb =? s_pread (slot_at rb ms)) eqn:Ep; zbool; injection He as <- <-.
  - destruct (wf_clear_slot ms) as (Hw & _); [by destruct Hms|]. split; [done|].
    exists ms. split_and!; try done. replace 0%nat with k; [done|].
    apply (off_inj pkts (wf_lens rb pkts Hwf)); [done|lia|].
    change (off pkts 0) with 0. apply (mod_rel_eq (rb_size rb) (rb_pread rb));
      [by eapply wf_size_pos|by apply (wf_off_range rb pkts Hwf)| |congruence].
    pose proof (wf_size_pos rb pkts Hwf). lia.
  - split; [done|]. split; [done|]. intros i Hi (_ & Hvi & _).
    destruct (s_strong (slot_at rb i)) eqn:Es; [done|].
    specialize (Hmin i Hi). rewrite Es in Hmin. specialize (Hmin eq_refl).
    assert (k = 0%nat) as -> by lia. exfalso. apply Ep. rewrite Hp. exact Hp0.
Qed.
End preservation.
