(* ===== verification/RingSteps.v ===== *)
(** * Executions of the ring buffer

    [qstep] lists what the writers and the readers of a ring buffer do:
    each constructor is one C call together with the check its callers
    make first, and its effect on the packets of [queue_wf].
    [q_skip] is one round of the loop of [polar_ringbuf_ref_keep_data],
    which passes over a packet without asking whether it is ready; that
    its length is written is an assumption on the writers, which the code
    does not check (see [keep_data_crosses_unsized]).  [q_reset] is the
    [polar_ringbuf_reset] of a promotion, when no writer is at work.  The
    file also models the flashback log index queue's callback
    (polar_flashback_log_index_queue.c) that lets a writer make room when
    no strong reference holds the data. *)

From S2P Require Import Prelude BitPos RingBuf RingBytes RingQueue.

Definition qstate : Type := polar_ringbuf_data_t * list packet.

(** The packets that are left when the least read position moved. *)
Definition drop_read (rb rb' : polar_ringbuf_data_t) (pkts : list packet) : list packet :=
  drop (Z.to_nat (rb_min_visit rb' - rb_min_visit rb)) pkts.

Inductive qstep : qstate -> qstate -> Prop :=
| q_reserve rb pkts len rb' idx :
    is_u32 len -> POLAR_RINGBUF_PKT_SIZE len <= polar_ringbuf_free_size rb ->
    rb_min_visit rb + Z.of_nat (length pkts) + 1 < UINT64_MAX ->
    polar_ringbuf_pkt_reserve rb (POLAR_RINGBUF_PKT_SIZE len) = (rb', idx) ->
    qstep (rb, pkts)
          (rb', pkts ++ [mk_pkt idx len false POLAR_RINGBUF_PKT_FREE
                           (ring_bytes rb' (rb_pread rb + (total pkts + 5)) len)])
| q_set_length rb pkts k p :
    pkts !! k = Some p -> pk_ready p = false ->
    qstep (rb, pkts)
          (polar_ringbuf_set_pkt_length rb (pk_idx p) (pk_len p),
           <[k := mk_pkt (pk_idx p) (pk_len p) true (pk_flag p) (pk_body p)]> pkts)
| q_write rb pkts k p offset buf rb' n :
    pkts !! k = Some p -> pk_ready p = false -> pk_sized p = true -> 0 <= offset < pk_len p ->
    offset + Z.of_nat (length buf) <= pk_len p ->
    polar_ringbuf_pkt_write rb (pk_idx p) offset buf = Some (rb', n) ->
    qstep (rb, pkts)
          (rb', <[k := mk_pkt (pk_idx p) (pk_len p) true (pk_flag p)
                         (mem_write (pk_body p) offset buf)]> pkts)
| q_publish rb pkts k p flag :
    pkts !! k = Some p -> pk_ready p = false -> pk_sized p = true -> is_u8 flag ->
    qstep (rb, pkts)
          (polar_ringbuf_set_pkt_flag rb (pk_idx p) flag,
           <[k := mk_pkt (pk_idx p) (pk_len p) true flag (pk_body p)]> pkts)
| q_new_ref rb pkts strong name rb' ref :
    rb_ref_num rb + 1 < UINT64_MAX ->
    polar_ringbuf_new_ref rb strong name = (rb', ref) -> qstep (rb, pkts) (rb', pkts)
| q_release_ref rb pkts ref rb' ref' :
    ref_ref_num ref <> 0 -> polar_ringbuf_release_ref rb ref = (rb', ref') ->
    qstep (rb, pkts) (rb', drop_read rb rb' pkts)
| q_get_ref rb pkts ref rb' b :
    ref_ref_num ref <> 0 -> polar_ringbuf_get_ref rb ref = (rb', b) -> qstep (rb, pkts) (rb', pkts)
| q_clear_ref rb pkts ref rb' b :
    ref_ref_num ref <> 0 -> polar_ringbuf_clear_ref rb ref = (rb', b) -> qstep (rb, pkts) (rb', pkts)
| q_update_ref rb pkts ref :
    RINGBUF_REF_MATCH rb ref = true -> ref_ref_num ref <> 0 -> polar_ringbuf_avail rb ref > 0 ->
    (polar_ringbuf_next_ready_pkt rb ref).1 <> POLAR_RINGBUF_PKT_INVALID_TYPE ->
    qstep (rb, pkts) (polar_ringbuf_update_ref rb ref, pkts)
| q_keep_data rb pkts :
    let rb' := polar_ringbuf_update_keep_data rb in
    qstep (rb, pkts) (rb', drop_read rb rb' pkts)
| q_free_up rb pkts len rb' st :
    free_up_iter rb len = (rb', st) -> qstep (rb, pkts) (rb', drop_read rb rb' pkts)
| q_skip rb pkts ref k p :
    RINGBUF_REF_MATCH rb ref = true -> ref_ref_num ref <> 0 -> polar_ringbuf_avail rb ref > 0 ->
    ref_at rb pkts (ref_slot ref) k -> pkts !! k = Some p -> pk_sized p = true ->
    qstep (rb, pkts) (polar_ringbuf_update_ref rb ref, pkts)
| q_reset rb pkts rb' :
    (forall k p, pkts !! k = Some p -> pk_ready p = true) ->
    polar_ringbuf_reset rb = Some rb' -> qstep (rb, pkts) (rb', []).

(** A buffer just initialised by [polar_xlog_queue_init]: the memory is
    zeroed and then handed to [polar_ringbuf_init]. *)
Definition zeroed_rbuf (size : Z) : polar_ringbuf_data_t :=
  mk_rbuf 0 0 0 0 (replicate 32 zero_slot) 0 0 (replicate (Z.to_nat size) 0).

Definition init_rbuf (size : Z) : polar_ringbuf_data_t :=
  polar_ringbuf_init (zeroed_rbuf size) size.

(** ** Reading *)

Section reading.
Context (rb : polar_ringbuf_data_t) (pkts : list packet) (Hwf : queue_wf rb pkts).
Context (ref : polar_ringbuf_ref_t) (k : nat) (p : packet).
Context (Hat : ref_at rb pkts (ref_slot ref) k) (Hk : pkts !! k = Some p).

Lemma next_ready_reads :
  polar_ringbuf_next_ready_pkt rb ref =
  if pk_ready p then (Z.land (pk_flag p) POLAR_RINGBUF_PKT_TYPE_MASK, pk_len p)
  else (POLAR_RINGBUF_PKT_INVALID_TYPE, 0).
Proof.
  pose proof (qw_pkts _ _ Hwf k p Hk) as Hp. unfold polar_ringbuf_next_ready_pkt.
  rewrite (ref_at_idx rb pkts Hwf _ k p Hat Hk).
  assert (aget 0 (rb_data rb) (pk_idx p) = pk_flag p) as Hf.
  { rewrite (pa_idx _ _ _ _ Hp), <- (pa_flag _ _ _ _ Hp). done. }
  rewrite Hf. fold (pk_ready p). destruct (pk_ready p) eqn:E; simpl; [|done].
  rewrite (pkt_len_at _ _ _ _ (qw_ring _ _ Hwf) Hp); [done|]. by apply Hp.
Qed.

Lemma read_next_reads offset n :
  pk_sized p = true -> 0 <= offset < pk_len p -> 0 <= n < 2 ^ 63 ->
  polar_ringbuf_read_next_pkt rb ref offset n =
  Some (take (Z.to_nat (Z.min n (pk_len p - offset))) (drop (Z.to_nat offset) (pk_body p))).
Proof.
  intros Hz Ho Hn. pose proof (qw_pkts _ _ Hwf k p Hk) as Hp.
  pose proof (wf_lens rb pkts Hwf k p Hk) as Hl. unfold is_u32 in Hl.
  unfold polar_ringbuf_read_next_pkt. rewrite (ref_at_idx rb pkts Hwf _ k p Hat Hk).
  rewrite (pkt_len_at _ _ _ _ (qw_ring _ _ Hwf) Hp Hz).
  rewrite !u64_small by (unfold is_u64; lia).
  destruct (offset >=? pk_len p) eqn:E1; zbool; [lia|].
  pose proof (wf_pkt_range rb pkts Hwf k p Hk) as Hr.
  unfold pk_size, POLAR_RINGBUF_PKT_SIZE, POLAR_RINGBUF_PKTHDRSIZE in Hr.
  destruct (offset + n >? pk_len p) eqn:E2; zbool;
    rewrite (pkt_body_at _ _ _ _ _ _ (qw_ring _ _ Hwf) Hp) by lia; do 3 f_equal; lia.
Qed.
End reading.

Lemma avail_pos_pkt rb pkts ref (k : nat) :
  queue_wf rb pkts -> ref_at rb pkts (ref_slot ref) k -> polar_ringbuf_avail rb ref > 0 ->
  exists p, pkts !! k = Some p.
Proof.
  intros Hwf Hat Ha. rewrite (avail_total rb pkts Hwf ref k Hat) in Ha.
  destruct (pkts !! k) as [p|] eqn:E; [by eauto|]. apply lookup_ge_None in E.
  destruct Hat as (Hk & _). assert (k = length pkts) as -> by lia. unfold total in Ha. lia.
Qed.

(** ** Invariant *)

Lemma init_wf size : 5 <= size < 2 ^ 62 -> queue_wf (init_rbuf size) [].
Proof.
  intros Hs. split; simpl; unfold total, off; simpl; try done.
  - split; simpl; [done|]. rewrite length_replicate. lia.
  - lia.
  - lia.
  - intros i [_ Hb]. by rewrite Z.bits_0 in Hb.
  - intros i _ _. apply aget_replicate.
  - split; [done|]. intros i [_ Hb]. by rewrite Z.bits_0 in Hb.
Qed.

Lemma release_ref_wf rb pkts ref rb' ref' :
  queue_wf rb pkts -> ref_ref_num ref <> 0 -> polar_ringbuf_release_ref rb ref = (rb', ref') ->
  queue_wf rb' (drop_read rb rb' pkts) /\ rb_min_visit rb <= rb_min_visit rb' /\
  rb_ref_num rb' = rb_ref_num rb /\
  (forall i, slot_at rb' i = slot_at rb i \/ slot_at rb' i = zero_slot).
Proof.
  intros Hwf Hnz Hrel. unfold polar_ringbuf_release_ref, drop_read in *.
  assert (queue_wf rb (drop (Z.to_nat (rb_min_visit rb - rb_min_visit rb)) pkts)) as H0
    by (by rewrite Z.sub_diag, drop_0).
  destruct (ref_rbuf ref); [|injection Hrel as <- <-; split_and!; auto; lia].
  destruct (RINGBUF_REF_MATCH rb ref) eqn:Em; injection Hrel as <- <-; [|split_and!; auto; lia].
  destruct (ref_match_occ rb pkts Hwf ref Em Hnz) as [Hr _].
  destruct (wf_clear_slot rb pkts Hwf (ref_slot ref) Hr) as (Hw & Hz & Hother & _).
  destruct (polar_ringbuf_update_pread (clear_slot rb (ref_slot ref))) as [rb' b] eqn:Hu.
  destruct (wf_update_pread _ pkts Hw rb' b Hu) as (k & Hk & Hw' & Hs & _ & Hn & Hv & _).
  simpl in *. rewrite Hv. replace (Z.to_nat _) with k by lia.
  split_and!; [done|lia|done|]. intros i. unfold slot_at at 1 3. rewrite Hs.
  destruct (decide (i = ref_slot ref)) as [->|Hne]; [by right|left]. by apply Hother.
Qed.

Lemma keep_data_wf rb pkts :
  queue_wf rb pkts ->
  let rb' := polar_ringbuf_update_keep_data rb in
  queue_wf rb' (drop_read rb rb' pkts) /\ rb_min_visit rb <= rb_min_visit rb' /\
  rb_ref_num rb' = rb_ref_num rb /\ rb_slot rb' = rb_slot rb.
Proof.
  intros Hwf rb'. unfold rb', polar_ringbuf_update_keep_data, drop_read.
  destruct (polar_ringbuf_update_pread rb) as [rb1 b] eqn:Hu. simpl.
  destruct (wf_update_pread _ pkts Hwf rb1 b Hu) as (k & Hk & Hw & Hs & _ & Hn & Hv & _).
  rewrite Hv. replace (Z.to_nat _) with k by lia. split_and!; [done|lia|done|done].
Qed.

Lemma free_up_iter_wf rb pkts len rb' st :
  queue_wf rb pkts -> free_up_iter rb len = (rb', st) ->
  queue_wf rb' (drop_read rb rb' pkts) /\ rb_min_visit rb <= rb_min_visit rb' /\
  rb_ref_num rb' = rb_ref_num rb /\
  (forall i, slot_at rb' i = slot_at rb i \/ slot_at rb' i = zero_slot).
Proof.
  intros Hwf Hi. unfold free_up_iter, drop_read in *.
  assert (forall rb0, queue_wf rb0 pkts -> queue_wf rb0 (drop (Z.to_nat (rb_min_visit rb0 - rb_min_visit rb0)) pkts))
    as H0 by (intros; by rewrite Z.sub_diag, drop_0).
  destruct (_ >? len); [injection Hi as <- <-; split_and!; auto; lia|].
  destruct (polar_ringbuf_update_pread rb) as [rb1 b] eqn:Hu.
  destruct (wf_update_pread _ pkts Hwf rb1 b Hu) as (k & Hk & Hw & Hs & _ & Hn & Hv & _ & Hfalse).
  destruct b.
  { injection Hi as <- <-. rewrite Hv. replace (Z.to_nat _) with k by lia.
    split_and!; [done|lia|done|]. intros i. left. unfold slot_at. by rewrite Hs. }
  destruct (Hfalse eq_refl) as (-> & -> & _). rewrite drop_0 in Hw.
  destruct (polar_ringbuf_evict_ref rb) as [rb2 b2] eqn:He.
  destruct (wf_evict_ref rb pkts Hw rb2 b2 He) as [Hw2 Hcase].
  assert (rb' = rb2) as -> by (destruct b2; congruence).
  destruct b2.
  - destruct Hcase as (i & [Hi1 _] & _ & _ & ->). change (rb_min_visit (clear_slot rb i)) with (rb_min_visit rb).
    rewrite Z.sub_diag, drop_0. split_and!; [done|lia|done|].
    destruct (wf_clear_slot rb pkts Hw i Hi1) as (_ & Hz & Hother & _).
    intros j. destruct (decide (j = i)) as [->|Hne]; [by right|left; by apply Hother].
  - destruct Hcase as [-> _]. split_and!; auto; lia.
Qed.

Lemma reset_wf rb pkts rb' : queue_wf rb pkts -> polar_ringbuf_reset rb = Some rb' -> queue_wf rb' [].
Proof.
  intros Hwf. unfold polar_ringbuf_reset. destruct (_ =? 0) eqn:E; zbool; intros [= <-].
  assert (forall i, ~ occ rb i) as Hno by (intros i [_ Hb]; rewrite E, Z.bits_0 in Hb; done).
  destruct Hwf as [H1 H2 H3 H4 H5 H6 H7 H8 H9 H10 H11].
  split; cbn [with_pwrite with_pread rb_pread rb_size rb_pwrite rb_slot rb_occupied rb_min_visit rb_ref_num]; try done.
  - by destruct H1.
  - lia.
  - unfold total, off. simpl. lia.
  - simpl. lia.
  - intros i Hi. by destruct (Hno i).
Qed.

Lemma qstep_wf s s' : qstep s s' -> queue_wf s.1 s.2 -> queue_wf s'.1 s'.2.
Proof.
  destruct 1 as [rb pkts len rb' idx Hl Hf Hv Hr|rb pkts k p Hk Hr|rb pkts k p o buf rb' n Hk Hr Hz Ho Hn Hw
                |rb pkts k p f Hk Hr Hz Hf|rb pkts st nm rb' ref Hn Hnew|rb pkts ref rb' ref' Hz Hrel
                |rb pkts ref rb' b Hz Hg|rb pkts ref rb' b Hz Hg|rb pkts ref Hm Hz Ha Hr|rb pkts
                |rb pkts len rb' st Hi|rb pkts ref k0 p0 Hm Hz Ha Hat Hk0 Hsz|rb pkts rb' Hrdy Hrs]; simpl; intros Hwf.
  - by apply (wf_pkt_reserve rb pkts Hwf len rb' idx).
  - by apply wf_set_pkt_length.
  - destruct (wf_pkt_write rb pkts Hwf k p o buf) as (rb2 & He & Hw2); [done..|].
    rewrite He in Hw. by simplify_eq.
  - by apply wf_set_pkt_flag.
  - by apply (wf_new_ref rb pkts Hwf st nm rb' ref).
  - by apply (release_ref_wf rb pkts ref rb' ref').
  - unfold polar_ringbuf_get_ref in Hg. destruct (RINGBUF_REF_MATCH rb ref) eqn:Em; simplify_eq; [|done].
    apply wf_set_strong; [done|]. by apply (ref_match_occ rb pkts).
  - unfold polar_ringbuf_clear_ref in Hg. destruct (RINGBUF_REF_MATCH rb ref) eqn:Em; simplify_eq; [|done].
    apply wf_set_strong; [done|]. by apply (ref_match_occ rb pkts).
  - pose proof (ref_match_occ rb pkts Hwf ref Hm Hz) as Hocc.
    destruct (qw_refs _ _ Hwf _ Hocc) as (k & Hat).
    destruct (avail_pos_pkt rb pkts ref k Hwf Hat Ha) as (p & Hk).
    rewrite (next_ready_reads rb pkts Hwf ref k p Hat Hk) in Hr.
    destruct (pk_ready p) eqn:Er; [|done].
    apply (wf_update_ref rb pkts Hwf ref k p); try done. by apply (qw_pkts _ _ Hwf k p Hk).
  - by apply keep_data_wf.
  - by apply (free_up_iter_wf rb pkts len rb' st).
  - apply (wf_update_ref rb pkts Hwf ref k0 p0); try done. by apply (ref_match_occ rb pkts).
  - by apply (reset_wf rb pkts).
Qed.

(** ** What a step keeps *)

Lemma new_ref_min_visit rb strong name rb' ref :
  polar_ringbuf_new_ref rb strong name = (rb', ref) -> rb_min_visit rb' = rb_min_visit rb.
Proof. unfold polar_ringbuf_new_ref. destruct (_ && _); intros [= <- <-]; done. Qed.

Lemma drop_read_keeps rb rb' pkts (k : nat) p :
  rb_min_visit rb <= rb_min_visit rb' <= rb_min_visit rb + Z.of_nat k ->
  pkts !! k = Some p ->
  drop_read rb rb' pkts !! Z.to_nat (rb_min_visit rb + Z.of_nat k - rb_min_visit rb') = Some p.
Proof.
  intros Hm Hk. unfold drop_read. rewrite lookup_drop. rewrite <- Hk. f_equal. lia.
Qed.

(** A packet that is ready is not touched until it is dropped; packets
    are counted from the start of the queue by their visit number. *)
Definition holds_at (s : qstate) (v : Z) (p : packet) : Prop :=
  v < rb_min_visit s.1 \/ s.2 !! Z.to_nat (v - rb_min_visit s.1) = Some p.

Lemma holds_keep rb rb' pkts v p :
  rb_min_visit rb <= rb_min_visit rb' ->
  holds_at (rb, pkts) v p -> holds_at (rb', drop_read rb rb' pkts) v p.
Proof.
  intros Hm Hh. destruct (decide (v < rb_min_visit rb')) as [|Hge]; [by left|].
  destruct Hh as [Hlt|Hk]; cbn [fst snd] in *; [left; simpl; lia|]. right. cbn [fst snd].
  pose proof (drop_read_keeps rb rb' pkts (Z.to_nat (v - rb_min_visit rb)) p) as Hd.
  rewrite Z2Nat.id in Hd by lia. rewrite <- Hd; [|lia|done]. f_equal. lia.
Qed.

Lemma holds_same rb rb' pkts v p :
  rb_min_visit rb' = rb_min_visit rb -> holds_at (rb, pkts) v p -> holds_at (rb', pkts) v p.
Proof. unfold holds_at. simpl. by intros ->. Qed.

Lemma holds_insert rb rb' pkts (k : nat) q q' v p :
  rb_min_visit rb' = rb_min_visit rb -> pk_ready p = true ->
  pkts !! k = Some q -> pk_ready q = false ->
  holds_at (rb, pkts) v p -> holds_at (rb', <[k := q']> pkts) v p.
Proof.
  unfold holds_at. simpl. intros -> Hp Hk Hq [?|Hl]; [by left|right].
  rewrite list_lookup_insert_ne; [done|]. intros ->. congruence.
Qed.

(** Only a reset forgets packets that are not read; it needs all
    references to be gone. *)
Lemma qstep_holds s s' v p :
  qstep s s' -> queue_wf s.1 s.2 -> rb_occupied s.1 <> 0 -> pk_ready p = true ->
  holds_at s v p -> holds_at s' v p.
Proof.
  destruct 1 as [rb pkts len rb' idx Hl Hf Hv Hr|rb pkts k q Hk Hr|rb pkts k q o buf rb' n Hk Hr Hz Ho Hn Hw
                |rb pkts k q f Hk Hr Hz Hf|rb pkts st nm rb' ref Hn Hnew|rb pkts ref rb' ref' Hz Hrel
                |rb pkts ref rb' b Hz Hg|rb pkts ref rb' b Hz Hg|rb pkts ref Hm Hz Ha Hr|rb pkts
                |rb pkts len rb' st Hi|rb pkts ref k0 p0 Hm Hz Ha Hat Hk0 Hsz|rb pkts rb' Hrdy Hrs]; cbn [fst snd]; intros Hwf Hocc Hp.
  - intros [?|Hl2]; [left|right]; injection Hr as <- <-; [done|]. by apply lookup_app_l_Some.
  - apply (holds_insert _ _ _ _ q); try done. apply copy_to_ring_fields.
  - destruct (polar_ringbuf_pkt_write rb _ o buf) as [[rb2 n2]|] eqn:Ew; [|done].
    simplify_eq. apply (holds_insert _ _ _ _ q); try done.
    unfold polar_ringbuf_pkt_write in Ew. destruct (_ || _); simplify_eq. apply copy_to_ring_fields.
  - by apply (holds_insert _ _ _ _ q).
  - apply holds_same. by apply (new_ref_min_visit _ _ _ _ _ Hnew).
  - apply holds_keep. by apply (release_ref_wf rb pkts ref rb' ref').
  - apply holds_same. unfold polar_ringbuf_get_ref in Hg. by destruct (RINGBUF_REF_MATCH _ _); simplify_eq.
  - apply holds_same. unfold polar_ringbuf_clear_ref in Hg. by destruct (RINGBUF_REF_MATCH _ _); simplify_eq.
  - by apply holds_same.
  - apply holds_keep. by apply (keep_data_wf rb pkts).
  - apply holds_keep. by apply (free_up_iter_wf rb pkts len rb' st).
  - by apply holds_same.
  - unfold polar_ringbuf_reset in Hrs. destruct (_ =? 0) eqn:E; zbool; done.
Qed.

(** Slots keep their reference number, lose it, or get a fresh one. *)
Definition refnum_kept (rb rb' : polar_ringbuf_data_t) : Prop :=
  rb_ref_num rb <= rb_ref_num rb' /\
  forall i, 0 <= i < POLAR_RINGBUF_MAX_SLOT ->
    s_ref_num (slot_at rb' i) = s_ref_num (slot_at rb i) \/
    s_ref_num (slot_at rb' i) = 0 \/ rb_ref_num rb < s_ref_num (slot_at rb' i).

Lemma refnum_kept_slots rb rb' :
  rb_ref_num rb' = rb_ref_num rb ->
  (forall i, slot_at rb' i = slot_at rb i \/ slot_at rb' i = zero_slot) -> refnum_kept rb rb'.
Proof.
  intros Hn Hs. split; [lia|]. intros i _. destruct (Hs i) as [->| ->]; auto.
Qed.

Lemma refnum_kept_same rb rb' :
  rb_ref_num rb' = rb_ref_num rb -> rb_slot rb' = rb_slot rb -> refnum_kept rb rb'.
Proof.
  intros Hn Hs. apply refnum_kept_slots; [done|]. intros i. left. unfold slot_at. by rewrite Hs.
Qed.

Lemma refnum_kept_with_slot rb i s :
  length (rb_slot rb) = Z.to_nat POLAR_RINGBUF_MAX_SLOT ->
  s_ref_num s = s_ref_num (slot_at rb i) -> refnum_kept rb (with_slot rb i s).
Proof.
  intros Hl He. split; [simpl; lia|]. intros j Hj. left. unfold slot_at in *. cbn [with_slot rb_slot].
  destruct (decide (i = j)) as [->|Hne]; [rewrite aget_aset_eq; [done|lia]|by rewrite aget_aset_ne].
Qed.

Lemma qstep_refnum s s' : qstep s s' -> queue_wf s.1 s.2 -> refnum_kept s.1 s'.1.
Proof.
  destruct 1 as [rb pkts len rb' idx Hl Hf Hv Hr|rb pkts k q Hk Hr|rb pkts k q o buf rb' n Hk Hr Hz Ho Hn Hw
                |rb pkts k q f Hk Hr Hz Hf|rb pkts st nm rb' ref Hn Hnew|rb pkts ref rb' ref' Hz Hrel
                |rb pkts ref rb' b Hz Hg|rb pkts ref rb' b Hz Hg|rb pkts ref Hm Hz Ha Hr|rb pkts
                |rb pkts len rb' st Hi|rb pkts ref k0 p0 Hm Hz Ha Hat Hk0 Hsz|rb pkts rb' Hrdy Hrs]; cbn [fst snd]; intros Hwf; pose proof (qw_slots _ _ Hwf).
  - injection Hr as <- <-. by apply refnum_kept_same.
  - apply refnum_kept_same; apply copy_to_ring_fields.
  - unfold polar_ringbuf_pkt_write in Hw. destruct (_ || _); simplify_eq.
    apply refnum_kept_same; apply copy_to_ring_fields.
  - by apply refnum_kept_same.
  - destruct (wf_new_ref rb pkts Hwf st nm rb' ref Hn Hnew) as [_ Hr].
    destruct ref as [r|]; [|destruct Hr as [-> _]; by apply refnum_kept_same].
    destruct Hr as (_ & _ & Hm & _ & Hr1 & Hr2 & Ho). split; [lia|]. intros i _.
    destruct (decide (i = ref_slot r)) as [->|Hne]; [|left; by rewrite Ho].
    unfold RINGBUF_REF_MATCH in Hm. zbool. right. right. lia.
  - apply refnum_kept_slots; by apply (release_ref_wf rb pkts ref rb' ref').
  - unfold polar_ringbuf_get_ref in Hg. destruct (RINGBUF_REF_MATCH _ _); simplify_eq;
      [by apply refnum_kept_with_slot|by apply refnum_kept_same].
  - unfold polar_ringbuf_clear_ref in Hg. destruct (RINGBUF_REF_MATCH _ _); simplify_eq;
      [by apply refnum_kept_with_slot|by apply refnum_kept_same].
  - by apply refnum_kept_with_slot.
  - apply refnum_kept_same; by apply (keep_data_wf rb pkts).
  - apply refnum_kept_slots; by apply (free_up_iter_wf rb pkts len rb' st).
  - by apply refnum_kept_with_slot.
  - unfold polar_ringbuf_reset in Hrs. destruct (_ =? 0); [|done].
    injection Hrs as <-. by apply refnum_kept_same.
Qed.

(** A reference that is not valid does not become valid again. *)
Lemma stale_ref_step s s' ref :
  qstep s s' -> queue_wf s.1 s.2 -> 0 < ref_ref_num ref <= rb_ref_num s.1 ->
  RINGBUF_REF_MATCH s.1 ref = false ->
  0 < ref_ref_num ref <= rb_ref_num s'.1 /\ RINGBUF_REF_MATCH s'.1 ref = false.
Proof.
  intros Hs Hwf Hn Hm. destruct (qstep_refnum _ _ Hs Hwf) as [Hle Hslot]. split; [lia|].
  unfold RINGBUF_REF_MATCH in *.
  destruct ((0 <=? ref_slot ref) && (ref_slot ref <? POLAR_RINGBUF_MAX_SLOT)) eqn:Er; [|done].
  simpl in *. zbool. destruct (Hslot (ref_slot ref)) as [E|[E|E]]; [lia|apply Z.eqb_neq; lia..].
Qed.

Lemma stale_ref_steps s s' ref :
  rtc qstep s s' -> queue_wf s.1 s.2 -> 0 < ref_ref_num ref <= rb_ref_num s.1 ->
  RINGBUF_REF_MATCH s.1 ref = false -> RINGBUF_REF_MATCH s'.1 ref = false.
Proof.
  induction 1 as [s|s1 s2 s3 H12 _ IH]; [done|]. intros Hwf Hn Hm.
  destruct (stale_ref_step s1 s2 ref H12 Hwf Hn Hm). apply IH; [by apply (qstep_wf s1)|done|done].
Qed.

Lemma qsteps_wf s s' : rtc qstep s s' -> queue_wf s.1 s.2 -> queue_wf s'.1 s'.2.
Proof. induction 1; [done|]. intros. by apply IHrtc, (qstep_wf x). Qed.

(** A valid reference has a number that was given out. *)
Lemma ref_match_num rb pkts ref :
  queue_wf rb pkts -> RINGBUF_REF_MATCH rb ref = true -> ref_ref_num ref <> 0 ->
  0 < ref_ref_num ref <= rb_ref_num rb /\ rb_occupied rb <> 0.
Proof.
  intros Hwf Hm Hz. pose proof (ref_match_occ rb pkts Hwf ref Hm Hz) as Hocc.
  pose proof (proj2 (qw_refnum _ _ Hwf) _ Hocc) as Hr. split.
  - unfold RINGBUF_REF_MATCH in Hm. zbool. lia.
  - intros E. destruct Hocc as [_ Hb]. by rewrite E, Z.bits_0 in Hb.
Qed.

(** While some reference stays valid the ready packets stay. *)
Lemma qsteps_inv s s' w v p :
  rtc qstep s s' -> queue_wf s.1 s.2 -> ref_ref_num w <> 0 -> RINGBUF_REF_MATCH s.1 w = true ->
  RINGBUF_REF_MATCH s'.1 w = true -> pk_ready p = true -> holds_at s v p ->
  queue_wf s'.1 s'.2 /\ holds_at s' v p.
Proof.
  induction 1 as [s|s1 s2 s3 H12 H23 IH]; [done|]. intros Hwf Hz Hm Hm' Hp Hh.
  destruct (ref_match_num s1.1 s1.2 w Hwf Hm Hz) as [Hn Hocc].
  pose proof (qstep_wf _ _ H12 Hwf) as Hwf2. apply IH; try done.
  - destruct (RINGBUF_REF_MATCH s2.1 w) eqn:E; [done|].
    destruct (qstep_refnum _ _ H12 Hwf) as [Hle _].
    by rewrite (stale_ref_steps s2 s3 w H23 Hwf2 ltac:(lia) E) in Hm'.
  - by apply (qstep_holds s1).
Qed.

(** ** Making room *)

Definition free_up_measure (rb : polar_ringbuf_data_t) (pkts : list packet) : nat :=
  length (positions (rb_occupied rb)) + length pkts.

Lemma clear_slot_positions rb pkts i :
  queue_wf rb pkts -> occ rb i ->
  (length (positions (rb_occupied (clear_slot rb i))) < length (positions (rb_occupied rb)))%nat.
Proof.
  intros Hwf Hi. destruct (wf_clear_slot rb pkts Hwf i) as (Hw & _ & _ & Hocc); [apply Hi|].
  enough ((i + 1) :: positions (rb_occupied (clear_slot rb i)) ⊆+ positions (rb_occupied rb)) as Hs.
  { apply submseteq_length in Hs. cbn [length] in Hs. lia. }
  apply NoDup_submseteq.
  - apply NoDup_cons. split; [|apply positions_NoDup].
    rewrite <- (occ_positions _ _ Hw). rewrite Hocc. naive_solver.
  - intros x Hx. apply elem_of_cons in Hx as [->|Hx]; [by apply (occ_positions _ _ Hwf)|].
    replace x with (x - 1 + 1) in Hx |- * by lia. apply (occ_positions _ _ Hw), Hocc in Hx.
    apply (occ_positions _ _ Hwf). apply Hx.
Qed.

Lemma free_up_iter_cases rb pkts len rb' st :
  queue_wf rb pkts -> free_up_iter rb len = (rb', st) ->
  match st with
  | FreeEnough => rb' = rb /\ len < polar_ringbuf_free_size rb
  | FreedSome => polar_ringbuf_free_size rb <= len /\
      (free_up_measure rb' (drop_read rb rb' pkts) < free_up_measure rb pkts)%nat /\
      (forall i, occ rb' i -> occ rb i)
  | MustWait => rb' = rb /\ polar_ringbuf_free_size rb <= len /\
      ((forall i, ~ occ rb i) \/
       exists i, occ rb i /\ ref_at rb pkts i 0 /\ s_strong (slot_at rb i) = true)
  end.
Proof.
  intros Hwf Hi. unfold free_up_iter, drop_read, free_up_measure in *.
  destruct (_ >? len) eqn:El; zbool; [injection Hi as <- <-; done|].
  destruct (polar_ringbuf_update_pread rb) as [rb1 b] eqn:Hu.
  destruct (wf_update_pread _ pkts Hwf rb1 b Hu) as (k & Hk & Hw & Hs & Ho & Hn & Hv & Ht & Hf).
  destruct b.
  { injection Hi as <- <-. destruct (Ht eq_refl) as [Hk0 _]. rewrite Hv, Ho, length_drop.
    split_and!; [lia|lia|]. unfold occ. by rewrite Ho. }
  destruct (Hf eq_refl) as (-> & -> & Hwhy).
  destruct (polar_ringbuf_evict_ref rb) as [rb2 b2] eqn:He.
  destruct (wf_evict_ref rb pkts Hwf rb2 b2 He) as [Hw2 Hcase].
  destruct b2; injection Hi as <- <-.
  - destruct Hcase as (i & Hi & _ & _ & ->). split; [done|].
    change (rb_min_visit (clear_slot rb i)) with (rb_min_visit rb). rewrite Z.sub_diag, drop_0.
    pose proof (clear_slot_positions rb pkts i Hwf Hi).
    destruct (wf_clear_slot rb pkts Hwf i) as (_ & _ & _ & Hocc); [apply Hi|].
    split; [lia|]. intros j Hj. by apply Hocc.
  - destruct Hcase as [-> Hst]. split_and!; [done|lia|].
    destruct Hwhy as [?|(i & Hi & Hat)]; [by left|right]. eauto.
Qed.

(** *** The flashback queue's callback *)

Section keep_data.
Context (pkts : list packet) (Hsized : forall k p, pkts !! k = Some p -> pk_sized p = true).
Context (ref : polar_ringbuf_ref_t) (keep_size : Z) (Hkeep : 0 <= keep_size).

Lemma keep_data_loop_spec fuel rb (k : nat) upd :
  queue_wf rb pkts -> occ rb (ref_slot ref) -> ref_at rb pkts (ref_slot ref) k ->
  (length pkts - k < fuel)%nat ->
  exists rb' (k' : nat) upd', ref_keep_data_loop fuel rb ref keep_size upd = Done (rb', upd') /\
    queue_wf rb' pkts /\ ref_at rb' pkts (ref_slot ref) k' /\ total pkts - off pkts k' <= keep_size /\
    rb_occupied rb' = rb_occupied rb /\ rb_min_visit rb' = rb_min_visit rb /\
    s_ref_num (slot_at rb' (ref_slot ref)) = s_ref_num (slot_at rb (ref_slot ref)) /\
    rb_size rb' = rb_size rb /\ (upd' = false -> k' = k).
Proof.
  revert rb k upd. induction fuel as [|n IH]; intros rb k upd Hwf Ho Hat Hf; [lia|]. simpl.
  rewrite (avail_total rb pkts Hwf ref k Hat).
  destruct (_ >? keep_size) eqn:E; zbool; [|by exists rb, k, upd].
  destruct (pkts !! k) as [p|] eqn:Hk.
  2:{ apply lookup_ge_None in Hk. destruct Hat as [Hkl _].
      assert (k = length pkts) as -> by lia. unfold total in E. lia. }
  destruct (wf_update_ref rb pkts Hwf ref k p Ho Hat Hk (Hsized k p Hk)) as (Hw & Hat' & Hoth).
  apply lookup_lt_Some in Hk.
  destruct (IH (polar_ringbuf_update_ref rb ref) (S k) true Hw Ho Hat') as
    (rb' & k' & upd' & He & Hw' & Hat2 & Ht & H1 & H2 & H3 & H5 & H4); [lia|].
  exists rb', k', upd'. split_and!; try done.
  - rewrite H3. unfold slot_at, polar_ringbuf_update_ref. cbn [with_slot rb_slot].
    rewrite aget_aset_eq; [done|]. rewrite (wf_slot_len rb pkts Hwf). apply Ho.
  - intros ->. specialize (H4 eq_refl). subst k'. exfalso.
    clear -He. revert He. generalize (polar_ringbuf_update_ref rb ref). clear.
    induction n as [|n IH]; simpl; intros rb0 He; [done|]. destruct (_ >? _); [by apply (IH _ He)|done].
Qed.
End keep_data.

Lemma update_pread_size rb : rb_size (polar_ringbuf_update_pread rb).1 = rb_size rb.
Proof.
  unfold polar_ringbuf_update_pread. destruct (min_visit_scan _ _). by destruct (_ && _).
Qed.

Lemma new_ref_size rb strong name : rb_size (polar_ringbuf_new_ref rb strong name).1 = rb_size rb.
Proof. unfold polar_ringbuf_new_ref. by destruct (_ && _). Qed.

Lemma no_occ_update_pread rb pkts :
  queue_wf rb pkts -> (forall i, ~ occ rb i) -> polar_ringbuf_update_pread rb = (rb, false).
Proof.
  intros Hwf Hno. destruct (polar_ringbuf_update_pread rb) as [rb1 b] eqn:Hu.
  destruct (wf_update_pread _ pkts Hwf rb1 b Hu) as (k & _ & _ & _ & _ & _ & _ & Ht & Hf).
  destruct b; [destruct (Ht eq_refl) as (_ & i & Hi & _); by destruct (Hno i)|].
  by destruct (Hf eq_refl) as (_ & -> & _).
Qed.

(** With one reference, standing at packet [k], the read position moves
    to packet [k]. *)
Lemma single_update_pread rb pkts i (k : nat) :
  queue_wf rb pkts -> occ rb i -> (forall j, occ rb j -> j = i) -> ref_at rb pkts i k ->
  exists rb', polar_ringbuf_update_keep_data rb = rb' /\ queue_wf rb' (drop k pkts) /\
    rb_slot rb' = rb_slot rb /\ rb_occupied rb' = rb_occupied rb /\ rb_size rb' = rb_size rb.
Proof.
  intros Hwf Hi Hone Hat. unfold polar_ringbuf_update_keep_data.
  destruct (polar_ringbuf_update_pread rb) as [rb1 b] eqn:Hu. exists rb1. split; [done|].
  destruct (wf_update_pread _ pkts Hwf rb1 b Hu) as (k' & _ & Hw & Hs & Ho & _ & _ & Ht & Hf).
  pose proof (update_pread_size rb) as Hsize. rewrite Hu in Hsize.
  enough (k' = k) as <- by done. destruct b.
  - destruct (Ht eq_refl) as (_ & j & Hj & Hat'). rewrite (Hone j Hj) in Hat'.
    by apply (ref_at_unique rb pkts i).
  - destruct (Hf eq_refl) as (-> & _ & [Hno|(j & Hj & Hat')]); [by destruct (Hno i)|].
    rewrite (Hone j Hj) in Hat'. by apply (ref_at_unique rb pkts i).
Qed.

Lemma flog_keep_data_spec fuel keep_size rb pkts :
  queue_wf rb pkts -> (forall k p, pkts !! k = Some p -> pk_sized p = true) ->
  (forall i, ~ occ rb i) -> 0 <= keep_size -> rb_ref_num rb + 1 < UINT64_MAX ->
  (length pkts < fuel)%nat ->
  exists rb' (k : nat), flog_index_queue_keep_data fuel keep_size rb = Done rb' /\
    queue_wf rb' (drop k pkts) /\ total (drop k pkts) <= keep_size /\ rb_size rb' = rb_size rb.
Proof.
  intros Hwf Hsz Hno Hks Hnum Hf. unfold flog_index_queue_keep_data.
  destruct (polar_ringbuf_new_ref rb true _) as [rb1 ref] eqn:Hnew.
  destruct (wf_new_ref rb pkts Hwf _ _ rb1 ref Hnum Hnew) as [Hw1 Hr].
  destruct ref as [r|]; [|destruct Hr as [_ Hr]; exfalso; apply (Hno 0), Hr; done].
  destruct Hr as (Ho1 & _ & Hm1 & Hat1 & Hrn & _ & Hoth).
  assert (forall j, occ rb1 j -> j = ref_slot r) as Hone.
  { intros j Hj. destruct (decide (j = ref_slot r)) as [|Hne]; [done|]. exfalso.
    assert (s_ref_num (slot_at rb1 j) = 0) as Hz.
    { rewrite Hoth, (qw_free _ _ Hwf); [done|apply Hj|apply Hno|done]. }
    pose proof (proj2 (qw_refnum _ _ Hw1) j Hj). lia. }
  destruct (keep_data_loop_spec pkts Hsz r keep_size Hks fuel rb1 0 false Hw1 Ho1 Hat1)
    as (rb2 & k & upd & He & Hw2 & Hat2 & Ht & Hocc & Hmv & Hrn2 & Hsz2 & Hupd); [lia|].
  unfold polar_ringbuf_ref_keep_data. rewrite He. cbn [obind].
  assert (exists rb3, (if upd then polar_ringbuf_update_keep_data rb2 else rb2) = rb3 /\
            queue_wf rb3 (drop k pkts) /\ rb_slot rb3 = rb_slot rb2 /\ rb_occupied rb3 = rb_occupied rb2 /\
            rb_size rb3 = rb_size rb2)
    as (rb3 & He3 & Hw3 & Hs3 & Ho3 & Hsz3).
  { destruct upd.
    - apply (single_update_pread rb2 pkts (ref_slot r) k); try done; unfold occ; by rewrite Hocc.
    - rewrite (Hupd eq_refl). by exists rb2. }
  rewrite He3. cbn [obind].
  assert (RINGBUF_REF_MATCH rb3 r = true) as Hm3.
  { unfold RINGBUF_REF_MATCH, slot_at in *. by rewrite Hs3, Hrn2. }
  assert (ref_rbuf r = true) as Hrb.
  { unfold polar_ringbuf_new_ref in Hnew. destruct (_ && _); by simplify_eq. }
  destruct (wf_clear_slot rb3 _ Hw3 (ref_slot r)) as (Hw4 & _ & _ & Ho4); [apply Ho1|].
  assert (forall i, ~ occ (clear_slot rb3 (ref_slot r)) i) as Hno4.
  { intros i Hi. apply Ho4 in Hi as [Hi Hne]. apply Hne, Hone. unfold occ in *. by rewrite <- Hocc, <- Ho3. }
  exists (clear_slot rb3 (ref_slot r)), k. unfold polar_ringbuf_release_ref.
  rewrite Hrb, Hm3, (no_occ_update_pread _ _ Hw4 Hno4). split_and!; try done.
  - rewrite total_drop; [done|apply Hat2].
  - apply (f_equal (fun x => rb_size x.1)) in Hnew. rewrite new_ref_size in Hnew.
    simpl in *. congruence.
Qed.

Lemma free_up_iter_size rb len : rb_size (free_up_iter rb len).1 = rb_size rb.
Proof.
  unfold free_up_iter. destruct (_ >? len); [done|]. pose proof (update_pread_size rb) as Hu.
  destruct (polar_ringbuf_update_pread rb) as [rb1 []]; [done|]. simpl in Hu.
  unfold polar_ringbuf_evict_ref. destruct (min_visit_scan rb1 _). by destruct (_ && _).
Qed.

(** ** Pushing a packet *)

Definition published (idx : Z) (buf : list Z) : packet :=
  mk_pkt idx (Z.of_nat (length buf)) true
    (Z.lor POLAR_RINGBUF_PKT_WAL_META POLAR_RINGBUF_PKT_READY) buf.

Lemma push_pkt_spec rb pkts buf :
  queue_wf rb pkts -> 0 < Z.of_nat (length buf) < 2 ^ 32 ->
  POLAR_RINGBUF_PKT_SIZE (Z.of_nat (length buf)) <= polar_ringbuf_free_size rb ->
  rb_min_visit rb + Z.of_nat (length pkts) + 1 < UINT64_MAX ->
  exists rb' idx, recv_queue_push_pkt rb buf = Done rb' /\
    queue_wf rb' (pkts ++ [published idx buf]) /\ rb_size rb' = rb_size rb /\
    rb_min_visit rb' = rb_min_visit rb.
Proof.
  intros Hwf Hl Hroom Hv. unfold recv_queue_push_pkt. set (n := Z.of_nat (length buf)) in *.
  destruct (polar_ringbuf_pkt_reserve rb (POLAR_RINGBUF_PKT_SIZE n)) as [rb1 idx] eqn:Hr.
  destruct (wf_pkt_reserve rb pkts Hwf n rb1 idx) as [Hidx Hw1]; [unfold is_u32; lia|done..|].
  assert (rb_size rb1 = rb_size rb /\ rb_min_visit rb1 = rb_min_visit rb) as [Hs1 Hm1]
    by (injection Hr as <- <-; done).
  rewrite Hs1. destruct (idx <? 0) eqn:E1; zbool; [lia|]. destruct (idx >=? _) eqn:E2; zbool; [lia|].
  cbn [orb]. set (body := ring_bytes _ _ _) in Hw1.
  assert (length body = length buf) as Hbl by (unfold body; rewrite length_ring_bytes; lia).
  pose proof (wf_set_pkt_length rb1 _ Hw1 (length pkts) (mk_pkt idx n false POLAR_RINGBUF_PKT_FREE body))
    as Hw2. rewrite lookup_app_r, Nat.sub_diag in Hw2 by lia. specialize (Hw2 eq_refl eq_refl).
  rewrite insert_app_r_alt, Nat.sub_diag in Hw2 by lia.
  cbn [list_insert insert pk_idx pk_len pk_flag pk_body] in Hw2.
  destruct (wf_pkt_write _ _ Hw2 (length pkts) (mk_pkt idx n true POLAR_RINGBUF_PKT_FREE body) 0 buf)
    as (rb3 & He & Hw3); cbn [pk_len]; try done;
    [rewrite lookup_app_r by lia; by rewrite Nat.sub_diag|lia|].
  cbn [pk_idx] in He. rewrite He. fold n. rewrite u32_small by (unfold is_u32; lia).
  rewrite Z.eqb_refl. cbn [negb].
  rewrite insert_app_r_alt, Nat.sub_diag in Hw3 by lia.
  cbn [list_insert insert pk_idx pk_len pk_flag pk_body] in Hw3.
  assert (mem_write body 0 buf = buf) as Hmw.
  { unfold mem_write. simpl. rewrite drop_ge by lia. apply app_nil_r. }
  rewrite Hmw in Hw3.
  pose proof (wf_set_pkt_flag _ _ Hw3 (length pkts) (mk_pkt idx n true POLAR_RINGBUF_PKT_FREE buf)
    (Z.lor POLAR_RINGBUF_PKT_WAL_META POLAR_RINGBUF_PKT_READY)) as Hw4.
  rewrite lookup_app_r, Nat.sub_diag in Hw4 by lia. specialize (Hw4 eq_refl eq_refl).
  rewrite insert_app_r_alt, Nat.sub_diag in Hw4 by lia.
  eexists _, idx. split; [done|]. split; [exact Hw4|].
  unfold polar_ringbuf_pkt_write in He. destruct (_ || _); simplify_eq. simpl.
  pose proof (copy_to_ring_fields (polar_ringbuf_set_pkt_length rb1 idx n)
    ((idx + POLAR_RINGBUF_PKTHDRSIZE + 0) mod rb_size (polar_ringbuf_set_pkt_length rb1 idx n)) buf)
    as (Ha & _ & _ & _ & _ & _ & Hb). rewrite Ha, Hb.
  pose proof (copy_to_ring_fields rb1 ((idx + 1) mod rb_size rb1) (le_encode 4 n))
    as (Hc & _ & _ & _ & _ & _ & Hd). unfold polar_ringbuf_set_pkt_length. rewrite Hc, Hd. done.
Qed.
