(* ===== verification/RingTheorems.v ===== *)
(** * What the ring buffer guarantees

    The properties of the executions of RingSteps: the invariant, the
    delivery of published packets to every reader, the safety of stale
    references, the reasons and bounds of waiting for room, and the
    receiving side's unpacking of a message into packets. *)

From S2P Require Import Prelude BitPos RingBuf RingBytes RingQueue RingSteps.

(** A run used as a witness: a buffer of 64 bytes, one strong reader, and
    one packet of three bytes pushed and read. *)
Definition demo0 : polar_ringbuf_data_t := init_rbuf 64.
Definition demo1 : polar_ringbuf_data_t := (polar_ringbuf_new_ref demo0 true None).1.
Definition demo_ref : polar_ringbuf_ref_t := mk_ref true 1 0 true [].
Definition demo2 : polar_ringbuf_data_t := (polar_ringbuf_pkt_reserve demo1 8).1.
Definition demo3 : polar_ringbuf_data_t := polar_ringbuf_set_pkt_length demo2 0 3.
Definition demo4 : polar_ringbuf_data_t :=
  match polar_ringbuf_pkt_write demo3 0 0 [7; 8; 9] with Some (rb, _) => rb | None => demo3 end.
Definition demo5 : polar_ringbuf_data_t := polar_ringbuf_set_pkt_flag demo4 0 0x11.
Definition demo_pkt : packet := mk_pkt 0 3 true 0x11 [7; 8; 9].

Lemma demo_run1 : rtc qstep (demo0, []) (demo1, []).
Proof.
  apply rtc_once. eapply (q_new_ref demo0 [] true None); [|vm_compute; reflexivity].
  vm_compute. reflexivity.
Qed.

Lemma demo_run : rtc qstep (demo0, []) (demo5, [demo_pkt]).
Proof.
  eapply rtc_trans; [exact demo_run1|].
  eapply rtc_l; [eapply (q_reserve demo1 [] 3); [split; vm_compute; congruence|vm_compute; congruence|vm_compute; reflexivity|vm_compute; reflexivity]|].
  eapply rtc_l; [eapply (q_set_length demo2 _ 0); [reflexivity|reflexivity]|].
  eapply rtc_l; [eapply (q_write demo3 _ 0 _ 0 [7; 8; 9]); [reflexivity|reflexivity|reflexivity|simpl; lia|simpl; lia|vm_compute; reflexivity]|].
  eapply rtc_l; [eapply (q_publish demo4 _ 0 _ 0x11); [reflexivity|reflexivity|reflexivity|unfold is_u8; lia]|].
  vm_compute. apply rtc_refl.
Qed.

(** C29: every state the writers and readers can reach from an initialised
    buffer, resets at a promotion included, is well formed: the packets
    tile the bytes from the least read position to the write position,
    every occupied slot stands at the start of a packet with the matching
    visit count, and free slots are cleared.  The loop of
    [polar_ringbuf_ref_keep_data], which does not look whether a packet is
    ready, is taken to pass only over packets whose length is written, and
    a reset to happen when every packet is finished. *)
Theorem ring_reachable_wf (size : Z) (s : qstate) :
  5 <= size < 2 ^ 62 -> rtc qstep (init_rbuf size, []) s -> queue_wf s.1 s.2.
Proof. intros Hs Hr. apply (qsteps_wf _ _ Hr). by apply init_wf. Qed.

Lemma ring_reachable_wf_witness : queue_wf demo5 [demo_pkt].
Proof. apply (ring_reachable_wf 64 (demo5, [demo_pkt])); [lia|exact demo_run]. Defined.

(** Two packets of three bytes that are reserved and not yet sized. *)
Definition unsized1 : qstate :=
  (demo2, [mk_pkt 0 3 false POLAR_RINGBUF_PKT_FREE (ring_bytes demo2 (rb_pread demo1 + 5) 3)]).
Definition unsized2 : polar_ringbuf_data_t := (polar_ringbuf_pkt_reserve demo2 8).1.

(** [polar_ringbuf_ref_keep_data] may run over a packet that a writer has
    reserved and whose length it has not yet written, because the length
    is set after the lock is released: it then reads a length that is not
    there and leaves the reference, and with it the least read position,
    inside a packet. *)
Theorem keep_data_crosses_unsized :
  exists s ref keep_size rb',
    rtc qstep (init_rbuf 64, []) s /\ RINGBUF_REF_MATCH s.1 ref = true /\
    polar_ringbuf_ref_keep_data 3 s.1 ref keep_size = Done rb' /\
    (forall k, (k <= length s.2)%nat -> rb_pread rb' <> (rb_pread s.1 + off s.2 k) mod rb_size s.1) /\
    s_pread (slot_at rb' (ref_slot ref)) = rb_pread rb'.
Proof.
  exists (unsized2, unsized1.2 ++ [mk_pkt 8 3 false POLAR_RINGBUF_PKT_FREE
                                     (ring_bytes unsized2 (rb_pread demo2 + (8 + 5)) 3)]), demo_ref, 8.
  eexists. split; [|split; [reflexivity|split; [vm_compute; reflexivity|]]].
  - eapply rtc_trans; [exact demo_run1|].
    apply (rtc_l _ _ unsized1).
    { apply (q_reserve demo1 [] 3 demo2 0); [split; vm_compute; congruence|vm_compute; congruence|done|done]. }
    apply rtc_once. apply (q_reserve demo2 unsized1.2 3 unsized2 8);
      [split; vm_compute; congruence|vm_compute; congruence|done|done].
  - split; [|reflexivity]. intros k Hk. cbn [snd unsized1 length app] in Hk.
    destruct k as [|[|[|k]]]; [vm_compute; congruence..|lia].
Qed.

(** C5: first in, first out, without loss or corruption: a packet that was
    ready as number [v] of the queue is what every valid reference with
    visit count [v] finds, whatever steps of writers, readers, evictions
    and data-keeping come in between, as long as some reference [w] is
    valid at both ends (so that the buffer was not reset in between, which
    would forget the unread packets and use their numbers again);
    [polar_ringbuf_next_ready_pkt] reports its type and length, and
    [polar_ringbuf_read_next_pkt] its bytes. *)
Theorem published_packet_delivered (size : Z) (s s' : qstate) (k : nat) (p : packet)
    (w ref : polar_ringbuf_ref_t) :
  5 <= size < 2 ^ 62 -> rtc qstep (init_rbuf size, []) s ->
  s.2 !! k = Some p -> pk_ready p = true ->
  rtc qstep s s' ->
  ref_ref_num w <> 0 -> RINGBUF_REF_MATCH s.1 w = true -> RINGBUF_REF_MATCH s'.1 w = true ->
  RINGBUF_REF_MATCH s'.1 ref = true -> ref_ref_num ref <> 0 ->
  s_visit (slot_at s'.1 (ref_slot ref)) = rb_min_visit s.1 + Z.of_nat k ->
  polar_ringbuf_avail s'.1 ref > 0 /\
  polar_ringbuf_next_ready_pkt s'.1 ref =
    (Z.land (pk_flag p) POLAR_RINGBUF_PKT_TYPE_MASK, pk_len p) /\
  forall offset n, 0 <= offset < pk_len p -> 0 <= n < 2 ^ 63 ->
    polar_ringbuf_read_next_pkt s'.1 ref offset n =
    Some (take (Z.to_nat (Z.min n (pk_len p - offset))) (drop (Z.to_nat offset) (pk_body p))).
Proof.
  intros Hs Hr Hk Hp Hss Hwz Hw1 Hw2 Hm Hnz Hv. pose proof (qsteps_wf _ _ Hr (init_wf size Hs)) as Hwf.
  destruct (qsteps_inv s s' w (rb_min_visit s.1 + Z.of_nat k) p Hss Hwf Hwz Hw1 Hw2 Hp) as [Hwf' Hh].
  { right. rewrite <- Hk. f_equal. lia. }
  pose proof (ref_match_occ _ _ Hwf' ref Hm Hnz) as Hocc.
  destruct (qw_refs _ _ Hwf' _ Hocc) as (k' & Hat). pose proof Hat as (_ & Hv' & _).
  destruct Hh as [Hlt|Hk']; [lia|]. replace (Z.to_nat _) with k' in Hk' by lia.
  split_and!.
  - rewrite (avail_total _ _ Hwf' ref k' Hat).
    pose proof (off_pkt_end _ (wf_lens _ _ Hwf') k' p Hk').
    pose proof (pk_size_pos p (wf_lens _ _ Hwf' k' p Hk')). lia.
  - by rewrite (next_ready_reads _ _ Hwf' ref k' p Hat Hk'), Hp.
  - intros o n Ho Hn. apply (read_next_reads _ _ Hwf' ref k' p Hat Hk'); [|done|done].
    by apply (qw_pkts _ _ Hwf' k' p Hk').
Qed.

Lemma published_packet_delivered_witness :
  polar_ringbuf_next_ready_pkt demo5 demo_ref = (0x10, 3) /\
  polar_ringbuf_read_next_pkt demo5 demo_ref 0 3 = Some [7; 8; 9].
Proof.
  pose proof (published_packet_delivered 64 (demo5, [demo_pkt]) (demo5, [demo_pkt]) 0 demo_pkt demo_ref
    demo_ref ltac:(lia) demo_run eq_refl eq_refl (rtc_refl _ _) ltac:(discriminate) eq_refl eq_refl eq_refl
    ltac:(discriminate) eq_refl)
    as (_ & H1 & H2).
  split; [exact H1|]. apply (H2 0 3); simpl; lia.
Defined.

(** A reference that was evicted or released never becomes valid
    again: reference numbers are not reused, so a slot taken by another
    reader is not mistaken for the old reader's. *)
Theorem stale_ref_never_matches (size : Z) (s s' : qstate) (ref : polar_ringbuf_ref_t) :
  5 <= size < 2 ^ 62 -> rtc qstep (init_rbuf size, []) s ->
  0 < ref_ref_num ref <= rb_ref_num s.1 -> RINGBUF_REF_MATCH s.1 ref = false ->
  rtc qstep s s' -> RINGBUF_REF_MATCH s'.1 ref = false.
Proof.
  intros Hs Hr Hn Hm Hss. pose proof (qsteps_wf _ _ Hr (init_wf size Hs)) as Hwf.
  by apply (stale_ref_steps s s').
Qed.

(** The reference [demo_ref] after its release, and the slot taken again. *)
Definition demo_released : polar_ringbuf_data_t := (polar_ringbuf_release_ref demo1 demo_ref).1.
Definition demo_retaken : polar_ringbuf_data_t := (polar_ringbuf_new_ref demo_released false None).1.

Lemma stale_ref_never_matches_witness :
  RINGBUF_REF_MATCH demo1 demo_ref = true /\ s_ref_num (slot_at demo_retaken 0) = 2 /\
  RINGBUF_REF_MATCH demo_retaken demo_ref = false.
Proof.
  split; [reflexivity|]. split; [reflexivity|].
  apply (stale_ref_never_matches 64 (demo_released, []) (demo_retaken, []) demo_ref);
    [lia| |vm_compute; split; congruence|reflexivity|].
  - eapply rtc_trans; [exact demo_run1|]. apply rtc_once.
    apply (q_release_ref demo1 [] demo_ref demo_released (mk_ref false 1 0 true []));
      [discriminate|reflexivity].
  - apply rtc_once.
    eapply (q_new_ref demo_released [] false None); [vm_compute; reflexivity|vm_compute; reflexivity].
Defined.

(** A writer that finds no room and can free none waits only when no
    reference exists at all, or when a strong reference stands at the
    least read position; in both cases its buffer is unchanged. *)
Theorem free_up_wait_reason (rb : polar_ringbuf_data_t) (pkts : list packet) (len : Z)
    (rb' : polar_ringbuf_data_t) :
  queue_wf rb pkts -> free_up_iter rb len = (rb', MustWait) ->
  rb' = rb /\ polar_ringbuf_free_size rb <= len /\
  ((forall i, ~ occ rb i) \/
   exists i, occ rb i /\ ref_at rb pkts i 0 /\ s_strong (slot_at rb i) = true).
Proof. intros Hwf Hi. exact (free_up_iter_cases rb pkts len rb' MustWait Hwf Hi). Qed.

Lemma free_up_wait_reason_witness :
  demo1 = demo1 /\ polar_ringbuf_free_size demo1 <= 63 /\
  ((forall i, ~ occ demo1 i) \/
   exists i, occ demo1 i /\ ref_at demo1 [] i 0 /\ s_strong (slot_at demo1 i) = true).
Proof.
  apply (free_up_wait_reason demo1 [] 63 demo1); [|reflexivity].
  apply (qsteps_wf _ _ demo_run1), init_wf. lia.
Defined.





(** ** A received message *)

(** The message format: each packet's length in four bytes and its body. *)
Definition wire (payloads : list (list Z)) : list Z :=
  mjoin (map (fun b => le_encode 4 (Z.of_nat (length b)) ++ b) payloads).

Definition payload_ok (b : list Z) : Prop := 0 < Z.of_nat (length b) < 2 ^ 32.

Definition wire_room (payloads : list (list Z)) : Z :=
  foldr (fun b a => POLAR_RINGBUF_PKT_SIZE (Z.of_nat (length b)) + a) 0 payloads.

Lemma wire_cons b payloads :
  wire (b :: payloads) = le_encode 4 (Z.of_nat (length b)) ++ b ++ wire payloads.
Proof. unfold wire. cbn [map mjoin list_join]. by rewrite <- app_assoc. Qed.

Lemma wire_nonempty b payloads : (4 <= length (wire (b :: payloads)))%nat.
Proof. rewrite wire_cons, length_app, length_le_encode. lia. Qed.

Lemma wire_room_nonneg payloads : 0 <= wire_room payloads.
Proof.
  induction payloads as [|b l IH]; simpl; [lia|].
  unfold POLAR_RINGBUF_PKT_SIZE, POLAR_RINGBUF_PKTHDRSIZE. lia.
Qed.

Lemma push_loop_step callback b rest n rb rb' c len :
  payload_ok b -> POLAR_RINGBUF_PKT_SIZE (Z.of_nat (length b)) <= polar_ringbuf_free_size rb ->
  recv_queue_push_pkt rb b = Done rb' ->
  recv_queue_push_loop (S (S n)) callback rb
    (le_encode 4 (Z.of_nat (length b)) ++ b ++ rest) c len =
  let c := c + 4 + Z.of_nat (length b) in
  if c <? len then recv_queue_push_loop (S n) callback rb' rest c len
  else if negb (c =? len) then Fault PANIC else Done rb'.
Proof.
  intros Hb Hroom Hp. unfold payload_ok in Hb.
  set (m := S n). cbn [recv_queue_push_loop]. unfold m at 1.
  destruct (_ <? 4) eqn:E4; zbool; [rewrite length_app, length_le_encode in E4; lia|].
  rewrite take_app_length', drop_app_length' by (by rewrite length_le_encode).
  rewrite le_decode_encode4 by (unfold is_u32; lia).
  cbn [recv_queue_wait_room]. destruct (polar_ringbuf_free_size rb <? _) eqn:Ef; zbool; [lia|].
  cbn [obind]. destruct (_ <? Z.of_nat (length b)) eqn:El; zbool; [rewrite length_app in El; lia|].
  rewrite take_app_length', drop_app_length' by lia. rewrite Hp. done.
Qed.

Lemma push_loop_spec callback payloads b fuel rb pkts c :
  queue_wf rb pkts -> Forall payload_ok (b :: payloads) ->
  wire_room (b :: payloads) <= polar_ringbuf_free_size rb ->
  rb_min_visit rb + Z.of_nat (length pkts) + Z.of_nat (S (length payloads)) < UINT64_MAX ->
  (S (length payloads) < fuel)%nat ->
  exists rb' idxs, recv_queue_push_loop fuel callback rb (wire (b :: payloads)) c
                     (c + Z.of_nat (length (wire (b :: payloads)))) = Done rb' /\
    length idxs = S (length payloads) /\
    queue_wf rb' (pkts ++ zip_with published idxs (b :: payloads)).
Proof.
  revert b fuel rb pkts c. induction payloads as [|b2 payloads IH];
    intros b fuel rb pkts c Hwf Hok Hroom Hv Hf; (destruct fuel as [|[|n]]; [simpl in Hf; lia..|]);
    inversion_clear Hok as [|? ? Hb Hok'];
    match goal with |- context [wire (b :: ?l)] =>
      pose proof (wire_room_nonneg l) as Hwr; change (wire_room (b :: l)) with
        (POLAR_RINGBUF_PKT_SIZE (Z.of_nat (length b)) + wire_room l) in Hroom end;
    assert (POLAR_RINGBUF_PKT_SIZE (Z.of_nat (length b)) <= polar_ringbuf_free_size rb) as Hr1 by lia;
    (destruct (push_pkt_spec rb pkts b) as (rb1 & idx & Hp & Hw1 & Hs1 & Hm1); [done|done|lia|lia|]);
    rewrite wire_cons, (push_loop_step _ _ _ _ _ _ _ _ Hb Hr1 Hp), !length_app,
      length_le_encode; cbv zeta.
  - destruct (_ <? _) eqn:E1; zbool; [simpl in E1; lia|].
    destruct (_ =? _) eqn:E2; zbool; [|simpl in E2; lia]. by exists rb1, [idx].
  - pose proof (wire_nonempty b2 payloads).
    destruct (_ <? _) eqn:E1; zbool; [|lia].
    destruct (IH b2 (S n) rb1 (pkts ++ [published idx b]) (c + 4 + Z.of_nat (length b)))
      as (rb' & idxs & He & Hl & Hw'); try done.
    + rewrite (free_size_total _ _ Hw1), total_app, Hs1.
      rewrite (free_size_total _ _ Hwf) in Hroom. change (total [published idx b])
        with (POLAR_RINGBUF_PKT_SIZE (Z.of_nat (length b)) + 0). lia.
    + rewrite Hm1, length_app. simpl in *. lia.
    + simpl in *. lia.
    + exists rb', (idx :: idxs). rewrite <- app_assoc in Hw'. split_and!; [|simpl; lia|done].
      rewrite <- He. f_equal. lia.
Qed.

(** A received message is unpacked faithfully: when the buffer has room
    for all packets of the message, [polar_xlog_recv_queue_push] returns
    (whatever its callback does) and the queue has the message's payloads
    appended in order, each ready to be read with its bytes. *)
Theorem recv_queue_push_appends callback (payloads : list (list Z)) (fuel : nat)
    (rb : polar_ringbuf_data_t) (pkts : list packet) :
  queue_wf rb pkts -> payloads <> [] -> Forall payload_ok payloads ->
  wire_room payloads <= polar_ringbuf_free_size rb ->
  rb_min_visit rb + Z.of_nat (length pkts) + Z.of_nat (length payloads) < UINT64_MAX ->
  (length payloads < fuel)%nat ->
  exists rb' idxs, polar_xlog_recv_queue_push fuel callback rb (wire payloads) = Done rb' /\
    length idxs = length payloads /\
    queue_wf rb' (pkts ++ zip_with published idxs payloads).
Proof.
  intros Hwf Hne Hok Hroom Hv Hf. destruct payloads as [|b payloads]; [done|].
  exact (push_loop_spec callback payloads b fuel rb pkts 0 Hwf Hok Hroom Hv Hf).
Qed.

Lemma recv_queue_push_appends_witness :
  exists rb' idxs, polar_xlog_recv_queue_push 3 Done demo5 (wire [[1; 2]; [3]]) = Done rb' /\
    length idxs = 2%nat /\
    queue_wf rb' ([demo_pkt] ++ zip_with published idxs [[1; 2]; [3]]).
Proof.
  apply (recv_queue_push_appends Done [[1; 2]; [3]] 3 demo5 [demo_pkt]);
    [|discriminate|repeat constructor|vm_compute; congruence|vm_compute; reflexivity|simpl; lia].
  apply (qsteps_wf _ _ demo_run), init_wf. lia.
Defined.

Lemma push_pkt_empty rb pkts :
  queue_wf rb pkts -> POLAR_RINGBUF_PKT_SIZE 0 <= polar_ringbuf_free_size rb ->
  rb_min_visit rb + Z.of_nat (length pkts) + 1 < UINT64_MAX ->
  recv_queue_push_pkt rb [] = Fault PANIC.
Proof.
  intros Hwf Hroom Hv. unfold recv_queue_push_pkt. change (Z.of_nat (length [])) with 0.
  destruct (polar_ringbuf_pkt_reserve rb (POLAR_RINGBUF_PKT_SIZE 0)) as [rb1 idx] eqn:Hr.
  destruct (wf_pkt_reserve rb pkts Hwf 0 rb1 idx) as [Hidx Hw1]; [by unfold is_u32|done..|].
  destruct (_ || _); [done|].
  pose proof (wf_set_pkt_length rb1 _ Hw1 (length pkts)
    (mk_pkt idx 0 false POLAR_RINGBUF_PKT_FREE (ring_bytes rb1 (rb_pread rb + (total pkts + 5)) 0))) as Hw2.
  rewrite lookup_app_r, Nat.sub_diag in Hw2 by lia. specialize (Hw2 eq_refl eq_refl).
  rewrite insert_app_r_alt, Nat.sub_diag in Hw2 by lia. cbn [pk_idx pk_len] in Hw2.
  unfold polar_ringbuf_pkt_write.
  pose proof (qw_pkts _ _ Hw2 (length pkts) _ (list_lookup_middle _ [] _ _ eq_refl)) as Hp.
  apply pkt_len_at in Hp; [|apply Hw2|done]. cbn [pk_idx pk_len] in Hp. rewrite Hp. done.
Qed.

(** An empty packet cannot be received: [polar_ringbuf_pkt_write]
    answers -1 for it, which the caller takes for a failed copy. *)
Theorem recv_queue_push_empty_panics callback (rb : polar_ringbuf_data_t) (pkts : list packet)
    (fuel : nat) :
  queue_wf rb pkts -> POLAR_RINGBUF_PKT_SIZE 0 <= polar_ringbuf_free_size rb ->
  rb_min_visit rb + Z.of_nat (length pkts) + 1 < UINT64_MAX -> (1 < fuel)%nat ->
  polar_xlog_recv_queue_push fuel callback rb (wire [[]]) = Fault PANIC.
Proof.
  intros Hwf Hroom Hv Hf. destruct fuel as [|[|n]]; [lia..|].
  unfold polar_xlog_recv_queue_push. change (wire [[]]) with [0; 0; 0; 0].
  cbn [recv_queue_push_loop length]. change (Z.of_nat 4 <? 4) with false. cbn iota.
  change (le_decode (take 4 [0; 0; 0; 0])) with 0. cbn [recv_queue_wait_room].
  destruct (_ <? POLAR_RINGBUF_PKT_SIZE 0) eqn:E; zbool; [lia|]. cbn [obind].
  change (Z.of_nat (length (drop 4 [0; 0; 0; 0])) <? 0) with false. cbn iota.
  change (take (Z.to_nat 0) (drop 4 [0; 0; 0; 0])) with (@nil Z).
  by rewrite (push_pkt_empty rb pkts Hwf Hroom Hv).
Qed.

Lemma recv_queue_push_empty_panics_witness :
  polar_xlog_recv_queue_push 2 Done demo5 (wire [[]]) = Fault PANIC.
Proof.
  apply (recv_queue_push_empty_panics Done demo5 [demo_pkt]);
    [|vm_compute; congruence|vm_compute; reflexivity|lia].
  apply (qsteps_wf _ _ demo_run), init_wf. lia.
Defined.
