(* ===== verification/QueuePush.v ===== *)
(** * Putting WAL meta data in the queue (access/logindex/polar_queue_manager.c)

    For a record whose pages are found through the log index the queue gets
    only the headers of the record, without images and data, and some of its
    _main data_ as an extra block; other records are put in the queue as
    they are.  The space is reserved first, from the sizes that
    [polar_xlog_reserve_size] computes, and filled by
    [polar_xlog_send_queue_push].

    This file has those functions and shows that exactly what was reserved
    is written.  Three kinds of Heap2 records of the source have no
    definition in this tree; their codes and sizes are parameters. *)

From S2P Require Import Prelude BitPos RingBuf RingBytes RingQueue RingSteps.

(** ** WAL records *)

Definition RM_XLOG_ID : Z := 0.
Definition RM_HEAP2_ID : Z := 9.
Definition RM_HEAP_ID : Z := 10.
Definition RM_BTREE_ID : Z := 11.
Definition RM_HASH_ID : Z := 12.
Definition RM_GIN_ID : Z := 13.
Definition RM_GIST_ID : Z := 14.
Definition RM_SEQ_ID : Z := 15.
Definition RM_SPGIST_ID : Z := 16.
Definition RM_BRIN_ID : Z := 17.
Definition RM_GENERIC_ID : Z := 20.

Definition XLR_INFO_MASK : Z := 0x0F.
Definition XLOG_FPI_FOR_HINT : Z := 0xA0.
Definition XLOG_FPI : Z := 0xB0.
Definition XLOG_FPSI : Z := 0xD0.
Definition XLOG_HEAP_OPMASK : Z := 0x70.
Definition XLOG_HEAP_INSERT : Z := 0x00.
Definition XLOG_HEAP_DELETE : Z := 0x10.
Definition XLOG_HEAP_UPDATE : Z := 0x20.
Definition XLOG_HEAP_HOT_UPDATE : Z := 0x40.
Definition XLOG_HEAP_LOCK : Z := 0x60.
Definition XLOG_HEAP2_REWRITE : Z := 0x00.
Definition XLOG_HEAP2_VISIBLE : Z := 0x40.
Definition XLOG_HEAP2_MULTI_INSERT : Z := 0x50.
Definition XLOG_HEAP2_LOCK_UPDATED : Z := 0x60.
Definition XLOG_GIST_PAGE_UPDATE : Z := 0x00.
Definition XLOG_HASH_VACUUM_ONE_PAGE : Z := 0xC0.
Definition XLOG_BTREE_DELETE : Z := 0x70.
Definition XLOG_BTREE_REUSE_PAGE : Z := 0xD0.
Definition XLOG_SPGIST_VACUUM_REDIRECT : Z := 0x80.

Definition SizeOfXLogRecord : Z := 24.
Definition SizeOfHeapInsert : Z := 3.
Definition SizeOfHeapDelete : Z := 8.
Definition SizeOfHeapUpdate : Z := 14.
Definition SizeOfHeapLock : Z := 8.
Definition SizeOfHeapVisible : Z := 5.
Definition SizeOfHeapMultiInsert : Z := 4.
Definition SizeOfHeapLockUpdated : Z := 8.
Definition sizeof_xl_heap_rewrite_mapping : Z := 40.
Definition SizeOfSpgxlogVacuumRedirect : Z := 10.

Definition XLR_BLOCK_ID_POLAR_EXTRA : Z := 252.
Definition POLAR_MAIN_DATA_LEN (len : Z) : Z := 1 + 4 + len.
Definition POLAR_XLOG_HEAD_SIZE : Z := 12.
Definition POLAR_XLOG_PKT_SIZE (len : Z) : Z := POLAR_RINGBUF_PKT_SIZE (len + POLAR_XLOG_HEAD_SIZE).

(** A node of a chain: the memory at its data pointer, of which the first
    [rd_len] bytes belong to it. *)
Record XLogRecData := mk_rdata { rd_data : list Z; rd_len : Z }.

(** The chain of the main data, which is not empty, and its length. *)
Record main_rdata := mk_main { mainrdata_head : XLogRecData; mainrdata_next : list XLogRecData; mainrdata_len : Z }.
Definition main_nodes (main : main_rdata) : list XLogRecData := mainrdata_head main :: mainrdata_next main.

(** The header at the start of the first node. *)
Definition xl_tot_len (d : list Z) : Z := le_decode (take 4 d).
Definition xl_info (d : list Z) : Z := aget 0 d 16.
Definition xl_rmid (d : list Z) : Z := aget 0 d 17.
Definition rmgr_info (d : list Z) : Z := Z.land (xl_info d) (255 - XLR_INFO_MASK).

Definition polar_xlog_remove_payload (record : list Z) : bool :=
  let rmid := xl_rmid record in
  if (rmid =? RM_HEAP_ID) || (rmid =? RM_HEAP2_ID) || (rmid =? RM_BTREE_ID) || (rmid =? RM_HASH_ID) || (rmid =? RM_GIN_ID) || (rmid =? RM_GIST_ID)
     || (rmid =? RM_SEQ_ID) || (rmid =? RM_SPGIST_ID) || (rmid =? RM_BRIN_ID) || (rmid =? RM_GENERIC_ID) then true
  else if negb (rmid =? RM_XLOG_ID) then false
  else
    let info := rmgr_info record in
    if negb (info =? XLOG_FPI) && negb (info =? XLOG_FPI_FOR_HINT) && negb (info =? XLOG_FPSI) then false else true.

(** ** The size that is reserved *)

Definition polar_reserve_main_data_size (main : main_rdata) : Z := POLAR_MAIN_DATA_LEN (mainrdata_len main).

Definition polar_reserve_xlog_data_size (info : Z) : Z := if info =? XLOG_FPSI then POLAR_MAIN_DATA_LEN 8 else 0.

Definition polar_reserve_heap_data_size (info : Z) : Z :=
  let op := Z.land info XLOG_HEAP_OPMASK in
  if op =? XLOG_HEAP_INSERT then POLAR_MAIN_DATA_LEN SizeOfHeapInsert
  else if op =? XLOG_HEAP_DELETE then POLAR_MAIN_DATA_LEN SizeOfHeapDelete
  else if (op =? XLOG_HEAP_UPDATE) || (op =? XLOG_HEAP_HOT_UPDATE) then POLAR_MAIN_DATA_LEN SizeOfHeapUpdate
  else if op =? XLOG_HEAP_LOCK then POLAR_MAIN_DATA_LEN SizeOfHeapLock
  else 0.

(** Codes and sizes of the records that are not defined in this tree. *)
Class heap2_codes := mk_heap2_codes {
  XLOG_HEAP2_CLEAN : Z;
  XLOG_HEAP2_FREEZE_PAGE : Z;
  XLOG_HEAP2_CLEANUP_INFO : Z;
  SizeOfHeapClean : Z;
  SizeOfHeapFreezePage : Z;
  SizeOfHeapCleanupInfo : Z
}.

Section queue_push.
Context `{codes : heap2_codes}.

Definition polar_reserve_heap2_data_size (info : Z) : Z :=
  let op := Z.land info XLOG_HEAP_OPMASK in
  if op =? XLOG_HEAP2_CLEAN then POLAR_MAIN_DATA_LEN SizeOfHeapClean
  else if op =? XLOG_HEAP2_FREEZE_PAGE then POLAR_MAIN_DATA_LEN SizeOfHeapFreezePage
  else if op =? XLOG_HEAP2_CLEANUP_INFO then POLAR_MAIN_DATA_LEN SizeOfHeapCleanupInfo
  else if op =? XLOG_HEAP2_VISIBLE then POLAR_MAIN_DATA_LEN SizeOfHeapVisible
  else if op =? XLOG_HEAP2_MULTI_INSERT then POLAR_MAIN_DATA_LEN SizeOfHeapMultiInsert
  else if op =? XLOG_HEAP2_LOCK_UPDATED then POLAR_MAIN_DATA_LEN SizeOfHeapLockUpdated
  else if op =? XLOG_HEAP2_REWRITE then POLAR_MAIN_DATA_LEN sizeof_xl_heap_rewrite_mapping
  else 0.

(** [rdata->next == NULL || rdata->next->len == 0] *)
Definition no_second_node (main : main_rdata) : bool :=
  match mainrdata_next main with [] => true | n :: _ => rd_len n =? 0 end.

Definition polar_reserve_gist_data_size (main : main_rdata) (info : Z) : Z :=
  if negb (info =? XLOG_GIST_PAGE_UPDATE) then 0 else if no_second_node main then 0 else polar_reserve_main_data_size main.
Definition polar_reserve_hash_data_size (main : main_rdata) (info : Z) : Z :=
  if negb (info =? XLOG_HASH_VACUUM_ONE_PAGE) then 0 else polar_reserve_main_data_size main.
Definition polar_reserve_btree_data_size (main : main_rdata) (info : Z) : Z :=
  if (info =? XLOG_BTREE_DELETE) || (info =? XLOG_BTREE_REUSE_PAGE) then polar_reserve_main_data_size main else 0.
Definition polar_reserve_spg_data_size (info : Z) : Z :=
  if negb (info =? XLOG_SPGIST_VACUUM_REDIRECT) then 0 else POLAR_MAIN_DATA_LEN SizeOfSpgxlogVacuumRedirect.

Definition polar_reserve_data_size (main : main_rdata) (rechdr : list Z) : Z :=
  let info := rmgr_info rechdr in
  let rmid := xl_rmid rechdr in
  if rmid =? RM_HEAP_ID then polar_reserve_heap_data_size info
  else if rmid =? RM_HEAP2_ID then polar_reserve_heap2_data_size info
  else if rmid =? RM_GIST_ID then polar_reserve_gist_data_size main info
  else if rmid =? RM_HASH_ID then polar_reserve_hash_data_size main info
  else if rmid =? RM_BTREE_ID then polar_reserve_btree_data_size main info
  else if rmid =? RM_SPGIST_ID then polar_reserve_spg_data_size info
  else if rmid =? RM_XLOG_ID then polar_reserve_xlog_data_size info
  else 0.

Definition polar_xlog_reserve_size (main : main_rdata) (rdata : XLogRecData) : Z :=
  let len := if polar_xlog_remove_payload (rd_data rdata) then rd_len rdata else xl_tot_len (rd_data rdata) in
  len + polar_reserve_data_size main (rd_data rdata).

(** ** Writing *)

(** [polar_ringbuf_pkt_write] with its return value. *)
Definition pkt_write (rb : polar_ringbuf_data_t) (idx offset : Z) (buf : list Z) : polar_ringbuf_data_t * Z :=
  match polar_ringbuf_pkt_write rb idx offset buf with Some r => r | None => (rb, -1) end.

(** The first [n] bytes at a pointer. *)
Definition mem_bytes (d : list Z) (n : Z) : outcome (list Z) := if Z.of_nat (length d) <? n then Fault UNDEFINED else Done (take (Z.to_nat n) d).

Definition POLAR_WRITE_MAIN_DATA (main : main_rdata) (rb : polar_ringbuf_data_t) (dlen rbuf_pos offset : Z) : outcome (polar_ringbuf_data_t * Z) :=
  if (rbuf_pos <? 0) || (rbuf_pos >=? rb_size rb) then Fault PANIC
  else
    let '(rb, len) := pkt_write rb rbuf_pos offset [XLR_BLOCK_ID_POLAR_EXTRA] in
    let '(rb, n) := pkt_write rb rbuf_pos (offset + len) (le_encode 4 dlen) in
    let len := len + n in
    let! data := mem_bytes (rd_data (mainrdata_head main)) dlen in
    let '(rb, n) := pkt_write rb rbuf_pos (offset + len) data in
    Done (rb, len + n).

Definition polar_xlog_push_heap_data (main : main_rdata) (rb : polar_ringbuf_data_t) (rbuf_pos offset info : Z) : outcome (polar_ringbuf_data_t * Z) :=
  let op := Z.land info XLOG_HEAP_OPMASK in
  if op =? XLOG_HEAP_INSERT then POLAR_WRITE_MAIN_DATA main rb SizeOfHeapInsert rbuf_pos offset
  else if op =? XLOG_HEAP_DELETE then POLAR_WRITE_MAIN_DATA main rb SizeOfHeapDelete rbuf_pos offset
  else if (op =? XLOG_HEAP_UPDATE) || (op =? XLOG_HEAP_HOT_UPDATE) then POLAR_WRITE_MAIN_DATA main rb SizeOfHeapUpdate rbuf_pos offset
  else if op =? XLOG_HEAP_LOCK then POLAR_WRITE_MAIN_DATA main rb SizeOfHeapLock rbuf_pos offset
  else Done (rb, 0).

Definition polar_xlog_push_heap2_data (main : main_rdata) (rb : polar_ringbuf_data_t) (rbuf_pos offset info : Z) : outcome (polar_ringbuf_data_t * Z) :=
  let op := Z.land info XLOG_HEAP_OPMASK in
  if op =? XLOG_HEAP2_CLEAN then POLAR_WRITE_MAIN_DATA main rb SizeOfHeapClean rbuf_pos offset
  else if op =? XLOG_HEAP2_FREEZE_PAGE then POLAR_WRITE_MAIN_DATA main rb SizeOfHeapFreezePage rbuf_pos offset
  else if op =? XLOG_HEAP2_CLEANUP_INFO then POLAR_WRITE_MAIN_DATA main rb SizeOfHeapCleanupInfo rbuf_pos offset
  else if op =? XLOG_HEAP2_VISIBLE then POLAR_WRITE_MAIN_DATA main rb SizeOfHeapVisible rbuf_pos offset
  else if op =? XLOG_HEAP2_MULTI_INSERT then POLAR_WRITE_MAIN_DATA main rb SizeOfHeapMultiInsert rbuf_pos offset
  else if op =? XLOG_HEAP2_LOCK_UPDATED then POLAR_WRITE_MAIN_DATA main rb SizeOfHeapLockUpdated rbuf_pos offset
  else if op =? XLOG_HEAP2_REWRITE then POLAR_WRITE_MAIN_DATA main rb sizeof_xl_heap_rewrite_mapping rbuf_pos offset
  else Done (rb, 0).

(** The loop over the chain; behind its end a null pointer is followed. *)
Fixpoint push_main_loop (nodes : list XLogRecData) (rb : polar_ringbuf_data_t) (rbuf_pos offset len data_len : Z) : outcome (polar_ringbuf_data_t * Z) :=
  if negb (len <? data_len) then Done (rb, len)
  else match nodes with
  | [] => Fault UNDEFINED
  | rdata :: nodes =>
    let! data := mem_bytes (rd_data rdata) (rd_len rdata) in
    let '(rb, n) := pkt_write rb rbuf_pos (offset + len) data in
    push_main_loop nodes rb rbuf_pos offset (len + n) data_len
  end.

Definition polar_push_main_data (main : main_rdata) (rb : polar_ringbuf_data_t) (rbuf_pos offset : Z) : outcome (polar_ringbuf_data_t * Z) :=
  let data_len := u32 (polar_reserve_main_data_size main) in
  if rbuf_pos >=? rb_size rb then Fault PANIC
  else
    let '(rb, len) := pkt_write rb rbuf_pos offset [XLR_BLOCK_ID_POLAR_EXTRA] in
    let '(rb, n) := pkt_write rb rbuf_pos (offset + len) (le_encode 4 data_len) in
    push_main_loop (main_nodes main) rb rbuf_pos offset (len + n) data_len.

Definition polar_xlog_push_gist_data (main : main_rdata) (rb : polar_ringbuf_data_t) (rbuf_pos offset info : Z) : outcome (polar_ringbuf_data_t * Z) :=
  if negb (info =? XLOG_GIST_PAGE_UPDATE) then Done (rb, 0) else if no_second_node main then Done (rb, 0) else polar_push_main_data main rb rbuf_pos offset.
Definition polar_xlog_push_hash_data (main : main_rdata) (rb : polar_ringbuf_data_t) (rbuf_pos offset info : Z) : outcome (polar_ringbuf_data_t * Z) :=
  if negb (info =? XLOG_HASH_VACUUM_ONE_PAGE) then Done (rb, 0) else polar_push_main_data main rb rbuf_pos offset.
Definition polar_xlog_push_btree_data (main : main_rdata) (rb : polar_ringbuf_data_t) (rbuf_pos offset info : Z) : outcome (polar_ringbuf_data_t * Z) :=
  if (info =? XLOG_BTREE_DELETE) || (info =? XLOG_BTREE_REUSE_PAGE) then polar_push_main_data main rb rbuf_pos offset else Done (rb, 0).
Definition polar_xlog_push_spg_data (main : main_rdata) (rb : polar_ringbuf_data_t) (rbuf_pos offset info : Z) : outcome (polar_ringbuf_data_t * Z) :=
  if negb (info =? XLOG_SPGIST_VACUUM_REDIRECT) then Done (rb, 0) else POLAR_WRITE_MAIN_DATA main rb SizeOfSpgxlogVacuumRedirect rbuf_pos offset.
Definition polar_xlog_push_xlog_data (main : main_rdata) (rb : polar_ringbuf_data_t) (rbuf_pos offset info : Z) : outcome (polar_ringbuf_data_t * Z) :=
  if negb (info =? XLOG_FPSI) then Done (rb, 0) else POLAR_WRITE_MAIN_DATA main rb 8 rbuf_pos offset.

Definition polar_xlog_send_queue_push_data (main : main_rdata) (rb : polar_ringbuf_data_t) (rbuf_pos offset : Z) (rechdr : list Z)
  : outcome (polar_ringbuf_data_t * Z) :=
  let info := rmgr_info rechdr in
  let rmid := xl_rmid rechdr in
  if rmid =? RM_HEAP_ID then polar_xlog_push_heap_data main rb rbuf_pos offset info
  else if rmid =? RM_HEAP2_ID then polar_xlog_push_heap2_data main rb rbuf_pos offset info
  else if rmid =? RM_GIST_ID then polar_xlog_push_gist_data main rb rbuf_pos offset info
  else if rmid =? RM_HASH_ID then polar_xlog_push_hash_data main rb rbuf_pos offset info
  else if rmid =? RM_BTREE_ID then polar_xlog_push_btree_data main rb rbuf_pos offset info
  else if rmid =? RM_SPGIST_ID then polar_xlog_push_spg_data main rb rbuf_pos offset info
  else if rmid =? RM_XLOG_ID then polar_xlog_push_xlog_data main rb rbuf_pos offset info
  else Done (rb, 0).

(** The loop that copies the record; [copy_len - data_size] is unsigned. *)
Fixpoint send_push_loop (nodes : list XLogRecData) (rb : polar_ringbuf_data_t) (rbuf_pos offset copy_len data_size : Z)
  : outcome (polar_ringbuf_data_t * Z * Z) :=
  match nodes with
  | rdata :: nodes =>
    if u64 (copy_len - data_size) >? 0 then
      let write_len := Z.min (u64 (copy_len - data_size)) (rd_len rdata) in
      let! data := mem_bytes (rd_data rdata) write_len in
      let '(rb, copy_size) := pkt_write rb rbuf_pos offset data in
      if negb (copy_size =? write_len) then Fault PANIC
      else send_push_loop nodes rb rbuf_pos (offset + write_len) (copy_len - write_len) data_size
    else Done (rb, offset, copy_len)
  | [] => Done (rb, offset, copy_len)
  end.

Definition polar_xlog_send_queue_push (main : main_rdata) (rb : polar_ringbuf_data_t) (rbuf_pos : Z) (record : list XLogRecData) (copy_len end_lsn xlog_len : Z)
  : outcome polar_ringbuf_data_t :=
  match record with
  | [] => Fault UNDEFINED
  | first :: _ =>
    let data_size := polar_reserve_data_size main (rd_data first) in
    if rbuf_pos >=? rb_size rb then Fault PANIC
    else
      let '(rb, offset) := pkt_write rb rbuf_pos 0 (le_encode 8 end_lsn) in
      let '(rb, n) := pkt_write rb rbuf_pos offset (le_encode 4 xlog_len) in
      let! (rb, offset, copy_len) := send_push_loop record rb rbuf_pos (offset + n) copy_len data_size in
      let! (rb, n) := polar_xlog_send_queue_push_data main rb rbuf_pos offset (rd_data first) in
      if negb (copy_len - n =? 0) then Fault PANIC
      else Done (polar_ringbuf_set_pkt_flag rb rbuf_pos (Z.lor POLAR_RINGBUF_PKT_WAL_META POLAR_RINGBUF_PKT_READY))
  end.

(** ** What is written *)

(** The extra block of a record: none, the first bytes of its main data, or
    all of it. *)
Inductive extra_data := ExNone | ExPrefix (n : Z) | ExWhole.

Definition heap_extra (info : Z) : extra_data :=
  let op := Z.land info XLOG_HEAP_OPMASK in
  if op =? XLOG_HEAP_INSERT then ExPrefix SizeOfHeapInsert
  else if op =? XLOG_HEAP_DELETE then ExPrefix SizeOfHeapDelete
  else if (op =? XLOG_HEAP_UPDATE) || (op =? XLOG_HEAP_HOT_UPDATE) then ExPrefix SizeOfHeapUpdate
  else if op =? XLOG_HEAP_LOCK then ExPrefix SizeOfHeapLock
  else ExNone.
Definition heap2_extra (info : Z) : extra_data :=
  let op := Z.land info XLOG_HEAP_OPMASK in
  if op =? XLOG_HEAP2_CLEAN then ExPrefix SizeOfHeapClean
  else if op =? XLOG_HEAP2_FREEZE_PAGE then ExPrefix SizeOfHeapFreezePage
  else if op =? XLOG_HEAP2_CLEANUP_INFO then ExPrefix SizeOfHeapCleanupInfo
  else if op =? XLOG_HEAP2_VISIBLE then ExPrefix SizeOfHeapVisible
  else if op =? XLOG_HEAP2_MULTI_INSERT then ExPrefix SizeOfHeapMultiInsert
  else if op =? XLOG_HEAP2_LOCK_UPDATED then ExPrefix SizeOfHeapLockUpdated
  else if op =? XLOG_HEAP2_REWRITE then ExPrefix sizeof_xl_heap_rewrite_mapping
  else ExNone.

Definition extra_of (main : main_rdata) (rechdr : list Z) : extra_data :=
  let info := rmgr_info rechdr in
  let rmid := xl_rmid rechdr in
  if rmid =? RM_HEAP_ID then heap_extra info
  else if rmid =? RM_HEAP2_ID then heap2_extra info
  else if rmid =? RM_GIST_ID then (if (info =? XLOG_GIST_PAGE_UPDATE) && negb (no_second_node main) then ExWhole else ExNone)
  else if rmid =? RM_HASH_ID then (if info =? XLOG_HASH_VACUUM_ONE_PAGE then ExWhole else ExNone)
  else if rmid =? RM_BTREE_ID then (if (info =? XLOG_BTREE_DELETE) || (info =? XLOG_BTREE_REUSE_PAGE) then ExWhole else ExNone)
  else if rmid =? RM_SPGIST_ID then (if info =? XLOG_SPGIST_VACUUM_REDIRECT then ExPrefix SizeOfSpgxlogVacuumRedirect else ExNone)
  else if rmid =? RM_XLOG_ID then (if info =? XLOG_FPSI then ExPrefix 8 else ExNone)
  else ExNone.

Definition node_bytes (n : XLogRecData) : list Z := take (Z.to_nat (rd_len n)) (rd_data n).
Definition chain_bytes (nodes : list XLogRecData) : list Z := mjoin (map node_bytes nodes).

Definition extra_size (main : main_rdata) (x : extra_data) : Z :=
  match x with ExNone => 0 | ExPrefix n => POLAR_MAIN_DATA_LEN n | ExWhole => polar_reserve_main_data_size main end.
Definition extra_bytes (main : main_rdata) (x : extra_data) : list Z :=
  match x with
  | ExNone => []
  | ExPrefix n => XLR_BLOCK_ID_POLAR_EXTRA :: le_encode 4 n ++ take (Z.to_nat n) (rd_data (mainrdata_head main))
  | ExWhole => XLR_BLOCK_ID_POLAR_EXTRA :: le_encode 4 (polar_reserve_main_data_size main) ++ chain_bytes (main_nodes main)
  end.

Ltac split_codes main :=
  repeat (match goal with |- context [?a =? ?b] => destruct (a =? b) | |- context [no_second_node main] => destruct (no_second_node main) end;
          cbn [negb andb orb extra_size]; try reflexivity).

Lemma reserve_is_extra main rechdr : polar_reserve_data_size main rechdr = extra_size main (extra_of main rechdr).
Proof.
  unfold polar_reserve_data_size, extra_of, polar_reserve_heap_data_size, polar_reserve_heap2_data_size, heap_extra, heap2_extra, polar_reserve_gist_data_size,
    polar_reserve_hash_data_size, polar_reserve_btree_data_size, polar_reserve_spg_data_size, polar_reserve_xlog_data_size.
  split_codes main.
Qed.

Lemma push_is_extra main rb rbuf_pos offset rechdr :
  polar_xlog_send_queue_push_data main rb rbuf_pos offset rechdr =
  match extra_of main rechdr with
  | ExNone => Done (rb, 0)
  | ExPrefix n => POLAR_WRITE_MAIN_DATA main rb n rbuf_pos offset
  | ExWhole => polar_push_main_data main rb rbuf_pos offset
  end.
Proof.
  unfold polar_xlog_send_queue_push_data, extra_of, polar_xlog_push_heap_data, polar_xlog_push_heap2_data, heap_extra, heap2_extra, polar_xlog_push_gist_data,
    polar_xlog_push_hash_data, polar_xlog_push_btree_data, polar_xlog_push_spg_data, polar_xlog_push_xlog_data.
  split_codes main.
Qed.

(** ** Filling a packet *)

Section filling.
Context (rb0 : polar_ringbuf_data_t) (pkts : list packet) (k : nat) (idx len flag : Z).

(** Packet [k] is reserved and its first bytes are [acc]. *)
Definition filling (rb : polar_ringbuf_data_t) (acc : list Z) : Prop :=
  exists body, queue_wf rb (<[k := mk_pkt idx len true flag body]> pkts) /\ Z.of_nat (length body) = len /\ take (length acc) body = acc /\
    rb_size rb = rb_size rb0 /\ rb_min_visit rb = rb_min_visit rb0 /\ rb_slot rb = rb_slot rb0 /\ rb_occupied rb = rb_occupied rb0.

Context (Hk : (k < length pkts)%nat) (Hnr : Z.land flag POLAR_RINGBUF_PKT_STATE_MASK <> POLAR_RINGBUF_PKT_READY).

Lemma fill_write rb acc buf :
  filling rb acc -> Z.of_nat (length acc) < len -> Z.of_nat (length acc) + Z.of_nat (length buf) <= len ->
  exists rb', pkt_write rb idx (Z.of_nat (length acc)) buf = (rb', Z.of_nat (length buf)) /\ filling rb' (acc ++ buf).
Proof.
  intros (body & Hwf & Hl & Ha & S1 & S2 & S3 & S4) H1 H2. unfold pkt_write.
  destruct (wf_pkt_write _ _ Hwf k (mk_pkt idx len true flag body) (Z.of_nat (length acc)) buf) as (rb' & He & Hw');
    [by apply list_lookup_insert_eq|by apply Z.eqb_neq|done|cbn; lia|cbn; lia|]. cbn [pk_idx] in He. rewrite He. exists rb'. split; [done|].
  assert (rb_size rb' = rb_size rb /\ rb_min_visit rb' = rb_min_visit rb /\ rb_slot rb' = rb_slot rb /\ rb_occupied rb' = rb_occupied rb) as (T1 & T2 & T3 & T4).
  { unfold polar_ringbuf_pkt_write in He. destruct (_ || _); simplify_eq. split_and!; apply copy_to_ring_fields. }
  rewrite list_insert_insert_eq in Hw'. cbn [pk_idx pk_len pk_flag pk_body] in Hw'.
  exists (mem_write body (Z.of_nat (length acc)) buf). split; [exact Hw'|]. unfold mem_write. rewrite Nat2Z.id, Ha.
  split; [rewrite !length_app, length_drop; lia|]. split; [rewrite app_assoc, length_app; apply take_app_length'; by rewrite length_app|]. split_and!; congruence.
Qed.

Lemma mem_bytes_ok d n : 0 <= n <= Z.of_nat (length d) -> mem_bytes d n = Done (take (Z.to_nat n) d).
Proof. intros H. unfold mem_bytes. destruct (Z.ltb_spec (Z.of_nat (length d)) n); [lia|done]. Qed.

Lemma fill_pos rb acc : filling rb acc -> 0 <= idx < rb_size rb.
Proof.
  intros (body & Hwf & _). pose proof (qw_pkts _ _ Hwf k _ (list_lookup_insert_eq _ _ _ Hk)) as Hp. rewrite (pa_idx _ _ _ _ Hp : idx = _).
  apply Z.mod_pos_bound. apply (wf_size_pos _ _ Hwf).
Qed.

(** The block with the first bytes of the main data. *)
Lemma fill_prefix main rb acc n :
  filling rb acc -> 0 < n <= Z.of_nat (length (rd_data (mainrdata_head main))) -> Z.of_nat (length acc) + POLAR_MAIN_DATA_LEN n <= len ->
  exists rb', POLAR_WRITE_MAIN_DATA main rb n idx (Z.of_nat (length acc)) = Done (rb', POLAR_MAIN_DATA_LEN n) /\ filling rb' (acc ++ extra_bytes main (ExPrefix n)).
Proof.
  unfold POLAR_MAIN_DATA_LEN. intros HF Hn Hl. unfold POLAR_WRITE_MAIN_DATA. pose proof (fill_pos _ _ HF) as Hi.
  rewrite (proj2 (Z.ltb_ge _ _)), Z.geb_leb, (proj2 (Z.leb_gt _ _)) by lia. cbn [orb].
  destruct (fill_write rb acc [XLR_BLOCK_ID_POLAR_EXTRA] HF) as (rb1 & -> & HF1); [lia|cbn; lia|]. change (Z.of_nat (length [XLR_BLOCK_ID_POLAR_EXTRA])) with 1.
  destruct (fill_write rb1 _ (le_encode 4 n) HF1) as (rb2 & E2 & HF2); [rewrite length_app; cbn; lia|rewrite length_app, length_le_encode; cbn; lia|].
  replace (Z.of_nat (length acc) + 1) with (Z.of_nat (length (acc ++ [XLR_BLOCK_ID_POLAR_EXTRA]))) by (rewrite length_app; cbn; lia). rewrite E2.
  rewrite mem_bytes_ok by lia. cbn [obind]. rewrite length_le_encode in *. change (1 + Z.of_nat 4) with 5.
  destruct (fill_write rb2 _ (take (Z.to_nat n) (rd_data (mainrdata_head main))) HF2) as (rb3 & E3 & HF3);
    [rewrite !length_app, length_le_encode; cbn; lia|rewrite !length_app, length_le_encode, length_take; cbn; lia|].
  replace (Z.of_nat (length acc) + 5) with (Z.of_nat (length ((acc ++ [XLR_BLOCK_ID_POLAR_EXTRA]) ++ le_encode 4 n))) by (rewrite !length_app, length_le_encode; cbn; lia).
  rewrite E3. exists rb3. split; [rewrite length_take; do 2 f_equal; lia|]. by rewrite <- !app_assoc in HF3.
Qed.

Definition node_ok (n : XLogRecData) : Prop := 0 <= rd_len n <= Z.of_nat (length (rd_data n)).
Lemma length_node n : node_ok n -> Z.of_nat (length (node_bytes n)) = rd_len n.
Proof. unfold node_ok, node_bytes. intros. rewrite length_take. lia. Qed.

Lemma fill_main_loop nodes : forall rb acc hdr data_len,
  filling rb (acc ++ hdr) -> Forall node_ok nodes -> Z.of_nat (length hdr) + Z.of_nat (length (chain_bytes nodes)) = data_len -> Z.of_nat (length acc) + data_len <= len ->
  exists rb', push_main_loop nodes rb idx (Z.of_nat (length acc)) (Z.of_nat (length hdr)) data_len = Done (rb', data_len) /\ filling rb' (acc ++ hdr ++ chain_bytes nodes).
Proof.
  induction nodes as [|n nodes IH]; intros rb acc hdr data_len HF Hok Hd Hl.
  { cbn in Hd. exists rb. cbn [push_main_loop]. rewrite (proj2 (Z.ltb_ge _ _)) by lia. cbn [negb]. split; [do 2 f_equal; lia|]. by rewrite app_nil_r. }
  inversion_clear Hok as [|? ? Hn Hok']. change (chain_bytes (n :: nodes)) with (node_bytes n ++ chain_bytes nodes) in *. rewrite length_app in Hd. pose proof (length_node n Hn) as Hnl.
  cbn [push_main_loop]. destruct (Z.ltb_spec (Z.of_nat (length hdr)) data_len) as [Hlt|Hge]; cbn [negb].
  2: { assert (node_bytes n = [] /\ chain_bytes nodes = []) as [-> ->] by (split; apply length_zero_iff_nil; lia).
       exists rb. split; [do 2 f_equal; lia|by rewrite !app_nil_r]. }
  rewrite mem_bytes_ok by (unfold node_ok in Hn; lia). cbn [obind]. fold (node_bytes n).
  destruct (fill_write rb (acc ++ hdr) (node_bytes n) HF) as (rb1 & E1 & HF1); [rewrite length_app; lia|rewrite length_app; lia|].
  replace (Z.of_nat (length acc) + Z.of_nat (length hdr)) with (Z.of_nat (length (acc ++ hdr))) by (rewrite length_app; lia). rewrite E1.
  rewrite <- app_assoc in HF1. destruct (IH rb1 acc (hdr ++ node_bytes n) data_len HF1 Hok') as (rb' & E' & HF'); [rewrite length_app; lia|done|].
  exists rb'. split; [|by rewrite <- app_assoc in HF']. rewrite <- E'. f_equal. rewrite length_app. lia.
Qed.

(** All of the main data, as one block. *)
Record main_ok (main : main_rdata) : Prop := {
  mo_nodes : Forall node_ok (main_nodes main);
  mo_len : mainrdata_len main = Z.of_nat (length (chain_bytes (main_nodes main)));
  mo_size : mainrdata_len main < 2 ^ 31
}.

Lemma fill_whole main rb acc :
  filling rb acc -> main_ok main -> Z.of_nat (length acc) + polar_reserve_main_data_size main <= len ->
  exists rb', polar_push_main_data main rb idx (Z.of_nat (length acc)) = Done (rb', polar_reserve_main_data_size main) /\ filling rb' (acc ++ extra_bytes main ExWhole).
Proof.
  intros HF [M1 M2 M3] Hl. unfold polar_push_main_data. pose proof (fill_pos _ _ HF) as Hi. rewrite Z.geb_leb, (proj2 (Z.leb_gt _ _)) by lia.
  assert (polar_reserve_main_data_size main = 5 + mainrdata_len main) as Er by (unfold polar_reserve_main_data_size, POLAR_MAIN_DATA_LEN; lia).
  rewrite u32_small by (unfold is_u32; lia). destruct (fill_write rb acc [XLR_BLOCK_ID_POLAR_EXTRA] HF) as (rb1 & -> & HF1); [lia|cbn; lia|].
  change (Z.of_nat (length [XLR_BLOCK_ID_POLAR_EXTRA])) with 1. set (dl := polar_reserve_main_data_size main) in *.
  destruct (fill_write rb1 _ (le_encode 4 dl) HF1) as (rb2 & E2 & HF2); [rewrite length_app; cbn; lia|rewrite length_app, length_le_encode; cbn; lia|].
  replace (Z.of_nat (length acc) + 1) with (Z.of_nat (length (acc ++ [XLR_BLOCK_ID_POLAR_EXTRA]))) by (rewrite length_app; cbn; lia). rewrite E2.
  rewrite <- app_assoc in HF2. destruct (fill_main_loop (main_nodes main) rb2 acc _ dl HF2 M1) as (rb3 & E3 & HF3); [rewrite length_app, length_le_encode; cbn [length]; lia|done|].
  rewrite length_app, !length_le_encode in *. exists rb3. split; [exact E3|]. exact HF3.
Qed.

(** The record itself, without the part that is left out. *)
Lemma fill_record nodes : forall rb acc copy_len data_size,
  filling rb acc -> Forall node_ok nodes -> 0 <= copy_len - data_size <= Z.of_nat (length (chain_bytes nodes)) -> copy_len - data_size < 2 ^ 63 ->
  Z.of_nat (length acc) + (copy_len - data_size) <= len ->
  exists rb', send_push_loop nodes rb idx (Z.of_nat (length acc)) copy_len data_size = Done (rb', Z.of_nat (length acc) + (copy_len - data_size), data_size) /\
    filling rb' (acc ++ take (Z.to_nat (copy_len - data_size)) (chain_bytes nodes)).
Proof.
  induction nodes as [|n nodes IH]; intros rb acc copy_len data_size HF Hok Hc Hb Hl.
  { cbn in Hc. exists rb. cbn [send_push_loop]. replace (copy_len - data_size) with 0 by lia. rewrite Z.add_0_r, take_0, app_nil_r. split; [do 3 f_equal; lia|done]. }
  inversion_clear Hok as [|? ? Hn Hok']. change (chain_bytes (n :: nodes)) with (node_bytes n ++ chain_bytes nodes) in *. rewrite length_app in Hc. pose proof (length_node n Hn) as Hnl.
  cbn [send_push_loop]. rewrite u64_small by (unfold is_u64; lia). rewrite Z.gtb_ltb. destruct (Z.ltb_spec 0 (copy_len - data_size)) as [Hgt|Hle].
  2: { exists rb. replace (copy_len - data_size) with 0 by lia. rewrite Z.add_0_r, take_0, app_nil_r. split; [do 3 f_equal; lia|done]. }
  set (wl := Z.min (copy_len - data_size) (rd_len n)). unfold node_ok in Hn. rewrite mem_bytes_ok by lia. cbn [obind].
  destruct (fill_write rb acc (take (Z.to_nat wl) (rd_data n)) HF) as (rb1 & -> & HF1); [lia|rewrite length_take; lia|].
  assert (Z.of_nat (length (take (Z.to_nat wl) (rd_data n))) = wl) as Ew by (rewrite length_take; lia). rewrite Ew, Z.eqb_refl. cbn [negb].
  destruct (IH rb1 _ (copy_len - wl) data_size HF1 Hok') as (rb' & E' & HF'); [lia|lia|rewrite length_app; lia|].
  exists rb'. rewrite length_app, Nat2Z.inj_add, Ew in E'. split; [rewrite E'; do 3 f_equal; lia|].
  enough (take (Z.to_nat (copy_len - data_size)) (node_bytes n ++ chain_bytes nodes) =
          take (Z.to_nat wl) (rd_data n) ++ take (Z.to_nat (copy_len - wl - data_size)) (chain_bytes nodes)) as -> by by rewrite app_assoc.
  rewrite take_app. unfold node_bytes. rewrite take_take. f_equal; [f_equal; lia|]. f_equal. rewrite length_take. lia.
Qed.
End filling.

(** ** The packet of a record *)

Definition extra_ok (main : main_rdata) (x : extra_data) : Prop :=
  match x with ExNone => True | ExPrefix n => 0 < n <= Z.of_nat (length (rd_data (mainrdata_head main))) | ExWhole => main_ok main end.

(** What the packet has of a record for which [copy_len] bytes are reserved. *)
Definition meta_part (main : main_rdata) (record : list XLogRecData) (copy_len : Z) : list Z :=
  match record with
  | [] => []
  | first :: _ => take (Z.to_nat (copy_len - polar_reserve_data_size main (rd_data first))) (chain_bytes record) ++ extra_bytes main (extra_of main (rd_data first))
  end.
Definition meta_body (main : main_rdata) (record : list XLogRecData) (copy_len end_lsn xlog_len : Z) : list Z :=
  le_encode 8 end_lsn ++ le_encode 4 xlog_len ++ meta_part main record copy_len.

Definition record_ok (main : main_rdata) (record : list XLogRecData) (copy_len : Z) : Prop :=
  match record with
  | [] => False
  | first :: _ => Forall node_ok record /\ extra_ok main (extra_of main (rd_data first)) /\
      0 <= copy_len - polar_reserve_data_size main (rd_data first) <= Z.of_nat (length (chain_bytes record)) /\ 0 < copy_len < 2 ^ 31
  end.

Lemma length_extra main x : extra_ok main x -> Z.of_nat (length (extra_bytes main x)) = extra_size main x.
Proof.
  destruct x as [|n|]; cbn [extra_ok extra_bytes extra_size length]; [done|..].
  - intros Hn. rewrite length_app, length_le_encode, length_take. unfold POLAR_MAIN_DATA_LEN. lia.
  - intros [_ M2 _]. rewrite length_app, length_le_encode. unfold polar_reserve_main_data_size, POLAR_MAIN_DATA_LEN. lia.
Qed.

Lemma length_meta main record copy_len end_lsn xlog_len :
  record_ok main record copy_len -> Z.of_nat (length (meta_body main record copy_len end_lsn xlog_len)) = copy_len + POLAR_XLOG_HEAD_SIZE.
Proof.
  destruct record as [|first record]; [done|]. intros (H1 & H2 & H3 & H4). unfold meta_body, meta_part. rewrite !length_app, !length_le_encode, length_take, !Nat2Z.inj_add.
  rewrite (length_extra _ _ H2), <- reserve_is_extra. unfold POLAR_XLOG_HEAD_SIZE. lia.
Qed.

Lemma extra_nonneg main x : extra_ok main x -> 0 <= extra_size main x.
Proof. intros H. rewrite <- (length_extra _ _ H). lia. Qed.

(** The record is put in the packet that was reserved for it. *)
Lemma send_push_spec main rb pkts (k : nat) p record copy_len end_lsn xlog_len :
  queue_wf rb pkts -> pkts !! k = Some p -> pk_ready p = false -> pk_sized p = true -> pk_len p = copy_len + POLAR_XLOG_HEAD_SIZE -> record_ok main record copy_len ->
  exists rb', polar_xlog_send_queue_push main rb (pk_idx p) record copy_len end_lsn xlog_len = Done rb' /\
    queue_wf rb' (<[k := mk_pkt (pk_idx p) (pk_len p) true (Z.lor POLAR_RINGBUF_PKT_WAL_META POLAR_RINGBUF_PKT_READY) (meta_body main record copy_len end_lsn xlog_len)]> pkts) /\
    rb_size rb' = rb_size rb /\ rb_min_visit rb' = rb_min_visit rb /\ rb_slot rb' = rb_slot rb /\ rb_occupied rb' = rb_occupied rb.
Proof.
  intros Hwf Hk Hnr Hz Hlen Hrec. pose proof (length_meta main record copy_len end_lsn xlog_len Hrec) as Hml.
  destruct record as [|first record]; [done|]. destruct Hrec as (R1 & R2 & R3 & R4). pose proof (lookup_lt_Some _ _ _ Hk) as Hkl.
  set (idx := pk_idx p) in *. set (ds := polar_reserve_data_size main (rd_data first)) in *. assert (ds = extra_size main (extra_of main (rd_data first))) as Eds by apply reserve_is_extra.
  pose proof (extra_nonneg _ _ R2) as Hds0. rewrite <- Eds in Hds0. unfold POLAR_XLOG_HEAD_SIZE in *.
  assert (filling rb pkts k idx (pk_len p) (pk_flag p) rb []) as HF0.
  { exists (pk_body p). split; [|split; [|by split_and!]].
    - replace (mk_pkt idx (pk_len p) true (pk_flag p) (pk_body p)) with p by (destruct p; cbn in *; by subst). by rewrite list_insert_id.
    - pose proof (qw_pkts _ _ Hwf k p Hk) as Hp. rewrite <- (pa_body _ _ _ _ Hp), length_ring_bytes. pose proof (pa_len _ _ _ _ Hp) as Hl. unfold is_u32 in Hl. lia. }
  assert (Z.land (pk_flag p) POLAR_RINGBUF_PKT_STATE_MASK <> POLAR_RINGBUF_PKT_READY) as Hfl by by apply Z.eqb_neq.
  unfold polar_xlog_send_queue_push. fold ds. pose proof (fill_pos _ _ _ _ _ _ Hkl _ _ HF0) as Hi. rewrite Z.geb_leb, (proj2 (Z.leb_gt _ _)) by lia.
  destruct (fill_write _ _ _ _ _ _ Hkl Hfl rb [] (le_encode 8 end_lsn) HF0) as (rb1 & E1 & HF1); [cbn; lia|rewrite length_le_encode; cbn; lia|]. cbn [length app] in E1, HF1.
  change (Z.of_nat 0) with 0 in E1. rewrite E1. destruct (fill_write _ _ _ _ _ _ Hkl Hfl rb1 _ (le_encode 4 xlog_len) HF1) as (rb2 & -> & HF2); [rewrite length_le_encode; lia|rewrite !length_le_encode; lia|].
  destruct (fill_record _ _ _ _ _ _ Hkl Hfl (first :: record) rb2 _ copy_len ds HF2 R1 R3) as (rb3 & E3 & HF3); [lia|rewrite length_app, !length_le_encode; lia|].
  rewrite length_app, Nat2Z.inj_add in E3. rewrite E3. cbn [obind]. rewrite push_is_extra. set (acc := (_ ++ _) ++ take _ _) in HF3.
  assert (Z.of_nat (length (le_encode 8 end_lsn)) + Z.of_nat (length (le_encode 4 xlog_len)) + (copy_len - ds) = Z.of_nat (length acc)) as Ea
    by (unfold acc; rewrite !length_app, length_take; lia).
  assert (Z.of_nat (length acc) + ds = pk_len p) as Ea' by (rewrite <- Ea, !length_le_encode; lia). rewrite Ea.
  assert (exists rb4, match extra_of main (rd_data first) with ExNone => Done (rb3, 0) | ExPrefix n => POLAR_WRITE_MAIN_DATA main rb3 n idx (Z.of_nat (length acc))
     | ExWhole => polar_push_main_data main rb3 idx (Z.of_nat (length acc)) end = Done (rb4, ds) /\
     filling rb pkts k idx (pk_len p) (pk_flag p) rb4 (acc ++ extra_bytes main (extra_of main (rd_data first)))) as (rb4 & -> & HF4).
  { destruct (extra_of main (rd_data first)) as [|n|]; cbn [extra_size extra_ok extra_bytes] in *.
    - exists rb3. rewrite app_nil_r, Eds. done.
    - rewrite Eds. apply (fill_prefix _ _ _ _ _ _ Hkl Hfl); [done|done|lia].
    - rewrite Eds. apply (fill_whole _ _ _ _ _ _ Hkl Hfl); [done|done|lia]. }
  cbn [obind]. rewrite Z.sub_diag. cbn [negb Z.eqb]. eexists. split; [reflexivity|]. destruct HF4 as (body & Hw4 & Hbl & Hbody & T1 & T2 & T3 & T4).
  assert (body = meta_body main (first :: record) copy_len end_lsn xlog_len) as ->.
  { unfold acc in Hbody. rewrite <- !app_assoc in Hbody. unfold meta_body, meta_part in *. fold ds in Hml |- *. rewrite <- Hbody at 1. rewrite Hbody.
    symmetry. rewrite <- Hbody. apply take_ge. lia. }
  pose proof (wf_set_pkt_flag _ _ Hw4 k _ (Z.lor POLAR_RINGBUF_PKT_WAL_META POLAR_RINGBUF_PKT_READY) (list_lookup_insert_eq _ _ _ Hkl) eq_refl) as Hw5.
  rewrite list_insert_insert_eq in Hw5. by split_and!.
Qed.
End queue_push.
