(* ===== verification/QueueDecode.v ===== *)
(** * Decoding WAL meta data from the queue (access/logindex/polar_queue_manager.c)

    A record that was put in the queue without payload is decoded to its
    block references and, from the extra block, to its main data.  For heap
    records that clear visibility bits the blocks of the visibility map are
    added.

    [polar_xlog_queue_decode] reads from [readRecordBuf], of which the first
    [readLen] bytes are the record; behind them is what an earlier record
    left. *)

From S2P Require Import Prelude BitPos RingBuf RingBytes RingQueue RingSteps QueuePush.

Definition XLR_MAX_BLOCK_ID : Z := 32.
Definition XLR_BLOCK_ID_DATA_SHORT : Z := 255.
Definition XLR_BLOCK_ID_DATA_LONG : Z := 254.
Definition XLR_BLOCK_ID_ORIGIN : Z := 253.
Definition BKPBLOCK_FORK_MASK : Z := 0x0F.
Definition BKPBLOCK_HAS_IMAGE : Z := 0x10.
Definition BKPBLOCK_HAS_DATA : Z := 0x20.
Definition BKPBLOCK_SAME_REL : Z := 0x80.
Definition BKPIMAGE_HAS_HOLE : Z := 0x01.
Definition BKPIMAGE_APPLY : Z := 0x02.
Definition BLCKSZ : Z := 8192.
Definition VISIBILITYMAP_FORKNUM : Z := 2.
Definition HEAPBLOCKS_PER_PAGE : Z := (BLCKSZ - 24) * 4.
Definition HEAPBLK_TO_MAPBLOCK (x : Z) : Z := x / HEAPBLOCKS_PER_PAGE.
Definition XLH_INSERT_ALL_VISIBLE_CLEARED : Z := 0x01.
Definition XLH_UPDATE_OLD_ALL_VISIBLE_CLEARED : Z := 0x01.
Definition XLH_UPDATE_NEW_ALL_VISIBLE_CLEARED : Z := 0x02.
Definition XLH_DELETE_ALL_VISIBLE_CLEARED : Z := 0x01.
Definition XLH_LOCK_ALL_FROZEN_CLEARED : Z := 0x01.

Record RelFileNode := mk_rnode { spcNode : Z; dbNode : Z; relNode : Z }.

Record DecodedBkpBlock := mk_blk {
  bk_in_use : bool;
  bk_rnode : RelFileNode;
  bk_forknum : Z;
  bk_blkno : Z;
  bk_flags : Z;
  bk_has_image : bool;
  bk_apply_image : bool;
  bk_hole_offset : Z;
  bk_hole_length : Z;
  bk_bimg_len : Z;
  bk_bimg_info : Z;
  bk_has_data : bool;
  bk_data_len : Z
}.
Definition unused_blk : DecodedBkpBlock := mk_blk false (mk_rnode 0 0 0) 0 0 0 false false 0 0 0 0 false 0.

(** What decoding changes of an [XLogReaderState]; a main data pointer that
    is null is the empty list. *)
Record decoder := mk_decoder {
  dc_decoded_record : bool;
  dc_main_data : list Z;
  dc_main_data_len : Z;
  dc_blocks : list DecodedBkpBlock;
  dc_max_block_id : Z
}.
Definition new_decoder : decoder := mk_decoder false [] 0 (replicate 33 unused_blk) (-1).

Definition dc_block (d : decoder) (i : Z) : DecodedBkpBlock := aget unused_blk (dc_blocks d) i.
Definition dc_set_block (d : decoder) (i : Z) (b : DecodedBkpBlock) : decoder :=
  mk_decoder (dc_decoded_record d) (dc_main_data d) (dc_main_data_len d) (aset (dc_blocks d) i b) (dc_max_block_id d).
Definition dc_set_max (d : decoder) (i : Z) : decoder := mk_decoder (dc_decoded_record d) (dc_main_data d) (dc_main_data_len d) (dc_blocks d) i.
Definition dc_set_main (d : decoder) (data : list Z) (len : Z) : decoder := mk_decoder (dc_decoded_record d) data len (dc_blocks d) (dc_max_block_id d).
Definition dc_set_record (d : decoder) : decoder := mk_decoder true (dc_main_data d) (dc_main_data_len d) (dc_blocks d) (dc_max_block_id d).

Definition polar_reset_blk (b : DecodedBkpBlock) : DecodedBkpBlock :=
  mk_blk false (bk_rnode b) (bk_forknum b) (bk_blkno b) (bk_flags b) false false (bk_hole_offset b) (bk_hole_length b) (bk_bimg_len b) (bk_bimg_info b) false (bk_data_len b).

Definition polar_reset_decoder (d : decoder) : decoder :=
  mk_decoder false (dc_main_data d) 0
    (foldl (fun bs i => aset bs i (polar_reset_blk (aget unused_blk bs i))) (dc_blocks d) (seqZ 0 (dc_max_block_id d + 1))) (-1).

(** ** Blocks of the visibility map *)

Definition polar_heap_save_vm_block (d : decoder) (block_id vm_block_id : Z) : decoder :=
  let blk := dc_block d block_id in
  let vm := polar_reset_blk (dc_block d vm_block_id) in
  let vm := mk_blk true (bk_rnode blk) VISIBILITYMAP_FORKNUM (HEAPBLK_TO_MAPBLOCK (bk_blkno blk)) (bk_flags vm) (bk_has_image vm) (bk_apply_image vm)
              (bk_hole_offset vm) (bk_hole_length vm) (bk_bimg_len vm) (bk_bimg_info vm) (bk_has_data vm) (bk_data_len vm) in
  let d := dc_set_block d vm_block_id vm in
  dc_set_max d (Z.max (dc_max_block_id d) vm_block_id).

(** Byte [i] of the main data has all bits of [flag]; reading outside it is
    undefined. *)
Definition main_flag (d : decoder) (i flag : Z) : outcome bool :=
  if Z.of_nat (length (dc_main_data d)) <=? i then Fault UNDEFINED else Done (negb (Z.land (aget 0 (dc_main_data d) i) flag =? 0)).

Definition polar_heap_update_save_vm_logindex (d : decoder) (hotupdate : bool) : outcome decoder :=
  let blkno_new := bk_blkno (dc_block d 0) in
  let blkno_old := if bk_in_use (dc_block d 1) then bk_blkno (dc_block d 1) else blkno_new in
  let! old_cleared := main_flag d 7 XLH_UPDATE_OLD_ALL_VISIBLE_CLEARED in
  let! new_cleared := main_flag d 7 XLH_UPDATE_NEW_ALL_VISIBLE_CLEARED in
  if negb (blkno_new =? blkno_old) then
    let d := if old_cleared then polar_heap_save_vm_block d 1 3 else d in
    Done (if new_cleared then polar_heap_save_vm_block d 0 2 else d)
  else Done (if old_cleared then polar_heap_save_vm_block d 0 2 else d).

Definition save_vm_if (d : decoder) (i flag : Z) : outcome decoder :=
  let! cleared := main_flag d i flag in Done (if cleared then polar_heap_save_vm_block d 0 1 else d).

Definition polar_xlog_queue_decode_heap (d : decoder) (rechdr : list Z) : outcome decoder :=
  let op := Z.land (rmgr_info rechdr) XLOG_HEAP_OPMASK in
  if op =? XLOG_HEAP_INSERT then save_vm_if d 2 XLH_INSERT_ALL_VISIBLE_CLEARED
  else if op =? XLOG_HEAP_DELETE then save_vm_if d 7 XLH_DELETE_ALL_VISIBLE_CLEARED
  else if op =? XLOG_HEAP_UPDATE then polar_heap_update_save_vm_logindex d false
  else if op =? XLOG_HEAP_HOT_UPDATE then polar_heap_update_save_vm_logindex d true
  else if op =? XLOG_HEAP_LOCK then save_vm_if d 7 XLH_LOCK_ALL_FROZEN_CLEARED
  else Done d.

Definition polar_xlog_queue_decode_heap2 (d : decoder) (rechdr : list Z) : outcome decoder :=
  let op := Z.land (rmgr_info rechdr) XLOG_HEAP_OPMASK in
  if op =? XLOG_HEAP2_MULTI_INSERT then save_vm_if d 0 XLH_INSERT_ALL_VISIBLE_CLEARED
  else if op =? XLOG_HEAP2_LOCK_UPDATED then save_vm_if d 7 XLH_LOCK_ALL_FROZEN_CLEARED
  else Done d.

Definition polar_xlog_decode_data (d : decoder) (rechdr : list Z) : outcome decoder :=
  if xl_rmid rechdr =? RM_HEAP_ID then polar_xlog_queue_decode_heap d rechdr
  else if xl_rmid rechdr =? RM_HEAP2_ID then polar_xlog_queue_decode_heap2 d rechdr
  else Done d.

(** ** Decoding *)

Section decode.
Context (BKPIMAGE_IS_COMPRESSED : Z) (ptr : list Z) (readLen : Z).

(** [size] bytes and the next offset; the comparison is unsigned. *)
Definition COPY_CONTENT (offset size : Z) : outcome (list Z * Z) :=
  if u64 (readLen - offset) <? size then Fault PANIC else Done (mem_read ptr offset size, offset + size).
Definition copy_int (offset size : Z) : outcome (Z * Z) := let! (bytes, offset) := COPY_CONTENT offset size in Done (le_decode bytes, offset).

(** The image of a block: the block, the next offset, and whether the fields
    agree. *)
Definition decode_image (blk : DecodedBkpBlock) (offset : Z) : outcome (DecodedBkpBlock * Z * bool) :=
  let! (bimg_len, offset) := copy_int offset 2 in
  let! (hole_offset, offset) := copy_int offset 2 in
  let! (bimg_info, offset) := copy_int offset 1 in
  let apply_image := negb (Z.land bimg_info BKPIMAGE_APPLY =? 0) in
  let compressed := negb (Z.land bimg_info BKPIMAGE_IS_COMPRESSED =? 0) in
  let has_hole := negb (Z.land bimg_info BKPIMAGE_HAS_HOLE =? 0) in
  let! (hole_length, offset) :=
    (if compressed then if has_hole then copy_int offset 2 else Done (0, offset) else Done (u16 (BLCKSZ - bimg_len), offset)) in
  let blk := mk_blk (bk_in_use blk) (bk_rnode blk) (bk_forknum blk) (bk_blkno blk) (bk_flags blk) (bk_has_image blk) apply_image hole_offset hole_length bimg_len bimg_info
               (bk_has_data blk) (bk_data_len blk) in
  let bad := (has_hole && ((hole_offset =? 0) || (hole_length =? 0) || (bimg_len =? BLCKSZ)))
             || (negb has_hole && (negb (hole_offset =? 0) || negb (hole_length =? 0)))
             || (compressed && (bimg_len =? BLCKSZ))
             || (negb has_hole && negb compressed && negb (bimg_len =? BLCKSZ)) in
  Done (blk, offset, negb bad).

Inductive decode_step :=
| DecNext (d : decoder) (rel0 : option RelFileNode) (offset : Z)
| DecInvalid (d : decoder).

(** A block reference, after its number was read. *)
Definition decode_block (d : decoder) (rel0 : option RelFileNode) (block_id offset : Z) : outcome decode_step :=
  if block_id <=? dc_max_block_id d then Done (DecInvalid d)
  else if block_id >? XLR_MAX_BLOCK_ID then Fault UNDEFINED
  else
    let d := dc_set_max d block_id in
    let blk := dc_block d block_id in
    let! (flags, offset) := copy_int offset 1 in
    let forknum := Z.land flags BKPBLOCK_FORK_MASK in
    let has_image := negb (Z.land flags BKPBLOCK_HAS_IMAGE =? 0) in
    let has_data := negb (Z.land flags BKPBLOCK_HAS_DATA =? 0) in
    let! (data_len, offset) := copy_int offset 2 in
    let blk := mk_blk true (bk_rnode blk) forknum (bk_blkno blk) flags has_image false (bk_hole_offset blk) (bk_hole_length blk) (bk_bimg_len blk) (bk_bimg_info blk)
                 has_data data_len in
    if has_data && (data_len =? 0) then Done (DecInvalid (dc_set_block d block_id blk))
    else if negb has_data && negb (data_len =? 0) then Done (DecInvalid (dc_set_block d block_id blk))
    else
      let! (blk, offset, ok) := (if has_image then decode_image blk offset else Done (blk, offset, true)) in
      if negb ok then Done (DecInvalid (dc_set_block d block_id blk))
      else
        let set_rel rel blkno := mk_blk (bk_in_use blk) rel (bk_forknum blk) blkno (bk_flags blk) (bk_has_image blk) (bk_apply_image blk) (bk_hole_offset blk) (bk_hole_length blk)
                                   (bk_bimg_len blk) (bk_bimg_info blk) (bk_has_data blk) (bk_data_len blk) in
        if Z.land flags BKPBLOCK_SAME_REL =? 0 then
          let! (bytes, offset) := COPY_CONTENT offset 12 in
          let rel := mk_rnode (le_decode (mem_read bytes 0 4)) (le_decode (mem_read bytes 4 4)) (le_decode (mem_read bytes 8 4)) in
          let! (blkno, offset) := copy_int offset 4 in
          Done (DecNext (dc_set_block d block_id (set_rel rel blkno)) (Some rel) offset)
        else match rel0 with
        | None => Done (DecInvalid (dc_set_block d block_id blk))
        | Some rel =>
          let! (blkno, offset) := copy_int offset 4 in
          Done (DecNext (dc_set_block d block_id (set_rel rel blkno)) (Some rel) offset)
        end.

(** The extra block; the copy of the main data is not bounded by
    [readLen]. *)
Definition decode_extra (d : decoder) (rel0 : option RelFileNode) (offset : Z) : outcome decode_step :=
  let! (data_len, offset) := copy_int offset 4 in
  if data_len >? 0 then
    if Z.of_nat (length ptr) <? offset + data_len then Fault UNDEFINED
    else Done (DecNext (dc_set_main d (mem_read ptr offset data_len) data_len) rel0 (offset + data_len))
  else Done (DecNext (dc_set_main d (dc_main_data d) 0) rel0 offset).

(** The loop; whether the record is valid. *)
Fixpoint decode_loop (fuel : nat) (d : decoder) (rel0 : option RelFileNode) (offset : Z) : outcome (decoder * bool) :=
  if negb (offset <? readLen) then Done (d, true)
  else match fuel with
  | O => Fault OUT_OF_FUEL
  | S fuel =>
    let! (block_id, offset) := copy_int offset 1 in
    let! step :=
      (if block_id =? XLR_BLOCK_ID_DATA_SHORT then let! (_, offset) := copy_int offset 1 in Done (DecNext d rel0 offset)
       else if block_id =? XLR_BLOCK_ID_DATA_LONG then let! (_, offset) := copy_int offset 4 in Done (DecNext d rel0 offset)
       else if block_id =? XLR_BLOCK_ID_ORIGIN then let! (_, offset) := copy_int offset 2 in Done (DecNext d rel0 offset)
       else if block_id =? XLR_BLOCK_ID_POLAR_EXTRA then decode_extra d rel0 offset
       else decode_block d rel0 block_id offset) in
    match step with
    | DecNext d rel0 offset => decode_loop fuel d rel0 offset
    | DecInvalid d => Done (d, false)
    end
  end.

(** [DecodeXLogRecord] decodes a whole record. *)
Definition polar_xlog_queue_decode (DecodeXLogRecord : decoder -> list Z -> outcome (decoder * bool)) (d : decoder) (decode_payload : bool) : outcome (decoder * bool) :=
  let d := polar_reset_decoder d in
  if polar_xlog_remove_payload ptr then
    let! (d, ok) := decode_loop (Z.to_nat readLen) (dc_set_record d) None SizeOfXLogRecord in
    if ok then let! d := polar_xlog_decode_data d ptr in Done (d, true) else Done (d, false)
  else if decode_payload then DecodeXLogRecord d (take (Z.to_nat readLen) ptr)
  else Done (d, true).
End decode.

(** ** The format of a record without payload

    [encode_ref] is the header of a block reference as it stands in a WAL
    record. *)

Record block_image := mk_image { bi_len : Z; bi_hole_offset : Z; bi_hole_length : Z; bi_info : Z }.
Record block_ref := mk_bref { br_id : Z; br_flags : Z; br_data_len : Z; br_image : block_image; br_rel : RelFileNode; br_blkno : Z }.

Definition flag_set (x flag : Z) : bool := negb (Z.land x flag =? 0).
Definition is_u16 (z : Z) : Prop := 0 <= z < 2 ^ 16.

Section format.
Context (BKPIMAGE_IS_COMPRESSED : Z).

Definition encode_image (i : block_image) : list Z :=
  le_encode 2 (bi_len i) ++ le_encode 2 (bi_hole_offset i) ++ le_encode 1 (bi_info i) ++
  (if flag_set (bi_info i) BKPIMAGE_IS_COMPRESSED && flag_set (bi_info i) BKPIMAGE_HAS_HOLE then le_encode 2 (bi_hole_length i) else []).
Definition encode_rel (r : RelFileNode) : list Z := le_encode 4 (spcNode r) ++ le_encode 4 (dbNode r) ++ le_encode 4 (relNode r).

(** What follows the number of a reference. *)
Definition encode_ref_body (r : block_ref) : list Z :=
  le_encode 1 (br_flags r) ++ le_encode 2 (br_data_len r) ++
  (if flag_set (br_flags r) BKPBLOCK_HAS_IMAGE then encode_image (br_image r) else []) ++
  (if flag_set (br_flags r) BKPBLOCK_SAME_REL then [] else encode_rel (br_rel r)) ++ le_encode 4 (br_blkno r).
Definition encode_ref (r : block_ref) : list Z := le_encode 1 (br_id r) ++ encode_ref_body r.

(** An image has a hole, or is compressed, or is a whole page. *)
Record image_ok (i : block_image) : Prop := {
  io_range : 0 <= bi_len i <= BLCKSZ /\ is_u16 (bi_hole_offset i) /\ is_u16 (bi_hole_length i) /\ is_u8 (bi_info i);
  io_hole : if flag_set (bi_info i) BKPIMAGE_HAS_HOLE then bi_hole_offset i <> 0 /\ bi_hole_length i <> 0 /\ bi_len i <> BLCKSZ
            else bi_hole_offset i = 0 /\ bi_hole_length i = 0;
  io_len : if flag_set (bi_info i) BKPIMAGE_IS_COMPRESSED then bi_len i <> BLCKSZ else bi_hole_length i = BLCKSZ - bi_len i
}.

Record ref_ok (r : block_ref) : Prop := {
  rf_id : 0 <= br_id r <= XLR_MAX_BLOCK_ID;
  rf_flags : is_u8 (br_flags r);
  rf_data : is_u16 (br_data_len r) /\ flag_set (br_flags r) BKPBLOCK_HAS_DATA = negb (br_data_len r =? 0);
  rf_image : flag_set (br_flags r) BKPBLOCK_HAS_IMAGE = true -> image_ok (br_image r);
  rf_rel : is_u32 (spcNode (br_rel r)) /\ is_u32 (dbNode (br_rel r)) /\ is_u32 (relNode (br_rel r)) /\ is_u32 (br_blkno r)
}.

(** The references of a record: numbers ascend, and [SAME_REL] is said only
    of the relation before. *)
Fixpoint refs_ok (max_id : Z) (rel0 : option RelFileNode) (refs : list block_ref) : Prop :=
  match refs with
  | [] => True
  | r :: refs => ref_ok r /\ max_id < br_id r /\ (flag_set (br_flags r) BKPBLOCK_SAME_REL = true -> rel0 = Some (br_rel r)) /\ refs_ok (br_id r) (Some (br_rel r)) refs
  end.

(** What a reference is decoded to, in a block that had [old]. *)
Definition decoded_ref (old : DecodedBkpBlock) (r : block_ref) : DecodedBkpBlock :=
  let img := flag_set (br_flags r) BKPBLOCK_HAS_IMAGE in
  let i := br_image r in
  mk_blk true (br_rel r) (Z.land (br_flags r) BKPBLOCK_FORK_MASK) (br_blkno r) (br_flags r) img (img && flag_set (bi_info i) BKPIMAGE_APPLY)
    (if img then bi_hole_offset i else bk_hole_offset old) (if img then bi_hole_length i else bk_hole_length old) (if img then bi_len i else bk_bimg_len old)
    (if img then bi_info i else bk_bimg_info old) (flag_set (br_flags r) BKPBLOCK_HAS_DATA) (br_data_len r).

Definition put_ref (d : decoder) (r : block_ref) : decoder := dc_set_block (dc_set_max d (br_id r)) (br_id r) (decoded_ref (dc_block d (br_id r)) r).
Definition put_refs (d : decoder) (refs : list block_ref) : decoder := foldl put_ref d refs.

(** ** Reading it *)

Section reading_format.
Context (ptr : list Z) (readLen : Z) (Hlen : readLen < 2 ^ 62).

(** The bytes from [offset] to the end of the record are [l]. *)
Definition remaining (offset : Z) (l : list Z) : Prop := 0 <= offset /\ offset + Z.of_nat (length l) = readLen /\ exists post, drop (Z.to_nat offset) ptr = l ++ post.

Lemma copy_ok offset b l : remaining offset (b ++ l) ->
  COPY_CONTENT ptr readLen offset (Z.of_nat (length b)) = Done (b, offset + Z.of_nat (length b)) /\ remaining (offset + Z.of_nat (length b)) l.
Proof.
  intros (H0 & H1 & post & H2). rewrite length_app in H1. unfold COPY_CONTENT. rewrite u64_small by (unfold is_u64; lia).
  rewrite (proj2 (Z.ltb_ge _ _)) by lia. split.
  - do 2 f_equal. unfold mem_read. rewrite H2, Nat2Z.id, <- app_assoc. apply take_app_length.
  - split; [lia|]. split; [lia|]. exists post. rewrite Z2Nat.inj_add, Nat2Z.id by lia. rewrite <- drop_drop, H2, <- app_assoc. apply drop_app_length.
Qed.

Lemma copy_int_ok (n : nat) v offset l : remaining offset (le_encode n v ++ l) -> 0 <= v < 256 ^ Z.of_nat n ->
  copy_int ptr readLen offset (Z.of_nat n) = Done (v, offset + Z.of_nat n) /\ remaining (offset + Z.of_nat n) l.
Proof.
  intros H Hv. destruct (copy_ok _ _ _ H) as [E R]. rewrite length_le_encode in E, R. unfold copy_int. rewrite E. cbn [obind]. split; [|done].
  rewrite le_decode_encode. by rewrite Z.mod_small.
Qed.

Lemma decode_image_ok i blk offset l : remaining offset (encode_image i ++ l) -> image_ok i ->
  exists offset', decode_image BKPIMAGE_IS_COMPRESSED ptr readLen blk offset =
    Done (mk_blk (bk_in_use blk) (bk_rnode blk) (bk_forknum blk) (bk_blkno blk) (bk_flags blk) (bk_has_image blk) (flag_set (bi_info i) BKPIMAGE_APPLY) (bi_hole_offset i)
            (bi_hole_length i) (bi_len i) (bi_info i) (bk_has_data blk) (bk_data_len blk), offset', true) /\ remaining offset' l.
Proof.
  intros R [(G1 & G2 & G3 & G4) G5 G6]. unfold is_u16, is_u8, BLCKSZ in *. unfold encode_image in R. rewrite <- !app_assoc in R. unfold decode_image.
  destruct (copy_int_ok 2 _ _ _ R) as [E1 R1]; [cbn; lia|]. change (Z.of_nat 2) with 2 in E1, R1. rewrite E1. cbn [obind].
  destruct (copy_int_ok 2 _ _ _ R1) as [E2 R2]; [cbn; lia|]. change (Z.of_nat 2) with 2 in E2, R2. rewrite E2. cbn [obind].
  destruct (copy_int_ok 1 _ _ _ R2) as [E3 R3]; [cbn; lia|]. change (Z.of_nat 1) with 1 in E3, R3. rewrite E3. cbn [obind].
  change (negb (Z.land (bi_info i) BKPIMAGE_IS_COMPRESSED =? 0)) with (flag_set (bi_info i) BKPIMAGE_IS_COMPRESSED).
  change (negb (Z.land (bi_info i) BKPIMAGE_HAS_HOLE =? 0)) with (flag_set (bi_info i) BKPIMAGE_HAS_HOLE).
  change (negb (Z.land (bi_info i) BKPIMAGE_APPLY =? 0)) with (flag_set (bi_info i) BKPIMAGE_APPLY).
  destruct (flag_set (bi_info i) BKPIMAGE_IS_COMPRESSED), (flag_set (bi_info i) BKPIMAGE_HAS_HOLE); cbn [andb orb negb] in *.
  - destruct (copy_int_ok 2 _ _ _ R3) as [E4 R4]; [cbn; lia|]. change (Z.of_nat 2) with 2 in E4, R4. rewrite E4. cbn [obind]. eexists. split; [|exact R4].
    unfold BLCKSZ. rewrite !(proj2 (Z.eqb_neq _ _)) by lia. done.
  - cbn [obind]. destruct G5 as [Eo El]. rewrite El, Eo. eexists. split; [|exact R3]. unfold BLCKSZ. rewrite (proj2 (Z.eqb_neq (bi_len i) 8192)) by lia. done.
  - cbn [obind]. assert (u16 (BLCKSZ - bi_len i) = bi_hole_length i) as -> by (unfold BLCKSZ; rewrite <- G6; apply wrap_small; lia). eexists. split; [|exact R3].
    unfold BLCKSZ. rewrite !(proj2 (Z.eqb_neq _ _)) by lia. done.
  - cbn [obind]. destruct G5 as [Eo El]. assert (bi_len i = 8192) as E8 by lia. rewrite E8, El, Eo. eexists. split; [|exact R3]. done.
Qed.

Lemma decode_rel_ok r offset l : remaining offset (encode_rel r ++ l) -> is_u32 (spcNode r) -> is_u32 (dbNode r) -> is_u32 (relNode r) ->
  exists bytes, COPY_CONTENT ptr readLen offset 12 = Done (bytes, offset + 12) /\ remaining (offset + 12) l /\
    mk_rnode (le_decode (mem_read bytes 0 4)) (le_decode (mem_read bytes 4 4)) (le_decode (mem_read bytes 8 4)) = r.
Proof.
  intros R H1 H2 H3. destruct (copy_ok _ _ _ R) as [E R']. assert (length (encode_rel r) = 12%nat) as El by (unfold encode_rel; rewrite !length_app, !length_le_encode; done).
  rewrite El in E, R'. change (Z.of_nat 12) with 12 in E, R'. exists (encode_rel r). split; [done|]. split; [done|].
  unfold mem_read, encode_rel. change (Z.to_nat 0) with 0%nat. change (Z.to_nat 4) with 4%nat. change (Z.to_nat 8) with 8%nat.
  rewrite drop_0, (drop_app_length' (le_encode 4 (spcNode r))) by (by rewrite length_le_encode).
  replace 8%nat with (4 + 4)%nat at 1 by done. rewrite <- (drop_drop _ 4 4), (drop_app_length' (le_encode 4 (spcNode r))), (drop_app_length' (le_encode 4 (dbNode r))) by (by rewrite length_le_encode).
  rewrite !take_app_length' by (by rewrite length_le_encode). rewrite take_ge by (rewrite length_le_encode; lia). rewrite !le_decode_encode4 by done. by destruct r.
Qed.

Lemma decode_block_ok d rel0 r offset l :
  remaining offset (encode_ref_body r ++ l) -> ref_ok r -> dc_max_block_id d < br_id r -> (flag_set (br_flags r) BKPBLOCK_SAME_REL = true -> rel0 = Some (br_rel r)) ->
  exists offset', decode_block BKPIMAGE_IS_COMPRESSED ptr readLen d rel0 (br_id r) offset = Done (DecNext (put_ref d r) (Some (br_rel r)) offset') /\ remaining offset' l.
Proof.
  intros R [F1 F2 [F3 F3'] F4 (F5 & F6 & F7 & F8)] Hmax Hsame. unfold decode_block. rewrite (proj2 (Z.leb_gt _ _)) by lia. unfold XLR_MAX_BLOCK_ID in *.
  rewrite Z.gtb_ltb, (proj2 (Z.ltb_ge _ _)) by lia. unfold encode_ref_body in R. rewrite <- !app_assoc in R. unfold is_u16, is_u8, is_u32 in *.
  destruct (copy_int_ok 1 _ _ _ R) as [E1 R1]; [cbn; lia|]. change (Z.of_nat 1) with 1 in E1, R1. rewrite E1. cbn [obind].
  destruct (copy_int_ok 2 _ _ _ R1) as [E2 R2]; [cbn; lia|]. change (Z.of_nat 2) with 2 in E2, R2. rewrite E2. cbn [obind].
  change (negb (Z.land (br_flags r) BKPBLOCK_HAS_IMAGE =? 0)) with (flag_set (br_flags r) BKPBLOCK_HAS_IMAGE).
  change (negb (Z.land (br_flags r) BKPBLOCK_HAS_DATA =? 0)) with (flag_set (br_flags r) BKPBLOCK_HAS_DATA). rewrite F3'.
  assert (negb (br_data_len r =? 0) && (br_data_len r =? 0) = false) as -> by by destruct (br_data_len r =? 0).
  assert (negb (negb (br_data_len r =? 0)) && negb (br_data_len r =? 0) = false) as -> by by destruct (br_data_len r =? 0).
  change (dc_block (dc_set_max d (br_id r)) (br_id r)) with (dc_block d (br_id r)). set (blk1 := mk_blk true _ _ _ _ _ _ _ _ _ _ _ _).
  assert (exists offset3, (if flag_set (br_flags r) BKPBLOCK_HAS_IMAGE then decode_image BKPIMAGE_IS_COMPRESSED ptr readLen blk1 (offset + 1 + 2) else Done (blk1, offset + 1 + 2, true)) =
    Done (mk_blk true (bk_rnode blk1) (bk_forknum blk1) (bk_blkno blk1) (br_flags r) (bk_has_image blk1) (bk_apply_image (decoded_ref (dc_block d (br_id r)) r))
      (bk_hole_offset (decoded_ref (dc_block d (br_id r)) r)) (bk_hole_length (decoded_ref (dc_block d (br_id r)) r)) (bk_bimg_len (decoded_ref (dc_block d (br_id r)) r))
      (bk_bimg_info (decoded_ref (dc_block d (br_id r)) r)) (bk_has_data blk1) (br_data_len r), offset3, true) /\
    remaining offset3 ((if flag_set (br_flags r) BKPBLOCK_SAME_REL then [] else encode_rel (br_rel r)) ++ le_encode 4 (br_blkno r) ++ l)) as (offset3 & -> & R3).
  { unfold decoded_ref. cbn [bk_apply_image bk_hole_offset bk_hole_length bk_bimg_len bk_bimg_info]. destruct (flag_set (br_flags r) BKPBLOCK_HAS_IMAGE) eqn:Ei; cbn [andb].
    - destruct (decode_image_ok (br_image r) blk1 _ _ R2 (F4 eq_refl)) as (o & -> & R3). by exists o.
    - eexists. split; [reflexivity|exact R2]. }
  cbn [obind negb]. unfold put_ref. unfold flag_set in Hsame at 1. destruct (Z.land (br_flags r) BKPBLOCK_SAME_REL =? 0) eqn:Es.
  - assert (flag_set (br_flags r) BKPBLOCK_SAME_REL = false) as Ef by (unfold flag_set; by rewrite Es). rewrite Ef in R3.
    destruct (decode_rel_ok _ _ _ R3 F5 F6 F7) as (bytes & -> & R4 & Erel). cbn [obind]. rewrite Erel.
    destruct (copy_int_ok 4 _ _ _ R4) as [E5 R5]; [cbn; lia|]. change (Z.of_nat 4) with 4 in E5, R5. rewrite E5. cbn [obind]. eexists. split; [|exact R5].
    unfold decoded_ref. cbn. by rewrite F3'.
  - assert (flag_set (br_flags r) BKPBLOCK_SAME_REL = true) as Ef by (unfold flag_set; by rewrite Es). rewrite Ef in R3. cbn [app] in R3. rewrite (Hsame eq_refl).
    destruct (copy_int_ok 4 _ _ _ R3) as [E5 R5]; [cbn; lia|]. change (Z.of_nat 4) with 4 in E5, R5. rewrite E5. cbn [obind]. eexists. split; [|exact R5].
    unfold decoded_ref. cbn. by rewrite F3'.
Qed.

Lemma put_ref_max d r : dc_max_block_id (put_ref d r) = br_id r.
Proof. done. Qed.

(** The references are put in the decoder one after the other. *)
Lemma decode_refs_ok refs : forall fuel d rel0 offset l,
  remaining offset (mjoin (map encode_ref refs) ++ l) -> refs_ok (dc_max_block_id d) rel0 refs -> (length refs <= fuel)%nat ->
  exists offset' rel1, decode_loop BKPIMAGE_IS_COMPRESSED ptr readLen fuel d rel0 offset = decode_loop BKPIMAGE_IS_COMPRESSED ptr readLen (fuel - length refs) (put_refs d refs) rel1 offset' /\
    remaining offset' l.
Proof.
  induction refs as [|r refs IH]; intros fuel d rel0 offset l R HO Hf.
  { exists offset, rel0. rewrite Nat.sub_0_r. done. }
  destruct fuel as [|fuel]; [cbn in Hf; lia|]. cbn [refs_ok] in HO. destruct HO as (H1 & H2 & H3 & H4). cbn [map mjoin list_join] in R. unfold encode_ref in R at 1. rewrite <- !app_assoc in R.
  pose proof (rf_id _ H1) as Hid. unfold XLR_MAX_BLOCK_ID in Hid. assert (offset < readLen) as Hlt by (destruct R as (_ & Hr & _); rewrite !length_app, length_le_encode in Hr; lia).
  cbn [decode_loop]. rewrite (proj2 (Z.ltb_lt _ _)) by lia. cbn [negb]. destruct (copy_int_ok 1 _ _ _ R) as [E1 R1]; [cbn; lia|]. change (Z.of_nat 1) with 1 in E1, R1. rewrite E1. cbn [obind].
  unfold XLR_BLOCK_ID_DATA_SHORT, XLR_BLOCK_ID_DATA_LONG, XLR_BLOCK_ID_ORIGIN, XLR_BLOCK_ID_POLAR_EXTRA. rewrite !(proj2 (Z.eqb_neq _ _)) by lia.
  destruct (decode_block_ok d rel0 r _ _ R1 H1 H2 H3) as (o & -> & R2). cbn [obind].
  destruct (IH fuel (put_ref d r) (Some (br_rel r)) o l R2 H4 ltac:(cbn in Hf; lia)) as (o' & rel1 & -> & R3). exists o', rel1. done.
Qed.

(** ** The end of the headers *)

(** The origin and the length of the main data, which is left out. *)
Inductive data_header := NoData | ShortData (n : Z) | LongData (n : Z).
Definition encode_origin (o : option Z) : list Z := match o with Some id => le_encode 1 XLR_BLOCK_ID_ORIGIN ++ le_encode 2 id | None => [] end.
Definition encode_header (h : data_header) : list Z :=
  match h with NoData => [] | ShortData n => le_encode 1 XLR_BLOCK_ID_DATA_SHORT ++ le_encode 1 n | LongData n => le_encode 1 XLR_BLOCK_ID_DATA_LONG ++ le_encode 4 n end.
Definition encode_tail (o : option Z) (h : data_header) : list Z := encode_origin o ++ encode_header h.

(** A field that is skipped. *)
Lemma skip_field id (n : nat) v fuel d rel0 offset l :
  remaining offset (le_encode 1 id ++ le_encode n v ++ l) ->
  (id, Z.of_nat n) = (XLR_BLOCK_ID_DATA_SHORT, 1) \/ (id, Z.of_nat n) = (XLR_BLOCK_ID_DATA_LONG, 4) \/ (id, Z.of_nat n) = (XLR_BLOCK_ID_ORIGIN, 2) ->
  exists offset', decode_loop BKPIMAGE_IS_COMPRESSED ptr readLen (S fuel) d rel0 offset = decode_loop BKPIMAGE_IS_COMPRESSED ptr readLen fuel d rel0 offset' /\ remaining offset' l.
Proof.
  intros R Hid. assert (offset < readLen) as Hlt by (destruct R as (_ & Hr & _); rewrite !length_app, length_le_encode in Hr; lia).
  cbn [decode_loop]. rewrite (proj2 (Z.ltb_lt _ _)) by lia. cbn [negb].
  destruct (copy_int_ok 1 _ _ _ R) as [E1 R1]; [destruct Hid as [H|[H|H]]; injection H as -> _; unfold XLR_BLOCK_ID_DATA_SHORT, XLR_BLOCK_ID_DATA_LONG, XLR_BLOCK_ID_ORIGIN; cbn; lia|].
  change (Z.of_nat 1) with 1 in E1, R1. rewrite E1. cbn [obind]. destruct (copy_ok _ _ _ R1) as [E2 R2]. rewrite length_le_encode in E2, R2.
  exists (offset + 1 + Z.of_nat n). split; [|exact R2]. unfold copy_int. by destruct Hid as [H|[H|H]]; injection H as -> Hn; rewrite Hn in *; cbn [Z.eqb Pos.eqb]; rewrite E2.
Qed.

Lemma decode_tail_ok o h fuel d rel0 offset l : remaining offset (encode_tail o h ++ l) ->
  exists offset' (k : nat), decode_loop BKPIMAGE_IS_COMPRESSED ptr readLen (2 + fuel) d rel0 offset = decode_loop BKPIMAGE_IS_COMPRESSED ptr readLen (k + fuel) d rel0 offset' /\ remaining offset' l.
Proof.
  intros R. unfold encode_tail in R. rewrite <- app_assoc in R.
  assert (exists offset1 (k : nat), decode_loop BKPIMAGE_IS_COMPRESSED ptr readLen (2 + fuel) d rel0 offset = decode_loop BKPIMAGE_IS_COMPRESSED ptr readLen (1 + k + fuel) d rel0 offset1 /\
    remaining offset1 (encode_header h ++ l)) as (o1 & k1 & -> & R1).
  { destruct o as [id|]; cbn [encode_origin app] in R; [|by exists offset, 1%nat]. rewrite <- app_assoc in R.
    destruct (skip_field XLR_BLOCK_ID_ORIGIN 2 id (1 + fuel) d rel0 offset _ R) as (o1 & E & R1); [by right; right|]. exists o1, 0%nat. split; [exact E|exact R1]. }
  destruct h as [|n|n]; cbn [encode_header app] in R1; [by exists o1, (1 + k1)%nat|..]; rewrite <- app_assoc in R1.
  - destruct (skip_field XLR_BLOCK_ID_DATA_SHORT 1 n (k1 + fuel) d rel0 o1 _ R1) as (o2 & E & R2); [by left|]. by exists o2, k1.
  - destruct (skip_field XLR_BLOCK_ID_DATA_LONG 4 n (k1 + fuel) d rel0 o1 _ R1) as (o2 & E & R2); [by right; left|]. by exists o2, k1.
Qed.

Lemma decode_end fuel d rel0 offset : remaining offset [] -> decode_loop BKPIMAGE_IS_COMPRESSED ptr readLen fuel d rel0 offset = Done (d, true).
Proof. intros (_ & H & _). cbn in H. assert ((offset <? readLen) = false) as E by (apply Z.ltb_ge; lia). destruct fuel; cbn [decode_loop]; by rewrite E. Qed.

(** The extra block says [n] bytes, of which [b] are there. *)
Lemma decode_extra_ok fuel d rel0 offset n b : remaining offset (le_encode 1 XLR_BLOCK_ID_POLAR_EXTRA ++ le_encode 4 n ++ b) -> Z.of_nat (length b) <= n -> 0 < n < 2 ^ 32 ->
  decode_loop BKPIMAGE_IS_COMPRESSED ptr readLen (S fuel) d rel0 offset =
  if Z.of_nat (length ptr) <? readLen + (n - Z.of_nat (length b)) then Fault UNDEFINED
  else Done (dc_set_main d (b ++ mem_read ptr readLen (n - Z.of_nat (length b))) n, true).
Proof.
  intros R Hb Hn. assert (offset < readLen) as Hlt by (destruct R as (_ & Hr & _); rewrite !length_app, length_le_encode in Hr; lia).
  cbn [decode_loop]. rewrite (proj2 (Z.ltb_lt _ _)) by lia. cbn [negb]. destruct (copy_int_ok 1 _ _ _ R) as [E1 R1]; [unfold XLR_BLOCK_ID_POLAR_EXTRA; cbn; lia|].
  change (Z.of_nat 1) with 1 in E1, R1. rewrite E1. cbn [obind Z.eqb Pos.eqb]. unfold decode_extra.
  destruct (copy_int_ok 4 _ _ _ R1) as [E2 R2]; [cbn; lia|]. change (Z.of_nat 4) with 4 in E2, R2.
  change (XLR_BLOCK_ID_POLAR_EXTRA =? XLR_BLOCK_ID_DATA_SHORT) with false. change (XLR_BLOCK_ID_POLAR_EXTRA =? XLR_BLOCK_ID_DATA_LONG) with false.
  change (XLR_BLOCK_ID_POLAR_EXTRA =? XLR_BLOCK_ID_ORIGIN) with false. change (XLR_BLOCK_ID_POLAR_EXTRA =? XLR_BLOCK_ID_POLAR_EXTRA) with true. cbn iota. rewrite E2. cbn [obind].
  rewrite Z.gtb_ltb, (proj2 (Z.ltb_lt _ _)) by lia. destruct R2 as (Ho & Hr & post & Hd). replace (offset + 1 + 4 + n) with (readLen + (n - Z.of_nat (length b))) by lia.
  destruct (_ <? _); [done|]. cbn [obind]. set (o2 := offset + 1 + 4) in *.
  assert (mem_read ptr o2 n = b ++ mem_read ptr readLen (n - Z.of_nat (length b))) as ->.
  { unfold mem_read. rewrite <- Hr, Z2Nat.inj_add, Nat2Z.id by lia. rewrite <- (drop_drop ptr), Hd, drop_app_length, take_app.
    rewrite take_ge by lia. f_equal. f_equal. lia. }
  destruct fuel; cbn [decode_loop]; by rewrite (proj2 (Z.ltb_ge _ _)) by lia.
Qed.
End reading_format.

(** ** Whole records *)

Definition record_bytes (hdr : list Z) (refs : list block_ref) (o : option Z) (h : data_header) : list Z := hdr ++ mjoin (map encode_ref refs) ++ encode_tail o h.

(** An extra block that says [n] bytes and has [b]. *)
Definition extra_block (n : Z) (b : list Z) : list Z := le_encode 1 XLR_BLOCK_ID_POLAR_EXTRA ++ le_encode 4 n ++ b.

Lemma length_refs refs : (length refs <= length (mjoin (map encode_ref refs)))%nat.
Proof.
  induction refs as [|r refs IH]; [cbn; lia|]. change (mjoin (map encode_ref (r :: refs))) with (encode_ref r ++ mjoin (map encode_ref refs)).
  rewrite length_app. unfold encode_ref at 1. rewrite length_app, length_le_encode. cbn [length]. lia.
Qed.

Section whole.
Context (DecodeXLogRecord : decoder -> list Z -> outcome (decoder * bool)).
Context (hdr : list Z) (refs : list block_ref) (o : option Z) (h : data_header) (Hhdr : length hdr = 24%nat) (Hrefs : refs_ok (-1) None refs).

(** The headers are read, up to what follows them. *)
Lemma decode_headers ptr readLen d extra :
  readLen < 2 ^ 62 -> remaining ptr readLen 0 (record_bytes hdr refs o h ++ extra) -> polar_xlog_remove_payload ptr = true ->
  exists fuel rel0 offset, remaining ptr readLen offset extra /\
    forall payload, polar_xlog_queue_decode BKPIMAGE_IS_COMPRESSED ptr readLen DecodeXLogRecord d payload =
      let! (d, ok) := decode_loop BKPIMAGE_IS_COMPRESSED ptr readLen (S fuel) (put_refs (dc_set_record (polar_reset_decoder d)) refs) rel0 offset in
      if ok then let! d := polar_xlog_decode_data d ptr in Done (d, true) else Done (d, false).
Proof.
  intros Hlen R Hp. pose proof R as (_ & Hr & _). unfold record_bytes in *. rewrite !length_app, Hhdr in Hr. pose proof (length_refs refs) as Hlr. rewrite <- !app_assoc in R.
  assert (remaining ptr readLen SizeOfXLogRecord (mjoin (map encode_ref refs) ++ encode_tail o h ++ extra)) as R1.
  { destruct (copy_ok ptr readLen Hlen 0 hdr _ R) as [_ R1]. rewrite Hhdr in R1. exact R1. }
  set (d0 := dc_set_record (polar_reset_decoder d)). destruct (decode_refs_ok ptr readLen Hlen refs (Z.to_nat readLen) d0 None _ _ R1 Hrefs ltac:(lia)) as (o1 & rel1 & E1 & R2).
  replace (Z.to_nat readLen - length refs)%nat with (2 + S (Z.to_nat readLen - length refs - 3))%nat in E1 by lia.
  destruct (decode_tail_ok ptr readLen Hlen o h (S (Z.to_nat readLen - length refs - 3)) (put_refs d0 refs) rel1 o1 _ R2) as (o2 & k & E2 & R3).
  exists (k + (Z.to_nat readLen - length refs - 3))%nat, rel1, o2. split; [exact R3|]. intros payload. unfold polar_xlog_queue_decode. rewrite Hp. fold d0. rewrite E1, E2.
  by rewrite Nat.add_succ_r.
Qed.

Lemma decode_without_extra ptr readLen d payload :
  readLen < 2 ^ 62 -> remaining ptr readLen 0 (record_bytes hdr refs o h) -> polar_xlog_remove_payload ptr = true ->
  polar_xlog_queue_decode BKPIMAGE_IS_COMPRESSED ptr readLen DecodeXLogRecord d payload =
  let! d := polar_xlog_decode_data (put_refs (dc_set_record (polar_reset_decoder d)) refs) ptr in Done (d, true).
Proof.
  intros Hlen R Hp. rewrite <- (app_nil_r (record_bytes _ _ _ _)) in R. destruct (decode_headers ptr readLen d [] Hlen R Hp) as (fuel & rel0 & offset & R1 & ->).
  by rewrite (decode_end ptr readLen _ _ _ _ R1).
Qed.

Lemma decode_with_extra ptr readLen d payload n b :
  readLen < 2 ^ 62 -> remaining ptr readLen 0 (record_bytes hdr refs o h ++ extra_block n b) -> polar_xlog_remove_payload ptr = true -> Z.of_nat (length b) <= n -> 0 < n < 2 ^ 32 ->
  polar_xlog_queue_decode BKPIMAGE_IS_COMPRESSED ptr readLen DecodeXLogRecord d payload =
  if Z.of_nat (length ptr) <? readLen + (n - Z.of_nat (length b)) then Fault UNDEFINED
  else let! d := polar_xlog_decode_data (dc_set_main (put_refs (dc_set_record (polar_reset_decoder d)) refs) (b ++ mem_read ptr readLen (n - Z.of_nat (length b))) n) ptr in Done (d, true).
Proof.
  intros Hlen R Hp Hb Hn. destruct (decode_headers ptr readLen d _ Hlen R Hp) as (fuel & rel0 & offset & R1 & ->).
  rewrite (decode_extra_ok ptr readLen Hlen fuel _ rel0 offset n b R1 Hb Hn). by destruct (_ <? _).
Qed.
End whole.

(** ** The decoded blocks *)

Lemma refs_ok_above refs : forall max_id rel0 r, refs_ok max_id rel0 refs -> r ∈ refs -> max_id < br_id r <= XLR_MAX_BLOCK_ID.
Proof.
  induction refs as [|r0 refs IH]; intros max_id rel0 r HO Hr; [by apply elem_of_nil in Hr|]. cbn [refs_ok] in HO. destruct HO as (H1 & H2 & H3 & H4).
  apply elem_of_cons in Hr as [->|Hr]; [pose proof (rf_id _ H1); lia|]. specialize (IH _ _ _ H4 Hr). lia.
Qed.

Lemma put_refs_other refs : forall d i, (forall r, r ∈ refs -> br_id r <> i) -> dc_block (put_refs d refs) i = dc_block d i.
Proof.
  induction refs as [|r refs IH]; intros d i Hi; [done|]. cbn [put_refs foldl]. change (foldl put_ref (put_ref d r) refs) with (put_refs (put_ref d r) refs).
  rewrite IH by (intros r' Hr'; apply Hi; by right). unfold put_ref, dc_block, dc_set_block. cbn [dc_blocks]. rewrite aget_aset_ne; [done|]. apply Hi. by left.
Qed.

Lemma put_refs_block refs : forall d max_id rel0 r, length (dc_blocks d) = 33%nat -> -1 <= max_id -> refs_ok max_id rel0 refs -> r ∈ refs ->
  dc_block (put_refs d refs) (br_id r) = decoded_ref (dc_block d (br_id r)) r.
Proof.
  induction refs as [|r0 refs IH]; intros d max_id rel0 r Hl Hm HO Hr; [by apply elem_of_nil in Hr|]. cbn [refs_ok] in HO. destruct HO as (H1 & H2 & H3 & H4).
  pose proof (rf_id _ H1) as Hid. unfold XLR_MAX_BLOCK_ID in Hid. change (put_refs d (r0 :: refs)) with (put_refs (put_ref d r0) refs). apply elem_of_cons in Hr as [->|Hr].
  - rewrite put_refs_other; [|intros r' Hr'; pose proof (refs_ok_above _ _ _ _ H4 Hr'); lia]. unfold put_ref, dc_block at 1, dc_set_block. cbn [dc_blocks dc_set_max].
    apply aget_aset_eq. lia.
  - pose proof (refs_ok_above _ _ _ _ H4 Hr) as Ha. rewrite (IH _ (br_id r0) (Some (br_rel r0))); [|cbn; by rewrite length_aset|lia|done|done]. f_equal.
    unfold put_ref, dc_block, dc_set_block. cbn [dc_blocks dc_set_max]. apply aget_aset_ne. lia.
Qed.
End format.
