(* ===== verification/QueueManager.v ===== *)
(** * The WAL queue between primary and replica (access/logindex/polar_queue_manager.c)

    The walsender takes packets from the send queue of the primary
    ([polar_xlog_send_queue_raw_data_pop]) and sends them as one message;
    the walreceiver puts them in the receive queue of the replica, from
    which the startup process takes the records
    ([polar_xlog_recv_queue_pop]).  The startup process reads WAL files until
    what it reads is in the queue ([xlog_queue_catch_up]).  The primary
    itself takes its records with [polar_xlog_send_queue_record_pop].

    Reading WAL files ([XLogReadRecord]), decoding whole records and
    allocating the record buffer belong to the WAL reader (xlogreader.c, with
    unresolved conflicts in this tree) and are parameters; so is what happens
    while the startup process waits. *)

From Stdlib Require Import String.
From S2P Require Import Prelude BitPos RingBuf RingBytes RingQueue RingSteps QueuePush QueueDecode.

Definition XLOG_BLCKSZ : Z := 8192.
Definition SizeOfXLogShortPHD : Z := 24.
Definition SizeOfXLogLongPHD : Z := 40.

(** ** The queue *)

Definition polar_xlog_queue_size (size_MB : Z) : Z := size_MB * 1024 * 1024.

(** The ring buffer and its data share the memory; [offsetof_data] is where
    the data begins.  A child process gets no queue from this function. *)
Definition polar_xlog_queue_init (IsUnderPostmaster : bool) (offsetof_data size_MB : Z) : option polar_ringbuf_data_t :=
  if negb IsUnderPostmaster then Some (init_rbuf (polar_xlog_queue_size size_MB - offsetof_data)) else None.

(** ** Sending *)

(** A variable of [n] bytes that held [old], after a read of [bytes] into
    it. *)
Definition read_var (n : nat) (old : Z) (bytes : option (list Z)) : Z :=
  match bytes with Some b => le_decode (b ++ drop (length b) (le_encode n old)) | None => old end.
Definition read_lsn (rb : polar_ringbuf_data_t) (ref : polar_ringbuf_ref_t) (old : Z) : Z := read_var 8 old (polar_ringbuf_read_next_pkt rb ref 0 8).

(** There is a ready packet: its type and length. *)
Definition ready_pkt (rb : polar_ringbuf_data_t) (ref : polar_ringbuf_ref_t) : option (Z * Z) :=
  if polar_ringbuf_avail rb ref >? 0 then
    let '(type, pktlen) := polar_ringbuf_next_ready_pkt rb ref in if type =? POLAR_RINGBUF_PKT_INVALID_TYPE then None else Some (type, pktlen)
  else None.

Definition polar_xlog_send_queue_next_lsn (rb : polar_ringbuf_data_t) (ref : polar_ringbuf_ref_t) : Z * option Z :=
  match ready_pkt rb ref with Some (_, pktlen) => (read_lsn rb ref 0, Some pktlen) | None => (0, None) end.

(** The loop; [flushable] gives the LSN up to which the WAL is safe at each
    iteration.  The queue, the message, its size as counted, and
    [max_lsn]. *)
Fixpoint raw_data_pop_loop (fuel : nat) (flushable : nat -> Z) (rb : polar_ringbuf_data_t) (ref : polar_ringbuf_ref_t) (data : list Z) (copy_size free_size lsn max_lsn : Z)
  : outcome (polar_ringbuf_data_t * list Z * Z * Z) :=
  match ready_pkt rb ref with
  | None => Done (rb, data, copy_size, max_lsn)
  | Some (_, pktlen) =>
    if pktlen + 4 >? free_size then Done (rb, data, copy_size, max_lsn)
    else
      let lsn := read_lsn rb ref lsn in
      match fuel with
      | O => Fault OUT_OF_FUEL
      | S fuel =>
        if lsn >? flushable fuel then Done (rb, data, copy_size, max_lsn)
        else
          let body := polar_ringbuf_read_next_pkt rb ref 0 pktlen in
          let len := 4 + (match body with Some b => Z.of_nat (length b) | None => -1 end) in
          let data := data ++ le_encode 4 pktlen ++ default [] body in
          raw_data_pop_loop fuel flushable (polar_ringbuf_update_ref rb ref) ref data (copy_size + len) (u64 (free_size - len)) lsn lsn
      end
  end.

(** [max_lsn] holds what the caller set before. *)
Definition polar_xlog_send_queue_raw_data_pop (fuel : nat) (flushable : nat -> Z) (rb : polar_ringbuf_data_t) (ref : polar_ringbuf_ref_t) (size max_lsn : Z)
  : outcome (polar_ringbuf_data_t * list Z * Z * Z) :=
  raw_data_pop_loop fuel flushable rb ref [] 0 size 0 max_lsn.

(** ** Looking for a start *)

Definition POLAR_XLOG_QUEUE_NEW_REF (rb : polar_ringbuf_data_t) (strong : bool) (name : list Z) : outcome (polar_ringbuf_data_t * polar_ringbuf_ref_t) :=
  match polar_ringbuf_new_ref rb strong (Some name) with (rb, Some ref) => Done (rb, ref) | (_, None) => Fault PANIC end.

(** A weak reference is promoted; one that was evicted is made anew. *)
Fixpoint check_get_ref (fuel : nat) (rb : polar_ringbuf_data_t) (ref : polar_ringbuf_ref_t) : outcome (polar_ringbuf_data_t * polar_ringbuf_ref_t) :=
  match fuel with
  | O => Fault OUT_OF_FUEL
  | S fuel =>
    if ref_strong ref then Done (rb, ref)
    else match polar_ringbuf_get_ref rb ref with
    | (rb, true) => Done (rb, ref)
    | (rb, false) => let! (rb, ref) := POLAR_XLOG_QUEUE_NEW_REF rb false (ref_ref_name ref) in check_get_ref fuel rb ref
    end
  end.

Definition read_exact (rb : polar_ringbuf_data_t) (ref : polar_ringbuf_ref_t) (offset size : Z) : outcome (list Z) :=
  match polar_ringbuf_read_next_pkt rb ref offset size with
  | Some b => if Z.of_nat (length b) =? size then Done b else Fault PANIC
  | None => Fault PANIC
  end.

Fixpoint check_loop (fuel : nat) (rb : polar_ringbuf_data_t) (ref : polar_ringbuf_ref_t) (start_point : Z) (ret : bool) : outcome (polar_ringbuf_data_t * bool) :=
  match ready_pkt rb ref with
  | None => Done (rb, ret)
  | Some (type, _) =>
    match fuel with
    | O => Fault OUT_OF_FUEL
    | S fuel =>
      if type =? POLAR_RINGBUF_PKT_WAL_META then
        let! lsn := read_exact rb ref 0 8 in
        let! lsn_len := read_exact rb ref 8 4 in
        let start_lsn := u64 (le_decode lsn - le_decode lsn_len) in
        let ret := if start_lsn <=? start_point then true else ret in
        if start_lsn >=? start_point then Done (rb, ret)
        else check_loop fuel (polar_ringbuf_update_ref rb ref) ref start_point ret
      else check_loop fuel (polar_ringbuf_update_ref rb ref) ref start_point ret
    end
  end.

Definition polar_xlog_send_queue_check (fuel : nat) (rb : polar_ringbuf_data_t) (ref : polar_ringbuf_ref_t) (start_point : Z)
  : outcome (polar_ringbuf_data_t * polar_ringbuf_ref_t * bool) :=
  if start_point =? 0 then Done (rb, ref, true)
  else
    let! (rb, ref) := check_get_ref 2 rb ref in
    let! (rb, ret) := check_loop fuel rb ref start_point false in
    let rb := if ref_strong ref then rb else (polar_ringbuf_clear_ref rb ref).1 in
    Done (rb, ref, ret).

(** ** Keeping data, and pushing on a standby *)

(** [keep_size] is the part of the queue that is kept, in bytes. *)
Definition polar_xlog_send_queue_keep_data (fuel : nat) (keep_size : Z) (rb : polar_ringbuf_data_t) (data_ref : option polar_ringbuf_ref_t)
  : outcome (polar_ringbuf_data_t * option polar_ringbuf_ref_t) :=
  match data_ref with
  | None => let! (rb, ref) := POLAR_XLOG_QUEUE_NEW_REF rb true (c_string "xlog_queue_data_keep"%string) in Done (rb, Some ref)
  | Some ref => let! rb := polar_ringbuf_ref_keep_data fuel rb ref keep_size in Done (rb, Some ref)
  end.

Definition polar_xlog_send_queue_release_data_ref (rb : polar_ringbuf_data_t) (data_ref : option polar_ringbuf_ref_t) : polar_ringbuf_data_t * option polar_ringbuf_ref_t :=
  match data_ref with
  | Some ref => let '(rb, ref) := polar_ringbuf_release_ref rb ref in (rb, Some ref)
  | None => (rb, None)
  end.

Section manager.
Context `{codes : heap2_codes}.

(** A record that was read from [StartPos] to [EndPos]: its bytes, the size
    of its headers and its main data. *)
Definition polar_standby_xlog_send_queue_push (fuel : nat) (keep_size : Z) (callback : polar_ringbuf_data_t -> outcome polar_ringbuf_data_t)
    (rb : polar_ringbuf_data_t) (data_ref : option polar_ringbuf_ref_t) (readRecordBuf : list Z) (meta_size : Z) (main_data : list Z) (main_data_len StartPos EndPos : Z)
  : outcome (polar_ringbuf_data_t * option polar_ringbuf_ref_t) :=
  let! (rb, data_ref) := polar_xlog_send_queue_keep_data fuel keep_size rb data_ref in
  let main := mk_main (mk_rdata main_data main_data_len) [] main_data_len in
  let RbufLen := polar_xlog_reserve_size main (mk_rdata readRecordBuf meta_size) in
  let! rb := (if negb (polar_ringbuf_free_size rb >=? POLAR_XLOG_PKT_SIZE RbufLen) then polar_ringbuf_free_up fuel callback rb (POLAR_XLOG_PKT_SIZE RbufLen) else Done rb) in
  let '(rb, RbufPos) := polar_ringbuf_pkt_reserve rb (POLAR_XLOG_PKT_SIZE RbufLen) in
  let rb := polar_ringbuf_set_pkt_length rb RbufPos (RbufLen + POLAR_XLOG_HEAD_SIZE) in
  let! rb := polar_xlog_send_queue_push main rb RbufPos [mk_rdata readRecordBuf (u32 (EndPos - StartPos))] RbufLen EndPos (u32 (EndPos - StartPos)) in
  Done (rb, data_ref).

(** ** The records a process takes from the queue *)

(** The state of the WAL reader. *)
Record reader := mk_reader {
  xr_ReadRecPtr : Z;
  xr_EndRecPtr : Z;
  xr_currRecPtr : Z;
  xr_readLen : Z;
  xr_readSegNo : Z;
  xr_readOff : Z;
  xr_latestPagePtr : Z;
  xr_noPayload : bool;
  xr_readRecordBuf : list Z;
  xr_decoder : decoder
}.

Context (wal_segment_size BKPIMAGE_IS_COMPRESSED : Z).
Context (DecodeXLogRecord : decoder -> list Z -> outcome (decoder * bool)) (allocate_recordbuf : Z -> list Z).

Definition set_curr (s : reader) (RecPtr : Z) : reader :=
  mk_reader (xr_ReadRecPtr s) (xr_EndRecPtr s) RecPtr (xr_readLen s) (xr_readSegNo s) (xr_readOff s) (xr_latestPagePtr s) (xr_noPayload s) (xr_readRecordBuf s) (xr_decoder s).
Definition set_record_buf (s : reader) (buf : list Z) : reader :=
  mk_reader (xr_ReadRecPtr s) (xr_EndRecPtr s) (xr_currRecPtr s) (xr_readLen s) (xr_readSegNo s) (xr_readOff s) (xr_latestPagePtr s) (xr_noPayload s) buf (xr_decoder s).
Definition set_decoder (s : reader) (d : decoder) : reader :=
  mk_reader (xr_ReadRecPtr s) (xr_EndRecPtr s) (xr_currRecPtr s) (xr_readLen s) (xr_readSegNo s) (xr_readOff s) (xr_latestPagePtr s) (xr_noPayload s) (xr_readRecordBuf s) d.

Definition polar_xlog_queue_update_reader (s : reader) (read_rec_ptr end_rec_ptr data_len : Z) : reader :=
  let read_page_ptr := read_rec_ptr - read_rec_ptr mod XLOG_BLCKSZ in
  let end_page_ptr := end_rec_ptr - end_rec_ptr mod XLOG_BLCKSZ in
  let '(target_seg_no, target_page_off) :=
    if negb (read_page_ptr =? end_page_ptr) then (end_page_ptr / wal_segment_size, 0)
    else (read_page_ptr / wal_segment_size, Z.land read_page_ptr (wal_segment_size - 1)) in
  mk_reader read_rec_ptr end_rec_ptr (xr_currRecPtr s) data_len target_seg_no target_page_off end_page_ptr true (xr_readRecordBuf s) (xr_decoder s).

(** The end and the start of the record of the next packet. *)
Definition packet_lsns (rb : polar_ringbuf_data_t) (ref : polar_ringbuf_ref_t) : outcome (Z * Z) :=
  let! end_lsn := read_exact rb ref 0 8 in
  let! xlog_len := read_exact rb ref 8 4 in
  Done (le_decode end_lsn, u64 (le_decode end_lsn - le_decode xlog_len)).

Fixpoint polar_xlog_queue_remove_outdate (fuel : nat) (rb : polar_ringbuf_data_t) (ref : polar_ringbuf_ref_t) (s : reader) : outcome (polar_ringbuf_data_t * Z) :=
  match fuel with
  | O => Fault OUT_OF_FUEL
  | S fuel =>
    let! (_, read_rec_ptr) := packet_lsns rb ref in
    if read_rec_ptr <? xr_EndRecPtr s then
      let rb := polar_ringbuf_update_ref rb ref in
      match ready_pkt rb ref with
      | Some (type, _) => if type =? POLAR_RINGBUF_PKT_WAL_META then polar_xlog_queue_remove_outdate fuel rb ref s else Done (rb, read_rec_ptr)
      | None => Done (rb, read_rec_ptr)
      end
    else Done (rb, read_rec_ptr)
  end.

(** The decoder's verdict is not looked at; it is returned last. *)
Definition polar_xlog_queue_pop_record (rb : polar_ringbuf_data_t) (ref : polar_ringbuf_ref_t) (pktlen : Z) (s : reader) (decode_payload : bool)
  : outcome (polar_ringbuf_data_t * reader * bool) :=
  let! (end_rec_ptr, read_rec_ptr) := packet_lsns rb ref in
  let data_len := u32 (pktlen - POLAR_XLOG_HEAD_SIZE) in
  let buf := if data_len >? Z.of_nat (length (xr_readRecordBuf s)) then allocate_recordbuf data_len else xr_readRecordBuf s in
  let! data := read_exact rb ref POLAR_XLOG_HEAD_SIZE data_len in
  let s := set_record_buf s (mem_write buf 0 data) in
  let rb := polar_ringbuf_update_ref rb ref in
  let s := polar_xlog_queue_update_reader s read_rec_ptr end_rec_ptr data_len in
  let! (d, ok) := polar_xlog_queue_decode BKPIMAGE_IS_COMPRESSED (xr_readRecordBuf s) data_len DecodeXLogRecord (xr_decoder s) decode_payload in
  Done (rb, set_decoder s d, ok).

(** The queue, the reader, [xlog_queue_catch_up], and whether there is a
    record.  [XLogReadRecord] reads the next record from the files, as they
    are at this time. *)
Definition polar_xlog_queue_ref_pop (fuel : nat) (XLogReadRecord : reader -> reader * bool) (rb : polar_ringbuf_data_t) (ref : polar_ringbuf_ref_t) (s : reader) (catch_up decode_payload : bool)
  : outcome (polar_ringbuf_data_t * reader * bool * bool) :=
  let '(pkt_type, pktlen) := if polar_ringbuf_avail rb ref >? 0 then polar_ringbuf_next_ready_pkt rb ref else (POLAR_RINGBUF_PKT_INVALID_TYPE, 0) in
  if pkt_type =? POLAR_RINGBUF_PKT_WAL_META then
    if negb catch_up then
      let! (rb, catch_up_ptr) := polar_xlog_queue_remove_outdate fuel rb ref s in
      let '(s, record) := XLogReadRecord s in
      if record && (xr_ReadRecPtr s =? catch_up_ptr) then Done (polar_ringbuf_update_ref rb ref, s, true, record) else Done (rb, s, catch_up, record)
    else let! (rb, s, _) := polar_xlog_queue_pop_record rb ref pktlen s decode_payload in Done (rb, s, catch_up, true)
  else if pkt_type =? POLAR_RINGBUF_PKT_WAL_STORAGE_BEGIN then
    let '(s, record) := XLogReadRecord s in Done (polar_ringbuf_update_ref rb ref, s, false, record)
  else if pkt_type =? POLAR_RINGBUF_PKT_INVALID_TYPE then
    if negb catch_up then let '(s, record) := XLogReadRecord s in Done (rb, s, catch_up, record) else Done (rb, s, catch_up, false)
  else Fault PANIC.

(** On the primary; [ref] is the static reference, made at the first call. *)
Definition polar_xlog_send_queue_record_pop (fuel : nat) (XLogReadRecord : reader -> reader * bool) (flushed : Z) (rb : polar_ringbuf_data_t) (ref : option polar_ringbuf_ref_t) (s : reader) (catch_up : bool)
  : outcome (polar_ringbuf_data_t * polar_ringbuf_ref_t * reader * bool * bool) :=
  let! (rb, ref, catch_up) :=
    (match ref with
     | None => let! (rb, ref) := POLAR_XLOG_QUEUE_NEW_REF rb true (c_string "rw_xlog_queue_record_pop"%string) in Done (rb, ref, true)
     | Some ref => Done (rb, ref, catch_up)
     end) in
  match ready_pkt rb ref with
  | None => Done (rb, ref, s, catch_up, false)
  | Some (pkt_type, _) =>
    if negb (pkt_type =? POLAR_RINGBUF_PKT_WAL_META) then Fault PANIC
    else if read_lsn rb ref 0 >? flushed then Done (rb, ref, s, catch_up, false)
    else
      let! (rb, s, catch_up, record) := polar_xlog_queue_ref_pop fuel XLogReadRecord rb ref s catch_up false in
      if record then Done (rb, ref, s, catch_up, true) else Fault PANIC
  end.

(** ** The startup process of a replica *)

Fixpoint storage_begin_wait (fuel : nat) (callback : polar_ringbuf_data_t -> outcome polar_ringbuf_data_t) (rb : polar_ringbuf_data_t) : outcome polar_ringbuf_data_t :=
  match fuel with
  | O => Fault OUT_OF_FUEL
  | S fuel =>
    if polar_ringbuf_free_size rb <? POLAR_RINGBUF_PKTHDRSIZE then
      let! rb := polar_ringbuf_free_up fuel callback rb POLAR_RINGBUF_PKTHDRSIZE in storage_begin_wait fuel callback rb
    else Done rb
  end.

Definition polar_xlog_recv_queue_push_storage_begin (fuel : nat) (callback : polar_ringbuf_data_t -> outcome polar_ringbuf_data_t) (rb : polar_ringbuf_data_t)
  : outcome polar_ringbuf_data_t :=
  let! rb := storage_begin_wait fuel callback rb in
  let '(rb, idx) := polar_ringbuf_pkt_reserve rb POLAR_RINGBUF_PKTHDRSIZE in
  let rb := polar_ringbuf_set_pkt_length rb idx 0 in
  Done (polar_ringbuf_set_pkt_flag rb idx (Z.lor POLAR_RINGBUF_PKT_WAL_STORAGE_BEGIN POLAR_RINGBUF_PKT_READY)).

Definition polar_xlog_recv_queue_check (s : reader) : bool :=
  if xr_currRecPtr s =? xr_ReadRecPtr s then true
  else if (xr_currRecPtr s mod wal_segment_size =? 0) && (u64 (xr_ReadRecPtr s - xr_currRecPtr s) =? SizeOfXLogLongPHD) then true
  else if (xr_currRecPtr s mod XLOG_BLCKSZ =? 0) && (u64 (xr_ReadRecPtr s - xr_currRecPtr s) =? SizeOfXLogShortPHD) then true
  else false.

(** What happens in a round of the loop: the files as they are read, whether
    a promotion is triggered, whether the walreceiver streams, and what
    others do to the queue while the process waits. *)
Record recv_round := mk_round {
  rr_read : reader -> reader * bool;
  rr_triggered : bool;
  rr_streaming : bool;
  rr_meanwhile : polar_ringbuf_data_t -> outcome polar_ringbuf_data_t
}.

(** At a promotion the reference is released and there is no record. *)
Fixpoint recv_pop_loop (rounds : list recv_round) (fuel : nat) (rb : polar_ringbuf_data_t) (ref : polar_ringbuf_ref_t) (s : reader) (catch_up : bool)
  : outcome (polar_ringbuf_data_t * option polar_ringbuf_ref_t * reader * bool * bool) :=
  match rounds with
  | [] => Fault OUT_OF_FUEL
  | r :: rounds =>
    let! (rb, s, catch_up, record) := polar_xlog_queue_ref_pop fuel (rr_read r) rb ref s catch_up true in
    if record && negb (xr_ReadRecPtr s <? xr_currRecPtr s) then Done (rb, Some ref, s, catch_up, true)
    else if record then recv_pop_loop rounds fuel rb ref s catch_up
    else if rr_triggered r then
      if catch_up then let! rb := polar_xlog_recv_queue_push_storage_begin fuel Done rb in recv_pop_loop rounds fuel rb ref s catch_up
      else Done ((polar_ringbuf_release_ref rb ref).1, None, s, catch_up, false)
    else
      let catch_up := if rr_streaming r then true else catch_up in
      let! rb := rr_meanwhile r rb in
      recv_pop_loop rounds fuel rb ref s catch_up
  end.

(** [ref] is the static reference, made at the first call. *)
Definition polar_xlog_recv_queue_pop (rounds : list recv_round) (fuel : nat) (rb : polar_ringbuf_data_t) (ref : option polar_ringbuf_ref_t) (s : reader) (catch_up : bool)
    (RecPtr : Z) : outcome (polar_ringbuf_data_t * option polar_ringbuf_ref_t * reader * bool * bool) :=
  let! (rb, ref, catch_up) :=
    (match ref with
     | None => let! (rb, ref) := POLAR_XLOG_QUEUE_NEW_REF rb true (c_string "recv_queue_ref"%string) in Done (rb, ref, false)
     | Some ref => Done (rb, ref, catch_up)
     end) in
  let RecPtr := if RecPtr =? 0 then xr_EndRecPtr s else RecPtr in
  recv_pop_loop rounds fuel rb ref (set_curr s RecPtr) catch_up.
End manager.
