(* ===== verification/QueueShip.v ===== *)
(** * From the send queue to the receive queue

    What a reader of the queue finds at its position, and from that the
    message the walsender builds and the queue of the replica after the
    message was received. *)

From S2P Require Import Prelude BitPos RingBuf RingBytes RingQueue RingSteps RingTheorems QueuePush QueueDecode QueueManager.

(** ** A reader at packet [k] *)

Record reader_at (rb : polar_ringbuf_data_t) (pkts : list packet) (ref : polar_ringbuf_ref_t) (k : nat) : Prop := {
  ra_wf : queue_wf rb pkts;
  ra_match : RINGBUF_REF_MATCH rb ref = true;
  ra_num : ref_ref_num ref <> 0;
  ra_at : ref_at rb pkts (ref_slot ref) k
}.

Definition pk_type (p : packet) : Z := Z.land (pk_flag p) POLAR_RINGBUF_PKT_TYPE_MASK.

Section reader.
Context (rb : polar_ringbuf_data_t) (pkts : list packet) (ref : polar_ringbuf_ref_t) (k : nat) (HR : reader_at rb pkts ref k).

Lemma ready_pkt_some p : pkts !! k = Some p -> pk_ready p = true -> pk_type p <> POLAR_RINGBUF_PKT_INVALID_TYPE -> ready_pkt rb ref = Some (pk_type p, pk_len p).
Proof.
  intros Hk Hr Ht. destruct HR as [Hwf Hm Hn Hat]. unfold ready_pkt. rewrite (avail_total rb pkts Hwf ref k Hat).
  pose proof (off_pkt_end pkts (wf_lens rb pkts Hwf) k p Hk) as Ho. pose proof (wf_pkt_range rb pkts Hwf k p Hk) as Hp. rewrite Z.gtb_ltb, (proj2 (Z.ltb_lt _ _)) by lia.
  rewrite (next_ready_reads rb pkts Hwf ref k p Hat Hk), Hr. fold (pk_type p). by rewrite (proj2 (Z.eqb_neq _ _) Ht).
Qed.

Lemma ready_pkt_none : (forall p, pkts !! k = Some p -> pk_ready p = false) -> ready_pkt rb ref = None.
Proof.
  intros Hn. destruct HR as [Hwf Hm _ Hat]. unfold ready_pkt. destruct (polar_ringbuf_avail rb ref >? 0) eqn:Ea; [|done]. zbool.
  destruct (avail_pos_pkt rb pkts ref k Hwf Hat) as (p & Hk); [lia|]. by rewrite (next_ready_reads rb pkts Hwf ref k p Hat Hk), (Hn p Hk).
Qed.

Lemma reader_step p : pkts !! k = Some p -> pk_sized p = true -> reader_at (polar_ringbuf_update_ref rb ref) pkts ref (S k).
Proof.
  intros Hk Hz. destruct HR as [Hwf Hm Hn Hat]. pose proof (ref_match_occ rb pkts Hwf ref Hm Hn) as Ho.
  destruct (wf_update_ref rb pkts Hwf ref k p Ho Hat Hk Hz) as (H1 & H2 & _). split; [done| |done|done].
  unfold RINGBUF_REF_MATCH in *. unfold slot_at at 1, polar_ringbuf_update_ref. cbn [with_slot rb_slot]. rewrite aget_aset_eq; [done|]. rewrite (wf_slot_len rb pkts Hwf). apply Ho.
Qed.

(** Reading ahead is one of the steps of the queue. *)
Lemma reader_qstep p : pkts !! k = Some p -> pk_ready p = true -> pk_type p <> POLAR_RINGBUF_PKT_INVALID_TYPE -> qstep (rb, pkts) (polar_ringbuf_update_ref rb ref, pkts).
Proof.
  intros Hk Hr Ht. destruct HR as [Hwf Hm Hn Hat]. apply q_update_ref; [done|done| |].
  - rewrite (avail_total rb pkts Hwf ref k Hat). pose proof (off_pkt_end pkts (wf_lens rb pkts Hwf) k p Hk). pose proof (wf_pkt_range rb pkts Hwf k p Hk). lia.
  - by rewrite (next_ready_reads rb pkts Hwf ref k p Hat Hk), Hr.
Qed.

Lemma body_length p : pkts !! k = Some p -> Z.of_nat (length (pk_body p)) = pk_len p.
Proof.
  intros Hk. pose proof (qw_pkts _ _ (ra_wf _ _ _ _ HR) k p Hk) as Hp. rewrite <- (pa_body _ _ _ _ Hp), length_ring_bytes. pose proof (pa_len _ _ _ _ Hp) as Hl. unfold is_u32 in Hl. lia.
Qed.

Lemma read_at p offset n : pkts !! k = Some p -> pk_sized p = true -> 0 <= offset -> 0 < n -> offset + n <= pk_len p ->
  polar_ringbuf_read_next_pkt rb ref offset n = Some (mem_read (pk_body p) offset n) /\ Z.of_nat (length (mem_read (pk_body p) offset n)) = n.
Proof.
  intros Hk Hz Ho Hn Hl. destruct HR as [Hwf _ _ Hat]. pose proof (wf_lens rb pkts Hwf k p Hk) as Hlen. unfold is_u32 in Hlen.
  rewrite (read_next_reads rb pkts Hwf ref k p Hat Hk offset n Hz) by lia. rewrite Z.min_l by lia. unfold mem_read. split; [done|].
  rewrite length_take, length_drop. pose proof (body_length p Hk). lia.
Qed.

Lemma read_exact_at p offset n : pkts !! k = Some p -> pk_sized p = true -> 0 <= offset -> 0 < n -> offset + n <= pk_len p -> read_exact rb ref offset n = Done (mem_read (pk_body p) offset n).
Proof. intros Hk Hz Ho Hn Hl. destruct (read_at p offset n Hk Hz Ho Hn Hl) as [E El]. unfold read_exact. rewrite E, El. by rewrite Z.eqb_refl. Qed.
End reader.

(** ** Packets of records *)

(** The LSNs at the head of a packet. *)
Definition pk_end_lsn (p : packet) : Z := le_decode (mem_read (pk_body p) 0 8).
Definition pk_xlog_len (p : packet) : Z := le_decode (mem_read (pk_body p) 8 4).

(** A packet with a record, once it is ready. *)
Definition send_pkt (p : packet) : Prop := pk_ready p = true -> pk_type p = POLAR_RINGBUF_PKT_WAL_META /\ POLAR_XLOG_HEAD_SIZE < pk_len p.

Lemma read_lsn_at rb pkts ref k p old : reader_at rb pkts ref k -> pkts !! k = Some p -> pk_sized p = true -> 8 <= pk_len p -> read_lsn rb ref old = pk_end_lsn p.
Proof.
  intros HR Hk Hz Hl. unfold read_lsn. destruct (read_at rb pkts ref k HR p 0 8 Hk Hz) as [E El]; [lia..|]. rewrite E. cbn [read_var].
  rewrite drop_ge by (rewrite length_le_encode; lia). by rewrite app_nil_r.
Qed.

(** ** The message *)

Definition bodies (pkts : list packet) : list (list Z) := map pk_body pkts.

Lemma length_wire_cons b l : Z.of_nat (length (wire (b :: l))) = 4 + Z.of_nat (length b) + Z.of_nat (length (wire l)).
Proof. rewrite wire_cons, !length_app, length_le_encode. lia. Qed.

Lemma wire_app l1 l2 : wire (l1 ++ l2) = wire l1 ++ wire l2.
Proof. induction l1 as [|b l1 IH]; [done|]. cbn [app]. rewrite !wire_cons, IH. by rewrite <- !app_assoc. Qed.

(** Why the message ends: nothing more is ready, the next packet does not
    fit, or its record is not safe yet. *)
Definition pop_stops (flushable : nat -> Z) (pkts : list packet) (k : nat) (room : Z) : Prop :=
  (forall p, pkts !! k = Some p -> pk_ready p = false) \/
  exists p, pkts !! k = Some p /\ pk_ready p = true /\ (room < pk_len p + 4 \/ exists i, flushable i < pk_end_lsn p).

Lemma pop_loop_spec fuel : forall flushable rb pkts ref k data copy_size free_size lsn max_lsn,
  reader_at rb pkts ref k -> Forall send_pkt pkts -> (length pkts - k < fuel)%nat -> 0 <= free_size < 2 ^ 62 ->
  exists rb' (n : nat) max', let got := take n (drop k pkts) in
    raw_data_pop_loop fuel flushable rb ref data copy_size free_size lsn max_lsn =
      Done (rb', data ++ wire (bodies got), copy_size + Z.of_nat (length (wire (bodies got))), max') /\
    reader_at rb' pkts ref (k + n) /\ rtc qstep (rb, pkts) (rb', pkts) /\ (k + n <= length pkts)%nat /\
    Forall (fun p => pk_ready p = true /\ exists i, pk_end_lsn p <= flushable i) got /\
    Z.of_nat (length (wire (bodies got))) <= free_size /\
    max' = (match last got with Some p => pk_end_lsn p | None => max_lsn end) /\
    pop_stops flushable pkts (k + n) (free_size - Z.of_nat (length (wire (bodies got)))).
Proof.
  induction fuel as [|fuel IH]; intros flushable rb pkts ref k data copy_size free_size lsn max_lsn HR Hs Hf Hfree; [lia|].
  assert (forall why : pop_stops flushable pkts k free_size, exists rb' (n : nat) max', let got := take n (drop k pkts) in
    Done (rb, data, copy_size, max_lsn) = Done (rb', data ++ wire (bodies got), copy_size + Z.of_nat (length (wire (bodies got))), max') /\
    reader_at rb' pkts ref (k + n) /\ rtc qstep (rb, pkts) (rb', pkts) /\ (k + n <= length pkts)%nat /\
    Forall (fun p => pk_ready p = true /\ exists i, pk_end_lsn p <= flushable i) got /\
    Z.of_nat (length (wire (bodies got))) <= free_size /\
    max' = (match last got with Some p => pk_end_lsn p | None => max_lsn end) /\
    pop_stops flushable pkts (k + n) (free_size - Z.of_nat (length (wire (bodies got))))) as Hstop.
  { intros why. exists rb, 0%nat, max_lsn. cbv zeta. rewrite take_0. cbn [bodies map wire mjoin list_join length last]. change (Z.of_nat 0) with 0. rewrite app_nil_r, Z.add_0_r, Z.sub_0_r, Nat.add_0_r.
    split; [done|]. split; [done|]. split; [apply rtc_refl|]. split; [apply (ra_at _ _ _ _ HR)|]. split; [constructor|]. split; [lia|]. by split. }
  cbn [raw_data_pop_loop]. destruct (pkts !! k) as [p|] eqn:Hk.
  2: { rewrite (ready_pkt_none rb pkts ref k HR) by congruence. apply Hstop. left. congruence. }
  destruct (pk_ready p) eqn:Hr.
  2: { rewrite (ready_pkt_none rb pkts ref k HR) by congruence. apply Hstop. left. congruence. }
  pose proof (Forall_lookup_1 _ _ _ _ Hs Hk Hr) as [Ht Hl]. unfold POLAR_XLOG_HEAD_SIZE in Hl. pose proof (body_length rb pkts ref k HR p Hk) as Hbl.
  assert (pk_type p <> POLAR_RINGBUF_PKT_INVALID_TYPE) as Htn by by rewrite Ht.
  assert (pk_sized p = true) as Hz by by apply (qw_pkts _ _ (ra_wf _ _ _ _ HR) k p Hk).
  rewrite (ready_pkt_some rb pkts ref k HR p Hk Hr Htn). destruct (pk_len p + 4 >? free_size) eqn:Efit; zbool.
  { apply Hstop. right. exists p. split; [done|]. split; [done|]. left. lia. }
  rewrite (read_lsn_at rb pkts ref k p lsn HR Hk Hz) by lia. destruct (pk_end_lsn p >? flushable fuel) eqn:Elsn; zbool.
  { apply Hstop. right. exists p. split; [done|]. split; [done|]. right. exists fuel. lia. }
  destruct (read_at rb pkts ref k HR p 0 (pk_len p) Hk Hz) as [E _]; [lia..|]. rewrite E.
  assert (mem_read (pk_body p) 0 (pk_len p) = pk_body p) as -> by (unfold mem_read; change (Z.to_nat 0) with 0%nat; rewrite drop_0; apply take_ge; lia). cbn [default from_option]. unfold id.
  rewrite Hbl, u64_small by (unfold is_u64; lia). pose proof (lookup_lt_Some _ _ _ Hk) as Hkl.
  destruct (IH flushable _ pkts ref (S k) (data ++ le_encode 4 (pk_len p) ++ pk_body p) (copy_size + (4 + pk_len p)) (free_size - (4 + pk_len p)) (pk_end_lsn p) (pk_end_lsn p)
    (reader_step rb pkts ref k HR p Hk Hz) Hs) as (rb' & n & max' & H1 & H2 & H3 & H4 & H5 & H6 & H7 & H8); [lia|lia|].
  exists rb', (S n), max'. cbv zeta in *. rewrite (drop_S pkts p k Hk). cbn [take bodies map]. fold (bodies (take n (drop (S k) pkts))). set (got := take n (drop (S k) pkts)) in *.
  rewrite wire_cons, Hbl, Nat.add_succ_r. change (S (k + n)) with (S k + n)%nat. rewrite !length_app, length_le_encode, !Nat2Z.inj_add, Hbl. change (Z.of_nat 4) with 4.
  split; [rewrite H1; rewrite <- !app_assoc; do 3 f_equal; lia|]. split; [done|]. split; [by eapply rtc_l; [apply (reader_qstep rb pkts ref k HR p)|]|]. split; [done|].
  split; [constructor; [split; [done|by exists fuel]|done]|]. split; [lia|]. split; [|by replace (free_size - (4 + (pk_len p + Z.of_nat (length (wire (bodies got)))))) with
    (free_size - (4 + pk_len p) - Z.of_nat (length (wire (bodies got)))) by lia].
  rewrite H7. change (p :: got) with ([p] ++ got). rewrite last_app. by destruct (last got).
Qed.

(** ** Shipping *)

Lemma bodies_ok pkts k n rb ref : reader_at rb pkts ref k -> Forall send_pkt pkts -> Forall (fun p => pk_ready p = true) (take n (drop k pkts)) ->
  Forall payload_ok (bodies (take n (drop k pkts))) /\ wire_room (bodies (take n (drop k pkts))) <= 2 * Z.of_nat (length (wire (bodies (take n (drop k pkts))))).
Proof.
  intros HR Hs Hr. assert (forall p, p ∈ take n (drop k pkts) -> 12 < Z.of_nat (length (pk_body p)) < 2 ^ 32) as Hlen.
  { intros p Hp. pose proof (proj1 (Forall_forall _ _) Hr p Hp) as Hrp. assert (p ∈ pkts) as Hin by (eapply subseteq_drop, subseteq_take; exact Hp).
    pose proof (proj1 (Forall_forall _ _) Hs p Hin Hrp) as [_ Hl]. unfold POLAR_XLOG_HEAD_SIZE in Hl. apply list_elem_of_lookup in Hin as [i Hi].
    pose proof (qw_pkts _ _ (ra_wf _ _ _ _ HR) i p Hi) as Hp'. rewrite <- (pa_body _ _ _ _ Hp'), length_ring_bytes. pose proof (pa_len _ _ _ _ Hp') as Hl'. unfold is_u32 in Hl'. lia. }
  clear - Hlen. induction (take n (drop k pkts)) as [|p l IH]; [split; [constructor|done]|]. destruct IH as [I1 I2]; [intros; apply Hlen; by right|].
  pose proof (Hlen p ltac:(by left)) as Hp. cbn [bodies map]. fold (bodies l). split; [constructor; [unfold payload_ok; lia|done]|]. rewrite length_wire_cons.
  change (wire_room (pk_body p :: bodies l)) with (POLAR_RINGBUF_PKT_SIZE (Z.of_nat (length (pk_body p))) + wire_room (bodies l)). unfold POLAR_RINGBUF_PKT_SIZE, POLAR_RINGBUF_PKTHDRSIZE. lia.
Qed.

Lemma ship_spec flushable callback fuel fuel' rb pkts ref k size max_lsn rbr pktsr :
  reader_at rb pkts ref k -> Forall send_pkt pkts -> (length pkts - k < fuel)%nat -> 0 <= size < 2 ^ 62 ->
  queue_wf rbr pktsr -> 2 * size <= polar_ringbuf_free_size rbr -> rb_min_visit rbr + Z.of_nat (length pktsr) + Z.of_nat (length pkts) < UINT64_MAX -> (length pkts < fuel')%nat ->
  exists rb' n msg max', let got := take n (drop k pkts) in
    polar_xlog_send_queue_raw_data_pop fuel flushable rb ref size max_lsn = Done (rb', msg, Z.of_nat (length msg), max') /\
    reader_at rb' pkts ref (k + n) /\ rtc qstep (rb, pkts) (rb', pkts) /\ Z.of_nat (length msg) <= size /\
    Forall (fun p => pk_ready p = true /\ exists i, pk_end_lsn p <= flushable i) got /\ pop_stops flushable pkts (k + n) (size - Z.of_nat (length msg)) /\
    (n = 0%nat /\ msg = [] \/
     exists rbr' idxs, polar_xlog_recv_queue_push fuel' callback rbr msg = Done rbr' /\ length idxs = n /\ queue_wf rbr' (pktsr ++ zip_with published idxs (bodies got))).
Proof.
  intros HR Hs Hf Hsz Hwr Hroom Hv Hf'. destruct (pop_loop_spec fuel flushable rb pkts ref k [] 0 size 0 max_lsn HR Hs Hf Hsz) as (rb' & n & max' & H1 & H2 & H3 & H4 & H5 & H6 & H7 & H8).
  cbv zeta in *. set (got := take n (drop k pkts)) in *. exists rb', n, (wire (bodies got)), max'. split; [exact H1|]. split; [done|]. split; [done|]. split; [done|]. split; [done|]. split; [done|].
  assert (length got = n) as Hgl by (unfold got; rewrite length_take, length_drop; lia).
  destruct (bodies_ok pkts k n rb ref HR Hs) as [B1 B2]; [eapply Forall_impl; [exact H5|tauto]|]. fold got in B1, B2.
  destruct got as [|p got'] eqn:Eg; [left; split; [cbn in Hgl; lia|done]|right].
  cbn [bodies map] in *. destruct (push_loop_spec callback (map pk_body got') (pk_body p) fuel' rbr pktsr 0 Hwr B1) as (rbr' & idxs & E1 & E2 & E3).
  - lia.
  - rewrite length_map. assert (S (length got') <= length pkts)%nat by (cbn [length] in Hgl; lia). lia.
  - rewrite length_map. cbn [length] in Hgl. lia.
  - exists rbr', idxs. split; [exact E1|]. split; [rewrite E2, length_map; exact Hgl|]. fold got. rewrite Eg. exact E3.
Qed.

(** ** Pushing on a standby *)

(** What is behind the copied part of a record does not matter. *)
Lemma push_trim `{heap2_codes} main rb rbuf_pos d n copy_len end_lsn xlog_len :
  0 <= copy_len - polar_reserve_data_size main d <= Z.min n (Z.of_nat (length d)) -> copy_len - polar_reserve_data_size main d < 2 ^ 63 ->
  polar_xlog_send_queue_push main rb rbuf_pos [mk_rdata d n] copy_len end_lsn xlog_len =
  polar_xlog_send_queue_push main rb rbuf_pos [mk_rdata d (Z.min n (Z.of_nat (length d)))] copy_len end_lsn xlog_len.
Proof.
  intros H1 H2. unfold polar_xlog_send_queue_push. cbn [rd_data]. set (ds := polar_reserve_data_size main d) in *. destruct (_ >=? _); [done|].
  destruct (pkt_write rb rbuf_pos 0 _) as [rb1 o1]. destruct (pkt_write rb1 rbuf_pos o1 _) as [rb2 o2]. cbn [send_push_loop rd_data rd_len]. rewrite u64_small by (unfold is_u64; lia).
  by replace (Z.min (copy_len - ds) (Z.min n (Z.of_nat (length d)))) with (Z.min (copy_len - ds) n) by lia.
Qed.

(** The reference that keeps data, or a slot for it. *)
Definition data_ref_ok (rb : polar_ringbuf_data_t) (data_ref : option polar_ringbuf_ref_t) : Prop :=
  match data_ref with
  | Some ref => occ rb (ref_slot ref)
  | None => rb_ref_num rb + 1 < UINT64_MAX /\ exists i, 0 <= i < POLAR_RINGBUF_MAX_SLOT /\ ~ occ rb i
  end.

(** Only packets at the start of the queue are given up. *)
Lemma keep_data_spec fuel keep_size rb pkts data_ref :
  queue_wf rb pkts -> (forall k p, pkts !! k = Some p -> pk_sized p = true) -> data_ref_ok rb data_ref -> 0 <= keep_size -> (length pkts < fuel)%nat ->
  exists rb' ref d, polar_xlog_send_queue_keep_data fuel keep_size rb data_ref = Done (rb', Some ref) /\ queue_wf rb' (drop d pkts) /\ (d <= length pkts)%nat /\
    rb_min_visit rb' = rb_min_visit rb + Z.of_nat d /\ rb_size rb' = rb_size rb.
Proof.
  intros Hwf Hz Hd Hk Hf. destruct data_ref as [ref|]; cbn [data_ref_ok polar_xlog_send_queue_keep_data] in *.
  - destruct (qw_refs _ _ Hwf _ Hd) as (k & Hat). destruct (keep_data_loop_spec pkts Hz ref keep_size Hk fuel rb k false Hwf Hd Hat) as (rb1 & k' & upd & E & W1 & _ & _ & _ & Hmv & _ & Hs & _); [lia|].
    unfold polar_ringbuf_ref_keep_data. rewrite E. cbn [obind]. destruct upd; [|exists rb1, ref, 0%nat; rewrite drop_0; split_and!; [done|done|lia|lia|done]].
    unfold polar_ringbuf_update_keep_data. destruct (polar_ringbuf_update_pread rb1) as [rb2 b] eqn:Hu. destruct (wf_update_pread _ pkts W1 rb2 b Hu) as (d & Hdl & W2 & _ & _ & _ & Hv2 & _).
    pose proof (update_pread_size rb1) as Hs2. rewrite Hu in Hs2. cbn [fst] in *. exists rb2, ref, d. split_and!; [done|done|done|lia|congruence].
  - destruct Hd as [Hn (i & Hi & Hno)]. unfold POLAR_XLOG_QUEUE_NEW_REF. destruct (polar_ringbuf_new_ref rb true _) as [rb1 [ref|]] eqn:Hnew; destruct (wf_new_ref rb pkts Hwf _ _ rb1 _ Hn Hnew) as [W1 Hr].
    + exists rb1, ref, 0%nat. rewrite drop_0. split; [done|]. split; [done|]. split; [lia|]. split; [rewrite (new_ref_min_visit _ _ _ _ _ Hnew); lia|].
      unfold polar_ringbuf_new_ref in Hnew. destruct (_ && _); by simplify_eq.
    + destruct Hr as [_ Hr]. exfalso. by apply Hno, Hr.
Qed.

(** A record that is read from the WAL, with room for it in the queue. *)
Section standby.
Context `{codes : heap2_codes}.
Context (readRecordBuf main_data : list Z) (meta_size main_data_len StartPos EndPos : Z).
Let main : main_rdata := mk_main (mk_rdata main_data main_data_len) [] main_data_len.
Let RbufLen : Z := polar_xlog_reserve_size main (mk_rdata readRecordBuf meta_size).
Context (Hextra : extra_ok main (extra_of main readRecordBuf)).
Context (Hmeta : 0 < meta_size <= Z.min (EndPos - StartPos) (Z.of_nat (length readRecordBuf)) /\ 0 < xl_tot_len readRecordBuf <= Z.min (EndPos - StartPos) (Z.of_nat (length readRecordBuf))).
Context (Hsize : RbufLen < 2 ^ 31 /\ EndPos - StartPos < 2 ^ 32).

Definition standby_body : list Z :=
  meta_body main [mk_rdata readRecordBuf (Z.min (EndPos - StartPos) (Z.of_nat (length readRecordBuf)))] RbufLen EndPos (EndPos - StartPos).

Lemma standby_record_ok : record_ok main [mk_rdata readRecordBuf (Z.min (EndPos - StartPos) (Z.of_nat (length readRecordBuf)))] RbufLen.
Proof.
  pose proof (extra_nonneg _ _ Hextra) as He. rewrite <- reserve_is_extra in He. unfold RbufLen, polar_xlog_reserve_size in *. cbn [rd_data rd_len record_ok] in *.
  split; [constructor; [unfold node_ok; cbn; lia|constructor]|]. split; [exact Hextra|]. unfold chain_bytes, node_bytes. cbn [map mjoin list_join rd_data rd_len]. rewrite app_nil_r, length_take.
  destruct (polar_xlog_remove_payload readRecordBuf); lia.
Qed.

(** Reserving, sizing and filling the packet. *)
Lemma standby_fill rb pkts :
  queue_wf rb pkts -> POLAR_XLOG_PKT_SIZE RbufLen <= polar_ringbuf_free_size rb -> rb_min_visit rb + Z.of_nat (length pkts) + 1 < UINT64_MAX ->
  exists rb' idx, (let '(rb, RbufPos) := polar_ringbuf_pkt_reserve rb (POLAR_XLOG_PKT_SIZE RbufLen) in
    let rb := polar_ringbuf_set_pkt_length rb RbufPos (RbufLen + POLAR_XLOG_HEAD_SIZE) in
    polar_xlog_send_queue_push main rb RbufPos [mk_rdata readRecordBuf (u32 (EndPos - StartPos))] RbufLen EndPos (u32 (EndPos - StartPos))) = Done rb' /\
    queue_wf rb' (pkts ++ [published idx standby_body]).
Proof.
  intros Hwf Hroom Hv. pose proof standby_record_ok as Hrec. pose proof Hrec as (_ & _ & Hc & Hpos). cbn [rd_data] in Hc. unfold chain_bytes, node_bytes in Hc.
  cbn [map mjoin list_join rd_data rd_len] in Hc. rewrite app_nil_r, length_take in Hc. unfold POLAR_XLOG_PKT_SIZE in *. set (n := RbufLen + POLAR_XLOG_HEAD_SIZE) in *.
  assert (0 < n < 2 ^ 32) as Hn by (unfold n, POLAR_XLOG_HEAD_SIZE; lia).
  destruct (polar_ringbuf_pkt_reserve rb (POLAR_RINGBUF_PKT_SIZE n)) as [rb1 idx] eqn:Hr.
  destruct (wf_pkt_reserve rb pkts Hwf n rb1 idx) as [Hidx Hw1]; [unfold is_u32; lia|done..|]. set (body := ring_bytes _ _ _) in Hw1.
  pose proof (wf_set_pkt_length rb1 _ Hw1 (length pkts) (mk_pkt idx n false POLAR_RINGBUF_PKT_FREE body)) as Hw2. rewrite lookup_app_r, Nat.sub_diag in Hw2 by lia.
  specialize (Hw2 eq_refl eq_refl). rewrite insert_app_r_alt, Nat.sub_diag in Hw2 by lia. cbn [list_insert insert pk_idx pk_len pk_flag pk_body] in Hw2.
  assert (u32 (EndPos - StartPos) = EndPos - StartPos) as Eu by (apply u32_small; unfold is_u32; lia).
  rewrite (push_trim main _ idx readRecordBuf (u32 (EndPos - StartPos))) by lia. rewrite Eu. destruct (send_push_spec main _ _ (length pkts) (mk_pkt idx n true POLAR_RINGBUF_PKT_FREE body) [mk_rdata readRecordBuf (Z.min (EndPos - StartPos) (Z.of_nat (length readRecordBuf)))] RbufLen EndPos (EndPos - StartPos) Hw2) as (rb' & E & Hw3 & _);
    [by rewrite lookup_app_r, Nat.sub_diag by lia|done|done|done|exact Hrec|]. exists rb', idx. split; [exact E|].
  rewrite insert_app_r_alt, Nat.sub_diag in Hw3 by lia. cbn [list_insert insert pk_idx pk_len] in Hw3. fold standby_body in Hw3.
  unfold published. replace (Z.of_nat (length standby_body)) with n; [exact Hw3|]. unfold standby_body. by rewrite length_meta.
Qed.

Lemma standby_push_spec fuel keep_size callback rb pkts data_ref :
  queue_wf rb pkts -> (forall k p, pkts !! k = Some p -> pk_sized p = true) -> data_ref_ok rb data_ref -> 0 <= keep_size -> (length pkts < fuel)%nat ->
  POLAR_XLOG_PKT_SIZE RbufLen <= polar_ringbuf_free_size rb -> rb_min_visit rb + Z.of_nat (length pkts) + 1 < UINT64_MAX ->
  exists rb' ref d idx, polar_standby_xlog_send_queue_push fuel keep_size callback rb data_ref readRecordBuf meta_size main_data main_data_len StartPos EndPos = Done (rb', Some ref) /\
    queue_wf rb' (drop d pkts ++ [published idx standby_body]).
Proof.
  intros Hwf Hz Hd Hk Hf Hroom Hv. destruct (keep_data_spec fuel keep_size rb pkts data_ref Hwf Hz Hd Hk Hf) as (rb1 & ref & d & E & W1 & Hdl & Hmv & Hs).
  assert (POLAR_XLOG_PKT_SIZE RbufLen <= polar_ringbuf_free_size rb1) as Hroom1.
  { rewrite (free_size_total rb pkts Hwf) in Hroom. rewrite (free_size_total rb1 _ W1), Hs, total_drop by done. pose proof (off_nonneg pkts (wf_lens rb pkts Hwf) d). lia. }
  destruct (standby_fill rb1 (drop d pkts) W1 Hroom1) as (rb2 & idx & E2 & W2); [rewrite length_drop; lia|].
  unfold polar_standby_xlog_send_queue_push. rewrite E. cbn [obind]. fold main. fold RbufLen. rewrite Z.geb_leb, (proj2 (Z.leb_le _ _)) by done. cbn [negb obind].
  destruct (polar_ringbuf_pkt_reserve rb1 (POLAR_XLOG_PKT_SIZE RbufLen)) as [rb3 idx3]. cbv zeta in E2 |- *. rewrite E2. cbn [obind]. exists rb2, ref, d, idx. by split.
Qed.
End standby.
