(* ===== verification/QueueReplay.v ===== *)
(** * The records a replica takes from the queue

    [polar_xlog_queue_pop_record] and [polar_xlog_queue_remove_outdate] on a
    queue whose unread packets are the records of the WAL, and from that the
    records [polar_xlog_recv_queue_pop] returns, whether it reads WAL files
    or the queue.

    The WAL is a sequence of records; record [i] is from [wal_lo i] to
    [wal_hi i]. *)

From S2P Require Import Prelude BitPos RingBuf RingBytes RingQueue RingSteps RingTheorems QueuePush QueueDecode QueueManager QueueShip.

(** ** One packet *)

Lemma packet_lsns_at rb pkts ref k p : reader_at rb pkts ref k -> pkts !! k = Some p -> pk_sized p = true -> POLAR_XLOG_HEAD_SIZE < pk_len p ->
  packet_lsns rb ref = Done (pk_end_lsn p, u64 (pk_end_lsn p - pk_xlog_len p)).
Proof.
  unfold POLAR_XLOG_HEAD_SIZE. intros HR Hk Hz Hl. unfold packet_lsns. rewrite (read_exact_at rb pkts ref k HR p 0 8 Hk Hz) by lia. cbn [obind].
  by rewrite (read_exact_at rb pkts ref k HR p 8 4 Hk Hz) by lia.
Qed.

Section pop.
Context (wal_segment_size BKPIMAGE_IS_COMPRESSED : Z).
Context (DecodeXLogRecord : decoder -> list Z -> outcome (decoder * bool)) (allocate_recordbuf : Z -> list Z).
(** The record buffer never has less than [bufmin] bytes. *)
Context (bufmin : Z) (Halloc : forall n, n <= Z.of_nat (length (allocate_recordbuf n)) /\ bufmin <= Z.of_nat (length (allocate_recordbuf n))).

Abbreviation pop_record := (polar_xlog_queue_pop_record wal_segment_size BKPIMAGE_IS_COMPRESSED DecodeXLogRecord allocate_recordbuf).
Abbreviation queue_decode := (polar_xlog_queue_decode BKPIMAGE_IS_COMPRESSED).

(** The record in a packet, without the LSNs. *)
Definition pk_record (p : packet) : list Z := drop 12 (pk_body p).

(** The record buffer has the record at its start. *)
Definition buf_with (data buf : list Z) : Prop := exists post, buf = data ++ post.

Lemma update_reader_fields s lo hi n : let s' := polar_xlog_queue_update_reader wal_segment_size s lo hi n in
  xr_ReadRecPtr s' = lo /\ xr_EndRecPtr s' = hi /\ xr_currRecPtr s' = xr_currRecPtr s /\ xr_readRecordBuf s' = xr_readRecordBuf s /\ xr_decoder s' = xr_decoder s.
Proof. unfold polar_xlog_queue_update_reader. by destruct (negb _). Qed.

Lemma pop_record_at rb pkts ref k p s payload : reader_at rb pkts ref k -> pkts !! k = Some p -> pk_sized p = true -> POLAR_XLOG_HEAD_SIZE < pk_len p ->
  exists buf, buf_with (pk_record p) buf /\
    length buf = length (if pk_len p - 12 >? Z.of_nat (length (xr_readRecordBuf s)) then allocate_recordbuf (pk_len p - 12) else xr_readRecordBuf s) /\
    buf = mem_write (if pk_len p - 12 >? Z.of_nat (length (xr_readRecordBuf s)) then allocate_recordbuf (pk_len p - 12) else xr_readRecordBuf s) 0 (pk_record p) /\
    Z.of_nat (length (pk_record p)) = pk_len p - 12 /\
    pop_record rb ref (pk_len p) s payload =
    let! (d, ok) := queue_decode buf (pk_len p - 12) DecodeXLogRecord (xr_decoder s) payload in
    Done (polar_ringbuf_update_ref rb ref,
          set_decoder (polar_xlog_queue_update_reader wal_segment_size (set_record_buf s buf) (u64 (pk_end_lsn p - pk_xlog_len p)) (pk_end_lsn p) (pk_len p - 12)) d, ok).
Proof.
  intros HR Hk Hz Hl. pose proof (body_length rb pkts ref k HR p Hk) as Hb. pose proof (wf_lens rb pkts (ra_wf _ _ _ _ HR) k p Hk) as Hu. unfold is_u32 in Hu. unfold POLAR_XLOG_HEAD_SIZE in Hl.
  assert (Z.of_nat (length (pk_record p)) = pk_len p - 12) as Hr by (unfold pk_record; rewrite length_drop; lia).
  unfold polar_xlog_queue_pop_record. rewrite (packet_lsns_at rb pkts ref k p HR Hk Hz Hl). cbn [obind]. unfold POLAR_XLOG_HEAD_SIZE. rewrite u32_small by (unfold is_u32; lia).
  set (buf := if _ >? _ then _ else _). rewrite (read_exact_at rb pkts ref k HR p 12 (pk_len p - 12) Hk Hz) by lia. cbn [obind].
  assert (mem_read (pk_body p) 12 (pk_len p - 12) = pk_record p) as -> by (unfold mem_read, pk_record; change (Z.to_nat 12) with 12%nat; apply take_ge; rewrite length_drop; lia).
  assert (pk_len p - 12 <= Z.of_nat (length buf)) as Hbuf. { unfold buf. destruct (_ >? _) eqn:E; zbool; [apply Halloc|lia]. }
  exists (mem_write buf 0 (pk_record p)). split; [eexists; unfold mem_write; change (Z.to_nat 0) with 0%nat; by rewrite take_0|].
  split; [|split; [done|]; split; [exact Hr|]].
  2: { cbv zeta. destruct (update_reader_fields (set_record_buf s (mem_write buf 0 (pk_record p))) (u64 (pk_end_lsn p - pk_xlog_len p)) (pk_end_lsn p) (pk_len p - 12)) as (_ & _ & _ & -> & ->). reflexivity. }
  unfold mem_write. change (Z.to_nat 0) with 0%nat. rewrite take_0, Nat.add_0_l, !length_app, length_drop. cbn [length]. lia.
Qed.

(** ** The WAL *)

Context (wal_lo wal_hi : nat -> Z).
Context (Hwal : forall i, 0 <= wal_lo i < wal_hi i /\ wal_hi i <= wal_lo (S i)).

Lemma wal_lt (i j : nat) : (i < j)%nat -> wal_hi i <= wal_lo j.
Proof. induction 1 as [|j _ IH]; [apply Hwal|]. pose proof (Hwal j). lia. Qed.

(** The packet is record [i] and can be decoded. *)
Record packet_of (i : nat) (p : packet) : Prop := {
  po_ready : pk_ready p = true;
  po_type : pk_type p = POLAR_RINGBUF_PKT_WAL_META;
  po_len : POLAR_XLOG_HEAD_SIZE < pk_len p;
  po_end : pk_end_lsn p = wal_hi i /\ wal_hi i < 2 ^ 64;
  po_xlog_len : pk_xlog_len p = wal_hi i - wal_lo i;
  po_decode : forall buf d payload, buf_with (pk_record p) buf -> bufmin <= Z.of_nat (length buf) ->
    exists d' ok, queue_decode buf (pk_len p - 12) DecodeXLogRecord d payload = Done (d', ok)
}.

(** What the reader [ref] has not read yet. *)
Definition unread (rb : polar_ringbuf_data_t) (ref : polar_ringbuf_ref_t) (l : list packet) : Prop := exists pkts k, reader_at rb pkts ref k /\ drop k pkts = l.

(** The unread packets are the records from [a] on. *)
Definition numbered (a : nat) (l : list packet) : Prop := forall n p, l !! n = Some p -> pk_ready p = true -> packet_of (a + n) p.

Lemma numbered_drop n a l : numbered a l -> numbered (a + n) (drop n l).
Proof. intros H m p Hp Hr. rewrite lookup_drop in Hp. rewrite <- Nat.add_assoc. by apply H. Qed.

Lemma numbered_head a p l : numbered a (p :: l) -> pk_ready p = true -> packet_of a p.
Proof. intros H Hr. rewrite <- (Nat.add_0_r a). by apply H. Qed.

Lemma numbered_tail a p l : numbered a (p :: l) -> numbered (S a) l.
Proof. intros H. rewrite <- Nat.add_1_r. exact (numbered_drop 1 a (p :: l) H). Qed.

Section head.
Context (rb : polar_ringbuf_data_t) (ref : polar_ringbuf_ref_t) (p : packet) (l : list packet) (HU : unread rb ref (p :: l)).

Lemma unread_head : exists pkts k, reader_at rb pkts ref k /\ pkts !! k = Some p /\ drop (S k) pkts = l.
Proof.
  destruct HU as (pkts & k & HR & Hd). exists pkts, k. split; [done|]. assert (pkts !! k = Some p) as Hp by (pose proof (lookup_drop pkts k 0) as E; rewrite Hd, Nat.add_0_r in E; by rewrite <- E).
  split; [done|]. rewrite (drop_S pkts p k Hp) in Hd. by injection Hd.
Qed.

Context (i : nat) (Hp : packet_of i p).

Lemma head_lsns : packet_lsns rb ref = Done (wal_hi i, wal_lo i).
Proof.
  destruct unread_head as (pkts & k & HR & Hk & _). assert (pk_sized p = true) as Hz by (apply (qw_pkts _ _ (ra_wf _ _ _ _ HR) k p Hk), Hp).
  destruct (po_end _ _ Hp) as [Pe Pb]. rewrite (packet_lsns_at rb pkts ref k p HR Hk Hz (po_len _ _ Hp)), Pe, (po_xlog_len _ _ Hp). pose proof (Hwal i).
  rewrite u64_small by (unfold is_u64; lia). do 2 f_equal. lia.
Qed.

Lemma head_ready : ready_pkt rb ref = Some (POLAR_RINGBUF_PKT_WAL_META, pk_len p).
Proof. destruct unread_head as (pkts & k & HR & Hk & _). rewrite (ready_pkt_some rb pkts ref k HR p Hk (po_ready _ _ Hp)); rewrite (po_type _ _ Hp); done. Qed.

Lemma head_step : unread (polar_ringbuf_update_ref rb ref) ref l.
Proof.
  destruct unread_head as (pkts & k & HR & Hk & Hd). exists pkts, (S k). split; [|done]. apply (reader_step rb pkts ref k HR p Hk). apply (qw_pkts _ _ (ra_wf _ _ _ _ HR) k p Hk), Hp.
Qed.
End head.

Lemma head_not_ready rb ref l : unread rb ref l -> (forall p, head l = Some p -> pk_ready p = false) -> ready_pkt rb ref = None.
Proof.
  intros (pkts & k & HR & Hd) Hn. apply (ready_pkt_none rb pkts ref k HR). intros p Hp. apply Hn. rewrite <- Hd. rewrite (drop_S pkts p k Hp). done.
Qed.

Lemma head_cases (l : list packet) : (forall p, head l = Some p -> pk_ready p = false) \/ exists p l', l = p :: l' /\ pk_ready p = true.
Proof. destruct l as [|p l]; [by left|]. destruct (pk_ready p) eqn:E; [right; eauto|left]. by intros ? [= <-]. Qed.

(** Packets of records before the end of record [j] are dropped.  The result
    is the start of the packet that is found or, when there is none, of the
    last one that was dropped. *)
Lemma remove_outdate_spec j s l : xr_EndRecPtr s = wal_hi j -> forall fuel rb ref p a,
  unread rb ref (p :: l) -> numbered a (p :: l) -> pk_ready p = true -> (length l < fuel)%nat ->
  exists rb' n i, polar_xlog_queue_remove_outdate fuel rb ref s = Done (rb', wal_lo i) /\ unread rb' ref (drop n (p :: l)) /\ (n <= S (length l))%nat /\
    ((i = a + n)%nat /\ (j < i)%nat /\ (0 < n -> i = S j)%nat /\ (exists q, (p :: l) !! n = Some q /\ packet_of i q) \/ (i <= j)%nat /\ (a + n <= S j)%nat /\ forall q, (p :: l) !! n = Some q -> pk_ready q = false).
Proof.
  intros Hs. induction l as [|p' l IH]; intros fuel rb ref p a HU HN Hr Hf; (destruct fuel as [|fuel]; [cbn in Hf; lia|]); pose proof (numbered_head a p _ HN Hr) as Hp.
  all: cbn [polar_xlog_queue_remove_outdate]; rewrite (head_lsns rb ref p _ HU a Hp); cbn [obind]; rewrite Hs.
  all: destruct (decide (a <= j)%nat) as [Hj|Hj];
    [assert (wal_lo a < wal_hi j) as Hlt by (pose proof (Hwal a); pose proof (Hwal j); destruct (decide (a = j)) as [->|]; [lia|]; pose proof (wal_lt a j ltac:(lia)); lia);
     rewrite (proj2 (Z.ltb_lt _ _)) by done; pose proof (head_step rb ref p _ HU a Hp) as HU'
    |pose proof (wal_lt j a ltac:(lia)); rewrite (proj2 (Z.ltb_ge _ _)) by lia; exists rb, 0%nat, a; rewrite drop_0; split; [done|]; split; [done|]; split; [lia|]; left;
     split; [lia|]; split; [lia|]; split; [lia|]; by exists p].
  - rewrite (head_not_ready _ ref [] HU') by done. exists (polar_ringbuf_update_ref rb ref), 1%nat, a. split; [done|]. split; [done|]. split; [lia|]. right. split; [done|]. by split; [lia|].
  - destruct (pk_ready p') eqn:Hr'.
    + pose proof (numbered_tail _ _ _ HN) as HN'. rewrite (head_ready _ ref p' l HU' (S a) (numbered_head _ _ _ HN' Hr')). rewrite Z.eqb_refl.
      destruct (IH fuel _ ref p' (S a) HU' HN' Hr') as (rb' & n & i & E & H1 & H2 & H3); [cbn in Hf; lia|]. exists rb', (S n), i. split; [exact E|]. split; [done|]. split; [cbn; lia|].
      destruct H3 as [(H3 & H4 & H5 & H6)|(H3 & H4 & H5)]; [left|right]; (split; [lia|]); (split; [lia|]); [|done]. split; [|done]. intros _. destruct n; [lia|]. apply H5. lia.
    + rewrite (head_not_ready _ ref _ HU') by (intros q [= <-]; done). exists (polar_ringbuf_update_ref rb ref), 1%nat, a. split; [done|]. split; [done|]. split; [cbn; lia|]. right. split; [done|].
      split; [lia|]. by intros q [= <-].
Qed.

(** ** Looking for a start *)

Lemma check_loop_spec start l : forall fuel rb ref a ret, unread rb ref l -> numbered a l -> (length l < fuel)%nat ->
  exists rb' n ret', check_loop fuel rb ref start ret = Done (rb', ret') /\ unread rb' ref (drop n l) /\ (n <= length l)%nat /\ (forall i, (i < n)%nat -> wal_lo (a + i) < start) /\
    (forall p, l !! n = Some p -> pk_ready p = true -> start <= wal_lo (a + n)) /\
    (ret' = true -> ret = true \/ (0 < n)%nat \/ exists p, l !! 0%nat = Some p /\ pk_ready p = true /\ wal_lo a = start) /\ (ret' = false -> ret = false /\ n = 0%nat).
Proof.
  induction l as [|p l IH]; intros fuel rb ref a ret HU HN Hf.
  { exists rb, 0%nat, ret. destruct fuel as [|fuel]; [cbn in Hf; lia|]. cbn [check_loop]. rewrite (head_not_ready rb ref [] HU) by done. split; [done|]. split; [done|]. split; [lia|]. split; [lia|].
    split; [done|]. split; [by left|done]. }
  destruct fuel as [|fuel]; [cbn in Hf; lia|]. cbn [check_loop]. destruct (pk_ready p) eqn:Hr.
  2: { rewrite (head_not_ready rb ref (p :: l) HU) by (by intros ? [= <-]). exists rb, 0%nat, ret. split; [done|]. split; [done|]. split; [lia|]. split; [lia|].
       split; [intros q [= <-]; congruence|]. split; [by left|done]. }
  pose proof (numbered_head _ _ _ HN Hr) as Hp. rewrite (head_ready rb ref p l HU a Hp), Z.eqb_refl. pose proof (head_lsns rb ref p l HU a Hp) as Hlsn. unfold packet_lsns in Hlsn.
  destruct (read_exact rb ref 0 8) as [lsn|]; [|done]. cbn [obind] in Hlsn |- *. destruct (read_exact rb ref 8 4) as [xlen|]; [|done]. cbn [obind] in Hlsn |- *. injection Hlsn as H1 H2. rewrite H2.
  destruct (Z.geb_spec (wal_lo a) start) as [Hge|Hlt].
  - exists rb, 0%nat, (if wal_lo a <=? start then true else ret). rewrite Nat.add_0_r. split; [done|]. split; [done|]. split; [lia|]. split; [lia|]. split; [intros; lia|]. split.
    2: by destruct (_ <=? _).
    destruct (Z.leb_spec (wal_lo a) start); [|by left]. intros _. right. right. exists p. split; [done|]. split; [done|]. lia.
  - rewrite (proj2 (Z.leb_le _ _)) by lia. destruct (IH fuel (polar_ringbuf_update_ref rb ref) ref (S a) true (head_step rb ref p l HU a Hp) (numbered_tail _ _ _ HN)) as (rb' & n & ret' & E & I1 & I2 & I3 & I4 & I5 & I6).
    { cbn in Hf. lia. }
    exists rb', (S n), ret'. rewrite E. split; [done|]. split; [done|]. split; [cbn; lia|].
    split; [intros [|i] Hi; [by rewrite Nat.add_0_r|rewrite <- Nat.add_succ_comm; apply I3; lia]|]. split; [intros q Hq Hrq; rewrite <- Nat.add_succ_comm; by apply (I4 q)|].
    split; [intros _; right; left; lia|]. intros Hf'. by destruct (I6 Hf').
Qed.

Lemma unread_set_strong rb ref l b : unread rb ref l -> unread (set_strong rb (ref_slot ref) b) ref l /\ RINGBUF_REF_MATCH rb ref = true.
Proof.
  intros (pkts & k & [Hwf Hm Hn (K1 & K2 & K3)] & Hd). split; [|done]. exists pkts, k. split; [|done]. pose proof (ref_match_occ rb pkts Hwf ref Hm Hn) as Ho.
  assert (slot_at (set_strong rb (ref_slot ref) b) (ref_slot ref) = mk_slot b (s_pread (slot_at rb (ref_slot ref))) (s_visit (slot_at rb (ref_slot ref))) (s_ref_num (slot_at rb (ref_slot ref)))
    (s_ref_name (slot_at rb (ref_slot ref)))) as Hs by (unfold slot_at at 1, set_strong; cbn [with_slot rb_slot]; rewrite aget_aset_eq; [done|rewrite (wf_slot_len rb pkts Hwf); apply Ho]).
  split; [by apply wf_set_strong|by unfold RINGBUF_REF_MATCH in *; rewrite Hs|done|]. split; [done|]. by rewrite Hs.
Qed.

Lemma queue_check_spec fuel start rb ref l a : start <> 0 -> unread rb ref l -> numbered a l -> (length l < fuel)%nat ->
  exists rb' n found, polar_xlog_send_queue_check fuel rb ref start = Done (rb', ref, found) /\ unread rb' ref (drop n l) /\ (n <= length l)%nat /\
    (forall i, (i < n)%nat -> wal_lo (a + i) < start) /\ (forall p, l !! n = Some p -> pk_ready p = true -> start <= wal_lo (a + n)) /\
    (found = true -> (0 < n)%nat \/ wal_lo a = start) /\ (found = false -> n = 0%nat).
Proof.
  intros H0 HU HN Hf. unfold polar_xlog_send_queue_check. rewrite (proj2 (Z.eqb_neq _ _)) by done. cbn [check_get_ref]. destruct (ref_strong ref) eqn:Es; cbn [obind].
  - destruct (check_loop_spec start l fuel rb ref a false HU HN Hf) as (rb' & n & f & -> & C1 & C2 & C3 & C4 & C5 & C6). cbn [obind]. rewrite Es. exists rb', n, f.
    split; [done|]. split; [done|]. split; [done|]. split; [done|].
    split; [done|]. split; [|by intros E; destruct (C6 E)]. intros E. destruct (C5 E) as [|[?|(p & _ & _ & ?)]]; [done|by left|by right].
  - destruct (unread_set_strong rb ref l true HU) as [HU' Hm]. unfold polar_ringbuf_get_ref. rewrite Hm. cbn [obind].
    destruct (check_loop_spec start l fuel _ ref a false HU' HN Hf) as (rb' & n & f & -> & C1 & C2 & C3 & C4 & C5 & C6). cbn [obind].
    destruct (unread_set_strong rb' ref _ false C1) as [C1' Hm']. unfold polar_ringbuf_clear_ref. rewrite Hm', Es. eexists _, n, f. split; [reflexivity|].
    split; [done|]. split; [done|]. split; [done|]. split; [done|]. split; [|by intros E; destruct (C6 E)]. intros E. destruct (C5 E) as [|[?|(p & _ & _ & ?)]]; [done|by left|by right].
Qed.

(** ** One call of [polar_xlog_queue_ref_pop] *)

Abbreviation ref_pop := (polar_xlog_queue_ref_pop wal_segment_size BKPIMAGE_IS_COMPRESSED DecodeXLogRecord allocate_recordbuf).

(** The reader is behind record [j]. *)
Definition reader_ok (s : reader) : Prop := bufmin <= Z.of_nat (length (xr_readRecordBuf s)).

(** Reading files that have the records up to [m]: the record that follows
    the last one is read if it is there. *)
Definition reads_files (m : nat) (read : reader -> reader * bool) : Prop :=
  forall s j, xr_EndRecPtr s = wal_hi j -> reader_ok s ->
    let '(s', found) := read s in
    reader_ok s' /\ xr_currRecPtr s' = wal_hi j /\ found = bool_decide (S j <= m)%nat /\
    xr_EndRecPtr s' = (if found then wal_hi (S j) else wal_hi j) /\ (found = true -> xr_ReadRecPtr s' = wal_lo (S j)).

Lemma head_pkt rb ref (t : Z * Z) :
  (t = if polar_ringbuf_avail rb ref >? 0 then polar_ringbuf_next_ready_pkt rb ref else (POLAR_RINGBUF_PKT_INVALID_TYPE, 0)) ->
  match ready_pkt rb ref with Some r => t = r | None => t.1 = POLAR_RINGBUF_PKT_INVALID_TYPE end.
Proof. intros ->. unfold ready_pkt. destruct (_ >? 0); [|done]. destruct (polar_ringbuf_next_ready_pkt rb ref) as [ty n]. destruct (ty =? _) eqn:E; zbool; [exact E|done]. Qed.

(** The queue is read. *)
Lemma queue_pop fuel read rb ref p l a s payload : unread rb ref (p :: l) -> packet_of a p -> reader_ok s ->
  exists rb' s', ref_pop fuel read rb ref s true payload = Done (rb', s', true, true) /\ unread rb' ref l /\ reader_ok s' /\
    xr_ReadRecPtr s' = wal_lo a /\ xr_EndRecPtr s' = wal_hi a /\ xr_currRecPtr s' = xr_currRecPtr s.
Proof.
  intros HU Hp Hs. unfold polar_xlog_queue_ref_pop. set (t := if polar_ringbuf_avail rb ref >? 0 then _ else _). pose proof (head_pkt rb ref t eq_refl) as Ht. rewrite (head_ready rb ref p l HU a Hp) in Ht.
  rewrite Ht, Z.eqb_refl. cbn [negb]. pose proof (head_step rb ref p l HU a Hp) as HU'. destruct (unread_head rb ref p l HU) as (pkts & k & HR & Hk & _).
  assert (pk_sized p = true) as Hz by (apply (qw_pkts _ _ (ra_wf _ _ _ _ HR) k p Hk), Hp).
  destruct (pop_record_at rb pkts ref k p s payload HR Hk Hz (po_len _ _ Hp)) as (buf & B1 & B2 & _ & _ & ->).
  assert (bufmin <= Z.of_nat (length buf)) as Hb by (rewrite B2; destruct (pk_len p - 12 >? Z.of_nat (length (xr_readRecordBuf s))); [apply Halloc|apply Hs]).
  destruct (po_decode _ _ Hp buf (xr_decoder s) payload B1 Hb) as (d & ok & ->). cbn [obind]. eexists _, _. split; [reflexivity|]. split; [done|].
  destruct (po_end _ _ Hp) as [Pe Pb]. rewrite Pe, (po_xlog_len _ _ Hp). pose proof (Hwal a). rewrite u64_small by (unfold is_u64; lia). replace (wal_hi a - (wal_hi a - wal_lo a)) with (wal_lo a) by lia.
  destruct (update_reader_fields (set_record_buf s buf) (wal_lo a) (wal_hi a) (pk_len p - 12)) as (F1 & F2 & F3 & F4 & F5). unfold set_decoder, reader_ok.
  cbn [xr_ReadRecPtr xr_EndRecPtr xr_currRecPtr xr_readRecordBuf]. rewrite F1, F2, F3, F4. done.
Qed.

Lemma queue_pop_none fuel read rb ref l s payload : unread rb ref l -> (forall p, head l = Some p -> pk_ready p = false) -> ref_pop fuel read rb ref s true payload = Done (rb, s, true, false).
Proof.
  intros HU Hn. unfold polar_xlog_queue_ref_pop. set (t := if polar_ringbuf_avail rb ref >? 0 then _ else _). pose proof (head_pkt rb ref t eq_refl) as Ht. rewrite (head_not_ready rb ref l HU Hn) in Ht.
  destruct t as [ty n]. cbn [fst] in Ht. by rewrite Ht.
Qed.

(** The files are read, until the record read is the one in the queue. *)
Lemma file_pop fuel read rb ref l a j s payload s' found :
  unread rb ref l -> numbered a l -> (length l < fuel)%nat -> xr_EndRecPtr s = wal_hi j -> read s = (s', found) -> (found = true -> xr_ReadRecPtr s' = wal_lo (S j)) ->
  exists rb' n catch_up, ref_pop fuel read rb ref s false payload = Done (rb', s', catch_up, found) /\ unread rb' ref (drop n l) /\ (n <= length l)%nat /\
    (catch_up = true -> found = true /\ (a + n = S (S j))%nat).
Proof.
  intros HU HN Hf Hs Hr Hrec. unfold polar_xlog_queue_ref_pop. set (t := if polar_ringbuf_avail rb ref >? 0 then _ else _). pose proof (head_pkt rb ref t eq_refl) as Ht.
  destruct (head_cases l) as [Hno|(p & l' & -> & Hrp)].
  { rewrite (head_not_ready rb ref l HU Hno) in Ht.
       destruct t as [ty n]. cbn [fst] in Ht. rewrite Ht. cbn [Z.eqb negb]. change (POLAR_RINGBUF_PKT_INVALID_TYPE =? _) with false at 1 2. rewrite Z.eqb_refl. cbn [negb]. rewrite Hr.
       exists rb, 0%nat, false. rewrite drop_0. split; [done|]. split; [done|]. split; [lia|done]. }
  rewrite (head_ready rb ref p l' HU a (numbered_head _ _ _ HN Hrp)) in Ht. rewrite Ht, Z.eqb_refl. cbn [negb].
  destruct (remove_outdate_spec j s l' Hs fuel rb ref p a HU HN Hrp) as (rb1 & n & i & -> & H1 & H2 & H3); [cbn in Hf; lia|]. cbn [obind]. rewrite Hr.
  destruct (found && (xr_ReadRecPtr s' =? wal_lo i)) eqn:E; [|exists rb1, n, false; cbn [length]; done].
  apply andb_true_iff in E as [-> E]. zbool. rewrite (Hrec eq_refl) in E. assert (i = S j) as Hi.
  { destruct (decide (i < S j)%nat) as [Hlt|]; [pose proof (wal_lt i (S j) Hlt); pose proof (Hwal i); lia|]. destruct (decide (S j < i)%nat) as [Hlt|]; [|lia].
    pose proof (wal_lt (S j) i Hlt). pose proof (Hwal (S j)). lia. }
  destruct H3 as [(H3 & H4 & H5 & q & Hq & Hpq)|(H3 & _)]; [|lia]. rewrite (drop_S _ q n Hq) in H1. exists (polar_ringbuf_update_ref rb1 ref), (S n), true.
  split; [done|]. split; [by apply (head_step rb1 ref q _ H1 i)|]. split; [|intros _; split; [done|lia]]. apply lookup_lt_Some in Hq. cbn [length] in *. lia.
Qed.

(** ** The loop *)

Abbreviation pop_loop := (recv_pop_loop wal_segment_size BKPIMAGE_IS_COMPRESSED DecodeXLogRecord allocate_recordbuf).

Section loop.
Context (fuel : nat) (ref : polar_ringbuf_ref_t).

(** While the process waits packets are added; a record is in the files
    before it is in the queue. *)
Definition wait_adds (m m' : nat) (meanwhile : polar_ringbuf_data_t -> outcome polar_ringbuf_data_t) : Prop :=
  forall rb l a, unread rb ref l -> numbered a l -> (a + length l <= S m)%nat ->
    exists rb' l', meanwhile rb = Done rb' /\ unread rb' ref l' /\ numbered a l' /\ (a + length l' <= S m')%nat /\ (length l' < fuel)%nat.

(** Rounds without promotion; the files have the records up to [m] in the
    first one. *)
Fixpoint rounds_ok (m : nat) (rounds : list recv_round) : Prop :=
  match rounds with
  | [] => True
  | r :: rounds => rr_triggered r = false /\ reads_files m (rr_read r) /\ exists m', (m <= m')%nat /\ wait_adds m m' (rr_meanwhile r) /\ rounds_ok m' rounds
  end.

(** Between two calls: records up to [j] were returned, the unread packets
    are the records from [a] on, and when the queue is read nothing is
    missing in between. *)
Record position (j a : nat) (l : list packet) (rb : polar_ringbuf_data_t) (s : reader) (catch_up : bool) : Prop := {
  ps_unread : unread rb ref l;
  ps_numbered : numbered a l;
  ps_fuel : (length l < fuel)%nat;
  ps_reader : reader_ok s;
  ps_end : xr_EndRecPtr s = wal_hi j;
  ps_next : catch_up = true -> (a <= S j)%nat
}.

(** Record [S j] is returned. *)
Definition returned (j : nat) (res : polar_ringbuf_data_t * option polar_ringbuf_ref_t * reader * bool * bool) : Prop :=
  let '(rb, ref', s, catch_up, found) := res in
  found = true /\ ref' = Some ref /\ xr_ReadRecPtr s = wal_lo (S j) /\ exists a l, position (S j) a l rb s catch_up.

Lemma fuel_drop (l : list packet) n : (length l < fuel)%nat -> (length (drop n l) < fuel)%nat.
Proof. rewrite length_drop. lia. Qed.

(** A round that reads the queue and finds record [a]. *)
Lemma queue_round j a p l r rounds rb s : unread rb ref (p :: l) -> numbered a (p :: l) -> pk_ready p = true -> (length (p :: l) < fuel)%nat -> reader_ok s ->
  xr_currRecPtr s = wal_hi j -> (a <= S j)%nat ->
  if decide (a = S j) then exists res, pop_loop (r :: rounds) fuel rb ref s true = Done res /\ returned j res
  else exists rb' s', pop_loop (r :: rounds) fuel rb ref s true = pop_loop rounds fuel rb' ref s' true /\ unread rb' ref l /\ numbered (S a) l /\ reader_ok s' /\ xr_currRecPtr s' = wal_hi j.
Proof.
  intros HU HN Hr Hf Hs Hc Ha. cbn [recv_pop_loop].
  destruct (queue_pop fuel (rr_read r) rb ref p l a s true HU (numbered_head _ _ _ HN Hr) Hs) as (rb' & s' & -> & H1 & H2 & H3 & H4 & H5). cbn [obind]. rewrite H3, H5, Hc. cbn [andb].
  pose proof (numbered_tail _ _ _ HN) as HN'. destruct (decide (a = S j)) as [->|Hne].
  - pose proof (Hwal j). rewrite (proj2 (Z.ltb_ge _ _)) by lia. cbn [negb]. eexists. split; [reflexivity|]. split; [done|]. split; [done|]. split; [done|].
    exists (S (S j)), l. split; [done|done| |done|done|done]. cbn [length] in Hf. lia.
  - pose proof (wal_lt a (S j) ltac:(lia)). pose proof (Hwal a). assert (wal_lo a < wal_hi j) as Hlt by (pose proof (Hwal j); destruct (decide (a = j)) as [->|]; [lia|]; pose proof (wal_lt a j ltac:(lia)); lia).
    rewrite (proj2 (Z.ltb_lt _ _)) by done. cbn [negb]. exists rb', s'. split; [done|]. split; [done|]. split; [done|]. split; [done|]. by rewrite H5.
Qed.

(** A round that reads files. *)
Lemma file_source_round j a l r rounds rb s m : unread rb ref l -> numbered a l -> (length l < fuel)%nat -> reader_ok s -> xr_EndRecPtr s = wal_hi j -> reads_files m (rr_read r) ->
  if decide (S j <= m)%nat then exists res, pop_loop (r :: rounds) fuel rb ref s false = Done res /\ returned j res
  else exists rb' s' n, unread rb' ref (drop n l) /\ (n <= length l)%nat /\ reader_ok s' /\ xr_currRecPtr s' = wal_hi j /\ xr_EndRecPtr s' = wal_hi j /\
    pop_loop (r :: rounds) fuel rb ref s false =
      if rr_triggered r then Done ((polar_ringbuf_release_ref rb' ref).1, None, s', false, false)
      else let! rb := rr_meanwhile r rb' in pop_loop rounds fuel rb ref s' (rr_streaming r).
Proof.
  intros HU HN Hf Hs He Hread. pose proof (Hread s j He Hs) as Hrd. destruct (rr_read r s) as [s' found] eqn:Er. destruct Hrd as (D1 & D2 & D3 & D4 & D5).
  destruct (file_pop fuel (rr_read r) rb ref l a j s true s' found HU HN Hf He Er D5) as (rb' & n & cu & Ep & H1 & H2 & H3). cbn [recv_pop_loop]. rewrite Ep. cbn [obind].
  destruct (decide (S j <= m)%nat) as [Hm|Hm].
  - rewrite bool_decide_eq_true_2 in D3 by done. subst found. rewrite (D5 eq_refl), D2. pose proof (Hwal j). rewrite (proj2 (Z.ltb_ge _ _)) by lia. cbn [andb negb].
    eexists. split; [reflexivity|]. split; [done|]. split; [done|]. split; [by apply D5|]. exists (a + n)%nat, (drop n l).
    split; [done|by apply numbered_drop|by apply fuel_drop|done|done|]. intros ->. destruct (H3 eq_refl). lia.
  - rewrite bool_decide_eq_false_2 in D3 by done. subst found. cbn [andb]. exists rb', s', n. split_and!; [done|done|done|done|done|].
    destruct cu; [by destruct (H3 eq_refl)|]. destruct (rr_triggered r); [done|]. by destruct (rr_streaming r).
Qed.

(** Whatever happens meanwhile, a record that is returned is the next one. *)
Lemma recv_loop_safe j rounds : forall m a l rb s (catch_up : bool), rounds_ok m rounds -> unread rb ref l -> numbered a l -> (length l < fuel)%nat -> (a + length l <= S m)%nat -> reader_ok s ->
  xr_currRecPtr s = wal_hi j -> (if catch_up then (a <= S j)%nat else xr_EndRecPtr s = wal_hi j) ->
  match pop_loop rounds fuel rb ref s catch_up with Done res => returned j res | Fault e => e = OUT_OF_FUEL end.
Proof.
  induction rounds as [|r rounds IH]; intros m a l rb s catch_up HO HU HN Hf Hm Hs Hc Hp; [done|]. cbn [rounds_ok] in HO. destruct HO as (O1 & O2 & m' & O3 & O4 & O5). destruct catch_up.
  - destruct (head_cases l) as [Hno|(p & l' & -> & Hr)].
    + cbn [recv_pop_loop]. rewrite (queue_pop_none fuel (rr_read r) rb ref l s true HU Hno). cbn [obind andb]. rewrite O1.
      destruct (O4 rb l a HU HN Hm) as (rb' & l' & -> & W1 & W2 & W3 & W4). cbn [obind]. replace (if rr_streaming r then true else true) with true by by destruct (rr_streaming r).
      by apply (IH m' a l').
    + pose proof (queue_round j a p l' r rounds rb s HU HN Hr Hf Hs Hc Hp) as HQ. destruct (decide (a = S j)) as [->|Hne]; [destruct HQ as (res & -> & HQ); exact HQ|].
      destruct HQ as (rb' & s' & -> & Q1 & Q2 & Q3 & Q4). cbn [length] in *. apply (IH m' (S a) l'); try done; lia.
  - pose proof (file_source_round j a l r rounds rb s m HU HN Hf Hs Hp O2) as HQ. destruct (decide (S j <= m)%nat) as [Hj|Hj]; [destruct HQ as (res & -> & HQ); exact HQ|].
    destruct HQ as (rb' & s' & n & Q1 & Q2 & Q3 & Q4 & Q5 & ->). rewrite O1. assert (a + n + length (drop n l) <= S m)%nat as Hn by (rewrite length_drop; lia).
    destruct (O4 rb' (drop n l) (a + n)%nat Q1 (numbered_drop _ _ _ HN) Hn) as (rb2 & l2 & -> & W1 & W2 & W3 & W4). cbn [obind].
    apply (IH m' (a + n)%nat l2); try done. destruct (rr_streaming r); [lia|done].
Qed.

(** Records that are in the queue are found in it. *)
Lemma recv_loop_progress j n : forall rounds a l rb s, unread rb ref l -> numbered a l -> (length l < fuel)%nat -> reader_ok s -> xr_currRecPtr s = wal_hi j ->
  (a + n = S j)%nat -> (n < length rounds)%nat -> (n < length l)%nat -> Forall (fun p => pk_ready p = true) (take (S n) l) ->
  exists res, pop_loop rounds fuel rb ref s true = Done res /\ returned j res.
Proof.
  induction n as [|n IH]; intros rounds a l rb s HU HN Hf Hs Hc Ha Hn Hl Hr; (destruct rounds as [|r rounds]; [cbn in Hn; lia|]); (destruct l as [|p l]; [cbn in Hl; lia|]).
  all: cbn [take] in Hr; inversion_clear Hr as [|? ? Hrp Hr']; pose proof (queue_round j a p l r rounds rb s HU HN Hrp Hf Hs Hc ltac:(lia)) as HQ.
  - rewrite decide_True in HQ by lia. exact HQ.
  - rewrite decide_False in HQ by lia. destruct HQ as (rb' & s' & -> & Q1 & Q2 & Q3 & Q4). cbn [length] in *. apply (IH rounds (S a) l); try done; lia.
Qed.

(** *** Promotion *)

(** The request to read files, as a packet. *)
Definition storage_pkt (idx : Z) : packet := mk_pkt idx 0 true (Z.lor POLAR_RINGBUF_PKT_WAL_STORAGE_BEGIN POLAR_RINGBUF_PKT_READY) [].

Lemma reader_keep rb pkts k rb' pkts' : reader_at rb pkts ref k -> queue_wf rb' pkts' -> rb_slot rb' = rb_slot rb -> rb_min_visit rb' = rb_min_visit rb -> reader_at rb' pkts' ref k.
Proof.
  intros [Hwf Hm Hn (Hk & Hv & _)] Hw Hs Hmv. assert (RINGBUF_REF_MATCH rb' ref = true) as Hm' by (unfold RINGBUF_REF_MATCH, slot_at in *; by rewrite Hs).
  split; [done|done|done|]. destruct (qw_refs _ _ Hw _ (ref_match_occ rb' pkts' Hw ref Hm' Hn)) as (k' & Hat). enough (k' = k) as <- by done.
  destruct Hat as (_ & Hv' & _). unfold slot_at in *. rewrite Hs, Hmv in Hv'. lia.
Qed.

Lemma storage_begin_spec rb pkts : queue_wf rb pkts -> POLAR_RINGBUF_PKTHDRSIZE <= polar_ringbuf_free_size rb -> rb_min_visit rb + Z.of_nat (length pkts) + 1 < UINT64_MAX -> (0 < fuel)%nat ->
  exists rb' idx, polar_xlog_recv_queue_push_storage_begin fuel Done rb = Done rb' /\ queue_wf rb' (pkts ++ [storage_pkt idx]) /\ rb_slot rb' = rb_slot rb /\ rb_min_visit rb' = rb_min_visit rb.
Proof.
  intros Hwf Hroom Hv Hf. unfold polar_xlog_recv_queue_push_storage_begin. destruct fuel as [|f]; [lia|]. cbn [storage_begin_wait]. rewrite (proj2 (Z.ltb_ge _ _)) by done. cbn [obind].
  change POLAR_RINGBUF_PKTHDRSIZE with (POLAR_RINGBUF_PKT_SIZE 0) in *. destruct (polar_ringbuf_pkt_reserve rb (POLAR_RINGBUF_PKT_SIZE 0)) as [rb1 idx] eqn:Hr.
  destruct (wf_pkt_reserve rb pkts Hwf 0 rb1 idx) as [Hidx Hw1]; [by unfold is_u32|done..|]. set (p1 := mk_pkt _ _ _ _ _) in Hw1.
  assert (rb_slot rb1 = rb_slot rb /\ rb_min_visit rb1 = rb_min_visit rb) as [S1 S2] by by injection Hr as <- <-.
  assert (forall p, (pkts ++ [p]) !! length pkts = Some p) as Hlk by (intros; by rewrite lookup_app_r, Nat.sub_diag by lia).
  pose proof (wf_set_pkt_length rb1 _ Hw1 (length pkts) p1 (Hlk p1) eq_refl) as Hw2. rewrite insert_app_r_alt, Nat.sub_diag in Hw2 by lia. cbn [list_insert insert p1 pk_idx pk_len pk_flag pk_body] in Hw2.
  pose proof (wf_set_pkt_flag _ _ Hw2 (length pkts) _ (Z.lor POLAR_RINGBUF_PKT_WAL_STORAGE_BEGIN POLAR_RINGBUF_PKT_READY) (Hlk _) eq_refl) as Hw3.
  rewrite insert_app_r_alt, Nat.sub_diag in Hw3 by lia. cbn [list_insert insert pk_idx pk_len pk_flag pk_body] in Hw3. eexists _, idx. split; [reflexivity|]. split; [|by rewrite <- S1, <- S2; split; apply copy_to_ring_fields].
  exact Hw3.
Qed.

(** The request is taken from the queue and files are read. *)
Lemma storage_pop read rb idx s payload : unread rb ref [storage_pkt idx] ->
  exists rb', ref_pop fuel read rb ref s true payload = Done (rb', (read s).1, false, (read s).2) /\ unread rb' ref [].
Proof.
  intros HU. destruct (unread_head rb ref _ _ HU) as (pkts & k & HR & Hk & Hd). pose proof (ready_pkt_some rb pkts ref k HR _ Hk eq_refl ltac:(done)) as Hrp.
  unfold polar_xlog_queue_ref_pop. set (t := if polar_ringbuf_avail rb ref >? 0 then _ else _). pose proof (head_pkt rb ref t eq_refl) as Ht. rewrite Hrp in Ht. rewrite Ht.
  change (pk_type (storage_pkt idx)) with POLAR_RINGBUF_PKT_WAL_STORAGE_BEGIN. change (POLAR_RINGBUF_PKT_WAL_STORAGE_BEGIN =? POLAR_RINGBUF_PKT_WAL_META) with false. cbn [Z.eqb]. rewrite Z.eqb_refl.
  destruct (read s) as [s' found]. eexists. split; [reflexivity|]. exists pkts, (S k). split; [|done]. by apply (reader_step rb pkts ref k HR _ Hk).
Qed.

Lemma promotion_spec j a r1 r2 rounds m rb pkts s : reader_at rb pkts ref (length pkts) -> position j a [] rb s true -> xr_currRecPtr s = wal_hi j ->
  POLAR_RINGBUF_PKTHDRSIZE <= polar_ringbuf_free_size rb -> rb_min_visit rb + Z.of_nat (length pkts) + 1 < UINT64_MAX ->
  rr_triggered r1 = true -> rr_triggered r2 = true -> reads_files m (rr_read r2) ->
  if decide (S j <= m)%nat then exists res, pop_loop (r1 :: r2 :: rounds) fuel rb ref s true = Done res /\ returned j res
  else exists rb' s', pop_loop (r1 :: r2 :: rounds) fuel rb ref s true = Done ((polar_ringbuf_release_ref rb' ref).1, None, s', false, false) /\ unread rb' ref [] /\ xr_EndRecPtr s' = wal_hi j.
Proof.
  intros HR [P1 P2 P3 P4 P5 P6] Hc Hroom Hv T1 T2 Hread. cbn [length] in P3.
  destruct (storage_begin_spec rb pkts (ra_wf _ _ _ _ HR) Hroom Hv P3) as (rb1 & idx & E1 & W1 & W2 & W3).
  assert (unread rb1 ref [storage_pkt idx]) as HU1 by (eexists _, _; split; [by apply (reader_keep rb pkts (length pkts))|apply drop_app_length]).
  pose proof (Hread s j P5 P4) as Hrd. destruct (storage_pop (rr_read r2) rb1 idx s true HU1) as (rb2 & E2 & HU2).
  cbn [recv_pop_loop]. rewrite (queue_pop_none fuel (rr_read r1) rb ref [] s true P1) by done. cbn [obind andb]. rewrite T1, E1. cbn [obind]. rewrite E2. cbn [obind].
  destruct (rr_read r2 s) as [s' found]. cbn [fst snd]. destruct Hrd as (D1 & D2 & D3 & D4 & D5). destruct (decide (S j <= m)%nat) as [Hm|Hm].
  - rewrite bool_decide_eq_true_2 in D3 by done. subst found. rewrite (D5 eq_refl), D2. pose proof (Hwal j). rewrite (proj2 (Z.ltb_ge _ _)) by lia. cbn [andb negb].
    eexists. split; [reflexivity|]. split; [done|]. split; [done|]. split; [by apply D5|]. exists a, []. by split.
  - rewrite bool_decide_eq_false_2 in D3 by done. subst found. cbn [andb]. rewrite T2. exists rb2, s'. done.
Qed.
End loop.
End pop.
