(* ===== verification/QueueTheorems.v ===== *)
(** * What the WAL queue guarantees

    From the record that is put in the queue of the primary to the decoded
    record of the replica: pushing on a standby, the message to the replica,
    the decoded references and main data, and the order in which records are
    taken. *)

From S2P Require Import Prelude BitPos RingBuf RingBytes RingQueue RingSteps RingTheorems QueuePush QueueDecode QueueManager QueueShip QueueReplay.

(** ** A pushed record is decoded *)

(** The codes of Heap2 records are different. *)
Definition codes_ok (codes : heap2_codes) : Prop :=
  Forall (fun c => c <> XLOG_HEAP2_MULTI_INSERT /\ c <> XLOG_HEAP2_LOCK_UPDATED) [XLOG_HEAP2_CLEAN; XLOG_HEAP2_FREEZE_PAGE; XLOG_HEAP2_CLEANUP_INFO].

(** Only visibility map blocks were added. *)
Record vm_added (d d' : decoder) : Prop := {
  va_main : dc_main_data d' = dc_main_data d /\ dc_main_data_len d' = dc_main_data_len d /\ dc_decoded_record d' = dc_decoded_record d;
  va_blocks : forall i, i <> 1 -> i <> 2 -> i <> 3 -> dc_block d' i = dc_block d i
}.

Lemma vm_added_refl d : vm_added d d.
Proof. by split. Qed.

Lemma vm_added_save d d' i k : vm_added d d' -> k = 1 \/ k = 2 \/ k = 3 -> vm_added d (polar_heap_save_vm_block d' i k).
Proof.
  intros [H1 H2] Hk. split; [exact H1|]. intros n N1 N2 N3. rewrite <- H2 by done. unfold polar_heap_save_vm_block, dc_block, dc_set_max, dc_set_block. cbn [dc_blocks].
  apply aget_aset_ne. lia.
Qed.

#[export] Hint Resolve vm_added_refl vm_added_save : core.

Lemma main_flag_done d i flag : i < Z.of_nat (length (dc_main_data d)) -> exists b, main_flag d i flag = Done b.
Proof. intros H. unfold main_flag. rewrite (proj2 (Z.leb_gt _ _)) by done. eauto. Qed.

Lemma save_vm_if_done d i flag : i < Z.of_nat (length (dc_main_data d)) -> exists d', save_vm_if d i flag = Done d' /\ vm_added d d'.
Proof. intros H. unfold save_vm_if. destruct (main_flag_done d i flag H) as [b ->]. cbn [obind]. eexists. split; [reflexivity|]. destruct b; auto. Qed.

Lemma update_vm_done d hot : 7 < Z.of_nat (length (dc_main_data d)) -> exists d', polar_heap_update_save_vm_logindex d hot = Done d' /\ vm_added d d'.
Proof.
  intros H. unfold polar_heap_update_save_vm_logindex. destruct (main_flag_done d 7 XLH_UPDATE_OLD_ALL_VISIBLE_CLEARED H) as [b1 ->], (main_flag_done d 7 XLH_UPDATE_NEW_ALL_VISIBLE_CLEARED H) as [b2 ->].
  cbn [obind]. destruct (negb _); (eexists; split; [reflexivity|]); destruct b1; try destruct b2; auto.
Qed.

Section decoded.
Context `{codes : heap2_codes} (Hcodes : codes_ok codes).

(** With the main data of the extra block the flags can be read. *)
Lemma decode_data_done main d rechdr : match extra_of main rechdr with ExPrefix n => n <= Z.of_nat (length (dc_main_data d)) | _ => True end ->
  exists d', polar_xlog_decode_data d rechdr = Done d' /\ vm_added d d' /\ (xl_rmid rechdr <> RM_HEAP_ID -> xl_rmid rechdr <> RM_HEAP2_ID -> d' = d).
Proof.
  assert (exists d', Done d = Done d' /\ vm_added d d' /\ (xl_rmid rechdr <> RM_HEAP_ID -> xl_rmid rechdr <> RM_HEAP2_ID -> d' = d)) as H0 by eauto.
  intros Hx. unfold polar_xlog_decode_data, extra_of in *. destruct (Z.eqb_spec (xl_rmid rechdr) RM_HEAP_ID) as [Er|_].
  - enough (exists d', polar_xlog_queue_decode_heap d rechdr = Done d' /\ vm_added d d') as (d' & E & H) by (exists d'; split; [done|]; split; [done|]; congruence).
    unfold polar_xlog_queue_decode_heap, heap_extra in *. set (op := Z.land _ _) in *. destruct (op =? XLOG_HEAP_INSERT); [apply save_vm_if_done; unfold SizeOfHeapInsert in Hx; lia|].
    destruct (op =? XLOG_HEAP_DELETE); [apply save_vm_if_done; unfold SizeOfHeapDelete in Hx; lia|]. unfold SizeOfHeapUpdate, SizeOfHeapLock in Hx.
    destruct (op =? XLOG_HEAP_UPDATE); [apply update_vm_done; cbn in Hx; lia|]. destruct (op =? XLOG_HEAP_HOT_UPDATE); [apply update_vm_done; cbn in Hx; lia|]. cbn [orb] in Hx.
    destruct (op =? XLOG_HEAP_LOCK); [apply save_vm_if_done; lia|]. eauto.
  - destruct (Z.eqb_spec (xl_rmid rechdr) RM_HEAP2_ID) as [Er|_]; [|exact H0].
    enough (exists d', polar_xlog_queue_decode_heap2 d rechdr = Done d' /\ vm_added d d') as (d' & E & H) by (exists d'; split; [done|]; split; [done|]; congruence).
    unfold polar_xlog_queue_decode_heap2, heap2_extra in *. set (op := Z.land _ _) in *. unfold codes_ok in Hcodes. rewrite !Forall_cons in Hcodes. destruct Hcodes as ([C1 C1'] & [C2 C2'] & [C3 C3'] & _).
    destruct (Z.eqb_spec op XLOG_HEAP2_MULTI_INSERT) as [Eo|_].
    { rewrite Eo, !(proj2 (Z.eqb_neq _ _)) in Hx by done. cbn in Hx. apply save_vm_if_done. unfold SizeOfHeapMultiInsert in Hx. lia. }
    destruct (Z.eqb_spec op XLOG_HEAP2_LOCK_UPDATED) as [Eo|_]; [|eauto].
    rewrite Eo, !(proj2 (Z.eqb_neq _ _)) in Hx by done. cbn in Hx. apply save_vm_if_done. unfold SizeOfHeapLockUpdated in Hx. lia.
Qed.

(** A packet as [polar_xlog_send_queue_push] leaves it, of a record whose
    headers are [hdr], the references [refs], and the origin and length
    fields [o] and [h]. *)
Context (BKPIMAGE_IS_COMPRESSED : Z).
Record pushed (main : main_rdata) (first : XLogRecData) (nodes : list XLogRecData) (copy_len end_lsn xlog_len : Z) (hdr : list Z) (refs : list block_ref) (o : option Z) (h : data_header)
    (p : packet) : Prop := {
  pu_body : pk_body p = meta_body main (first :: nodes) copy_len end_lsn xlog_len;
  pu_ready : pk_ready p = true;
  pu_record : record_ok main (first :: nodes) copy_len;
  pu_header : length hdr = 24%nat /\ polar_xlog_remove_payload hdr = true /\ exists more, rd_data first = hdr ++ more;
  pu_format : take (Z.to_nat (copy_len - polar_reserve_data_size main (rd_data first))) (chain_bytes (first :: nodes)) = record_bytes BKPIMAGE_IS_COMPRESSED hdr refs o h;
  pu_refs : refs_ok BKPIMAGE_IS_COMPRESSED (-1) None refs;
  pu_lsns : is_u64 end_lsn /\ is_u32 xlog_len /\ xlog_len <= end_lsn
}.

(** Fields of the header, with anything behind it. *)
Lemma header_fields hdr more : length hdr = 24%nat ->
  xl_rmid (hdr ++ more) = xl_rmid hdr /\ rmgr_info (hdr ++ more) = rmgr_info hdr /\ polar_xlog_remove_payload (hdr ++ more) = polar_xlog_remove_payload hdr.
Proof.
  intros Hl. assert (xl_rmid (hdr ++ more) = xl_rmid hdr /\ rmgr_info (hdr ++ more) = rmgr_info hdr) as [E1 E2].
  { unfold rmgr_info, xl_rmid, xl_info, aget. change (Z.to_nat 17) with 17%nat. change (Z.to_nat 16) with 16%nat. by rewrite !lookup_app_l by lia. }
  split; [done|]. split; [done|]. unfold polar_xlog_remove_payload. by rewrite E1, E2.
Qed.

Lemma header_extra main hdr more : length hdr = 24%nat -> extra_of main (hdr ++ more) = extra_of main hdr.
Proof. intros Hl. destruct (header_fields hdr more Hl) as (E1 & E2 & _). unfold extra_of. by rewrite E1, E2. Qed.

Section pushed.
Context (main : main_rdata) (first : XLogRecData) (nodes : list XLogRecData) (copy_len end_lsn xlog_len : Z) (hdr : list Z) (refs : list block_ref) (o : option Z) (h : data_header).
Context (p : packet) (HP : pushed main first nodes copy_len end_lsn xlog_len hdr refs o h p).

Lemma pushed_record : pk_record p = record_bytes BKPIMAGE_IS_COMPRESSED hdr refs o h ++ extra_bytes main (extra_of main hdr).
Proof.
  destruct HP as [H1 _ _ (H4 & _ & more & H5) H6 _ _]. unfold pk_record. rewrite H1. unfold meta_body, meta_part. rewrite H6, H5, (header_extra main hdr more H4).
  rewrite app_assoc, drop_app_length'; [done|]. by rewrite length_app, !length_le_encode.
Qed.

Lemma pushed_lsns : pk_end_lsn p = end_lsn /\ pk_xlog_len p = xlog_len.
Proof.
  destruct HP as [H1 _ _ _ _ _ (L1 & L2 & _)]. unfold pk_end_lsn, pk_xlog_len, mem_read. rewrite H1. unfold meta_body. change (Z.to_nat 0) with 0%nat. change (Z.to_nat 8) with 8%nat. change (Z.to_nat 4) with 4%nat.
  rewrite drop_0, (take_app_length' _ _ 8) by by rewrite length_le_encode. rewrite (drop_app_length' _ _ 8) by by rewrite length_le_encode. rewrite (take_app_length' _ _ 4) by by rewrite length_le_encode.
  rewrite !le_decode_encode. unfold is_u64, is_u32 in *. by rewrite !Z.mod_small by (cbn; lia).
Qed.

Lemma pushed_len : pk_len p = Z.of_nat (length (pk_body p)) -> pk_len p = copy_len + POLAR_XLOG_HEAD_SIZE /\ POLAR_XLOG_HEAD_SIZE < pk_len p.
Proof. intros Hl. pose proof (length_meta main (first :: nodes) copy_len end_lsn xlog_len (pu_record _ _ _ _ _ _ _ _ _ _ _ HP)) as Hm. rewrite <- (pu_body _ _ _ _ _ _ _ _ _ _ _ HP), <- Hl in Hm.
  destruct (pu_record _ _ _ _ _ _ _ _ _ _ _ HP) as (_ & _ & _ & Hc). lia. Qed.

Context (DecodeXLogRecord : decoder -> list Z -> outcome (decoder * bool)).

(** The references as decoded. *)
Definition decoded_refs (d : decoder) : decoder := put_refs (dc_set_record (polar_reset_decoder d)) refs.

Lemma pushed_remaining buf : buf_with (pk_record p) buf -> remaining buf (Z.of_nat (length (pk_record p))) 0 (pk_record p) /\ polar_xlog_remove_payload buf = true /\ extra_of main buf = extra_of main hdr /\
  xl_rmid buf = xl_rmid hdr.
Proof.
  intros [post ->]. split; [split; [lia|]; split; [lia|]; by exists post|]. rewrite pushed_record. unfold record_bytes. rewrite <- !app_assoc.
  destruct HP as [_ _ _ (H4 & H5 & _) _ _ _]. destruct (header_fields hdr (mjoin (map (encode_ref BKPIMAGE_IS_COMPRESSED) refs) ++ encode_tail o h ++ extra_bytes main (extra_of main hdr) ++ post) H4) as (Hid & _ & ->).
  split; [done|]. split; [by apply header_extra|exact Hid].
Qed.

(** Without an extra block, or with the first bytes of the main data. *)
Lemma pushed_decode d buf payload : extra_of main hdr <> ExWhole -> buf_with (pk_record p) buf -> Z.of_nat (length (pk_record p)) < 2 ^ 62 ->
  exists d', polar_xlog_queue_decode BKPIMAGE_IS_COMPRESSED buf (Z.of_nat (length (pk_record p))) DecodeXLogRecord d payload = Done (d', true) /\
    vm_added (match extra_of main hdr with ExPrefix n => dc_set_main (decoded_refs d) (take (Z.to_nat n) (rd_data (mainrdata_head main))) n | _ => decoded_refs d end) d' /\
    (xl_rmid hdr <> RM_HEAP_ID -> xl_rmid hdr <> RM_HEAP2_ID -> dc_blocks d' = dc_blocks (decoded_refs d)).
Proof.
  intros Hx Hb Hl. destruct (pushed_remaining buf Hb) as (HR & Hrm & Hex & Hid). pose proof HP as [_ _ (_ & H3 & Hc & Hc2) (H4 & H5 & more & H6) _ H7 _]. rewrite H6, (header_extra main hdr more H4) in H3.
  rewrite reserve_is_extra, H6, (header_extra main hdr more H4) in Hc.
  pose proof pushed_record as Hrec. set (n0 := Z.of_nat (length (pk_record p))) in *. rewrite Hrec in HR. destruct (extra_of main hdr) as [|n|] eqn:Ex; [| |done].
  - cbn [extra_bytes] in HR. rewrite app_nil_r in HR. rewrite (decode_without_extra BKPIMAGE_IS_COMPRESSED DecodeXLogRecord hdr refs o h H4 H7 buf n0 d payload Hl HR Hrm). fold (decoded_refs d).
    destruct (decode_data_done main (decoded_refs d) buf) as (d' & -> & Hvm & Hd); [by rewrite Hex|]. exists d'. split; [done|]. split; [done|]. intros N1 N2. rewrite Hid in Hd. by rewrite Hd.
  - cbn [extra_ok extra_bytes] in *. set (b := take (Z.to_nat n) (rd_data (mainrdata_head main))) in *. assert (Z.of_nat (length b) = n) as Hbl by (unfold b; rewrite length_take; lia).
    cbn [extra_size] in Hc. unfold POLAR_MAIN_DATA_LEN in Hc.
    rewrite (decode_with_extra BKPIMAGE_IS_COMPRESSED DecodeXLogRecord hdr refs o h H4 H7 buf n0 d payload n b Hl HR Hrm) by lia. rewrite Hbl, Z.sub_diag, Z.add_0_r. fold (decoded_refs d).
    destruct Hb as [post Hb]. rewrite (proj2 (Z.ltb_ge _ _)) by (rewrite Hb, length_app; lia). unfold mem_read at 1. change (Z.to_nat 0) with 0%nat at 1. rewrite take_0, app_nil_r.
    destruct (decode_data_done main (dc_set_main (decoded_refs d) b n) buf) as (d' & -> & Hvm & Hd); [rewrite Hex; cbn [dc_set_main dc_main_data]; lia|].
    exists d'. split; [done|]. split; [done|]. intros N1 N2. rewrite Hid in Hd. by rewrite Hd.
Qed.

(** With all of the main data five bytes more are read. *)
Lemma pushed_overread d buf payload : extra_of main hdr = ExWhole -> buf_with (pk_record p) buf -> Z.of_nat (length (pk_record p)) < 2 ^ 62 ->
  polar_xlog_queue_decode BKPIMAGE_IS_COMPRESSED buf (Z.of_nat (length (pk_record p))) DecodeXLogRecord d payload =
  if Z.of_nat (length buf) <? Z.of_nat (length (pk_record p)) + 5 then Fault UNDEFINED
  else Done (dc_set_main (decoded_refs d) (chain_bytes (main_nodes main) ++ mem_read buf (Z.of_nat (length (pk_record p))) 5) (mainrdata_len main + 5), true).
Proof.
  intros Ex Hb Hl. destruct (pushed_remaining buf Hb) as (HR & Hrm & Hex & _). pose proof HP as [_ _ (_ & H3 & Hc & Hc2) (H4 & H5 & more & H6) _ H7 _]. rewrite H6, (header_extra main hdr more H4), Ex in H3.
  pose proof pushed_record as Hrec. set (n0 := Z.of_nat (length (pk_record p))) in *. rewrite Hrec, Ex in HR. cbn [extra_ok extra_bytes] in *. destruct H3 as [_ M2 M3]. unfold polar_reserve_main_data_size, POLAR_MAIN_DATA_LEN in HR.
  rewrite (decode_with_extra BKPIMAGE_IS_COMPRESSED DecodeXLogRecord hdr refs o h H4 H7 buf _ d payload (1 + 4 + mainrdata_len main) (chain_bytes (main_nodes main)) Hl HR Hrm) by lia.
  replace (1 + 4 + mainrdata_len main - Z.of_nat (length (chain_bytes (main_nodes main)))) with 5 by lia. destruct (_ <? _); [done|]. fold (decoded_refs d).
  destruct (decode_data_done main (dc_set_main (decoded_refs d) (chain_bytes (main_nodes main) ++ mem_read buf n0 5) (1 + 4 + mainrdata_len main)) buf) as (d' & -> & _ & Hd); [by rewrite Hex, Ex|].
  cbn [obind]. rewrite Hd; [by rewrite Z.add_comm| |]; intros E; rewrite <- Hex in Ex; unfold extra_of in Ex; rewrite E in Ex.
  - unfold heap_extra in Ex. cbn in Ex. repeat case_match; discriminate.
  - unfold heap2_extra in Ex. cbn in Ex. repeat case_match; discriminate.
Qed.
End pushed.

Lemma length_reset d : length (dc_blocks (polar_reset_decoder d)) = length (dc_blocks d).
Proof.
  unfold polar_reset_decoder. cbn [dc_blocks]. generalize (dc_blocks d), (seqZ 0 (dc_max_block_id d + 1)). intros bs l. revert bs. induction l as [|i l IH]; intros bs; [done|].
  cbn [foldl]. by rewrite IH, length_aset.
Qed.

Section popped.
Context (wal_segment_size : Z) (DecodeXLogRecord : decoder -> list Z -> outcome (decoder * bool)) (allocate_recordbuf : Z -> list Z).
Context (Halloc : forall n, n <= Z.of_nat (length (allocate_recordbuf n))).
Context (main : main_rdata) (first : XLogRecData) (nodes : list XLogRecData) (copy_len end_lsn xlog_len : Z) (hdr : list Z) (refs : list block_ref) (o : option Z) (h : data_header).
Context (rb : polar_ringbuf_data_t) (pkts : list packet) (ref : polar_ringbuf_ref_t) (k : nat) (p : packet) (s : reader) (payload : bool).

(** C7: a record that was put in the queue without its payload, and without
    its whole main data (which GiST, hash and btree records keep, see
    [queue_main_data_overread]), is decoded from it:
    [polar_xlog_queue_pop_record] takes the packet, sets the LSNs of the
    record, and its decoder has, when the extra block has the first [n]
    bytes of the main data, these bytes, and every block reference of the
    record, except for blocks 1 to 3 of heap records, which may be replaced
    by those of the visibility map. *)
Theorem queued_record_decoded :
  reader_at rb pkts ref k -> pkts !! k = Some p -> pushed main first nodes copy_len end_lsn xlog_len hdr refs o h p -> extra_of main hdr <> ExWhole ->
  length (dc_blocks (xr_decoder s)) = 33%nat ->
  exists rb' s', polar_xlog_queue_pop_record wal_segment_size BKPIMAGE_IS_COMPRESSED DecodeXLogRecord allocate_recordbuf rb ref (pk_len p) s payload = Done (rb', s', true) /\
    reader_at rb' pkts ref (S k) /\ xr_ReadRecPtr s' = end_lsn - xlog_len /\ xr_EndRecPtr s' = end_lsn /\
    (forall n, extra_of main hdr = ExPrefix n -> dc_main_data (xr_decoder s') = take (Z.to_nat n) (rd_data (mainrdata_head main)) /\ dc_main_data_len (xr_decoder s') = n) /\
    (forall r, r ∈ refs -> xl_rmid hdr <> RM_HEAP_ID /\ xl_rmid hdr <> RM_HEAP2_ID \/ br_id r ∉ [1; 2; 3] ->
       dc_block (xr_decoder s') (br_id r) = decoded_ref (dc_block (polar_reset_decoder (xr_decoder s)) (br_id r)) r).
Proof.
  intros HR Hk HP Hx H33. pose proof (body_length rb pkts ref k HR p Hk) as Hbl. destruct (pushed_len _ _ _ _ _ _ _ _ _ _ p HP (eq_sym Hbl)) as [Hlen Hl12].
  assert (pk_sized p = true) as Hz by (apply (qw_pkts _ _ (ra_wf _ _ _ _ HR) k p Hk), (pu_ready _ _ _ _ _ _ _ _ _ _ _ HP)).
  destruct (pop_record_at wal_segment_size BKPIMAGE_IS_COMPRESSED DecodeXLogRecord allocate_recordbuf 0 ltac:(intros; split; [apply Halloc|lia]) rb pkts ref k p s payload HR Hk Hz Hl12)
    as (buf & B1 & _ & _ & B3 & ->). destruct (pu_record _ _ _ _ _ _ _ _ _ _ _ HP) as (_ & _ & _ & Hcl). unfold POLAR_XLOG_HEAD_SIZE in *.
  destruct (pushed_decode _ _ _ _ _ _ _ _ _ _ p HP DecodeXLogRecord (xr_decoder s) buf payload Hx B1) as (d' & E & [(V1 & V2 & _) V4] & Hnh); [lia|]. rewrite B3 in E. rewrite E. cbn [obind].
  destruct (pushed_lsns _ _ _ _ _ _ _ _ _ _ p HP) as [-> ->]. destruct (pu_lsns _ _ _ _ _ _ _ _ _ _ _ HP) as (L1 & L2 & L3). unfold is_u64, is_u32 in *. rewrite u64_small by (unfold is_u64; lia).
  destruct (update_reader_fields wal_segment_size (set_record_buf s buf) (end_lsn - xlog_len) end_lsn (pk_len p - 12)) as (F1 & F2 & _).
  eexists _, _. split; [reflexivity|]. split; [by apply (reader_step rb pkts ref k HR p Hk Hz)|]. split; [exact F1|]. split; [exact F2|]. cbn [set_decoder xr_decoder].
  split; [intros n En; rewrite V1, V2, En; done|]. intros r Hr Hcase. transitivity (dc_block (decoded_refs refs (xr_decoder s)) (br_id r)).
  - destruct Hcase as [[N1 N2]|Hni]; [unfold dc_block; by rewrite (Hnh N1 N2)|]. assert (br_id r <> 1 /\ br_id r <> 2 /\ br_id r <> 3) as (N1 & N2 & N3) by set_solver.
    rewrite V4 by done. by destruct (extra_of main hdr).
  - unfold decoded_refs. change (dc_block (polar_reset_decoder (xr_decoder s))) with (dc_block (dc_set_record (polar_reset_decoder (xr_decoder s)))). apply (put_refs_block BKPIMAGE_IS_COMPRESSED refs _ (-1) None); [change (length (dc_blocks (polar_reset_decoder (xr_decoder s))) = 33%nat); by rewrite length_reset|lia|apply (pu_refs _ _ _ _ _ _ _ _ _ _ _ HP)|done].
Qed.

(** C34: the main data of GiST, hash and btree records is not decoded as it was
    put in the queue: the length [polar_push_main_data] writes counts its own
    header, so the decoder copies five bytes from behind the record.  The
    main data is five bytes too long, and when the record buffer ends with the
    record the read is outside of it. *)
Theorem queue_main_data_overread :
  reader_at rb pkts ref k -> pkts !! k = Some p -> pushed main first nodes copy_len end_lsn xlog_len hdr refs o h p -> extra_of main hdr = ExWhole ->
  pk_len p - POLAR_XLOG_HEAD_SIZE <= Z.of_nat (length (xr_readRecordBuf s)) ->
  let res := polar_xlog_queue_pop_record wal_segment_size BKPIMAGE_IS_COMPRESSED DecodeXLogRecord allocate_recordbuf rb ref (pk_len p) s payload in
  if pk_len p - POLAR_XLOG_HEAD_SIZE + 5 <=? Z.of_nat (length (xr_readRecordBuf s)) then
    exists rb' s', res = Done (rb', s', true) /\ dc_main_data_len (xr_decoder s') = mainrdata_len main + 5 /\
      dc_main_data (xr_decoder s') = chain_bytes (main_nodes main) ++ mem_read (xr_readRecordBuf s) (pk_len p - POLAR_XLOG_HEAD_SIZE) 5
  else res = Fault UNDEFINED.
Proof.
  intros HR Hk HP Hx Hbuf. pose proof (body_length rb pkts ref k HR p Hk) as Hbl. destruct (pushed_len _ _ _ _ _ _ _ _ _ _ p HP (eq_sym Hbl)) as [Hlen Hl12].
  assert (pk_sized p = true) as Hz by (apply (qw_pkts _ _ (ra_wf _ _ _ _ HR) k p Hk), (pu_ready _ _ _ _ _ _ _ _ _ _ _ HP)).
  destruct (pop_record_at wal_segment_size BKPIMAGE_IS_COMPRESSED DecodeXLogRecord allocate_recordbuf 0 ltac:(intros; split; [apply Halloc|lia]) rb pkts ref k p s payload HR Hk Hz Hl12)
    as (buf & B1 & B2 & B2' & B3 & ->). destruct (pu_record _ _ _ _ _ _ _ _ _ _ _ HP) as (_ & _ & _ & Hcl). unfold POLAR_XLOG_HEAD_SIZE in *.
  pose proof (pushed_overread _ _ _ _ _ _ _ _ _ _ p HP DecodeXLogRecord (xr_decoder s) buf payload Hx B1 ltac:(lia)) as E. rewrite B3 in E. rewrite E.
  rewrite (Z.gtb_ltb (pk_len p - 12)), (proj2 (Z.ltb_ge _ _)) in B2, B2' by lia. rewrite B2. destruct (Z.leb_spec (pk_len p - 12 + 5) (Z.of_nat (length (xr_readRecordBuf s)))) as [Hle|Hgt].
  - rewrite (proj2 (Z.ltb_ge _ _)) by lia. cbn [obind]. eexists _, _. split; [reflexivity|]. cbn [set_decoder xr_decoder dc_set_main dc_main_data_len dc_main_data]. split; [done|]. f_equal.
    rewrite B2'. unfold mem_read, mem_write. change (Z.to_nat 0) with 0%nat. rewrite take_0, Nat.add_0_l. cbn [app]. rewrite drop_app_length' by lia. by replace (length (pk_record p)) with (Z.to_nat (pk_len p - 12)) by lia.
  - by rewrite (proj2 (Z.ltb_lt _ _)) by lia.
Qed.
End popped.
End decoded.

(** ** From the primary to the replica *)

(** A standby puts a record it has read in its queue:
    [polar_standby_xlog_send_queue_push] gives up packets only at the start of
    the queue, and appends one ready packet with the LSNs of the record, its
    headers and its main data as far as they are kept. *)
Theorem standby_push_appends `{codes : heap2_codes} (readRecordBuf main_data : list Z) (meta_size main_data_len StartPos EndPos : Z) fuel keep_size callback rb pkts data_ref :
  let main := mk_main (mk_rdata main_data main_data_len) [] main_data_len in
  let RbufLen := polar_xlog_reserve_size main (mk_rdata readRecordBuf meta_size) in
  let have := Z.min (EndPos - StartPos) (Z.of_nat (length readRecordBuf)) in
  extra_ok main (extra_of main readRecordBuf) -> 0 < meta_size <= have /\ 0 < xl_tot_len readRecordBuf <= have -> RbufLen < 2 ^ 31 /\ EndPos - StartPos < 2 ^ 32 ->
  queue_wf rb pkts -> (forall k p, pkts !! k = Some p -> pk_sized p = true) -> data_ref_ok rb data_ref -> 0 <= keep_size -> (length pkts < fuel)%nat ->
  POLAR_XLOG_PKT_SIZE RbufLen <= polar_ringbuf_free_size rb -> rb_min_visit rb + Z.of_nat (length pkts) + 1 < UINT64_MAX ->
  exists rb' ref d idx, polar_standby_xlog_send_queue_push fuel keep_size callback rb data_ref readRecordBuf meta_size main_data main_data_len StartPos EndPos = Done (rb', Some ref) /\
    queue_wf rb' (drop d pkts ++ [published idx (meta_body main [mk_rdata readRecordBuf have] RbufLen EndPos (EndPos - StartPos))]).
Proof. intros main RbufLen have H1 H2 H3. by apply standby_push_spec. Qed.

(** C8: WAL meta data is shipped in order and without loss:
    [polar_xlog_send_queue_raw_data_pop] takes the next [n] ready packets of
    the reader, each of a record that was safe when it was taken, as one
    message of at most [size] bytes, and stops only when nothing more is
    ready, safe or fits; [polar_xlog_recv_queue_push] of this message appends
    exactly these packets, in this order and with their bytes, to the queue
    of the replica. *)
Theorem wal_meta_shipped flushable callback fuel fuel' rb pkts ref k size max_lsn rbr pktsr :
  reader_at rb pkts ref k -> Forall send_pkt pkts -> (length pkts - k < fuel)%nat -> 0 <= size < 2 ^ 62 ->
  queue_wf rbr pktsr -> 2 * size <= polar_ringbuf_free_size rbr -> rb_min_visit rbr + Z.of_nat (length pktsr) + Z.of_nat (length pkts) < UINT64_MAX -> (length pkts < fuel')%nat ->
  exists rb' n msg max', let got := take n (drop k pkts) in
    polar_xlog_send_queue_raw_data_pop fuel flushable rb ref size max_lsn = Done (rb', msg, Z.of_nat (length msg), max') /\
    reader_at rb' pkts ref (k + n) /\ rtc qstep (rb, pkts) (rb', pkts) /\ Z.of_nat (length msg) <= size /\
    Forall (fun p => pk_ready p = true /\ exists i, pk_end_lsn p <= flushable i) got /\ pop_stops flushable pkts (k + n) (size - Z.of_nat (length msg)) /\
    (n = 0%nat /\ msg = [] \/
     exists rbr' idxs, polar_xlog_recv_queue_push fuel' callback rbr msg = Done rbr' /\ length idxs = n /\ queue_wf rbr' (pktsr ++ zip_with published idxs (bodies got))).
Proof. intros. by apply ship_spec. Qed.

(** ** The records of a replica *)

Section replica.
Context (wal_segment_size BKPIMAGE_IS_COMPRESSED : Z) (DecodeXLogRecord : decoder -> list Z -> outcome (decoder * bool)) (allocate_recordbuf : Z -> list Z).
Context (bufmin : Z) (Halloc : forall n, n <= Z.of_nat (length (allocate_recordbuf n)) /\ bufmin <= Z.of_nat (length (allocate_recordbuf n))).
Context (wal_lo wal_hi : nat -> Z) (Hwal : forall i, 0 <= wal_lo i < wal_hi i /\ wal_hi i <= wal_lo (S i)).

Abbreviation at_position := (position BKPIMAGE_IS_COMPRESSED DecodeXLogRecord bufmin wal_lo wal_hi).
Abbreviation returns := (returned BKPIMAGE_IS_COMPRESSED DecodeXLogRecord bufmin wal_lo wal_hi).
Abbreviation recv_queue_pop := (polar_xlog_recv_queue_pop wal_segment_size BKPIMAGE_IS_COMPRESSED DecodeXLogRecord allocate_recordbuf).

(** C33: [polar_xlog_send_queue_check] finds where a replica starts: a valid
    reader drops only packets of records before the start point and stops at
    the first packet that is not of such a record; when the answer is yes,
    every record before the reader is before the start point, so the replica
    misses none, and when it is no the reader has not moved. *)
Theorem send_queue_check_complete fuel ref start a l rb :
  start <> 0 -> unread rb ref l -> numbered BKPIMAGE_IS_COMPRESSED DecodeXLogRecord bufmin wal_lo wal_hi a l -> (length l < fuel)%nat ->
  exists rb' n found, polar_xlog_send_queue_check fuel rb ref start = Done (rb', ref, found) /\ unread rb' ref (drop n l) /\
    (forall i, (i < n)%nat -> wal_lo (a + i) < start) /\ (forall p, l !! n = Some p -> pk_ready p = true -> start <= wal_lo (a + n)) /\
    (if found then forall i, (i < a + n)%nat -> wal_lo i < start else n = 0%nat).
Proof.
  intros H0 HU HN Hf. destruct (queue_check_spec _ _ _ wal_lo wal_hi Hwal fuel start rb ref l a H0 HU HN Hf) as (rb' & n & found & E & C1 & C2 & C3 & C4 & C5 & C6).
  exists rb', n, found. split; [done|]. split; [done|]. split; [done|]. split; [done|]. destruct found; [|by apply C6]. intros i Hi. destruct (decide (i < a)%nat) as [Ha|Ha].
  - pose proof (wal_lt wal_lo wal_hi Hwal i a Ha). pose proof (Hwal i). destruct (C5 eq_refl) as [Hn|<-]; [|lia]. specialize (C3 0%nat Hn). rewrite Nat.add_0_r in C3. lia.
  - replace i with (a + (i - a))%nat by lia. apply C3. lia.
Qed.

(** C9: the startup process gets the next record: after record [j],
    [polar_xlog_recv_queue_pop] returns record [j + 1], from the queue when
    this is where it reads and the packets up to that record are ready, however
    many packets of earlier records are before it, and else from the files
    that have it; what is left in the queue goes on from there. *)
Theorem recv_pop_next_record fuel ref j a l rb s catch_up r rounds m :
  at_position fuel ref j a l rb s catch_up ->
  (if catch_up then (S j < a + length l)%nat /\ Forall (fun p => pk_ready p = true) (take (S (S j) - a) l) /\ (S j - a < length (r :: rounds))%nat
   else reads_files bufmin wal_lo wal_hi m (rr_read r) /\ (S j <= m)%nat) ->
  exists res, recv_queue_pop (r :: rounds) fuel rb (Some ref) s catch_up 0 = Done res /\ returns fuel ref j res.
Proof.
  intros [P1 P2 P3 P4 P5 P6] Hc. unfold polar_xlog_recv_queue_pop. cbn [obind]. rewrite Z.eqb_refl. pose proof (Hwal j). destruct catch_up.
  - destruct Hc as (C1 & C2 & C3). specialize (P6 eq_refl). apply (recv_loop_progress _ _ _ _ bufmin Halloc wal_lo wal_hi Hwal fuel ref j (S j - a) _ a l); try done; [lia|lia|].
    by replace (S (S j - a)) with (S (S j) - a)%nat by lia.
  - destruct Hc as [C1 C2]. pose proof (file_source_round wal_segment_size _ _ allocate_recordbuf bufmin wal_lo wal_hi Hwal fuel ref j a l r rounds rb (set_curr s (xr_EndRecPtr s)) m P1 P2 P3 P4 P5 C1) as HQ.
    by rewrite decide_True in HQ.
Qed.

(** C6: while the queue carries records only, no record is skipped or
    returned twice: as long as the walreceiver adds records of the WAL in
    order and no request to read files, the records are in the files before
    they are in the queue, and the replica is not promoted,
    [polar_xlog_recv_queue_pop] returns record [j + 1] after record [j] or
    goes on waiting, however many records arrive in the meantime and
    whenever it changes from files to the queue.  (A request to read files
    is [storage_begin_repeats_record], a promotion
    [promotion_reads_files].) *)
Theorem recv_pop_never_skips fuel ref j a l rb s catch_up rounds m :
  at_position fuel ref j a l rb s catch_up -> (a + length l <= S m)%nat -> rounds_ok BKPIMAGE_IS_COMPRESSED DecodeXLogRecord bufmin wal_lo wal_hi fuel ref m rounds ->
  match recv_queue_pop rounds fuel rb (Some ref) s catch_up 0 with Done res => returns fuel ref j res | Fault e => e = OUT_OF_FUEL end.
Proof.
  intros [P1 P2 P3 P4 P5 P6] Hm HO. unfold polar_xlog_recv_queue_pop. cbn [obind]. rewrite Z.eqb_refl.
  apply (recv_loop_safe _ _ _ _ bufmin Halloc wal_lo wal_hi Hwal fuel ref j rounds m a l); try done. destruct catch_up; [by apply P6|done].
Qed.

(** C32: a replica that is promoted has replayed all WAL: when it is told to
    stop while it reads an empty queue, it asks itself to read the files, and
    ends, with its reference released, only if these have no record behind the
    last one. *)
Theorem promotion_reads_files fuel ref j a r1 r2 rounds m rb pkts s :
  reader_at rb pkts ref (length pkts) -> at_position fuel ref j a [] rb s true -> POLAR_RINGBUF_PKTHDRSIZE <= polar_ringbuf_free_size rb ->
  rb_min_visit rb + Z.of_nat (length pkts) + 1 < UINT64_MAX -> rr_triggered r1 = true -> rr_triggered r2 = true -> reads_files bufmin wal_lo wal_hi m (rr_read r2) ->
  if decide (S j <= m)%nat then exists res, recv_queue_pop (r1 :: r2 :: rounds) fuel rb (Some ref) s true 0 = Done res /\ returns fuel ref j res
  else exists rb' s', recv_queue_pop (r1 :: r2 :: rounds) fuel rb (Some ref) s true 0 = Done ((polar_ringbuf_release_ref rb' ref).1, None, s', false, false) /\ xr_EndRecPtr s' = wal_hi j.
Proof.
  intros HR [P1 P2 P3 P4 P5 P6] H1 H2 T1 T2 Hread. unfold polar_xlog_recv_queue_pop. cbn [obind]. rewrite Z.eqb_refl.
  pose proof (promotion_spec wal_segment_size BKPIMAGE_IS_COMPRESSED DecodeXLogRecord allocate_recordbuf bufmin wal_lo wal_hi Hwal fuel ref j a r1 r2 rounds m rb pkts (set_curr s (xr_EndRecPtr s)) HR) as HQ.
  destruct (decide (S j <= m)%nat); [apply HQ; done|]. destruct HQ as (rb' & s' & E & _ & H); try done. eauto.
Qed.

(** C35: a request to read files can make the startup process replay records
    again: when the queue, from which it has begun to read, has a packet of an
    earlier record [a] before the request, the position of the reader goes
    back to that record, files are read from there, and the result is record
    [a + 1], which may be any record up to the last one that was replayed. *)
Theorem storage_begin_repeats_record fuel ref j a p idx r1 r2 rounds m rb s :
  unread rb ref [p; storage_pkt idx] -> packet_of BKPIMAGE_IS_COMPRESSED DecodeXLogRecord bufmin wal_lo wal_hi a p -> reader_ok bufmin s ->
  xr_EndRecPtr s = wal_hi j -> (a < j)%nat -> (S a <= m)%nat -> reads_files bufmin wal_lo wal_hi m (rr_read r2) ->
  exists rb' s', recv_queue_pop (r1 :: r2 :: rounds) fuel rb (Some ref) s true 0 = Done (rb', Some ref, s', false, true) /\
    xr_ReadRecPtr s' = wal_lo (S a) /\ xr_EndRecPtr s' <= xr_EndRecPtr s.
Proof.
  intros HU Hp Hs He Ha Hm Hread. unfold polar_xlog_recv_queue_pop. cbn [obind]. rewrite Z.eqb_refl, He. cbn [recv_pop_loop].
  destruct (queue_pop wal_segment_size _ _ allocate_recordbuf bufmin Halloc wal_lo wal_hi Hwal fuel (rr_read r1) rb ref p _ a (set_curr s (wal_hi j)) true HU Hp Hs) as (rb1 & s1 & -> & H1 & H2 & H3 & H4 & H5).
  pose proof (wal_lt wal_lo wal_hi Hwal a j Ha) as Hlt. pose proof (Hwal a). pose proof (Hwal j). cbn [obind andb]. rewrite H3, H5. cbn [set_curr xr_currRecPtr]. rewrite (proj2 (Z.ltb_lt _ _)) by lia. cbn [negb].
  destruct (storage_pop wal_segment_size BKPIMAGE_IS_COMPRESSED DecodeXLogRecord allocate_recordbuf fuel ref (rr_read r2) rb1 idx s1 true H1) as (rb2 & -> & _). cbn [obind].
  pose proof (Hread s1 a H4 H2) as Hrd. destruct (rr_read r2 s1) as [s2 found]. destruct Hrd as (D1 & D2 & D3 & D4 & D5). rewrite bool_decide_eq_true_2 in D3 by done. subst found. cbn [fst snd andb].
  rewrite (D5 eq_refl), D2. rewrite (proj2 (Z.ltb_ge _ _)) by lia. cbn [negb]. exists rb2, s2. split; [done|]. split; [by apply D5|]. rewrite D4.
  destruct (decide (S a = j)) as [<-|]; [lia|]. pose proof (wal_lt wal_lo wal_hi Hwal (S a) j ltac:(lia)). pose proof (Hwal (S a)). lia.
Qed.
End replica.

(** ** Instances *)

Module QueueDemo.

(** A WAL with a record every 100 bytes. *)
Definition lo (i : nat) : Z := 100 * (Z.of_nat i + 1).
Definition hi (i : nat) : Z := lo i + 50.
Lemma wal_ok i : 0 <= lo i < hi i /\ hi i <= lo (S i).
Proof. unfold hi, lo. lia. Qed.

Definition header (info rmid : Z) : list Z := replicate 16 0 ++ [info; rmid] ++ replicate 6 0.
Definition body (i : nat) : list Z := le_encode 8 (hi i) ++ le_encode 4 50 ++ header 0 1.

Definition decode (d : decoder) (_ : list Z) : outcome (decoder * bool) := Done (d, true).
Definition alloc (n : Z) : list Z := replicate (Z.to_nat n) 0.
Lemma alloc_ok n : n <= Z.of_nat (length (alloc n)) /\ 0 <= Z.of_nat (length (alloc n)).
Proof. unfold alloc. rewrite length_replicate. lia. Qed.

(** The reader behind record [j]. *)
Definition reader_at_rec (j : nat) : reader := mk_reader (lo j) (hi j) (hi j) 0 0 0 0 false [] new_decoder.

(** Files with the records up to [m]. *)
Definition read (m : nat) (s : reader) : reader * bool :=
  let j := Z.to_nat ((xr_EndRecPtr s - 150) / 100) in
  if bool_decide (S j <= m)%nat then (mk_reader (lo (S j)) (hi (S j)) (xr_EndRecPtr s) 0 0 0 0 false (xr_readRecordBuf s) (xr_decoder s), true)
  else (set_curr s (xr_EndRecPtr s), false).
Lemma read_ok m : reads_files 0 lo hi m (read m).
Proof.
  intros s j He Hs. unfold read. assert (Z.to_nat ((xr_EndRecPtr s - 150) / 100) = j) as -> by (rewrite He; unfold hi, lo; Z.div_mod_to_equations; lia).
  destruct (bool_decide (S j <= m)%nat); done.
Qed.

(** A queue with one reader. *)
Definition rb0 : polar_ringbuf_data_t := (polar_ringbuf_new_ref (init_rbuf 256) true None).1.
Definition queue (bs : list (list Z)) : polar_ringbuf_data_t := match polar_xlog_recv_queue_push 5 Done rb0 (wire bs) with Done rb => rb | Fault _ => rb0 end.

Lemma rb0_wf : queue_wf rb0 [].
Proof.
  apply (qsteps_wf (init_rbuf 256, []) (rb0, [])); [|apply init_wf; lia]. apply rtc_once. eapply (q_new_ref (init_rbuf 256) [] true None); [|vm_compute; reflexivity]. vm_compute. reflexivity.
Qed.
Lemma rb0_reader : reader_at rb0 [] demo_ref 0.
Proof. split; [exact rb0_wf|vm_compute; reflexivity|done|]. split; [done|]. split; vm_compute; reflexivity. Qed.

Lemma queue_reader bs rb : bs <> [] -> Forall payload_ok bs -> wire_room bs <= polar_ringbuf_free_size rb0 -> (length bs < 5)%nat ->
  polar_xlog_recv_queue_push 5 Done rb0 (wire bs) = Done rb -> rb_slot rb = rb_slot rb0 -> rb_min_visit rb = rb_min_visit rb0 ->
  exists idxs, length idxs = length bs /\ reader_at rb (zip_with published idxs bs) demo_ref 0.
Proof.
  intros Hne Hok Hroom Hl E Hs Hm. destruct bs as [|b bs]; [done|].
  destruct (push_loop_spec Done bs b 5 rb0 [] 0 rb0_wf Hok Hroom) as (rb' & idxs & E' & H1 & H2); [cbn [length] in *; change (rb_min_visit rb0) with 0; unfold UINT64_MAX; lia|cbn in Hl; lia|].
  assert (rb' = rb) as -> by (assert (Done rb' = Done rb) as [=] by (rewrite <- E', <- E; reflexivity); done).
  exists idxs. split; [done|]. by apply (reader_keep demo_ref rb0 [] 0 rb _ rb0_reader).
Qed.

Lemma body_packet i idx : hi i < 2 ^ 64 -> packet_of 0 decode 0 lo hi i (published idx (body i)).
Proof.
  intros Hi. assert (length (body i) = 36%nat) as Hl by (unfold body; rewrite !length_app, !length_le_encode; done). split; cbn [published pk_ready pk_len pk_body]; [done|done|rewrite Hl; unfold POLAR_XLOG_HEAD_SIZE; lia| | |].
  - split; [|done]. unfold pk_end_lsn, mem_read. cbn [pk_body published]. change (Z.to_nat 0) with 0%nat. change (Z.to_nat 8) with 8%nat. unfold body. rewrite drop_0, take_app_length' by by rewrite length_le_encode.
    rewrite le_decode_encode. rewrite Z.mod_small; [done|]. cbn. pose proof (wal_ok i). lia.
  - unfold pk_xlog_len, mem_read. cbn [pk_body published]. change (Z.to_nat 8) with 8%nat. change (Z.to_nat 4) with 4%nat. unfold body. rewrite drop_app_length' by by rewrite length_le_encode.
    rewrite take_app_length' by by rewrite length_le_encode. rewrite le_decode_encode. unfold hi. rewrite Z.mod_small by (cbn; lia). lia.
  - intros buf d payload [post ->] _. unfold pk_record. cbn [pk_body published]. unfold body. rewrite app_assoc, drop_app_length' by by rewrite length_app, !length_le_encode.
    unfold polar_xlog_queue_decode. destruct (header_fields (header 0 1) post eq_refl) as (_ & _ & ->). destruct payload; eexists _, _; reflexivity.
Qed.

Lemma numbered_bodies a idxs (ns : list nat) : length idxs = length ns -> (forall n i, ns !! n = Some i -> i = (a + n)%nat) -> Z.of_nat (a + length ns) < 2 ^ 32 ->
  numbered 0 decode 0 lo hi a (zip_with published idxs (map body ns)).
Proof.
  intros Hl Hi Hb n p Hp Hr. apply lookup_zip_with_Some in Hp as (idx & b & -> & H1 & H2). rewrite list_lookup_fmap in H2. destruct (ns !! n) as [i|] eqn:E; [|done]. injection H2 as <-.
  rewrite <- (Hi n i E). apply body_packet. rewrite (Hi n i E). apply lookup_lt_Some in E. unfold hi, lo. lia.
Qed.

(** The queue has records 1 and 2. *)
Definition queue12 : polar_ringbuf_data_t := queue [body 1; body 2].
Lemma queue12_reader : exists idxs, length idxs = 2%nat /\ reader_at queue12 (zip_with published idxs [body 1; body 2]) demo_ref 0.
Proof. apply (queue_reader [body 1; body 2] queue12); [done|repeat constructor|vm_compute; congruence|cbn; lia|vm_compute; reflexivity|vm_compute; reflexivity|vm_compute; reflexivity]. Qed.

Lemma published_all idxs bs (P : packet -> Prop) : (forall idx b, b ∈ bs -> P (published idx b)) -> Forall P (zip_with published idxs bs).
Proof. intros H. apply Forall_forall. intros p Hp. apply list_elem_of_lookup in Hp as [n Hp]. apply lookup_zip_with_Some in Hp as (idx & b & -> & _ & Hb). apply H. by eapply list_elem_of_lookup_2. Qed.

Lemma queue12_position catch_up : exists l, position 0 decode 0 lo hi 10 demo_ref 1 1 l queue12 (reader_at_rec 1) catch_up /\ length l = 2%nat /\ Forall (fun p => pk_ready p = true) l.
Proof.
  destruct queue12_reader as (idxs & H1 & H2).
  exists (zip_with published idxs [body 1; body 2]). assert (length (zip_with published idxs [body 1; body 2]) = 2%nat) as Hl by (rewrite length_zip_with, H1; done). split; [split|split; [done|]].
  - eexists _, 0%nat. split; [exact H2|]. apply drop_0.
  - apply (numbered_bodies 1 idxs [1%nat; 2%nat] H1); [|cbn; lia]. intros [|[|n]] i E; cbn in E; by simplify_eq.
  - lia.
  - done.
  - done.
  - lia.
  - by apply published_all.
Qed.

(** Record 1, and a request to read files behind it. *)
Lemma queue_storage : exists rb idx1 idx, unread rb demo_ref [published idx1 (body 1); storage_pkt idx].
Proof.
  destruct (queue_reader [body 1] (queue [body 1])) as (idxs & H1 & H2); [done|repeat constructor|vm_compute; congruence|cbn; lia|vm_compute; reflexivity|vm_compute; reflexivity|vm_compute; reflexivity|].
  destruct idxs as [|idx1 [|? ?]]; [done| |done]. cbn [zip_with] in H2.
  destruct (storage_begin_spec 5 (queue [body 1]) _ (ra_wf _ _ _ _ H2)) as (rb & idx & _ & W1 & W2 & W3); [vm_compute; congruence|vm_compute; reflexivity|lia|].
  exists rb, idx1, idx, ([published idx1 (body 1)] ++ [storage_pkt idx]), 0%nat. split; [|done]. by apply (reader_keep demo_ref (queue [body 1]) [published idx1 (body 1)] 0).
Qed.

(** Codes of the records that are not in this tree. *)
#[local] Instance codes : heap2_codes := mk_heap2_codes 0x10 0x20 0x30 10 10 16.
Lemma codes_distinct : codes_ok codes.
Proof. unfold codes_ok. repeat constructor; vm_compute; congruence. Qed.

(** A heap insert, and a hash record with all of its main data. *)
Definition insert_ref : block_ref := mk_bref 0 0x20 4 (mk_image 0 0 0 0) (mk_rnode 1663 5 16384) 7.
Definition insert_meta : list Z := record_bytes 0 (header 0 10) [insert_ref] None (ShortData 3).
Definition insert_main : main_rdata := mk_main (mk_rdata [1; 0; 1] 3) [] 3.
Definition insert_body : list Z := meta_body insert_main [mk_rdata insert_meta (Z.of_nat (length insert_meta))] (Z.of_nat (length insert_meta) + 8) 1000 80.
Definition hash_meta : list Z := record_bytes 0 (header 0xC0 12) [] None (ShortData 4).
Definition hash_main : main_rdata := mk_main (mk_rdata [1; 2] 2) [mk_rdata [3; 4] 2] 4.
Definition hash_body : list Z := meta_body hash_main [mk_rdata hash_meta (Z.of_nat (length hash_meta))] (Z.of_nat (length hash_meta) + 9) 1000 80.

(** The insert as a standby reads it: with its total length, and the rest of
    the record behind the headers. *)
Definition insert_standby_meta : list Z := 45 :: drop 1 insert_meta.
Definition insert_standby_body : list Z := meta_body insert_main [mk_rdata (insert_standby_meta ++ replicate 8 0) (Z.of_nat (length insert_meta) + 8)] (Z.of_nat (length insert_meta) + 8) 1200 200.

Lemma insert_pushed idx : pushed 0 insert_main (mk_rdata insert_meta (Z.of_nat (length insert_meta))) [] (Z.of_nat (length insert_meta) + 8) 1000 80 (header 0 10) [insert_ref] None (ShortData 3)
  (published idx insert_body).
Proof.
  split; [done|done| |split; [done|]; split; [done|by eexists]|vm_compute; reflexivity| |unfold is_u64, is_u32; lia].
  - split; [repeat constructor; unfold node_ok; vm_compute; congruence|]. split; [vm_compute; split; congruence|]. vm_compute. repeat split; congruence.
  - cbn [refs_ok]. split; [|done]. split; cbn; unfold is_u8, is_u16, is_u32, XLR_MAX_BLOCK_ID; try lia; [|by intros]. split; [lia|done].
Qed.
Lemma hash_pushed idx : pushed 0 hash_main (mk_rdata hash_meta (Z.of_nat (length hash_meta))) [] (Z.of_nat (length hash_meta) + 9) 1000 80 (header 0xC0 12) [] None (ShortData 4) (published idx hash_body).
Proof.
  split; [done|done| |split; [done|]; split; [done|by eexists]|vm_compute; reflexivity|done|unfold is_u64, is_u32; lia].
  split; [repeat constructor; unfold node_ok; vm_compute; congruence|]. split; [|vm_compute; repeat split; congruence].
  change (main_ok hash_main). split; [repeat constructor; unfold node_ok; vm_compute; congruence|done|vm_compute; reflexivity].
Qed.

Lemma single_reader b : payload_ok b -> wire_room [b] <= polar_ringbuf_free_size rb0 -> forall rb, polar_xlog_recv_queue_push 5 Done rb0 (wire [b]) = Done rb -> rb_slot rb = rb_slot rb0 ->
  rb_min_visit rb = rb_min_visit rb0 -> exists idx, reader_at rb [published idx b] demo_ref 0.
Proof. intros H1 H2 rb H3 H4 H5. destruct (queue_reader [b] rb) as ([|idx [|? ?]] & E & H); [done|by constructor|done|cbn; lia|done|done|done|done| |done]. by exists idx. Qed.
End QueueDemo.

(** *** The theorems at these instances *)

Import QueueDemo.

Lemma queued_record_decoded_witness : exists rb ref p rb' s', polar_xlog_queue_pop_record 16777216 0 decode alloc rb ref (pk_len p) (reader_at_rec 0) true = Done (rb', s', true) /\
  xr_ReadRecPtr s' = 920 /\ dc_main_data (xr_decoder s') = [1; 0; 1] /\ dc_block (xr_decoder s') 0 = decoded_ref unused_blk insert_ref.
Proof.
  destruct (single_reader insert_body ltac:(vm_compute; done) ltac:(vm_compute; congruence) (queue [insert_body]) ltac:(vm_compute; reflexivity) ltac:(vm_compute; reflexivity) ltac:(vm_compute; reflexivity)) as [idx HR].
  destruct (queued_record_decoded (codes := codes) codes_distinct 0 16777216 decode alloc (fun n => proj1 (alloc_ok n)) insert_main _ [] _ 1000 80 (header 0 10) [insert_ref] None (ShortData 3) _ _ demo_ref 0%nat _
    (reader_at_rec 0) true HR eq_refl (insert_pushed idx)) as (rb' & s' & E & _ & E1 & _ & E2 & E3); [vm_compute; congruence|done|].
  eexists _, _, _, rb', s'. split; [exact E|]. split; [exact E1|]. split; [apply (E2 3); reflexivity|]. apply (E3 insert_ref); [by left|]. right. intros H. repeat (apply elem_of_cons in H as [H|H]; [discriminate H|]). by apply elem_of_nil in H.
Defined.

(** A buffer that the record fills. *)
Lemma queue_main_data_overread_witness : exists rb ref p, polar_xlog_queue_pop_record 16777216 0 decode alloc rb ref (pk_len p)
  (set_record_buf (reader_at_rec 0) (replicate 35 0)) true = Fault UNDEFINED.
Proof.
  destruct (single_reader hash_body ltac:(vm_compute; done) ltac:(vm_compute; congruence) (queue [hash_body]) ltac:(vm_compute; reflexivity) ltac:(vm_compute; reflexivity) ltac:(vm_compute; reflexivity)) as [idx HR].
  eexists _, _, _. pose proof (queue_main_data_overread (codes := codes) codes_distinct 0 16777216 decode alloc (fun n => proj1 (alloc_ok n)) hash_main _ [] _ 1000 80 (header 0xC0 12) [] None (ShortData 4) _ _ demo_ref 0%nat _
    (set_record_buf (reader_at_rec 0) (replicate 35 0)) true HR eq_refl (hash_pushed idx) eq_refl) as H. exact (H ltac:(vm_compute; congruence)).
Defined.

Lemma standby_push_appends_witness : exists rb' ref d idx,
  polar_standby_xlog_send_queue_push (codes := codes) 5 100 Done rb0 None (insert_standby_meta ++ replicate 8 0) (Z.of_nat (length insert_meta)) [1; 0; 1] 3 1000 1200 = Done (rb', Some ref) /\
  queue_wf rb' (drop d [] ++ [published idx insert_standby_body]).
Proof.
  apply (standby_push_appends (codes := codes)); [vm_compute; split; congruence|vm_compute; repeat split; congruence|vm_compute; split; reflexivity|exact rb0_wf|done| |lia|cbn; lia|vm_compute; congruence|vm_compute; reflexivity].
  split; [vm_compute; reflexivity|]. exists 1. split; [unfold POLAR_RINGBUF_MAX_SLOT; lia|]. intros [_ H]. vm_compute in H. discriminate H.
Defined.

Lemma wal_meta_shipped_witness : exists rb' n msg max', polar_xlog_send_queue_raw_data_pop 5 (fun _ => 1000) queue12 demo_ref 100 0 = Done (rb', msg, Z.of_nat (length msg), max') /\
  (n = 0%nat /\ msg = [] \/ exists rbr', polar_xlog_recv_queue_push 5 Done rb0 msg = Done rbr').
Proof.
  destruct queue12_reader as (idxs & H1 & HR). assert (length (zip_with published idxs [body 1; body 2]) = 2%nat) as Hl by (rewrite length_zip_with, H1; done).
  destruct (wal_meta_shipped (fun _ => 1000) Done 5 5 queue12 _ demo_ref 0 100 0 rb0 [] HR) as (rb' & n & msg & max' & E & _ & _ & _ & _ & _ & H).
  - apply published_all. intros idx b Hb _. split; [done|]. apply elem_of_cons in Hb as [->|Hb]; [vm_compute; reflexivity|]. apply elem_of_cons in Hb as [->|Hb]; [vm_compute; reflexivity|]. by apply elem_of_nil in Hb.
  - rewrite Hl. lia.
  - lia.
  - exact rb0_wf.
  - vm_compute. congruence.
  - rewrite Hl. vm_compute. reflexivity.
  - rewrite Hl. lia.
  - exists rb', n, msg, max'. split; [exact E|]. destruct H as [H|(rbr' & _ & H & _)]; [by left|right]. by exists rbr'.
Defined.

Lemma send_queue_check_complete_witness : exists rb' n found, polar_xlog_send_queue_check 5 queue12 demo_ref 300 = Done (rb', demo_ref, found) /\
  if found then forall i, (i < 1 + n)%nat -> lo i < 300 else n = 0%nat.
Proof.
  destruct (queue12_position true) as (l & HP & Hl & _).
  destruct (send_queue_check_complete 0 decode 0 lo hi wal_ok 5 demo_ref 300 1 l queue12 ltac:(lia) (ps_unread _ _ _ _ _ _ _ _ _ _ _ _ _ HP) (ps_numbered _ _ _ _ _ _ _ _ _ _ _ _ _ HP) ltac:(rewrite Hl; lia))
    as (rb' & n & found & E & _ & _ & _ & H). exists rb', n, found. by split.
Defined.

Lemma recv_pop_next_record_witness : exists res, polar_xlog_recv_queue_pop 16777216 0 decode alloc (replicate 2 (mk_round (read 0) false true Done)) 10 queue12 (Some demo_ref) (reader_at_rec 1) true 0 = Done res /\
  xr_ReadRecPtr res.1.1.2 = 300.
Proof.
  destruct (queue12_position true) as (l & HP & Hl & Hr).
  destruct (recv_pop_next_record 16777216 0 decode alloc 0 alloc_ok lo hi wal_ok 10 demo_ref 1 1 l queue12 (reader_at_rec 1) true (mk_round (read 0) false true Done) [mk_round (read 0) false true Done] 0 HP)
    as ([[[[rb s] s'] cu] f] & E & H); [|eexists; split; [exact E|apply H]]. split; [rewrite Hl; lia|]. split; [by apply Forall_take|cbn; lia].
Defined.

(** Record 2 is read from the files, and the packets of records 1 and 2 are
    dropped. *)
Lemma recv_pop_never_skips_witness :
  match polar_xlog_recv_queue_pop 16777216 0 decode alloc [mk_round (read 3) false true Done] 10 queue12 (Some demo_ref) (reader_at_rec 1) false 0 with
  | Done (_, _, s, catch_up, found) => found = true /\ xr_ReadRecPtr s = 300
  | Fault e => e = OUT_OF_FUEL
  end.
Proof.
  destruct (queue12_position false) as (l & HP & Hl & Hr).
  pose proof (recv_pop_never_skips 16777216 0 decode alloc 0 alloc_ok lo hi wal_ok 10 demo_ref 1 1 l queue12 (reader_at_rec 1) false [mk_round (read 3) false true Done] 3 HP ltac:(rewrite Hl; lia)) as H.
  destruct (polar_xlog_recv_queue_pop _ _ _ _ _ _ _ _ _ _ _) as [[[[[rb ref] s] cu] f]|e]; [|apply H].
  - destruct H as (H1 & _ & H3 & _); [|by split]. split; [done|]. split; [apply read_ok|]. exists 3%nat. split; [lia|]. split; [|done]. intros rb1 l1 a1 HU HN Ha. exists rb1, l1. split_and!; [done|done|done|done|lia].
  - split; [done|]. split; [apply read_ok|]. exists 3%nat. split; [lia|]. split; [|done]. intros rb1 l1 a1 HU HN Ha. exists rb1, l1. split_and!; [done|done|done|done|lia].
Defined.

Lemma promotion_reads_files_witness : exists rb' s', polar_xlog_recv_queue_pop 16777216 0 decode alloc (replicate 2 (mk_round (read 1) true false Done)) 10 rb0 (Some demo_ref) (reader_at_rec 1) true 0 =
  Done ((polar_ringbuf_release_ref rb' demo_ref).1, None, s', false, false) /\ xr_EndRecPtr s' = 250.
Proof.
  pose proof (promotion_reads_files 16777216 0 decode alloc 0 lo hi wal_ok 10 demo_ref 1 2 (mk_round (read 1) true false Done) (mk_round (read 1) true false Done) [] 1 rb0 [] (reader_at_rec 1) rb0_reader) as H.
  rewrite decide_False in H by lia. apply H; [|vm_compute; congruence|vm_compute; reflexivity|done|done|apply read_ok].
  split; [exists [], 0%nat; by split; [exact rb0_reader|]|by intros n p Hn|cbn; lia|done|done|lia].
Defined.

(** After record 3, record 2 again. *)
Lemma storage_begin_repeats_record_witness : exists rb rb' s',
  polar_xlog_recv_queue_pop 16777216 0 decode alloc (replicate 2 (mk_round (read 3) false true Done)) 10 rb (Some demo_ref) (reader_at_rec 3) true 0 = Done (rb', Some demo_ref, s', false, true) /\
  xr_ReadRecPtr s' = 300 /\ xr_EndRecPtr s' <= xr_EndRecPtr (reader_at_rec 3).
Proof.
  destruct queue_storage as (rb & idx1 & idx & HU). exists rb.
  apply (storage_begin_repeats_record 16777216 0 decode alloc 0 alloc_ok lo hi wal_ok 10 demo_ref 3 1 _ idx (mk_round (read 3) false true Done) (mk_round (read 3) false true Done) [] 3 rb (reader_at_rec 3) HU
    (body_packet 1 idx1 ltac:(done))); [done|done|lia|lia|apply read_ok].
Defined.
