(* ===== verification/Dll.v ===== *)
(** * Doubly linked lists in arrays

    The flush list and the list of the flashback log link buffers by their
    numbers.  [lk j] is the pair of the previous and the next number of
    element [j]; [seg lk p l n] says that the elements [l] are linked in this
    order, after [p] and before [n]. *)

From S2P Require Import Prelude.

Definition hd_or (d : Z) (l : list Z) : Z := match l with [] => d | x :: _ => x end.

Fixpoint last_or (d : Z) (l : list Z) : Z :=
  match l with [] => d | x :: l => last_or x l end.

Fixpoint seg (lk : Z -> Z * Z) (p : Z) (l : list Z) (n : Z) : Prop :=
  match l with
  | [] => True
  | i :: l => lk i = (p, hd_or n l) /\ seg lk i l n
  end.

Lemma hd_or_app d l1 l2 : hd_or d (l1 ++ l2) = hd_or (hd_or d l2) l1.
Proof. by destruct l1. Qed.

Lemma last_or_app d l1 l2 : last_or d (l1 ++ l2) = last_or (last_or d l1) l2.
Proof. revert d. induction l1 as [|x l1 IH]; intros d; simpl; [done|apply IH]. Qed.

Lemma last_or_in d l : last_or d l = d /\ l = [] \/ last_or d l ∈ l.
Proof.
  revert d. induction l as [|x l IH]; intros d; simpl; [by left|right].
  destruct (IH x) as [[-> ->]|H]; set_solver.
Qed.

Lemma hd_or_in d l : hd_or d l = d /\ l = [] \/ hd_or d l ∈ l.
Proof. destruct l; simpl; [by left|right; set_solver]. Qed.

Lemma hd_or_indep d d' l : l <> [] -> hd_or d l = hd_or d' l.
Proof. by destruct l. Qed.

Lemma last_or_indep d d' l : l <> [] -> last_or d l = last_or d' l.
Proof. by destruct l. Qed.

Lemma seg_app lk p l1 l2 n :
  seg lk p (l1 ++ l2) n <-> seg lk p l1 (hd_or n l2) /\ seg lk (last_or p l1) l2 n.
Proof.
  revert p. induction l1 as [|i l1 IH]; intros p; simpl; [naive_solver|].
  rewrite IH, hd_or_app. naive_solver.
Qed.

Lemma seg_ext lk lk' p l n : (forall j, j ∈ l -> lk' j = lk j) -> seg lk p l n -> seg lk' p l n.
Proof.
  revert p. induction l as [|i l IH]; intros p Hext; simpl; [done|]. intros [Hi Hs].
  rewrite Hext by set_solver. split; [done|]. apply IH; [set_solver|done].
Qed.

Lemma seg_set_end lk lk' p l n n' :
  NoDup l -> seg lk p l n ->
  (forall j, j ∈ l -> lk' j = ((lk j).1, if decide (j = last_or p l) then n' else (lk j).2)) ->
  seg lk' p l n'.
Proof.
  revert p. induction l as [|i l IH]; intros p Hnd Hs Hext; simpl in *; [done|].
  destruct Hs as [Hi Hs]. apply NoDup_cons in Hnd as [Hni Hnd].
  split; [|apply (IH i); [done|done|]; intros j Hj; apply Hext; set_solver].
  rewrite Hext by set_solver. rewrite Hi. simpl. f_equal.
  destruct (last_or_in i l) as [[He ->]|Hin]; [simpl; by rewrite decide_True|].
  rewrite decide_False by (intros He; rewrite <- He in Hin; done). destruct l; [by apply not_elem_of_nil in Hin|done].
Qed.

Lemma seg_set_start lk lk' p l n p' :
  NoDup l -> seg lk p l n ->
  (forall j, j ∈ l -> lk' j = (if decide (j = hd_or n l) then p' else (lk j).1, (lk j).2)) ->
  seg lk' p' l n.
Proof.
  destruct l as [|i l]; simpl; [done|]. intros Hnd [Hi Hs] Hext. apply NoDup_cons in Hnd as [Hni Hnd].
  split; [rewrite Hext, Hi, decide_True by set_solver; done|].
  apply (seg_ext lk); [|done]. intros j Hj. rewrite Hext by set_solver.
  rewrite decide_False by (intros ->; done). by destruct (lk j).
Qed.

(** Appending to a list between the ends [e]. *)
Lemma seg_append lk lk' e l i :
  NoDup l -> i ∉ l -> seg lk e l e -> lk' i = (last_or e l, e) ->
  (forall j, j ∈ l -> lk' j = ((lk j).1, if decide (j = last_or e l) then i else (lk j).2)) ->
  seg lk' e (l ++ [i]) e.
Proof.
  intros Hnd Hi Hs Hli Hl. apply seg_app. split; [by apply (seg_set_end lk _ e l e)|]. cbn. done.
Qed.

(** Removing an element. *)
Lemma seg_remove lk lk' e l1 i l2 :
  NoDup (l1 ++ i :: l2) -> seg lk e (l1 ++ i :: l2) e ->
  (forall j, j ∈ l1 ++ l2 -> lk' j = (if decide (j = hd_or e l2) then last_or e l1 else (lk j).1,
                                     if decide (j = last_or e l1) then hd_or e l2 else (lk j).2)) ->
  e ∉ l1 ++ l2 -> seg lk' e (l1 ++ l2) e.
Proof.
  intros Hnd Hs Hl He. apply seg_app in Hs as [H1 H2]. cbn in H2. destruct H2 as [_ H2].
  apply NoDup_app in Hnd as (Hn1 & Hdis & Hn2). apply NoDup_cons in Hn2 as [_ Hn2]. apply seg_app. split.
  - apply (seg_set_end lk _ e l1 i); [done|done|]. intros j Hj. rewrite Hl by set_solver +Hj. f_equal. rewrite decide_False; [done|].
    intros ->. destruct (hd_or_in e l2) as [[E _]|Hin]; [rewrite E in Hj; set_solver +Hj He|]. apply (Hdis _ Hj). by right.
  - apply (seg_set_start lk _ i l2 e); [done|done|]. intros j Hj. rewrite Hl by set_solver +Hj. f_equal. rewrite decide_False; [done|].
    intros ->. destruct (last_or_in e l1) as [[E _]|Hin]; [rewrite E in Hj; set_solver +Hj He|]. apply (Hdis _ Hin). by right.
Qed.

(** The neighbours of an element. *)
Lemma seg_at_elem lk e l1 i l2 : seg lk e (l1 ++ i :: l2) e -> lk i = (last_or e l1, hd_or e l2).
Proof. intros Hs. apply seg_app in Hs as [_ Hs]. cbn in Hs. apply Hs. Qed.
