(* ===== verification/FlushList.v ===== *)
(** * The flush list of dirty buffers (polar_flushlist.h, polar_flushlist.c)

    Dirty buffers are linked through [flush_prev]/[flush_next] of their
    descriptors in the order of the LSN that first dirtied them.  This file
    has the descriptors, the list's control block, one definition per C
    function, and the refinement of the linked list to a Rocq list of
    buffer ids.  [Assert]s are compiled out of production builds and are
    not part of the operations; what they state follows from the
    invariant.  The statistics counters wrap at their width. *)

From S2P Require Import Prelude Dll.


Definition POLAR_FLUSHNEXT_END_OF_LIST : Z := -1.
Definition POLAR_FLUSHNEXT_NOT_IN_LIST : Z := -2.

Definition POLAR_BUF_OLDEST_LSN_IS_FAKE : Z := 1.
Definition POLAR_BUF_FIRST_TOUCHED_AFTER_COPY : Z := 2.

(** The fields of [BufferDesc] that the flush list and the copy buffers
    use.  [copy_buffer] is the index of the copy buffer's descriptor;
    [page_lsn] and [page] are the LSN and the content of the page in the
    buffer; [permanent] is the [BM_PERMANENT] bit of the state word and
    [io_in_progress] the [BM_IO_IN_PROGRESS] bit. *)
Record BufferDesc := mk_buf {
  flush_next : Z;
  flush_prev : Z;
  oldest_lsn : Z;
  copy_buffer : option Z;
  polar_flags : Z;
  recently_modified_count : Z;
  forkNum : Z;
  permanent : bool;
  io_in_progress : bool;
  page_lsn : Z;
  page : list Z
}.

Definition set_links (b : BufferDesc) (n p : Z) : BufferDesc :=
  mk_buf n p (oldest_lsn b) (copy_buffer b) (polar_flags b) (recently_modified_count b)
         (forkNum b) (permanent b) (io_in_progress b) (page_lsn b) (page b).
Definition set_next (b : BufferDesc) (n : Z) : BufferDesc := set_links b n (flush_prev b).
Definition set_prev (b : BufferDesc) (p : Z) : BufferDesc := set_links b (flush_next b) p.
Definition polar_buffer_set_oldest_lsn (b : BufferDesc) (lsn : Z) : BufferDesc :=
  mk_buf (flush_next b) (flush_prev b) lsn (copy_buffer b) (polar_flags b)
         (recently_modified_count b) (forkNum b) (permanent b) (io_in_progress b)
         (page_lsn b) (page b).

(** A descriptor outside the array. *)
Definition no_buf : BufferDesc :=
  mk_buf POLAR_FLUSHNEXT_NOT_IN_LIST POLAR_FLUSHNEXT_NOT_IN_LIST 0 None 0 0 0 false false 0 [].

Record FlushListControl := mk_ctl {
  fc_count : Z;
  first_flush_buffer : Z;
  last_flush_buffer : Z;
  current_pos : Z;
  latest_flush_count : Z;
  fc_insert : Z;
  fc_remove : Z;
  fc_find : Z;
  fc_batch_read : Z;
  fc_cbuf : Z
}.

Definition set_ends (c : FlushListControl) (f l : Z) : FlushListControl :=
  mk_ctl (fc_count c) f l (current_pos c) (latest_flush_count c) (fc_insert c) (fc_remove c)
         (fc_find c) (fc_batch_read c) (fc_cbuf c).
Definition set_pos (c : FlushListControl) (p n : Z) : FlushListControl :=
  mk_ctl (fc_count c) (first_flush_buffer c) (last_flush_buffer c) p n (fc_insert c) (fc_remove c)
         (fc_find c) (fc_batch_read c) (fc_cbuf c).
Definition set_stats (c : FlushListControl) (cnt ins rem bat cb : Z) : FlushListControl :=
  mk_ctl (u32 cnt) (first_flush_buffer c) (last_flush_buffer c) (current_pos c)
         (latest_flush_count c) (u64 ins) (u64 rem) (fc_find c) (u64 bat) (u64 cb).

(** The control block and the buffer descriptors. *)
Record flush_state := mk_fs { fs_ctl : FlushListControl; fs_bufs : list BufferDesc }.

Definition GetBufferDescriptor (st : flush_state) (i : Z) : BufferDesc := aget no_buf (fs_bufs st) i.
Definition put_buf (st : flush_state) (i : Z) (b : BufferDesc) : flush_state :=
  mk_fs (fs_ctl st) (aset (fs_bufs st) i b).
Definition put_ctl (st : flush_state) (c : FlushListControl) : flush_state := mk_fs c (fs_bufs st).

Definition buffer_not_in_flush_list (b : BufferDesc) : bool :=
  (flush_prev b =? POLAR_FLUSHNEXT_NOT_IN_LIST) && (flush_next b =? POLAR_FLUSHNEXT_NOT_IN_LIST).
Definition current_pos_is_unavailable (c : FlushListControl) : bool :=
  current_pos c =? POLAR_FLUSHNEXT_NOT_IN_LIST.
Definition polar_flush_list_is_empty (c : FlushListControl) : bool :=
  (first_flush_buffer c =? POLAR_FLUSHNEXT_END_OF_LIST) &&
  (last_flush_buffer c =? POLAR_FLUSHNEXT_END_OF_LIST).

(** The control block [polar_init_flush_list_ctl] creates. *)
Definition polar_init_flush_list_ctl : FlushListControl :=
  mk_ctl 0 POLAR_FLUSHNEXT_END_OF_LIST POLAR_FLUSHNEXT_END_OF_LIST POLAR_FLUSHNEXT_NOT_IN_LIST 0
         0 0 0 0 0.

(** ** Operations *)

Definition remove_one_buffer (st : flush_state) (i : Z) : flush_state :=
  let b := GetBufferDescriptor st i in
  let prev_flush_id := flush_prev b in
  let next_flush_id := flush_next b in
  let st :=
    if (prev_flush_id =? POLAR_FLUSHNEXT_END_OF_LIST)
       && (next_flush_id =? POLAR_FLUSHNEXT_END_OF_LIST) then
      put_ctl st (set_ends (fs_ctl st) POLAR_FLUSHNEXT_END_OF_LIST POLAR_FLUSHNEXT_END_OF_LIST)
    else if (prev_flush_id =? POLAR_FLUSHNEXT_END_OF_LIST)
            && negb (next_flush_id =? POLAR_FLUSHNEXT_END_OF_LIST) then
      let st := put_buf st next_flush_id
                  (set_prev (GetBufferDescriptor st next_flush_id) prev_flush_id) in
      put_ctl st (set_ends (fs_ctl st) next_flush_id (last_flush_buffer (fs_ctl st)))
    else if negb (prev_flush_id =? POLAR_FLUSHNEXT_END_OF_LIST)
            && (next_flush_id =? POLAR_FLUSHNEXT_END_OF_LIST) then
      let st := put_buf st prev_flush_id
                  (set_next (GetBufferDescriptor st prev_flush_id) next_flush_id) in
      put_ctl st (set_ends (fs_ctl st) (first_flush_buffer (fs_ctl st)) prev_flush_id)
    else
      let st := put_buf st prev_flush_id
                  (set_next (GetBufferDescriptor st prev_flush_id) next_flush_id) in
      put_buf st next_flush_id
        (set_prev (GetBufferDescriptor st next_flush_id) prev_flush_id) in
  let st :=
    if i =? current_pos (fs_ctl st) then
      let p := if next_flush_id =? POLAR_FLUSHNEXT_END_OF_LIST
               then first_flush_buffer (fs_ctl st) else next_flush_id in
      put_ctl st (set_pos (fs_ctl st) p (latest_flush_count (fs_ctl st)))
    else st in
  put_buf st i (set_links (GetBufferDescriptor st i)
                  POLAR_FLUSHNEXT_NOT_IN_LIST POLAR_FLUSHNEXT_NOT_IN_LIST).

Definition append_one_buffer (st : flush_state) (i : Z) : outcome flush_state :=
  if polar_flush_list_is_empty (fs_ctl st) then
    let st := put_buf st i (set_links (GetBufferDescriptor st i)
                              POLAR_FLUSHNEXT_END_OF_LIST POLAR_FLUSHNEXT_END_OF_LIST) in
    Done (put_ctl st (set_ends (fs_ctl st) i i))
  else
    let tail_id := last_flush_buffer (fs_ctl st) in
    let tail := GetBufferDescriptor st tail_id in
    if oldest_lsn tail >? oldest_lsn (GetBufferDescriptor st i) then Fault PANIC
    else
      let st := put_buf st i (set_links (GetBufferDescriptor st i) (flush_next tail) tail_id) in
      let st := put_buf st tail_id (set_next (GetBufferDescriptor st tail_id) i) in
      Done (put_ctl st (set_ends (fs_ctl st) (first_flush_buffer (fs_ctl st)) i)).

Definition polar_remove_buffer_from_flush_list (enabled : bool) (st : flush_state) (i : Z)
  : flush_state :=
  if negb enabled then st
  else
    let st := put_buf st i (polar_buffer_set_oldest_lsn (GetBufferDescriptor st i) InvalidXLogRecPtr) in
    let st := remove_one_buffer st i in
    let c := fs_ctl st in
    put_ctl st (set_stats c (fc_count c - 1) (fc_insert c) (fc_remove c + 1) (fc_batch_read c) (fc_cbuf c)).

(** [fake] is the value of [polar_fake_oldest_lsn()]. *)
Definition polar_put_buffer_to_flush_list (fake : Z) (st : flush_state) (i lsn : Z)
  : outcome flush_state :=
  let lsn := if XLogRecPtrIsInvalid lsn then fake else lsn in
  let st := put_buf st i (polar_buffer_set_oldest_lsn (GetBufferDescriptor st i) lsn) in
  let! st := append_one_buffer st i in
  let c := fs_ctl st in
  Done (put_ctl st (set_stats c (fc_count c + 1) (fc_insert c + 1) (fc_remove c)
                      (fc_batch_read c) (fc_cbuf c))).

Definition polar_adjust_position_in_flush_list (fake : Z) (st : flush_state) (i : Z)
  : outcome flush_state :=
  let st := put_buf st i (polar_buffer_set_oldest_lsn (GetBufferDescriptor st i) fake) in
  let! st := (if negb (flush_next (GetBufferDescriptor st i) =? POLAR_FLUSHNEXT_END_OF_LIST)
              then append_one_buffer (remove_one_buffer st i) i else Done st) in
  let c := fs_ctl st in
  Done (put_ctl st (set_stats c (fc_count c) (fc_insert c) (fc_remove c) (fc_batch_read c) (fc_cbuf c + 1))).

(** The [for] loop of [polar_get_batch_flush_buffer]: the ids stored in
    [batch_buf] and the id it stops at. *)
Fixpoint batch_loop (n : nat) (st : flush_state) (buffer_id : Z) : list Z * Z :=
  match n with
  | O => ([], buffer_id)
  | S n =>
    if buffer_id =? POLAR_FLUSHNEXT_END_OF_LIST then ([], buffer_id)
    else
      let '(l, e) := batch_loop n st (flush_next (GetBufferDescriptor st buffer_id)) in
      (buffer_id :: l, e)
  end.

(** [batch_size] and [max_batch] are the settings
    [polar_bgwriter_batch_size_flushlist] and [polar_bgwriter_max_batch_size]. *)
Definition polar_get_batch_flush_buffer (batch_size max_batch : Z) (st : flush_state)
  : flush_state * list Z :=
  if polar_flush_list_is_empty (fs_ctl st) then (st, [])
  else
    let flush_count := latest_flush_count (fs_ctl st) in
    let st := if current_pos_is_unavailable (fs_ctl st)
              then put_ctl st (set_pos (fs_ctl st) (first_flush_buffer (fs_ctl st)) flush_count)
              else st in
    let '(batch, buffer_id) := batch_loop (Z.to_nat batch_size) st (current_pos (fs_ctl st)) in
    let i := Z.of_nat (length batch) in
    let c := if (buffer_id =? POLAR_FLUSHNEXT_END_OF_LIST) || (flush_count + i >? max_batch)
             then set_pos (fs_ctl st) (first_flush_buffer (fs_ctl st)) 0
             else set_pos (fs_ctl st) buffer_id (flush_count + i) in
    (put_ctl st (set_stats c (fc_count c) (fc_insert c) (fc_remove c) (fc_batch_read c + 1) (fc_cbuf c)),
     batch).

(** ** Refinement to a list of ids *)

(** The pair of [flush_prev] and [flush_next] of buffer [j]. *)
Definition links (st : flush_state) (j : Z) : Z * Z :=
  (flush_prev (GetBufferDescriptor st j), flush_next (GetBufferDescriptor st j)).

Definition lsn_of (st : flush_state) (i : Z) : Z := oldest_lsn (GetBufferDescriptor st i).

Definition buf_id_ok (st : flush_state) (i : Z) : Prop := 0 <= i < Z.of_nat (length (fs_bufs st)).

Record flush_core (st : flush_state) (ids : list Z) : Prop := {
  fw_range : forall i, i ∈ ids -> buf_id_ok st i;
  fw_nodup : NoDup ids;
  fw_first : first_flush_buffer (fs_ctl st) = hd_or POLAR_FLUSHNEXT_END_OF_LIST ids;
  fw_last : last_flush_buffer (fs_ctl st) = last_or POLAR_FLUSHNEXT_END_OF_LIST ids;
  fw_seg : seg (links st) POLAR_FLUSHNEXT_END_OF_LIST ids POLAR_FLUSHNEXT_END_OF_LIST;
  fw_out : forall i, buf_id_ok st i -> i ∉ ids ->
             links st i = (POLAR_FLUSHNEXT_NOT_IN_LIST, POLAR_FLUSHNEXT_NOT_IN_LIST);
  fw_pos : current_pos (fs_ctl st) = POLAR_FLUSHNEXT_NOT_IN_LIST \/
           current_pos (fs_ctl st) = POLAR_FLUSHNEXT_END_OF_LIST \/ current_pos (fs_ctl st) ∈ ids
}.

(** The list is ordered by the first dirtying LSN and counted. *)
Record flush_wf (st : flush_state) (ids : list Z) : Prop := {
  fw_core : flush_core st ids;
  fw_sorted : StronglySorted Z.le (map (lsn_of st) ids);
  fw_count : fc_count (fs_ctl st) = u32 (Z.of_nat (length ids))
}.

Lemma get_put_eq st i b : buf_id_ok st i -> GetBufferDescriptor (put_buf st i b) i = b.
Proof. intros. by apply aget_aset_eq. Qed.

Lemma get_put_ne st i j b : i <> j -> GetBufferDescriptor (put_buf st i b) j = GetBufferDescriptor st j.
Proof. intros. by apply aget_aset_ne. Qed.

Lemma buf_id_ok_put st i b j : buf_id_ok (put_buf st i b) j <-> buf_id_ok st j.
Proof. unfold buf_id_ok, put_buf. simpl. by rewrite length_aset. Qed.

Lemma get_put st i j b :
  buf_id_ok st i ->
  GetBufferDescriptor (put_buf st i b) j = if decide (j = i) then b else GetBufferDescriptor st j.
Proof.
  intros Hi. case_decide as Hd; [subst; by apply get_put_eq|by apply get_put_ne].
Qed.

Lemma get_put_ctl st c j : GetBufferDescriptor (put_ctl st c) j = GetBufferDescriptor st j.
Proof. done. Qed.

Lemma buf_id_ok_ctl st c j : buf_id_ok (put_ctl st c) j <-> buf_id_ok st j.
Proof. done. Qed.

Lemma ctl_put_buf st i b : fs_ctl (put_buf st i b) = fs_ctl st.
Proof. done. Qed.

(** Evaluate reads of descriptors after writes. *)
Ltac fl_ok := rewrite ?buf_id_ok_ctl, ?buf_id_ok_put, ?buf_id_ok_ctl, ?buf_id_ok_put; done.
Ltac fl_get := repeat first [rewrite get_put_ctl | rewrite get_put by fl_ok].

Lemma empty_iff st ids : flush_core st ids -> polar_flush_list_is_empty (fs_ctl st) = bool_decide (ids = []).
Proof.
  intros Hwf. unfold polar_flush_list_is_empty. rewrite (fw_first _ _ Hwf), (fw_last _ _ Hwf).
  destruct ids as [|i ids]; [done|]. rewrite bool_decide_false by done. simpl.
  pose proof (fw_range _ _ Hwf i ltac:(set_solver)) as Hi. unfold buf_id_ok in Hi.
  destruct (i =? POLAR_FLUSHNEXT_END_OF_LIST) eqn:E; zbool; [|done].
  unfold POLAR_FLUSHNEXT_END_OF_LIST in E. lia.
Qed.

(** *** Removal *)

Lemma seg_end_eq st ids i l1 l2 :
  flush_core st ids -> ids = l1 ++ i :: l2 ->
  flush_prev (GetBufferDescriptor st i) = last_or POLAR_FLUSHNEXT_END_OF_LIST l1 /\
  flush_next (GetBufferDescriptor st i) = hd_or POLAR_FLUSHNEXT_END_OF_LIST l2.
Proof.
  intros Hwf ->. pose proof (fw_seg _ _ Hwf) as Hs. apply seg_app in Hs as [_ Hs].
  simpl in Hs. destruct Hs as [Hi _]. unfold links in Hi. by injection Hi.
Qed.

Notation END := POLAR_FLUSHNEXT_END_OF_LIST.

Section remove.
Context (st : flush_state) (i : Z) (l1 l2 : list Z).
Context (Hwf : flush_core st (l1 ++ i :: l2)).

Context (p n : Z) (Ep : last_or POLAR_FLUSHNEXT_END_OF_LIST l1 = p)
        (En : hd_or POLAR_FLUSHNEXT_END_OF_LIST l2 = n).

Lemma rm_prev_case : (p = END /\ l1 = []) \/ (p ∈ l1 /\ p <> END /\ p <> i /\ buf_id_ok st p).
Proof.
  destruct (last_or_in POLAR_FLUSHNEXT_END_OF_LIST l1) as [[H1 H2]|H1]; [left; split; congruence|right].
  rewrite Ep in H1. assert (buf_id_ok st p) as Hok by (apply (fw_range _ _ Hwf); set_solver).
  split_and!; [done| | |done].
  - unfold buf_id_ok, POLAR_FLUSHNEXT_END_OF_LIST in *. lia.
  - pose proof (fw_nodup _ _ Hwf) as Hnd. apply NoDup_app in Hnd as (_ & Hd & _).
    specialize (Hd p H1). set_solver.
Qed.

Lemma rm_next_case : (n = END /\ l2 = []) \/ (n ∈ l2 /\ n <> END /\ n <> i /\ buf_id_ok st n).
Proof.
  destruct (hd_or_in POLAR_FLUSHNEXT_END_OF_LIST l2) as [[H1 H2]|H1]; [left; split; congruence|right].
  rewrite En in H1. assert (buf_id_ok st n) as Hok by (apply (fw_range _ _ Hwf); set_solver).
  split_and!; [done| | |done].
  - unfold buf_id_ok, POLAR_FLUSHNEXT_END_OF_LIST in *. lia.
  - pose proof (fw_nodup _ _ Hwf) as Hnd. apply NoDup_app in Hnd as (_ & _ & Hnd).
    apply NoDup_cons in Hnd as [Hni _]. set_solver.
Qed.

Lemma rm_pn : p = n -> p = END.
Proof.
  intros He. destruct rm_prev_case as [[? _]|(Hp & _)]; [done|].
  destruct rm_next_case as [[? _]|(Hn & _)]; [congruence|].
  pose proof (fw_nodup _ _ Hwf) as Hnd. apply NoDup_app in Hnd as (_ & Hd & _).
  destruct (Hd p Hp). rewrite He. set_solver.
Qed.

(** The descriptors and the control block after the removal. *)
Lemma remove_one_buffer_eq j :
  let st' := remove_one_buffer st i in
  (GetBufferDescriptor st' j =
     if decide (j = i) then set_links (GetBufferDescriptor st j)
                              POLAR_FLUSHNEXT_NOT_IN_LIST POLAR_FLUSHNEXT_NOT_IN_LIST
     else set_links (GetBufferDescriptor st j)
            (if decide (j = p /\ p <> END) then n else flush_next (GetBufferDescriptor st j))
            (if decide (j = n /\ n <> END) then p else flush_prev (GetBufferDescriptor st j))) /\
  length (fs_bufs st') = length (fs_bufs st) /\
  first_flush_buffer (fs_ctl st') = hd_or END (l1 ++ l2) /\
  last_flush_buffer (fs_ctl st') = last_or END (l1 ++ l2) /\
  current_pos (fs_ctl st') =
    (if decide (i = current_pos (fs_ctl st)) then if decide (n = END) then hd_or END (l1 ++ l2) else n
     else current_pos (fs_ctl st)) /\
  fc_count (fs_ctl st') = fc_count (fs_ctl st).
Proof.
  assert (forall b, b = set_links b (flush_next b) (flush_prev b)) as Hid by (by intros []).
  pose proof (fw_range _ _ Hwf i ltac:(set_solver)) as Hi.
  destruct (seg_end_eq _ _ _ _ _ Hwf eq_refl) as [Hprev Hnext].
  unfold remove_one_buffer. rewrite Hprev, Hnext, Ep, En.
  pose proof (fw_first _ _ Hwf) as Hf. pose proof (fw_last _ _ Hwf) as Hl.
  rewrite last_or_app in Hl |- *. rewrite hd_or_app in Hf |- *. rewrite Ep, En in *. simpl in Hf, Hl.
  pose proof rm_pn as Hpn.
  assert (forall q, q = END -> (q =? END) = true) as Ht by (intros; by apply Z.eqb_eq).
  assert (forall q, q <> END -> (q =? END) = false) as Hf' by (intros; by apply Z.eqb_neq).
  destruct rm_prev_case as [[Hp E1]|(Hp & Hpe & Hpi & Hpo)];
    destruct rm_next_case as [[Hn E2]|(Hn & Hne & Hni & Hno)];
    rewrite ?(Ht p), ?(Ht n), ?(Hf' p), ?(Hf' n) by done; cbn [andb negb];
    (destruct (i =? current_pos _) eqn:Ec; zbool; rewrite ?ctl_put_buf in Ec; simpl in Ec).
  all: split_and!; [fl_get|simpl; by rewrite ?length_aset|simpl..].
  all: try (assert (p <> n) by (intros E; apply Hpe, Hpn, E)).
  all: try (rewrite (hd_or_indep n i l1) by (by destruct l1; [apply not_elem_of_nil in Hp|])).
  all: try (rewrite (last_or_indep p i l2) by (by destruct l2; [apply not_elem_of_nil in Hn|])).
  all: repeat case_decide; simplify_eq; try tauto; try congruence; try (rewrite <- Hid; done);
       by unfold set_next, set_prev; simpl.
Qed.
End remove.

Lemma remove_one_buffer_core st i l1 l2 :
  flush_core st (l1 ++ i :: l2) ->
  let st' := remove_one_buffer st i in
  flush_core st' (l1 ++ l2) /\ (forall j, lsn_of st' j = lsn_of st j) /\
  (forall j, exists n p, GetBufferDescriptor st' j = set_links (GetBufferDescriptor st j) n p) /\
  fc_count (fs_ctl st') = fc_count (fs_ctl st) /\ length (fs_bufs st') = length (fs_bufs st).
Proof.
  intros Hwf st'. pose proof (remove_one_buffer_eq st i l1 l2 Hwf _ _ eq_refl eq_refl) as Heq.
  fold st' in Heq. set (p := last_or END l1) in *. set (n := hd_or END l2) in *.
  pose proof (proj1 (proj2 (Heq 0))) as Hlen.
  assert (forall j, buf_id_ok st' j <-> buf_id_ok st j) as Hok by (intros; unfold buf_id_ok; by rewrite Hlen).
  pose proof (fw_nodup _ _ Hwf) as Hnd. apply NoDup_app in Hnd as (Hnd1 & Hdisj & Hnd2).
  apply NoDup_cons in Hnd2 as [Hi2 Hnd2].
  assert (i ∉ l1) as Hi1 by (intros H; by destruct (Hdisj i H); left).
  pose proof (fw_seg _ _ Hwf) as Hs. apply seg_app in Hs as [Hs1 Hs2]. simpl in Hs1, Hs2.
  destruct Hs2 as [_ Hs2]. destruct (Heq 0) as (_ & _ & Hfirst & Hlast & Hpos & Hcnt).
  split_and!; [split| | |done|done].
  - intros j Hj. apply Hok, (fw_range _ _ Hwf). set_solver +Hj.
  - apply NoDup_app. split_and!; [done| |done]. intros x Hx. specialize (Hdisj x Hx). set_solver +Hdisj.
  - done.
  - done.
  - apply seg_app. fold p n. split.
    + apply (seg_set_end (links st) _ _ _ i); [done|done|]. intros j Hj. fold p. unfold links.
      destruct (Heq j) as [-> _]. rewrite decide_False by (intros ->; done). simpl. f_equal.
      * rewrite decide_False; [done|]. intros [-> Hn]. apply (Hdisj n Hj). right.
        destruct (hd_or_in END l2) as [[? _]|?]; [by destruct Hn|done].
      * destruct (decide (j = p)) as [->|Hne].
        -- rewrite decide_True; [done|]. split; [done|]. intros E.
           pose proof (fw_range _ _ Hwf p ltac:(set_solver +Hj)) as Hr. rewrite E in Hr.
           unfold buf_id_ok, POLAR_FLUSHNEXT_END_OF_LIST in Hr. lia.
        -- by rewrite decide_False by (intros [? _]; done).
    + apply (seg_set_start (links st) _ i); [done|done|]. intros j Hj. fold n. unfold links.
      destruct (Heq j) as [-> _]. rewrite decide_False by (intros ->; done). simpl. f_equal.
      * destruct (decide (j = n)) as [->|Hne].
        -- rewrite decide_True; [done|]. split; [done|]. intros E.
           pose proof (fw_range _ _ Hwf n ltac:(set_solver +Hj)) as Hr. rewrite E in Hr.
           unfold buf_id_ok, POLAR_FLUSHNEXT_END_OF_LIST in Hr. lia.
        -- by rewrite decide_False by (intros [? _]; done).
      * rewrite decide_False; [done|]. intros [-> Hn]. destruct (last_or_in END l1) as [[? _]|Hin]; [done|].
        apply (Hdisj p Hin). by right.
  - intros j Hj Hnin. unfold links. destruct (Heq j) as [-> _].
    destruct (decide (j = i)) as [Hji|Hji]; [reflexivity|]. apply Hok in Hj.
    pose proof (fw_out _ _ Hwf j Hj ltac:(set_solver +Hnin Hji)) as Ho. unfold links in Ho.
    simpl. rewrite !decide_False; [done| |].
    + intros [-> Hn]. destruct (last_or_in END l1) as [[? _]|Hin]; [done|]. set_solver +Hin Hnin.
    + intros [-> Hn]. destruct (hd_or_in END l2) as [[? _]|Hin]; [done|]. set_solver +Hin Hnin.
  - rewrite Hpos. case_decide as Hc.
    + right. case_decide; [destruct (hd_or_in END (l1 ++ l2)) as [[-> _]|?]; auto|].
      right. destruct (hd_or_in END l2) as [[? _]|Hin]; [done|set_solver +Hin].
    + destruct (fw_pos _ _ Hwf) as [?|[?|Hin]]; [auto|auto|]. right. right. set_solver +Hin Hc.
  - intros j. unfold lsn_of. destruct (Heq j) as [-> _]. by destruct (decide (j = i)).
  - intros j. destruct (Heq j) as [-> _]. destruct (decide (j = i)); eauto.
Qed.

(** *** Appending *)

Lemma append_one_buffer_core st ids i :
  flush_core st ids -> buf_id_ok st i -> i ∉ ids ->
  if bool_decide (ids <> [] /\ lsn_of st i < lsn_of st (last_or END ids))
  then append_one_buffer st i = Fault PANIC
  else exists st', append_one_buffer st i = Done st' /\ flush_core st' (ids ++ [i]) /\
    (forall j, lsn_of st' j = lsn_of st j) /\
    (forall j, exists n p, GetBufferDescriptor st' j = set_links (GetBufferDescriptor st j) n p) /\
    fc_count (fs_ctl st') = fc_count (fs_ctl st) /\ length (fs_bufs st') = length (fs_bufs st).
Proof.
  intros Hwf Hi Hnin. unfold append_one_buffer. rewrite (empty_iff st ids Hwf).
  destruct (decide (ids = [])) as [->|Hne].
  { rewrite bool_decide_false by naive_solver. rewrite bool_decide_true by done.
    eexists. split; [done|].
    split_and!; [split| | |done|simpl; by rewrite length_aset].
    - intros j Hj. assert (j = i) as -> by set_solver. by rewrite buf_id_ok_ctl, buf_id_ok_put.
    - apply NoDup_singleton.
    - done.
    - done.
    - simpl. split; [|done]. unfold links. fl_get. by rewrite decide_True.
    - intros j Hj Hjn. unfold links. fl_get. rewrite decide_False by set_solver.
      apply (fw_out _ _ Hwf); [|set_solver]. by rewrite buf_id_ok_ctl, buf_id_ok_put in Hj.
    - destruct (fw_pos _ _ Hwf) as [?|[?|Hin]]; [auto|auto|]. by apply not_elem_of_nil in Hin.
    - intros j. unfold lsn_of. fl_get. by destruct (decide (j = i)) as [->|].
    - intros j. fl_get. destruct (decide (j = i)) as [->|]; [eauto|]. 
      exists (flush_next (GetBufferDescriptor st j)), (flush_prev (GetBufferDescriptor st j)).
      by destruct (GetBufferDescriptor st j). }
  rewrite (bool_decide_false (ids = [])) by done. rewrite (fw_last _ _ Hwf).
  destruct (last_or_in END ids) as [[_ ?]|Ht]; [done|].
  set (t := last_or END ids) in *. fold (lsn_of st t) (lsn_of st i).
  case_bool_decide as Hlt; [destruct (_ >? _) eqn:E; zbool; [done|lia]|].
  destruct (_ >? _) eqn:E; zbool; [destruct Hlt; split; [done|lia]|].
  pose proof (fw_range _ _ Hwf t Ht) as Hto. assert (t <> i) as Hti by (intros Et; rewrite Et in Ht; done).
  assert (flush_next (GetBufferDescriptor st t) = END) as Htn.
  { destruct ids as [|x ids'] using rev_ind; [done|]. clear IHids'.
    unfold t in *. rewrite last_or_app in *. simpl in *.
    by destruct (seg_end_eq st _ x ids' [] Hwf eq_refl) as [_ Hn]. }
  set (st' := put_ctl _ _).
  assert (forall j, GetBufferDescriptor st' j =
     if decide (j = i) then set_links (GetBufferDescriptor st i) END t
     else if decide (j = t) then set_next (GetBufferDescriptor st t) i
     else GetBufferDescriptor st j) as Heq.
  { intros j. unfold st'. fl_get. rewrite Htn. destruct (decide (j = t)) as [->|].
    - rewrite !(decide_False (P := t = i)) by done. done.
    - done. }
  exists st'. split; [done|].
  split_and!; [split| | |done|simpl; by rewrite !length_aset].
  - intros j Hj. unfold st'. rewrite buf_id_ok_ctl, !buf_id_ok_put.
    apply elem_of_app in Hj as [Hj|Hj]; [by apply (fw_range _ _ Hwf)|].
    assert (j = i) as -> by set_solver. done.
  - apply NoDup_app. split_and!; [apply Hwf| |apply NoDup_singleton]. set_solver.
  - simpl. rewrite (fw_first _ _ Hwf), hd_or_app. by apply hd_or_indep.
  - simpl. by rewrite last_or_app.
  - apply seg_app. fold t. split.
    + simpl. apply (seg_set_end (links st) _ _ _ END); [apply Hwf|apply Hwf|]. intros j Hj.
      unfold links. rewrite Heq, decide_False by (intros ->; done). fold t.
      destruct (decide (j = t)) as [->|]; done.
    + simpl. split; [|done]. unfold links. rewrite Heq, decide_True by done. done.
  - intros j Hj Hjn. unfold links. rewrite Heq, !decide_False by set_solver.
    apply (fw_out _ _ Hwf); [|set_solver]. unfold st' in Hj. by rewrite buf_id_ok_ctl, !buf_id_ok_put in Hj.
  - destruct (fw_pos _ _ Hwf) as [?|[?|Hin]]; [auto|auto|]. right. right. simpl. set_solver.
  - intros j. unfold lsn_of. rewrite Heq. destruct (decide (j = i)) as [->|]; [done|].
    by destruct (decide (j = t)) as [->|].
  - intros j. rewrite Heq. destruct (decide (j = i)) as [->|]; [eauto|].
    destruct (decide (j = t)) as [->|]; [unfold set_next; eauto|].
    exists (flush_next (GetBufferDescriptor st j)), (flush_prev (GetBufferDescriptor st j)).
    by destruct (GetBufferDescriptor st j).
Qed.

(** *** The operations as a whole *)

Lemma sorted_last_le {A} (f : A -> Z) (l : list A) x :
  StronglySorted Z.le (map f (l ++ [x])) -> forall j, j ∈ l ++ [x] -> f j <= f x.
Proof.
  induction l as [|y l IH]; simpl; intros Hs j Hj.
  - assert (j = x) as -> by set_solver. lia.
  - inversion_clear Hs as [|? ? Hs' Hf]. apply elem_of_cons in Hj as [->|Hj]; [|by apply IH].
    rewrite Forall_forall in Hf. apply Hf. apply list_elem_of_fmap. exists x. set_solver.
Qed.

Lemma sorted_le_last (f : Z -> Z) d ids :
  StronglySorted Z.le (map f ids) -> forall j, j ∈ ids -> f j <= f (last_or d ids).
Proof.
  destruct ids as [|x l] using rev_ind; intros Hs j Hj; [by apply not_elem_of_nil in Hj|].
  rewrite last_or_app. simpl. by apply (sorted_last_le f l).
Qed.

Lemma sorted_snoc (f : Z -> Z) l x :
  StronglySorted Z.le (map f l) -> (forall j, j ∈ l -> f j <= f x) ->
  StronglySorted Z.le (map f (l ++ [x])).
Proof.
  induction l as [|y l IH]; simpl; intros Hs Hx; [repeat constructor|].
  inversion_clear Hs as [|? ? Hs' Hf]. constructor; [apply IH; [done|set_solver]|].
  rewrite Forall_forall in Hf |- *. intros z Hz. apply list_elem_of_fmap in Hz as (j & -> & Hj).
  apply elem_of_app in Hj as [Hj|Hj]; [apply Hf, list_elem_of_fmap; eauto|].
  assert (j = x) as -> by set_solver. apply Hx. set_solver.
Qed.

Lemma sorted_remove (f : Z -> Z) l1 i l2 :
  StronglySorted Z.le (map f (l1 ++ i :: l2)) -> StronglySorted Z.le (map f (l1 ++ l2)).
Proof.
  induction l1 as [|y l1 IH]; simpl; intros Hs; inversion_clear Hs as [|? ? Hs' Hf]; [done|].
  constructor; [by apply IH|]. rewrite Forall_forall in Hf |- *. intros z Hz. apply Hf.
  apply list_elem_of_fmap in Hz as (j & -> & Hj). apply list_elem_of_fmap. exists j. set_solver.
Qed.

Lemma map_lsn_ext (f g : Z -> Z) l : (forall j, j ∈ l -> f j = g j) -> map f l = map g l.
Proof. induction l as [|x l IH]; intros H; simpl; [done|]. f_equal; [|apply IH]; set_solver. Qed.

Lemma u32_add_l x y : u32 (u32 x + y) = u32 (x + y).
Proof. unfold u32, wrap. by rewrite Zplus_mod_idemp_l. Qed.

Lemma u32_idem x : u32 (u32 x) = u32 x.
Proof. unfold u32, wrap. by rewrite Z.mod_mod. Qed.

(** What an operation leaves of the other fields of a descriptor. *)
Definition same_but_links (b b' : BufferDesc) : Prop :=
  exists n p lsn, b' = polar_buffer_set_oldest_lsn (set_links b n p) lsn.

Lemma core_set_lsn st ids i lsn :
  flush_core st ids -> buf_id_ok st i ->
  let st' := put_buf st i (polar_buffer_set_oldest_lsn (GetBufferDescriptor st i) lsn) in
  flush_core st' ids /\
  (forall j, lsn_of st' j = if decide (j = i) then lsn else lsn_of st j) /\
  (forall j, links st' j = links st j) /\ (forall j, buf_id_ok st' j <-> buf_id_ok st j).
Proof.
  intros Hwf Hi st'.
  assert (forall j, links st' j = links st j) as Hl.
  { intros j. unfold links, st'. rewrite get_put by done. by destruct (decide (j = i)) as [->|]. }
  assert (forall j, buf_id_ok st' j <-> buf_id_ok st j) as Hok by (intros; apply buf_id_ok_put).
  split_and!; try done.
  - destruct Hwf as [H1 H2 H3 H4 H5 H6 H7]. split; try done.
    + intros j Hj. by apply Hok, H1.
    + apply (seg_ext (links st)); auto.
    + intros j Hj Hn. rewrite Hl. apply H6; [by apply Hok|done].
  - intros j. unfold lsn_of, st'. rewrite get_put by done. by destruct (decide (j = i)) as [->|].
Qed.

Lemma put_wf fake st ids i lsn :
  flush_wf st ids -> buf_id_ok st i -> i ∉ ids ->
  let lsn' := if XLogRecPtrIsInvalid lsn then fake else lsn in
  if bool_decide (ids <> [] /\ lsn' < lsn_of st (last_or END ids))
  then polar_put_buffer_to_flush_list fake st i lsn = Fault PANIC
  else exists st', polar_put_buffer_to_flush_list fake st i lsn = Done st' /\
    flush_wf st' (ids ++ [i]) /\
    (forall j, lsn_of st' j = if decide (j = i) then lsn' else lsn_of st j) /\
    (forall j, same_but_links (GetBufferDescriptor st j) (GetBufferDescriptor st' j)) /\
    length (fs_bufs st') = length (fs_bufs st).
Proof.
  intros Hwf Hi Hnin lsn'. unfold polar_put_buffer_to_flush_list. fold lsn'.
  set (st1 := put_buf st i _).
  destruct (core_set_lsn st ids i lsn' (fw_core _ _ Hwf) Hi) as (Hc & Hlsn & _ & Hok). fold st1 in Hc, Hlsn, Hok.
  pose proof (append_one_buffer_core st1 ids i Hc (proj2 (Hok i) Hi) Hnin) as Ha.
  assert (ids <> [] -> lsn_of st1 (last_or END ids) = lsn_of st (last_or END ids)) as Htail.
  { intros Hne. rewrite Hlsn, decide_False; [done|]. intros E.
    destruct (last_or_in END ids) as [[_ ?]|Hin]; [done|]. by rewrite E in Hin. }
  rewrite (Hlsn i), decide_True in Ha by done.
  assert (bool_decide (ids <> [] /\ lsn' < lsn_of st1 (last_or END ids)) =
          bool_decide (ids <> [] /\ lsn' < lsn_of st (last_or END ids))) as Hb.
  { apply bool_decide_ext. split; intros [Hne Hlt]; (split; [done|]); specialize (Htail Hne); lia. }
  rewrite Hb in Ha. clear Hb. revert Ha. case_bool_decide as Hbad; intros Ha; [by rewrite Ha|].
  destruct Ha as (st2 & -> & Hc2 & Hlsn2 & Hd2 & Hcnt & Hlen). simpl. eexists. split; [done|].
  assert (forall j, lsn_of st2 j = if decide (j = i) then lsn' else lsn_of st j) as Hl2.
  { intros j. by rewrite Hlsn2. }
  assert (map (lsn_of st2) ids = map (lsn_of st) ids) as Hm.
  { apply map_lsn_ext. intros j Hj. rewrite Hl2, decide_False; [done|]. by intros ->. }
  split_and!; [split| | |].
  - by destruct Hc2.
  - change (StronglySorted Z.le (map (lsn_of st2) (ids ++ [i]))).
    apply sorted_snoc; [rewrite Hm; apply Hwf|]. intros j Hj.
    assert (j <> i) as Hji by (intros ->; done).
    rewrite !Hl2, (decide_True (P := i = i)), (decide_False (P := j = i)) by done.
    pose proof (sorted_le_last (lsn_of st) END ids (fw_sorted _ _ Hwf) j Hj).
    assert (ids <> []) by (by intros ->; apply not_elem_of_nil in Hj).
    assert (~ lsn' < lsn_of st (last_or END ids)) by tauto. lia.
  - simpl. rewrite Hcnt. change (fc_count (fs_ctl st1)) with (fc_count (fs_ctl st)).
    rewrite (fw_count _ _ Hwf), u32_add_l, length_app. f_equal. simpl. lia.
  - done.
  - intros j. change (GetBufferDescriptor (put_ctl st2 _) j) with (GetBufferDescriptor st2 j).
    destruct (Hd2 j) as (n & p & ->). unfold st1. rewrite get_put by done.
    destruct (decide (j = i)) as [->|].
    + by exists n, p, lsn'.
    + exists n, p, (oldest_lsn (GetBufferDescriptor st j)). by destruct (GetBufferDescriptor st j).
  - simpl. rewrite Hlen. apply length_aset.
Qed.

Lemma remove_wf st i l1 l2 :
  flush_wf st (l1 ++ i :: l2) ->
  let st' := polar_remove_buffer_from_flush_list true st i in
  flush_wf st' (l1 ++ l2) /\
  (forall j, lsn_of st' j = if decide (j = i) then InvalidXLogRecPtr else lsn_of st j) /\
  (forall j, same_but_links (GetBufferDescriptor st j) (GetBufferDescriptor st' j)) /\
  length (fs_bufs st') = length (fs_bufs st).
Proof.
  intros Hwf st'. unfold st', polar_remove_buffer_from_flush_list. simpl negb. cbn iota.
  set (st1 := put_buf st i _).
  assert (buf_id_ok st i) as Hi by (apply (fw_range _ _ (fw_core _ _ Hwf)); set_solver).
  destruct (core_set_lsn st _ i InvalidXLogRecPtr (fw_core _ _ Hwf) Hi) as (Hc & Hlsn & _ & _).
  fold st1 in Hc, Hlsn.
  destruct (remove_one_buffer_core st1 i l1 l2 Hc) as (Hc2 & Hl2 & Hd2 & Hcnt & Hlen).
  set (st2 := remove_one_buffer st1 i) in *.
  pose proof (fw_nodup _ _ (fw_core _ _ Hwf)) as Hnd. apply NoDup_app in Hnd as (_ & Hdisj & Hnd2).
  apply NoDup_cons in Hnd2 as [Hi2 _].
  assert (i ∉ l1 ++ l2) as Hni.
  { intros [H|H]%elem_of_app; [|done]. destruct (Hdisj i H). by left. }
  split_and!; [split| | |].
  - by destruct Hc2.
  - change (StronglySorted Z.le (map (lsn_of st2) (l1 ++ l2))).
    rewrite (map_lsn_ext _ (lsn_of st)); [by apply (sorted_remove _ _ i), Hwf|].
    intros j Hj. rewrite Hl2, Hlsn, decide_False; [done|]. by intros ->.
  - cbn [fs_ctl put_ctl set_stats fc_count]. rewrite Hcnt.
    change (fc_count (fs_ctl st1)) with (fc_count (fs_ctl st)).
    rewrite (fw_count _ _ Hwf). change (u32 ?x - 1) with (u32 x + (-1)).
    rewrite u32_add_l, !length_app. f_equal. simpl. lia.
  - intros j. change (lsn_of (put_ctl st2 _) j) with (lsn_of st2 j). by rewrite Hl2, Hlsn.
  - intros j. change (GetBufferDescriptor (put_ctl st2 _) j) with (GetBufferDescriptor st2 j).
    destruct (Hd2 j) as (n & p & ->). unfold st1. rewrite get_put by done.
    destruct (decide (j = i)) as [->|].
    + by exists n, p, InvalidXLogRecPtr.
    + exists n, p, (oldest_lsn (GetBufferDescriptor st j)). by destruct (GetBufferDescriptor st j).
  - cbn [fs_bufs put_ctl]. rewrite Hlen. apply length_aset.
Qed.

(** A buffer touched after it was copied goes to the end of the list with
    a new LSN. *)
Lemma adjust_wf fake st i l1 l2 :
  flush_wf st (l1 ++ i :: l2) -> (forall j, j ∈ l1 ++ i :: l2 -> lsn_of st j <= fake) ->
  exists st', polar_adjust_position_in_flush_list fake st i = Done st' /\
    flush_wf st' (l1 ++ l2 ++ [i]) /\
    (forall j, lsn_of st' j = if decide (j = i) then fake else lsn_of st j) /\
    (forall j, same_but_links (GetBufferDescriptor st j) (GetBufferDescriptor st' j)) /\
    length (fs_bufs st') = length (fs_bufs st).
Proof.
  intros Hwf Hmax. unfold polar_adjust_position_in_flush_list. set (st1 := put_buf st i _).
  assert (buf_id_ok st i) as Hi by (apply (fw_range _ _ (fw_core _ _ Hwf)); set_solver).
  destruct (core_set_lsn st _ i fake (fw_core _ _ Hwf) Hi) as (Hc & Hlsn & Hlk & Hok).
  fold st1 in Hc, Hlsn, Hlk, Hok.
  pose proof (fw_nodup _ _ (fw_core _ _ Hwf)) as Hnd. apply NoDup_app in Hnd as (_ & Hdisj & Hnd2).
  apply NoDup_cons in Hnd2 as [Hi2 _].
  assert (i ∉ l1 ++ l2) as Hni.
  { intros [H|H]%elem_of_app; [|done]. destruct (Hdisj i H). by left. }
  destruct (seg_end_eq _ _ _ _ _ Hc eq_refl) as [_ Hnext]. rewrite Hnext.
  enough (exists st2, (if negb (hd_or END l2 =? END) then append_one_buffer (remove_one_buffer st1 i) i
                       else Done st1) = Done st2 /\ flush_core st2 (l1 ++ l2 ++ [i]) /\
     (forall j, lsn_of st2 j = lsn_of st1 j) /\
     (forall j, exists n p, GetBufferDescriptor st2 j = set_links (GetBufferDescriptor st1 j) n p) /\
     fc_count (fs_ctl st2) = fc_count (fs_ctl st1) /\ length (fs_bufs st2) = length (fs_bufs st1))
    as (st2 & -> & Hc2 & Hl2 & Hd2 & Hcnt & Hlen).
  { simpl. eexists. split; [done|]. split_and!; [split| | |].
    - by destruct Hc2.
    - change (StronglySorted Z.le (map (lsn_of st2) (l1 ++ l2 ++ [i]))). rewrite app_assoc.
      apply sorted_snoc.
      + rewrite (map_lsn_ext _ (lsn_of st)); [by apply (sorted_remove _ _ i), Hwf|].
        intros j Hj. rewrite Hl2, Hlsn, decide_False; [done|]. by intros ->.
      + intros j Hj. rewrite !Hl2, !Hlsn, (decide_True (P := i = i)) by done.
        rewrite decide_False by (by intros ->). apply Hmax. set_solver.
    - simpl. rewrite Hcnt. change (fc_count (fs_ctl st1)) with (fc_count (fs_ctl st)).
      rewrite (fw_count _ _ Hwf), u32_idem, !length_app. f_equal. simpl. lia.
    - intros j. change (lsn_of (put_ctl st2 _) j) with (lsn_of st2 j). by rewrite Hl2, Hlsn.
    - intros j. change (GetBufferDescriptor (put_ctl st2 _) j) with (GetBufferDescriptor st2 j).
      destruct (Hd2 j) as (n & p & ->). unfold st1. rewrite get_put by done.
      destruct (decide (j = i)) as [->|].
      + by exists n, p, fake.
      + exists n, p, (oldest_lsn (GetBufferDescriptor st j)). by destruct (GetBufferDescriptor st j).
    - simpl. rewrite Hlen. apply length_aset. }
  destruct (hd_or END l2 =? END) eqn:E; zbool; simpl.
  - destruct (hd_or_in END l2) as [[_ ->]|Hin].
    + exists st1. split_and!; try done. intros j.
      exists (flush_next (GetBufferDescriptor st1 j)), (flush_prev (GetBufferDescriptor st1 j)).
      by destruct (GetBufferDescriptor st1 j).
    + pose proof (fw_range _ _ Hc (hd_or END l2) ltac:(set_solver)) as Hr. rewrite E in Hr.
      unfold buf_id_ok, POLAR_FLUSHNEXT_END_OF_LIST in Hr. lia.
  - destruct (remove_one_buffer_core st1 i l1 l2 Hc) as (Hc2 & Hl2 & Hd2 & Hcnt & Hlen).
    set (st2 := remove_one_buffer st1 i) in *.
    assert (buf_id_ok st2 i) as Hi2' by (unfold buf_id_ok; rewrite Hlen; by apply Hok).
    pose proof (append_one_buffer_core st2 (l1 ++ l2) i Hc2 Hi2' Hni) as Ha.
    rewrite bool_decide_false in Ha.
    2:{ intros [Hne Hlt]. rewrite !Hl2, !Hlsn, (decide_True (P := i = i)) in Hlt by done.
        destruct (last_or_in END (l1 ++ l2)) as [[_ ?]|Hin]; [done|].
        rewrite decide_False in Hlt by (intros Ee; by rewrite Ee in Hin).
        specialize (Hmax (last_or END (l1 ++ l2)) ltac:(set_solver)). lia. }
    destruct Ha as (st3 & Ha & Hc3 & Hl3 & Hd3 & Hcnt3 & Hlen3). exists st3.
    rewrite <- app_assoc in Hc3. split_and!; [done|done| | |by rewrite Hcnt3, Hcnt|by rewrite Hlen3, Hlen].
    + intros j. by rewrite Hl3, Hl2.
    + intros j. destruct (Hd3 j) as (n & p & ->). destruct (Hd2 j) as (n' & p' & ->). by exists n, p.
Qed.

(** *** Batches *)

Lemma batch_loop_eq st ids n k :
  flush_core st ids -> (k <= length ids)%nat ->
  batch_loop n st (hd_or END (drop k ids)) = (take n (drop k ids), hd_or END (drop (k + n) ids)).
Proof.
  intros Hc. revert k. induction n as [|n IH]; intros k Hk; simpl.
  { by rewrite Nat.add_0_r. }
  destruct (drop k ids) as [|i l] eqn:Hd; simpl.
  - assert (length ids <= k)%nat by (apply (f_equal length) in Hd; rewrite length_drop in Hd; simpl in Hd; lia).
    by rewrite drop_ge by lia.
  - assert (ids = take k ids ++ i :: l) as Hids by (rewrite <- Hd; by rewrite take_drop).
    assert (k < length ids)%nat as Hlt.
    { apply (f_equal length) in Hd. rewrite length_drop in Hd. simpl in Hd. lia. }
    destruct (seg_end_eq st ids i (take k ids) l Hc Hids) as [_ Hn].
    pose proof (fw_range _ _ Hc i ltac:(rewrite Hids; set_solver)) as Hr.
    unfold buf_id_ok in Hr. destruct (i =? END) eqn:E; zbool; [unfold POLAR_FLUSHNEXT_END_OF_LIST in E; lia|].
    assert (drop (S k) ids = l) as Hd2.
    { replace (S k) with (k + 1)%nat by lia. rewrite <- drop_drop, Hd. done. }
    rewrite Hn, <- Hd2, IH by lia. rewrite Hd2.
    by replace (S k + n)%nat with (k + S n)%nat by lia.
Qed.

(** The cursor stands at element [k] of the list, or is unset and [k] is 0. *)
Definition cursor_at (st : flush_state) (ids : list Z) (k : nat) : Prop :=
  ids !! k = Some (current_pos (fs_ctl st)) \/
  (current_pos (fs_ctl st) = POLAR_FLUSHNEXT_NOT_IN_LIST /\ k = 0%nat).

Lemma wf_set_pos st ids p n c1 c2 c3 c4 :
  flush_wf st ids -> (p = END \/ p ∈ ids) ->
  flush_wf (put_ctl st (set_stats (set_pos (fs_ctl st) p n) (fc_count (fs_ctl st)) c1 c2 c3 c4)) ids.
Proof.
  intros [Hc Hs Hcnt] Hp. split; [|done|].
  - destruct Hc as [H1 H2 H3 H4 H5 H6 H7]. split; try done. right. done.
  - simpl. rewrite Hcnt. apply u32_idem.
Qed.

Lemma hd_or_drop ids (k : nat) i : ids !! k = Some i -> hd_or END (drop k ids) = i.
Proof. intros Hk. by rewrite (drop_S ids i k Hk). Qed.

Lemma batch_wf batch_size max_batch st ids (k : nat) :
  flush_wf st ids -> ids <> [] -> cursor_at st ids k -> 0 <= batch_size ->
  let n := Z.to_nat batch_size in
  let '(st', batch) := polar_get_batch_flush_buffer batch_size max_batch st in
  batch = take n (drop k ids) /\ flush_wf st' ids /\
  fs_bufs st' = fs_bufs st /\
  if bool_decide ((length ids <= k + n)%nat \/
                  max_batch < latest_flush_count (fs_ctl st) + Z.of_nat (length batch))
  then current_pos (fs_ctl st') = hd_or END ids /\ latest_flush_count (fs_ctl st') = 0
  else ids !! (k + n)%nat = Some (current_pos (fs_ctl st')) /\
       latest_flush_count (fs_ctl st') = latest_flush_count (fs_ctl st) + Z.of_nat (length batch).
Proof.
  intros Hwf Hne Hcur Hb n. pose proof (fw_core _ _ Hwf) as Hc.
  unfold polar_get_batch_flush_buffer. rewrite (empty_iff st ids Hc), bool_decide_false by done.
  set (st1 := if current_pos_is_unavailable (fs_ctl st) then _ else _).
  assert (current_pos (fs_ctl st1) = hd_or END (drop k ids) /\ (k <= length ids)%nat /\
          fs_bufs st1 = fs_bufs st /\
          fs_ctl st1 = set_pos (fs_ctl st) (current_pos (fs_ctl st1)) (latest_flush_count (fs_ctl st)))
    as (Hp1 & Hk & Hb1 & Hctl).
  { unfold st1, current_pos_is_unavailable.
    assert (forall c, c = set_pos c (current_pos c) (latest_flush_count c)) as Hid by (by intros []).
    destruct Hcur as [Hk|[Hu ->]].
    - pose proof (fw_range _ _ Hc _ (list_elem_of_lookup_2 _ _ _ Hk)) as Hr. unfold buf_id_ok in Hr.
      destruct (_ =? _) eqn:E; zbool; [unfold POLAR_FLUSHNEXT_NOT_IN_LIST in E; lia|].
      rewrite (hd_or_drop _ _ _ Hk). apply lookup_lt_Some in Hk. split_and!; [done|lia|done|apply Hid].
    - rewrite Hu, Z.eqb_refl. simpl. rewrite drop_0. split_and!; [apply (fw_first _ _ Hc)|lia|done|done]. }
  assert (flush_core st1 ids) as Hc1.
  { destruct Hc as [H1 H2 H3 H4 H5 H6 H7]. unfold st1.
    destruct (current_pos_is_unavailable _); [|done]. split; try done. simpl. rewrite H3.
    right. destruct (hd_or_in END ids) as [[-> _]|?]; auto. }
  rewrite Hp1. fold n. rewrite (batch_loop_eq st1 ids n k Hc1 Hk). cbv zeta.
  set (batch := take n (drop k ids)).
  assert ((hd_or END (drop (k + n) ids) =? END) = bool_decide (length ids <= k + n)%nat) as He.
  { destruct (decide (length ids <= k + n)%nat) as [Hle|Hgt].
    - rewrite bool_decide_true by done. by rewrite drop_ge by done.
    - rewrite bool_decide_false by done. apply Z.eqb_neq.
      destruct (lookup_lt_is_Some_2 ids (k + n)%nat ltac:(lia)) as [i Hi]. rewrite (hd_or_drop _ _ _ Hi).
      pose proof (fw_range _ _ Hc _ (list_elem_of_lookup_2 _ _ _ Hi)) as Hr.
      unfold buf_id_ok in Hr. unfold POLAR_FLUSHNEXT_END_OF_LIST. lia. }
  rewrite He. change (first_flush_buffer (fs_ctl st1)) with (first_flush_buffer (fs_ctl st1)).
  rewrite Hctl. cbn [set_pos first_flush_buffer].
  assert (forall p m, p = END \/ p ∈ ids -> flush_wf (put_ctl st1
     (set_stats (set_pos (set_pos (fs_ctl st) (current_pos (fs_ctl st1)) (latest_flush_count (fs_ctl st))) p m)
        (fc_count (fs_ctl st)) (fc_insert (fs_ctl st)) (fc_remove (fs_ctl st))
        (fc_batch_read (fs_ctl st) + 1) (fc_cbuf (fs_ctl st)))) ids) as Hset.
  { intros p m Hp. pose proof (wf_set_pos st ids p m (fc_insert (fs_ctl st)) (fc_remove (fs_ctl st))
      (fc_batch_read (fs_ctl st) + 1) (fc_cbuf (fs_ctl st)) Hwf Hp) as Hw.
    unfold put_ctl in *. rewrite Hb1. exact Hw. }
  split; [done|]. destruct (bool_decide (length ids <= k + n)%nat || _) eqn:Eb; cbn [fc_count set_pos].
  - rewrite bool_decide_true.
    2:{ apply orb_true_iff in Eb as [Eb|Eb]; [left; by apply bool_decide_eq_true in Eb|right; zbool; lia]. }
    split; [apply Hset; rewrite (fw_first _ _ Hc); destruct (hd_or_in END ids) as [[-> _]|?]; auto|].
    split; [done|]. split; [apply (fw_first _ _ Hc)|done].
  - apply orb_false_iff in Eb as [Eb1 Eb2]. apply bool_decide_eq_false in Eb1. zbool.
    rewrite bool_decide_false by (intros [?|?]; lia).
    destruct (lookup_lt_is_Some_2 ids (k + n)%nat ltac:(lia)) as [i Hi].
    rewrite (hd_or_drop _ _ _ Hi).
    split; [apply Hset; right; by eapply list_elem_of_lookup_2|]. done.
Qed.

(** ** Properties *)

(** Three clean buffers, then the buffers 1, 0 and 2 dirtied in this
    order. *)
Definition demo_bufs : list BufferDesc := replicate 3 no_buf.
Definition demo_fs : flush_state := mk_fs polar_init_flush_list_ctl demo_bufs.

Lemma init_flush_wf (bufs : list BufferDesc) :
  Forall (fun b => flush_prev b = POLAR_FLUSHNEXT_NOT_IN_LIST /\
                   flush_next b = POLAR_FLUSHNEXT_NOT_IN_LIST) bufs ->
  flush_wf (mk_fs polar_init_flush_list_ctl bufs) [].
Proof.
  intros Hb. split; [split|constructor|done]; try done.
  - intros i Hi. by apply not_elem_of_nil in Hi.
  - constructor.
  - intros i Hi _. unfold links, GetBufferDescriptor. simpl. unfold buf_id_ok in Hi. simpl in Hi.
    unfold aget. rewrite decide_True by lia.
    destruct (lookup_lt_is_Some_2 bufs (Z.to_nat i) ltac:(lia)) as [b Hlk]. rewrite Hlk. simpl.
    rewrite Forall_lookup in Hb. by destruct (Hb _ _ Hlk) as [-> ->].
  - by left.
Qed.

Definition demo_fs1 : flush_state :=
  match polar_put_buffer_to_flush_list 100 demo_fs 1 10 with Done s => s | _ => demo_fs end.
Definition demo_fs2 : flush_state :=
  match polar_put_buffer_to_flush_list 100 demo_fs1 0 20 with Done s => s | _ => demo_fs end.

Lemma demo_fs1_wf : flush_wf demo_fs1 [1].
Proof.
  assert (flush_wf demo_fs []) as H0 by (apply init_flush_wf; by repeat constructor).
  pose proof (put_wf 100 demo_fs [] 1 10 H0 ltac:(unfold buf_id_ok; simpl; lia) ltac:(set_solver)) as H.
  cbv zeta in H. rewrite bool_decide_false in H by naive_solver. destruct H as (st' & He & Hw & _).
  unfold demo_fs1. by rewrite He.
Qed.

Lemma demo_fs2_wf : flush_wf demo_fs2 [1; 0].
Proof.
  pose proof (put_wf 100 demo_fs1 [1] 0 20 demo_fs1_wf ltac:(unfold buf_id_ok; simpl; lia) ltac:(set_solver)) as H.
  cbv zeta in H. rewrite bool_decide_false in H by (intros [_ Hlt]; vm_compute in Hlt; congruence).
  destruct H as (st' & He & Hw & _). unfold demo_fs2. by rewrite He.
Qed.

(** C26: putting a dirty buffer into the flush list appends it at the end
    with its LSN (or the fake LSN when none is given), keeps the doubly
    linked list, its order by LSN and its count, and touches no other
    field of any descriptor; it PANICs exactly when the last buffer has a
    larger LSN. *)
Theorem put_buffer_refines_append (fake : Z) (st : flush_state) (ids : list Z) (i lsn : Z) :
  flush_wf st ids -> buf_id_ok st i -> i ∉ ids ->
  let lsn' := if XLogRecPtrIsInvalid lsn then fake else lsn in
  if bool_decide (ids <> [] /\ lsn' < lsn_of st (last_or POLAR_FLUSHNEXT_END_OF_LIST ids))
  then polar_put_buffer_to_flush_list fake st i lsn = Fault PANIC
  else exists st', polar_put_buffer_to_flush_list fake st i lsn = Done st' /\
    flush_wf st' (ids ++ [i]) /\
    (forall j, lsn_of st' j = if decide (j = i) then lsn' else lsn_of st j) /\
    (forall j, same_but_links (GetBufferDescriptor st j) (GetBufferDescriptor st' j)) /\
    length (fs_bufs st') = length (fs_bufs st).
Proof. apply put_wf. Qed.

Lemma put_buffer_refines_append_witness :
  (exists st', polar_put_buffer_to_flush_list 100 demo_fs2 2 0 = Done st' /\ flush_wf st' [1; 0; 2]) /\
  polar_put_buffer_to_flush_list 100 demo_fs2 2 15 = Fault PANIC.
Proof.
  assert (buf_id_ok demo_fs2 2) as Hok by (vm_compute; split; congruence).
  assert (2 ∉ [1; 0]) as Hn by set_solver. split.
  - pose proof (put_buffer_refines_append 100 demo_fs2 [1; 0] 2 0 demo_fs2_wf Hok Hn) as H.
    cbv zeta in H. rewrite bool_decide_false in H by (intros [_ Hlt]; vm_compute in Hlt; congruence).
    destruct H as (st' & He & Hw & _). by exists st'.
  - pose proof (put_buffer_refines_append 100 demo_fs2 [1; 0] 2 15 demo_fs2_wf Hok Hn) as H.
    cbv zeta in H. rewrite bool_decide_true in H by (split; [done|vm_compute; reflexivity]). exact H.
Defined.

(** Calls of [polar_get_batch_flush_buffer] one after the other. *)
Fixpoint run_batches (m : nat) (batch_size max_batch : Z) (st : flush_state) : list Z :=
  match m with
  | O => []
  | S m => let '(st, batch) := polar_get_batch_flush_buffer batch_size max_batch st in
           batch ++ run_batches m batch_size max_batch st
  end.

Lemma run_batches_from m batch_size max_batch st ids (k : nat) :
  flush_wf st ids -> ids <> [] -> cursor_at st ids k -> 0 < batch_size ->
  latest_flush_count (fs_ctl st) = Z.of_nat k -> Z.of_nat (length ids) <= max_batch ->
  (k + (m - 1) * Z.to_nat batch_size < length ids)%nat ->
  run_batches m batch_size max_batch st = take (m * Z.to_nat batch_size) (drop k ids).
Proof.
  revert st k. induction m as [|m IH]; intros st k Hwf Hne Hcur Hb Hl Hmax Hm; [done|].
  pose proof (batch_wf batch_size max_batch st ids k Hwf Hne Hcur ltac:(lia)) as H.
  cbn [run_batches]. destruct (polar_get_batch_flush_buffer batch_size max_batch st) as [st' batch].
  set (n := Z.to_nat batch_size) in *. cbv zeta in H. destruct H as (-> & Hwf' & _ & Hpos).
  destruct m as [|m]; [simpl; by rewrite app_nil_r, Nat.add_0_r|].
  assert (k + n < length ids)%nat as Hlt by (simpl in Hm; lia).
  assert (length (take n (drop k ids)) = n) as Hlen by (rewrite length_take, length_drop; lia).
  rewrite Hlen, bool_decide_false in Hpos by (rewrite Hl; intros [?|?]; lia).
  destruct Hpos as [Hc Hlat].
  rewrite (IH st' (k + n)%nat Hwf' Hne (or_introl Hc) Hb); [|lia|done|simpl in *; lia].
  change (S (S m) * n)%nat with (n + S m * n)%nat. rewrite <- take_take_drop.
  by rewrite drop_drop.
Qed.

(** When nothing else touches the list, successive batches hand out
    every dirty buffer exactly once and in the order of the list: with a
    cursor at the start, [m] batches of [batch_size] that just reach the
    end give the whole list. *)
Theorem batches_cover_list (m : nat) (batch_size max_batch : Z) (st : flush_state) (ids : list Z) :
  flush_wf st ids -> ids <> [] -> cursor_at st ids 0 -> latest_flush_count (fs_ctl st) = 0 ->
  0 < batch_size -> Z.of_nat (length ids) <= max_batch ->
  ((m - 1) * Z.to_nat batch_size < length ids <= m * Z.to_nat batch_size)%nat ->
  run_batches m batch_size max_batch st = ids.
Proof.
  intros Hwf Hne Hcur Hl Hb Hmax Hm.
  rewrite (run_batches_from m batch_size max_batch st ids 0) by (done || lia).
  rewrite drop_0. apply take_ge. lia.
Qed.

Lemma batches_cover_list_witness : run_batches 2 1 100 demo_fs2 = [1; 0].
Proof.
  apply (batches_cover_list 2 1 100 demo_fs2 [1; 0]);
    [exact demo_fs2_wf|done|right; split; reflexivity|reflexivity|lia|simpl; lia|simpl; lia].
Defined.

(** The cursor that removal leaves behind when it empties the list is
    the end marker, which [polar_get_batch_flush_buffer] does not take for
    an unset cursor: the next call returns no buffer although the list has
    some again, and only then puts the cursor on the first buffer. *)
Theorem drained_cursor_skips_batch (batch_size max_batch : Z) (st : flush_state) (ids : list Z) :
  flush_wf st ids -> ids <> [] -> current_pos (fs_ctl st) = POLAR_FLUSHNEXT_END_OF_LIST ->
  0 < batch_size ->
  let '(st', batch) := polar_get_batch_flush_buffer batch_size max_batch st in
  batch = [] /\ ids !! 0%nat = Some (current_pos (fs_ctl st')).
Proof.
  intros Hwf Hne Hp Hb. unfold polar_get_batch_flush_buffer, current_pos_is_unavailable.
  rewrite (empty_iff st ids (fw_core _ _ Hwf)), bool_decide_false, Hp by done.
  change (POLAR_FLUSHNEXT_END_OF_LIST =? POLAR_FLUSHNEXT_NOT_IN_LIST) with false. cbv iota. rewrite Hp.
  destruct (Z.to_nat batch_size) as [|n] eqn:En; [lia|]. simpl.
  rewrite (fw_first _ _ (fw_core _ _ Hwf)). destruct ids; [done|]. done.
Qed.

(** The list is filled, read once, emptied and filled again. *)
Definition demo_drained : flush_state :=
  let st := (polar_get_batch_flush_buffer 10 100 demo_fs1).1 in
  let st := polar_remove_buffer_from_flush_list true st 1 in
  match polar_put_buffer_to_flush_list 100 st 0 30 with Done s => s | _ => demo_fs end.

Lemma demo_drained_wf : flush_wf demo_drained [0].
Proof.
  pose proof (batch_wf 10 100 demo_fs1 [1] 0 demo_fs1_wf ltac:(done) ltac:(right; split; reflexivity)
    ltac:(lia)) as H. cbv zeta in H.
  change (polar_get_batch_flush_buffer 10 100 demo_fs1)
    with ((polar_get_batch_flush_buffer 10 100 demo_fs1).1, [1]) in H. destruct H as (_ & H1 & _).
  destruct (remove_wf _ 1 [] [] H1) as (H2 & _). simpl app in H2.
  assert (buf_id_ok (polar_remove_buffer_from_flush_list true
    (polar_get_batch_flush_buffer 10 100 demo_fs1).1 1) 0) as Hok by (vm_compute; split; congruence).
  pose proof (put_wf 100 _ [] 0 30 H2 Hok ltac:(set_solver)) as H3.
  cbv zeta in H3. rewrite bool_decide_false in H3 by naive_solver. destruct H3 as (st' & He & Hw & _).
  unfold demo_drained. cbv zeta. by rewrite He.
Qed.

Lemma drained_cursor_skips_batch_witness :
  (polar_get_batch_flush_buffer 10 100 demo_drained).2 = [] /\
  (polar_get_batch_flush_buffer 10 100
     (polar_get_batch_flush_buffer 10 100 demo_drained).1).2 = [0].
Proof.
  split; [|reflexivity].
  pose proof (drained_cursor_skips_batch 10 100 demo_drained [0] demo_drained_wf
    ltac:(discriminate) eq_refl ltac:(lia)) as H.
  destruct (polar_get_batch_flush_buffer 10 100 demo_drained). exact (proj1 H).
Defined.
