(* ===== verification/CopyBuf.v ===== *)
(** * Copy buffers and the consistent LSN (polar_copybuf.c, polar_bufmgr.c)

    A primary may not write a page that is newer than what every replica
    has replayed; to let the consistent LSN (the point recovery would start
    from) advance, an older version of a hot page is kept in a copy buffer
    and written instead.  This file has the copy buffer pool, the functions
    of polar_bufmgr.c that set and reset a buffer's oldest LSN, and the
    calculation of the consistent LSN.

    [env] holds settings and the answers of the rest of the server; the
    I/O lock is held during an operation on a copy buffer, so each
    operation is one step.  Of the buffer's state word only the flags in
    [BufferDesc] are kept; [valid_dirty] says that [BM_VALID] and
    [BM_DIRTY] are set. *)

From S2P Require Import Prelude FlushList.

Definition MAIN_FORKNUM : Z := 0.
Definition FSM_FORKNUM : Z := 1.
Definition VISIBILITYMAP_FORKNUM : Z := 2.
Definition INIT_FORKNUM : Z := 3.

Definition FREENEXT_END_OF_LIST : Z := -1.
Definition FREENEXT_NOT_IN_LIST : Z := -2.

Inductive CopyBufferState : Set := POLAR_COPY_BUFFER_UNUSED | POLAR_COPY_BUFFER_USED.

#[export] Instance CopyBufferState_eq_dec : EqDecision CopyBufferState.
Proof. solve_decision. Defined.

(** The descriptor together with the page of the copy buffer; of the tag
    only the origin buffer matters. *)
Record CopyBufferDesc := mk_cbuf {
  cb_free_next : Z;
  cb_oldest_lsn : Z;
  cb_origin_buffer : Z;
  cb_state : CopyBufferState;
  cb_pass_count : Z;
  cb_is_flushed : bool;
  cb_page_lsn : Z;
  cb_page : list Z
}.

Definition no_cbuf : CopyBufferDesc := mk_cbuf FREENEXT_NOT_IN_LIST 0 0 POLAR_COPY_BUFFER_UNUSED 0 false 0 [].

Record CopyBufferControl := mk_cctl {
  first_free_buffer : Z;
  last_free_buffer : Z;
  flushed_count : Z;
  release_count : Z;
  copied_count : Z;
  unavailable_count : Z;
  full_count : Z
}.

(** Settings and the rest of the server. *)
Record env := mk_env {
  polar_enable_shared_storage_mode : bool;
  polar_enable_flushlist : bool;
  polar_enable_copy_buffer : bool;
  polar_in_replica_mode : bool;
  RecoveryInProgress : bool;
  polar_bg_redo_state_is_parallel : bool;
  polar_enable_control_vm_flush : bool;
  polar_buffer_copy_min_modified_count : Z;
  polar_buffer_copy_lsn_lag_with_cons_lsn : Z
}.

Definition polar_flush_list_enabled (e : env) : bool :=
  polar_enable_shared_storage_mode e && polar_enable_flushlist e.
Definition polar_copy_buffer_enabled (e : env) : bool :=
  polar_enable_shared_storage_mode e && polar_enable_copy_buffer e.

(** The buffers, the copy buffers, the shared consistent LSN, the WAL
    position that a newly dirtied buffer gets, and what was written: the
    end of the flushed WAL and the stored pages with their LSN. *)
Record bufsys := mk_sys {
  bs_flush : flush_state;
  bs_cbufs : list CopyBufferDesc;
  bs_cctl : CopyBufferControl;
  bs_consistent_lsn : Z;
  bs_clock : Z;
  bs_wal_flushed : Z;
  bs_disk : gmap Z (Z * list Z)
}.

Definition buf (s : bufsys) (i : Z) : BufferDesc := GetBufferDescriptor (bs_flush s) i.
Definition cbuf (s : bufsys) (c : Z) : CopyBufferDesc := aget no_cbuf (bs_cbufs s) c.

Definition with_flush (s : bufsys) (f : flush_state) : bufsys :=
  mk_sys f (bs_cbufs s) (bs_cctl s) (bs_consistent_lsn s) (bs_clock s) (bs_wal_flushed s) (bs_disk s).
Definition set_buf (s : bufsys) (i : Z) (b : BufferDesc) : bufsys :=
  with_flush s (put_buf (bs_flush s) i b).
Definition set_cbuf (s : bufsys) (c : Z) (d : CopyBufferDesc) : bufsys :=
  mk_sys (bs_flush s) (aset (bs_cbufs s) c d) (bs_cctl s) (bs_consistent_lsn s) (bs_clock s)
         (bs_wal_flushed s) (bs_disk s).
Definition set_cctl (s : bufsys) (k : CopyBufferControl) : bufsys :=
  mk_sys (bs_flush s) (bs_cbufs s) k (bs_consistent_lsn s) (bs_clock s) (bs_wal_flushed s) (bs_disk s).
Definition polar_set_consistent_lsn (s : bufsys) (lsn : Z) : bufsys :=
  mk_sys (bs_flush s) (bs_cbufs s) (bs_cctl s) lsn (bs_clock s) (bs_wal_flushed s) (bs_disk s).
(** [XLogFlush] up to [lsn], and the write of a page. *)
Definition XLogFlush (s : bufsys) (lsn : Z) : bufsys :=
  mk_sys (bs_flush s) (bs_cbufs s) (bs_cctl s) (bs_consistent_lsn s) (bs_clock s)
         (Z.max (bs_wal_flushed s) lsn) (bs_disk s).
Definition smgrwrite (s : bufsys) (i lsn : Z) (pg : list Z) : bufsys :=
  mk_sys (bs_flush s) (bs_cbufs s) (bs_cctl s) (bs_consistent_lsn s) (bs_clock s)
         (bs_wal_flushed s) (<[i := (lsn, pg)]> (bs_disk s)).

Definition buf_set_copy (b : BufferDesc) (c : option Z) (flags : Z) : BufferDesc :=
  mk_buf (flush_next b) (flush_prev b) (oldest_lsn b) c flags (recently_modified_count b)
         (forkNum b) (permanent b) (io_in_progress b) (page_lsn b) (page b).
Definition buf_set_mod (b : BufferDesc) (flags count : Z) : BufferDesc :=
  mk_buf (flush_next b) (flush_prev b) (oldest_lsn b) (copy_buffer b) flags count
         (forkNum b) (permanent b) (io_in_progress b) (page_lsn b) (page b).
Definition buf_set_page (b : BufferDesc) (lsn : Z) (pg : list Z) : BufferDesc :=
  mk_buf (flush_next b) (flush_prev b) (oldest_lsn b) (copy_buffer b) (polar_flags b)
         (recently_modified_count b) (forkNum b) (permanent b) (io_in_progress b) lsn pg.
Definition cbuf_pass (d : CopyBufferDesc) : CopyBufferDesc :=
  mk_cbuf (cb_free_next d) (cb_oldest_lsn d) (cb_origin_buffer d) (cb_state d)
          (u32 (cb_pass_count d + 1)) (cb_is_flushed d) (cb_page_lsn d) (cb_page d).
Definition cbuf_flushed (d : CopyBufferDesc) : CopyBufferDesc :=
  mk_cbuf (cb_free_next d) (cb_oldest_lsn d) (cb_origin_buffer d) (cb_state d)
          (cb_pass_count d) true (cb_page_lsn d) (cb_page d).

(** ** The pool *)

(** The descriptors and the control block
    [polar_init_copy_buffer_pool]/[init_copy_buffer_ctl] create for [n]
    copy buffers. *)
Definition polar_init_copy_buffer_pool (n : Z) : list CopyBufferDesc :=
  map (fun i => mk_cbuf (if i =? n - 1 then FREENEXT_END_OF_LIST else i + 1) InvalidXLogRecPtr 0
                        POLAR_COPY_BUFFER_UNUSED 0 false 0 []) (seqZ 0 n).

Definition init_copy_buffer_ctl (n : Z) : CopyBufferControl := mk_cctl 0 (n - 1) 0 0 0 0 0.

(** ** When a buffer may be written *)

Definition polar_donot_control_vm_buffer (e : env) (b : BufferDesc) : bool :=
  (forkNum b =? VISIBILITYMAP_FORKNUM) && negb (polar_enable_control_vm_flush e).

(** The answer, and the state with the copy buffer's pass count. *)
Definition polar_buffer_can_be_flushed (e : env) (s : bufsys) (i oldest_apply_lsn : Z) (use_cbuf : bool)
  : bufsys * bool :=
  let b := buf s i in
  if negb (polar_enable_shared_storage_mode e) || XLogRecPtrIsInvalid oldest_apply_lsn
     || (page_lsn b <=? oldest_apply_lsn) || (forkNum b =? FSM_FORKNUM)
     || (forkNum b =? INIT_FORKNUM) || polar_donot_control_vm_buffer e b
  then (s, true)
  else if use_cbuf then
    match copy_buffer b with
    | Some c =>
      let res := cb_page_lsn (cbuf s c) <=? oldest_apply_lsn in
      (if negb res then set_cbuf s c (cbuf_pass (cbuf s c)) else s, res)
    | None => (s, false)
    end
  else (s, false).

Definition CHECKPOINT_LAZY : Z := 0x1000.

Definition polar_buffer_can_be_flushed_by_checkpoint (e : env) (s : bufsys) (i oldest_apply_lsn flags : Z)
  : bufsys * bool :=
  if negb (Z.land flags CHECKPOINT_LAZY =? 0) then
    (s, (forkNum (buf s i) =? FSM_FORKNUM) || (forkNum (buf s i) =? INIT_FORKNUM))
  else polar_buffer_can_be_flushed e s i oldest_apply_lsn false.

(** ** Copying *)

(** [lsn_lag_with_cons_lsn] is a [uint32]. *)
Definition polar_buffer_copy_is_satisfied (e : env) (s : bufsys) (i oldest_apply_lsn : Z) (check_io : bool)
  : bool :=
  let b := buf s i in
  if negb (polar_copy_buffer_enabled e) then false
  else if negb (polar_enable_shared_storage_mode e) || polar_in_replica_mode e
          || XLogRecPtrIsInvalid oldest_apply_lsn || (forkNum b =? FSM_FORKNUM)
          || (forkNum b =? INIT_FORKNUM) || polar_donot_control_vm_buffer e b
          || (page_lsn b <=? oldest_apply_lsn)
  then false
  else if bool_decide (is_Some (copy_buffer b)) then false
  else if XLogRecPtrIsInvalid (oldest_lsn b) then false
  else if negb (permanent b) || (check_io && io_in_progress b) then false
  else
    let lsn_lag_with_cons_lsn := u32 (oldest_lsn b - bs_consistent_lsn s) in
    let limit := polar_buffer_copy_lsn_lag_with_cons_lsn e * 1024 * 1024 in
    ((recently_modified_count b >? polar_buffer_copy_min_modified_count e)
       && (lsn_lag_with_cons_lsn <? limit))
    || (lsn_lag_with_cons_lsn <? limit / 2).

(** The copy-buffer branch of [polar_start_buffer_io_extend]. *)
Definition start_copy_buffer_io (s : bufsys) (i : Z) (valid_dirty for_input : bool) : bool :=
  valid_dirty &&
  (if for_input then bool_decide (copy_buffer (buf s i) = None)
   else bool_decide (is_Some (copy_buffer (buf s i)))).

Definition cctl_set_free (k : CopyBufferControl) (f l : Z) : CopyBufferControl :=
  mk_cctl f l (flushed_count k) (release_count k) (copied_count k) (unavailable_count k) (full_count k).
Definition cctl_stats (k : CopyBufferControl) (fl rel cop una ful : Z) : CopyBufferControl :=
  mk_cctl (first_free_buffer k) (last_free_buffer k) (u64 fl) (u64 rel) (u64 cop) (u64 una) (u64 ful).

Definition copy_buffer_alloc (e : env) (s : bufsys) (i oldest_apply_lsn : Z) (valid_dirty : bool)
  : bufsys * bool :=
  if negb (start_copy_buffer_io s i valid_dirty true) then (s, false)
  else if negb (polar_buffer_copy_is_satisfied e s i oldest_apply_lsn false) then (s, false)
  else
    let k := bs_cctl s in
    let c := first_free_buffer k in
    if c <? 0 then
      (set_cctl s (cctl_stats k (flushed_count k) (release_count k) (copied_count k)
                     (unavailable_count k) (full_count k + 1)), false)
    else
      let s := set_cctl s (cctl_set_free k (cb_free_next (cbuf s c)) (last_free_buffer k)) in
      let b := buf s i in
      let s := set_cbuf s c (mk_cbuf FREENEXT_NOT_IN_LIST (oldest_lsn b) (i + 1)
                               POLAR_COPY_BUFFER_USED (cb_pass_count (cbuf s c))
                               (cb_is_flushed (cbuf s c)) (page_lsn b) (page b)) in
      (set_buf s i (buf_set_copy b (Some c) (polar_flags b)), true).

Definition polar_buffer_copy_if_needed (e : env) (s : bufsys) (i oldest_apply_lsn : Z) (valid_dirty : bool)
  : bufsys :=
  let '(s, ok) := copy_buffer_alloc e s i oldest_apply_lsn valid_dirty in
  let k := bs_cctl s in
  if ok then set_cctl s (cctl_stats k (flushed_count k) (release_count k) (copied_count k + 1)
                           (unavailable_count k) (full_count k))
  else set_cctl s (cctl_stats k (flushed_count k) (release_count k) (copied_count k)
                     (unavailable_count k + 1) (full_count k)).

Definition polar_free_copy_buffer (s : bufsys) (i : Z) : bufsys :=
  let b := buf s i in
  match copy_buffer b with
  | None => s
  | Some c =>
    let s := set_buf s i (buf_set_copy b None
               (Z.land (polar_flags b) (u8 (Z.lnot POLAR_BUF_FIRST_TOUCHED_AFTER_COPY)))) in
    let k := bs_cctl s in
    let s := set_cctl s (cctl_stats k (flushed_count k + if cb_is_flushed (cbuf s c) then 1 else 0)
               (release_count k + 1) (copied_count k) (unavailable_count k) (full_count k)) in
    let d := cbuf s c in
    let k := bs_cctl s in
    let s := set_cbuf s c (mk_cbuf (first_free_buffer k) InvalidXLogRecPtr 0 POLAR_COPY_BUFFER_UNUSED
                             0 false (cb_page_lsn d) (cb_page d)) in
    set_cctl s (cctl_set_free k c
                  (if first_free_buffer k <? 0 then c else last_free_buffer k))
  end.

(** [oldest_apply_lsn] is what [polar_get_oldest_applied_lsn()] returns. *)
Definition polar_flush_copy_buffer (e : env) (s : bufsys) (i oldest_apply_lsn : Z) (valid_dirty : bool)
  : bufsys :=
  if negb (start_copy_buffer_io s i valid_dirty false) then s
  else
    match polar_buffer_can_be_flushed e s i oldest_apply_lsn true with
    | (s, false) => s
    | (s, true) =>
      match copy_buffer (buf s i) with
      | None => s
      | Some c =>
        let latest_lsn := cb_page_lsn (cbuf s c) in
        let s := if permanent (buf s i) then XLogFlush s latest_lsn else s in
        let s := smgrwrite s i latest_lsn (cb_page (cbuf s c)) in
        let s := set_cbuf s c (cbuf_flushed (cbuf s c)) in
        polar_free_copy_buffer s i
      end
    end.

(** The least valid LSN of the copy buffers, or invalid. *)
Definition polar_copy_buffers_get_oldest_lsn (e : env) (s : bufsys) : Z :=
  if negb (polar_copy_buffer_enabled e) then InvalidXLogRecPtr
  else fold_left (fun res d =>
         let cur_lsn := cb_oldest_lsn d in
         if XLogRecPtrIsInvalid cur_lsn then res
         else if XLogRecPtrIsInvalid res || (res >? cur_lsn) then cur_lsn else res)
       (bs_cbufs s) InvalidXLogRecPtr.

(** ** The oldest LSN of a buffer *)

Definition polar_reset_buffer_oldest_lsn (e : env) (s : bufsys) (i : Z) : bufsys :=
  if XLogRecPtrIsInvalid (oldest_lsn (buf s i)) then s
  else
    let s := set_buf s i (buf_set_mod (buf s i) 0 0) in
    with_flush s (polar_remove_buffer_from_flush_list (polar_flush_list_enabled e) (bs_flush s) i).

Definition inc_modified (s : bufsys) (i : Z) : bufsys :=
  let b := buf s i in
  set_buf s i (buf_set_mod b (polar_flags b) (u16 (recently_modified_count b + 1))).

Definition polar_redo_set_buffer_oldest_lsn (e : env) (s : bufsys) (i lsn : Z) : outcome bufsys :=
  if negb (polar_flush_list_enabled e) then Done s
  else if (i <? 0) || (i >=? Z.of_nat (length (fs_bufs (bs_flush s)))) then Fault ERROR
  else if XLogRecPtrIsInvalid lsn then Fault PANIC
  else
    let! s := (if XLogRecPtrIsInvalid (oldest_lsn (buf s i)) then
                 let! f := polar_put_buffer_to_flush_list (bs_clock s) (bs_flush s) i lsn in
                 Done (with_flush s f)
               else Done s) in
    Done (inc_modified s i).

Definition polar_buffer_first_touch_after_copy (b : BufferDesc) : bool :=
  bool_decide (is_Some (copy_buffer b)) &&
  (Z.land (polar_flags b) POLAR_BUF_FIRST_TOUCHED_AFTER_COPY =? 0).

Definition or_flags (s : bufsys) (i m : Z) : bufsys :=
  let b := buf s i in set_buf s i (buf_set_mod b (Z.lor (polar_flags b) m) (recently_modified_count b)).

Definition polar_set_buffer_fake_oldest_lsn (e : env) (s : bufsys) (i : Z) : outcome bufsys :=
  if negb (polar_flush_list_enabled e)
     || (RecoveryInProgress e && negb (polar_bg_redo_state_is_parallel e)) then Done s
  else
    let! s :=
      (if XLogRecPtrIsInvalid (oldest_lsn (buf s i)) then
         let! f := polar_put_buffer_to_flush_list (bs_clock s) (bs_flush s) i InvalidXLogRecPtr in
         Done (or_flags (with_flush s f) i POLAR_BUF_OLDEST_LSN_IS_FAKE)
       else if polar_buffer_first_touch_after_copy (buf s i) then
         let! f := polar_adjust_position_in_flush_list (bs_clock s) (bs_flush s) i in
         Done (or_flags (with_flush s f) i POLAR_BUF_FIRST_TOUCHED_AFTER_COPY)
       else Done s) in
    Done (inc_modified s i).

(** ** The consistent LSN *)

(** The part of [polar_cal_cur_consistent_lsn] under the list's lock:
    [inl] is the final answer for an empty list. *)
Definition consistent_lsn_of_list (s : bufsys) : Z + Z :=
  if polar_flush_list_is_empty (fs_ctl (bs_flush s)) then inl (bs_clock s)
  else inr (oldest_lsn (buf s (first_flush_buffer (fs_ctl (bs_flush s))))).

(** The part after it, on the copy buffers. *)
Definition consistent_lsn_of_copies (e : env) (s : bufsys) (r : Z + Z) : Z :=
  match r with
  | inl lsn => lsn
  | inr lsn => let clsn := polar_copy_buffers_get_oldest_lsn e s in
               if negb (XLogRecPtrIsInvalid clsn) then Z.min lsn clsn else lsn
  end.

Definition polar_cal_cur_consistent_lsn (e : env) (s : bufsys) : Z :=
  consistent_lsn_of_copies e s (consistent_lsn_of_list s).

(** [redo_state] is [None] without a logindex instance, otherwise whether
    its background state is [POLAR_BG_WAITING_RESET] and its
    [xlog_replay_from]; [cal] is what [polar_cal_cur_consistent_lsn]
    returns and the difference is an [int64]. *)
Definition update_consistent_lsn_delta (redo_state : option (bool * Z)) (cal cur_consistent_lsn : Z)
  : outcome Z :=
  match redo_state with
  | Some (true, _) => Done cur_consistent_lsn
  | _ =>
    let next_consistent_lsn := cal in
    if next_consistent_lsn - cur_consistent_lsn <? 0 then
      match redo_state with
      | Some (_, xlog_replay_from) =>
        if XLogRecPtrIsInvalid xlog_replay_from || (next_consistent_lsn <? xlog_replay_from)
        then Done cur_consistent_lsn else Fault PANIC
      | None => Fault PANIC
      end
    else Done next_consistent_lsn
  end.

(** ** Deciding what to write *)

(** The lag computed at the start of [polar_buffer_sync], a [uint64];
    [threshold] is the setting
    [polar_fullpage_snapshot_oldest_lsn_delay_threshold]. *)
Definition buffer_sync_lag (oldest_apply_lsn max_valid_lsn cur_consistent_lsn : Z) (enable_fullpage : bool)
    (threshold : Z) : Z :=
  if XLogRecPtrIsInvalid oldest_apply_lsn then u64 (max_valid_lsn - cur_consistent_lsn)
  else if enable_fullpage then
    let consistent_lsn_lag := u64 (max_valid_lsn - cur_consistent_lsn) in
    if consistent_lsn_lag >? threshold then u64 (consistent_lsn_lag - threshold) else 0
  else if oldest_apply_lsn >? cur_consistent_lsn then oldest_apply_lsn - cur_consistent_lsn else 0.

Definition ONE_MB : Z := 1024 * 1024.

(** [page_is_new] is [PageIsNew] of the block; the thresholds are the
    three fullpage snapshot settings. *)
Definition polar_buffer_need_fullpage_snapshot (e : env) (s : bufsys) (i oldest_apply_lsn : Z)
    (page_is_new enable_fullpage : bool) (replay_threshold oldest_lsn_threshold min_modified_count : Z)
  : bool :=
  let b := buf s i in
  if polar_bg_redo_state_is_parallel e then false
  else if page_is_new || (page_lsn b <=? oldest_apply_lsn) || negb (forkNum b =? MAIN_FORKNUM) then false
  else
    let buf_oldest_lsn := match copy_buffer b with
                          | Some c => Z.min (cb_oldest_lsn (cbuf s c)) (oldest_lsn b)
                          | None => oldest_lsn b
                          end in
    if negb enable_fullpage || RecoveryInProgress e || XLogRecPtrIsInvalid oldest_apply_lsn
       || XLogRecPtrIsInvalid buf_oldest_lsn then false
    else
      let cur_insert_lsn := bs_clock s in
      (cur_insert_lsn >=? buf_oldest_lsn + oldest_lsn_threshold * ONE_MB)
      && ((page_lsn b >=? oldest_apply_lsn + replay_threshold * ONE_MB)
          || (recently_modified_count b >? min_modified_count)).

(** Whether the checkpoint is lazy, with the new flags, redo LSN and
    state; [cal] is what [polar_cal_cur_consistent_lsn()] returns, and
    [cause_mask] is [CHECKPOINT_CAUSE_TIME | CHECKPOINT_CAUSE_XLOG], two
    bits on which the two sides of the merge in xlog.h disagree. *)
Definition polar_check_lazy_checkpoint (lazy_enabled shutdown : bool) (cause_mask cal flags lazy_redo : Z)
    (s : bufsys)
  : bool * Z * Z * bufsys :=
  if negb lazy_enabled then (false, Z.land flags (Z.lnot CHECKPOINT_LAZY), lazy_redo, s)
  else
    let is_lazy :=
      if negb (Z.land flags CHECKPOINT_LAZY =? 0) then true
      else negb shutdown
           && negb (Z.land flags cause_mask =? 0) in
    if negb is_lazy then (false, flags, lazy_redo, s)
    else
      let consistent_lsn := bs_consistent_lsn s in
      let '(is_lazy, lazy_redo, s) :=
        if negb (XLogRecPtrIsInvalid consistent_lsn) then (true, consistent_lsn, s)
        else if negb (XLogRecPtrIsInvalid cal) then (true, cal, polar_set_consistent_lsn s cal)
        else (false, lazy_redo, s) in
      if is_lazy then (true, Z.lor flags CHECKPOINT_LAZY, lazy_redo, s)
      else (false, Z.land flags (Z.lnot CHECKPOINT_LAZY), lazy_redo, s).
