(* ===== verification/ConsistentLsn.v ===== *)
(** * The consistent LSN never goes back

    The invariant of the flush list and the copy buffers together, the
    steps the server makes on them, and what follows for the consistent
    LSN: it bounds every oldest LSN recorded in a buffer or in a copy
    buffer, it is monotone (so the PANIC of update_consistent_lsn_delta is
    unreachable), and what is written obeys the two rules of shared
    storage: WAL first, and nothing the replicas have not replayed.
    [ConsistentChanges] ties the recorded LSNs to the changes of the
    pages. *)

From S2P Require Import Prelude Dll FlushList CopyBuf.

Notation cget cbs c := (aget no_cbuf cbs c).

Definition cok (cbs : list CopyBufferDesc) (c : Z) : Prop := 0 <= c < Z.of_nat (length cbs).

(** The chain of free copy buffers. *)
Fixpoint fchain (cbs : list CopyBufferDesc) (l : list Z) : Prop :=
  match l with
  | [] => True
  | c :: l => cb_free_next (cget cbs c) = hd_or FREENEXT_END_OF_LIST l /\ fchain cbs l
  end.

(** Buffers ([ok], their copy [cp], oldest LSN and page LSN) against the
    copy buffers: a copy buffer is used by exactly one buffer or is in the
    free list. *)
Record copy_inv (ok : Z -> Prop) (cp : Z -> option Z) (lsn pl : Z -> Z)
    (cbs : list CopyBufferDesc) (first : Z) (free : list Z) : Prop := {
  ci_copy : forall i c, ok i -> cp i = Some c ->
    cok cbs c /\ cb_state (cget cbs c) = POLAR_COPY_BUFFER_USED /\
    cb_origin_buffer (cget cbs c) = i + 1 /\
    0 < cb_oldest_lsn (cget cbs c) <= lsn i /\ cb_page_lsn (cget cbs c) <= pl i;
  ci_used : forall c, cok cbs c -> cb_state (cget cbs c) = POLAR_COPY_BUFFER_USED ->
    exists i, ok i /\ cp i = Some c;
  ci_unused : forall c, cok cbs c -> cb_state (cget cbs c) = POLAR_COPY_BUFFER_UNUSED ->
    c ∈ free /\ cb_oldest_lsn (cget cbs c) = 0;
  ci_free : forall c, c ∈ free -> cok cbs c /\ cb_state (cget cbs c) = POLAR_COPY_BUFFER_UNUSED;
  ci_nodup : NoDup free;
  ci_first : first = hd_or FREENEXT_END_OF_LIST free;
  ci_chain : fchain cbs free
}.

Lemma fchain_ext cbs cbs' l :
  (forall c, c ∈ l -> cb_free_next (cget cbs' c) = cb_free_next (cget cbs c)) ->
  fchain cbs l -> fchain cbs' l.
Proof.
  induction l as [|c l IH]; intros He; simpl; [done|]. intros [Hc Hl].
  rewrite He by set_solver. split; [done|]. apply IH; [set_solver|done].
Qed.

Section copy_inv.
Context (ok : Z -> Prop) (cp : Z -> option Z) (lsn pl : Z -> Z).
Context (cbs : list CopyBufferDesc) (first : Z) (free : list Z).
Context (Hci : copy_inv ok cp lsn pl cbs first free).

Lemma copy_inv_weaken cp' lsn' pl' :
  (forall i, ok i -> cp' i = cp i) ->
  (forall i, ok i -> is_Some (cp i) -> lsn i <= lsn' i /\ pl i <= pl' i) ->
  copy_inv ok cp' lsn' pl' cbs first free.
Proof.
  intros Hcp Hle. destruct Hci as [H1 H2 H3 H4 H5 H6 H7]. split; try done.
  - intros i c Hi Hc. rewrite Hcp in Hc by done. destruct (H1 i c Hi Hc) as (A & B & C & D & E).
    destruct (Hle i Hi ltac:(by eauto)). split_and!; [done|done|done|lia|lia|lia].
  - intros c Hc Hu. destruct (H2 c Hc Hu) as (i & Hi & He). exists i. by rewrite Hcp.
Qed.

(** A change that keeps the links, the owner and the LSNs. *)
Lemma copy_inv_same c d :
  cb_state d = cb_state (cget cbs c) -> cb_origin_buffer d = cb_origin_buffer (cget cbs c) ->
  cb_oldest_lsn d = cb_oldest_lsn (cget cbs c) -> cb_page_lsn d = cb_page_lsn (cget cbs c) ->
  cb_free_next d = cb_free_next (cget cbs c) ->
  copy_inv ok cp lsn pl (aset cbs c d) first free.
Proof.
  intros E1 E2 E3 E4 E5.
  destruct (decide (cok cbs c)) as [Hc|Hc].
  2:{ replace (aset cbs c d) with cbs; [done|]. unfold aset, cok in *. case_decide; [|done].
      symmetry. apply list_insert_ge. lia. }
  assert (forall x, cb_state (cget (aset cbs c d) x) = cb_state (cget cbs x) /\
    cb_origin_buffer (cget (aset cbs c d) x) = cb_origin_buffer (cget cbs x) /\
    cb_oldest_lsn (cget (aset cbs c d) x) = cb_oldest_lsn (cget cbs x) /\
    cb_page_lsn (cget (aset cbs c d) x) = cb_page_lsn (cget cbs x) /\
    cb_free_next (cget (aset cbs c d) x) = cb_free_next (cget cbs x)) as Hx.
  { intros x. rewrite aget_aset by done. case_decide; subst; done. }
  assert (forall x, cok (aset cbs c d) x <-> cok cbs x) as Hok by (intros; unfold cok; by rewrite length_aset).
  destruct Hci as [H1 H2 H3 H4 H5 H6 H7]. split; try done.
  - intros i x Hi He. destruct (Hx x) as (-> & -> & -> & -> & _). rewrite Hok. by apply H1.
  - intros x Hx1 Hx2. destruct (Hx x) as (E & _). rewrite E in Hx2. apply H2; [by apply Hok|done].
  - intros x Hx1 Hx2. destruct (Hx x) as (E & _ & -> & _). rewrite E in Hx2. apply H3; [by apply Hok|done].
  - intros x Hx1. destruct (Hx x) as (-> & _). rewrite Hok. by apply H4.
  - apply (fchain_ext cbs); [|done]. intros x _. by destruct (Hx x) as (_ & _ & _ & _ & ->).
Qed.

Lemma copy_inv_alloc i c free' d :
  free = c :: free' -> ok i -> cp i = None -> 0 < lsn i ->
  cb_state d = POLAR_COPY_BUFFER_USED -> cb_origin_buffer d = i + 1 ->
  cb_oldest_lsn d = lsn i -> cb_page_lsn d <= pl i ->
  copy_inv ok (fun j => if decide (j = i) then Some c else cp j) lsn pl (aset cbs c d)
    (cb_free_next (cget cbs c)) free'.
Proof.
  intros -> Hi Hnone Hpos E1 E2 E3 E4. destruct Hci as [H1 H2 H3 H4 H5 H6 [H7 H8]].
  assert (cok cbs c) as Hc by (apply H4; set_solver).
  assert (forall x, cok (aset cbs c d) x <-> cok cbs x) as Hok by (intros; unfold cok; by rewrite length_aset).
  apply NoDup_cons in H5 as [Hcf H5].
  split; try done.
  - intros j x Hj Hx. case_decide as Hji.
    + subst. injection Hx as <-. rewrite Hok, aget_aset_eq by done. split_and!; [done|done|done|lia|lia|done].
    + destruct (H1 j x Hj Hx) as (A & B & C). assert (c <> x) as Hne.
      { intros <-. destruct (H4 c ltac:(set_solver)) as [_ Hu]. congruence. }
      rewrite Hok, aget_aset_ne by done. done.
  - intros x Hx Hu. apply Hok in Hx. rewrite aget_aset in Hu by done. case_decide as Hxc.
    + subst. exists i. by rewrite decide_True.
    + destruct (H2 x Hx Hu) as (j & Hj & He). exists j. rewrite decide_False; [done|]. congruence.
  - intros x Hx Hu. apply Hok in Hx. rewrite aget_aset in Hu |- * by done. case_decide; [congruence|].
    destruct (H3 x Hx Hu). split; [set_solver|done].
  - intros x Hx. rewrite Hok, aget_aset_ne by (intros ->; done). apply H4. set_solver.
  - apply (fchain_ext cbs); [|done]. intros x Hx. by rewrite aget_aset_ne by (intros ->; done).
Qed.

Lemma copy_inv_release i c d :
  ok i -> cp i = Some c -> cb_state d = POLAR_COPY_BUFFER_UNUSED -> cb_oldest_lsn d = 0 ->
  cb_free_next d = first ->
  copy_inv ok (fun j => if decide (j = i) then None else cp j) lsn pl (aset cbs c d) c (c :: free).
Proof.
  intros Hi Hcp E1 E2 E3. destruct Hci as [H1 H2 H3 H4 H5 H6 H7].
  destruct (H1 i c Hi Hcp) as (Hc & Hst & Horig & _).
  assert (forall x, cok (aset cbs c d) x <-> cok cbs x) as Hok by (intros; unfold cok; by rewrite length_aset).
  assert (c ∉ free) as Hcf by (intros Hin; destruct (H4 c Hin); congruence).
  split.
  - intros j x Hj Hx. case_decide as Hji; [done|].
    destruct (H1 j x Hj Hx) as (A & B & C & D). assert (c <> x) as Hne.
    { intros <-. apply Hji. lia. }
    rewrite Hok, aget_aset_ne by done. done.
  - intros x Hx Hu. apply Hok in Hx. rewrite aget_aset in Hu by done. case_decide as Hxc; [congruence|].
    destruct (H2 x Hx Hu) as (j & Hj & He). exists j. rewrite decide_False; [done|]. congruence.
  - intros x Hx Hu. apply Hok in Hx. rewrite aget_aset in Hu |- * by done.
    case_decide; [subst; split; [set_solver|done]|]. destruct (H3 x Hx Hu). split; [set_solver|done].
  - intros x Hx. rewrite Hok. apply elem_of_cons in Hx as [->|Hx]; [by rewrite aget_aset_eq|].
    rewrite aget_aset_ne by (intros ->; done). by apply H4.
  - by apply NoDup_cons.
  - done.
  - simpl. rewrite aget_aset_eq, E3 by done. split; [done|]. apply (fchain_ext cbs); [|done].
    intros x Hx. by rewrite aget_aset_ne by (intros ->; done).
Qed.
End copy_inv.

(** ** The invariant *)

Definition bok (s : bufsys) (i : Z) : Prop := buf_id_ok (bs_flush s) i.
Notation lsn_s s i := (lsn_of (bs_flush s) i).

Record sys_inv (s : bufsys) (ids free : list Z) : Prop := {
  si_flush : flush_wf (bs_flush s) ids;
  si_valid : forall i, bok s i -> (i ∈ ids <-> lsn_s s i <> 0);
  si_lsn : forall i, i ∈ ids -> 0 < lsn_s s i <= bs_clock s;
  si_clock : 0 < bs_clock s;
  si_copy : copy_inv (bok s) (fun i => copy_buffer (buf s i)) (fun i => lsn_s s i)
              (fun i => page_lsn (buf s i)) (bs_cbufs s) (first_free_buffer (bs_cctl s)) free
}.

(** What a change does to the LSNs: those of the list are old ones or not
    older than the clock, those of the copies were copies or in the list
    or are not older than the clock. *)
Definition evolves (s : bufsys) (ids : list Z) (s' : bufsys) (ids' : list Z) : Prop :=
  bs_clock s <= bs_clock s' /\
  (forall i, i ∈ ids' -> (exists j, j ∈ ids /\ lsn_s s j = lsn_s s' i) \/ bs_clock s <= lsn_s s' i) /\
  (forall c, cb_oldest_lsn (cbuf s' c) <> 0 ->
     (exists c', cb_oldest_lsn (cbuf s c') = cb_oldest_lsn (cbuf s' c)) \/
     (exists j, j ∈ ids /\ lsn_s s j = cb_oldest_lsn (cbuf s' c)) \/
     bs_clock s <= cb_oldest_lsn (cbuf s' c)).

Lemma evolves_refl s ids : evolves s ids s ids.
Proof. split_and!; [lia|by eauto|by eauto]. Qed.

Lemma evolves_trans s1 l1 s2 l2 s3 l3 :
  evolves s1 l1 s2 l2 -> evolves s2 l2 s3 l3 -> evolves s1 l1 s3 l3.
Proof.
  intros (A1 & A2 & A3) (B1 & B2 & B3). split_and!; [lia| |].
  - intros i Hi. destruct (B2 i Hi) as [(j & Hj & <-)|H]; [|right; lia]. auto.
  - intros c Hc. destruct (B3 c Hc) as [(c' & E)|[(j & Hj & E)|H]].
    + rewrite <- E. apply A3. congruence.
    + rewrite <- E. right. apply A2, Hj.
    + right. right. lia.
Qed.

(** A change of the flush list's state that the copies do not see. *)
Lemma flush_wf_ext st st' ids :
  fs_ctl st' = fs_ctl st -> length (fs_bufs st') = length (fs_bufs st) ->
  (forall j, links st' j = links st j) -> (forall j, lsn_of st' j = lsn_of st j) ->
  flush_wf st ids -> flush_wf st' ids.
Proof.
  intros Hc Hl Hk Hn [[H1 H2 H3 H4 H5 H6 H7] H8 H9].
  assert (forall j, buf_id_ok st' j <-> buf_id_ok st j) as Hok by (intros; unfold buf_id_ok; by rewrite Hl).
  split; [split| |]; rewrite ?Hc; try done.
  - intros i Hi. by apply Hok, H1.
  - apply (seg_ext (links st)); auto.
  - intros i Hi Hni. rewrite Hk. by apply H6; [apply Hok|].
  - rewrite (map_lsn_ext _ (lsn_of st)); auto.
Qed.

(** Fields of a descriptor that the invariant does not look at. *)
Lemma inv_set_buf s ids free i b' :
  sys_inv s ids free -> bok s i ->
  flush_next b' = flush_next (buf s i) -> flush_prev b' = flush_prev (buf s i) ->
  oldest_lsn b' = oldest_lsn (buf s i) -> copy_buffer b' = copy_buffer (buf s i) ->
  page_lsn (buf s i) <= page_lsn b' ->
  sys_inv (set_buf s i b') ids free /\ evolves s ids (set_buf s i b') ids.
Proof.
  intros [H1 H2 H3 H4 H5] Hi E1 E2 E3 E4 E5. set (s' := set_buf s i b').
  assert (forall j, buf s' j = if decide (j = i) then b' else buf s j) as Hb by (intros; by apply get_put).
  assert (forall j, links (bs_flush s') j = links (bs_flush s) j) as Hk.
  { intros j. unfold links. change (GetBufferDescriptor (bs_flush s') j) with (buf s' j).
    rewrite Hb. destruct (decide (j = i)) as [->|]; [|done]. by rewrite E1, E2. }
  assert (forall j, lsn_s s' j = lsn_s s j) as Hn.
  { intros j. unfold lsn_of. change (GetBufferDescriptor (bs_flush s') j) with (buf s' j).
    rewrite Hb. destruct (decide (j = i)) as [->|]; [|done]. by rewrite E3. }
  assert (forall j, bok s' j <-> bok s j) as Hok by (intros; apply buf_id_ok_put).
  split; [split|].
  - apply (flush_wf_ext (bs_flush s)); [done|apply length_aset|done|done|done].
  - intros j Hj. rewrite Hn. apply H2. by apply Hok.
  - intros j Hj. rewrite Hn. by apply H3.
  - done.
  - assert (copy_inv (bok s) (fun i => copy_buffer (buf s' i)) (fun i => lsn_s s' i)
              (fun i => page_lsn (buf s' i)) (bs_cbufs s) (first_free_buffer (bs_cctl s)) free) as Hc.
    { apply (copy_inv_weaken _ _ _ _ _ _ _ H5).
      - intros j _. rewrite Hb. by destruct (decide (j = i)) as [->|].
      - intros j _ _. rewrite Hn, Hb. destruct (decide (j = i)) as [->|]; lia. }
    destruct Hc as [C1 C2 C3 C4 C5 C6 C7]. split; try done.
    + intros j c Hj. apply C1, Hok, Hj.
    + intros c Hc Hu. destruct (C2 c Hc Hu) as (j & Hj & He). exists j. split; [by apply Hok|done].
  - split_and!; [simpl; lia| |by eauto]. intros j Hj. left. exists j. by rewrite Hn.
Qed.

(** Replacing the flush state by one with the same copies and pages. *)
Lemma inv_with_flush s ids free f ids' clock' :
  sys_inv s ids free -> bs_clock s <= clock' -> flush_wf f ids' ->
  (forall j, same_but_links (GetBufferDescriptor (bs_flush s) j) (GetBufferDescriptor f j)) ->
  length (fs_bufs f) = length (fs_bufs (bs_flush s)) ->
  (forall j, bok s j -> (j ∈ ids' <-> lsn_of f j <> 0)) ->
  (forall j, j ∈ ids' -> lsn_of f j = lsn_s s j \/ lsn_of f j = clock') ->
  (forall j, j ∈ ids' -> bok s j) ->
  (forall j, is_Some (copy_buffer (buf s j)) -> bok s j -> lsn_s s j <= lsn_of f j) ->
  let s' := mk_sys f (bs_cbufs s) (bs_cctl s) (bs_consistent_lsn s) clock' (bs_wal_flushed s) (bs_disk s) in
  sys_inv s' ids' free /\ evolves s ids s' ids'.
Proof.
  intros [H1 H2 H3 H4 H5] Hclk Hf Hsame Hlen Hval Hlsn Hin Hcopy s'.
  assert (forall j, bok s' j <-> bok s j) as Hok by (intros; unfold bok, buf_id_ok; simpl; by rewrite Hlen).
  assert (forall j, j ∈ ids' -> lsn_of f j = lsn_s s j -> j ∈ ids) as Hold.
  { intros j Hj He. apply H2; [by apply Hin|]. rewrite <- He. apply Hval; [by apply Hin|done]. }
  split; [split|].
  - done.
  - intros j Hj. apply Hval. by apply Hok.
  - intros j Hj. simpl. destruct (Hlsn j Hj) as [E|E]; rewrite E; [|lia].
    specialize (H3 j (Hold j Hj E)). lia.
  - simpl. lia.
  - assert (copy_inv (bok s) (fun i => copy_buffer (buf s' i)) (fun i => lsn_of f i)
              (fun i => page_lsn (buf s' i)) (bs_cbufs s) (first_free_buffer (bs_cctl s)) free) as Hc.
    { apply (copy_inv_weaken _ _ _ _ _ _ _ H5).
      - intros j _. unfold buf. simpl. destruct (Hsame j) as (n & p & l & ->). done.
      - intros j Hj Hs. split; [by apply Hcopy|]. unfold buf. simpl.
        destruct (Hsame j) as (n & p & l & ->). simpl. lia. }
    destruct Hc as [C1 C2 C3 C4 C5 C6 C7]. split; try done.
    + intros j c Hj. apply C1, Hok, Hj.
    + intros c Hc Hu. destruct (C2 c Hc Hu) as (j & Hj & He). exists j. split; [by apply Hok|done].
  - split_and!; [done| |by eauto]. intros j Hj. simpl.
    destruct (Hlsn j Hj) as [E|E]; [left; exists j; split; [by apply Hold|congruence]|right; lia].
Qed.

(** ** The operations *)

Definition set_clock_flush (s : bufsys) (f : flush_state) (clock : Z) : bufsys :=
  mk_sys f (bs_cbufs s) (bs_cctl s) (bs_consistent_lsn s) clock (bs_wal_flushed s) (bs_disk s).

Lemma inv_put s ids free i fake lsn clock' :
  sys_inv s ids free -> bok s i -> lsn_s s i = 0 -> bs_clock s <= clock' ->
  (if XLogRecPtrIsInvalid lsn then fake else lsn) = clock' ->
  exists f, polar_put_buffer_to_flush_list fake (bs_flush s) i lsn = Done f /\
    sys_inv (set_clock_flush s f clock') (ids ++ [i]) free /\
    evolves s ids (set_clock_flush s f clock') (ids ++ [i]) /\ 
    length (fs_bufs f) = length (fs_bufs (bs_flush s)).
Proof.
  intros Hinv Hi Hz Hclk Hl. pose proof Hinv as [H1 H2 H3 H4 H5].
  assert (i ∉ ids) as Hni by (intros Hin; by apply H2 in Hin).
  pose proof (put_wf fake (bs_flush s) ids i lsn H1 Hi Hni) as Hp. cbv zeta in Hp. rewrite Hl in Hp.
  rewrite bool_decide_false in Hp.
  2:{ intros [Hne Hlt]. destruct (last_or_in POLAR_FLUSHNEXT_END_OF_LIST ids) as [[_ ?]|Hin]; [done|].
      specialize (H3 _ Hin). lia. }
  destruct Hp as (f & He & Hw & Hlsn & Hsame & Hlen). exists f. split; [done|].
  destruct (inv_with_flush s ids free f (ids ++ [i]) clock' Hinv Hclk Hw Hsame Hlen) as [A B].
  - intros j Hj. rewrite Hlsn. destruct (decide (j = i)) as [->|Hne].
    + split; [lia|]. intros _. apply elem_of_app. right. by left.
    + rewrite <- H2 by done. rewrite elem_of_app. set_solver.
  - intros j Hj. rewrite Hlsn. destruct (decide (j = i)) as [->|]; auto.
  - intros j Hj. apply elem_of_app in Hj as [Hj|Hj]; [apply (fw_range _ _ (fw_core _ _ H1) j Hj)|].
    by assert (j = i) as -> by set_solver.
  - intros j Hs Hj. rewrite Hlsn. destruct (decide (j = i)) as [->|]; lia.
  - done.
Qed.

Lemma inv_adjust s ids free i :
  sys_inv s ids free -> i ∈ ids ->
  exists f ids', polar_adjust_position_in_flush_list (bs_clock s) (bs_flush s) i = Done f /\
    sys_inv (with_flush s f) ids' free /\ evolves s ids (with_flush s f) ids' /\
    length (fs_bufs f) = length (fs_bufs (bs_flush s)).
Proof.
  intros Hinv Hi. pose proof Hinv as [H1 H2 H3 H4 H5].
  apply list_elem_of_split in Hi as (l1 & l2 & ->).
  destruct (adjust_wf (bs_clock s) (bs_flush s) i l1 l2 H1) as (f & He & Hw & Hlsn & Hsame & Hlen).
  { intros j Hj. apply H3, Hj. }
  assert (forall j, j ∈ l1 ++ l2 ++ [i] <-> j ∈ l1 ++ i :: l2) as Hel by set_solver.
  assert (forall j, j ∈ l1 ++ i :: l2 -> bok s j) as Hr by (apply (fw_range _ _ (fw_core _ _ H1))).
  exists f, (l1 ++ l2 ++ [i]). split; [done|].
  destruct (inv_with_flush s _ free f (l1 ++ l2 ++ [i]) (bs_clock s) Hinv (Z.le_refl _) Hw Hsame Hlen) as [A B].
  - intros j Hj. rewrite Hlsn, Hel, H2 by done. destruct (decide (j = i)) as [->|]; [|done].
    split; [lia|]. intros _. apply H2; [done|]. set_solver.
  - intros j Hj. rewrite Hlsn. destruct (decide (j = i)) as [->|]; auto.
  - intros j Hj. apply Hr, Hel, Hj.
  - intros j _ Hj. rewrite Hlsn. destruct (decide (j = i)) as [->|]; [|lia].
    apply H3. set_solver.
  - by destruct s.
Qed.

Lemma inv_remove e s ids free i :
  polar_flush_list_enabled e = true ->
  sys_inv s ids free -> i ∈ ids -> copy_buffer (buf s i) = None ->
  let s' := with_flush s (polar_remove_buffer_from_flush_list (polar_flush_list_enabled e) (bs_flush s) i) in
  exists ids', sys_inv s' ids' free /\ evolves s ids s' ids'.
Proof.
  intros He Hinv Hi Hcp s'. pose proof Hinv as [H1 H2 H3 H4 H5]. unfold s'. rewrite He.
  apply list_elem_of_split in Hi as (l1 & l2 & ->).
  destruct (remove_wf (bs_flush s) i l1 l2 H1) as (Hw & Hlsn & Hsame & Hlen).
  set (f := polar_remove_buffer_from_flush_list true (bs_flush s) i) in *.
  pose proof (fw_nodup _ _ (fw_core _ _ H1)) as Hnd. apply NoDup_app in Hnd as (_ & Hd & Hnd2).
  apply NoDup_cons in Hnd2 as [Hi2 _].
  assert (i ∉ l1 ++ l2) as Hni.
  { intros [H|H]%elem_of_app; [|done]. destruct (Hd i H). by left. }
  exists (l1 ++ l2).
  destruct (inv_with_flush s _ free f (l1 ++ l2) (bs_clock s) Hinv (Z.le_refl _) Hw Hsame Hlen) as [A B].
  - intros j Hj. rewrite Hlsn. destruct (decide (j = i)) as [->|Hne]; [done|].
    rewrite <- H2 by done. set_solver.
  - intros j Hj. left. rewrite Hlsn. destruct (decide (j = i)) as [->|]; [done|done].
  - intros j Hj. apply (fw_range _ _ (fw_core _ _ H1)). set_solver.
  - intros j Hs Hj. rewrite Hlsn. destruct (decide (j = i)) as [->|]; [|lia].
    rewrite Hcp in Hs. by destruct Hs.
  - by destruct s.
Qed.

(** Changing one copy buffer, the pool's control block and the owner. *)
Lemma inv_copies s ids free c d k i b' free' :
  sys_inv s ids free -> bok s i ->
  flush_next b' = flush_next (buf s i) -> flush_prev b' = flush_prev (buf s i) ->
  oldest_lsn b' = oldest_lsn (buf s i) -> page_lsn b' = page_lsn (buf s i) ->
  copy_inv (bok s) (fun j => if decide (j = i) then copy_buffer b' else copy_buffer (buf s j))
     (fun j => lsn_s s j) (fun j => page_lsn (buf s j)) (aset (bs_cbufs s) c d) (first_free_buffer k) free' ->
  (cb_oldest_lsn d = 0 \/ cb_oldest_lsn d = cb_oldest_lsn (cbuf s c) \/
   exists j, j ∈ ids /\ lsn_s s j = cb_oldest_lsn d) -> cok (bs_cbufs s) c ->
  let s' := mk_sys (put_buf (bs_flush s) i b') (aset (bs_cbufs s) c d) k (bs_consistent_lsn s)
              (bs_clock s) (bs_wal_flushed s) (bs_disk s) in
  sys_inv s' ids free' /\ evolves s ids s' ids.
Proof.
  intros [H1 H2 H3 H4 H5] Hi E1 E2 E3 E4 Hc Hd Hcok s'.
  assert (forall j, buf s' j = if decide (j = i) then b' else buf s j) as Hb by (intros; by apply get_put).
  assert (forall j, links (bs_flush s') j = links (bs_flush s) j) as Hk.
  { intros j. unfold links. change (GetBufferDescriptor (bs_flush s') j) with (buf s' j).
    rewrite Hb. destruct (decide (j = i)) as [->|]; [|done]. by rewrite E1, E2. }
  assert (forall j, lsn_s s' j = lsn_s s j) as Hn.
  { intros j. unfold lsn_of. change (GetBufferDescriptor (bs_flush s') j) with (buf s' j).
    rewrite Hb. destruct (decide (j = i)) as [->|]; [|done]. by rewrite E3. }
  assert (forall j, bok s' j <-> bok s j) as Hok by (intros; apply buf_id_ok_put).
  split; [split|].
  - apply (flush_wf_ext (bs_flush s)); [done|apply length_aset|done|done|done].
  - intros j Hj. rewrite Hn. apply H2. by apply Hok.
  - intros j Hj. rewrite Hn. by apply H3.
  - done.
  - destruct Hc as [C1 C2 C3 C4 C5 C6 C7]. split; try done.
    + intros j x Hj Hx. rewrite Hn, Hb in *. apply Hok in Hj.
      specialize (C1 j x Hj). destruct (decide (j = i)) as [->|]; [rewrite E4|]; auto.
    + intros x Hx Hu. destruct (C2 x Hx Hu) as (j & Hj & He). exists j. split; [by apply Hok|].
      rewrite Hb. by destruct (decide (j = i)) as [->|].
  - split_and!; [simpl; lia| |].
    + intros j Hj. left. exists j. by rewrite Hn.
    + intros x. unfold cbuf. simpl. rewrite aget_aset by done. case_decide; [subst x|by eauto].
      intros Hnz. destruct Hd as [?|[Hd|Hd]]; [done|left; by exists c|right; by left].
Qed.

(** The invariant looks at these fields only. *)
Lemma inv_ext s s' ids free :
  bs_flush s' = bs_flush s -> bs_cbufs s' = bs_cbufs s -> bs_clock s' = bs_clock s ->
  first_free_buffer (bs_cctl s') = first_free_buffer (bs_cctl s) ->
  sys_inv s ids free -> sys_inv s' ids free /\ evolves s ids s' ids.
Proof.
  destruct s as [f cb k cl ck w d], s' as [f' cb' k' cl' ck' w' d']. simpl. intros -> -> -> Hk [H1 H2 H3 H4 H5].
  split; [split; try done|].
  - unfold bok, buf in *. simpl in *. by rewrite Hk.
  - split_and!; simpl; [lia|by eauto|]. unfold cbuf. simpl. eauto.
Qed.

(** A change preserves the invariant and evolves the LSNs. *)
Definition sound_change (s s' : bufsys) : Prop :=
  forall ids free, sys_inv s ids free ->
    exists ids' free', sys_inv s' ids' free' /\ evolves s ids s' ids'.

Lemma sound_refl s : sound_change s s.
Proof. intros ids free H. exists ids, free. split; [done|apply evolves_refl]. Qed.

Lemma sound_trans s1 s2 s3 : sound_change s1 s2 -> sound_change s2 s3 -> sound_change s1 s3.
Proof.
  intros H12 H23 ids free Hinv. destruct (H12 ids free Hinv) as (i2 & f2 & Hinv2 & He2).
  destruct (H23 i2 f2 Hinv2) as (i3 & f3 & Hinv3 & He3). exists i3, f3.
  split; [done|]. by apply (evolves_trans _ _ s2 i2).
Qed.

Lemma sound_ext s s' :
  bs_flush s' = bs_flush s -> bs_cbufs s' = bs_cbufs s -> bs_clock s' = bs_clock s ->
  first_free_buffer (bs_cctl s') = first_free_buffer (bs_cctl s) -> sound_change s s'.
Proof. intros A B C D ids free H. exists ids, free. by apply inv_ext. Qed.

Lemma sound_set_buf s i b' :
  bok s i -> flush_next b' = flush_next (buf s i) -> flush_prev b' = flush_prev (buf s i) ->
  oldest_lsn b' = oldest_lsn (buf s i) -> copy_buffer b' = copy_buffer (buf s i) ->
  page_lsn (buf s i) <= page_lsn b' -> sound_change s (set_buf s i b').
Proof. intros A B C D E F ids free H. exists ids, free. by apply inv_set_buf. Qed.

#[export] Hint Resolve sound_refl : polar.

Lemma sound_set_cbuf s c d :
  cb_state d = cb_state (cbuf s c) -> cb_origin_buffer d = cb_origin_buffer (cbuf s c) ->
  cb_oldest_lsn d = cb_oldest_lsn (cbuf s c) -> cb_page_lsn d = cb_page_lsn (cbuf s c) ->
  cb_free_next d = cb_free_next (cbuf s c) -> sound_change s (set_cbuf s c d).
Proof.
  intros E1 E2 E3 E4 E5 ids free [H1 H2 H3 H4 H5]. exists ids, free. split.
  - split; try done. by apply copy_inv_same.
  - split_and!; [simpl; lia|by eauto|]. intros x Hx. left. unfold cbuf in *. simpl in *.
    destruct (decide (c = x)) as [->|Hne]; [|exists x; by rewrite aget_aset_ne].
    exists x. destruct (decide (cok (bs_cbufs s) x)) as [Ho|Ho]; [by rewrite aget_aset_eq|].
    unfold aset, aget, cok in *. case_decide; [|done]. by rewrite list_insert_ge by lia.
Qed.

Lemma can_be_flushed_sound e s i apply use : sound_change s (polar_buffer_can_be_flushed e s i apply use).1.
Proof.
  unfold polar_buffer_can_be_flushed. destruct (_ || _); [apply sound_refl|].
  destruct use; [|apply sound_refl]. destruct (copy_buffer (buf s i)) as [c|]; [|apply sound_refl].
  simpl. destruct (negb _); [by apply sound_set_cbuf|apply sound_refl].
Qed.

Lemma free_copy_buffer_sound s i : bok s i -> sound_change s (polar_free_copy_buffer s i).
Proof.
  intros Hi ids free Hinv. unfold polar_free_copy_buffer.
  destruct (copy_buffer (buf s i)) as [c|] eqn:Hc; [|exists ids, free; split; [done|apply evolves_refl]].
  pose proof (si_copy _ _ _ Hinv) as Hci. destruct (ci_copy _ _ _ _ _ _ _ Hci i c Hi Hc) as (Hcok & _).
  exists ids, (c :: free). 
  set (d := mk_cbuf (first_free_buffer (bs_cctl s)) InvalidXLogRecPtr 0 POLAR_COPY_BUFFER_UNUSED 0 false
              (cb_page_lsn (cbuf s c)) (cb_page (cbuf s c))).
  set (b' := buf_set_copy (buf s i) None _).
  match goal with |- sys_inv ?s2 _ _ /\ _ =>
    pose proof (inv_copies s ids free c d (bs_cctl s2) i b' (c :: free) Hinv Hi eq_refl eq_refl eq_refl eq_refl)
      as Hres end.
  apply Hres; [|by left|done].
  exact (copy_inv_release _ _ _ _ _ _ _ Hci i c d Hi Hc eq_refl eq_refl eq_refl).
Qed.

Lemma copy_buffer_alloc_sound e s i apply vd : bok s i -> sound_change s (copy_buffer_alloc e s i apply vd).1.
Proof.
  intros Hi ids free Hinv. unfold copy_buffer_alloc.
  assert (exists ids' free', sys_inv s ids' free' /\ evolves s ids s ids') as Hid
    by (exists ids, free; split; [done|apply evolves_refl]).
  destruct (start_copy_buffer_io s i vd true) eqn:Hio; [|done]. simpl.
  destruct (polar_buffer_copy_is_satisfied e s i apply false) eqn:Hsat; [|done]. simpl.
  destruct (first_free_buffer (bs_cctl s) <? 0) eqn:Ef; zbool.
  { simpl. exists ids, free. by apply inv_ext. }
  simpl. pose proof Hinv as [H1 H2 H3 H4 H5].
  assert (copy_buffer (buf s i) = None) as Hnone.
  { unfold start_copy_buffer_io in Hio. apply andb_true_iff in Hio as [_ Hio]. by apply bool_decide_eq_true in Hio. }
  assert (i ∈ ids) as Hin.
  { apply H2; [done|]. unfold polar_buffer_copy_is_satisfied in Hsat. intros Hz.
    destruct (negb (polar_copy_buffer_enabled e)); [done|].
    destruct (_ || (page_lsn _ <=? _)); [done|].
    destruct (bool_decide _); [done|]. unfold lsn_of in Hz. unfold buf in Hsat. by rewrite Hz in Hsat. }
  destruct free as [|c free'].
  { rewrite (ci_first _ _ _ _ _ _ _ H5) in Ef. by simpl in Ef. }
  rewrite (ci_first _ _ _ _ _ _ _ H5). simpl hd_or.
  destruct (ci_free _ _ _ _ _ _ _ H5 c ltac:(set_solver)) as [Hcok _].
  exists ids, free'.
  match goal with |- sys_inv ?s2 _ _ /\ _ =>
    apply (inv_copies s ids (c :: free') c
      (mk_cbuf FREENEXT_NOT_IN_LIST (oldest_lsn (buf s i)) (i + 1) POLAR_COPY_BUFFER_USED
         (cb_pass_count (cbuf s c)) (cb_is_flushed (cbuf s c)) (page_lsn (buf s i)) (page (buf s i)))
      (bs_cctl s2) i (buf_set_copy (buf s i) (Some c) (polar_flags (buf s i)))
      free' Hinv Hi eq_refl eq_refl eq_refl eq_refl) end; [|right; right; by exists i|done].
  apply (copy_inv_alloc _ _ _ _ _ _ _ H5 i c free'); try done; try (simpl; lia). apply H3, Hin.
Qed.

Lemma copy_if_needed_sound e s i apply vd : bok s i -> sound_change s (polar_buffer_copy_if_needed e s i apply vd).
Proof.
  intros Hi. unfold polar_buffer_copy_if_needed.
  pose proof (copy_buffer_alloc_sound e s i apply vd Hi) as Ha.
  destruct (copy_buffer_alloc e s i apply vd) as [s1 ok]. simpl in Ha.
  apply (sound_trans _ s1); [done|]. destruct ok; by apply sound_ext.
Qed.

Lemma bok_flush s f : length (fs_bufs f) = length (fs_bufs (bs_flush s)) ->
  forall j, bok (with_flush s f) j <-> bok s j.
Proof. intros Hl j. unfold bok, buf_id_ok. simpl. by rewrite Hl. Qed.

Lemma bok_set_buf s i b j : bok (set_buf s i b) j <-> bok s j.
Proof. apply buf_id_ok_put. Qed.

Lemma can_be_flushed_bok e s i apply use j :
  bok (polar_buffer_can_be_flushed e s i apply use).1 j <-> bok s j.
Proof.
  unfold polar_buffer_can_be_flushed. destruct (_ || _); [done|]. destruct use; [|done].
  destruct (copy_buffer (buf s i)); [|done]. simpl. by destruct (negb _).
Qed.

Lemma flush_copy_buffer_sound e s i apply vd : bok s i -> sound_change s (polar_flush_copy_buffer e s i apply vd).
Proof.
  intros Hi. unfold polar_flush_copy_buffer. destruct (negb _); [apply sound_refl|].
  pose proof (can_be_flushed_sound e s i apply true) as Hc. pose proof (can_be_flushed_bok e s i apply true) as Hb.
  destruct (polar_buffer_can_be_flushed e s i apply true) as [s1 []]; [|done]. simpl in Hc, Hb.
  destruct (copy_buffer (buf s1 i)) as [c|]; [|done].
  apply (sound_trans _ s1); [done|]. set (s2 := smgrwrite _ _ _ _).
  apply (sound_trans _ s2); [by apply sound_ext; destruct (permanent _)|].
  apply (sound_trans _ (set_cbuf s2 c (cbuf_flushed (cbuf s2 c)))); [by apply sound_set_cbuf|].
  apply free_copy_buffer_sound. unfold bok, s2. destruct (permanent _); simpl; by apply Hb.
Qed.

Lemma free_copy_none s i : bok s i -> copy_buffer (buf (polar_free_copy_buffer s i) i) = None /\
  (forall j, bok (polar_free_copy_buffer s i) j <-> bok s j) /\
  oldest_lsn (buf (polar_free_copy_buffer s i) i) = oldest_lsn (buf s i).
Proof.
  intros Hi. unfold polar_free_copy_buffer. destruct (copy_buffer (buf s i)) as [c|] eqn:Hc; [|done].
  set (s' := set_cctl _ _).
  assert (buf s' i = buf_set_copy (buf s i) None
    (Z.land (polar_flags (buf s i)) (u8 (Z.lnot POLAR_BUF_FIRST_TOUCHED_AFTER_COPY)))) as -> by (by apply get_put_eq).
  split_and!; [done| |done]. intros j. apply buf_id_ok_put.
Qed.

Lemma reset_sound e s i :
  polar_flush_list_enabled e = true -> bok s i -> copy_buffer (buf s i) = None ->
  sound_change s (polar_reset_buffer_oldest_lsn e s i).
Proof.
  intros He Hi Hn. unfold polar_reset_buffer_oldest_lsn, XLogRecPtrIsInvalid.
  destruct (_ =? _) eqn:E; zbool; [apply sound_refl|]. cbv zeta.
  set (s1 := set_buf s i (buf_set_mod (buf s i) 0 0)).
  apply (sound_trans _ s1); [apply sound_set_buf; try done|].
  intros ids free Hinv.
  assert (buf s1 i = buf_set_mod (buf s i) 0 0) as Hb by (by apply get_put_eq).
  destruct (inv_remove e s1 ids free i He Hinv) as (ids' & A & B).
  - apply (si_valid _ _ _ Hinv); [by apply bok_set_buf|]. unfold lsn_of.
    change (GetBufferDescriptor (bs_flush s1) i) with (buf s1 i). by rewrite Hb.
  - by rewrite Hb.
  - by exists ids', free.
Qed.

Lemma inc_modified_sound s i : bok s i -> sound_change s (inc_modified s i).
Proof. intros Hi. by apply sound_set_buf. Qed.

Lemma or_flags_sound s i m : bok s i -> sound_change s (or_flags s i m).
Proof. intros Hi. by apply sound_set_buf. Qed.

(** Dirtying a buffer never fails. *)
Lemma set_fake_done e s i ids free :
  sys_inv s ids free -> bok s i ->
  exists s', polar_set_buffer_fake_oldest_lsn e s i = Done s' /\
    exists ids' free', sys_inv s' ids' free' /\ evolves s ids s' ids'.
Proof.
  intros Hinv Hi. unfold polar_set_buffer_fake_oldest_lsn.
  destruct (_ || _); [exists s; split; [done|by apply (sound_refl s ids free)]|].
  assert (forall f ids1, length (fs_bufs f) = length (fs_bufs (bs_flush s)) ->
    sys_inv (with_flush s f) ids1 free -> evolves s ids (with_flush s f) ids1 -> forall m,
    exists ids' free', sys_inv (inc_modified (or_flags (with_flush s f) i m) i) ids' free' /\
      evolves s ids (inc_modified (or_flags (with_flush s f) i m) i) ids') as Hfin.
  { intros f ids1 Hl A B m. assert (bok (with_flush s f) i) as Hi1 by (by apply bok_flush).
    assert (bok (or_flags (with_flush s f) i m) i) as Hi2 by (by apply bok_set_buf).
    destruct (sound_trans _ _ _ (or_flags_sound _ i m Hi1) (inc_modified_sound _ i Hi2) ids1 free A)
      as (ids' & free' & C & D). exists ids', free'. split; [done|]. by apply (evolves_trans _ _ (with_flush s f) ids1). }
  unfold XLogRecPtrIsInvalid at 1. destruct (oldest_lsn (buf s i) =? InvalidXLogRecPtr) eqn:E; zbool.
  - destruct (inv_put s ids free i (bs_clock s) InvalidXLogRecPtr (bs_clock s) Hinv Hi E (Z.le_refl _) eq_refl)
      as (f & -> & A & B & Hl). simpl. eexists. split; [done|].
    apply (Hfin f (ids ++ [i])); [done|by destruct s|by destruct s].
  - destruct (polar_buffer_first_touch_after_copy _).
    + destruct (inv_adjust s ids free i Hinv) as (f & ids1 & -> & A & B & Hl).
      { by apply (si_valid _ _ _ Hinv). }
      simpl. eexists. split; [done|]. by apply (Hfin f ids1).
    + simpl. eexists. split; [done|]. by apply (inc_modified_sound s i Hi ids free).
Qed.

(** Nor does dirtying it in recovery, when the record is not older than
    the position reached. *)
Lemma redo_set_done e s i lsn ids free :
  sys_inv s ids free -> bok s i -> bs_clock s <= lsn ->
  exists s', polar_redo_set_buffer_oldest_lsn e (set_clock_flush s (bs_flush s) lsn) i lsn = Done s' /\
    exists ids' free', sys_inv s' ids' free' /\ evolves s ids s' ids'.
Proof.
  intros Hinv Hi Hclk. set (s1 := set_clock_flush s (bs_flush s) lsn).
  assert (sys_inv s1 ids free /\ evolves s ids s1 ids) as [Hinv1 Hev1].
  { pose proof Hinv as [H1 H2 H3 H4 H5]. split; [split; try done|].
    - intros j Hj. specialize (H3 j Hj). simpl. change (lsn_s s1 j) with (lsn_s s j). lia.
    - simpl. lia.
    - split_and!; [done|by eauto|by eauto]. }
  pose proof (si_clock _ _ _ Hinv) as Hpos.
  unfold polar_redo_set_buffer_oldest_lsn. destruct (negb _); [exists s1; eauto|].
  destruct (_ || _) eqn:Er.
  { unfold bok, buf_id_ok in Hi. simpl in Er. apply orb_true_iff in Er as [Er|Er]; zbool; lia. }
  unfold XLogRecPtrIsInvalid, InvalidXLogRecPtr. destruct (lsn =? 0) eqn:El; zbool; [lia|].
  destruct (oldest_lsn (buf s1 i) =? 0) eqn:E; zbool.
  - destruct (inv_put s1 ids free i (bs_clock s1) lsn lsn Hinv1 Hi E (Z.le_refl _)) as (f & -> & A & B & Hl).
    { unfold XLogRecPtrIsInvalid, InvalidXLogRecPtr. by destruct (lsn =? 0) eqn:E2; zbool. }
    simpl. eexists. split; [done|].
    destruct (inc_modified_sound (with_flush s1 f) i ltac:(by apply bok_flush) (ids ++ [i]) free A)
      as (ids' & free' & C & D). exists ids', free'. split; [done|].
    eapply evolves_trans; [exact Hev1|]. eapply evolves_trans; [exact B|exact D].
  - simpl. eexists. split; [done|].
    destruct (inc_modified_sound s1 i Hi ids free Hinv1) as (ids' & free' & C & D).
    exists ids', free'. split; [done|]. by eapply evolves_trans.
Qed.

(** ** The calculated LSN is the least one *)

Definition copies_step (res : Z) (d : CopyBufferDesc) : Z :=
  let cur_lsn := cb_oldest_lsn d in
  if XLogRecPtrIsInvalid cur_lsn then res
  else if XLogRecPtrIsInvalid res || (res >? cur_lsn) then cur_lsn else res.

Lemma copies_fold_spec l acc :
  0 <= acc -> (forall d, d ∈ l -> 0 <= cb_oldest_lsn d) ->
  let r := fold_left copies_step l acc in
  0 <= r /\ (r = acc \/ exists d, d ∈ l /\ cb_oldest_lsn d = r) /\
  (acc <> 0 -> 0 < r <= acc) /\ (forall d, d ∈ l -> cb_oldest_lsn d <> 0 -> 0 < r <= cb_oldest_lsn d).
Proof.
  revert acc. induction l as [|d l IH]; intros acc Ha Hl; simpl.
  { split_and!; [done|by left|lia|]. intros d Hd. by apply not_elem_of_nil in Hd. }
  assert (0 <= cb_oldest_lsn d) as Hd by (apply Hl; set_solver).
  assert (0 <= copies_step acc d /\ (copies_step acc d = acc \/ copies_step acc d = cb_oldest_lsn d) /\
    (acc <> 0 -> 0 < copies_step acc d <= acc) /\
    (cb_oldest_lsn d <> 0 -> 0 < copies_step acc d <= cb_oldest_lsn d)) as (S1 & S2 & S3 & S4).
  { unfold copies_step, XLogRecPtrIsInvalid, InvalidXLogRecPtr.
    destruct (cb_oldest_lsn d =? 0) eqn:E1; zbool; [split_and!; auto; lia|].
    destruct (acc =? 0) eqn:E2; zbool; simpl; [split_and!; auto; lia|].
    destruct (acc >? cb_oldest_lsn d) eqn:E3; zbool; split_and!; auto; lia. }
  destruct (IH (copies_step acc d) S1 ltac:(set_solver)) as (A & B & C & D). split_and!.
  - done.
  - destruct B as [->|(x & Hx & He)]; [|right; exists x; set_solver].
    destruct S2 as [->| ->]; [by left|right; exists d; set_solver].
  - intros Hne. specialize (S3 Hne). specialize (C ltac:(lia)). lia.
  - intros x Hx Hne. apply elem_of_cons in Hx as [->|Hx]; [|by apply D].
    specialize (S4 Hne). specialize (C ltac:(lia)). lia.
Qed.

Section cal.
Context (e : env) (He : polar_copy_buffer_enabled e = true).
Context (s : bufsys) (ids free : list Z) (Hinv : sys_inv s ids free).

Lemma cbuf_oldest_nonneg c : 0 <= cb_oldest_lsn (cbuf s c).
Proof.
  destruct (decide (cok (bs_cbufs s) c)) as [Hc|Hc].
  - pose proof (si_copy _ _ _ Hinv) as Hci. destruct (cb_state (cbuf s c)) eqn:E.
    + destruct (ci_unused _ _ _ _ _ _ _ Hci c Hc E) as [_ Hz]. unfold cbuf. lia.
    + destruct (ci_used _ _ _ _ _ _ _ Hci c Hc E) as (i & Hi & Hcp).
      destruct (ci_copy _ _ _ _ _ _ _ Hci i c Hi Hcp) as (_ & _ & _ & Hl & _). unfold cbuf. lia.
  - unfold cbuf, aget, cok in *. case_decide; [|done]. by rewrite lookup_ge_None_2 by lia.
Qed.

Lemma cbuf_elem d : d ∈ bs_cbufs s -> exists c, cbuf s c = d.
Proof.
  intros Hd. apply list_elem_of_lookup_1 in Hd as [k Hk]. exists (Z.of_nat k).
  unfold cbuf, aget. rewrite decide_True by lia. by rewrite Nat2Z.id, Hk.
Qed.

Lemma cbuf_lookup c : cb_oldest_lsn (cbuf s c) <> 0 -> cok (bs_cbufs s) c /\ cbuf s c ∈ bs_cbufs s.
Proof.
  unfold cbuf, aget. case_decide; [|done]. destruct (bs_cbufs s !! Z.to_nat c) as [d|] eqn:E; [|done].
  intros _. split; [|by eapply list_elem_of_lookup_2]. apply lookup_lt_Some in E. unfold cok. lia.
Qed.

Lemma copy_owner c :
  cb_oldest_lsn (cbuf s c) <> 0 -> exists i, i ∈ ids /\ copy_buffer (buf s i) = Some c /\
    cb_oldest_lsn (cbuf s c) <= lsn_s s i.
Proof.
  intros Hnz. destruct (cbuf_lookup c Hnz) as [Hc _]. pose proof (si_copy _ _ _ Hinv) as Hci.
  destruct (cb_state (cbuf s c)) eqn:E.
  { destruct (ci_unused _ _ _ _ _ _ _ Hci c Hc E) as [_ Hz]. unfold cbuf in Hnz. lia. }
  destruct (ci_used _ _ _ _ _ _ _ Hci c Hc E) as (i & Hi & Hcp).
  destruct (ci_copy _ _ _ _ _ _ _ Hci i c Hi Hcp) as (_ & _ & _ & Hl & _).
  exists i. split_and!; [|done|unfold cbuf; lia]. apply (si_valid _ _ _ Hinv); [done|]. simpl in Hl. lia.
Qed.

Lemma copies_spec :
  let r := polar_copy_buffers_get_oldest_lsn e s in
  (r = 0 /\ forall c, cb_oldest_lsn (cbuf s c) = 0) \/
  (0 < r /\ (exists c, cb_oldest_lsn (cbuf s c) = r) /\
   forall c, cb_oldest_lsn (cbuf s c) <> 0 -> r <= cb_oldest_lsn (cbuf s c)).
Proof.
  unfold polar_copy_buffers_get_oldest_lsn. rewrite He. simpl negb. cbv iota.
  destruct (copies_fold_spec (bs_cbufs s) InvalidXLogRecPtr ltac:(done)) as (A & B & _ & D).
  { intros d Hd. destruct (cbuf_elem d Hd) as [c <-]. apply cbuf_oldest_nonneg. }
  change (fold_left _ (bs_cbufs s) InvalidXLogRecPtr) with (fold_left copies_step (bs_cbufs s) InvalidXLogRecPtr).
  set (r := fold_left copies_step (bs_cbufs s) InvalidXLogRecPtr) in *. cbv zeta.
  assert (forall c, cb_oldest_lsn (cbuf s c) <> 0 -> 0 < r <= cb_oldest_lsn (cbuf s c)) as Hle.
  { intros c Hnz. apply D; [by apply cbuf_lookup|done]. }
  destruct (decide (r = 0)) as [Hz|Hnz].
  - left. split; [done|]. intros c. destruct (decide (cb_oldest_lsn (cbuf s c) = 0)) as [|Hn]; [done|].
    specialize (Hle c Hn). lia.
  - right. split; [lia|]. split; [|intros c Hc; by apply Hle].
    destruct B as [?|(d & Hd & Hr)]; [done|]. destruct (cbuf_elem d Hd) as [c <-]. by exists c.
Qed.

Lemma list_part :
  match consistent_lsn_of_list s with
  | inl x => ids = [] /\ x = bs_clock s
  | inr x => (exists i, i ∈ ids /\ lsn_s s i = x) /\ forall i, i ∈ ids -> x <= lsn_s s i
  end.
Proof.
  pose proof (si_flush _ _ _ Hinv) as Hf. unfold consistent_lsn_of_list.
  rewrite (empty_iff _ ids (fw_core _ _ Hf)). destruct ids as [|i l]; [done|].
  rewrite bool_decide_false by done. rewrite (fw_first _ _ (fw_core _ _ Hf)). simpl.
  change (oldest_lsn (buf s i)) with (lsn_s s i). split; [exists i; split; [set_solver|done]|].
  pose proof (fw_sorted _ _ Hf) as Hs. simpl in Hs. inversion_clear Hs as [|? ? _ Hall].
  intros j Hj. apply elem_of_cons in Hj as [->|Hj]; [lia|].
  rewrite Forall_forall in Hall. apply Hall, list_elem_of_fmap. eauto.
Qed.

Lemma cal_bounds :
  let x := polar_cal_cur_consistent_lsn e s in
  x <= bs_clock s /\ (forall i, i ∈ ids -> x <= lsn_s s i) /\
  (forall c, cb_oldest_lsn (cbuf s c) <> 0 -> x <= cb_oldest_lsn (cbuf s c)).
Proof.
  unfold polar_cal_cur_consistent_lsn. pose proof list_part as Hl.
  destruct (consistent_lsn_of_list s) as [x|x]; simpl.
  - destruct Hl as [Hnil ->]. split_and!; [lia| |].
    + intros i Hi. rewrite Hnil in Hi. by apply not_elem_of_nil in Hi.
    + intros c Hc. destruct (copy_owner c Hc) as (i & Hi & _). rewrite Hnil in Hi.
      by apply not_elem_of_nil in Hi.
  - destruct Hl as [(i & Hi & <-) Hall]. pose proof (si_lsn _ _ _ Hinv i Hi).
    unfold XLogRecPtrIsInvalid, InvalidXLogRecPtr. pose proof copies_spec as Hc. cbv zeta in Hc.
    set (r := polar_copy_buffers_get_oldest_lsn e s) in *.
    destruct Hc as [[-> Hz]|(Hr & _ & Hle)].
    + simpl. split_and!; [lia|done|]. intros c Hnz. by rewrite Hz in Hnz.
    + destruct (r =? 0) eqn:E; zbool; [lia|]. simpl. split_and!; [lia| |].
      * intros j Hj. specialize (Hall j Hj). lia.
      * intros c Hnz. specialize (Hle c Hnz). lia.
Qed.

Lemma cal_glb x :
  x <= bs_clock s -> (forall i, i ∈ ids -> x <= lsn_s s i) ->
  (forall c, cb_oldest_lsn (cbuf s c) <> 0 -> x <= cb_oldest_lsn (cbuf s c)) ->
  x <= polar_cal_cur_consistent_lsn e s.
Proof.
  intros H1 H2 H3. unfold polar_cal_cur_consistent_lsn. pose proof list_part as Hl.
  destruct (consistent_lsn_of_list s) as [y|y]; simpl; [destruct Hl as [_ ->]; done|].
  destruct Hl as [(i & Hi & <-) _]. specialize (H2 i Hi).
  unfold XLogRecPtrIsInvalid, InvalidXLogRecPtr. pose proof copies_spec as Hc. cbv zeta in Hc.
  set (r := polar_copy_buffers_get_oldest_lsn e s) in *.
  destruct Hc as [[-> Hz]|(Hr & (c & Hc) & _)]; [done|].
  destruct (r =? 0) eqn:E; zbool; simpl; [done|]. specialize (H3 c ltac:(lia)). lia.
Qed.
End cal.

(** ** Executions *)

(** What the server does: WAL is inserted, a page is modified, a buffer is
    dirtied in normal operation or in recovery, a page is copied, a copy
    or the page itself is written (the tail of [FlushBuffer]), a batch is
    fetched, and the consistent LSN is published. *)
Inductive sstep (e : env) : bufsys -> bufsys -> Prop :=
| s_wal s lsn : bs_clock s <= lsn -> sstep e s (set_clock_flush s (bs_flush s) lsn)
| s_modify s i lsn pg : bok s i -> page_lsn (buf s i) <= lsn ->
    sstep e s (set_buf s i (buf_set_page (buf s i) lsn pg))
| s_dirty s i s' : bok s i -> polar_set_buffer_fake_oldest_lsn e s i = Done s' -> sstep e s s'
| s_redo s i lsn s' : bok s i -> bs_clock s <= lsn ->
    polar_redo_set_buffer_oldest_lsn e (set_clock_flush s (bs_flush s) lsn) i lsn = Done s' -> sstep e s s'
| s_copy s i apply vd : bok s i -> sstep e s (polar_buffer_copy_if_needed e s i apply vd)
| s_flush_copy s i apply vd : bok s i -> sstep e s (polar_flush_copy_buffer e s i apply vd)
| s_flush s i apply : bok s i -> (polar_buffer_can_be_flushed e s i apply false).2 = true ->
    let b := buf s i in
    let s1 := smgrwrite (XLogFlush s (page_lsn b)) i (page_lsn b) (page b) in
    sstep e s (polar_reset_buffer_oldest_lsn e (polar_free_copy_buffer s1 i) i)
| s_batch s n m : 0 <= n -> sstep e s (with_flush s (polar_get_batch_flush_buffer n m (bs_flush s)).1)
| s_publish s r x :
    update_consistent_lsn_delta r (polar_cal_cur_consistent_lsn e s) (bs_consistent_lsn s) = Done x ->
    sstep e s (polar_set_consistent_lsn s x).

(** [nbufs] clean buffers, [ncopies] free copy buffers, WAL at [clock]. *)
Definition init_sys (nbufs : nat) (ncopies clock : Z) : bufsys :=
  mk_sys (mk_fs polar_init_flush_list_ctl (replicate nbufs no_buf))
    (polar_init_copy_buffer_pool ncopies) (init_copy_buffer_ctl ncopies) 0 clock 0 ∅.

Lemma init_pool_get n c :
  0 <= c < n -> cget (polar_init_copy_buffer_pool n) c =
    mk_cbuf (if c =? n - 1 then FREENEXT_END_OF_LIST else c + 1) InvalidXLogRecPtr 0
      POLAR_COPY_BUFFER_UNUSED 0 false 0 [].
Proof.
  intros Hc. unfold aget, polar_init_copy_buffer_pool. rewrite decide_True by lia.
  rewrite list_lookup_fmap, lookup_seqZ_lt by lia. simpl. by replace (0 + Z.of_nat (Z.to_nat c)) with c by lia.
Qed.

Lemma init_pool_chain n k :
  0 <= k <= n -> fchain (polar_init_copy_buffer_pool n) (seqZ k (n - k)).
Proof.
  intros Hk. remember (Z.to_nat (n - k)) as m eqn:Hm. revert k Hk Hm.
  induction m as [|m IH]; intros k Hk Hm.
  - replace (n - k) with 0 by lia. done.
  - rewrite seqZ_cons by lia. replace (Z.pred (n - k)) with (n - Z.succ k) by lia.
    split; [|apply IH; lia]. rewrite init_pool_get by lia. cbn [cb_free_next].
    destruct (k =? n - 1) eqn:E; zbool.
    + by replace (n - Z.succ k) with 0 by lia.
    + by rewrite seqZ_cons by lia.
Qed.

Lemma init_sys_inv nbufs ncopies clock :
  0 < ncopies -> 0 < clock -> sys_inv (init_sys nbufs ncopies clock) [] (seqZ 0 ncopies).
Proof.
  intros Hn Hc.
  assert (length (polar_init_copy_buffer_pool ncopies) = Z.to_nat ncopies) as Hlen.
  { unfold polar_init_copy_buffer_pool. by rewrite length_fmap, length_seqZ. }
  assert (forall j, buf (init_sys nbufs ncopies clock) j = no_buf) as Hb by (intros; apply aget_replicate).
  split.
  - apply init_flush_wf. apply Forall_replicate. done.
  - intros i _. split; [intros Hi; by apply not_elem_of_nil in Hi|].
    change (oldest_lsn (buf (init_sys nbufs ncopies clock) i) <> 0 -> i ∈ []). by rewrite Hb.
  - intros i Hi. by apply not_elem_of_nil in Hi.
  - done.
  - simpl. split.
    + intros i c _ Hi. by rewrite Hb in Hi.
    + intros c Hc1 Hc2. unfold cok in Hc1. rewrite init_pool_get in Hc2 by lia. done.
    + intros c Hc1 _. unfold cok in Hc1. rewrite init_pool_get by lia. split; [|done].
      apply elem_of_seqZ. lia.
    + intros c Hc1. apply elem_of_seqZ in Hc1. unfold cok. rewrite init_pool_get by lia. split; [lia|done].
    + apply NoDup_seqZ.
    + simpl. by rewrite seqZ_cons by lia.
    + replace ncopies with (ncopies - 0) at 2 by lia. apply init_pool_chain. lia.
Qed.

Lemma batch_keeps_wf st ids n m :
  flush_wf st ids -> 0 <= n ->
  flush_wf (polar_get_batch_flush_buffer n m st).1 ids /\
  fs_bufs (polar_get_batch_flush_buffer n m st).1 = fs_bufs st.
Proof.
  intros Hwf Hn. destruct (decide (ids = [])) as [->|Hne].
  { unfold polar_get_batch_flush_buffer. by rewrite (empty_iff _ _ (fw_core _ _ Hwf)). }
  assert ((exists k, cursor_at st ids k) \/ current_pos (fs_ctl st) = POLAR_FLUSHNEXT_END_OF_LIST) as [[k Hk]|Hp].
  { destruct (fw_pos _ _ (fw_core _ _ Hwf)) as [H|[H|H]]; [left; exists 0%nat; by right|by right|].
    apply list_elem_of_lookup_1 in H as [k Hk]. left. exists k. by left. }
  - pose proof (batch_wf n m st ids k Hwf Hne Hk Hn) as H. cbv zeta in H.
    destruct (polar_get_batch_flush_buffer n m st). simpl. by destruct H as (_ & A & B & _).
  - unfold polar_get_batch_flush_buffer, current_pos_is_unavailable.
    rewrite (empty_iff _ _ (fw_core _ _ Hwf)), bool_decide_false, Hp by done.
    change (POLAR_FLUSHNEXT_END_OF_LIST =? POLAR_FLUSHNEXT_NOT_IN_LIST) with false. cbv iota. rewrite Hp.
    assert (forall k, batch_loop k st POLAR_FLUSHNEXT_END_OF_LIST = ([], POLAR_FLUSHNEXT_END_OF_LIST)) as Hb
      by (by intros []).
    rewrite Hb. simpl. split; [|done]. apply wf_set_pos; [done|].
    rewrite (fw_first _ _ (fw_core _ _ Hwf)).
    destruct (hd_or_in POLAR_FLUSHNEXT_END_OF_LIST ids) as [[-> _]|?]; auto.
Qed.

Lemma same_but_links_refl b : same_but_links b b.
Proof. exists (flush_next b), (flush_prev b), (oldest_lsn b). by destruct b. Qed.

Lemma batch_sound s n m : 0 <= n ->
  sound_change s (with_flush s (polar_get_batch_flush_buffer n m (bs_flush s)).1).
Proof.
  intros Hn ids free Hinv. exists ids, free. pose proof Hinv as [H1 H2 H3 H4 H5].
  destruct (batch_keeps_wf _ ids n m H1 Hn) as [Hw Hb].
  set (f := (polar_get_batch_flush_buffer n m (bs_flush s)).1) in *.
  assert (forall j, GetBufferDescriptor f j = GetBufferDescriptor (bs_flush s) j) as Hg
    by (intros; unfold GetBufferDescriptor; by rewrite Hb).
  assert (forall j, lsn_of f j = lsn_s s j) as Hl by (intros; unfold lsn_of; by rewrite Hg).
  apply (inv_with_flush s ids free f ids (bs_clock s) Hinv (Z.le_refl _) Hw).
  - intros j. rewrite Hg. apply same_but_links_refl.
  - by rewrite Hb.
  - intros j Hj. rewrite Hl. by apply H2.
  - intros j _. left. apply Hl.
  - intros j Hj. apply (fw_range _ _ (fw_core _ _ H1) j Hj).
  - intros j _ _. rewrite Hl. lia.
Qed.

Section steps.
Context (e : env) (He1 : polar_flush_list_enabled e = true) (He2 : polar_copy_buffer_enabled e = true).

Lemma sstep_sound s s' : sstep e s s' -> sound_change s s'.
Proof.
  destruct 1 as [s lsn Hl|s i lsn pg Hi Hl|s i s' Hi Hd|s i lsn s' Hi Hl Hd|s i apply vd Hi|s i apply vd Hi
                |s i apply Hi Hf b s1|s n m Hn|s r x Hu].
  - intros ids free Hinv. exists ids, free. pose proof Hinv as [H1 H2 H3 H4 H5]. split.
    + split; try done; [|simpl; lia]. intros j Hj. specialize (H3 j Hj). simpl.
      change (lsn_s (set_clock_flush s (bs_flush s) lsn) j) with (lsn_s s j). lia.
    + split_and!; [done|by eauto|by eauto].
  - by apply sound_set_buf.
  - intros ids free Hinv. destruct (set_fake_done e s i ids free Hinv Hi) as (s2 & E & H).
    rewrite E in Hd. by simplify_eq.
  - intros ids free Hinv. destruct (redo_set_done e s i lsn ids free Hinv Hi Hl) as (s2 & E & H).
    rewrite E in Hd. by simplify_eq.
  - by apply copy_if_needed_sound.
  - by apply flush_copy_buffer_sound.
  - assert (bok s1 i) as Hi1 by done. destruct (free_copy_none s1 i Hi1) as (Hn & Hok & _).
    apply (sound_trans _ s1); [by apply sound_ext|].
    apply (sound_trans _ (polar_free_copy_buffer s1 i)); [by apply free_copy_buffer_sound|].
    apply reset_sound; [done|by apply Hok|done].
  - by apply batch_sound.
  - by apply sound_ext.
Qed.

(** The calculated LSN never goes back, and bounds the published one. *)
Lemma evolves_cal s ids free s' ids' free' :
  sys_inv s ids free -> sys_inv s' ids' free' -> evolves s ids s' ids' ->
  polar_cal_cur_consistent_lsn e s <= polar_cal_cur_consistent_lsn e s'.
Proof.
  intros Hinv Hinv' (E1 & E2 & E3). destruct (cal_bounds e He2 s ids free Hinv) as (B1 & B2 & B3).
  apply (cal_glb e He2 s' ids' free' Hinv'); [lia| |].
  - intros i Hi. destruct (E2 i Hi) as [(j & Hj & <-)|H]; [by apply B2|lia].
  - intros c Hc. destruct (E3 c Hc) as [(c' & E)|[(j & Hj & E)|H]]; [|rewrite <- E; by apply B2|lia].
    rewrite <- E in *. by apply B3.
Qed.

Definition sys_ok (s : bufsys) : Prop :=
  (exists ids free, sys_inv s ids free) /\ bs_consistent_lsn s <= polar_cal_cur_consistent_lsn e s.

Lemma free_copy_consistent s i : bs_consistent_lsn (polar_free_copy_buffer s i) = bs_consistent_lsn s.
Proof. unfold polar_free_copy_buffer. by destruct (copy_buffer (buf s i)). Qed.

Lemma update_delta_ge r cal cur x :
  cur <= cal -> update_consistent_lsn_delta r cal cur = Done x -> cur <= x <= cal.
Proof.
  intros Hle. unfold update_consistent_lsn_delta. destruct r as [[[] from]|].
  - intros [= <-]. lia.
  - destruct (_ <? 0) eqn:E; zbool; [lia|]. intros [= <-]. lia.
  - destruct (_ <? 0) eqn:E; zbool; [lia|]. intros [= <-]. lia.
Qed.

Lemma sstep_consistent s s' :
  sstep e s s' -> bs_consistent_lsn s <= polar_cal_cur_consistent_lsn e s ->
  bs_consistent_lsn s' = bs_consistent_lsn s \/
  (bs_consistent_lsn s' <= polar_cal_cur_consistent_lsn e s).
Proof.
  destruct 1 as [s lsn Hl|s i lsn pg Hi Hl|s i s' Hi Hd|s i lsn s' Hi Hl Hd|s i apply vd Hi|s i apply vd Hi
                |s i apply Hi Hf b s1|s n m Hn|s r x Hu]; intros Hle; try (by left).
  - left. unfold polar_set_buffer_fake_oldest_lsn in Hd. destruct (_ || _); [by simplify_eq|].
    apply obind_Done in Hd as (s2 & Hd & [= <-]). destruct (XLogRecPtrIsInvalid _).
    + by apply obind_Done in Hd as (f & _ & [= <-]).
    + destruct (polar_buffer_first_touch_after_copy _); [by apply obind_Done in Hd as (f & _ & [= <-])|].
      by simplify_eq.
  - left. unfold polar_redo_set_buffer_oldest_lsn in Hd.
    destruct (negb _); [by simplify_eq|]. destruct (_ || _); [done|].
    destruct (XLogRecPtrIsInvalid lsn); [done|]. apply obind_Done in Hd as (s2 & Hd & [= <-]).
    destruct (XLogRecPtrIsInvalid _); [by apply obind_Done in Hd as (f & _ & [= <-])|by simplify_eq].
  - left. unfold polar_buffer_copy_if_needed, copy_buffer_alloc.
    destruct (negb _); [done|]. destruct (negb _); [done|]. by destruct (_ <? 0).
  - left. unfold polar_flush_copy_buffer. destruct (negb _); [done|].
    unfold polar_buffer_can_be_flushed.
    destruct (_ || _); [|destruct (copy_buffer (buf s i)); [|done]; destruct (_ <=? _); simpl; [|done]];
      (destruct (copy_buffer (buf _ i)); [|done]); rewrite free_copy_consistent; by destruct (permanent _).
  - left. unfold polar_reset_buffer_oldest_lsn. destruct (XLogRecPtrIsInvalid _); simpl;
      by rewrite free_copy_consistent.
  - right. apply update_delta_ge in Hu; [|done]. simpl. lia.
Qed.

Lemma sys_ok_step s s' : sstep e s s' -> sys_ok s -> sys_ok s'.
Proof.
  intros Hs [(ids & free & Hinv) Hle].
  destruct (sstep_sound s s' Hs ids free Hinv) as (ids' & free' & Hinv' & Hev).
  pose proof (evolves_cal _ _ _ _ _ _ Hinv Hinv' Hev) as Hm.
  split; [eauto|]. destruct (sstep_consistent s s' Hs Hle) as [->|H]; lia.
Qed.

Lemma sys_ok_init nbufs ncopies clock :
  0 < ncopies -> 0 < clock -> sys_ok (init_sys nbufs ncopies clock).
Proof.
  intros Hn Hc. pose proof (init_sys_inv nbufs ncopies clock Hn Hc) as Hinv. split; [eauto|].
  apply (cal_glb e He2 _ _ _ Hinv); simpl; [lia| |].
  - intros i Hi. by apply not_elem_of_nil in Hi.
  - intros c Hnz. destruct (copy_owner _ _ _ Hinv c Hnz) as (i & Hi & _). by apply not_elem_of_nil in Hi.
Qed.

Lemma sys_ok_steps s s' : rtc (sstep e) s s' -> sys_ok s -> sys_ok s'.
Proof. induction 1; [done|]. intros. by apply IHrtc, (sys_ok_step x). Qed.

Lemma steps_sound s s' : rtc (sstep e) s s' -> sound_change s s'.
Proof. induction 1; [apply sound_refl|]. eapply sound_trans; [by apply sstep_sound|done]. Qed.
End steps.

(** ** Properties *)

(** A primary with everything enabled. *)
Definition demo_env : env := mk_env true true true false false false true 5 100.

Definition dirty (s : bufsys) (i : Z) : bufsys :=
  match polar_set_buffer_fake_oldest_lsn demo_env s i with Done s' => s' | _ => s end.
Definition wal (s : bufsys) (lsn : Z) : bufsys := set_clock_flush s (bs_flush s) lsn.

(** Permanent main-fork buffers. *)
Definition demo_sys0 : bufsys :=
  let b := mk_buf POLAR_FLUSHNEXT_NOT_IN_LIST POLAR_FLUSHNEXT_NOT_IN_LIST 0 None 0 0 0 true false 0 [] in
  mk_sys (mk_fs polar_init_flush_list_ctl [b; b]) (polar_init_copy_buffer_pool 1)
    (init_copy_buffer_ctl 1) 0 10 0 ∅.

(** Buffer 0 is dirtied at 10 and buffer 1 at 20; page 0, at LSN 15, is
    copied as the replicas are at 5, and dirtied again at 30. *)
Definition demo_sys1 : bufsys := dirty demo_sys0 0.
Definition demo_sys2 : bufsys := dirty (wal demo_sys1 20) 1.
Definition demo_sys3 : bufsys := set_buf demo_sys2 0 (buf_set_page (buf demo_sys2 0) 15 [7]).
Definition demo_sys4 : bufsys := polar_buffer_copy_if_needed demo_env demo_sys3 0 5 true.
Definition demo_sys5 : bufsys := dirty (wal demo_sys4 30) 0.
Definition demo_sys6 : bufsys := set_buf demo_sys5 0 (buf_set_page (buf demo_sys5 0) 31 [8]).

Lemma demo_sys0_inv : sys_inv demo_sys0 [] (seqZ 0 1).
Proof.
  pose proof (init_sys_inv 2 1 10 ltac:(lia) ltac:(lia)) as [H1 H2 H3 H4 H5].
  assert (forall i, bok demo_sys0 i -> i = 0 \/ i = 1) as Hij.
  { intros i Hi. unfold bok, buf_id_ok in Hi. simpl in Hi. lia. }
  split.
  - apply init_flush_wf. by repeat constructor.
  - intros i Hi. destruct (Hij i Hi) as [-> | ->]; (split; [intros Hin; by apply not_elem_of_nil in Hin|done]).
  - intros i Hi. by apply not_elem_of_nil in Hi.
  - done.
  - destruct H5 as [C1 C2 C3 C4 C5 C6 C7]. split; try done.
    + intros i c Hi Hc. destruct (Hij i Hi) as [-> | ->]; done.
    + intros c Hc Hu. destruct (C2 c Hc Hu) as (i & Hi & He). exfalso.
      assert (buf (init_sys 2 1 10) i = no_buf) as Hb by apply aget_replicate. by rewrite Hb in He.
Qed.

Lemma demo_sys0_ok : sys_ok demo_env demo_sys0.
Proof. split; [by eexists _, _; apply demo_sys0_inv|]. vm_compute. congruence. Qed.

Lemma demo_bok s i : 0 <= i < 2 -> length (fs_bufs (bs_flush s)) = 2%nat -> bok s i.
Proof. intros Hi Hl. unfold bok, buf_id_ok. rewrite Hl. simpl. lia. Qed.

Lemma demo_run_sys : rtc (sstep demo_env) demo_sys0 demo_sys5.
Proof.
  apply (rtc_l _ _ demo_sys1).
  { apply (s_dirty _ _ 0); [apply demo_bok; [lia|]|]; vm_compute; reflexivity. }
  apply (rtc_l _ _ (wal demo_sys1 20)); [apply s_wal; vm_compute; congruence|].
  apply (rtc_l _ _ demo_sys2).
  { apply (s_dirty _ _ 1); [apply demo_bok; [lia|]|]; vm_compute; reflexivity. }
  apply (rtc_l _ _ demo_sys3).
  { apply s_modify; [apply demo_bok; [lia|]; vm_compute; reflexivity|vm_compute; congruence]. }
  apply (rtc_l _ _ demo_sys4).
  { apply s_copy, demo_bok; [lia|]. vm_compute. reflexivity. }
  apply (rtc_l _ _ (wal demo_sys4 30)); [apply s_wal; vm_compute; congruence|].
  apply rtc_once, (s_dirty _ _ 0); [apply demo_bok; [lia|]|]; vm_compute; reflexivity.
Qed.

(** C30: the consistent LSN never goes back: whenever the background writer
    recalculates it, even when other processes dirty, copy and write
    buffers between its look at the flush list and its look at the copy
    buffers, the new value is at least the published one, so the PANIC in
    [update_consistent_lsn_delta] is not reached, and the value is safe for
    every buffer and copy at that later moment. *)
Theorem consistent_lsn_monotone (e : env) (s0 s s' : bufsys) :
  polar_flush_list_enabled e = true -> polar_copy_buffer_enabled e = true ->
  sys_ok e s0 -> rtc (sstep e) s0 s -> rtc (sstep e) s s' ->
  let x := consistent_lsn_of_copies e s' (consistent_lsn_of_list s) in
  update_consistent_lsn_delta None x (bs_consistent_lsn s) = Done x /\
  (forall i, bok s' i -> oldest_lsn (buf s' i) <> InvalidXLogRecPtr -> x <= oldest_lsn (buf s' i)) /\
  (forall c, cb_oldest_lsn (cbuf s' c) <> InvalidXLogRecPtr -> x <= cb_oldest_lsn (cbuf s' c)).
Proof.
  intros He1 He2 H0 Hs Hs'. destruct (sys_ok_steps e He1 He2 s0 s Hs H0) as [(ids & free & Hinv) Hle].
  destruct (steps_sound e He1 s s' Hs' ids free Hinv) as (ids' & free' & Hinv' & Hev).
  pose proof Hev as (E1 & E2 & E3).
  pose proof (cal_bounds e He2 s ids free Hinv) as (B1 & B2 & B3).
  pose proof (list_part e He2 s ids free Hinv) as Hl.
  pose proof (copies_spec e He2 s' ids' free' Hinv') as Hc. cbv zeta in Hc.
  set (x := consistent_lsn_of_copies e s' (consistent_lsn_of_list s)).
  assert (bs_consistent_lsn s <= x /\
    (forall i, i ∈ ids' -> x <= lsn_s s' i) /\
    (forall c, cb_oldest_lsn (cbuf s' c) <> 0 -> x <= cb_oldest_lsn (cbuf s' c))) as (X1 & X2 & X3).
  { unfold x. destruct (consistent_lsn_of_list s) as [y|y]; simpl.
    - destruct Hl as [-> ->]. split_and!; [lia| |].
      + intros i Hi. destruct (E2 i Hi) as [(j & Hj & _)|H]; [by apply not_elem_of_nil in Hj|done].
      + intros c Hc'. destruct (E3 c Hc') as [(c' & E)|[(j & Hj & _)|H]]; [|by apply not_elem_of_nil in Hj|done].
        assert (cb_oldest_lsn (cbuf s c') <> 0) as Hnz by congruence.
        destruct (copy_owner s [] free Hinv c' Hnz) as (i & Hi & _). by apply not_elem_of_nil in Hi.
    - destruct Hl as [(i & Hi & <-) Hall]. specialize (B2 i Hi).
      assert (lsn_s s i <= bs_clock s) as Hic by apply (si_lsn _ _ _ Hinv i Hi).
      assert (forall j, j ∈ ids' -> lsn_s s i <= lsn_s s' j) as Hlist.
      { intros j Hj. destruct (E2 j Hj) as [(k & Hk & <-)|H]; [by apply Hall|lia]. }
      unfold XLogRecPtrIsInvalid, InvalidXLogRecPtr. set (r := polar_copy_buffers_get_oldest_lsn e s') in *.
      destruct Hc as [[-> Hz]|(Hr & (c & Hc) & Hmin)].
      + simpl. split_and!; [lia|done|]. intros c Hnz. by rewrite Hz in Hnz.
      + destruct (r =? 0) eqn:E; zbool; [lia|]. simpl. split_and!.
        * assert (polar_cal_cur_consistent_lsn e s <= r); [|lia].
          destruct (E3 c ltac:(lia)) as [(c' & Ec)|[(j & Hj & Ec)|H]]; [|specialize (Hall j Hj)|]; [|lia|lia].
          specialize (B3 c' ltac:(lia)). lia.
        * intros j Hj. specialize (Hlist j Hj). lia.
        * intros c' Hnz. specialize (Hmin c' Hnz). lia. }
  split_and!.
  - unfold update_consistent_lsn_delta. destruct (_ <? 0) eqn:E; zbool; [lia|done].
  - intros i Hi Hnz. apply X2. by apply (si_valid _ _ _ Hinv').
  - done.
Qed.

Lemma consistent_lsn_monotone_witness :
  update_consistent_lsn_delta None (consistent_lsn_of_copies demo_env demo_sys5 (consistent_lsn_of_list demo_sys0))
    (bs_consistent_lsn demo_sys0) = Done 10.
Proof.
  exact (proj1 (consistent_lsn_monotone demo_env demo_sys0 demo_sys0 demo_sys5 eq_refl eq_refl demo_sys0_ok
    (rtc_refl _ _) demo_run_sys)).
Defined.

(** Dirtying a buffer never fails: in a reachable state the fake LSN is
    not older than the last buffer's of the flush list, so the PANIC in
    [append_one_buffer] is not reached, whether the buffer is clean, dirty,
    or touched for the first time after it was copied. *)
Theorem dirtying_never_panics (e : env) (s0 s : bufsys) (i : Z) :
  polar_flush_list_enabled e = true -> polar_copy_buffer_enabled e = true ->
  sys_ok e s0 -> rtc (sstep e) s0 s -> bok s i ->
  exists s', polar_set_buffer_fake_oldest_lsn e s i = Done s' /\ sys_ok e s'.
Proof.
  intros He1 He2 H0 Hs Hi. pose proof (sys_ok_steps e He1 He2 s0 s Hs H0) as Hok.
  destruct Hok as [(ids & free & Hinv) Hle].
  destruct (set_fake_done e s i ids free Hinv Hi) as (s' & He & _). exists s'. split; [done|].
  apply (sys_ok_step e He1 He2 s); [by apply (s_dirty _ _ i)|]. split; eauto.
Qed.

Lemma dirtying_never_panics_witness :
  exists s', polar_set_buffer_fake_oldest_lsn demo_env demo_sys5 1 = Done s' /\ sys_ok demo_env s'.
Proof.
  apply (dirtying_never_panics demo_env demo_sys0 demo_sys5 1 eq_refl eq_refl demo_sys0_ok demo_run_sys).
  apply demo_bok; [lia|]. vm_compute. reflexivity.
Defined.

(** The pages that the rule about replicas does not cover. *)
Definition write_exempt (e : env) (b : BufferDesc) (apply : Z) : bool :=
  XLogRecPtrIsInvalid apply || (forkNum b =? FSM_FORKNUM) || (forkNum b =? INIT_FORKNUM)
  || polar_donot_control_vm_buffer e b.

Lemma free_copy_disk s i :
  bs_disk (polar_free_copy_buffer s i) = bs_disk s /\
  bs_wal_flushed (polar_free_copy_buffer s i) = bs_wal_flushed s.
Proof. unfold polar_free_copy_buffer. by destruct (copy_buffer (buf s i)). Qed.

(** Flushing a copy buffer either leaves storage alone or writes the
    copied version of the page, after the WAL is flushed up to the page's
    LSN, and only a version that the replicas have replayed (unless the
    page is exempt): no replica reads a page from its future. *)
Theorem flush_copy_obeys_rules (e : env) (s0 s : bufsys) (i apply : Z) (valid_dirty : bool) :
  polar_flush_list_enabled e = true -> polar_copy_buffer_enabled e = true ->
  sys_ok e s0 -> rtc (sstep e) s0 s -> bok s i ->
  let s' := polar_flush_copy_buffer e s i apply valid_dirty in
  bs_disk s' = bs_disk s \/
  exists c, copy_buffer (buf s i) = Some c /\
    bs_disk s' = <[i := (cb_page_lsn (cbuf s c), cb_page (cbuf s c))]> (bs_disk s) /\
    (permanent (buf s i) = true -> cb_page_lsn (cbuf s c) <= bs_wal_flushed s') /\
    (write_exempt e (buf s i) apply = false -> cb_page_lsn (cbuf s c) <= apply) /\
    copy_buffer (buf s' i) = None.
Proof.
  intros He1 He2 H0 Hs Hi. destruct (sys_ok_steps e He1 He2 s0 s Hs H0) as [(ids & free & Hinv) _].
  unfold polar_flush_copy_buffer. destruct (negb _) eqn:Hio; [by left|].
  apply negb_false_iff in Hio. unfold start_copy_buffer_io in Hio. apply andb_true_iff in Hio as [_ Hio].
  apply bool_decide_eq_true in Hio as [c Hc].
  destruct (ci_copy _ _ _ _ _ _ _ (si_copy _ _ _ Hinv) i c Hi Hc) as (_ & _ & _ & _ & Hpl).
  assert (negb (polar_enable_shared_storage_mode e) = false) as Hss.
  { unfold polar_copy_buffer_enabled in He2. by destruct (polar_enable_shared_storage_mode e). }
  assert (forall s2, buf s2 i = buf s i -> bs_flush s2 = bs_flush s -> cbuf s2 c = cbuf s c ->
            bs_disk s2 = bs_disk s ->
            (write_exempt e (buf s i) apply = false -> cb_page_lsn (cbuf s c) <= apply) ->
    let s2' := if permanent (buf s2 i) then XLogFlush s2 (cb_page_lsn (cbuf s2 c)) else s2 in
    let s3 := smgrwrite s2' i (cb_page_lsn (cbuf s2 c)) (cb_page (cbuf s2' c)) in
    exists c0, Some c = Some c0 /\
      bs_disk (polar_free_copy_buffer (set_cbuf s3 c (cbuf_flushed (cbuf s3 c))) i) =
        <[i := (cb_page_lsn (cbuf s c0), cb_page (cbuf s c0))]> (bs_disk s) /\
      (permanent (buf s i) = true -> cb_page_lsn (cbuf s c0) <=
         bs_wal_flushed (polar_free_copy_buffer (set_cbuf s3 c (cbuf_flushed (cbuf s3 c))) i)) /\
      (write_exempt e (buf s i) apply = false -> cb_page_lsn (cbuf s c0) <= apply) /\
      copy_buffer (buf (polar_free_copy_buffer (set_cbuf s3 c (cbuf_flushed (cbuf s3 c))) i) i) = None)
    as Hfin.
  { intros s2 Hb Hf Hcb Hd Hr s2' s3. exists c. split; [done|].
    assert (bok (set_cbuf s3 c (cbuf_flushed (cbuf s3 c))) i) as Hok.
    { unfold bok, s3, s2'. destruct (permanent _); simpl; rewrite Hf; exact Hi. }
    destruct (free_copy_disk (set_cbuf s3 c (cbuf_flushed (cbuf s3 c))) i) as [-> ->].
    split_and!; [| |done|by apply free_copy_none].
    - unfold s3, s2'. destruct (permanent _); simpl; rewrite Hd; unfold cbuf in *; simpl; by rewrite Hcb.
    - intros Hp. unfold s3, s2'. rewrite Hb, Hp, Hcb. simpl. lia. }
  unfold polar_buffer_can_be_flushed. rewrite Hss. cbn [orb]. rewrite Hc.
  destruct (_ || _) eqn:Ecase.
  - right. rewrite Hc. apply (Hfin s); try done. intros Hex. unfold write_exempt in Hex.
    rewrite <- orb_assoc in Ecase.
    destruct (XLogRecPtrIsInvalid apply); [done|]. destruct (forkNum (buf s i) =? FSM_FORKNUM); [done|].
    destruct (forkNum (buf s i) =? INIT_FORKNUM); [done|]. simpl in *.
    rewrite Hex in Ecase. rewrite !orb_false_r in Ecase. zbool. unfold cbuf. simpl in Hpl. lia.
  - destruct (cb_page_lsn (cbuf s c) <=? apply) eqn:El; cbn [negb]; cbv iota beta; [|left; reflexivity]; zbool.
    right. rewrite Hc. apply (Hfin s); try done.
Qed.

Lemma flush_copy_obeys_rules_witness :
  let s' := polar_flush_copy_buffer demo_env demo_sys5 0 16 true in
  bs_disk s' = bs_disk demo_sys5 \/
  exists c, copy_buffer (buf demo_sys5 0) = Some c /\
    bs_disk s' = <[0 := (cb_page_lsn (cbuf demo_sys5 c), cb_page (cbuf demo_sys5 c))]> (bs_disk demo_sys5) /\
    (permanent (buf demo_sys5 0) = true -> cb_page_lsn (cbuf demo_sys5 c) <= bs_wal_flushed s') /\
    (write_exempt demo_env (buf demo_sys5 0) 16 = false -> cb_page_lsn (cbuf demo_sys5 c) <= 16) /\
    copy_buffer (buf s' 0) = None.
Proof.
  apply (flush_copy_obeys_rules demo_env demo_sys0 demo_sys5 0 16 true eq_refl eq_refl demo_sys0_ok demo_run_sys).
  apply demo_bok; [lia|]. vm_compute. reflexivity.
Defined.

(** The lag of a buffer behind the consistent LSN is kept in 32 bits
    when the server decides whether to copy it, so a lag of 4 GiB more is
    not noticed: a buffer far beyond the setting is copied as if it were
    near. *)
Theorem copy_lag_wraps (e : env) (s : bufsys) (i apply : Z) (check_io : bool) :
  polar_buffer_copy_is_satisfied e (polar_set_consistent_lsn s (bs_consistent_lsn s - 2 ^ 32)) i apply check_io =
  polar_buffer_copy_is_satisfied e s i apply check_io.
Proof.
  unfold polar_buffer_copy_is_satisfied.
  change (buf (polar_set_consistent_lsn s (bs_consistent_lsn s - 2 ^ 32)) i) with (buf s i).
  cbn [polar_set_consistent_lsn bs_consistent_lsn].
  replace (u32 (oldest_lsn (buf s i) - (bs_consistent_lsn s - 2 ^ 32)))
    with (u32 (oldest_lsn (buf s i) - bs_consistent_lsn s)); [done|].
  unfold u32, wrap.
  replace (oldest_lsn (buf s i) - (bs_consistent_lsn s - 2 ^ 32))
    with (oldest_lsn (buf s i) - bs_consistent_lsn s + 1 * 2 ^ 32) by lia.
  by rewrite Z.mod_add by lia.
Qed.

(** The redo LSN of a lazy checkpoint is a valid consistent LSN that is
    published before the checkpoint starts and is safe; a checkpoint that
    is not lazy does not carry the flag. *)
Theorem lazy_checkpoint_redo (e : env) (s : bufsys) (lazy_enabled shutdown : bool)
    (cause_mask flags redo : Z) :
  sys_ok e s ->
  let '(is_lazy, flags', redo', s') :=
    polar_check_lazy_checkpoint lazy_enabled shutdown cause_mask (polar_cal_cur_consistent_lsn e s) flags redo s in
  if is_lazy then redo' <> InvalidXLogRecPtr /\ redo' = bs_consistent_lsn s' /\
                  redo' <= polar_cal_cur_consistent_lsn e s /\ Z.testbit flags' 12 = true
  else Z.testbit flags' 12 = false /\ redo' = redo /\ s' = s.
Proof.
  intros [_ Hle]. unfold polar_check_lazy_checkpoint, XLogRecPtrIsInvalid.
  assert (forall z, Z.testbit (Z.land z (Z.lnot CHECKPOINT_LAZY)) 12 = false) as Hclr
    by (intros; by rewrite Z.land_spec, andb_false_r).
  assert (forall z, Z.testbit (Z.lor z CHECKPOINT_LAZY) 12 = true) as Hset
    by (intros; by rewrite Z.lor_spec, orb_true_r).
  destruct lazy_enabled; [|split_and!; [apply Hclr|done|done]]. simpl negb. cbv iota.
  set (is_lazy := if negb (Z.land flags CHECKPOINT_LAZY =? 0) then true else _).
  destruct is_lazy eqn:El; simpl negb; cbv iota.
  - destruct (bs_consistent_lsn s =? InvalidXLogRecPtr) eqn:E1; zbool; cbn [negb]; cbv iota.
    + destruct (polar_cal_cur_consistent_lsn e s =? InvalidXLogRecPtr) eqn:E2; zbool; cbn [negb]; cbv iota;
        [split_and!; [apply Hclr|done|done]|].
      split_and!; [done|done|lia|done].
    + split_and!; [done|done|done|done].
  - split_and!; [|done|done]. unfold is_lazy in El.
    destruct (Z.land flags CHECKPOINT_LAZY =? 0) eqn:E; simpl in El; [|done]. zbool.
    assert (Z.testbit (Z.land flags CHECKPOINT_LAZY) 12 = false) as Hb by (by rewrite E, Z.bits_0).
    rewrite Z.land_spec in Hb. by rewrite andb_true_r in Hb.
Qed.

Lemma lazy_checkpoint_redo_witness :
  let '(is_lazy, flags', redo', s') :=
    polar_check_lazy_checkpoint true false 0x80 (polar_cal_cur_consistent_lsn demo_env demo_sys0) 0x80 0 demo_sys0 in
  redo' <> InvalidXLogRecPtr /\ redo' = bs_consistent_lsn s' /\
  redo' <= polar_cal_cur_consistent_lsn demo_env demo_sys0 /\ Z.testbit flags' 12 = true.
Proof. exact (lazy_checkpoint_redo demo_env demo_sys0 true false 0x80 0x80 0 demo_sys0_ok). Defined.

(** The setting for the oldest-LSN delay is in megabytes where a full
    page snapshot is decided and in bytes where the background writer
    computes its lag: the writer reports a lag although, with every buffer
    as new as the consistent LSN, no buffer needs a snapshot yet. *)
Theorem sync_lag_ignores_unit (e : env) (s : bufsys) (i apply threshold replay_threshold min_modified : Z)
    (page_is_new enable : bool) :
  apply <> InvalidXLogRecPtr -> 0 <= bs_consistent_lsn s -> bs_clock s < 2 ^ 63 -> 0 <= threshold ->
  threshold < bs_clock s - bs_consistent_lsn s < threshold * ONE_MB ->
  bs_consistent_lsn s <= oldest_lsn (buf s i) ->
  (forall c, copy_buffer (buf s i) = Some c -> bs_consistent_lsn s <= cb_oldest_lsn (cbuf s c)) ->
  0 < buffer_sync_lag apply (bs_clock s) (bs_consistent_lsn s) true threshold /\
  polar_buffer_need_fullpage_snapshot e s i apply page_is_new enable replay_threshold threshold min_modified
    = false.
Proof.
  intros Ha Hc Hm Ht Hlag Ho Hcp. split.
  - unfold buffer_sync_lag, XLogRecPtrIsInvalid, InvalidXLogRecPtr in *.
    destruct (apply =? 0) eqn:E; zbool; [done|].
    rewrite (u64_small (bs_clock s - _)) by (unfold is_u64; lia).
    destruct (_ >? threshold) eqn:E2; zbool; [|lia]. rewrite u64_small; [lia|]. unfold is_u64. lia.
  - unfold polar_buffer_need_fullpage_snapshot. destruct (polar_bg_redo_state_is_parallel e); [done|].
    destruct (_ || negb (forkNum _ =? _)); [done|].
    set (old := match copy_buffer (buf s i) with Some c => _ | None => _ end).
    assert (bs_consistent_lsn s <= old) as Hold.
    { unfold old. destruct (copy_buffer (buf s i)) as [c|]; [|done]. specialize (Hcp c eq_refl). lia. }
    destruct (_ || XLogRecPtrIsInvalid old); [done|].
    destruct (_ >=? _) eqn:E; zbool; [lia|done].
Qed.

Lemma sync_lag_ignores_unit_witness :
  0 < buffer_sync_lag 1 30 0 true 10 /\
  polar_buffer_need_fullpage_snapshot demo_env demo_sys5 1 1 false true 0 10 0 = false.
Proof.
  apply (sync_lag_ignores_unit demo_env demo_sys5 1 1 10 0 0 false true);
    [done|vm_compute; congruence|vm_compute; congruence|lia|vm_compute; split; congruence
    |vm_compute; congruence|vm_compute; congruence].
Defined.
