(* ===== verification/ConsistentChanges.v ===== *)
(** * No change older than the consistent LSN is lost

    [ConsistentLsn] shows that the published LSN bounds the LSNs recorded
    in the buffers and in the copy buffers.  This file ties those to the
    changes themselves.  A page is represented by the start LSNs of the
    records applied to it, in the buffer, in the copy buffer and on
    storage, so "not yet on storage" can be read off the three lists.

    [wstep] is the server under the locking rule of bufmgr.c and of the
    WAL: a page is changed by a process that holds its content lock
    exclusively, after [MarkBufferDirty] (polar_set_buffer_fake_oldest_lsn)
    and by a record inserted after it, or, in recovery, by the replay of a
    record with [polar_redo_set_buffer_oldest_lsn]; [SyncOneBuffer] copies
    or writes a page under the content lock in shared mode.  The steps of
    several processes interleave freely. *)

From S2P Require Import Prelude Dll FlushList CopyBuf ConsistentLsn.

(** The records of the page on storage. *)
Definition stored_records (s : bufsys) (i : Z) : list Z :=
  match bs_disk s !! i with Some (_, pg) => pg | None => [] end.

(** The page of buffer [i] after the record at [r] is applied. *)
Definition apply_record (s : bufsys) (i r lsn : Z) : bufsys :=
  set_buf s i (buf_set_page (buf s i) lsn (page (buf s i) ++ [r])).

(** The tail of [FlushBuffer]. *)
Definition flush_page (e : env) (s : bufsys) (i : Z) : bufsys :=
  let b := buf s i in
  let s1 := smgrwrite (XLogFlush s (page_lsn b)) i (page_lsn b) (page b) in
  polar_reset_buffer_oldest_lsn e (polar_free_copy_buffer s1 i) i.

(** [L] has the content locks held exclusively, each with the insert
    position at which the holder first called [MarkBufferDirty], if it
    did. *)
Abbreviation locks := (gmap Z (option Z)).

Inductive wstep (e : env) : bufsys * locks -> bufsys * locks -> Prop :=
| w_wal s L lsn : bs_clock s <= lsn -> wstep e (s, L) (set_clock_flush s (bs_flush s) lsn, L)
| w_lock s L i : bok s i -> L !! i = None -> wstep e (s, L) (s, <[i := None]> L)
| w_unlock s L i : wstep e (s, L) (s, delete i L)
| w_dirty s L i m s' : bok s i -> L !! i = Some m -> polar_set_buffer_fake_oldest_lsn e s i = Done s' ->
    wstep e (s, L) (s', <[i := Some (default (bs_clock s) m)]> L)
| w_change s L i p r lsn : bok s i -> RecoveryInProgress e = false -> L !! i = Some (Some p) ->
    p <= r -> r < lsn <= bs_clock s -> page_lsn (buf s i) <= lsn ->
    wstep e (s, L) (apply_record s i r lsn, L)
| w_redo s L i m r lsn s' : bok s i -> RecoveryInProgress e = true -> L !! i = Some m ->
    bs_clock s <= r -> r < lsn -> page_lsn (buf s i) <= lsn ->
    polar_redo_set_buffer_oldest_lsn e (set_clock_flush s (bs_flush s) r) i r = Done s' ->
    wstep e (s, L) (apply_record s' i r lsn, L)
| w_copy s L i apply vd : bok s i -> L !! i = None ->
    wstep e (s, L) (polar_buffer_copy_if_needed e s i apply vd, L)
| w_flush_copy s L i apply vd : bok s i -> L !! i = None ->
    wstep e (s, L) (polar_flush_copy_buffer e s i apply vd, L)
| w_flush s L i apply : bok s i -> L !! i = None ->
    (polar_buffer_can_be_flushed e s i apply false).2 = true -> wstep e (s, L) (flush_page e s i, L)
| w_batch s L n m : 0 <= n ->
    wstep e (s, L) (with_flush s (polar_get_batch_flush_buffer n m (bs_flush s)).1, L)
| w_publish s L r x :
    update_consistent_lsn_delta r (polar_cal_cur_consistent_lsn e s) (bs_consistent_lsn s) = Done x ->
    wstep e (s, L) (polar_set_consistent_lsn s x, L).

(** What recovery starts from: the buffers hold what storage holds. *)
Definition clean_start (e : env) (s : bufsys) : Prop :=
  sys_ok e s /\ forall i, bok s i -> copy_buffer (buf s i) = None /\ page (buf s i) = stored_records s i.

(** ** The invariant of one buffer *)

(** Where a change of the page is: on storage; in the copy buffer, whose
    oldest LSN covers it; or only in the page, whose oldest LSN covers it,
    which after a copy needs the first touch to be over (or recovery,
    where the oldest LSN is not moved). *)
Definition covered (e : env) (s : bufsys) (i r : Z) : Prop :=
  r ∈ stored_records s i \/
  (exists c, copy_buffer (buf s i) = Some c /\ r ∈ cb_page (cbuf s c) /\ cb_oldest_lsn (cbuf s c) <= r) \/
  (oldest_lsn (buf s i) <> 0 /\ oldest_lsn (buf s i) <= r /\
   (polar_buffer_first_touch_after_copy (buf s i) = false \/ RecoveryInProgress e = true)).

Record changes_ok (e : env) (s : bufsys) (m : option (option Z)) (i : Z) : Prop := {
  co_stored : forall r, r ∈ stored_records s i -> r ∈ page (buf s i);
  co_copy : forall c r, copy_buffer (buf s i) = Some c ->
    (r ∈ stored_records s i -> r ∈ cb_page (cbuf s c)) /\ (r ∈ cb_page (cbuf s c) -> r ∈ page (buf s i));
  co_covered : forall r, r ∈ page (buf s i) -> covered e s i r;
  co_locked : forall p, m = Some (Some p) -> RecoveryInProgress e = false ->
    0 < oldest_lsn (buf s i) <= p /\ p <= bs_clock s /\ polar_buffer_first_touch_after_copy (buf s i) = false
}.

(** The two states look the same at buffer [j]. *)
Record same_at (s s' : bufsys) (j : Z) : Prop := {
  sa_page : page (buf s' j) = page (buf s j);
  sa_lsn : oldest_lsn (buf s' j) = oldest_lsn (buf s j);
  sa_copy : copy_buffer (buf s' j) = copy_buffer (buf s j);
  sa_flags : polar_flags (buf s' j) = polar_flags (buf s j);
  sa_stored : stored_records s' j = stored_records s j;
  sa_clock : bs_clock s <= bs_clock s';
  sa_cbuf : forall c, copy_buffer (buf s j) = Some c ->
    cb_page (cbuf s' c) = cb_page (cbuf s c) /\ cb_oldest_lsn (cbuf s' c) = cb_oldest_lsn (cbuf s c)
}.

Lemma changes_ok_same e s s' m j : same_at s s' j -> changes_ok e s m j -> changes_ok e s' m j.
Proof.
  intros [E1 E2 E3 E4 E5 E6 E7] [H1 H2 H3 H4].
  assert (polar_buffer_first_touch_after_copy (buf s' j) = polar_buffer_first_touch_after_copy (buf s j)) as Ef
    by (unfold polar_buffer_first_touch_after_copy; by rewrite E3, E4).
  split.
  - intros r. rewrite E1, E5. apply H1.
  - intros c r Hc. rewrite E3 in Hc. destruct (E7 c Hc) as [-> _]. rewrite E1, E5. by apply H2.
  - intros r. rewrite E1. intros Hr. unfold covered. rewrite E2, E3, E5, Ef.
    destruct (H3 r Hr) as [H|[(c & Hc & Hp & Hl)|H]]; [by left| |by right; right].
    right. left. exists c. destruct (E7 c Hc) as [-> ->]. done.
  - intros p Hp He. rewrite E2, Ef. destruct (H4 p Hp He) as (A & B & C). split; [done|]. split; [lia|done].
Qed.

Lemma same_at_refl s j : same_at s s j.
Proof. by split. Qed.

Lemma same_at_trans s1 s2 s3 j : same_at s1 s2 j -> same_at s2 s3 j -> same_at s1 s3 j.
Proof.
  intros [A1 A2 A3 A4 A5 A6 A7] [B1 B2 B3 B4 B5 B6 B7]. split; try congruence; [lia|].
  intros c Hc. destruct (A7 c Hc) as [<- <-]. apply B7. congruence.
Qed.

(** Changing the descriptor of another buffer. *)
Lemma same_at_set_buf s i b j : i <> j -> same_at s (set_buf s i b) j.
Proof.
  intros Hne. assert (buf (set_buf s i b) j = buf s j) as Hb by (by apply get_put_ne).
  split; by rewrite ?Hb.
Qed.

(** Changing links and LSNs of the flush list. *)
Lemma same_at_flush s f clock j :
  same_but_links (buf s j) (GetBufferDescriptor f j) -> lsn_of f j = lsn_of (bs_flush s) j ->
  bs_clock s <= clock -> same_at s (set_clock_flush s f clock) j.
Proof.
  intros (n & p & l & E) Hl Hc.
  assert (buf (set_clock_flush s f clock) j = polar_buffer_set_oldest_lsn (set_links (buf s j) n p) l) as Hb
    by exact E.
  split; rewrite ?Hb; try done. unfold lsn_of in Hl. rewrite E in Hl. exact Hl.
Qed.

(** What the operations on the buffer itself keep. *)
Record same_page (s s' : bufsys) (i : Z) : Prop := {
  sp_page : page (buf s' i) = page (buf s i);
  sp_copy : copy_buffer (buf s' i) = copy_buffer (buf s i);
  sp_disk : bs_disk s' = bs_disk s;
  sp_cbufs : bs_cbufs s' = bs_cbufs s;
  sp_clock : bs_clock s' = bs_clock s;
  sp_plsn : page_lsn (buf s' i) = page_lsn (buf s i);
  sp_bok : forall j, bok s' j <-> bok s j
}.

Lemma touch_flag_set b m :
  Z.land m POLAR_BUF_FIRST_TOUCHED_AFTER_COPY <> 0 ->
  polar_flags b = m -> polar_buffer_first_touch_after_copy b = false.
Proof.
  intros Hm E. unfold polar_buffer_first_touch_after_copy. rewrite E.
  destruct (_ =? 0) eqn:Ez; zbool; [done|]. apply andb_false_r.
Qed.

Lemma lor_touched z : Z.land (Z.lor z POLAR_BUF_FIRST_TOUCHED_AFTER_COPY) POLAR_BUF_FIRST_TOUCHED_AFTER_COPY <> 0.
Proof.
  intros E. assert (Z.testbit (Z.land (Z.lor z POLAR_BUF_FIRST_TOUCHED_AFTER_COPY)
    POLAR_BUF_FIRST_TOUCHED_AFTER_COPY) 1 = false) as H by (rewrite E; apply Z.bits_0).
  rewrite Z.land_spec, Z.lor_spec in H. change (Z.testbit POLAR_BUF_FIRST_TOUCHED_AFTER_COPY 1) with true in H.
  by rewrite orb_true_r in H.
Qed.

(** The flush list has changed LSN and links of buffer [i], and then its
    flags and its modification count are set. *)
Lemma touched_effect s f i m lsn n p l :
  bok s i -> length (fs_bufs f) = length (fs_bufs (bs_flush s)) ->
  (forall j, same_but_links (GetBufferDescriptor (bs_flush s) j) (GetBufferDescriptor f j)) ->
  (forall j, lsn_of f j = if decide (j = i) then lsn else lsn_of (bs_flush s) j) ->
  GetBufferDescriptor f i = polar_buffer_set_oldest_lsn (set_links (buf s i) n p) l ->
  let s' := inc_modified (or_flags (with_flush s f) i m) i in
  (forall j, j <> i -> same_at s s' j) /\ same_page s s' i /\ oldest_lsn (buf s' i) = lsn /\
  polar_flags (buf s' i) = Z.lor (polar_flags (buf s i)) m.
Proof.
  intros Hi Hlen Hsame Hlsn Hg s'.
  assert (bok (with_flush s f) i) as Hi1 by (by apply bok_flush).
  set (s1 := or_flags (with_flush s f) i m) in *.
  assert (buf s1 i = buf_set_mod (buf (with_flush s f) i) (Z.lor (polar_flags (buf (with_flush s f) i)) m)
    (recently_modified_count (buf (with_flush s f) i))) as E1 by (by apply get_put_eq).
  assert (buf s' i = buf_set_mod (buf s1 i) (polar_flags (buf s1 i)) (u16 (recently_modified_count (buf s1 i) + 1)))
    as E2 by (apply get_put_eq; by apply bok_set_buf).
  change (GetBufferDescriptor f i) with (buf (with_flush s f) i) in Hg.
  assert (l = lsn) as ->.
  { specialize (Hlsn i). rewrite decide_True in Hlsn by done. unfold lsn_of in Hlsn.
    change (GetBufferDescriptor f i) with (buf (with_flush s f) i) in Hlsn. by rewrite Hg in Hlsn. }
  split; [|split; [split|split]]; rewrite ?E2, ?E1, ?Hg; try done.
  2:{ intros j. unfold s', s1, inc_modified, or_flags. rewrite !bok_set_buf. by apply bok_flush. }
  intros j Hj. apply (same_at_trans _ (with_flush s f)).
  - replace (with_flush s f) with (set_clock_flush s f (bs_clock s)) by (by destruct s).
    apply same_at_flush; [apply Hsame| |lia]. by rewrite Hlsn, decide_False.
  - apply (same_at_trans _ s1); by apply same_at_set_buf.
Qed.

(** What the flush list does to the descriptors. *)
Definition list_effect (s : bufsys) (f : flush_state) (i lsn : Z) : Prop :=
  length (fs_bufs f) = length (fs_bufs (bs_flush s)) /\
  (forall j, same_but_links (GetBufferDescriptor (bs_flush s) j) (GetBufferDescriptor f j)) /\
  (forall j, lsn_of f j = if decide (j = i) then lsn else lsn_of (bs_flush s) j).

Lemma put_effect s ids free i fake lsn lsn' f :
  sys_inv s ids free -> bok s i -> oldest_lsn (buf s i) = 0 -> bs_clock s <= lsn' ->
  (if XLogRecPtrIsInvalid lsn then fake else lsn) = lsn' ->
  polar_put_buffer_to_flush_list fake (bs_flush s) i lsn = Done f -> list_effect s f i lsn'.
Proof.
  intros [H1 H2 H3 H4 H5] Hi Hz Hclk Hl Hput.
  assert (i ∉ ids) as Hni by (intros Hin; by apply H2 in Hin).
  pose proof (put_wf fake (bs_flush s) ids i lsn H1 Hi Hni) as Hp. cbv zeta in Hp. rewrite Hl in Hp.
  rewrite bool_decide_false in Hp.
  2:{ intros [Hne Hlt]. destruct (last_or_in POLAR_FLUSHNEXT_END_OF_LIST ids) as [[_ ?]|Hin]; [done|].
      specialize (H3 _ Hin). lia. }
  destruct Hp as (f' & He & _ & Hlsn & Hsame & Hlen). rewrite Hput in He. injection He as <-. done.
Qed.

Lemma adjust_effect s ids free i f :
  sys_inv s ids free -> bok s i -> oldest_lsn (buf s i) <> 0 ->
  polar_adjust_position_in_flush_list (bs_clock s) (bs_flush s) i = Done f -> list_effect s f i (bs_clock s).
Proof.
  intros [H1 H2 H3 H4 H5] Hi Hz Hadj. assert (i ∈ ids) as Hin by (by apply H2).
  apply list_elem_of_split in Hin as (l1 & l2 & ->).
  destruct (adjust_wf (bs_clock s) (bs_flush s) i l1 l2 H1) as (f' & He & _ & Hlsn & Hsame & Hlen).
  { intros j Hj. apply H3, Hj. }
  rewrite Hadj in He. injection He as <-. done.
Qed.

Lemma list_effect_touched s f i m lsn :
  bok s i -> list_effect s f i lsn ->
  let s' := inc_modified (or_flags (with_flush s f) i m) i in
  (forall j, j <> i -> same_at s s' j) /\ same_page s s' i /\ oldest_lsn (buf s' i) = lsn /\
  polar_flags (buf s' i) = Z.lor (polar_flags (buf s i)) m.
Proof.
  intros Hi (Hlen & Hsame & Hlsn). destruct (Hsame i) as (n & p & l & Hg).
  exact (touched_effect s f i m lsn n p l Hi Hlen Hsame Hlsn Hg).
Qed.

(** Only the modification count changes. *)
Lemma inc_effect s i :
  bok s i -> let s' := inc_modified s i in
  (forall j, j <> i -> same_at s s' j) /\ same_page s s' i /\ oldest_lsn (buf s' i) = oldest_lsn (buf s i) /\
  polar_flags (buf s' i) = polar_flags (buf s i).
Proof.
  intros Hi s'.
  assert (buf s' i = buf_set_mod (buf s i) (polar_flags (buf s i)) (u16 (recently_modified_count (buf s i) + 1)))
    as E by (by apply get_put_eq).
  split; [|split; [split|split]]; rewrite ?E; try done.
  - intros j Hj. by apply same_at_set_buf.
  - intros j. apply bok_set_buf.
Qed.

(** A copied buffer is in the flush list. *)
Lemma copied_has_lsn s ids free i : sys_inv s ids free -> bok s i -> oldest_lsn (buf s i) = 0 ->
  copy_buffer (buf s i) = None.
Proof.
  intros Hinv Hi Hz. destruct (copy_buffer (buf s i)) as [c|] eqn:Hc; [|done].
  destruct (ci_copy _ _ _ _ _ _ _ (si_copy _ _ _ Hinv) i c Hi Hc) as (_ & _ & _ & Hl & _).
  unfold lsn_of in Hl. change (GetBufferDescriptor (bs_flush s) i) with (buf s i) in Hl. lia.
Qed.

(** Dirtying in normal operation. *)
Lemma set_fake_effect e s i ids free s' :
  polar_flush_list_enabled e = true -> RecoveryInProgress e = false ->
  sys_inv s ids free -> bok s i -> polar_set_buffer_fake_oldest_lsn e s i = Done s' ->
  (forall j, j <> i -> same_at s s' j) /\ same_page s s' i /\
  oldest_lsn (buf s' i) =
    (if (oldest_lsn (buf s i) =? 0) || polar_buffer_first_touch_after_copy (buf s i)
     then bs_clock s else oldest_lsn (buf s i)) /\
  polar_buffer_first_touch_after_copy (buf s' i) = false.
Proof.
  intros He Hr Hinv Hi Hd. unfold polar_set_buffer_fake_oldest_lsn in Hd. rewrite He, Hr in Hd.
  cbn [negb orb andb] in Hd. apply obind_Done in Hd as (s1 & Hd & [= <-]).
  unfold XLogRecPtrIsInvalid at 1, InvalidXLogRecPtr at 1 in Hd.
  destruct (oldest_lsn (buf s i) =? 0) eqn:Ez; zbool; cbn [orb].
  - apply obind_Done in Hd as (f & Hp & [= <-]).
    pose proof (put_effect s ids free i (bs_clock s) InvalidXLogRecPtr (bs_clock s) f Hinv Hi Ez
      (Z.le_refl _) eq_refl Hp) as Heff.
    destruct (list_effect_touched s f i POLAR_BUF_OLDEST_LSN_IS_FAKE _ Hi Heff) as (A & B & C & D).
    split; [done|]. split; [done|]. split; [done|]. unfold polar_buffer_first_touch_after_copy.
    rewrite (sp_copy _ _ _ B), (copied_has_lsn s ids free i Hinv Hi Ez). done.
  - destruct (polar_buffer_first_touch_after_copy (buf s i)) eqn:Et.
    + apply obind_Done in Hd as (f & Hp & [= <-]).
      pose proof (adjust_effect s ids free i f Hinv Hi Ez Hp) as Heff.
      destruct (list_effect_touched s f i POLAR_BUF_FIRST_TOUCHED_AFTER_COPY _ Hi Heff) as (A & B & C & D).
      split; [done|]. split; [done|]. split; [done|].
      apply (touch_flag_set _ _ (lor_touched (polar_flags (buf s i))) D).
    + injection Hd as <-. destruct (inc_effect s i Hi) as (A & B & C & D).
      split; [done|]. split; [done|]. split; [done|]. unfold polar_buffer_first_touch_after_copy in *.
      by rewrite (sp_copy _ _ _ B), D.
Qed.

Lemma set_buf_same s i : set_buf s i (buf s i) = s.
Proof.
  destruct s as [[ctl bufs] cb k cl ck w d]. unfold set_buf, with_flush, put_buf, buf, GetBufferDescriptor. simpl.
  repeat f_equal. unfold aset, aget. case_decide; [|done]. destruct (bufs !! Z.to_nat i) as [b|] eqn:E.
  - by apply list_insert_id.
  - apply list_insert_ge. by apply lookup_ge_None.
Qed.

(** Dirtying in recovery. *)
Lemma redo_set_effect e s i ids free r s' :
  polar_flush_list_enabled e = true -> sys_inv s ids free -> bok s i -> bs_clock s <= r ->
  polar_redo_set_buffer_oldest_lsn e (set_clock_flush s (bs_flush s) r) i r = Done s' ->
  let s0 := set_clock_flush s (bs_flush s) r in
  (forall j, j <> i -> same_at s0 s' j) /\ same_page s0 s' i /\
  oldest_lsn (buf s' i) = (if oldest_lsn (buf s i) =? 0 then r else oldest_lsn (buf s i)).
Proof.
  intros He Hinv Hi Hr Hd s0. unfold polar_redo_set_buffer_oldest_lsn in Hd. rewrite He in Hd.
  cbn [negb] in Hd. destruct (_ || _); [done|]. destruct (XLogRecPtrIsInvalid r) eqn:Er; [done|].
  apply obind_Done in Hd as (s1 & Hd & [= <-]). fold s0 in Hd.
  assert (sys_inv s0 ids free) as Hinv0.
  { destruct Hinv as [H1 H2 H3 H4 H5]. split; try done; [|simpl; lia].
    intros j Hj. specialize (H3 j Hj). change (lsn_of (bs_flush s0) j) with (lsn_of (bs_flush s) j). simpl. lia. }
  assert (bok s0 i) as Hi0 by exact Hi. change (buf s i) with (buf s0 i).
  unfold XLogRecPtrIsInvalid at 1, InvalidXLogRecPtr in Hd.
  destruct (oldest_lsn (buf s0 i) =? 0) eqn:Ez; zbool.
  - apply obind_Done in Hd as (f & Hp & [= <-]).
    assert ((if XLogRecPtrIsInvalid r then bs_clock s0 else r) = r) as Hl by (by rewrite Er).
    pose proof (put_effect s0 ids free i (bs_clock s0) r r f Hinv0 Hi0 Ez (Z.le_refl _) Hl Hp) as Heff.
    destruct (list_effect_touched s0 f i 0 _ Hi0 Heff) as (A & B & C & D).
    replace (or_flags (with_flush s0 f) i 0) with (with_flush s0 f) in *; [done|].
    unfold or_flags. rewrite Z.lor_0_r. set (b := buf (with_flush s0 f) i).
    replace (buf_set_mod b (polar_flags b) (recently_modified_count b)) with b by (by destruct b).
    symmetry. apply set_buf_same.
  - injection Hd as <-. destruct (inc_effect s0 i Hi0) as (A & B & C & D). done.
Qed.

(** ** Copying and writing *)

(** Two buffers do not share a copy buffer. *)
Lemma copies_distinct s ids free i j c c' :
  sys_inv s ids free -> bok s i -> bok s j -> i <> j ->
  copy_buffer (buf s i) = Some c -> copy_buffer (buf s j) = Some c' -> c <> c'.
Proof.
  intros Hinv Hi Hj Hne Hc Hc' <-. pose proof (si_copy _ _ _ Hinv) as Hci.
  destruct (ci_copy _ _ _ _ _ _ _ Hci i c Hi Hc) as (_ & _ & Ho & _).
  destruct (ci_copy _ _ _ _ _ _ _ Hci j c Hj Hc') as (_ & _ & Ho' & _). lia.
Qed.

Lemma cbuf_set_ne s c d x : c <> x -> cbuf (set_cbuf s c d) x = cbuf s x.
Proof. intros Hne. unfold cbuf. simpl. by apply aget_aset_ne. Qed.

Lemma cbuf_set_eq s c d : cok (bs_cbufs s) c -> cbuf (set_cbuf s c d) c = d.
Proof. intros Hc. unfold cbuf. simpl. by apply aget_aset_eq. Qed.

(** Another buffer does not see a change of one copy buffer, of the
    pool's control block and of the owner. *)
Lemma same_at_copies s i b c d k j :
  i <> j -> (forall c', copy_buffer (buf s j) = Some c' -> c <> c') ->
  same_at s (set_cctl (set_cbuf (set_buf s i b) c d) k) j.
Proof.
  intros Hne Hcc. set (s' := set_cctl _ _).
  assert (buf s' j = buf s j) as Hb by (by apply get_put_ne).
  split; rewrite ?Hb; try done. intros c' Hc'.
  assert (cbuf s' c' = cbuf s c') as -> by (unfold cbuf, s'; simpl; apply aget_aset_ne; by apply Hcc). done.
Qed.

Lemma same_at_cctl s k j : same_at s (set_cctl s k) j.
Proof. by split. Qed.

Lemma copy_effect e s i apply vd ids free :
  sys_inv s ids free -> bok s i ->
  let s' := polar_buffer_copy_if_needed e s i apply vd in
  (forall j, bok s' j <-> bok s j) /\ (forall j, bok s j -> j <> i -> same_at s s' j) /\
  (same_at s s' i \/
   exists c, copy_buffer (buf s i) = None /\ copy_buffer (buf s' i) = Some c /\
     page (buf s' i) = page (buf s i) /\ stored_records s' i = stored_records s i /\
     cb_page (cbuf s' c) = page (buf s i) /\ cb_oldest_lsn (cbuf s' c) = oldest_lsn (buf s i)).
Proof.
  intros Hinv Hi s'. unfold s', polar_buffer_copy_if_needed, copy_buffer_alloc.
  assert (forall k j, same_at s (set_cctl s k) j) as Hk by (intros; apply same_at_cctl).
  destruct (negb (start_copy_buffer_io s i vd true)) eqn:Hio; [split; [done|split; [intros; apply Hk|left; apply Hk]]|].
  destruct (negb (polar_buffer_copy_is_satisfied e s i apply false)) eqn:Hsat; [split; [done|split; [intros; apply Hk|left; apply Hk]]|].
  destruct (_ <? 0) eqn:Ef; [split; [done|split; [intros; apply Hk|left; apply Hk]]|]. zbool.
  unfold start_copy_buffer_io in Hio. apply andb_true_iff in Hio as [_ Hn].
  apply bool_decide_eq_true in Hn. pose proof (si_copy _ _ _ Hinv) as Hci.
  set (c := first_free_buffer (bs_cctl s)) in *.
  assert (c ∈ free) as Hc.
  { pose proof (ci_first _ _ _ _ _ _ _ Hci) as Hfst. fold c in Hfst.
    destruct free as [|c0 free']; simpl in Hfst; [rewrite Hfst in Ef; unfold FREENEXT_END_OF_LIST in Ef; lia|].
    rewrite Hfst. set_solver. }
  destruct (ci_free _ _ _ _ _ _ _ Hci c Hc) as [Hcok Hun].
  set (d := mk_cbuf FREENEXT_NOT_IN_LIST (oldest_lsn (buf s i)) (i + 1) POLAR_COPY_BUFFER_USED
    (cb_pass_count (cbuf s c)) (cb_is_flushed (cbuf s c)) (page_lsn (buf s i)) (page (buf s i))).
  set (b := buf_set_copy (buf s i) (Some c) (polar_flags (buf s i))). simpl.
  match goal with |- _ /\ (forall j, _ -> _ -> same_at s ?s2 j) /\ _ =>
    replace s2 with (set_cctl (set_cbuf (set_buf s i b) c d) (bs_cctl s2)) by done; set (k := bs_cctl s2) end.
  set (s2 := set_cctl _ k).
  assert (buf s2 i = b) as Hb by (by apply get_put_eq).
  assert (cbuf s2 c = d) as Hd by (unfold cbuf, s2; simpl; by apply aget_aset_eq).
  split; [intros j; apply bok_set_buf|]. split.
  - intros j Hj Hne. apply same_at_copies; [done|]. intros c' Hc' <-.
    destruct (ci_copy _ _ _ _ _ _ _ Hci j c Hj Hc') as (_ & Hu & _). congruence.
  - right. exists c. rewrite Hb, Hd. done.
Qed.

Lemma free_copy_effect s i ids free :
  sys_inv s ids free -> bok s i ->
  let s' := polar_free_copy_buffer s i in
  (forall j, bok s j -> j <> i -> same_at s s' j) /\
  page (buf s' i) = page (buf s i) /\ oldest_lsn (buf s' i) = oldest_lsn (buf s i) /\
  copy_buffer (buf s' i) = None /\ bs_disk s' = bs_disk s /\ bs_clock s' = bs_clock s.
Proof.
  intros Hinv Hi s'. unfold s', polar_free_copy_buffer.
  destruct (copy_buffer (buf s i)) as [c|] eqn:Hc.
  2:{ split; [intros; apply same_at_refl|done]. }
  set (b := buf_set_copy (buf s i) None _).
  match goal with |- (forall j, _ -> _ -> same_at s ?s2 j) /\ _ => set (s2' := s2) end.
  assert (buf s2' i = b) as Hb by (by apply get_put_eq).
  split; [|rewrite Hb; done]. intros j Hj Hne.
  match goal with s2' := set_cctl (set_cbuf _ _ ?d) ?k |- _ =>
    replace s2' with (set_cctl (set_cbuf (set_buf s i b) c d) k) by done end.
  apply same_at_copies; [done|]. intros c' Hc'. by apply (copies_distinct s ids free i j).
Qed.

Lemma stored_write s i lsn pg j :
  stored_records (smgrwrite s i lsn pg) j = if decide (j = i) then pg else stored_records s j.
Proof.
  unfold stored_records. simpl. destruct (decide (j = i)) as [->|Hne]; [by rewrite lookup_insert_eq|].
  by rewrite lookup_insert_ne.
Qed.

Lemma same_at_write s i lsn pg w j : i <> j -> same_at s (smgrwrite (XLogFlush s w) i lsn pg) j.
Proof. intros Hne. split; try done. rewrite stored_write. by rewrite decide_False. Qed.

(** Counting a pass over a copy buffer, or marking it flushed. *)
Lemma same_at_set_cbuf s c d j :
  cb_page d = cb_page (cbuf s c) -> cb_oldest_lsn d = cb_oldest_lsn (cbuf s c) -> same_at s (set_cbuf s c d) j.
Proof.
  intros E1 E2. split; try done. intros c' _. destruct (decide (c = c')) as [<-|Hne]; [|by rewrite cbuf_set_ne].
  destruct (decide (cok (bs_cbufs s) c)) as [Hc|Hc]; [by rewrite cbuf_set_eq|].
  unfold cbuf, set_cbuf, aset, aget, cok in *. simpl. case_decide; [|done]. by rewrite list_insert_ge by lia.
Qed.

Lemma can_be_flushed_same e s i apply use j : same_at s (polar_buffer_can_be_flushed e s i apply use).1 j.
Proof.
  unfold polar_buffer_can_be_flushed. destruct (_ || _); [apply same_at_refl|].
  destruct use; [|apply same_at_refl]. destruct (copy_buffer (buf s i)) as [c|]; [|apply same_at_refl].
  simpl. destruct (negb _); [by apply same_at_set_cbuf|apply same_at_refl].
Qed.

Lemma can_be_flushed_flush e s i apply use :
  bs_flush (polar_buffer_can_be_flushed e s i apply use).1 = bs_flush s.
Proof.
  unfold polar_buffer_can_be_flushed. destruct (_ || _); [done|]. destruct use; [|done].
  destruct (copy_buffer (buf s i)); [|done]. simpl. by destruct (negb _).
Qed.

(** Writing the copy and freeing it. *)
Lemma flush_copy_effect e s i apply vd ids free :
  sys_inv s ids free -> bok s i ->
  let s' := polar_flush_copy_buffer e s i apply vd in
  (forall j, bok s' j <-> bok s j) /\ (forall j, bok s j -> j <> i -> same_at s s' j) /\
  (same_at s s' i \/
   exists c, copy_buffer (buf s i) = Some c /\ copy_buffer (buf s' i) = None /\
     page (buf s' i) = page (buf s i) /\ oldest_lsn (buf s' i) = oldest_lsn (buf s i) /\
     stored_records s' i = cb_page (cbuf s c)).
Proof.
  intros Hinv Hi s'. unfold s', polar_flush_copy_buffer.
  destruct (negb _); [split; [done|split; [intros|left]; apply same_at_refl]|].
  pose proof (can_be_flushed_same e s i apply true) as Hsame.
  pose proof (can_be_flushed_flush e s i apply true) as Hfl.
  pose proof (can_be_flushed_sound e s i apply true ids free Hinv) as (ids1 & free1 & Hinv1 & _).
  destruct (polar_buffer_can_be_flushed e s i apply true) as [s1 ok]. cbn [fst] in *.
  assert (forall j, bok s1 j <-> bok s j) as Hok by (intros; unfold bok; by rewrite Hfl).
  destruct ok; [|split; [done|split; [intros; apply Hsame|left; apply Hsame]]].
  destruct (copy_buffer (buf s1 i)) as [c|] eqn:Hc; [|split; [done|split; [intros; apply Hsame|left; apply Hsame]]].
  set (w := if permanent (buf s1 i) then Z.max (bs_wal_flushed s1) (cb_page_lsn (cbuf s1 c)) else bs_wal_flushed s1).
  set (s2 := smgrwrite _ _ _ _).
  assert (s2 = mk_sys (bs_flush s1) (bs_cbufs s1) (bs_cctl s1) (bs_consistent_lsn s1) (bs_clock s1) w
     (<[i := (cb_page_lsn (cbuf s1 c), cb_page (cbuf s1 c))]> (bs_disk s1))) as E2.
  { unfold s2, w. by destruct (permanent _). }
  set (s3 := set_cbuf s2 c (cbuf_flushed (cbuf s2 c))).
  assert (sys_inv s2 ids1 free1) as Hinv2 by 
    (rewrite E2; refine (proj1 (inv_ext s1 _ ids1 free1 _ _ _ _ Hinv1)); reflexivity).
  destruct (sound_set_cbuf s2 c (cbuf_flushed (cbuf s2 c)) eq_refl eq_refl eq_refl eq_refl eq_refl ids1 free1 Hinv2)
    as (ids3 & free3 & Hinv3 & _). fold s3 in Hinv3.
  assert (bs_flush s3 = bs_flush s1) as Hf3 by (unfold s3; by rewrite E2).
  assert (forall j, bok s3 j <-> bok s j) as Hok3 by (intros; unfold bok; by rewrite Hf3; apply Hok).
  assert (forall j, buf s3 j = buf s1 j) as Hb3 by (intros; unfold buf; by rewrite Hf3).
  destruct (free_copy_effect s3 i ids3 free3 Hinv3 ltac:(by apply Hok3)) as (A & B & C & D & F & G).
  assert (forall j, stored_records s3 j = if decide (j = i) then cb_page (cbuf s1 c) else stored_records s1 j) as Hst.
  { intros j. unfold stored_records, s3. rewrite E2. simpl. destruct (decide (j = i)) as [->|]; 
      [by rewrite lookup_insert_eq|by rewrite lookup_insert_ne]. }
  destruct (sa_cbuf _ _ _ (Hsame i) c) as [Hp _]; [by rewrite <- (sa_copy _ _ _ (Hsame i))|].
  destruct (free_copy_none s3 i ltac:(by apply Hok3)) as (_ & Hokf & _).
  split; [intros j; rewrite Hokf; apply Hok3|]. split.
  - intros j Hj Hne. apply (same_at_trans _ s1); [apply Hsame|].
    apply (same_at_trans _ s3); [|apply A; [by apply Hok3|done]].
    apply (same_at_trans _ s2); [|by apply same_at_set_cbuf].
    rewrite E2. split; try done. unfold stored_records. simpl. by rewrite lookup_insert_ne.
  - right. exists c. rewrite B, C, D, Hb3. rewrite (sa_page _ _ _ (Hsame i)), (sa_lsn _ _ _ (Hsame i)).
    rewrite <- (sa_copy _ _ _ (Hsame i)). split; [done|]. split; [done|]. split; [done|]. split; [done|].
    unfold stored_records. rewrite F. fold (stored_records s3 i). by rewrite Hst, decide_True.
Qed.

Lemma reset_effect e s i ids free :
  polar_flush_list_enabled e = true -> sys_inv s ids free -> bok s i -> copy_buffer (buf s i) = None ->
  let s' := polar_reset_buffer_oldest_lsn e s i in
  (forall j, bok s' j <-> bok s j) /\ (forall j, j <> i -> same_at s s' j) /\ page (buf s' i) = page (buf s i) /\
  copy_buffer (buf s' i) = None /\ bs_disk s' = bs_disk s.
Proof.
  intros He Hinv Hi Hn s'. unfold s', polar_reset_buffer_oldest_lsn.
  unfold XLogRecPtrIsInvalid, InvalidXLogRecPtr.
  destruct (oldest_lsn (buf s i) =? 0) eqn:Ez; zbool; [split; [done|split; [intros; apply same_at_refl|done]]|].
  set (s1 := set_buf s i (buf_set_mod (buf s i) 0 0)). rewrite He.
  assert (buf s1 i = buf_set_mod (buf s i) 0 0) as Hb1 by (by apply get_put_eq).
  destruct (sound_set_buf s i (buf_set_mod (buf s i) 0 0) Hi eq_refl eq_refl eq_refl eq_refl (Z.le_refl _) ids free Hinv)
    as (ids1 & free1 & Hinv1 & _). fold s1 in Hinv1.
  assert (i ∈ ids1) as Hin.
  { apply (si_valid _ _ _ Hinv1); [by apply bok_set_buf|]. unfold lsn_of.
    change (GetBufferDescriptor (bs_flush s1) i) with (buf s1 i). by rewrite Hb1. }
  apply list_elem_of_split in Hin as (l1 & l2 & ->).
  destruct (remove_wf (bs_flush s1) i l1 l2 (si_flush _ _ _ Hinv1)) as (_ & Hlsn & Hsame & Hlen).
  set (f := polar_remove_buffer_from_flush_list true (bs_flush s1) i) in *.
  replace (with_flush s1 f) with (set_clock_flush s1 f (bs_clock s1)) by done.
  split; [intros j; rewrite <- (bok_set_buf s i (buf_set_mod (buf s i) 0 0) j); by apply bok_flush|]. split.
  - intros j Hj. apply (same_at_trans _ s1); [by apply same_at_set_buf|].
    apply same_at_flush; [apply Hsame| |lia]. by rewrite Hlsn, decide_False.
  - destruct (Hsame i) as (n & p & l & E).
    assert (buf (set_clock_flush s1 f (bs_clock s1)) i = polar_buffer_set_oldest_lsn (set_links (buf s1 i) n p) l)
      as -> by exact E. rewrite Hb1. done.
Qed.

(** Writing the page itself. *)
Lemma flush_effect e s i ids free :
  polar_flush_list_enabled e = true -> sys_inv s ids free -> bok s i ->
  let s' := flush_page e s i in
  (forall j, bok s' j <-> bok s j) /\ (forall j, bok s j -> j <> i -> same_at s s' j) /\
  copy_buffer (buf s' i) = None /\ page (buf s' i) = page (buf s i) /\ stored_records s' i = page (buf s i).
Proof.
  intros He Hinv Hi s'. unfold s', flush_page. set (s1 := smgrwrite _ _ _ _).
  assert (sys_inv s1 ids free) as Hinv1 by (exact (proj1 (inv_ext s s1 ids free eq_refl eq_refl eq_refl eq_refl Hinv))).
  destruct (free_copy_effect s1 i ids free Hinv1 Hi) as (A & B & C & D & F & G).
  destruct (free_copy_buffer_sound s1 i Hi ids free Hinv1) as (ids2 & free2 & Hinv2 & _).
  destruct (free_copy_none s1 i Hi) as (_ & Hok & _).
  destruct (reset_effect e _ i ids2 free2 He Hinv2 ltac:(by apply Hok) D) as (O' & A' & B' & C' & D').
  split; [intros j; rewrite O'; apply Hok|]. split; [|split; [done|split]].
  - intros j Hj Hne. apply (same_at_trans _ s1); [by apply same_at_write|].
    apply (same_at_trans _ (polar_free_copy_buffer s1 i)); [by apply A|by apply A'].
  - by rewrite B', B.
  - unfold stored_records. rewrite D', F. fold (stored_records s1 i). unfold s1. by rewrite stored_write, decide_True.
Qed.

(** ** Every step keeps the changes covered *)

Lemma apply_record_at s1 i r lsn : bok s1 i ->
  (forall j, j <> i -> same_at s1 (apply_record s1 i r lsn) j) /\
  buf (apply_record s1 i r lsn) i = buf_set_page (buf s1 i) lsn (page (buf s1 i) ++ [r]) /\
  forall j, bok (apply_record s1 i r lsn) j <-> bok s1 j.
Proof.
  intros Hi. split; [intros j Hj; by apply same_at_set_buf|]. split; [by apply get_put_eq|].
  intros j. apply bok_set_buf.
Qed.

(** A further record that the oldest LSN covers. *)
Lemma apply_record_ok e s1 m i r lsn :
  bok s1 i -> changes_ok e s1 m i -> oldest_lsn (buf s1 i) <> 0 -> oldest_lsn (buf s1 i) <= r ->
  (polar_buffer_first_touch_after_copy (buf s1 i) = false \/ RecoveryInProgress e = true) ->
  changes_ok e (apply_record s1 i r lsn) m i.
Proof.
  intros Hi [H1 H2 H3 H4] Hz Hle Ht. destruct (apply_record_at s1 i r lsn Hi) as (_ & Hb & _).
  assert (forall c, cbuf (apply_record s1 i r lsn) c = cbuf s1 c) as Ec by done.
  assert (stored_records (apply_record s1 i r lsn) i = stored_records s1 i) as Es by done.
  split; rewrite ?Hb, ?Es; cbn [page copy_buffer buf_set_page oldest_lsn].
  - intros x Hx. apply elem_of_app. left. by apply H1.
  - intros c x Hc. rewrite Ec. destruct (H2 c x Hc) as [A B]. split; [done|]. intros Hx.
    apply elem_of_app. left. by apply B.
  - intros x Hx. unfold covered. rewrite Es, Hb. apply elem_of_app in Hx as [Hx|Hx]; [exact (H3 x Hx)|].
    assert (x = r) as -> by set_solver. right. right. done.
  - exact H4.
Qed.

Section changes.
Context (e : env) (He1 : polar_flush_list_enabled e = true) (He2 : polar_copy_buffer_enabled e = true).
Context (Hpar : polar_bg_redo_state_is_parallel e = false).
Context (s : bufsys) (ids free : list Z) (Hinv : sys_inv s ids free).

Lemma oldest_range i : bok s i -> 0 <= oldest_lsn (buf s i) <= bs_clock s.
Proof.
  intros Hi. destruct (decide (oldest_lsn (buf s i) = 0)) as [->|Hz].
  - pose proof (si_clock _ _ _ Hinv). lia.
  - assert (i ∈ ids) as Hin by (by apply (si_valid _ _ _ Hinv)). pose proof (si_lsn _ _ _ Hinv i Hin) as H.
    unfold lsn_of in H. unfold buf. lia.
Qed.

Lemma stored_disk s' i : bs_disk s' = bs_disk s -> stored_records s' i = stored_records s i.
Proof. intros E. unfold stored_records. by rewrite E. Qed.

Lemma dirty_keeps_covered i m s' :
  RecoveryInProgress e = false -> bok s i -> polar_set_buffer_fake_oldest_lsn e s i = Done s' ->
  changes_ok e s (Some m) i -> changes_ok e s' (Some (Some (default (bs_clock s) m))) i.
Proof.
  intros Hr Hi Hd [H1 H2 H3 H4].
  destruct (set_fake_effect e s i ids free s' He1 Hr Hinv Hi Hd) as (_ & [E1 E2 E3 E4 E5 _ _] & El & Et).
  pose proof (oldest_range i Hi) as Hrange. pose proof (stored_disk s' i E3) as Es.
  assert (forall c, cbuf s' c = cbuf s c) as Ec by (intros; unfold cbuf; by rewrite E4).
  split; rewrite ?Es, ?E1, ?E2.
  - done.
  - intros c r Hc. rewrite Ec. by apply H2.
  - intros r Hr'. unfold covered. rewrite Es, E2. destruct (H3 r Hr') as [H|[(c & Hc & Hp & Hl)|(Hz & Hle & Ht)]].
    + by left.
    + right. left. exists c. by rewrite Ec.
    + right. right. destruct Ht as [Ht|Ht]; [|congruence]. rewrite El, Ht.
      destruct (oldest_lsn (buf s i) =? 0) eqn:Ez; zbool; [done|]. cbn [orb]. auto.
  - intros p [= <-] _. rewrite El, E5, Et. pose proof (si_clock _ _ _ Hinv).
    destruct m as [p|]; simpl; [destruct (H4 p eq_refl Hr) as (A & B & C); rewrite C|];
      (destruct (oldest_lsn (buf s i) =? 0) eqn:Ez; zbool); cbn [orb];
      try (destruct (polar_buffer_first_touch_after_copy (buf s i))); split_and!; done || lia.
Qed.

Lemma redo_keeps_covered i m r lsn s' :
  RecoveryInProgress e = true -> bok s i -> bs_clock s <= r ->
  polar_redo_set_buffer_oldest_lsn e (set_clock_flush s (bs_flush s) r) i r = Done s' ->
  changes_ok e s m i -> changes_ok e (apply_record s' i r lsn) m i.
Proof.
  intros Hr Hi Hc Hd [H1 H2 H3 H4].
  destruct (redo_set_effect e s i ids free r s' He1 Hinv Hi Hc Hd) as (_ & [E1 E2 E3 E4 E5 _ Eb] & El).
  pose proof (oldest_range i Hi) as Hrange. pose proof (stored_disk s' i E3) as Es.
  pose proof (si_clock _ _ _ Hinv) as Hpos.
  assert (forall c, cbuf s' c = cbuf s c) as Ec by (intros; unfold cbuf; by rewrite E4).
  change (buf (set_clock_flush s (bs_flush s) r) i) with (buf s i) in *.
  assert (oldest_lsn (buf s' i) <> 0 /\ oldest_lsn (buf s' i) <= r /\
    (oldest_lsn (buf s i) <> 0 -> oldest_lsn (buf s' i) = oldest_lsn (buf s i))) as (Hz & Hle & Heq).
  { rewrite El. destruct (oldest_lsn (buf s i) =? 0) eqn:Ez; zbool; split_and!; done || lia. }
  apply (apply_record_ok e); [by apply Eb| |done|done|by right].
  split; rewrite ?Es, ?E1, ?E2.
  - done.
  - intros c x Hcp. rewrite Ec. by apply H2.
  - intros x Hx. unfold covered. rewrite Es, E2. destruct (H3 x Hx) as [H|[(c & Hcp & Hp & Hl)|(Hnz & Hlx & _)]].
    + by left.
    + right. left. exists c. by rewrite Ec.
    + right. right. rewrite (Heq Hnz). auto.
  - intros p _ Hf. congruence.
Qed.

Lemma copy_keeps_covered i apply vd :
  bok s i -> changes_ok e s None i -> changes_ok e (polar_buffer_copy_if_needed e s i apply vd) None i.
Proof.
  intros Hi Hok. destruct (copy_effect e s i apply vd ids free Hinv Hi) as (_ & _ & [Hs|(c & Hn & Hc & E1 & E2 & E3 & E4)]).
  { by apply (changes_ok_same e s). }
  destruct Hok as [H1 H2 H3 H4]. split; rewrite ?E1, ?E2; try done.
  - intros c' r Hc'. rewrite Hc in Hc'. injection Hc' as <-. rewrite E3. auto.
  - intros r Hr. unfold covered. rewrite E2, Hc. destruct (H3 r Hr) as [H|[(c' & Hc' & _)|(Hz & Hle & _)]].
    + by left.
    + congruence.
    + right. left. exists c. rewrite E3, E4. done.
Qed.

Lemma flush_copy_keeps_covered i apply vd :
  bok s i -> changes_ok e s None i -> changes_ok e (polar_flush_copy_buffer e s i apply vd) None i.
Proof.
  intros Hi Hok.
  destruct (flush_copy_effect e s i apply vd ids free Hinv Hi) as (_ & _ & [Hs|(c & Hc & Hn & E1 & E2 & E3)]).
  { by apply (changes_ok_same e s). }
  destruct Hok as [H1 H2 H3 H4]. split; rewrite ?E1, ?E3; try done.
  - intros r Hr. by apply (H2 c r Hc).
  - intros c' r Hc'. congruence.
  - intros r Hr. unfold covered. rewrite E2, E3. destruct (H3 r Hr) as [H|[(c' & Hc' & Hp & _)|(Hz & Hle & _)]].
    + left. by apply (H2 c r Hc).
    + left. congruence.
    + right. right. split; [done|]. split; [done|]. left. unfold polar_buffer_first_touch_after_copy.
      by rewrite Hn.
Qed.

Lemma flush_keeps_covered i : bok s i -> changes_ok e (flush_page e s i) None i.
Proof.
  intros Hi. destruct (flush_effect e s i ids free He1 Hinv Hi) as (_ & _ & Hn & E1 & E2).
  split; rewrite ?E1, ?E2; try done.
  - intros c r Hc. congruence.
  - intros r Hr. left. by rewrite E2.
Qed.
End changes.

Section steps.
Context (e : env) (He1 : polar_flush_list_enabled e = true) (He2 : polar_copy_buffer_enabled e = true).
Context (Hpar : polar_bg_redo_state_is_parallel e = false).

(** The steps are steps of the buffers. *)
Lemma wstep_ssteps x y : (exists ids free, sys_inv x.1 ids free) -> wstep e x y -> rtc (sstep e) x.1 y.1.
Proof.
  intros (ids & free & Hinv).
  destruct 1 as [s L lsn Hl|s L i Hi HL|s L i|s L i m s' Hi HL Hd|s L i p r lsn Hi Hr HL Hp Hlsn Hpl
    |s L i m r lsn s' Hi Hr HL Hc Hlsn Hpl Hd|s L i apply vd Hi HL|s L i apply vd Hi HL|s L i apply Hi HL Hf
    |s L n m Hn|s L r x Hu]; cbn [fst] in *; try (by apply rtc_refl).
  - by apply rtc_once, s_wal.
  - by apply rtc_once, (s_dirty _ _ i).
  - by apply rtc_once, s_modify.
  - destruct (redo_set_effect e s i ids free r s' He1 Hinv Hi Hc Hd) as (_ & [_ _ _ _ _ Epl Eb] & _).
    apply (rtc_l _ _ s'); [by apply (s_redo _ _ i r)|]. apply rtc_once, s_modify; [by apply Eb|].
    rewrite Epl. exact Hpl.
  - by apply rtc_once, s_copy.
  - by apply rtc_once, s_flush_copy.
  - by apply rtc_once, (s_flush e s i apply).
  - by apply rtc_once, s_batch.
  - by apply rtc_once, (s_publish e s r).
Qed.

Definition changes_inv (x : bufsys * locks) : Prop :=
  sys_ok e x.1 /\ forall j, bok x.1 j -> changes_ok e x.1 (x.2 !! j) j.

(** A step that only touches buffer [i]. *)
Lemma changes_inv_at s s' (L : locks) i m :
  (forall j, bok s j -> changes_ok e s (L !! j) j) -> (forall j, bok s' j <-> bok s j) ->
  (forall j, bok s j -> j <> i -> same_at s s' j) -> changes_ok e s' m i ->
  forall j, bok s' j -> changes_ok e s' (if decide (j = i) then m else L !! j) j.
Proof.
  intros Hall Hok Hs Hi j Hj. apply Hok in Hj. destruct (decide (j = i)) as [->|Hne]; [done|].
  apply (changes_ok_same e s); [by apply Hs|by apply Hall].
Qed.

Lemma lookup_at (L : locks) i j : (if decide (j = i) then L !! i else L !! j) = L !! j.
Proof. by destruct (decide (j = i)) as [->|]. Qed.

Lemma insert_at (L : locks) i m j : (if decide (j = i) then Some m else L !! j) = <[i := m]> L !! j.
Proof. destruct (decide (j = i)) as [->|]; [by rewrite lookup_insert_eq|by rewrite lookup_insert_ne]. Qed.

(** Taking and releasing a lock forgets the mark. *)
Lemma changes_ok_unmark s m i : changes_ok e s m i -> forall m', (forall p, m' <> Some (Some p)) -> changes_ok e s m' i.
Proof. intros [H1 H2 H3 H4] m' Hm. split; try done. intros p Hp. by apply Hm in Hp. Qed.

Lemma batch_same s n m j : same_at s (with_flush s (polar_get_batch_flush_buffer n m (bs_flush s)).1) j /\
  (bok (with_flush s (polar_get_batch_flush_buffer n m (bs_flush s)).1) j <-> bok s j).
Proof.
  assert (fs_bufs (polar_get_batch_flush_buffer n m (bs_flush s)).1 = fs_bufs (bs_flush s)) as Hb.
  { unfold polar_get_batch_flush_buffer. destruct (polar_flush_list_is_empty _); [done|].
    destruct (batch_loop _ _ _). cbn [fst put_ctl fs_bufs]. by destruct (current_pos_is_unavailable _). }
  assert (buf (with_flush s (polar_get_batch_flush_buffer n m (bs_flush s)).1) j = buf s j) as E
    by (unfold buf, GetBufferDescriptor; simpl; by rewrite Hb).
  split; [split; by rewrite ?E|]. apply bok_flush. by rewrite Hb.
Qed.

Lemma changes_inv_step x y : wstep e x y -> changes_inv x -> changes_inv y.
Proof.
  intros Hs [Hok Hall]. pose proof Hok as [(ids & free & Hinv) _]. split.
  { apply (sys_ok_steps e He1 He2 x.1); [|done]. apply wstep_ssteps; [eauto|done]. }
  destruct Hs as [s L lsn Hl|s L i Hi HL|s L i|s L i m s' Hi HL Hd|s L i p r lsn Hi Hr HL Hp Hlsn Hpl
    |s L i m r lsn s' Hi Hr HL Hc Hlsn Hpl Hd|s L i apply vd Hi HL|s L i apply vd Hi HL|s L i apply Hi HL Hf
    |s L n m Hn|s L r x Hu]; cbn [fst snd] in *.
  - intros j Hj. apply (changes_ok_same e s); [by split|by apply Hall].
  - intros j Hj. rewrite <- insert_at. destruct (decide (j = i)) as [->|]; [|by apply Hall].
    apply (changes_ok_unmark _ _ _ (Hall i Hj)). done.
  - intros j Hj. destruct (decide (j = i)) as [->|]; [|rewrite lookup_delete_ne by done; by apply Hall].
    rewrite lookup_delete_eq. apply (changes_ok_unmark _ _ _ (Hall i Hj)). done.
  - pose proof (Hall i Hi) as Hm. rewrite HL in Hm. intros j. rewrite <- insert_at. revert j.
    destruct (RecoveryInProgress e) eqn:Hr.
    + unfold polar_set_buffer_fake_oldest_lsn in Hd. rewrite He1, Hr, Hpar in Hd. injection Hd as <-.
      apply (changes_inv_at s s L i); try done.
      destruct Hm as [H1 H2 H3 H4]. split; try done. intros p _ Hf. congruence.
    + destruct (set_fake_effect e s i ids free s' He1 Hr Hinv Hi Hd) as (Hs & [_ _ _ _ _ _ Eb] & _).
      apply (changes_inv_at s s' L i); [done|done|auto|]. by apply (dirty_keeps_covered e He1 s ids free Hinv).
  - pose proof (Hall i Hi) as Hm. destruct (apply_record_at s i r lsn Hi) as (Hs & _ & Eb).
    intros j. rewrite <- (lookup_at L i). apply (changes_inv_at s); [done|done|auto|].
    rewrite HL in *. destruct (co_locked _ _ _ _ Hm p eq_refl Hr) as (A & B & C).
    apply (apply_record_ok e); [done|done|lia|lia|by left].
  - destruct (redo_set_effect e s i ids free r s' He1 Hinv Hi Hc Hd) as (Hs & [_ _ _ _ _ _ Eb] & _).
    destruct (apply_record_at s' i r lsn ltac:(by apply Eb)) as (Hs2 & _ & Eb2).
    intros j. rewrite <- (lookup_at L i). apply (changes_inv_at s); [done| | |].
    + intros k. rewrite Eb2. apply Eb.
    + intros k Hk Hne. apply (same_at_trans _ (set_clock_flush s (bs_flush s) r)); [by split|].
      apply (same_at_trans _ s'); auto.
    + apply (redo_keeps_covered e He1 s ids free Hinv); try done. by apply Hall.
  - destruct (copy_effect e s i apply vd ids free Hinv Hi) as (Eb & Hs & _).
    intros j. rewrite <- (lookup_at L i). apply (changes_inv_at s); [done|done|done|].
    rewrite HL. apply (copy_keeps_covered e s ids free Hinv); [done|]. rewrite <- HL. by apply Hall.
  - destruct (flush_copy_effect e s i apply vd ids free Hinv Hi) as (Eb & Hs & _).
    intros j. rewrite <- (lookup_at L i). apply (changes_inv_at s); [done|done|done|].
    rewrite HL. apply (flush_copy_keeps_covered e s ids free Hinv); [done|]. rewrite <- HL. by apply Hall.
  - destruct (flush_effect e s i ids free He1 Hinv Hi) as (Eb & Hs & _).
    intros j. rewrite <- (lookup_at L i). apply (changes_inv_at s); [done|done|done|].
    rewrite HL. by apply (flush_keeps_covered e He1 s ids free Hinv).
  - intros j Hj. destruct (batch_same s n m j) as [Hs Eb]. apply (changes_ok_same e s); [done|].
    apply Hall. by apply Eb.
  - intros j Hj. apply (changes_ok_same e s); [by split|by apply Hall].
Qed.

Lemma changes_inv_steps x y : rtc (wstep e) x y -> changes_inv x -> changes_inv y.
Proof. induction 1; [done|]. intros. by apply IHrtc, (changes_inv_step x). Qed.

Lemma clean_start_inv s : clean_start e s -> changes_inv (s, ∅).
Proof.
  intros [Hok Hc]. split; [done|]. intros j Hj. destruct (Hc j Hj) as [Hn Hp]. split; cbn [fst snd].
  - intros r. by rewrite Hp.
  - intros c r Hx. congruence.
  - intros r. rewrite Hp. by left.
  - intros p Hx. by rewrite lookup_empty in Hx.
Qed.

(** What is covered and is not on storage is not older than the
    calculated LSN. *)
Lemma covered_bound s ids free i r :
  sys_inv s ids free -> bok s i -> covered e s i r -> r ∈ stored_records s i \/ polar_cal_cur_consistent_lsn e s <= r.
Proof.
  intros Hinv Hi Hcov. destruct (cal_bounds e He2 s ids free Hinv) as (_ & B2 & B3).
  destruct Hcov as [H|[(c & Hc & _ & Hl)|(Hz & Hle & _)]]; [by left| |]; right.
  - destruct (ci_copy _ _ _ _ _ _ _ (si_copy _ _ _ Hinv) i c Hi Hc) as (_ & _ & _ & Hp & _).
    unfold cbuf in *. specialize (B3 c). unfold cbuf in B3. specialize (B3 ltac:(lia)). lia.
  - assert (i ∈ ids) as Hin by (by apply (si_valid _ _ _ Hinv)). specialize (B2 i Hin).
    unfold lsn_of in B2. unfold buf in *. lia.
Qed.
End steps.

(** ** Properties *)

(** The run of the witness: buffer 0 is changed by the record at 10 and
    copied, as the replicas are at 5; it is changed again by the record at
    30; the copy is written when the replicas have reached 16, and the
    consistent LSN is published. *)
Definition chg0 : bufsys := wal (dirty demo_sys0 0) 15.
Definition chg1 : bufsys := apply_record chg0 0 10 15.
Definition chg2 : bufsys := wal (polar_buffer_copy_if_needed demo_env chg1 0 5 true) 30.
Definition chg3 : bufsys := wal (dirty chg2 0) 40.
Definition chg4 : bufsys := apply_record chg3 0 30 40.
Definition chg5 : bufsys := polar_flush_copy_buffer demo_env chg4 0 16 true.
Definition chg6 : bufsys := polar_set_consistent_lsn chg5 30.

Lemma demo_clean_start : clean_start demo_env demo_sys0.
Proof.
  split; [exact demo_sys0_ok|]. intros i Hi. unfold bok, buf_id_ok in Hi. simpl in Hi.
  assert (i = 0 \/ i = 1) as [-> | ->] by lia; by vm_compute.
Qed.

(** One process locks buffer 0, dirties it, inserts the record that ends
    at [lsn], changes the page and unlocks. *)
Lemma demo_change e s s' r lsn :
  bok s 0 -> RecoveryInProgress e = false -> polar_set_buffer_fake_oldest_lsn e s 0 = Done s' ->
  bok s' 0 -> bs_clock s <= r -> r < lsn -> bs_clock s' <= lsn -> page_lsn (buf s' 0) <= lsn ->
  rtc (wstep e) (s, ∅) (apply_record (wal s' lsn) 0 r lsn, ∅).
Proof.
  intros Hi Hr Hd Hi' Hc Hl Hc' Hp.
  apply (rtc_l _ _ (s, <[0 := None]> ∅)); [by apply w_lock|].
  apply (rtc_l _ _ (s', <[0 := Some (bs_clock s)]> (<[0 := None]> ∅))); [by apply (w_dirty e s _ 0 None s')|].
  apply (rtc_l _ _ (wal s' lsn, <[0 := Some (bs_clock s)]> (<[0 := None]> ∅))); [by apply w_wal|].
  apply (rtc_l _ _ (apply_record (wal s' lsn) 0 r lsn, <[0 := Some (bs_clock s)]> (<[0 := None]> ∅))).
  { apply (w_change e (wal s' lsn) _ 0 (bs_clock s)); simpl; done || lia. }
  apply rtc_once. replace ∅ with (delete 0 (<[0 := Some (bs_clock s)]> (<[0 := None]> ∅)) : locks); [|done].
  apply w_unlock.
Qed.

Lemma demo_bok0 s : length (fs_bufs (bs_flush s)) = 2%nat -> bok s 0.
Proof. apply demo_bok. lia. Qed.

Lemma demo_changes_run : rtc (wstep demo_env) (demo_sys0, ∅) (chg6, ∅).
Proof.
  transitivity (chg1, ∅ : locks).
  { apply demo_change; try (apply demo_bok0); vm_compute; congruence. }
  apply (rtc_l _ _ (polar_buffer_copy_if_needed demo_env chg1 0 5 true, ∅)).
  { apply w_copy; [apply demo_bok0|]; vm_compute; congruence. }
  apply (rtc_l _ _ (chg2, ∅)); [apply w_wal; vm_compute; congruence|].
  transitivity (chg4, ∅ : locks).
  { apply demo_change; try (apply demo_bok0); vm_compute; congruence. }
  apply (rtc_l _ _ (chg5, ∅)).
  { apply w_flush_copy; [apply demo_bok0|]; vm_compute; congruence. }
  apply rtc_once. apply (w_publish demo_env chg5 ∅ None). vm_compute. reflexivity.
Qed.

(** C10: the published consistent LSN is safe: with pages represented by the
    records applied to them, in every state reached from a start in which
    the buffers hold what storage holds, by any interleaving of locking,
    dirtying, changing, replaying, copying and writing pages and publishing
    the LSN, each record of a page that starts before the consistent LSN is
    in the page on storage, so recovery from there misses no change.  The
    server is in normal operation or in recovery throughout, and is not
    replaying in parallel after an online promotion. *)
Theorem consistent_lsn_safe (e : env) (s0 s : bufsys) (L : locks) (i r : Z) :
  polar_flush_list_enabled e = true -> polar_copy_buffer_enabled e = true ->
  polar_bg_redo_state_is_parallel e = false ->
  clean_start e s0 -> rtc (wstep e) (s0, ∅) (s, L) ->
  bok s i -> r ∈ page (buf s i) -> r < bs_consistent_lsn s -> r ∈ stored_records s i.
Proof.
  intros He1 He2 Hp H0 Hs Hi Hr Hlt.
  destruct (changes_inv_steps e He1 He2 Hp _ _ Hs (clean_start_inv e s0 H0)) as [[(ids & free & Hinv) Hle] Hall].
  cbn [fst snd] in *. specialize (Hall i Hi).
  destruct (covered_bound e He2 s ids free i r Hinv Hi (co_covered _ _ _ _ Hall r Hr)); [done|lia].
Qed.

Lemma consistent_lsn_safe_witness :
  page (buf chg6 0) = [10; 30] /\ bs_consistent_lsn chg6 = 30 /\ 10 ∈ stored_records chg6 0.
Proof.
  split; [vm_compute; reflexivity|]. split; [reflexivity|].
  apply (consistent_lsn_safe demo_env demo_sys0 chg6 ∅ 0 10 eq_refl eq_refl eq_refl demo_clean_start
    demo_changes_run).
  - apply demo_bok0. vm_compute. reflexivity.
  - replace (page (buf chg6 0)) with [10; 30] by (vm_compute; reflexivity). set_solver.
  - vm_compute. reflexivity.
Defined.

(** The same server in recovery. *)
Definition in_recovery (e : env) : env :=
  mk_env (polar_enable_shared_storage_mode e) (polar_enable_flushlist e) (polar_enable_copy_buffer e)
    (polar_in_replica_mode e) true (polar_bg_redo_state_is_parallel e) (polar_enable_control_vm_flush e)
    (polar_buffer_copy_min_modified_count e) (polar_buffer_copy_lsn_lag_with_cons_lsn e).

Definition redo (s : bufsys) (i r lsn : Z) : bufsys :=
  match polar_redo_set_buffer_oldest_lsn (in_recovery demo_env) (set_clock_flush s (bs_flush s) r) i r with
  | Done s' => apply_record s' i r lsn
  | _ => s
  end.

(** Buffer 0 is replayed up to the record at 10 and copied; the record at
    20 is replayed; recovery ends; the record at 30 changes the page; the
    copy is written and the consistent LSN is published. *)
Definition pro1 : bufsys := redo demo_sys0 0 10 15.
Definition pro2 : bufsys := polar_buffer_copy_if_needed (in_recovery demo_env) pro1 0 5 true.
Definition pro3 : bufsys := redo pro2 0 20 25.
Definition pro4 : bufsys := wal pro3 30.
Definition pro5 : bufsys := wal (dirty pro4 0) 40.
Definition pro6 : bufsys := apply_record pro5 0 30 40.
Definition pro7 : bufsys := polar_flush_copy_buffer demo_env pro6 0 16 true.
Definition pro8 : bufsys := polar_set_consistent_lsn pro7 30.

Lemma demo_redo e s s' r lsn :
  bok s 0 -> RecoveryInProgress e = true -> bs_clock s <= r -> r < lsn -> page_lsn (buf s 0) <= lsn ->
  polar_redo_set_buffer_oldest_lsn e (set_clock_flush s (bs_flush s) r) 0 r = Done s' ->
  rtc (wstep e) (s, ∅) (apply_record s' 0 r lsn, ∅).
Proof.
  intros Hi Hr Hc Hl Hp Hd.
  apply (rtc_l _ _ (s, <[0 := None]> ∅)); [by apply w_lock|].
  apply (rtc_l _ _ (apply_record s' 0 r lsn, <[0 := None]> ∅)); [by apply (w_redo e s _ 0 None)|].
  apply rtc_once. replace ∅ with (delete 0 (<[0 := None]> ∅) : locks); [|done]. apply w_unlock.
Qed.

(** C25: a copy that outlives recovery loses a change: redo does not treat
    a page that has a copy specially, so when the page is copied during
    recovery, changed by the replay of a later record, and dirtied after
    recovery, that first touch after the copy moves the buffer's oldest LSN
    beyond the replayed record; once the copy is written, the published
    consistent LSN is greater than the start of a record that is in the
    buffer and not on storage. *)
Theorem copy_outlives_recovery :
  exists e s0 s1 s2 i r,
    RecoveryInProgress e = false /\ clean_start (in_recovery e) s0 /\
    rtc (wstep (in_recovery e)) (s0, ∅) (s1, ∅) /\ rtc (wstep e) (s1, ∅) (s2, ∅) /\
    bok s2 i /\ r ∈ page (buf s2 i) /\ r < bs_consistent_lsn s2 /\ r ∉ stored_records s2 i.
Proof.
  exists demo_env, demo_sys0, pro4, pro8, 0, 20. split; [done|]. split.
  { destruct demo_clean_start as [Hok Hc]. split; [exact Hok|exact Hc]. }
  split; [|split].
  - transitivity (pro1, ∅ : locks).
    { apply demo_redo; try (apply demo_bok0); vm_compute; congruence. }
    apply (rtc_l _ _ (pro2, ∅)); [apply w_copy; [apply demo_bok0|]; vm_compute; congruence|].
    transitivity (pro3, ∅ : locks).
    { apply demo_redo; try (apply demo_bok0); vm_compute; congruence. }
    apply rtc_once, w_wal. vm_compute. congruence.
  - transitivity (pro6, ∅ : locks).
    { apply demo_change; try (apply demo_bok0); vm_compute; congruence. }
    apply (rtc_l _ _ (pro7, ∅)).
    { apply w_flush_copy; [apply demo_bok0|]; vm_compute; congruence. }
    apply rtc_once. apply (w_publish demo_env pro7 ∅ None). vm_compute. reflexivity.
  - split; [apply demo_bok0; vm_compute; reflexivity|].
    replace (page (buf pro8 0)) with [10; 20; 30] by (vm_compute; reflexivity).
    replace (stored_records pro8 0) with [10] by (vm_compute; reflexivity).
    split; [set_solver|]. split; [vm_compute; reflexivity|]. set_solver.
Qed.
