(* ===== verification/CheckpointRing.v ===== *)
(** * The ring of stashed checkpoints (polar_checkpoint_ringbuf.h, .c)

    A replica and a primary in recovery keep the last checkpoints seen in
    the WAL, so that the control file can be moved to the newest one whose
    redo the background replay has passed.  The ring refines to a list of
    checkpoints with increasing redo.  [ck_lock] is the state of the ring's
    LWLock between calls: a call that returns with it held blocks the next
    one. *)

From S2P Require Import Prelude.

Definition POLAR_CHECKPOINT_RINGBUF_CAPACITY : Z := 5.

Record CheckPoint := mk_ckpt {
  redo : Z;
  ThisTimeLineID : Z;
  PrevTimeLineID : Z;
  fullPageWrites : bool;
  wal_level : Z;
  nextXid : Z;
  nextOid : Z;
  nextMulti : Z;
  nextMultiOffset : Z;
  oldestXid : Z;
  oldestXidDB : Z;
  oldestMulti : Z;
  oldestMultiDB : Z;
  ckpt_time : Z;
  oldestCommitTsXid : Z;
  newestCommitTsXid : Z;
  oldestActiveXid : Z
}.

(** All fields 0 but [redo], the one the ring looks at. *)
Definition redo_ckpt (lsn : Z) : CheckPoint := mk_ckpt lsn 0 0 false 0 0 0 0 0 0 0 0 0 0 0 0 0.
Definition zero_ckpt : CheckPoint := redo_ckpt 0.

Record polar_checkpoint_ringbuf_t := mk_ckring {
  recptrs : list Z;
  endptrs : list Z;
  checkpoints : list CheckPoint;
  ck_lock : bool;
  ck_head : Z;
  ck_size : Z
}.

(** The zeroed shared memory after [polar_checkpoint_ringbuf_init]. *)
Definition polar_checkpoint_ringbuf_init : polar_checkpoint_ringbuf_t :=
  mk_ckring (replicate 5 0) (replicate 5 0) (replicate 5 zero_ckpt) false 0 0.

Definition ckpt_at (r : polar_checkpoint_ringbuf_t) (i : Z) : CheckPoint :=
  aget zero_ckpt (checkpoints r) i.

(** The loop of [polar_checkpoint_ringbuf_shrink]: the value of [i] after
    it, [n] being the iterations left. *)
Fixpoint shrink_scan (n : nat) (r : polar_checkpoint_ringbuf_t) (replayed i : Z) : Z :=
  match n with
  | O => i
  | S n =>
    if i <? ck_size r then
      if redo (ckpt_at r ((ck_head r + i) mod POLAR_CHECKPOINT_RINGBUF_CAPACITY)) >? replayed then i
      else shrink_scan n r replayed (i + 1)
    else i
  end.

Definition polar_checkpoint_ringbuf_shrink (r : polar_checkpoint_ringbuf_t) (replayed : Z)
  : outcome polar_checkpoint_ringbuf_t :=
  if ck_lock r then Fault BLOCKED
  else
    let i := shrink_scan (Z.to_nat (ck_size r)) r replayed 1 in
    Done (if i >? 1 then
            let i := i - 1 in
            mk_ckring (recptrs r) (endptrs r) (checkpoints r) false
              ((ck_head r + i) mod POLAR_CHECKPOINT_RINGBUF_CAPACITY) (ck_size r - i)
          else r).

(** [%] truncates towards zero, so that an empty ring with head 0 has tail
    -1; [stray] is what the read before the array gives then. *)
Definition ringbuf_tail (r : polar_checkpoint_ringbuf_t) : Z :=
  Z.rem (ck_head r + ck_size r - 1) POLAR_CHECKPOINT_RINGBUF_CAPACITY.

Definition polar_checkpoint_ringbuf_insert (stray : CheckPoint) (r : polar_checkpoint_ringbuf_t)
    (checkpointRecPtr checkpointEndPtr : Z) (checkpoint : CheckPoint)
  : outcome polar_checkpoint_ringbuf_t :=
  if ck_lock r then Fault BLOCKED
  else
    let tail := ringbuf_tail r in
    if redo (if tail <? 0 then stray else ckpt_at r tail) >? redo checkpoint then
      Done (mk_ckring (recptrs r) (endptrs r) (checkpoints r) true (ck_head r) (ck_size r))
    else
      let size := if ck_size r =? POLAR_CHECKPOINT_RINGBUF_CAPACITY then ck_size r - 1 else ck_size r in
      let target := (ck_head r + size) mod POLAR_CHECKPOINT_RINGBUF_CAPACITY in
      Done (mk_ckring (aset (recptrs r) target checkpointRecPtr) (aset (endptrs r) target checkpointEndPtr)
              (aset (checkpoints r) target checkpoint) false (ck_head r) (size + 1)).

Definition polar_checkpoint_ringbuf_front (r : polar_checkpoint_ringbuf_t) : outcome (Z * Z * CheckPoint) :=
  if ck_lock r then Fault BLOCKED
  else if negb (ck_size r =? 0) then
    Done (aget 0 (recptrs r) (ck_head r), aget 0 (endptrs r) (ck_head r), ckpt_at r (ck_head r))
  else Done (0, 0, zero_ckpt).

(** ** Refinement to a list *)

Definition entry (r : polar_checkpoint_ringbuf_t) (i : Z) : Z * Z * CheckPoint :=
  (aget 0 (recptrs r) i, aget 0 (endptrs r) i, ckpt_at r i).

Definition eredo (e : Z * Z * CheckPoint) : Z := redo e.2.

(** The stashed checkpoints, oldest first. *)
Definition contents (r : polar_checkpoint_ringbuf_t) : list (Z * Z * CheckPoint) :=
  map (fun k => entry r ((ck_head r + k) mod POLAR_CHECKPOINT_RINGBUF_CAPACITY)) (seqZ 0 (ck_size r)).

Record ckring_wf (r : polar_checkpoint_ringbuf_t) : Prop := {
  cw_rec : length (recptrs r) = 5%nat;
  cw_end : length (endptrs r) = 5%nat;
  cw_ckpt : length (checkpoints r) = 5%nat;
  cw_head : 0 <= ck_head r < POLAR_CHECKPOINT_RINGBUF_CAPACITY;
  cw_size : 0 <= ck_size r <= POLAR_CHECKPOINT_RINGBUF_CAPACITY;
  cw_sorted : StronglySorted Z.le (map eredo (contents r))
}.

Lemma contents_lookup r (k : nat) :
  contents r !! k =
  if decide (Z.of_nat k < ck_size r)
  then Some (entry r ((ck_head r + Z.of_nat k) mod POLAR_CHECKPOINT_RINGBUF_CAPACITY)) else None.
Proof.
  unfold contents. rewrite list_lookup_fmap. case_decide as Hk.
  - by rewrite lookup_seqZ_lt by lia.
  - by rewrite lookup_seqZ_ge by lia.
Qed.

Lemma contents_length r : 0 <= ck_size r -> length (contents r) = Z.to_nat (ck_size r).
Proof. intros. unfold contents. by rewrite length_fmap, length_seqZ. Qed.

Lemma sorted_drop {A} (f : A -> Z) (l : list A) (k : nat) :
  StronglySorted Z.le (map f l) -> StronglySorted Z.le (map f (drop k l)).
Proof.
  revert k. induction l as [|x l IH]; intros [|k] Hs; simpl; try done.
  inversion_clear Hs. by apply IH.
Qed.

Lemma sorted_take {A} (f : A -> Z) (l : list A) (k : nat) :
  StronglySorted Z.le (map f l) -> StronglySorted Z.le (map f (take k l)).
Proof.
  revert k. induction l as [|x l IH]; intros [|k] Hs; simpl; try constructor; inversion_clear Hs as [|? ? H1 H2].
  - by apply IH.
  - rewrite Forall_forall in H2 |- *. intros y Hy. apply list_elem_of_fmap in Hy as (z & -> & Hz).
    apply H2, list_elem_of_fmap. exists z. split; [done|]. apply elem_of_take in Hz as (j & Hj & _).
    by eapply list_elem_of_lookup_2.
Qed.

Lemma sorted_app_last {A} (f : A -> Z) (l : list A) x :
  StronglySorted Z.le (map f l) -> (forall y, list.last l = Some y -> f y <= f x) ->
  StronglySorted Z.le (map f (l ++ [x])).
Proof.
  induction l as [|y l IH]; intros Hs Hx; simpl; [repeat constructor|].
  inversion_clear Hs as [|? ? H1 H2]. rewrite Forall_forall in H2.
  assert (forall z, list.last l = Some z -> f z <= f x) as Hl.
  { intros z Hz. apply Hx. destruct l; [done|]. by rewrite last_cons_cons. }
  constructor; [by apply IH|]. apply Forall_forall. intros z Hz.
  apply list_elem_of_fmap in Hz as (w & -> & Hw). apply elem_of_app in Hw as [Hw|Hw].
  - apply H2, list_elem_of_fmap. eauto.
  - assert (w = x) as -> by set_solver. destruct (list.last l) as [z|] eqn:El.
    + specialize (Hl z eq_refl). assert (f y <= f z); [|lia]. apply H2, list_elem_of_fmap.
      exists z. split; [done|]. by apply last_Some_elem_of.
    + apply last_None in El. subst l. by apply Hx.
Qed.

Lemma mod5_ne a k n : 0 <= k < n -> n <= 4 -> (a + k) mod 5 <> (a + n) mod 5.
Proof. intros. Z.div_mod_to_equations. lia. Qed.

Lemma entry_set r t rp ep ck lk h sz i :
  ckring_wf r -> 0 <= t < 5 ->
  entry (mk_ckring (aset (recptrs r) t rp) (aset (endptrs r) t ep) (aset (checkpoints r) t ck) lk h sz) i =
  if decide (i = t) then (rp, ep, ck) else entry r i.
Proof.
  intros [H1 H2 H3 _ _ _] Ht. unfold entry, ckpt_at. cbn [recptrs endptrs checkpoints].
  rewrite !aget_aset by lia. case_decide; case_decide; by subst.
Qed.

(** The tail the code computes is the last stashed checkpoint. *)
Lemma tail_is_last r :
  ckring_wf r -> 0 < ck_size r ->
  0 <= ringbuf_tail r /\ exists e, list.last (contents r) = Some e /\ ckpt_at r (ringbuf_tail r) = e.2.
Proof.
  intros [_ _ _ Hh Hs _] Hpos. unfold ringbuf_tail, POLAR_CHECKPOINT_RINGBUF_CAPACITY in *.
  rewrite Z.rem_mod_nonneg by lia. split; [apply Z.mod_pos_bound; lia|].
  rewrite last_lookup, contents_length, contents_lookup by lia.
  rewrite decide_True by lia. eexists. split; [done|]. simpl. unfold POLAR_CHECKPOINT_RINGBUF_CAPACITY.
  do 2 f_equal. lia.
Qed.

Lemma insert_contents stray r rp ep ck :
  ckring_wf r -> ck_lock r = false ->
  (if ringbuf_tail r <? 0 then redo stray else redo (ckpt_at r (ringbuf_tail r))) <= redo ck ->
  exists r', polar_checkpoint_ringbuf_insert stray r rp ep ck = Done r' /\ ck_lock r' = false /\
    ckring_wf r' /\ contents r' = take 4 (contents r) ++ [(rp, ep, ck)].
Proof.
  intros Hwf Hl Hle. pose proof Hwf as [H1 H2 H3 H4 H5 H6]. unfold polar_checkpoint_ringbuf_insert. rewrite Hl.
  assert ((redo (if ringbuf_tail r <? 0 then stray else ckpt_at r (ringbuf_tail r)) >? redo ck) = false) as ->.
  { rewrite Z.gtb_ltb. apply Z.ltb_ge. by destruct (ringbuf_tail r <? 0). }
  unfold POLAR_CHECKPOINT_RINGBUF_CAPACITY in *. cbv zeta.
  set (size := if ck_size r =? 5 then ck_size r - 1 else ck_size r).
  assert (0 <= size <= 4 /\ size = Z.min 4 (ck_size r)) as [Hsz Hmin]
    by (unfold size; destruct (ck_size r =? 5) eqn:E; zbool; lia).
  assert (0 <= (ck_head r + size) mod 5 < 5) as Ht by (apply Z.mod_pos_bound; lia).
  set (t := (ck_head r + size) mod 5) in *. set (r' := mk_ckring _ _ _ _ _ _).
  assert (contents r' = take 4 (contents r) ++ [(rp, ep, ck)]) as Hc.
  { apply list_eq. intros k. rewrite contents_lookup.
    change (ck_size r') with (size + 1). change (ck_head r') with (ck_head r).
    unfold POLAR_CHECKPOINT_RINGBUF_CAPACITY.
    assert (length (take 4 (contents r)) = Z.to_nat size) as Hlen by (rewrite length_take, contents_length; lia).
    unfold r'. destruct (decide (Z.of_nat k < size)) as [Hk|Hk].
    - rewrite decide_True by lia. rewrite lookup_app_l by lia.
      rewrite lookup_take_lt, contents_lookup, decide_True by lia.
      rewrite entry_set by done. rewrite decide_False; [done|]. apply mod5_ne; lia.
    - rewrite lookup_app_r by lia. rewrite Hlen. case_decide as Hk2.
      + assert (Z.of_nat k = size) as Hke by lia. rewrite Hke. fold t. rewrite entry_set by done.
        rewrite decide_True by done. by replace (k - Z.to_nat size)%nat with 0%nat by lia.
      + symmetry. apply lookup_ge_None_2. simpl. lia. }
  exists r'. split_and!; [done|done| |done].
  split; [simpl; by rewrite length_aset..|done|simpl; unfold POLAR_CHECKPOINT_RINGBUF_CAPACITY; lia|].
  rewrite Hc. apply sorted_app_last; [by apply sorted_take|]. intros e He. unfold eredo at 2. simpl.
  destruct (decide (ck_size r = 0)) as [Hz|Hz].
  { apply last_Some_elem_of, elem_of_take in He as (j & Hj & _).
    rewrite contents_lookup, decide_False in Hj by lia. done. }
  destruct (tail_is_last r Hwf ltac:(lia)) as [Htl (e0 & He0 & Heq)].
  destruct (ringbuf_tail r <? 0) eqn:E; zbool; [lia|]. rewrite Heq in Hle.
  assert (eredo e <= eredo e0) as Hee; [|unfold eredo in *; lia].
  (* the list is sorted and [e0] is its last element *)
  assert (e ∈ contents r) as Hin.
  { apply last_Some_elem_of, elem_of_take in He as (j & Hj & _). by eapply list_elem_of_lookup_2. }
  clear -H6 He0 Hin. destruct (contents r) as [|x l _] using rev_ind; [done|].
  rewrite last_snoc in He0. injection He0 as <-. revert Hin H6. induction l as [|y l IH]; simpl.
  - intros Hin _. assert (e = x) as -> by set_solver. lia.
  - intros Hin Hs. inversion_clear Hs as [|? ? Hs' Hf]. apply elem_of_cons in Hin as [->|Hin]; [|by apply IH].
    rewrite Forall_forall in Hf. apply Hf, list_elem_of_fmap. exists x. set_solver.
Qed.

(** *** Shrinking *)

Lemma shrink_scan_spec r replayed n i :
  1 <= i -> Z.of_nat n >= ck_size r - i ->
  let j := shrink_scan n r replayed i in
  i <= j /\ (j <= ck_size r \/ j = i) /\
  (forall k, i <= k < j -> redo (ckpt_at r ((ck_head r + k) mod 5)) <= replayed) /\
  (j < ck_size r -> replayed < redo (ckpt_at r ((ck_head r + j) mod 5))).
Proof.
  revert i. induction n as [|n IH]; intros i Hi Hn; simpl.
  { split_and!; [lia|by right|lia|lia]. }
  destruct (i <? ck_size r) eqn:E; zbool; [|split_and!; [lia|by right|lia|lia]].
  unfold POLAR_CHECKPOINT_RINGBUF_CAPACITY. destruct (_ >? replayed) eqn:E2; zbool.
  { split_and!; [lia|by right|lia|done]. }
  destruct (IH (i + 1) ltac:(lia) ltac:(lia)) as (A & B & C & D). split_and!; [lia| | |done].
  - left. destruct B; lia.
  - intros k Hk. destruct (decide (k = i)) as [->|]; [done|]. apply C. lia.
Qed.

Lemma shrink_contents r replayed :
  ckring_wf r -> ck_lock r = false ->
  exists r' (k : nat), polar_checkpoint_ringbuf_shrink r replayed = Done r' /\ ck_lock r' = false /\
    ckring_wf r' /\ contents r' = drop k (contents r) /\
    (contents r <> [] -> contents r' <> []) /\
    (forall j e, (1 <= j <= k)%nat -> contents r !! j = Some e -> eredo e <= replayed) /\
    (forall e, contents r' !! 1%nat = Some e -> replayed < eredo e).
Proof.
  intros Hwf Hl. pose proof Hwf as [H1 H2 H3 H4 H5 H6].
  unfold polar_checkpoint_ringbuf_shrink. rewrite Hl. cbv zeta.
  unfold POLAR_CHECKPOINT_RINGBUF_CAPACITY in *.
  pose proof (shrink_scan_spec r replayed (Z.to_nat (ck_size r)) 1 ltac:(lia) ltac:(lia)) as Hscan.
  set (i := shrink_scan (Z.to_nat (ck_size r)) r replayed 1) in *. cbv zeta in Hscan.
  destruct Hscan as (A & B & C & D).
  destruct (i >? 1) eqn:E; zbool.
  - set (r' := mk_ckring _ _ _ _ _ _).
    assert (0 <= ck_size r - (i - 1) <= 5) as Hs' by lia.
    assert (contents r' = drop (Z.to_nat (i - 1)) (contents r)) as Hc.
    { apply list_eq. intros k. rewrite lookup_drop, !contents_lookup.
      change (ck_size r') with (ck_size r - (i - 1)). change (ck_head r') with ((ck_head r + (i - 1)) mod 5).
      unfold POLAR_CHECKPOINT_RINGBUF_CAPACITY. rewrite Zplus_mod_idemp_l.
      case_decide; case_decide; try lia; [|done]. do 2 f_equal. f_equal. lia. }
    exists r', (Z.to_nat (i - 1)). split_and!; [done|done| |done| | |].
    + split; [done|done|done|apply (Z.mod_pos_bound _ 5); done|exact Hs'|]. rewrite Hc. by apply sorted_drop.
    + intros _ Hn. apply (f_equal length) in Hn. rewrite contents_length in Hn by (simpl; lia). simpl in Hn. lia.
    + intros j e Hj He. rewrite contents_lookup in He. case_decide; [|done]. injection He as <-.
      unfold eredo. simpl. apply C. lia.
    + intros e He. rewrite Hc, lookup_drop, contents_lookup in He. case_decide; [|done].
      injection He as <-. unfold eredo. simpl.
      replace (Z.of_nat (Z.to_nat (i - 1) + 1)) with i in * by lia. by apply D.
  - exists r, 0%nat. split_and!; [done|done|done|done|done|lia|].
    intros e He. rewrite contents_lookup in He. case_decide; [|done]. injection He as <-.
    unfold eredo. simpl. assert (i = 1) as Hi1 by lia. rewrite Hi1 in D. apply D. lia.
Qed.

(** ** Properties *)

(** Inserting a checkpoint whose redo is not before the last one's
    appends it; a full ring gives up its last checkpoint, never the first
    ones, so the oldest stashed checkpoint stays available; redo stays
    increasing and the lock is released. *)
Theorem ckring_insert_refines (stray : CheckPoint) (r : polar_checkpoint_ringbuf_t) (rp ep : Z)
    (ck : CheckPoint) :
  ckring_wf r -> ck_lock r = false -> 0 < ck_size r ->
  (forall e, list.last (contents r) = Some e -> eredo e <= redo ck) ->
  exists r', polar_checkpoint_ringbuf_insert stray r rp ep ck = Done r' /\ ck_lock r' = false /\
    ckring_wf r' /\ contents r' = take 4 (contents r) ++ [(rp, ep, ck)].
Proof.
  intros Hwf Hl Hs Hlast. apply insert_contents; [done|done|].
  destruct (tail_is_last r Hwf Hs) as [Ht (e & He & Heq)].
  destruct (ringbuf_tail r <? 0) eqn:E; zbool; [lia|]. rewrite Heq. by apply Hlast.
Qed.

(** A full ring, with the checkpoints 1 to 5 inserted. *)
Definition demo_insert (r : polar_checkpoint_ringbuf_t) (k : Z) : polar_checkpoint_ringbuf_t :=
  match polar_checkpoint_ringbuf_insert zero_ckpt r (10 * k) (10 * k + 1) (redo_ckpt k) with
  | Done r' => r' | Fault _ => r
  end.
Definition demo_ring : polar_checkpoint_ringbuf_t :=
  fold_left demo_insert [1; 2; 3; 4; 5] polar_checkpoint_ringbuf_init.

Lemma init_ckring_wf : ckring_wf polar_checkpoint_ringbuf_init.
Proof. split; try done. constructor. Qed.

Lemma demo_ring_wf : ckring_wf demo_ring.
Proof.
  split; [done|done|done|done|done|]. vm_compute.
  repeat (constructor; [|repeat constructor; vm_compute; congruence]). constructor.
Qed.

Lemma ckring_insert_refines_witness :
  exists r', polar_checkpoint_ringbuf_insert zero_ckpt demo_ring 60 61 (redo_ckpt 6) = Done r' /\
    ck_lock r' = false /\ ckring_wf r' /\
    contents r' = take 4 (contents demo_ring) ++ [(60, 61, redo_ckpt 6)].
Proof.
  apply (ckring_insert_refines zero_ckpt demo_ring 60 61 (redo_ckpt 6));
    [exact demo_ring_wf|reflexivity|reflexivity|].
  intros e He. vm_compute in He. injection He as <-. vm_compute. congruence.
Defined.

(** Shrinking drops the checkpoints before the newest one whose redo
    the replay has passed, and nothing else: what remains is a suffix that
    is not empty, every checkpoint passed over has its redo replayed, and
    the second one that remains has not; when the first checkpoint's redo
    was replayed, so is the redo of the one that
    [polar_checkpoint_ringbuf_front] then returns. *)
Theorem ckring_shrink_keeps_newest_replayed (r : polar_checkpoint_ringbuf_t) (replayed : Z) :
  ckring_wf r -> ck_lock r = false -> 0 < ck_size r ->
  (forall e, contents r !! 0%nat = Some e -> eredo e <= replayed) ->
  exists r' k e, polar_checkpoint_ringbuf_shrink r replayed = Done r' /\ ckring_wf r' /\
    contents r' = drop k (contents r) /\
    polar_checkpoint_ringbuf_front r' = Done e /\ contents r' !! 0%nat = Some e /\ eredo e <= replayed /\
    (forall e2, contents r' !! 1%nat = Some e2 -> replayed < eredo e2).
Proof.
  intros Hwf Hl Hs H0. destruct (shrink_contents r replayed Hwf Hl)
    as (r' & k & He & Hl' & Hwf' & Hc & Hne & Hpass & Hnext).
  assert (contents r <> []) as Hner.
  { intros Hn. apply (f_equal length) in Hn. rewrite contents_length in Hn by lia. simpl in Hn. lia. }
  specialize (Hne Hner).
  assert (0 < ck_size r') as Hs'.
  { destruct (decide (0 < ck_size r')) as [|Hz]; [done|]. destruct Hne. unfold contents.
    by rewrite seqZ_nil by lia. }
  exists r', k, (entry r' (ck_head r')).
  assert (contents r' !! 0%nat = Some (entry r' (ck_head r'))) as Hfirst.
  { rewrite contents_lookup, decide_True by lia. do 2 f_equal. rewrite Z.add_0_r.
    apply Z.mod_small, Hwf'. }
  split_and!; try done.
  - unfold polar_checkpoint_ringbuf_front. rewrite Hl'. by destruct (ck_size r' =? 0) eqn:E; zbool; [lia|].
  - rewrite Hc, lookup_drop, Nat.add_0_r in Hfirst.
    destruct k as [|k]; [by apply H0|]. apply (Hpass (S k)); [lia|done].
Qed.

Lemma ckring_shrink_witness :
  exists r' k e, polar_checkpoint_ringbuf_shrink demo_ring 3 = Done r' /\ ckring_wf r' /\
    contents r' = drop k (contents demo_ring) /\
    polar_checkpoint_ringbuf_front r' = Done e /\ contents r' !! 0%nat = Some e /\ eredo e <= 3 /\
    (forall e2, contents r' !! 1%nat = Some e2 -> 3 < eredo e2).
Proof.
  apply (ckring_shrink_keeps_newest_replayed demo_ring 3); [exact demo_ring_wf|reflexivity|reflexivity|].
  intros e He. vm_compute in He. injection He as <-. vm_compute. congruence.
Defined.

(** A checkpoint that is rejected leaves the ring locked: the early
    return in [polar_checkpoint_ringbuf_insert] does not release the lock
    it took, and every later call on the ring waits for it forever. *)
Theorem ckring_reject_deadlocks (stray : CheckPoint) (r : polar_checkpoint_ringbuf_t) (rp ep : Z)
    (ck : CheckPoint) :
  ckring_wf r -> ck_lock r = false -> 0 < ck_size r ->
  (forall e, list.last (contents r) = Some e -> redo ck < eredo e) ->
  exists r', polar_checkpoint_ringbuf_insert stray r rp ep ck = Done r' /\
    contents r' = contents r /\
    polar_checkpoint_ringbuf_front r' = Fault BLOCKED /\
    (forall replayed, polar_checkpoint_ringbuf_shrink r' replayed = Fault BLOCKED) /\
    (forall rp2 ep2 ck2, polar_checkpoint_ringbuf_insert stray r' rp2 ep2 ck2 = Fault BLOCKED).
Proof.
  intros Hwf Hl Hs Hlast. destruct (tail_is_last r Hwf Hs) as [Ht (e & He & Heq)].
  unfold polar_checkpoint_ringbuf_insert at 1. rewrite Hl.
  destruct (ringbuf_tail r <? 0) eqn:E; zbool; [lia|]. rewrite Heq.
  specialize (Hlast e He). unfold eredo in Hlast.
  destruct (redo e.2 >? redo ck) eqn:E2; zbool; [|lia]. eexists. split; [done|]. done.
Qed.

Lemma ckring_reject_deadlocks_witness :
  exists r', polar_checkpoint_ringbuf_insert zero_ckpt demo_ring 0 1 (redo_ckpt 4) = Done r' /\
    contents r' = contents demo_ring /\
    polar_checkpoint_ringbuf_front r' = Fault BLOCKED /\
    (forall replayed, polar_checkpoint_ringbuf_shrink r' replayed = Fault BLOCKED) /\
    (forall rp2 ep2 ck2, polar_checkpoint_ringbuf_insert zero_ckpt r' rp2 ep2 ck2 = Fault BLOCKED).
Proof.
  apply (ckring_reject_deadlocks zero_ckpt demo_ring 0 1 (redo_ckpt 4));
    [exact demo_ring_wf|reflexivity|reflexivity|].
  intros e He. vm_compute in He. injection He as <-. vm_compute. reflexivity.
Defined.

(** the first insertion into a fresh ring reads before the start of
    the array: the tail index is -1, and whether the checkpoint is accepted
    depends on the memory found there. *)
Theorem ckring_first_insert_reads_stray (stray : CheckPoint) (rp ep : Z) (ck : CheckPoint) :
  ringbuf_tail polar_checkpoint_ringbuf_init = -1 /\
  exists r', polar_checkpoint_ringbuf_insert stray polar_checkpoint_ringbuf_init rp ep ck = Done r' /\
    contents r' = if redo stray >? redo ck then [] else [(rp, ep, ck)].
Proof.
  split; [done|]. unfold polar_checkpoint_ringbuf_insert. simpl ck_lock. cbv iota.
  change (ringbuf_tail polar_checkpoint_ringbuf_init <? 0) with true. cbv iota.
  destruct (redo stray >? redo ck); eexists; (split; [reflexivity|]); reflexivity.
Qed.
