(* ===== verification/XlogBuf.v ===== *)
(** * The buffer of WAL pages (storage/buffer/polar_xlogbuf.c)

    Recent WAL pages are kept in memory; page [p] may only be in buffer
    [p mod n].  A lookup checks the buffer's meta data under a shared lock;
    when the buffer is to be evicted it takes the lock again in exclusive
    mode, sets the meta data and leaves it to the caller to copy the page in
    and to release the lock.

    The descriptors and the contents are one list of buffers.  The static
    counters of a process are passed beside it.  In the steps below a lock
    is the state of the process that has it. *)

From S2P Require Import Prelude.

Definition XLOG_BLCKSZ : Z := 8192.

Record polar_xlog_buffer_desc := mk_xbuf {
  xb_start_lsn : Z;
  xb_end_lsn : Z;
  xb_page : list Z
}.

Record xbuf_counts := mk_counts {
  xc_total : Z;
  xc_hit : Z;
  xc_evict : Z;
  xc_direct_io : Z
}.

Definition polar_xlog_offset_aligned (lsn : Z) : bool := lsn mod XLOG_BLCKSZ =? 0.

Section xlogbuf.
Context (polar_xlog_page_buffers : Z).

Definition block_count : Z := polar_xlog_page_buffers * 1024 / (XLOG_BLCKSZ / 1024).

Definition polar_get_xlog_buffer_id (lsn : Z) : Z := lsn / XLOG_BLCKSZ mod block_count.

Definition empty_xbuf : polar_xlog_buffer_desc := mk_xbuf InvalidXLogRecPtr InvalidXLogRecPtr (replicate (Z.to_nat XLOG_BLCKSZ) 0).
Definition polar_get_xlog_buffer_desc (c : list polar_xlog_buffer_desc) (buf_id : Z) : polar_xlog_buffer_desc := aget empty_xbuf c buf_id.
Definition set_xbuf (c : list polar_xlog_buffer_desc) (buf_id start_lsn end_lsn : Z) : list polar_xlog_buffer_desc :=
  aset c buf_id (mk_xbuf start_lsn end_lsn (xb_page (polar_get_xlog_buffer_desc c buf_id))).

Definition polar_init_xlog_buffer : list polar_xlog_buffer_desc := replicate (Z.to_nat block_count) empty_xbuf.

Definition polar_xlog_buffer_should_evict (buf : polar_xlog_buffer_desc) (lsn len : Z) : bool :=
  if xb_end_lsn buf >=? u64 (u64 (lsn + len) - 1) then false else true.

(** What the first part of a lookup finds, with the shared lock. *)
Inductive lookup_state := Matched | Missed | Evicting.

Definition lookup_check (c : list polar_xlog_buffer_desc) (lsn len : Z) (doEvict : bool) : lookup_state :=
  let buf := polar_get_xlog_buffer_desc c (polar_get_xlog_buffer_id lsn) in
  if (xb_start_lsn buf =? lsn) && (xb_end_lsn buf >=? u64 (u64 (lsn + len) - 1)) then Matched
  else if negb doEvict || negb (polar_xlog_buffer_should_evict buf lsn len) then Missed
  else Evicting.

(** The second part, with the exclusive lock. *)
Definition lookup_evict (c : list polar_xlog_buffer_desc) (lsn len : Z) : list polar_xlog_buffer_desc :=
  set_xbuf c (polar_get_xlog_buffer_id lsn) lsn (u64 (u64 (lsn + len) - 1)).

(** The whole call, when no other process comes between: the result and the
    buffer id. *)
Definition polar_xlog_buffer_lookup (c : list polar_xlog_buffer_desc) (n : xbuf_counts) (lsn len : Z) (doEvict doCount : bool)
  : list polar_xlog_buffer_desc * xbuf_counts * bool * Z :=
  let one := if doCount then 1 else 0 in
  let total := u64 (xc_total n + one) in
  let buf_id := polar_get_xlog_buffer_id lsn in
  match lookup_check c lsn len doEvict with
  | Matched => (c, mk_counts total (u64 (xc_hit n + one)) (xc_evict n) (xc_direct_io n), true, buf_id)
  | Missed => (c, mk_counts total (xc_hit n) (xc_evict n) (u64 (xc_direct_io n + one)), false, -1)
  | Evicting => (lookup_evict c lsn len, mk_counts total (xc_hit n) (u64 (xc_evict n + one)) (xc_direct_io n), false, buf_id)
  end.

Definition polar_xlog_buffer_update (c : list polar_xlog_buffer_desc) (lsn : Z) : list polar_xlog_buffer_desc :=
  let page_off := lsn - lsn mod XLOG_BLCKSZ in
  let buf_id := polar_get_xlog_buffer_id lsn in
  let buf := polar_get_xlog_buffer_desc c buf_id in
  if (xb_start_lsn buf =? page_off) && (xb_end_lsn buf >? lsn) then set_xbuf c buf_id (xb_start_lsn buf) lsn else c.

Definition polar_xlog_buffer_remove (c : list polar_xlog_buffer_desc) (lsn : Z) : list polar_xlog_buffer_desc :=
  let page_off := lsn - lsn mod XLOG_BLCKSZ in
  let buf_id := polar_get_xlog_buffer_id lsn in
  if xb_start_lsn (polar_get_xlog_buffer_desc c buf_id) =? page_off then set_xbuf c buf_id InvalidXLogRecPtr InvalidXLogRecPtr else c.

(** One round of the loop of [polar_xlog_buffer_reset_all_buffer]. *)
Definition reset_one (c : list polar_xlog_buffer_desc) (buf_id : Z) : list polar_xlog_buffer_desc :=
  set_xbuf c buf_id InvalidXLogRecPtr InvalidXLogRecPtr.

Definition polar_xlog_buffer_reset_all_buffer (polar_enable_xlog_buffer : bool) (c : list polar_xlog_buffer_desc) : list polar_xlog_buffer_desc :=
  if negb polar_enable_xlog_buffer then c else foldl reset_one c (seqZ 0 block_count).

(** ** Processes

    A process is reading the first bytes of a page with the shared lock,
    has found that a buffer is to be evicted and has no lock, or has the
    exclusive lock and is to copy the page in. *)

Inductive xproc :=
| Idle
| Reading (lsn len : Z)
| Upgrading (lsn len : Z)
| Filling (lsn len : Z).

Record xstate := mk_xstate {
  xs_bufs : list polar_xlog_buffer_desc;
  xs_procs : list xproc
}.

(** The bytes of the WAL. *)
Context (wal : Z -> Z).

Definition wal_bytes (lsn len : Z) : list Z := map wal (seqZ lsn len).

(** Copying [len] bytes to the start of a page. *)
Definition copy_in (page bytes : list Z) : list Z := bytes ++ drop (length bytes) page.

Definition holds (p : xproc) (buf_id : Z) : bool :=
  match p with
  | Reading lsn _ | Filling lsn _ => polar_get_xlog_buffer_id lsn =? buf_id
  | _ => false
  end.
Definition fills (p : xproc) (buf_id : Z) : bool :=
  match p with Filling lsn _ => polar_get_xlog_buffer_id lsn =? buf_id | _ => false end.

(** A lock in shared or in exclusive mode can be got. *)
Definition share_ok (ps : list xproc) (buf_id : Z) : Prop := Forall (fun p => fills p buf_id = false) ps.
Definition excl_ok (ps : list xproc) (buf_id : Z) : Prop := Forall (fun p => holds p buf_id = false) ps.

(** The arguments of a lookup. *)
Definition page_arg (lsn len : Z) : Prop :=
  polar_xlog_offset_aligned lsn = true /\ 0 < lsn /\ lsn + XLOG_BLCKSZ < 2 ^ 64 /\ 0 <= len <= XLOG_BLCKSZ.

Definition filled (c : list polar_xlog_buffer_desc) (lsn len : Z) : list polar_xlog_buffer_desc :=
  let buf_id := polar_get_xlog_buffer_id lsn in
  let buf := polar_get_xlog_buffer_desc c buf_id in
  aset c buf_id (mk_xbuf (xb_start_lsn buf) (xb_end_lsn buf) (copy_in (xb_page buf) (wal_bytes lsn len))).

Inductive xstep : xstate -> xstate -> Prop :=
| step_lookup c ps i lsn len doEvict : page_arg lsn len -> ps !! i = Some Idle -> share_ok ps (polar_get_xlog_buffer_id lsn) ->
    xstep (mk_xstate c ps)
      (mk_xstate c (<[i := match lookup_check c lsn len doEvict with
                           | Matched => Reading lsn len | Missed => Idle | Evicting => Upgrading lsn len end]> ps))
| step_evict c ps i lsn len : ps !! i = Some (Upgrading lsn len) -> excl_ok ps (polar_get_xlog_buffer_id lsn) ->
    xstep (mk_xstate c ps) (mk_xstate (lookup_evict c lsn len) (<[i := Filling lsn len]> ps))
| step_fill c ps i lsn len : ps !! i = Some (Filling lsn len) ->
    xstep (mk_xstate c ps) (mk_xstate (filled c lsn len) (<[i := Idle]> ps))
| step_read c ps i lsn len : ps !! i = Some (Reading lsn len) -> xstep (mk_xstate c ps) (mk_xstate c (<[i := Idle]> ps))
| step_update c ps lsn : 0 <= lsn < 2 ^ 64 -> excl_ok ps (polar_get_xlog_buffer_id lsn) ->
    xstep (mk_xstate c ps) (mk_xstate (polar_xlog_buffer_update c lsn) ps)
| step_remove c ps lsn : 0 <= lsn < 2 ^ 64 -> excl_ok ps (polar_get_xlog_buffer_id lsn) ->
    xstep (mk_xstate c ps) (mk_xstate (polar_xlog_buffer_remove c lsn) ps)
| step_reset c ps buf_id : 0 <= buf_id < block_count -> excl_ok ps buf_id -> xstep (mk_xstate c ps) (mk_xstate (reset_one c buf_id) ps).

Definition xinit (n : nat) : xstate := mk_xstate polar_init_xlog_buffer (replicate n Idle).

(** ** The pages are those of the WAL *)

Context (Hcount : 0 < block_count).

Lemma buffer_id_range lsn : 0 <= polar_get_xlog_buffer_id lsn < block_count.
Proof. apply Z.mod_pos_bound. done. Qed.

Lemma page_end lsn len : page_arg lsn len -> u64 (u64 (lsn + len) - 1) = lsn + len - 1.
Proof. intros (_ & H1 & H2 & H3). unfold XLOG_BLCKSZ in *. rewrite (u64_small (lsn + len)) by (unfold is_u64; lia). apply u64_small. unfold is_u64. lia. Qed.

(** What the meta data of a buffer says is in the page. *)
Definition coherent (b : polar_xlog_buffer_desc) : Prop :=
  xb_start_lsn b <> 0 -> xb_end_lsn b < xb_start_lsn b + XLOG_BLCKSZ /\
    forall i, 0 <= i -> xb_start_lsn b + i <= xb_end_lsn b -> xb_page b !! Z.to_nat i = Some (wal (xb_start_lsn b + i)).

Abbreviation buf c i := (polar_get_xlog_buffer_desc c i).
Abbreviation bid := polar_get_xlog_buffer_id.

Record xinv (st : xstate) : Prop := {
  xi_len : Z.of_nat (length (xs_bufs st)) = block_count;
  xi_page : forall i, 0 <= i < block_count -> length (xb_page (buf (xs_bufs st) i)) = Z.to_nat XLOG_BLCKSZ;
  xi_buf : forall i, 0 <= i < block_count -> share_ok (xs_procs st) i -> coherent (buf (xs_bufs st) i);
  xi_read : forall k lsn len, xs_procs st !! k = Some (Reading lsn len) -> page_arg lsn len /\ share_ok (xs_procs st) (bid lsn) /\
    xb_start_lsn (buf (xs_bufs st) (bid lsn)) = lsn /\ lsn + len - 1 <= xb_end_lsn (buf (xs_bufs st) (bid lsn));
  xi_up : forall k lsn len, xs_procs st !! k = Some (Upgrading lsn len) -> page_arg lsn len;
  xi_fill : forall k lsn len, xs_procs st !! k = Some (Filling lsn len) -> page_arg lsn len /\ excl_ok (<[k := Idle]> (xs_procs st)) (bid lsn) /\
    xb_start_lsn (buf (xs_bufs st) (bid lsn)) = lsn /\ xb_end_lsn (buf (xs_bufs st) (bid lsn)) = lsn + len - 1
}.

Lemma lookup_ok ps (k : nat) p (P : xproc -> Prop) : Forall P ps -> ps !! k = Some p -> P p.
Proof. rewrite Forall_forall. intros H Hk. apply H. by eapply list_elem_of_lookup_2. Qed.

Lemma excl_share ps i : excl_ok ps i -> share_ok ps i.
Proof. intros H. eapply Forall_impl; [exact H|]. intros []; done. Qed.

(** A process that changes its state keeps the locks of the others. *)
Lemma insert_idle (P : xproc -> Prop) ps (k : nat) : P Idle -> Forall P ps -> Forall P (<[k := Idle]> ps).
Proof. intros HP H. by apply Forall_insert. Qed.

Lemma share_insert ps (k : nat) p i : share_ok ps i -> fills p i = false -> share_ok (<[k := p]> ps) i.
Proof. intros H Hp. by apply Forall_insert. Qed.

Lemma buf_aset c k b i : 0 <= k < Z.of_nat (length c) -> buf (aset c k b) i = if decide (k = i) then b else buf c i.
Proof. apply aget_aset. Qed.

(** A change of buffer [k] that nobody reads or fills. *)
Lemma inv_free_buf c ps k b :
  xinv (mk_xstate c ps) -> 0 <= k < block_count -> excl_ok ps k -> length (xb_page b) = Z.to_nat XLOG_BLCKSZ -> coherent b ->
  xinv (mk_xstate (aset c k b) ps).
Proof.
  intros HI Hk Hex Hlen Hco. destruct HI as [H1 H2 H3 H4 H5 H6]. cbn [xs_bufs xs_procs] in *.
  assert (forall i, buf (aset c k b) i = if decide (k = i) then b else buf c i) as Eb by (intros i; apply buf_aset; lia).
  split; cbn [xs_bufs xs_procs].
  - by rewrite length_aset.
  - intros i Hi. rewrite Eb. destruct (decide _); [done|by apply H2].
  - intros i Hi Hs. rewrite Eb. destruct (decide _); [done|by apply H3].
  - intros j lsn len Hj. rewrite Eb, decide_False; [by apply (H4 j)|]. intros ->.
    apply (lookup_ok _ j _ _ Hex) in Hj. cbn in Hj. by rewrite Z.eqb_refl in Hj.
  - exact H5.
  - intros j lsn len Hj. rewrite Eb, decide_False; [by apply (H6 j)|]. intros ->.
    apply (lookup_ok _ j _ _ Hex) in Hj. cbn in Hj. by rewrite Z.eqb_refl in Hj.
Qed.

(** A process without the exclusive lock changes its state. *)
Lemma inv_proc c ps (k : nat) p0 p :
  xinv (mk_xstate c ps) -> ps !! k = Some p0 -> (forall i, fills p0 i = false) -> (forall i, fills p i = false) ->
  (forall lsn len, p = Upgrading lsn len -> page_arg lsn len) ->
  (forall lsn len, p = Reading lsn len -> page_arg lsn len /\ share_ok ps (bid lsn) /\
    xb_start_lsn (buf c (bid lsn)) = lsn /\ lsn + len - 1 <= xb_end_lsn (buf c (bid lsn))) ->
  xinv (mk_xstate c (<[k := p]> ps)).
Proof.
  intros HI Hk Hf0 Hf Hup Hrd. destruct HI as [H1 H2 H3 H4 H5 H6]. cbn [xs_bufs xs_procs] in *.
  assert (forall i, share_ok (<[k := p]> ps) i -> share_ok ps i) as Hback.
  { intros i Hs. rewrite <- (list_insert_id ps k p0 Hk), <- (list_insert_insert_eq ps k p0 p). apply share_insert; [done|apply Hf0]. }
  split; cbn [xs_bufs xs_procs]; [done|done| |..].
  - intros i Hi Hs. apply H3; [done|]. by apply Hback.
  - intros j lsn len Hj. apply list_lookup_insert_Some in Hj as [(<- & E & _)|[Hne Hj]].
    + destruct (Hrd lsn len E) as (A & B & C). split; [done|]. split; [apply share_insert; [done|apply Hf]|done].
    + destruct (H4 j lsn len Hj) as (A & B & C). split; [done|]. split; [apply share_insert; [done|apply Hf]|done].
  - intros j lsn len Hj. apply list_lookup_insert_Some in Hj as [(<- & E & _)|[Hne Hj]]; [by apply Hup|by apply (H5 j)].
  - intros j lsn len Hj. apply list_lookup_insert_Some in Hj as [(<- & E & _)|[Hne Hj]].
    + exfalso. specialize (Hf (bid lsn)). rewrite E in Hf. cbn in Hf. by rewrite Z.eqb_refl in Hf.
    + destruct (H6 j lsn len Hj) as (A & B & C). split; [done|]. split; [|done].
      rewrite list_insert_insert_ne by done. apply Forall_insert; [done|]. destruct p as [|l n|l n|l n]; [done| |done|].
      * cbn. apply Z.eqb_neq. intros E. destruct (Hrd l n eq_refl) as (_ & Hsh & _). rewrite E in Hsh.
        apply (lookup_ok _ j _ _ Hsh) in Hj. cbn in Hj. by rewrite Z.eqb_refl in Hj.
      * specialize (Hf (bid l)). cbn in Hf. by rewrite Z.eqb_refl in Hf.
Qed.

Lemma excl_not_held ps i (k : nat) p : excl_ok ps i -> ps !! k = Some p -> holds p i = false.
Proof. intros H Hk. exact (lookup_ok _ k _ _ H Hk). Qed.

Lemma inv_evict c ps (k : nat) lsn len :
  xinv (mk_xstate c ps) -> ps !! k = Some (Upgrading lsn len) -> excl_ok ps (bid lsn) ->
  xinv (mk_xstate (lookup_evict c lsn len) (<[k := Filling lsn len]> ps)).
Proof.
  intros HI Hk Hex. destruct HI as [H1 H2 H3 H4 H5 H6]. cbn [xs_bufs xs_procs] in *. pose proof (H5 k lsn len Hk) as Hpg.
  pose proof (buffer_id_range lsn) as Hr. unfold lookup_evict, set_xbuf. rewrite (page_end _ _ Hpg). set (b := mk_xbuf _ _ _).
  assert (forall i, buf (aset c (bid lsn) b) i = if decide (bid lsn = i) then b else buf c i) as Eb by (intros i; apply buf_aset; lia).
  assert (forall j p, j <> k -> (<[k := Filling lsn len]> ps) !! j = Some p -> ps !! j = Some p) as Hoth
    by (intros j p Hne Hj; by rewrite list_lookup_insert_ne in Hj).
  split; cbn [xs_bufs xs_procs].
  - by rewrite length_aset.
  - intros i Hi. rewrite Eb. destruct (decide _); [by apply H2|by apply H2].
  - intros i Hi Hs. rewrite Eb. destruct (decide (bid lsn = i)) as [<-|Hne].
    + assert (fills (Filling lsn len) (bid lsn) = false) as Hf; [|cbn in Hf; by rewrite Z.eqb_refl in Hf].
      apply (lookup_ok _ k _ _ Hs). apply list_lookup_insert_eq. by eapply lookup_lt_Some.
    + apply H3; [done|]. rewrite <- (list_insert_id ps k _ Hk), <- (list_insert_insert_eq ps k _ (Filling lsn len)). by apply share_insert.
  - intros j l n Hj. apply list_lookup_insert_Some in Hj as [(_ & E & _)|[Hne Hj]]; [done|].
    pose proof (excl_not_held _ _ _ _ Hex Hj) as Hno. cbn in Hno. zbool. rewrite Eb, decide_False by congruence.
    destruct (H4 j l n Hj) as (A & B & C). split; [done|]. split; [|done]. apply share_insert; [done|]. cbn. apply Z.eqb_neq. congruence.
  - intros j l n Hj. apply list_lookup_insert_Some in Hj as [(_ & E & _)|[Hne Hj]]; [done|]. by apply (H5 j).
  - intros j l n Hj. apply list_lookup_insert_Some in Hj as [(<- & [= <- <-] & _)|[Hne Hj]].
    + rewrite Eb, decide_True by done. split; [done|]. rewrite list_insert_insert_eq. split; [by apply insert_idle|done].
    + pose proof (excl_not_held _ _ _ _ Hex Hj) as Hno. cbn in Hno. zbool. rewrite Eb, decide_False by congruence.
      destruct (H6 j l n Hj) as (A & B & C). split; [done|]. split; [|done]. rewrite list_insert_insert_ne by done.
      apply Forall_insert; [done|]. cbn. apply Z.eqb_neq. congruence.
Qed.

Lemma copy_in_lookup page bytes (i : nat) : (i < length bytes)%nat -> copy_in page bytes !! i = bytes !! i.
Proof. intros Hi. unfold copy_in. by rewrite lookup_app_l. Qed.

Lemma wal_bytes_lookup lsn len i : 0 <= i < len -> wal_bytes lsn len !! Z.to_nat i = Some (wal (lsn + i)).
Proof.
  intros Hi. unfold wal_bytes. rewrite list_lookup_fmap, lookup_seqZ_lt by lia. cbn. do 2 f_equal. lia.
Qed.

Lemma length_wal_bytes lsn len : length (wal_bytes lsn len) = Z.to_nat len.
Proof. unfold wal_bytes. by rewrite length_map, length_seqZ. Qed.

Lemma inv_fill c ps (k : nat) lsn len :
  xinv (mk_xstate c ps) -> ps !! k = Some (Filling lsn len) -> xinv (mk_xstate (filled c lsn len) (<[k := Idle]> ps)).
Proof.
  intros HI Hk. destruct HI as [H1 H2 H3 H4 H5 H6]. cbn [xs_bufs xs_procs] in *. destruct (H6 k lsn len Hk) as (Hpg & Hex & Es & Ee).
  pose proof (buffer_id_range lsn) as Hr. unfold filled. set (b := mk_xbuf _ _ _).
  assert (forall i, buf (aset c (bid lsn) b) i = if decide (bid lsn = i) then b else buf c i) as Eb by (intros i; apply buf_aset; lia).
  pose proof Hpg as (_ & Hp1 & Hp2 & Hp3).
  assert (forall i, bid lsn <> i -> share_ok (<[k := Idle]> ps) i -> share_ok ps i) as Hback.
  { intros i Hne Hs. rewrite <- (list_insert_id ps k _ Hk), <- (list_insert_insert_eq ps k _ Idle). apply share_insert; [done|]. cbn. by apply Z.eqb_neq. }
  split; cbn [xs_bufs xs_procs].
  - by rewrite length_aset.
  - intros i Hi. rewrite Eb. destruct (decide _); [|by apply H2]. subst b. cbn [xb_page]. unfold copy_in.
    rewrite length_app, length_drop, H2 by lia. rewrite length_wal_bytes. unfold XLOG_BLCKSZ in *. lia.
  - intros i Hi Hs. rewrite Eb. destruct (decide (bid lsn = i)) as [<-|Hne]; [|apply H3; [done|by apply Hback]].
    intros _. subst b. cbn [xb_start_lsn xb_end_lsn xb_page]. rewrite Es, Ee. split; [lia|]. intros i Hi0 Hi1.
    rewrite copy_in_lookup by (rewrite length_wal_bytes; lia). apply wal_bytes_lookup. lia.
  - intros j l n Hj. apply list_lookup_insert_Some in Hj as [(_ & E & _)|[Hne Hj]]; [done|].
    assert ((<[k := Idle]> ps) !! j = Some (Reading l n)) as Hj' by (by rewrite list_lookup_insert_ne).
    pose proof (excl_not_held _ _ _ _ Hex Hj') as Hno. cbn in Hno. zbool. rewrite Eb, decide_False by congruence.
    destruct (H4 j l n Hj) as (A & B & C). split; [done|]. split; [by apply share_insert|done].
  - intros j l n Hj. apply list_lookup_insert_Some in Hj as [(_ & E & _)|[Hne Hj]]; [done|]. by apply (H5 j).
  - intros j l n Hj. apply list_lookup_insert_Some in Hj as [(_ & E & _)|[Hne Hj]]; [done|].
    assert ((<[k := Idle]> ps) !! j = Some (Filling l n)) as Hj' by (by rewrite list_lookup_insert_ne).
    pose proof (excl_not_held _ _ _ _ Hex Hj') as Hno. cbn in Hno. zbool. rewrite Eb, decide_False by congruence.
    destruct (H6 j l n Hj) as (A & B & C). split; [done|]. split; [|done]. rewrite list_insert_insert_ne by done. by apply insert_idle.
Qed.

Lemma coherent_empty b : xb_start_lsn b = InvalidXLogRecPtr -> coherent b.
Proof. intros E H. by destruct H. Qed.

Lemma xinv_init n : xinv (xinit n).
Proof.
  assert (forall i, buf polar_init_xlog_buffer i = empty_xbuf) as Eb by (intros i; apply aget_replicate).
  split; cbn [xs_bufs xs_procs xinit].
  - unfold polar_init_xlog_buffer. rewrite length_replicate. lia.
  - intros i _. rewrite Eb. apply length_replicate.
  - intros i _ _. rewrite Eb. by apply coherent_empty.
  - intros k lsn len Hk. by apply lookup_replicate in Hk as [? _].
  - intros k lsn len Hk. by apply lookup_replicate in Hk as [? _].
  - intros k lsn len Hk. by apply lookup_replicate in Hk as [? _].
Qed.

Lemma inv_meta c ps k start_lsn end_lsn :
  xinv (mk_xstate c ps) -> 0 <= k < block_count -> excl_ok ps k ->
  start_lsn = 0 \/ start_lsn = xb_start_lsn (buf c k) /\ end_lsn <= xb_end_lsn (buf c k) ->
  xinv (mk_xstate (set_xbuf c k start_lsn end_lsn) ps).
Proof.
  intros HI Hk Hex Hm. apply inv_free_buf; [done|done|done|by apply (xi_page _ HI)|]. destruct Hm as [->|[-> He]]; [by apply coherent_empty|].
  intros Hne. destruct (xi_buf _ HI k Hk (excl_share _ _ Hex) Hne) as [Hlt Hpg]. cbn [xb_start_lsn xb_end_lsn xb_page xs_bufs] in *.
  split; [lia|]. intros i H0 Hi. apply Hpg; lia.
Qed.

Lemma xstep_inv st st' : xinv st -> xstep st st' -> xinv st'.
Proof.
  intros HI Hs. revert HI.
  destruct Hs as [c ps i lsn len ev Hpg Hi Hsh|c ps i lsn len Hi Hex|c ps i lsn len Hi|c ps i lsn len Hi|c ps lsn Hl Hex|c ps lsn Hl Hex|c ps k Hk Hex]; intros HI.
  - eapply inv_proc; [done|exact Hi|done|by destruct (lookup_check _ _ _ _)|..]; intros l n E; destruct (lookup_check c lsn len ev) eqn:Ec; try done.
    { by injection E as <- <-. }
    injection E as <- <-. unfold lookup_check in Ec. rewrite (page_end _ _ Hpg) in Ec.
    destruct (_ && _) eqn:E2 in Ec; [|by destruct (_ || _) in Ec]. apply andb_prop in E2 as [E1 E2]. zbool. split; [done|]. split; [done|]. split; [done|lia].
  - by apply inv_evict.
  - by apply inv_fill.
  - eapply inv_proc; [done|exact Hi|done..].
  - unfold polar_xlog_buffer_update. destruct (_ && _) eqn:E; [|done]. apply andb_prop in E as [E1 E2]. zbool.
    apply inv_meta; [done|apply buffer_id_range|done|]. right. split; [done|lia].
  - unfold polar_xlog_buffer_remove. destruct (_ =? _); [|done]. apply inv_meta; [done|apply buffer_id_range|done|by left].
  - apply inv_meta; [done|done|done|by left].
Qed.

(** C21: a hit gives the bytes of the WAL.  However the lookups, evictions,
    copies and invalidations of several processes interleave, whenever a
    lookup of [len] bytes of a page matched and its caller holds the shared
    lock, the first [len] bytes of the buffer are those of the WAL at that
    position, and nobody is writing to the buffer. *)
Theorem xlog_buffer_hit_reads_wal n st (k : nat) lsn len :
  rtc xstep (xinit n) st -> xs_procs st !! k = Some (Reading lsn len) ->
  take (Z.to_nat len) (xb_page (polar_get_xlog_buffer_desc (xs_bufs st) (polar_get_xlog_buffer_id lsn))) = wal_bytes lsn len /\
  share_ok (xs_procs st) (polar_get_xlog_buffer_id lsn).
Proof.
  intros Hreach Hk. assert (xinv st) as HI.
  { revert Hreach. apply (rtc_ind_r (fun s => xinv s)); [apply xinv_init|]. intros y z _ Hs HI. by eapply xstep_inv. }
  destruct (xi_read _ HI k lsn len Hk) as ((_ & Hp1 & _ & Hp2) & Hsh & Es & Ee). split; [|done].
  destruct (xi_buf _ HI (bid lsn) (buffer_id_range lsn) Hsh) as [_ Hpg]; [rewrite Es; lia|]. rewrite Es in Hpg.
  apply list_eq. intros i. destruct (decide (i < Z.to_nat len)%nat) as [Hlt|Hge].
  - rewrite lookup_take_lt by done. rewrite <- (Nat2Z.id i). rewrite Hpg, wal_bytes_lookup by lia. done.
  - rewrite lookup_take_ge by lia. symmetry. apply lookup_ge_None_2. rewrite length_wal_bytes. lia.
Qed.

(** A page that was removed is not found until it is copied in again, and of
    a page that was cut nothing after the cut is found. *)
Lemma removed_not_matched c lsn pos len ev :
  Z.of_nat (length c) = block_count -> page_arg lsn len -> 0 <= pos -> pos - pos mod XLOG_BLCKSZ = lsn ->
  lookup_check (polar_xlog_buffer_remove c pos) lsn len ev <> Matched.
Proof.
  intros Hlen Hpg Hpos Epg. pose proof Hpg as (_ & H0 & _). unfold polar_xlog_buffer_remove. rewrite Epg.
  assert (bid pos = bid lsn) as ->.
  { unfold polar_get_xlog_buffer_id. f_equal. rewrite <- Epg. unfold XLOG_BLCKSZ. mlia. }
  unfold lookup_check. pose proof (buffer_id_range lsn) as Hr. destruct (xb_start_lsn (buf c (bid lsn)) =? lsn) eqn:E.
  - unfold set_xbuf. rewrite buf_aset, decide_True by (done || lia). cbn [xb_start_lsn]. unfold InvalidXLogRecPtr.
    destruct (0 =? lsn) eqn:E0; zbool; [lia|]. cbn [andb]. by destruct (_ || _).
  - rewrite E. cbn [andb]. by destruct (_ || _).
Qed.

(** the meta data of a page is set before its bytes are there.  When a
    process fails between the eviction of a buffer and the copying of the
    page (reading the WAL file raises an error, which releases the lock), the
    next lookup of the page matches, and the buffer still has the bytes of
    the page that was evicted. *)
Theorem failed_read_leaves_hit c lsn len doEvict doEvict' :
  Z.of_nat (length c) = block_count -> page_arg lsn len -> lookup_check c lsn len doEvict = Evicting ->
  let c' := lookup_evict c lsn len in
  lookup_check c' lsn len doEvict' = Matched /\
  xb_page (polar_get_xlog_buffer_desc c' (polar_get_xlog_buffer_id lsn)) = xb_page (polar_get_xlog_buffer_desc c (polar_get_xlog_buffer_id lsn)).
Proof.
  intros Hlen Hpg _ c'. pose proof (buffer_id_range lsn) as Hr. unfold c', lookup_evict, set_xbuf, lookup_check.
  rewrite !buf_aset, !decide_True by (done || lia). cbn [xb_start_lsn xb_end_lsn xb_page]. rewrite Z.eqb_refl, Z.geb_leb, Z.leb_refl. done.
Qed.
End xlogbuf.

(** ** One page *)

Definition demo_wal (lsn : Z) : Z := lsn mod 256.

Lemma demo_blocks : 0 < block_count 1.
Proof. by vm_compute. Qed.

Lemma xlog_buffer_hit_witness :
  exists st, rtc (xstep 1 demo_wal) (xinit 1 1) st /\ xs_procs st !! 0%nat = Some (Reading 16384 100) /\
    take 100 (xb_page (polar_get_xlog_buffer_desc (xs_bufs st) (polar_get_xlog_buffer_id 1 16384))) = wal_bytes demo_wal 16384 100 /\
    share_ok 1 (xs_procs st) (polar_get_xlog_buffer_id 1 16384).
Proof.
  set (c0 := polar_init_xlog_buffer 1). set (c1 := lookup_evict 1 c0 16384 100). set (c2 := filled 1 demo_wal c1 16384 100).
  assert (page_arg 16384 100) as Hpg by (vm_compute; repeat split; congruence).
  assert (rtc (xstep 1 demo_wal) (xinit 1 1) (mk_xstate c2 [Reading 16384 100])) as Hreach.
  { eapply rtc_l; [apply (step_lookup 1 demo_wal c0 [Idle] 0 16384 100 true); [done|done|repeat constructor]|].
    replace (lookup_check 1 c0 16384 100 true) with Evicting by (vm_compute; reflexivity).
    eapply rtc_l; [apply (step_evict 1 demo_wal c0 _ 0 16384 100); [done|repeat constructor]|].
    eapply rtc_l; [apply (step_fill 1 demo_wal c1 _ 0 16384 100); done|].
    eapply rtc_l; [apply (step_lookup 1 demo_wal c2 _ 0 16384 100 true); [done|done|repeat constructor]|].
    replace (lookup_check 1 c2 16384 100 true) with Matched by (vm_compute; reflexivity). apply rtc_refl. }
  eexists. split; [exact Hreach|]. split; [reflexivity|].
  apply (xlog_buffer_hit_reads_wal 1 demo_wal demo_blocks 1 _ 0 16384 100 Hreach). reflexivity.
Defined.

Lemma failed_read_leaves_hit_witness :
  lookup_check 1 (lookup_evict 1 (polar_init_xlog_buffer 1) 16384 100) 16384 100 true = Matched /\
  xb_page (polar_get_xlog_buffer_desc (lookup_evict 1 (polar_init_xlog_buffer 1) 16384 100) (polar_get_xlog_buffer_id 1 16384)) =
    xb_page (polar_get_xlog_buffer_desc (polar_init_xlog_buffer 1) (polar_get_xlog_buffer_id 1 16384)).
Proof.
  apply (failed_read_leaves_hit 1 demo_blocks (polar_init_xlog_buffer 1) 16384 100 true true);
    [reflexivity|vm_compute; repeat split; congruence|vm_compute; reflexivity].
Defined.
