(* ===== verification/BufTag.v ===== *)
(** * Page tags (buf_internals.h)

    A tag names a page: tablespace, database, relation file, fork and block
    number.  [INIT_BUFFERTAG] copies the fields; tags are compared field by
    field. *)

From S2P Require Import Prelude.

Record BufferTag := mk_tag { spcOid : Z; dbOid : Z; relNumber : Z; tag_fork : Z; blockNum : Z }.

#[export] Instance BufferTag_eq_dec : EqDecision BufferTag.
Proof. solve_decision. Defined.

Definition BUFFERTAGS_EQUAL (a b : BufferTag) : bool := bool_decide (a = b).

(** The bytes of a 32-bit word, and of a tag, in memory (little endian). *)
Definition word_bytes (w : Z) : list Z := [w mod 256; w / 256 mod 256; w / 65536 mod 256; w / 16777216 mod 256].

Definition tag_bytes (tag : BufferTag) : list Z :=
  word_bytes (spcOid tag) ++ word_bytes (dbOid tag) ++ word_bytes (relNumber tag) ++ word_bytes (tag_fork tag) ++
  word_bytes (blockNum tag).
