(* ===== verification/FlogList.v ===== *)
(** * The list of the flashback log (polar_flashback/polar_flashback_log_list.c)

    Before a page is changed for the first time after a flashback point its
    original must go to the flashback log.  The buffer is put in a list and
    a background worker inserts the records in the order of the list; a
    process that writes the buffer to disk inserts its record itself.  The
    original page is read from disk, unless it was kept in one of 128
    _origin buffers_ with a bitmap of their use.

    The control block and the buffer headers are the state; the flashback
    log is the list of the records inserted, whose end [rec_end] computes;
    how they are laid out there is not modelled.
    [page_on_disk] is what the storage manager reads, [None] beyond the end
    of the relation.  [local_fbpoint] is the static variable of
    [polar_get_local_fbpoint_lsn].  Each function is one step unless said
    otherwise, so a compare-and-exchange succeeds; [waited] is the answer of
    the waiting loop, false on a timeout. *)

From S2P Require Import Prelude Dll BufTag.

Definition NOT_IN_FLOG_LIST : Z := -1.
Definition INVAILD_ORIGIN_BUF_INDEX : Z := -1.
Definition INVAILD_ORIGIN_BUF_ARRAY : Z := -1.
Definition POLAR_INVALID_FLOG_REC_PTR : Z := 0.
Definition FLOG_LIST_SLOT_EMPTY : Z := 0.
Definition FLOG_LIST_SLOT_READY : Z := 1.
Definition FLOG_LIST_SLOT_CANDIDATE : Z := 2.
Definition POLAR_ORIGIN_PAGE_BUF_NUM_PER_ARRAY : Z := 32.
Definition POLAR_ORIGIN_PAGE_BUF_BIT_MASK : Z := 31.
Definition POLAR_ORIGIN_PAGE_BUF_ARRAY_NUM : Z := 4.
Definition POLAR_ORIGIN_PAGE_BUF_NUM : Z := POLAR_ORIGIN_PAGE_BUF_NUM_PER_ARRAY * POLAR_ORIGIN_PAGE_BUF_ARRAY_NUM.
Definition POLAR_BUF_IN_FLOG_LIST : Z := 2 ^ 31.
Definition POLAR_BUF_INSERTING_FLOG : Z := 2 ^ 30.
Definition POLAR_BUF_FLOG_DISABLE : Z := 2 ^ 29.

Definition GET_ORIGIN_BUF_INDEX (index : Z) : Z := Z.land index POLAR_ORIGIN_PAGE_BUF_BIT_MASK.
Definition GET_ORIGIN_BUF_ARRAY_ID (index : Z) : Z := index / POLAR_ORIGIN_PAGE_BUF_NUM_PER_ARRAY.

Record flog_list_slot := mk_slot {
  sl_prev_buf : Z;
  sl_next_buf : Z;
  sl_redo_lsn : Z;
  sl_fbpoint_lsn : Z;
  sl_flashback_ptr : Z;
  sl_info : Z;
  sl_origin_buf_index : Z
}.

Definition zero_page : list Z := replicate (Z.to_nat 8192) 0.
Definition clear_tag : BufferTag := mk_tag 0 0 0 (-1) (2 ^ 32 - 1).
Definition free_slot : flog_list_slot := mk_slot NOT_IN_FLOG_LIST NOT_IN_FLOG_LIST 0 0 0 0 INVAILD_ORIGIN_BUF_INDEX.

Record flog_list_ctl_data_t := mk_flog_ctl {
  fl_head : Z;
  fl_tail : Z;
  fl_flashback_list : list flog_list_slot;
  fl_origin_buf : list (list Z);
  fl_buf_tag : list BufferTag;
  fl_origin_buf_bitmap : list Z;
  fl_insert_total_num : Z;
  fl_remove_total_num : Z;
  fl_bg_remove_num : Z
}.

(** The part of a buffer header that matters here, with its page. *)
Record flog_buf := mk_fbuf {
  fb_tag : BufferTag;
  fb_redo_state : Z;
  fb_page : list Z
}.
Definition no_fbuf : flog_buf := mk_fbuf clear_tag 0 zero_page.

(** [PageGetLSN]: two little-endian words, the high one first. *)
Definition page_uint32 (page : list Z) (off : Z) : Z :=
  aget 0 page off + 2 ^ 8 * aget 0 page (off + 1) + 2 ^ 16 * aget 0 page (off + 2) + 2 ^ 24 * aget 0 page (off + 3).
Definition PageGetLSN (page : list Z) : Z := Z.lor (Z.shiftl (page_uint32 page 0) 32) (page_uint32 page 4).
Definition BufferGetLSN (b : flog_buf) : Z := PageGetLSN (fb_page b).

(** What [polar_insert_buf_flog_rec] is given; a record of the log. *)
Record flog_rec := mk_rec {
  rc_tag : BufferTag;
  rc_redo_lsn : Z;
  rc_fbpoint_lsn : Z;
  rc_info : Z;
  rc_origin_page : list Z;
  rc_from_origin_buf : bool
}.

Record flog_state := mk_flog {
  ft_ctl : flog_list_ctl_data_t;
  ft_bufs : list flog_buf;
  ft_log : list flog_rec
}.

Definition slot (c : flog_list_ctl_data_t) (buf_id : Z) : flog_list_slot := aget free_slot (fl_flashback_list c) buf_id.
Definition set_slot (c : flog_list_ctl_data_t) (buf_id : Z) (sl : flog_list_slot) : flog_list_ctl_data_t :=
  mk_flog_ctl (fl_head c) (fl_tail c) (aset (fl_flashback_list c) buf_id sl) (fl_origin_buf c) (fl_buf_tag c) (fl_origin_buf_bitmap c)
    (fl_insert_total_num c) (fl_remove_total_num c) (fl_bg_remove_num c).
Definition set_ends (c : flog_list_ctl_data_t) (head tail : Z) : flog_list_ctl_data_t :=
  mk_flog_ctl head tail (fl_flashback_list c) (fl_origin_buf c) (fl_buf_tag c) (fl_origin_buf_bitmap c)
    (fl_insert_total_num c) (fl_remove_total_num c) (fl_bg_remove_num c).
Definition set_origin (c : flog_list_ctl_data_t) (index : Z) (page : list Z) (tag : BufferTag) (array_id word : Z) : flog_list_ctl_data_t :=
  mk_flog_ctl (fl_head c) (fl_tail c) (fl_flashback_list c) (aset (fl_origin_buf c) index page) (aset (fl_buf_tag c) index tag)
    (aset (fl_origin_buf_bitmap c) array_id word) (fl_insert_total_num c) (fl_remove_total_num c) (fl_bg_remove_num c).
Definition set_counts (c : flog_list_ctl_data_t) (ins rem bg : Z) : flog_list_ctl_data_t :=
  mk_flog_ctl (fl_head c) (fl_tail c) (fl_flashback_list c) (fl_origin_buf c) (fl_buf_tag c) (fl_origin_buf_bitmap c) ins rem bg.

Definition sl_set_links (sl : flog_list_slot) (prev next : Z) : flog_list_slot :=
  mk_slot prev next (sl_redo_lsn sl) (sl_fbpoint_lsn sl) (sl_flashback_ptr sl) (sl_info sl) (sl_origin_buf_index sl).
Definition sl_set_data (sl : flog_list_slot) (redo fbpoint info : Z) : flog_list_slot :=
  mk_slot (sl_prev_buf sl) (sl_next_buf sl) redo fbpoint (sl_flashback_ptr sl) info (sl_origin_buf_index sl).
Definition sl_set_origin (sl : flog_list_slot) (index : Z) : flog_list_slot :=
  mk_slot (sl_prev_buf sl) (sl_next_buf sl) (sl_redo_lsn sl) (sl_fbpoint_lsn sl) (sl_flashback_ptr sl) (sl_info sl) index.
Definition sl_set_ptr (sl : flog_list_slot) (ptr : Z) : flog_list_slot :=
  mk_slot (sl_prev_buf sl) (sl_next_buf sl) (sl_redo_lsn sl) (sl_fbpoint_lsn sl) ptr (sl_info sl) (sl_origin_buf_index sl).

Definition fbuf (st : flog_state) (buf_id : Z) : flog_buf := aget no_fbuf (ft_bufs st) buf_id.
Definition put_flog_ctl (st : flog_state) (c : flog_list_ctl_data_t) : flog_state := mk_flog c (ft_bufs st) (ft_log st).
Definition put_redo_state (st : flog_state) (buf_id state : Z) : flog_state :=
  let b := fbuf st buf_id in
  mk_flog (ft_ctl st) (aset (ft_bufs st) buf_id (mk_fbuf (fb_tag b) state (fb_page b))) (ft_log st).

Definition has_state (state flag : Z) : bool := negb (Z.land state flag =? 0).
Definition POLAR_CHECK_BUF_FLOG_STATE (st : flog_state) (buf_id flag : Z) : bool := has_state (fb_redo_state (fbuf st buf_id)) flag.
Definition clean_buf_flog_state (st : flog_state) (buf_id flag : Z) : flog_state :=
  put_redo_state st buf_id (Z.ldiff (fb_redo_state (fbuf st buf_id)) flag).

(** ** Origin buffers *)

Definition polar_clean_origin_buf_bit (c : flog_list_ctl_data_t) (buf_id origin_buf_index : Z) : flog_list_ctl_data_t :=
  let array_id := GET_ORIGIN_BUF_ARRAY_ID origin_buf_index in
  let bit_index := GET_ORIGIN_BUF_INDEX origin_buf_index in
  let word := Z.ldiff (aget 0 (fl_origin_buf_bitmap c) array_id) (Z.shiftl 1 bit_index) in
  let c := set_origin c origin_buf_index zero_page clear_tag array_id word in
  set_slot c buf_id (sl_set_origin (slot c buf_id) INVAILD_ORIGIN_BUF_INDEX).

(** The bits of one word, from bit [n] on. *)
Fixpoint free_bit_loop (fuel : nat) (word n : Z) : option Z :=
  match fuel with
  | O => None
  | S k => if Z.land (Z.shiftr word n) 1 =? 0 then Some n else free_bit_loop k word (n + 1)
  end.

Definition next_array (array_id : Z) : Z := if array_id =? POLAR_ORIGIN_PAGE_BUF_ARRAY_NUM - 1 then 0 else array_id + 1.

(** The words, each at most once; the index, the bitmap and [array_id] left. *)
Fixpoint free_origin_loop (fuel : nat) (bitmap : list Z) (array_id : Z) : Z * list Z * Z :=
  match fuel with
  | O => (INVAILD_ORIGIN_BUF_INDEX, bitmap, array_id)
  | S k =>
    let word := aget 0 bitmap array_id in
    if word =? 0xFFFFFFFF then free_origin_loop k bitmap (next_array array_id)
    else
      match free_bit_loop 32 word 0 with
      | Some n => (array_id * POLAR_ORIGIN_PAGE_BUF_NUM_PER_ARRAY + n, aset bitmap array_id (Z.lor word (Z.shiftl 1 n)), array_id)
      | None => free_origin_loop k bitmap (next_array array_id)
      end
  end.

Definition get_a_free_origin_buf (c : flog_list_ctl_data_t) (pgprocno array_id : Z) : Z * list Z * Z :=
  let array_id := if array_id =? INVAILD_ORIGIN_BUF_ARRAY then pgprocno mod POLAR_ORIGIN_PAGE_BUF_ARRAY_NUM else array_id in
  free_origin_loop (Z.to_nat POLAR_ORIGIN_PAGE_BUF_ARRAY_NUM) (fl_origin_buf_bitmap c) array_id.

Definition set_bitmap (c : flog_list_ctl_data_t) (bitmap : list Z) : flog_list_ctl_data_t :=
  mk_flog_ctl (fl_head c) (fl_tail c) (fl_flashback_list c) (fl_origin_buf c) (fl_buf_tag c) bitmap
    (fl_insert_total_num c) (fl_remove_total_num c) (fl_bg_remove_num c).

(** The index, and [array_id]. *)
Definition polar_add_origin_buf (st : flog_state) (buf_id pgprocno array_id : Z) : flog_state * Z * Z :=
  let c := ft_ctl st in
  let b := fbuf st buf_id in
  let '(buf_index, bitmap, array_id) := get_a_free_origin_buf c pgprocno array_id in
  let c := set_bitmap c bitmap in
  if negb (buf_index =? INVAILD_ORIGIN_BUF_INDEX) then
    if POLAR_CHECK_BUF_FLOG_STATE st buf_id POLAR_BUF_IN_FLOG_LIST then (put_flog_ctl st c, INVAILD_ORIGIN_BUF_INDEX, array_id)
    else
      let id := GET_ORIGIN_BUF_ARRAY_ID buf_index in
      let c := set_origin c buf_index (fb_page b) (fb_tag b) id (aget 0 bitmap id) in
      (put_flog_ctl st (set_slot c buf_id (sl_set_origin (slot c buf_id) buf_index)), buf_index, array_id)
  else (put_flog_ctl st c, INVAILD_ORIGIN_BUF_INDEX, array_id).

(** ** The list *)

Definition polar_get_local_fbpoint_lsn (local_fbpoint curr_fbpoint page_lsn redo_lsn : Z) : Z :=
  if negb (redo_lsn =? InvalidXLogRecPtr) then redo_lsn
  else if (local_fbpoint =? InvalidXLogRecPtr) || (page_lsn >? local_fbpoint) then curr_fbpoint
  else local_fbpoint.

(** An index outside the array is a write to other memory. *)
Definition in_list (c : flog_list_ctl_data_t) (buf_id : Z) : bool := (0 <=? buf_id) && (buf_id <? Z.of_nat (length (fl_flashback_list c))).
Definition store_next (c : flog_list_ctl_data_t) (buf_id next : Z) : outcome flog_list_ctl_data_t :=
  if in_list c buf_id then Done (set_slot c buf_id (sl_set_links (slot c buf_id) (sl_prev_buf (slot c buf_id)) next)) else Fault UNDEFINED.
Definition store_prev (c : flog_list_ctl_data_t) (buf_id prev : Z) : outcome flog_list_ctl_data_t :=
  if in_list c buf_id then Done (set_slot c buf_id (sl_set_links (slot c buf_id) prev (sl_next_buf (slot c buf_id)))) else Fault UNDEFINED.

(** The parts under the spin lock. *)
Definition link_tail (c : flog_list_ctl_data_t) (buf_id : Z) : outcome flog_list_ctl_data_t :=
  let prev := fl_tail c in
  let c := set_slot c buf_id (sl_set_links (slot c buf_id) prev NOT_IN_FLOG_LIST) in
  let! c := (if prev =? NOT_IN_FLOG_LIST then Done (set_ends c buf_id (fl_tail c)) else store_next c prev buf_id) in
  Done (set_ends c (fl_head c) buf_id).

Definition unlink (c : flog_list_ctl_data_t) (buf_id : Z) : outcome flog_list_ctl_data_t :=
  let prev := sl_prev_buf (slot c buf_id) in
  let next := sl_next_buf (slot c buf_id) in
  let! c := (if fl_head c =? buf_id then Done (set_ends c next (fl_tail c)) else store_next c prev next) in
  if fl_tail c =? buf_id then Done (set_ends c (fl_head c) prev) else store_prev c next prev.

Section flog.
Context (page_on_disk : BufferTag -> option (list Z)) (rec_end : list flog_rec -> Z).

(** [redo_lsn] and [curr_fbpoint] are of the control block of the log; also
    gives the static variable. *)
Definition add_buf_to_list (st : flog_state) (buf_id info redo_lsn curr_fbpoint local_fbpoint : Z) : outcome (flog_state * Z) :=
  let c := ft_ctl st in
  let local := polar_get_local_fbpoint_lsn local_fbpoint curr_fbpoint InvalidXLogRecPtr InvalidXLogRecPtr in
  let c := set_slot c buf_id (sl_set_data (slot c buf_id) redo_lsn local (Z.lor (sl_info (slot c buf_id)) info)) in
  let index := sl_origin_buf_index (slot c buf_id) in
  let c := if negb (index =? INVAILD_ORIGIN_BUF_INDEX) && negb (BUFFERTAGS_EQUAL (fb_tag (fbuf st buf_id)) (aget clear_tag (fl_buf_tag c) index))
           then polar_clean_origin_buf_bit c buf_id index else c in
  let! c := link_tail c buf_id in
  Done (put_flog_ctl st (set_counts c (u64 (fl_insert_total_num c + 1)) (fl_remove_total_num c) (fl_bg_remove_num c)), local).

Definition remove_buf_from_list (c : flog_list_ctl_data_t) (buf_id : Z) : outcome flog_list_ctl_data_t :=
  let c := set_slot c buf_id (sl_set_data (slot c buf_id) InvalidXLogRecPtr (sl_fbpoint_lsn (slot c buf_id)) FLOG_LIST_SLOT_EMPTY) in
  let! c := unlink c buf_id in
  let c := set_slot c buf_id (sl_set_links (slot c buf_id) NOT_IN_FLOG_LIST NOT_IN_FLOG_LIST) in
  Done (set_counts c (fl_insert_total_num c) (u64 (fl_remove_total_num c + 1)) (fl_bg_remove_num c)).

Definition set_buf_in_list (st : flog_state) (buf_id : Z) : flog_state * bool :=
  let state := fb_redo_state (fbuf st buf_id) in
  if has_state state POLAR_BUF_IN_FLOG_LIST then (st, false) else (put_redo_state st buf_id (Z.lor state POLAR_BUF_IN_FLOG_LIST), true).

(** The result and [inserting_already]. *)
Definition set_buf_inserting_log (st : flog_state) (buf_id : Z) : flog_state * bool * bool :=
  let state := fb_redo_state (fbuf st buf_id) in
  if has_state state POLAR_BUF_INSERTING_FLOG then (st, false, true)
  else if has_state state POLAR_BUF_IN_FLOG_LIST then (put_redo_state st buf_id (Z.lor state POLAR_BUF_INSERTING_FLOG), true, false)
  else (st, false, false).

Definition get_flog_list_head_with_lock (c : flog_list_ctl_data_t) : Z := fl_head c.

Definition read_origin_page_from_file (tag : BufferTag) : list Z :=
  match page_on_disk tag with Some page => page | None => zero_page end.

(** A candidate whose original is newer than the flashback point gives no
    record.  The pointer is the end of the record. *)
Definition polar_insert_buf_flog_rec (log : list flog_rec) (r : flog_rec) : list flog_rec * Z :=
  if negb (Z.land (rc_info r) FLOG_LIST_SLOT_CANDIDATE =? 0) && (PageGetLSN (rc_origin_page r) >? rc_fbpoint_lsn r)
  then (log, POLAR_INVALID_FLOG_REC_PTR)
  else (log ++ [r], rec_end (log ++ [r])).

(** The part after the buffer was marked as being inserted. *)
Definition insert_buf_flog (st : flog_state) (buf_id : Z) (is_background invalidate : bool) : outcome flog_state :=
  let sl := slot (ft_ctl st) buf_id in
  let index := sl_origin_buf_index sl in
  let! c := remove_buf_from_list (ft_ctl st) buf_id in
  let st := put_flog_ctl st c in
  let tag := fb_tag (fbuf st buf_id) in
  let st := if negb invalidate then
              let from_origin := negb (index =? INVAILD_ORIGIN_BUF_INDEX) in
              let page := if from_origin then aget zero_page (fl_origin_buf c) index else read_origin_page_from_file tag in
              let '(log, ptr) := polar_insert_buf_flog_rec (ft_log st) (mk_rec tag (sl_redo_lsn sl) (sl_fbpoint_lsn sl) (sl_info sl) page from_origin) in
              mk_flog (set_slot c buf_id (sl_set_ptr (slot c buf_id) ptr)) (ft_bufs st) log
            else st in
  let st := if negb (index =? INVAILD_ORIGIN_BUF_INDEX) then put_flog_ctl st (polar_clean_origin_buf_bit (ft_ctl st) buf_id index) else st in
  let st := clean_buf_flog_state st buf_id (Z.lor POLAR_BUF_IN_FLOG_LIST POLAR_BUF_INSERTING_FLOG) in
  let c := ft_ctl st in
  Done (if is_background then put_flog_ctl st (set_counts c (fl_insert_total_num c) (fl_remove_total_num c) (u64 (fl_bg_remove_num c + 1))) else st).

Definition polar_process_buf_flog_list (st : flog_state) (buf_id : Z) (is_background invalidate waited : bool) : outcome (flog_state * bool) :=
  let '(st, mine, inserting_already) := set_buf_inserting_log st buf_id in
  if (mine : bool) then let! st := insert_buf_flog st buf_id is_background invalidate in Done (st, true)
  else if (inserting_already : bool) then
    if negb is_background && negb waited then Fault ERROR else Done (st, true)
  else Done (st, false).

Definition polar_push_buf_to_flog_list (st : flog_state) (buf redo_lsn curr_fbpoint local_fbpoint : Z) (is_candidate : bool)
  : outcome (flog_state * Z) :=
  let buf_id := buf - 1 in
  let '(st, new) := set_buf_in_list st buf_id in
  if (new : bool) then
    let st := if POLAR_CHECK_BUF_FLOG_STATE st buf_id POLAR_BUF_FLOG_DISABLE then clean_buf_flog_state st buf_id POLAR_BUF_FLOG_DISABLE else st in
    let info := if is_candidate || (BufferGetLSN (fbuf st buf_id) =? InvalidXLogRecPtr)
                then Z.lor FLOG_LIST_SLOT_READY FLOG_LIST_SLOT_CANDIDATE else FLOG_LIST_SLOT_READY in
    add_buf_to_list st buf_id info redo_lsn curr_fbpoint local_fbpoint
  else Done (st, local_fbpoint).

(** The head of the list is read first; another process may come between. *)
Definition process_head (st : flog_state) (buf : Z) : outcome flog_state :=
  if buf =? NOT_IN_FLOG_LIST then Done st
  else
    let! (st, ok) := polar_process_buf_flog_list st buf true false true in
    if negb ok && (buf =? get_flog_list_head_with_lock (ft_ctl st)) then Fault PANIC else Done st.

Definition polar_process_flog_list_bg (st : flog_state) : outcome flog_state :=
  process_head st (get_flog_list_head_with_lock (ft_ctl st)).

(** The pointer that [polar_flog_flush] is called with is returned; what
    the flush does is in [FlogBufTheorems]. *)
Definition polar_flush_buf_flog (st : flog_state) (buf_id : Z) (is_invalidate : bool) : flog_state * option Z :=
  let c := ft_ctl st in
  let ptr := sl_flashback_ptr (slot c buf_id) in
  if negb (ptr =? POLAR_INVALID_FLOG_REC_PTR) then
    (put_flog_ctl st (set_slot c buf_id (sl_set_ptr (slot c buf_id) POLAR_INVALID_FLOG_REC_PTR)), if negb is_invalidate then Some ptr else None)
  else (st, None).

(** The flashback log is enabled. *)
Definition polar_flush_buf_flog_rec (st : flog_state) (buf_id : Z) (invalidate waited : bool) : outcome (flog_state * option Z) :=
  let! st := (if POLAR_CHECK_BUF_FLOG_STATE st buf_id POLAR_BUF_IN_FLOG_LIST
              then let! (st, _) := polar_process_buf_flog_list st buf_id false invalidate waited in Done st else Done st) in
  Done (polar_flush_buf_flog st buf_id invalidate).

Definition polar_flog_insert (st : flog_state) (buf redo_lsn curr_fbpoint local_fbpoint pgprocno array_id : Z) (is_candidate is_recovery : bool)
  : outcome (flog_state * Z * Z) :=
  let '(st, array_id) := (if is_recovery then let '(st, _, a) := polar_add_origin_buf st (buf - 1) pgprocno array_id in (st, a) else (st, array_id)) in
  let! (st, local) := polar_push_buf_to_flog_list st buf redo_lsn curr_fbpoint local_fbpoint is_candidate in
  Done (st, local, array_id).
End flog.

Definition polar_flog_list_init_data (NBuffers : nat) : flog_list_ctl_data_t :=
  mk_flog_ctl NOT_IN_FLOG_LIST NOT_IN_FLOG_LIST (replicate NBuffers free_slot) (replicate (Z.to_nat POLAR_ORIGIN_PAGE_BUF_NUM) zero_page)
    (replicate (Z.to_nat POLAR_ORIGIN_PAGE_BUF_NUM) (mk_tag 0 0 0 0 0)) (replicate (Z.to_nat POLAR_ORIGIN_PAGE_BUF_ARRAY_NUM) 0) 0 0 0.

(** ** The list as a list of buffers *)

Definition flinks (c : flog_list_ctl_data_t) (j : Z) : Z * Z := (sl_prev_buf (slot c j), sl_next_buf (slot c j)).
Definition NBuf (c : flog_list_ctl_data_t) : Z := Z.of_nat (length (fl_flashback_list c)).

Record flog_list (c : flog_list_ctl_data_t) (q : list Z) : Prop := {
  lw_range : forall i, i ∈ q -> 0 <= i < NBuf c;
  lw_nodup : NoDup q;
  lw_head : fl_head c = hd_or NOT_IN_FLOG_LIST q;
  lw_tail : fl_tail c = last_or NOT_IN_FLOG_LIST q;
  lw_seg : seg (flinks c) NOT_IN_FLOG_LIST q NOT_IN_FLOG_LIST
}.

(** Everything but the links, the ends and the counters. *)
Definition same_data (c c' : flog_list_ctl_data_t) : Prop :=
  NBuf c' = NBuf c /\ fl_origin_buf c' = fl_origin_buf c /\ fl_buf_tag c' = fl_buf_tag c /\ fl_origin_buf_bitmap c' = fl_origin_buf_bitmap c /\
  forall j, sl_set_links (slot c' j) 0 0 = sl_set_links (slot c j) 0 0.

Lemma slot_set c i sl j : 0 <= i < NBuf c -> slot (set_slot c i sl) j = if decide (i = j) then sl else slot c j.
Proof. apply aget_aset. Qed.

Lemma NBuf_set c i sl : NBuf (set_slot c i sl) = NBuf c.
Proof. unfold NBuf, set_slot. cbn. by rewrite length_aset. Qed.

Lemma set_links_twice sl a b : sl_set_links (sl_set_links sl a b) 0 0 = sl_set_links sl 0 0.
Proof. done. Qed.

Lemma list_ext c c' q : flog_list c q -> NBuf c' = NBuf c -> fl_head c' = fl_head c -> fl_tail c' = fl_tail c ->
  (forall j, j ∈ q -> flinks c' j = flinks c j) -> flog_list c' q.
Proof.
  intros [H1 H2 H3 H4 H5] EN Eh Et El. split; [by rewrite EN|done|congruence|congruence|]. by apply (seg_ext (flinks c)).
Qed.

Lemma end_not_in c q : flog_list c q -> NOT_IN_FLOG_LIST ∉ q.
Proof. intros H Hin. pose proof (lw_range _ _ H _ Hin). unfold NOT_IN_FLOG_LIST in *. lia. Qed.

Lemma in_list_ok c i : 0 <= i < NBuf c -> in_list c i = true.
Proof. intros Hi. unfold in_list, NBuf in *. apply andb_true_intro. split; [apply Z.leb_le|apply Z.ltb_lt]; lia. Qed.

Lemma link_tail_spec c q b :
  flog_list c q -> 0 <= b < NBuf c -> b ∉ q -> exists c', link_tail c b = Done c' /\ flog_list c' (q ++ [b]) /\ same_data c c' /\
    fl_insert_total_num c' = fl_insert_total_num c /\ fl_remove_total_num c' = fl_remove_total_num c /\ fl_bg_remove_num c' = fl_bg_remove_num c.
Proof.
  intros HL Hb Hnin. unfold link_tail. set (c1 := set_slot c b _). assert (NBuf c1 = NBuf c) as E1 by apply NBuf_set.
  pose proof (lw_tail _ _ HL) as Et. destruct (last_or_in NOT_IN_FLOG_LIST q) as [[El ->]|Hlin].
  - cbn in Et. rewrite Et, Z.eqb_refl. cbn [obind]. eexists. split; [reflexivity|]. split; [|split; [|done]].
    + split; cbn.
      * intros i ->%list_elem_of_singleton. by rewrite <- E1 in Hb.
      * apply NoDup_singleton.
      * done.
      * done.
      * split; [|done]. unfold flinks. change (slot (set_ends _ _ _) b) with (slot c1 b). unfold c1. rewrite slot_set, decide_True by done. cbn. by rewrite Et.
    + split; [exact E1|]. do 3 (split; [done|]). intros j. change (slot (set_ends _ _ _) j) with (slot c1 j). unfold c1. rewrite slot_set by done. destruct (decide _) as [<-|]; done.
  - rewrite <- Et in Hlin. pose proof (lw_range _ _ HL _ Hlin) as Hp. assert (fl_tail c <> b) as Hne by (intros E; rewrite E in Hlin; done).
    assert ((fl_tail c =? NOT_IN_FLOG_LIST) = false) as -> by (apply Z.eqb_neq; unfold NOT_IN_FLOG_LIST; lia).
    unfold store_next. rewrite in_list_ok by (rewrite E1; done). cbn [obind]. eexists. split; [reflexivity|]. set (c2 := set_slot c1 _ _).
    assert (NBuf c2 = NBuf c) as E2 by (unfold c2; rewrite NBuf_set; exact E1).
    assert (forall j, slot c2 j = if decide (fl_tail c = j) then sl_set_links (slot c j) (sl_prev_buf (slot c j)) b else
              if decide (b = j) then sl_set_links (slot c j) (fl_tail c) NOT_IN_FLOG_LIST else slot c j) as Hs.
    { intros j. unfold c2. rewrite slot_set by (by rewrite E1). destruct (decide (fl_tail c = j)) as [<-|].
      - unfold c1. rewrite !slot_set, !decide_False by congruence. done.
      - unfold c1. rewrite slot_set by done. destruct (decide _) as [<-|]; done. }
    split; [|split; [|done]].
    + split; cbn [fl_head fl_tail set_ends].
      * intros i Hi. change (0 <= i < NBuf c2). rewrite E2. apply elem_of_app in Hi as [Hi|Hi%list_elem_of_singleton]; [by apply (lw_range _ _ HL)|by subst].
      * apply NoDup_app. split; [apply HL|]. split; [|apply NoDup_singleton]. intros x Hx ->%list_elem_of_singleton. done.
      * change (fl_head c2) with (fl_head c). rewrite (lw_head _ _ HL), hd_or_app. apply hd_or_indep. intros ->. by apply not_elem_of_nil in Hlin.
      * by rewrite last_or_app.
      * apply (seg_append (flinks c)); [apply HL|done|apply HL|..]; rewrite <- Et.
        { unfold flinks. change (slot (set_ends _ _ _) ?j) with (slot c2 j). by rewrite Hs, decide_False, decide_True. }
        intros j Hj. unfold flinks. change (slot (set_ends _ _ _) ?j) with (slot c2 j). rewrite Hs. cbn [fst snd].
        destruct (decide (fl_tail c = j)) as [<-|]; [by rewrite decide_True|]. rewrite !decide_False by congruence. done.
    + split; [exact E2|]. do 3 (split; [done|]).
      intros j. change (slot (set_ends _ _ _) j) with (slot c2 j). rewrite Hs. destruct (decide _) as [<-|]; [done|]. by destruct (decide _).
Qed.

Lemma unlink_spec c l1 b l2 :
  flog_list c (l1 ++ b :: l2) -> exists c', unlink c b = Done c' /\ flog_list c' (l1 ++ l2) /\ same_data c c' /\
    fl_insert_total_num c' = fl_insert_total_num c /\ fl_remove_total_num c' = fl_remove_total_num c /\ fl_bg_remove_num c' = fl_bg_remove_num c.
Proof.
  intros HL. pose proof (seg_at_elem _ _ _ _ _ (lw_seg _ _ HL)) as Hlk. pose proof (end_not_in _ _ HL) as Hend. pose proof (lw_nodup _ _ HL) as Hnd.
  pose proof (lw_head _ _ HL) as Eh. pose proof (lw_tail _ _ HL) as Et. rewrite hd_or_app in Eh. rewrite last_or_app in Et. cbn in Eh, Et.
  injection Hlk as Ep En. unfold unlink. rewrite Ep, En. set (p := last_or NOT_IN_FLOG_LIST l1) in *. set (n := hd_or NOT_IN_FLOG_LIST l2) in *.
  assert (forall x, x ∈ l1 ++ b :: l2 -> 0 <= x < NBuf c) as Hr by apply HL.
  assert (b ∉ l1 ++ l2) as Hb.
  { apply NoDup_app in Hnd as (_ & Hd & Hn2). apply NoDup_cons in Hn2 as [Hb2 _]. intros [H|H]%elem_of_app; [apply (Hd _ H); by left|done]. }
  assert (exists c1, (if fl_head c =? b then Done (set_ends c n (fl_tail c)) else store_next c p n) = Done c1 /\ NBuf c1 = NBuf c /\
    fl_head c1 = hd_or NOT_IN_FLOG_LIST (l1 ++ l2) /\ fl_tail c1 = fl_tail c /\ same_data c c1 /\
    (forall j, slot c1 j = if decide (p = j /\ l1 <> []) then sl_set_links (slot c j) (sl_prev_buf (slot c j)) n else slot c j) /\
    fl_insert_total_num c1 = fl_insert_total_num c /\ fl_remove_total_num c1 = fl_remove_total_num c /\ fl_bg_remove_num c1 = fl_bg_remove_num c)
    as (c1 & -> & E1 & Eh1 & Et1 & Hsd1 & Hs1 & Hc1).
  { destruct l1 as [|x l1'] eqn:El1.
    - cbn in Eh. rewrite Eh, Z.eqb_refl. eexists. split; [reflexivity|]. do 3 (split; [done|]). split; [by repeat split|].
      split; [|done]. intros j. rewrite decide_False; [done|]. by intros [_ ?].
    - assert (p ∈ x :: l1') as Hpin by (destruct (last_or_in NOT_IN_FLOG_LIST (x :: l1')) as [[_ ?]|H]; [done|exact H]).
      assert ((fl_head c =? b) = false) as ->.
      { apply Z.eqb_neq. rewrite Eh. cbn. intros Exb. apply Hb. rewrite <- Exb. by left. }
      assert (0 <= p < NBuf c) as Hp by (apply Hr, elem_of_app; by left). unfold store_next. rewrite in_list_ok by done.
      assert (forall j, slot (set_slot c p (sl_set_links (slot c p) (sl_prev_buf (slot c p)) n)) j =
        if decide (p = j /\ x :: l1' <> []) then sl_set_links (slot c j) (sl_prev_buf (slot c j)) n else slot c j) as Hs.
      { intros j. rewrite slot_set by done. destruct (decide (p = j)) as [<-|Hne]; [by rewrite decide_True|]. rewrite decide_False; [done|]. by intros [? _]. }
      eexists. split; [reflexivity|]. split; [apply NBuf_set|]. split; [exact Eh|]. split; [done|]. split; [|split; [exact Hs|done]].
      split; [apply NBuf_set|]. do 3 (split; [done|]). intros j. rewrite Hs. by destruct (decide _). }
  cbn [obind]. rewrite Et1. destruct l2 as [|x l2'] eqn:El2.
  - cbn in Et. rewrite Et, Z.eqb_refl. eexists. split; [reflexivity|]. rewrite app_nil_r in *. split; [|split; [exact Hsd1|exact Hc1]].
    split; [|by apply NoDup_app in Hnd as (? & _)|exact Eh1|done|].
    + intros i Hi. change (0 <= i < NBuf c1). rewrite E1. apply Hr, elem_of_app. by left.
    + apply (seg_ext (flinks c1)); [done|]. rewrite <- (app_nil_r l1). eapply (seg_remove (flinks c) _ _ l1 b []); [done|apply HL| |intros Hin; apply Hend; set_solver +Hin].
      rewrite app_nil_r. intros j Hj. unfold flinks. rewrite Hs1. fold p. fold n. cbn [fst snd].
      assert (j <> n) as Hjn by (intros ->; apply Hend, elem_of_app; by left). rewrite (decide_False (P := j = n)) by done.
      destruct (decide (p = j /\ l1 <> [])) as [[<- Hl1]|Hno]; [by rewrite decide_True|]. rewrite decide_False; [done|]. intros ->. apply Hno. split; [done|].
      intros ->. by apply not_elem_of_nil in Hj.
  - assert (n = x) as Enx by done. rewrite Enx in *.
    assert ((fl_tail c =? b) = false) as ->.
    { apply Z.eqb_neq. rewrite Et. intros E. apply Hb, elem_of_app. right. rewrite <- E. cbn. destruct (last_or_in x l2') as [[Ex _]|H]; [|by right]. rewrite Ex. by left. }
    assert (0 <= x < NBuf c) as Hx by (apply Hr, elem_of_app; right; right; by left). unfold store_prev. rewrite in_list_ok by (by rewrite E1).
    eexists. split; [reflexivity|]. set (c2 := set_slot c1 x _). assert (NBuf c2 = NBuf c) as E2 by (unfold c2; by rewrite NBuf_set).
    assert (forall j, slot c2 j = if decide (x = j) then sl_set_links (slot c1 x) p (sl_next_buf (slot c1 x)) else slot c1 j) as Hs2
      by (intros j; apply slot_set; by rewrite E1).
    split; [|split; [|exact Hc1]].
    + split; [intros i Hi; rewrite E2; apply Hr; set_solver +Hi|apply NoDup_app in Hnd as (? & Hd & Hn2); apply NoDup_cons in Hn2 as [_ ?];
        apply NoDup_app; split; [done|]; split; [|done]; intros y Hy1 Hy2; apply (Hd y Hy1); by right|exact Eh1| |].
      * change (fl_tail c2) with (fl_tail c1). rewrite Et1, Et, last_or_app. cbn. done.
      * eapply (seg_remove (flinks c) _ _ l1 b (x :: l2')); [done|apply HL| |].
        2: { intros Hin. apply Hend. set_solver +Hin. }
        intros j Hj. unfold flinks. rewrite Hs2. fold p. cbn [hd_or fst snd].
        assert (p = x -> l1 = []) as Hpx.
        { intros Epx. destruct (last_or_in NOT_IN_FLOG_LIST l1) as [[_ ?]|Hpin]; [done|]. fold p in Hpin. rewrite Epx in Hpin.
          apply NoDup_app in Hnd as (_ & Hd & _). exfalso. apply (Hd x Hpin). right. by left. }
        assert (l1 = [] -> p = NOT_IN_FLOG_LIST) as Hp1 by (intros ->; done).
        destruct (decide (x = j)) as [<-|Hnx].
        -- rewrite (decide_True (P := x = x)) by done. rewrite Hs1. cbn [sl_prev_buf sl_next_buf sl_set_links].
           rewrite (decide_False (P := x = p)).
           { rewrite decide_False; [done|]. intros [E H]. by apply H, Hpx. }
           intros E. symmetry in E. rewrite (Hp1 (Hpx E)) in E. unfold NOT_IN_FLOG_LIST in E. lia.
        -- rewrite (decide_False (P := j = x)) by congruence. rewrite Hs1.
           destruct (decide (p = j /\ l1 <> [])) as [[<- _]|Hno]; [by rewrite decide_True|]. rewrite decide_False; [done|]. intros ->. apply Hno. split; [done|].
           intros E. apply Hend. rewrite (Hp1 E) in Hj. set_solver +Hj.
    + destruct Hsd1 as (_ & D2 & D3 & D4 & D5). split; [exact E2|]. do 3 (split; [done|]). intros j. rewrite Hs2.
      destruct (decide _) as [<-|]; [rewrite set_links_twice|]; apply D5.
Qed.

(** ** Flags and origin buffers *)

Lemma has_state_bit v k : 0 <= k -> has_state v (2 ^ k) = Z.testbit v k.
Proof.
  intros Hk. unfold has_state. assert (Z.land v (2 ^ k) = if Z.testbit v k then 2 ^ k else 0) as ->.
  { apply Z.bits_inj'. intros n Hn. rewrite Z.land_spec, Z.pow2_bits_eqb by lia. destruct (Z.eqb_spec k n) as [<-|Hne].
    - destruct (Z.testbit v k); cbn; [by rewrite Z.pow2_bits_true|by rewrite Z.bits_0].
    - rewrite andb_false_r. destruct (Z.testbit v k); [by rewrite Z.pow2_bits_false|by rewrite Z.bits_0]. }
  destruct (Z.testbit v k); [|done]. destruct (2 ^ k =? 0) eqn:E; [|done]. zbool. pose proof (Z.pow_pos_nonneg 2 k). lia.
Qed.

Lemma has_state_lor v k j : 0 <= k -> 0 <= j -> has_state (Z.lor v (2 ^ j)) (2 ^ k) = has_state v (2 ^ k) || (j =? k).
Proof. intros Hk Hj. rewrite !has_state_bit by done. by rewrite Z.lor_spec, Z.pow2_bits_eqb by done. Qed.

Lemma has_state_ldiff v k j : 0 <= k -> 0 <= j -> has_state (Z.ldiff v (2 ^ j)) (2 ^ k) = has_state v (2 ^ k) && negb (j =? k).
Proof. intros Hk Hj. rewrite !has_state_bit by done. by rewrite Z.ldiff_spec, Z.pow2_bits_eqb by done. Qed.

Lemma ldiff_lor v a b : Z.ldiff v (Z.lor a b) = Z.ldiff (Z.ldiff v a) b.
Proof. apply Z.bits_inj'. intros n _. rewrite !Z.ldiff_spec, Z.lor_spec. by rewrite negb_orb, andb_assoc. Qed.

Lemma mark_in v : has_state (Z.lor v POLAR_BUF_IN_FLOG_LIST) POLAR_BUF_IN_FLOG_LIST = true.
Proof. etransitivity; [by apply (has_state_lor v 31 31)|]. apply orb_true_r. Qed.
Lemma mark_in_inserting v : has_state (Z.lor v POLAR_BUF_IN_FLOG_LIST) POLAR_BUF_INSERTING_FLOG = has_state v POLAR_BUF_INSERTING_FLOG.
Proof. etransitivity; [by apply (has_state_lor v 30 31)|]. apply orb_false_r. Qed.
Lemma enable_in v : has_state (Z.ldiff v POLAR_BUF_FLOG_DISABLE) POLAR_BUF_IN_FLOG_LIST = has_state v POLAR_BUF_IN_FLOG_LIST.
Proof. etransitivity; [by apply (has_state_ldiff v 31 29)|]. apply andb_true_r. Qed.
Lemma enable_inserting v : has_state (Z.ldiff v POLAR_BUF_FLOG_DISABLE) POLAR_BUF_INSERTING_FLOG = has_state v POLAR_BUF_INSERTING_FLOG.
Proof. etransitivity; [by apply (has_state_ldiff v 30 29)|]. apply andb_true_r. Qed.
Lemma unmark_in v : has_state (Z.ldiff v (Z.lor POLAR_BUF_IN_FLOG_LIST POLAR_BUF_INSERTING_FLOG)) POLAR_BUF_IN_FLOG_LIST = false.
Proof.
  rewrite ldiff_lor. etransitivity; [by apply (has_state_ldiff _ 31 30)|]. apply andb_false_iff. left.
  etransitivity; [by apply (has_state_ldiff v 31 31)|]. apply andb_false_r.
Qed.
Lemma unmark_inserting v : has_state (Z.ldiff v (Z.lor POLAR_BUF_IN_FLOG_LIST POLAR_BUF_INSERTING_FLOG)) POLAR_BUF_INSERTING_FLOG = false.
Proof. rewrite ldiff_lor. etransitivity; [by apply (has_state_ldiff _ 30 30)|]. apply andb_false_r. Qed.

(** The bit of an origin buffer. *)
Definition origin_used (c : flog_list_ctl_data_t) (index : Z) : bool :=
  Z.testbit (aget 0 (fl_origin_buf_bitmap c) (GET_ORIGIN_BUF_ARRAY_ID index)) (GET_ORIGIN_BUF_INDEX index).

Definition arrays_ok (c : flog_list_ctl_data_t) : Prop :=
  length (fl_origin_buf c) = 128%nat /\ length (fl_buf_tag c) = 128%nat /\ length (fl_origin_buf_bitmap c) = 4%nat.

Lemma origin_bit index : GET_ORIGIN_BUF_INDEX index = index mod 32.
Proof. unfold GET_ORIGIN_BUF_INDEX. change POLAR_ORIGIN_PAGE_BUF_BIT_MASK with (Z.ones 5). by rewrite Z.land_ones. Qed.

Lemma shiftl_one n : 0 <= n -> Z.shiftl 1 n = 2 ^ n.
Proof. intros Hn. rewrite Z.shiftl_mul_pow2 by done. lia. Qed.

(** Two indexes with the same word and bit are the same. *)
Lemma origin_index_eq i j : GET_ORIGIN_BUF_ARRAY_ID i = GET_ORIGIN_BUF_ARRAY_ID j -> GET_ORIGIN_BUF_INDEX i = GET_ORIGIN_BUF_INDEX j -> i = j.
Proof. rewrite !origin_bit. unfold GET_ORIGIN_BUF_ARRAY_ID, POLAR_ORIGIN_PAGE_BUF_NUM_PER_ARRAY. intros. mlia. Qed.

Lemma origin_ranges i : 0 <= i < 128 -> 0 <= GET_ORIGIN_BUF_ARRAY_ID i < 4 /\ 0 <= GET_ORIGIN_BUF_INDEX i < 32.
Proof. rewrite origin_bit. unfold GET_ORIGIN_BUF_ARRAY_ID, POLAR_ORIGIN_PAGE_BUF_NUM_PER_ARRAY. intros. mlia. Qed.

Lemma clean_origin_spec c b index :
  arrays_ok c -> 0 <= b < NBuf c -> 0 <= index < 128 ->
  let c' := polar_clean_origin_buf_bit c b index in
  arrays_ok c' /\ NBuf c' = NBuf c /\ fl_head c' = fl_head c /\ fl_tail c' = fl_tail c /\
  (forall j, slot c' j = if decide (b = j) then sl_set_origin (slot c j) INVAILD_ORIGIN_BUF_INDEX else slot c j) /\
  (forall i, 0 <= i < 128 -> origin_used c' i = origin_used c i && negb (index =? i)) /\
  (forall i, i <> index -> aget clear_tag (fl_buf_tag c') i = aget clear_tag (fl_buf_tag c) i /\
     aget zero_page (fl_origin_buf c') i = aget zero_page (fl_origin_buf c) i).
Proof.
  intros (A1 & A2 & A3) Hb Hi c'. unfold c', polar_clean_origin_buf_bit. destruct (origin_ranges index Hi) as [R1 R2]. rewrite shiftl_one by lia.
  set (c1 := set_origin c index _ _ _ _). assert (NBuf c1 = NBuf c) as E1 by done.
  assert (forall i, slot c1 i = slot c i) as Es by done.
  split; [unfold arrays_ok; cbn; rewrite !length_aset; done|]. split; [by rewrite NBuf_set|]. do 2 (split; [done|]). split; [|split].
  - intros j. rewrite slot_set by (by rewrite E1). rewrite !Es. by destruct (decide _) as [<-|].
  - intros i Hir. unfold origin_used. cbn [fl_origin_buf_bitmap set_slot c1 set_origin]. rewrite aget_aset by (rewrite A3; lia).
    destruct (decide (GET_ORIGIN_BUF_ARRAY_ID index = GET_ORIGIN_BUF_ARRAY_ID i)) as [E|Hne].
    + rewrite Z.ldiff_spec, Z.pow2_bits_eqb, E by lia. f_equal. f_equal.
      destruct (Z.eqb_spec (GET_ORIGIN_BUF_INDEX index) (GET_ORIGIN_BUF_INDEX i)) as [E'|Hn]; symmetry;
        [apply Z.eqb_eq; by apply origin_index_eq|apply Z.eqb_neq; by intros ->].
    + assert ((index =? i) = false) as -> by (apply Z.eqb_neq; by intros ->). by rewrite andb_true_r.
  - intros i Hne. cbn. by rewrite !aget_aset_ne by done.
Qed.

(** ** Finding a free origin buffer *)

Lemma low_bit w n : 0 <= n -> (Z.land (Z.shiftr w n) 1 =? 0) = negb (Z.testbit w n).
Proof.
  intros Hn. pose proof (has_state_bit (Z.shiftr w n) 0 ltac:(lia)) as H. unfold has_state in H. change (2 ^ 0) with 1 in H.
  rewrite Z.shiftr_spec in H by lia. rewrite Z.add_0_l in H. rewrite <- H. by rewrite negb_involutive.
Qed.

Lemma free_bit_spec k w n : 0 <= n ->
  match free_bit_loop k w n with
  | Some m => n <= m < n + Z.of_nat k /\ Z.testbit w m = false
  | None => forall i, n <= i < n + Z.of_nat k -> Z.testbit w i = true
  end.
Proof.
  revert n. induction k as [|k IH]; intros n Hn; cbn [free_bit_loop]; [intros; lia|]. rewrite low_bit by done.
  destruct (Z.testbit w n) eqn:E; cbn [negb]; [|split; [lia|done]]. specialize (IH (n + 1) ltac:(lia)). destruct (free_bit_loop k w (n + 1)).
  - split; [lia|apply IH].
  - intros i Hi. destruct (decide (i = n)) as [->|]; [done|]. apply IH. lia.
Qed.

Definition word_full (bm : list Z) (a : Z) : Prop := forall i, 0 <= i < 32 -> Z.testbit (aget 0 bm a) i = true.

Lemma next_array_mod a : 0 <= a < 4 -> next_array a = (a + 1) mod 4.
Proof. intros Ha. unfold next_array, POLAR_ORIGIN_PAGE_BUF_ARRAY_NUM. destruct (a =? 4 - 1) eqn:E; zbool; mlia. Qed.

Lemma free_origin_spec k bm a :
  0 <= a < 4 -> length bm = 4%nat ->
  let '(index, bm', a') := free_origin_loop k bm a in
  (index = INVAILD_ORIGIN_BUF_INDEX /\ bm' = bm /\ forall j, 0 <= j < Z.of_nat k -> word_full bm ((a + j) mod 4)) \/
  (exists w n, 0 <= w < 4 /\ 0 <= n < 32 /\ index = w * 32 + n /\ Z.testbit (aget 0 bm w) n = false /\ bm' = aset bm w (Z.lor (aget 0 bm w) (2 ^ n))).
Proof.
  intros Ha Hlen. revert a Ha. induction k as [|k IH]; intros a Ha; cbn [free_origin_loop]; [left; split; [done|split; [done|intros; lia]]|].
  assert (word_full bm a -> let '(index, bm', a') := free_origin_loop k bm (next_array a) in
    (index = INVAILD_ORIGIN_BUF_INDEX /\ bm' = bm /\ forall j, 0 <= j < Z.of_nat (S k) -> word_full bm ((a + j) mod 4)) \/
    (exists w n, 0 <= w < 4 /\ 0 <= n < 32 /\ index = w * 32 + n /\ Z.testbit (aget 0 bm w) n = false /\ bm' = aset bm w (Z.lor (aget 0 bm w) (2 ^ n)))) as Hnext.
  { intros Hfull. rewrite next_array_mod by done. specialize (IH ((a + 1) mod 4) ltac:(apply Z.mod_pos_bound; lia)).
    destruct (free_origin_loop k bm _) as [[index bm'] a']. destruct IH as [(E1 & E2 & E3)|H]; [left|by right]. split; [done|]. split; [done|].
    intros j Hj. destruct (decide (j = 0)) as [->|Hne]; [by rewrite Z.add_0_r, Z.mod_small|]. specialize (E3 (j - 1) ltac:(lia)).
    rewrite Zplus_mod_idemp_l in E3. by replace (a + 1 + (j - 1)) with (a + j) in E3 by lia. }
  destruct (aget 0 bm a =? 0xFFFFFFFF) eqn:E; zbool.
  { apply Hnext. intros i Hi. rewrite E. change 0xFFFFFFFF with (Z.ones 32). rewrite Z.testbit_ones_nonneg by lia. apply Z.ltb_lt. lia. }
  pose proof (free_bit_spec 32 (aget 0 bm a) 0 ltac:(lia)) as Hb. destruct (free_bit_loop 32 (aget 0 bm a) 0) as [n|].
  - destruct Hb as [Hn Hbit]. right. exists a, n. split; [done|]. split; [lia|]. split; [done|]. split; [done|]. by rewrite shiftl_one by lia.
  - apply Hnext. intros i Hi. apply Hb. lia.
Qed.

(** ** The invariant *)

Section spec.
Context (page_on_disk : BufferTag -> option (list Z)) (rec_end : list flog_rec -> Z).

Abbreviation origin st i := (sl_origin_buf_index (slot (ft_ctl st) i)).
Abbreviation inserted := (polar_insert_buf_flog_rec rec_end).

(** The buffers [q] are in the list, in this order, and marked so; every
    origin buffer belongs to one buffer at most and, when that is in the
    list, has its page.  While an operation works on buffer [x], its flags
    and its slot are in between. *)
Record flog_core (x : Z) (st : flog_state) (q : list Z) : Prop := {
  w_list : flog_list (ft_ctl st) q;
  w_len : Z.of_nat (length (ft_bufs st)) = NBuf (ft_ctl st);
  w_arr : arrays_ok (ft_ctl st);
  w_flag : forall i, 0 <= i < NBuf (ft_ctl st) -> i <> x ->
    POLAR_CHECK_BUF_FLOG_STATE st i POLAR_BUF_IN_FLOG_LIST = bool_decide (i ∈ q) /\ POLAR_CHECK_BUF_FLOG_STATE st i POLAR_BUF_INSERTING_FLOG = false;
  w_info : forall i, 0 <= i < NBuf (ft_ctl st) -> i <> x -> i ∉ q -> sl_info (slot (ft_ctl st) i) = FLOG_LIST_SLOT_EMPTY;
  w_orig : forall i, 0 <= i < NBuf (ft_ctl st) -> origin st i <> INVAILD_ORIGIN_BUF_INDEX ->
    0 <= origin st i < 128 /\ origin_used (ft_ctl st) (origin st i) = true /\
    (i ∈ q -> aget clear_tag (fl_buf_tag (ft_ctl st)) (origin st i) = fb_tag (fbuf st i));
  w_excl : forall i j, 0 <= i < NBuf (ft_ctl st) -> 0 <= j < NBuf (ft_ctl st) -> origin st i = origin st j ->
    origin st i <> INVAILD_ORIGIN_BUF_INDEX -> i = j
}.

Definition flog_wf (st : flog_state) (q : list Z) : Prop := flog_core (-1) st q.

(** The record that will be inserted for a buffer of the list. *)
Definition pending (st : flog_state) (i : Z) : flog_rec :=
  let sl := slot (ft_ctl st) i in
  let tag := fb_tag (fbuf st i) in
  let from_origin := negb (sl_origin_buf_index sl =? INVAILD_ORIGIN_BUF_INDEX) in
  mk_rec tag (sl_redo_lsn sl) (sl_fbpoint_lsn sl) (sl_info sl)
    (if from_origin then aget zero_page (fl_origin_buf (ft_ctl st)) (sl_origin_buf_index sl) else read_origin_page_from_file page_on_disk tag) from_origin.

Lemma fbuf_put st b v j : 0 <= b < Z.of_nat (length (ft_bufs st)) ->
  fbuf (put_redo_state st b v) j = if decide (b = j) then mk_fbuf (fb_tag (fbuf st b)) v (fb_page (fbuf st b)) else fbuf st j.
Proof. intros Hb. unfold fbuf, put_redo_state. cbn [ft_bufs]. by apply aget_aset. Qed.

Lemma tag_put st b v j : 0 <= b < Z.of_nat (length (ft_bufs st)) -> fb_tag (fbuf (put_redo_state st b v) j) = fb_tag (fbuf st j).
Proof. intros Hb. rewrite fbuf_put by done. by destruct (decide _) as [<-|]. Qed.

Lemma pending_ext st st' i :
  sl_set_links (slot (ft_ctl st') i) 0 0 = sl_set_links (slot (ft_ctl st) i) 0 0 -> fb_tag (fbuf st' i) = fb_tag (fbuf st i) ->
  aget zero_page (fl_origin_buf (ft_ctl st')) (origin st i) = aget zero_page (fl_origin_buf (ft_ctl st)) (origin st i) -> pending st' i = pending st i.
Proof. intros Es Et Eo. unfold pending. injection Es as -> -> _ -> ->. by rewrite Et, Eo. Qed.

(** Cleaning an origin buffer leaves the others. *)
Lemma core_clean x st q b :
  flog_core x st q -> 0 <= b < NBuf (ft_ctl st) -> b ∉ q -> origin st b <> INVAILD_ORIGIN_BUF_INDEX ->
  let st' := put_flog_ctl st (polar_clean_origin_buf_bit (ft_ctl st) b (origin st b)) in
  flog_core x st' q /\ (forall j, j <> b -> slot (ft_ctl st') j = slot (ft_ctl st) j) /\
  slot (ft_ctl st') b = sl_set_origin (slot (ft_ctl st) b) INVAILD_ORIGIN_BUF_INDEX /\
  (forall j, j ∈ q -> pending st' j = pending st j).
Proof.
  intros HW Hb Hnin Hor st'. destruct HW as [W1 W2 W3 W4 W5 W6 W7]. destruct (W6 b Hb Hor) as (Hidx & Hused & _).
  destruct (clean_origin_spec (ft_ctl st) b (origin st b) W3 Hb Hidx) as (C1 & C2 & C3 & C4 & C5 & C6 & C7).
  assert (forall j, slot (ft_ctl st') j = if decide (b = j) then sl_set_origin (slot (ft_ctl st) j) INVAILD_ORIGIN_BUF_INDEX else slot (ft_ctl st) j) as Hs
    by exact C5.
  assert (forall j, j <> b -> slot (ft_ctl st') j = slot (ft_ctl st) j) as Hoth by (intros j Hj; by rewrite Hs, decide_False by congruence).
  assert (NBuf (ft_ctl st') = NBuf (ft_ctl st)) as EN by exact C2.
  assert (forall j, 0 <= j < NBuf (ft_ctl st) -> origin st' j <> INVAILD_ORIGIN_BUF_INDEX -> j <> b /\ origin st' j = origin st j) as Hor'.
  { intros j Hj Hne. destruct (decide (j = b)) as [->|Hn]; [by rewrite Hs, decide_True in Hne|]. split; [done|]. by rewrite Hoth. }
  assert (forall j, 0 <= j < NBuf (ft_ctl st) -> origin st j <> INVAILD_ORIGIN_BUF_INDEX -> j <> b -> origin st j <> origin st b) as Hdist.
  { intros j Hj Hne Hn E. apply Hn. by apply W7. }
  split; [|split; [done|split]].
  - split; rewrite ?EN; try done.
    + apply (list_ext (ft_ctl st)); [done|done|done|done|]. intros j _. unfold flinks. rewrite Hs. by destruct (decide _).
    + intros i Hi Hx Hni. rewrite Hs. destruct (decide _); by apply W5.
    + intros i Hi Hne. destruct (Hor' i Hi Hne) as [Hib Eo]. rewrite Eo in *. destruct (W6 i Hi Hne) as (A & B & C). split; [done|].
      split; [change (origin_used (polar_clean_origin_buf_bit (ft_ctl st) b (origin st b)) (origin st i) = true); rewrite C6, B by done; cbn;
              apply negb_true_iff, Z.eqb_neq; intros E; by apply (Hdist i Hi Hne Hib)|].
      intros Hq. destruct (C7 (origin st i) (Hdist i Hi Hne Hib)) as [Et _]. etransitivity; [exact Et|exact (C Hq)].
    + intros i j Hi Hj E Hne. destruct (Hor' i Hi Hne) as [Hib Eo]. rewrite E in Hne. destruct (Hor' j Hj Hne) as [Hjb Eo'].
      rewrite Eo' in Hne. apply W7; [done|done|congruence|congruence].
  - by rewrite Hs, decide_True.
  - intros j Hj. assert (j <> b) as Hjb by (intros ->; done). apply pending_ext; [by rewrite Hoth|done|].
    destruct (decide (origin st j = INVAILD_ORIGIN_BUF_INDEX)) as [E|Hne]; [rewrite E; done|].
    apply C7. apply Hdist; [by apply (lw_range _ _ W1)|done|done].
Qed.

Lemma core_open b st q : flog_wf st q -> flog_core b st q.
Proof.
  intros [W1 W2 W3 W4 W5 W6 W7]. split; try done; intros i Hi; intros; [apply W4|apply W5]; try done; lia.
Qed.

Lemma core_close b st q : flog_core b st q ->
  POLAR_CHECK_BUF_FLOG_STATE st b POLAR_BUF_IN_FLOG_LIST = bool_decide (b ∈ q) -> POLAR_CHECK_BUF_FLOG_STATE st b POLAR_BUF_INSERTING_FLOG = false ->
  (b ∉ q -> sl_info (slot (ft_ctl st) b) = FLOG_LIST_SLOT_EMPTY) -> flog_wf st q.
Proof.
  intros [W1 W2 W3 W4 W5 W6 W7] F1 F2 F3. split; try done; intros i Hi _; destruct (decide (i = b)) as [->|]; try done; [by apply W4|by apply W5].
Qed.

Lemma core_flag b v st q : 0 <= b < NBuf (ft_ctl st) -> flog_core b st q -> flog_core b (put_redo_state st b v) q.
Proof.
  intros Hb [W1 W2 W3 W4 W5 W6 W7]. split; try done.
  - unfold put_redo_state. cbn [ft_bufs]. by rewrite length_aset.
  - intros i Hi Hne. unfold POLAR_CHECK_BUF_FLOG_STATE in *. rewrite fbuf_put, decide_False by (congruence || lia). by apply W4.
  - intros i Hi Hne. destruct (W6 i Hi Hne) as (A & B & C). split; [done|]. split; [done|]. rewrite tag_put by lia. exact C.
Qed.

(** A change of the control block that concerns buffer [b] only. *)
Lemma core_ctl b st c' q q' :
  flog_core b st q -> flog_list c' q' -> NBuf c' = NBuf (ft_ctl st) -> fl_origin_buf c' = fl_origin_buf (ft_ctl st) ->
  fl_buf_tag c' = fl_buf_tag (ft_ctl st) -> fl_origin_buf_bitmap c' = fl_origin_buf_bitmap (ft_ctl st) ->
  (forall j, sl_origin_buf_index (slot c' j) = origin st j) ->
  (forall j, j <> b -> sl_info (slot c' j) = sl_info (slot (ft_ctl st) j) /\ (j ∈ q' <-> j ∈ q)) ->
  (b ∈ q' -> origin st b <> INVAILD_ORIGIN_BUF_INDEX -> aget clear_tag (fl_buf_tag (ft_ctl st)) (origin st b) = fb_tag (fbuf st b)) ->
  flog_core b (put_flog_ctl st c') q'.
Proof.
  intros [W1 W2 W3 W4 W5 W6 W7] HL EN Eo Et Eb Eorg Hoth Htag.
  split; cbn [ft_ctl put_flog_ctl ft_bufs]; rewrite ?EN.
  - done.
  - done.
  - unfold arrays_ok. by rewrite Eo, Et, Eb.
  - intros i Hi Hne. destruct (Hoth i Hne) as [_ Hq]. rewrite (bool_decide_ext _ _ Hq). by apply W4.
  - intros i Hi Hne Hni. destruct (Hoth i Hne) as [-> Hq]. apply W5; [done|done|]. by rewrite <- Hq.
  - intros i Hi. rewrite Eorg. intros Hne. destruct (W6 i Hi Hne) as (A & B & C). split; [done|]. split; [unfold origin_used; by rewrite Eb|].
    intros Hq. rewrite Et. destruct (decide (i = b)) as [->|Hib]; [by apply Htag|]. apply C. by apply (Hoth i Hib).
  - intros i j Hi Hj. rewrite !Eorg. by apply W7.
Qed.

Lemma core_log x st log q : flog_core x st q -> flog_core x (mk_flog (ft_ctl st) (ft_bufs st) log) q.
Proof. intros [W1 W2 W3 W4 W5 W6 W7]. by split. Qed.

(** ** The operations *)

Definition kept_page (st : flog_state) (b : Z) : bool :=
  negb (origin st b =? INVAILD_ORIGIN_BUF_INDEX) && BUFFERTAGS_EQUAL (fb_tag (fbuf st b)) (aget clear_tag (fl_buf_tag (ft_ctl st)) (origin st b)).

(** The record of a buffer that is put in the list: the kept original is
    used when it is of the same page. *)
Definition new_record (st : flog_state) (b redo_lsn fbpoint info : Z) : flog_rec :=
  mk_rec (fb_tag (fbuf st b)) redo_lsn fbpoint info
    (if kept_page st b then aget zero_page (fl_origin_buf (ft_ctl st)) (origin st b) else read_origin_page_from_file page_on_disk (fb_tag (fbuf st b)))
    (kept_page st b).

Lemma add_spec st q b info redo_lsn curr_fbpoint local_fbpoint :
  flog_core b st q -> 0 <= b < NBuf (ft_ctl st) -> b ∉ q -> sl_info (slot (ft_ctl st) b) = FLOG_LIST_SLOT_EMPTY ->
  let local := polar_get_local_fbpoint_lsn local_fbpoint curr_fbpoint InvalidXLogRecPtr InvalidXLogRecPtr in
  exists st', add_buf_to_list st b info redo_lsn curr_fbpoint local_fbpoint = Done (st', local) /\ flog_core b st' (q ++ [b]) /\
    ft_bufs st' = ft_bufs st /\ ft_log st' = ft_log st /\ pending st' b = new_record st b redo_lsn local info /\
    (forall j, j ∈ q -> pending st' j = pending st j) /\ sl_flashback_ptr (slot (ft_ctl st') b) = sl_flashback_ptr (slot (ft_ctl st) b).
Proof.
  intros HW Hb Hnin Hinfo local. unfold add_buf_to_list. fold local. rewrite Hinfo, Z.lor_0_l. set (c1 := set_slot (ft_ctl st) b _).
  assert (NBuf c1 = NBuf (ft_ctl st)) as E1 by apply NBuf_set.
  assert (forall j, slot c1 j = if decide (b = j) then sl_set_data (slot (ft_ctl st) b) redo_lsn local info else slot (ft_ctl st) j) as Hs1
    by (intros j; by apply slot_set).
  set (st1 := put_flog_ctl st c1). assert (flog_core b st1 q) as HW1.
  { apply (core_ctl b st c1 q q HW); try done.
    - apply (list_ext (ft_ctl st)); [apply HW|done..|]. intros j Hj. unfold flinks. rewrite Hs1. by destruct (decide _) as [<-|].
    - intros j. rewrite Hs1. by destruct (decide _) as [<-|].
    - intros j Hj. rewrite Hs1, decide_False by congruence. done. }
  assert (forall j, j ∈ q -> pending st1 j = pending st j) as Hp1.
  { intros j Hj. apply pending_ext; [|done|done]. cbn [ft_ctl st1 put_flog_ctl]. rewrite Hs1, decide_False; [done|]. by intros ->. }
  set (c2 := if _ && _ then _ else c1). set (st2 := put_flog_ctl st c2).
  assert (flog_core b st2 q /\ NBuf c2 = NBuf (ft_ctl st) /\ (forall j, j ∈ q -> pending st2 j = pending st1 j) /\
    (origin st2 b <> INVAILD_ORIGIN_BUF_INDEX -> aget clear_tag (fl_buf_tag c2) (origin st2 b) = fb_tag (fbuf st b)) /\
    pending st2 b = new_record st b redo_lsn local info /\ sl_flashback_ptr (slot c2 b) = sl_flashback_ptr (slot (ft_ctl st) b)) as (HW2 & E2 & Hp2 & Htag & Hnew & Hptr).
  { assert (sl_origin_buf_index (slot c1 b) = origin st b) as Eo by (by rewrite Hs1, decide_True).
    assert (forall o, o = origin st b -> pending st1 b = mk_rec (fb_tag (fbuf st b)) redo_lsn local info
      (if negb (o =? INVAILD_ORIGIN_BUF_INDEX) then aget zero_page (fl_origin_buf (ft_ctl st)) o else read_origin_page_from_file page_on_disk (fb_tag (fbuf st b)))
      (negb (o =? INVAILD_ORIGIN_BUF_INDEX))) as Hpb.
    { intros o ->. unfold pending. cbn [ft_ctl st1 put_flog_ctl]. rewrite Hs1, decide_True by done. done. }
    unfold st2, c2. cbn [ft_ctl put_flog_ctl]. rewrite Eo. unfold new_record, kept_page. change (fl_buf_tag c1) with (fl_buf_tag (ft_ctl st)).
    destruct (Z.eqb_spec (origin st b) INVAILD_ORIGIN_BUF_INDEX) as [En|Hne]; cbn [negb andb].
    - split; [exact HW1|]. split; [done|]. split; [done|]. split; [intros Hx; by rewrite Eo in Hx|]. split; [fold st1; by rewrite (Hpb _ eq_refl), En|by rewrite Hs1, decide_True].
    - clear c2 st2. destruct (BUFFERTAGS_EQUAL (fb_tag (fbuf st b)) (aget clear_tag (fl_buf_tag (ft_ctl st)) (origin st b))) eqn:Et; cbn [negb].
      + split; [exact HW1|]. split; [done|]. split; [done|]. split; [intros _; rewrite Eo; unfold BUFFERTAGS_EQUAL in Et; by apply bool_decide_eq_true in Et|].
        split; [|by rewrite Hs1, decide_True]. fold st1. rewrite (Hpb _ eq_refl). by rewrite (proj2 (Z.eqb_neq _ _) Hne).
      + rewrite <- Eo. destruct (core_clean b st1 q b HW1) as (H1 & H2 & H3 & H4);
          [change (0 <= b < NBuf c1); by rewrite E1|done|change (sl_origin_buf_index (slot c1 b) <> INVAILD_ORIGIN_BUF_INDEX); by rewrite Eo|].
        cbn [ft_ctl st1 put_flog_ctl] in H1, H2, H3, H4.
        destruct (clean_origin_spec c1 b (sl_origin_buf_index (slot c1 b))) as (_ & C2 & _); [apply HW1|by rewrite E1|rewrite Eo; by apply HW|].
        split; [exact H1|]. split; [by rewrite C2|]. split; [exact H4|]. rewrite H3. split; [done|]. split; [|by rewrite Hs1, decide_True].
        unfold pending. cbn [ft_ctl put_flog_ctl]. rewrite H3, Hs1, decide_True by done. done. }
  destruct (link_tail_spec c2 q b) as (c3 & -> & HL3 & (D1 & D2 & D3 & D4 & D5) & _); [apply HW2|by rewrite E2|done|]. cbn [obind].
  set (c4 := set_counts c3 _ _ _). assert (forall j, slot c4 j = slot c3 j) as E4 by done.
  eexists. split; [reflexivity|]. split; [|do 2 (split; [done|]); split; [|split]].
  - apply (core_ctl b st2 c4 q (q ++ [b]) HW2); try done.
    + by apply (list_ext c3).
    + intros j. rewrite E4. pose proof (D5 j) as D. by injection D.
    + intros j Hj. rewrite E4. pose proof (D5 j) as D. split; [by injection D|]. rewrite elem_of_app, list_elem_of_singleton. naive_solver.
  - rewrite <- Hnew. apply pending_ext; [apply D5|done|cbn; by rewrite D2].
  - intros j Hj. rewrite <- Hp1, <- Hp2 by done. apply pending_ext; [apply D5|done|cbn; by rewrite D2].
  - cbn [ft_ctl put_flog_ctl]. rewrite E4, <- Hptr. pose proof (D5 b) as D. by injection D.
Qed.

Lemma check_put st b v f : 0 <= b < Z.of_nat (length (ft_bufs st)) -> POLAR_CHECK_BUF_FLOG_STATE (put_redo_state st b v) b f = has_state v f.
Proof. intros Hb. unfold POLAR_CHECK_BUF_FLOG_STATE. by rewrite fbuf_put, decide_True. Qed.

Lemma pending_put st b v j : 0 <= b < Z.of_nat (length (ft_bufs st)) -> pending (put_redo_state st b v) j = pending st j.
Proof. intros Hb. apply pending_ext; [done|by apply tag_put|done]. Qed.

Definition push_info (st : flog_state) (b : Z) (is_candidate : bool) : Z :=
  if is_candidate || (BufferGetLSN (fbuf st b) =? InvalidXLogRecPtr) then Z.lor FLOG_LIST_SLOT_READY FLOG_LIST_SLOT_CANDIDATE else FLOG_LIST_SLOT_READY.

Lemma flog_push_spec st q b redo_lsn curr_fbpoint local_fbpoint is_candidate :
  flog_wf st q -> 0 <= b < NBuf (ft_ctl st) ->
  if bool_decide (b ∈ q) then polar_push_buf_to_flog_list st (b + 1) redo_lsn curr_fbpoint local_fbpoint is_candidate = Done (st, local_fbpoint)
  else
    let local := polar_get_local_fbpoint_lsn local_fbpoint curr_fbpoint InvalidXLogRecPtr InvalidXLogRecPtr in
    exists st', polar_push_buf_to_flog_list st (b + 1) redo_lsn curr_fbpoint local_fbpoint is_candidate = Done (st', local) /\ flog_wf st' (q ++ [b]) /\
      NBuf (ft_ctl st') = NBuf (ft_ctl st) /\ ft_log st' = ft_log st /\ pending st' b = new_record st b redo_lsn local (push_info st b is_candidate) /\
      (forall j, j ∈ q -> pending st' j = pending st j) /\ sl_flashback_ptr (slot (ft_ctl st') b) = sl_flashback_ptr (slot (ft_ctl st) b).
Proof.
  intros HW Hb. unfold polar_push_buf_to_flog_list. replace (b + 1 - 1) with b by lia. unfold set_buf_in_list.
  destruct (w_flag _ _ _ HW b Hb ltac:(lia)) as [F1 F2]. unfold POLAR_CHECK_BUF_FLOG_STATE in F1, F2. rewrite F1.
  destruct (bool_decide (b ∈ q)) eqn:Eq; [done|]. apply bool_decide_eq_false in Eq. pose proof (w_len _ _ _ HW) as Hlen.
  set (v := Z.lor _ POLAR_BUF_IN_FLOG_LIST). set (st1 := put_redo_state st b v).
  set (st2 := if POLAR_CHECK_BUF_FLOG_STATE st1 b POLAR_BUF_FLOG_DISABLE then _ else st1).
  assert (exists v', st2 = put_redo_state st b v' /\ has_state v' POLAR_BUF_IN_FLOG_LIST = true /\ has_state v' POLAR_BUF_INSERTING_FLOG = false) as (v' & Est2 & V1 & V2).
  { assert (has_state v POLAR_BUF_IN_FLOG_LIST = true /\ has_state v POLAR_BUF_INSERTING_FLOG = false) as [V1 V2]
      by (unfold v; by rewrite mark_in, mark_in_inserting).
    unfold st2. destruct (POLAR_CHECK_BUF_FLOG_STATE st1 b POLAR_BUF_FLOG_DISABLE); [|by exists v].
    exists (Z.ldiff v POLAR_BUF_FLOG_DISABLE). split; [|by rewrite enable_in, enable_inserting].
    unfold clean_buf_flog_state, st1. rewrite fbuf_put, decide_True by (done || lia). cbn [fb_redo_state].
    unfold put_redo_state at 1. rewrite fbuf_put, decide_True by (done || lia). cbn [fb_tag fb_page]. unfold put_redo_state. cbn [ft_ctl ft_bufs ft_log].
    f_equal. unfold aset. rewrite !decide_True by lia. by rewrite list_insert_insert_eq. }
  cbv zeta. rewrite Est2. set (st3 := put_redo_state st b v'). assert (BufferGetLSN (fbuf st3 b) = BufferGetLSN (fbuf st b)) as -> by (unfold st3; by rewrite fbuf_put, decide_True by (done || lia)).
  fold (push_info st b is_candidate).
  destruct (add_spec st3 q b (push_info st b is_candidate) redo_lsn curr_fbpoint local_fbpoint) as (st' & -> & HW' & Eb & El & Hp & Hoth & Hptr).
  { apply core_flag; [done|]. by apply core_open. }
  { done. }
  { done. }
  { apply (w_info _ _ _ HW); [done|lia|done]. }
  exists st'. split; [done|]. assert (NBuf (ft_ctl st') = NBuf (ft_ctl st)) as EN.
  { rewrite <- (w_len _ _ _ HW'), <- Hlen, Eb. unfold st3, put_redo_state. cbn [ft_bufs]. by rewrite length_aset. }
  split; [|split; [done|split; [done|split; [|split; [|exact Hptr]]]]].
  - apply (core_close b); [done|..].
    + assert (b ∈ q ++ [b]) as Hin by (apply elem_of_app; right; by left). rewrite bool_decide_true by done.
      unfold POLAR_CHECK_BUF_FLOG_STATE, fbuf. rewrite Eb. fold (fbuf st3 b). unfold st3. rewrite fbuf_put, decide_True by (done || lia). done.
    + unfold POLAR_CHECK_BUF_FLOG_STATE, fbuf. rewrite Eb. fold (fbuf st3 b). unfold st3. rewrite fbuf_put, decide_True by (done || lia). done.
    + intros Hno. destruct Hno. apply elem_of_app. right. by left.
  - rewrite Hp. unfold new_record, kept_page. unfold st3. rewrite !tag_put by lia. done.
  - intros j Hj. rewrite Hoth by done. unfold st3. apply pending_put. lia.
Qed.

(** Inserting the record of a buffer in the list. *)
Lemma flog_insert_spec st l1 b l2 is_background invalidate :
  flog_core b st (l1 ++ b :: l2) ->
  exists st', insert_buf_flog page_on_disk rec_end st b is_background invalidate = Done st' /\ flog_wf st' (l1 ++ l2) /\
    NBuf (ft_ctl st') = NBuf (ft_ctl st) /\
    ft_log st' = (if invalidate then ft_log st else (inserted (ft_log st) (pending st b)).1) /\
    sl_flashback_ptr (slot (ft_ctl st') b) = (if invalidate then sl_flashback_ptr (slot (ft_ctl st) b) else (inserted (ft_log st) (pending st b)).2) /\
    (forall j, j ∈ l1 ++ l2 -> pending st' j = pending st j).
Proof.
  intros HW. assert (b ∈ l1 ++ b :: l2) as Hbq by (apply elem_of_app; right; by left). pose proof (lw_range _ _ (w_list _ _ _ HW) b Hbq) as Hb.
  pose proof (w_len _ _ _ HW) as Hlen.
  assert (b ∉ l1 ++ l2) as Hnin.
  { pose proof (lw_nodup _ _ (w_list _ _ _ HW)) as Hnd. apply NoDup_app in Hnd as (_ & Hd & Hn2). apply NoDup_cons in Hn2 as [Hb2 _].
    intros [H|H]%elem_of_app; [apply (Hd _ H); by left|done]. }
  unfold insert_buf_flog, remove_buf_from_list. set (c := ft_ctl st) in *. set (c1 := set_slot c b _).
  assert (NBuf c1 = NBuf c) as E1 by apply NBuf_set.
  assert (forall j, slot c1 j = if decide (b = j) then sl_set_data (slot c b) InvalidXLogRecPtr (sl_fbpoint_lsn (slot c b)) FLOG_LIST_SLOT_EMPTY else slot c j) as Hs1
    by (intros j; by apply slot_set).
  assert (flog_list c1 (l1 ++ b :: l2)) as HL1.
  { apply (list_ext c); [apply HW|done..|]. intros j _. unfold flinks. rewrite Hs1. by destruct (decide _) as [<-|]. }
  destruct (unlink_spec c1 l1 b l2 HL1) as (c2 & -> & HL2 & (D1 & D2 & D3 & D4 & D5) & _). cbn [obind].
  set (c3 := set_slot c2 b _). set (c4 := set_counts c3 _ _ _). assert (NBuf c4 = NBuf c) as E4 by (change (NBuf c3 = NBuf c); unfold c3; rewrite NBuf_set; congruence).
  assert (forall j, sl_set_links (slot c4 j) 0 0 = sl_set_links (slot c1 j) 0 0) as Hs4.
  { intros j. change (slot c4 j) with (slot c3 j). unfold c3. rewrite slot_set by (rewrite D1, E1; done). destruct (decide _) as [<-|]; [rewrite set_links_twice|]; apply D5. }
  assert (flog_list c4 (l1 ++ l2)) as HL4.
  { apply (list_ext c2); [done|by rewrite E4, D1, E1|done|done|]. intros j Hj. unfold flinks. change (slot c4 j) with (slot c3 j). unfold c3.
    rewrite slot_set, decide_False by (try (rewrite D1, E1; done); by intros ->). done. }
  set (index := sl_origin_buf_index (slot c b)). set (st4 := put_flog_ctl st c4).
  assert (forall j, j <> b -> sl_set_links (slot c4 j) 0 0 = sl_set_links (slot c j) 0 0) as Hs4' by (intros j Hj; rewrite Hs4, Hs1, decide_False by congruence; done).
  assert (sl_set_links (slot c4 b) 0 0 = sl_set_links (sl_set_data (slot c b) InvalidXLogRecPtr (sl_fbpoint_lsn (slot c b)) FLOG_LIST_SLOT_EMPTY) 0 0) as Hs4b
    by (rewrite Hs4, Hs1, decide_True; done).
  assert (flog_core b st4 (l1 ++ l2)) as HW4.
  { apply (core_ctl b st c4 _ _ HW); [done|exact E4|exact D2|exact D3|exact D4|..].
    - intros j. destruct (decide (j = b)) as [->|Hj]; [by injection Hs4b|pose proof (Hs4' j Hj) as E; by injection E].
    - intros j Hj. pose proof (Hs4' j Hj) as E. injection E as _ _ _ Ei _. split; [done|]. rewrite !elem_of_app, elem_of_cons. naive_solver.
    - done. }
  set (rec := mk_rec _ _ _ _ _ _). assert (rec = pending st b) as Erec.
  { unfold rec, pending. fold c index. replace (fl_origin_buf c4) with (fl_origin_buf c) by (symmetry; exact D2). done. }
  clearbody rec. set (st5 := if negb invalidate then _ else st4).
  assert (flog_core b st5 (l1 ++ l2) /\ NBuf (ft_ctl st5) = NBuf c /\ ft_bufs st5 = ft_bufs st /\
    ft_log st5 = (if invalidate then ft_log st else (inserted (ft_log st) (pending st b)).1) /\ origin st5 b = index /\
    sl_info (slot (ft_ctl st5) b) = FLOG_LIST_SLOT_EMPTY /\
    sl_flashback_ptr (slot (ft_ctl st5) b) = (if invalidate then sl_flashback_ptr (slot c b) else (inserted (ft_log st) (pending st b)).2) /\
    forall j, j ∈ l1 ++ l2 -> pending st5 j = pending st j) as (HW5 & E5 & Eb5 & El5 & Eo5 & Ei5 & Ept5 & Hp5).
  { assert (forall j, j ∈ l1 ++ l2 -> pending st4 j = pending st j) as Hp4.
    { intros j Hj. apply pending_ext; [apply Hs4'; by intros ->|done|]. change (aget zero_page (fl_origin_buf c4) (origin st j) = aget zero_page (fl_origin_buf c) (origin st j)).
      by replace (fl_origin_buf c4) with (fl_origin_buf c) by (symmetry; exact D2). }
    unfold st5. injection Hs4b as _ _ F3 F4 F5. destruct invalidate; cbn [negb]; [by split_and!|]. rewrite Erec.
    change (ft_log st4) with (ft_log st). destruct (inserted (ft_log st) (pending st b)) as [log ptr]. cbn [fst snd].
    set (c5 := set_slot c4 b _). assert (forall j, slot c5 j = if decide (b = j) then sl_set_ptr (slot c4 b) ptr else slot c4 j) as Hs5
      by (intros j; apply slot_set; by rewrite E4).
    assert (NBuf c5 = NBuf c) as E5 by (unfold c5; by rewrite NBuf_set).
    split; [|split; [exact E5|]].
    - apply (core_log b (put_flog_ctl st4 c5)). apply (core_ctl b st4 c5 _ _ HW4); try done; [|by rewrite E5|..].
      + apply (list_ext c4); [done|by rewrite E5|done|done|]. intros j _. unfold flinks. rewrite Hs5. by destruct (decide _) as [<-|].
      + intros j. rewrite Hs5. by destruct (decide _) as [<-|].
      + intros j Hj. rewrite Hs5, decide_False by congruence. done.
    - cbn [ft_ctl ft_log ft_bufs]. rewrite Hs5, decide_True by done. do 2 (split; [done|]). split; [exact F5|]. split; [exact F4|]. split; [done|].
      intros j Hj. etransitivity; [|by apply Hp4]. apply pending_ext; [|done|done]. cbn [ft_ctl]. rewrite Hs5, decide_False; [done|]. by intros ->. }
  clearbody st5. set (st6 := if negb (index =? INVAILD_ORIGIN_BUF_INDEX) then _ else st5).
  assert (flog_core b st6 (l1 ++ l2) /\ NBuf (ft_ctl st6) = NBuf c /\ ft_bufs st6 = ft_bufs st /\ ft_log st6 = ft_log st5 /\
    sl_info (slot (ft_ctl st6) b) = FLOG_LIST_SLOT_EMPTY /\ sl_flashback_ptr (slot (ft_ctl st6) b) = sl_flashback_ptr (slot (ft_ctl st5) b) /\
    forall j, j ∈ l1 ++ l2 -> pending st6 j = pending st j) as (HW6 & E6 & Eb6 & El6 & Ei6 & Ept6 & Hp6).
  { unfold st6. destruct (Z.eqb_spec index INVAILD_ORIGIN_BUF_INDEX) as [|Hne]; cbn [negb]; [by split_and!|]. rewrite <- Eo5.
    destruct (core_clean b st5 (l1 ++ l2) b HW5) as (H1 & H2 & H3 & H4); [by rewrite E5|done|by rewrite Eo5|].
    split; [exact H1|]. split; [rewrite <- (w_len _ _ _ H1); cbn [ft_bufs put_flog_ctl]; by rewrite Eb5, Hlen|]. do 2 (split; [done|]). rewrite H3. split; [done|]. split; [done|].
    intros j Hj. rewrite H4 by done. by apply Hp5. }
  clearbody st6. set (st7 := clean_buf_flog_state st6 b _). assert (0 <= b < Z.of_nat (length (ft_bufs st6))) as Hb6 by (rewrite Eb6; lia).
  assert (flog_wf st7 (l1 ++ l2)) as HW7.
  { apply (core_close b); [apply core_flag; [by rewrite E6|done]|..].
    - unfold st7, clean_buf_flog_state. rewrite check_put, unmark_in by done. symmetry. by apply bool_decide_eq_false.
    - unfold st7, clean_buf_flog_state. by rewrite check_put, unmark_inserting.
    - by intros _. }
  assert (forall j, j ∈ l1 ++ l2 -> pending st7 j = pending st j) as Hp7.
  { intros j Hj. etransitivity; [|by apply Hp6]. by apply pending_put. }
  destruct is_background.
  - eexists. split; [reflexivity|]. split; [|split; [exact E6|]].
    + apply (core_ctl (-1) st7 _ (l1 ++ l2)); try done. apply (list_ext (ft_ctl st7)); [apply HW7|done..].
    + cbn [ft_log ft_ctl put_flog_ctl]. change (ft_log st7) with (ft_log st6). rewrite El6, El5. split; [done|]. split; [|exact Hp7].
      change (slot (set_counts _ _ _ _) b) with (slot (ft_ctl st6) b). by rewrite Ept6, Ept5.
  - eexists. split; [reflexivity|]. split; [done|]. split; [exact E6|]. change (ft_log st7) with (ft_log st6). rewrite El6, El5. split; [done|].
    split; [|exact Hp7]. change (slot (ft_ctl st7) b) with (slot (ft_ctl st6) b). by rewrite Ept6, Ept5.
Qed.

Lemma process_spec st q b is_background invalidate waited :
  flog_wf st q -> 0 <= b < NBuf (ft_ctl st) ->
  if bool_decide (b ∈ q) then exists l1 l2 st', q = l1 ++ b :: l2 /\
    polar_process_buf_flog_list page_on_disk rec_end st b is_background invalidate waited = Done (st', true) /\ flog_wf st' (l1 ++ l2) /\
    NBuf (ft_ctl st') = NBuf (ft_ctl st) /\ ft_log st' = (if invalidate then ft_log st else (inserted (ft_log st) (pending st b)).1) /\
    sl_flashback_ptr (slot (ft_ctl st') b) = (if invalidate then sl_flashback_ptr (slot (ft_ctl st) b) else (inserted (ft_log st) (pending st b)).2) /\
    (forall j, j ∈ l1 ++ l2 -> pending st' j = pending st j)
  else polar_process_buf_flog_list page_on_disk rec_end st b is_background invalidate waited = Done (st, false).
Proof.
  intros HW Hb. unfold polar_process_buf_flog_list, set_buf_inserting_log. destruct (w_flag _ _ _ HW b Hb ltac:(lia)) as [F1 F2].
  unfold POLAR_CHECK_BUF_FLOG_STATE in F1, F2. rewrite F1, F2. pose proof (w_len _ _ _ HW) as Hlen. destruct (bool_decide (b ∈ q)) eqn:Eq; [|done].
  apply bool_decide_eq_true in Eq. apply list_elem_of_split in Eq as (l1 & l2 & ->). set (st1 := put_redo_state st b _).
  destruct (flog_insert_spec st1 l1 b l2 is_background invalidate) as (st' & -> & H1 & H2 & H3 & H4 & H5).
  { apply core_flag; [done|]. by apply core_open. }
  exists l1, l2, st'. split; [done|]. split; [done|]. split; [done|]. split; [done|].
  assert (forall j, pending st1 j = pending st j) as Ep by (intros j; apply pending_put; lia). rewrite Ep in H3, H4. split; [done|]. split; [done|].
  intros j Hj. rewrite H5 by done. apply Ep.
Qed.

(** ** The operations of a process *)

(** Putting a buffer in the list, keeping its page in an origin buffer,
    writing it out or dropping it, changing its page, and using it for
    another page; and a round of the background worker. *)
Inductive flog_op :=
| OpPush (b redo_lsn curr_fbpoint local_fbpoint : Z) (is_candidate : bool)
| OpOrigin (b pgprocno array_id : Z)
| OpWrite (b : Z) (invalidate : bool)
| OpChange (b : Z) (page : list Z)
| OpReuse (b : Z) (tag : BufferTag) (page : list Z)
| OpBackground.

Definition put_page (st : flog_state) (b : Z) (tag : BufferTag) (page : list Z) : flog_state :=
  mk_flog (ft_ctl st) (aset (ft_bufs st) b (mk_fbuf tag (fb_redo_state (fbuf st b)) page)) (ft_log st).

Definition flog_run (st : flog_state) (op : flog_op) : outcome flog_state :=
  match op with
  | OpPush b redo_lsn curr local cand => let! (st, _) := polar_push_buf_to_flog_list st (b + 1) redo_lsn curr local cand in Done st
  | OpOrigin b pgprocno array_id => Done (polar_add_origin_buf st b pgprocno array_id).1.1
  | OpWrite b invalidate => let! (st, _) := polar_flush_buf_flog_rec page_on_disk rec_end st b invalidate true in Done st
  | OpChange b page => Done (put_page st b (fb_tag (fbuf st b)) page)
  | OpReuse b tag page => Done (put_page st b tag page)
  | OpBackground => polar_process_flog_list_bg page_on_disk rec_end st
  end.

(** The buffer exists; an origin buffer is looked for in one of the four
    words; a buffer is used for another page only when it is not in the
    list. *)
Definition op_ok (st : flog_state) (op : flog_op) : Prop :=
  let ok b := 0 <= b < NBuf (ft_ctl st) in
  match op with
  | OpPush b _ _ _ _ | OpWrite b _ | OpChange b _ => ok b
  | OpOrigin b pgprocno array_id => ok b /\ 0 <= pgprocno /\ -1 <= array_id < 4
  | OpReuse b _ _ => ok b /\ POLAR_CHECK_BUF_FLOG_STATE st b POLAR_BUF_IN_FLOG_LIST = false
  | OpBackground => True
  end.

(** What the list means: the buffers with the records to insert for them. *)
Definition pendings (st : flog_state) (q : list Z) : list (Z * flog_rec) := map (fun i => (i, pending st i)) q.

(** The same operations on the buffers with their records and the log. *)
Definition flog_spec (st : flog_state) (op : flog_op) (P : list (Z * flog_rec)) (log : list flog_rec) : list (Z * flog_rec) * list flog_rec :=
  match op with
  | OpPush b redo_lsn curr local cand =>
    if bool_decide (b ∈ map fst P) then (P, log)
    else (P ++ [(b, new_record st b redo_lsn (polar_get_local_fbpoint_lsn local curr InvalidXLogRecPtr InvalidXLogRecPtr) (push_info st b cand))], log)
  | OpWrite b invalidate =>
    (filter (fun p => p.1 <> b) P, if invalidate then log else foldl (fun log p => (inserted log p.2).1) log (filter (fun p => p.1 = b) P))
  | OpBackground => match P with [] => (P, log) | (_, r) :: P => (P, (inserted log r).1) end
  | _ => (P, log)
  end.

Lemma pendings_ext st st' q : (forall j, j ∈ q -> pending st' j = pending st j) -> pendings st' q = pendings st q.
Proof. intros H. apply map_ext_in. intros j Hj. f_equal. apply H. by apply list_elem_of_In. Qed.

Lemma pendings_keys st q : map fst (pendings st q) = q.
Proof. unfold pendings. rewrite map_map. apply map_id. Qed.

Lemma pendings_split st l1 b l2 : b ∉ l1 ++ l2 ->
  filter (fun p => p.1 <> b) (pendings st (l1 ++ b :: l2)) = pendings st (l1 ++ l2) /\
  filter (fun p => p.1 = b) (pendings st (l1 ++ b :: l2)) = [(b, pending st b)].
Proof.
  intros Hb. assert (forall l, b ∉ l -> filter (fun p => p.1 <> b) (pendings st l) = pendings st l /\ filter (fun p => p.1 = b) (pendings st l) = []) as H.
  { intros l Hl. split; [apply filter_all|apply filter_none]; intros p (i & <- & Hi%list_elem_of_In)%list_elem_of_In%in_map_iff; cbn; by intros ->. }
  destruct (H l1) as [A1 A2]; [set_solver +Hb|]. destruct (H l2) as [B1 B2]; [set_solver +Hb|].
  unfold pendings in *. rewrite !map_app, !filter_app. cbn [map]. rewrite filter_cons_False, filter_cons_True by (cbn; tauto). by rewrite A1, A2, B1, B2.
Qed.

(** Keeping a page: the origin buffer was free, and is the buffer's now. *)
Lemma origin_spec st q b pgprocno array_id :
  flog_wf st q -> 0 <= b < NBuf (ft_ctl st) -> 0 <= pgprocno -> -1 <= array_id < 4 ->
  let st' := (polar_add_origin_buf st b pgprocno array_id).1.1 in
  flog_wf st' q /\ ft_log st' = ft_log st /\ forall j, j ∈ q -> pending st' j = pending st j.
Proof.
  intros HW Hb Hp Ha st'. unfold st', polar_add_origin_buf, get_a_free_origin_buf. pose proof (w_arr _ _ _ HW) as (A1 & A2 & A3).
  set (a := if array_id =? INVAILD_ORIGIN_BUF_ARRAY then _ else _).
  assert (0 <= a < 4) as Har.
  { unfold a, INVAILD_ORIGIN_BUF_ARRAY. destruct (array_id =? -1) eqn:E; zbool; [apply Z.mod_pos_bound; done|lia]. }
  pose proof (free_origin_spec (Z.to_nat POLAR_ORIGIN_PAGE_BUF_ARRAY_NUM) (fl_origin_buf_bitmap (ft_ctl st)) a Har A3) as Hf.
  destruct (free_origin_loop _ _ a) as [[index bm'] a']. cbv zeta.
  (* a bitmap with more bits, and nothing else *)
  assert (forall bm, length bm = 4%nat -> (forall i, 0 <= i < 128 -> origin_used (ft_ctl st) i = true ->
            Z.testbit (aget 0 bm (GET_ORIGIN_BUF_ARRAY_ID i)) (GET_ORIGIN_BUF_INDEX i) = true) ->
          flog_wf (put_flog_ctl st (set_bitmap (ft_ctl st) bm)) q) as Hbm.
  { intros bm Hl Hmore. destruct HW as [W1 W2 W3 W4 W5 W6 W7]. split; try done.
    - apply (list_ext (ft_ctl st)); [apply W1|done..].
    - intros i Hi Hne. destruct (W6 i Hi Hne) as (B1 & B2 & B3). split; [done|]. split; [by apply Hmore|done]. }
  destruct Hf as [(-> & -> & _)|(w & n & Hw & Hn & -> & Hbit & ->)].
  { rewrite Z.eqb_refl. cbn [negb fst]. split; [|split; [done|intros j Hj; by apply pending_ext]]. apply Hbm; [done|]. by intros i Hi. }
  set (index := w * 32 + n). set (bm' := aset _ w _).
  assert (0 <= index < 128) as Hidx by (unfold index; lia).
  assert (GET_ORIGIN_BUF_ARRAY_ID index = w /\ GET_ORIGIN_BUF_INDEX index = n) as [Ew En]
    by (rewrite origin_bit; unfold GET_ORIGIN_BUF_ARRAY_ID, POLAR_ORIGIN_PAGE_BUF_NUM_PER_ARRAY, index; mlia).
  assert (origin_used (ft_ctl st) index = false) as Hfree by (unfold origin_used; by rewrite Ew, En).
  assert (forall i, Z.testbit (aget 0 bm' (GET_ORIGIN_BUF_ARRAY_ID i)) (GET_ORIGIN_BUF_INDEX i) = origin_used (ft_ctl st) i || (i =? index)) as Hbits.
  { intros i. unfold bm'. rewrite aget_aset by (rewrite A3; lia). unfold origin_used. destruct (decide (w = GET_ORIGIN_BUF_ARRAY_ID i)) as [E|Hne].
    - rewrite Z.lor_spec, Z.pow2_bits_eqb, E by lia. f_equal. destruct (Z.eqb_spec n (GET_ORIGIN_BUF_INDEX i)) as [E'|Hn']; symmetry.
      + apply Z.eqb_eq. apply origin_index_eq; congruence.
      + apply Z.eqb_neq. intros ->. congruence.
    - assert ((i =? index) = false) as -> by (apply Z.eqb_neq; intros ->; congruence). by rewrite orb_false_r. }
  assert (length bm' = 4%nat) as Hl by (unfold bm'; by rewrite length_aset).
  assert ((index =? INVAILD_ORIGIN_BUF_INDEX) = false) as -> by (apply Z.eqb_neq; unfold INVAILD_ORIGIN_BUF_INDEX; lia). cbn [negb].
  destruct (POLAR_CHECK_BUF_FLOG_STATE st b POLAR_BUF_IN_FLOG_LIST) eqn:Ein; cbn [fst].
  { split; [|split; [done|intros j Hj; by apply pending_ext]]. apply Hbm; [done|]. intros i _ Hu. by rewrite Hbits, Hu. }
  assert (b ∉ q) as Hnin. { destruct (w_flag _ _ _ HW b Hb ltac:(lia)) as [F _]. rewrite Ein in F. symmetry in F. by apply bool_decide_eq_false in F. }
  rewrite Ew. set (c1 := set_origin _ index _ _ _ _). set (c2 := set_slot c1 b _).
  assert (fl_origin_buf_bitmap c2 = bm') as Ebm.
  { change (aset bm' w (aget 0 bm' w) = bm'). unfold aset at 1, aget. rewrite !decide_True by lia. apply list_insert_id.
    destruct (bm' !! Z.to_nat w) eqn:El; [done|]. apply lookup_ge_None_1 in El. lia. }
  assert (forall j, slot c2 j = if decide (b = j) then sl_set_origin (slot (ft_ctl st) b) index else slot (ft_ctl st) j) as Hs
    by (intros j; by apply (slot_set c1 b)).
  assert (NBuf c2 = NBuf (ft_ctl st)) as EN by (unfold c2; by rewrite NBuf_set).
  assert (forall i, 0 <= i < NBuf (ft_ctl st) -> origin st i <> index) as Hnew.
  { intros i Hi E. destruct (decide (index = INVAILD_ORIGIN_BUF_INDEX)) as [E'|Hne]; [unfold INVAILD_ORIGIN_BUF_INDEX in E'; lia|].
    rewrite <- E in Hne. destruct (w_orig _ _ _ HW i Hi Hne) as (_ & Hu & _). rewrite E in Hu. congruence. }
  split; [|split; [done|]].
  - destruct HW as [W1 W2 W3 W4 W5 W6 W7]. split; cbn [ft_ctl put_flog_ctl]; rewrite ?EN; try done.
    + apply (list_ext (ft_ctl st)); [apply W1|done..|]. intros j _. unfold flinks. rewrite Hs. by destruct (decide _) as [<-|].
    + unfold arrays_ok. rewrite Ebm. change (fl_origin_buf c2) with (aset (fl_origin_buf (ft_ctl st)) index (fb_page (fbuf st b))).
      change (fl_buf_tag c2) with (aset (fl_buf_tag (ft_ctl st)) index (fb_tag (fbuf st b))). by rewrite !length_aset.
    + intros i Hi Hx Hni. rewrite Hs. destruct (decide _) as [<-|]; by apply W5.
    + intros i Hi. rewrite Hs. destruct (decide (b = i)) as [<-|Hib].
      * intros _. cbn [sl_origin_buf_index sl_set_origin]. split; [done|]. split; [unfold origin_used; rewrite Ebm, Hbits, Z.eqb_refl; apply orb_true_r|done].
      * intros Hne. destruct (W6 i Hi Hne) as (B1 & B2 & B3). split; [done|]. split; [unfold origin_used; rewrite Ebm, Hbits, B2; done|].
        intros Hq. etransitivity; [|exact (B3 Hq)]. change (fl_buf_tag c2) with (aset (fl_buf_tag (ft_ctl st)) index (fb_tag (fbuf st b))).
        apply aget_aset_ne. intros E. by apply (Hnew i).
    + intros i j Hi Hj. rewrite !Hs. destruct (decide (b = i)) as [<-|Hib]; destruct (decide (b = j)) as [<-|Hjb]; cbn [sl_origin_buf_index sl_set_origin]; try done.
      * intros E. by destruct (Hnew j Hj).
      * intros E. by destruct (Hnew i Hi).
      * by apply W7.
  - intros j Hj. apply pending_ext; [|done|].
    + cbn [ft_ctl put_flog_ctl]. rewrite Hs, decide_False; [done|]. by intros ->.
    + apply (aget_aset_ne zero_page (fl_origin_buf (ft_ctl st)) index (origin st j)). intros E. apply (Hnew j); [by apply (lw_range _ _ (w_list _ _ _ HW))|done].
Qed.

(** Another page, or another version of the page, in a buffer. *)
Lemma page_spec st q b tag page :
  flog_wf st q -> 0 <= b < NBuf (ft_ctl st) -> (b ∈ q -> tag = fb_tag (fbuf st b)) ->
  let st' := put_page st b tag page in flog_wf st' q /\ forall j, j ∈ q -> pending st' j = pending st j.
Proof.
  intros HW Hb Htag st'. pose proof (w_len _ _ _ HW) as Hlen.
  assert (forall j, fbuf st' j = if decide (b = j) then mk_fbuf tag (fb_redo_state (fbuf st b)) page else fbuf st j) as Hf
    by (intros j; apply aget_aset; lia).
  assert (forall j, j ∈ q -> fb_tag (fbuf st' j) = fb_tag (fbuf st j)) as Ht.
  { intros j Hj. rewrite Hf. destruct (decide (b = j)) as [<-|]; [by apply Htag|done]. }
  split; [|intros j Hj; apply pending_ext; [done|by apply Ht|done]]. destruct HW as [W1 W2 W3 W4 W5 W6 W7]. split; try done.
  - unfold st', put_page. cbn [ft_bufs]. by rewrite length_aset.
  - intros i Hi Hx. rewrite <- (proj1 (W4 i Hi Hx)), <- (proj2 (W4 i Hi Hx)) at 1. unfold POLAR_CHECK_BUF_FLOG_STATE. rewrite Hf. by destruct (decide (b = i)) as [<-|].
  - intros i Hi Hne. destruct (W6 i Hi Hne) as (A & B & C). split; [done|]. split; [done|]. intros Hq. rewrite (Ht i Hq). by apply C.
Qed.

(** Forgetting the pointer of a buffer changes nothing else. *)
Lemma flush_spec st q b invalidate :
  flog_wf st q -> 0 <= b < NBuf (ft_ctl st) ->
  let '(st', up_to) := polar_flush_buf_flog st b invalidate in
  flog_wf st' q /\ NBuf (ft_ctl st') = NBuf (ft_ctl st) /\ ft_log st' = ft_log st /\ (forall j, pending st' j = pending st j) /\ sl_flashback_ptr (slot (ft_ctl st') b) = POLAR_INVALID_FLOG_REC_PTR /\
  up_to = (if (sl_flashback_ptr (slot (ft_ctl st) b) =? POLAR_INVALID_FLOG_REC_PTR) || invalidate then None else Some (sl_flashback_ptr (slot (ft_ctl st) b))).
Proof.
  intros HW Hb. unfold polar_flush_buf_flog. destruct (Z.eqb_spec (sl_flashback_ptr (slot (ft_ctl st) b)) POLAR_INVALID_FLOG_REC_PTR) as [E|Hne]; cbn [negb orb].
  { by split_and!. }
  set (c1 := set_slot _ b _). assert (forall j, slot c1 j = if decide (b = j) then sl_set_ptr (slot (ft_ctl st) b) POLAR_INVALID_FLOG_REC_PTR else slot (ft_ctl st) j) as Hs
    by (intros j; by apply slot_set).
  assert (NBuf c1 = NBuf (ft_ctl st)) as EN by apply NBuf_set.
  assert (forall j, flinks c1 j = flinks (ft_ctl st) j /\ sl_origin_buf_index (slot c1 j) = origin st j /\ sl_info (slot c1 j) = sl_info (slot (ft_ctl st) j)) as Hsame
    by (intros j; unfold flinks; rewrite Hs; by destruct (decide (b = j)) as [<-|]).
  split; [|split; [done|split; [done|split; [|split]]]].
  - apply (core_ctl (-1) st c1 q q HW); try done.
    + apply (list_ext (ft_ctl st)); [apply HW|done..|]. intros j _. apply Hsame.
    + intros j. apply Hsame.
    + intros j _. split; [apply Hsame|done].
  - intros j. unfold pending. cbn [ft_ctl put_flog_ctl]. rewrite Hs. by destruct (decide (b = j)) as [<-|].
  - cbn [ft_ctl put_flog_ctl]. by rewrite Hs, decide_True.
  - by destruct invalidate.
Qed.

(** Writing out a buffer: its record comes first, and the log is flushed up
    to its end. *)
Lemma write_spec st q b invalidate :
  flog_wf st q -> 0 <= b < NBuf (ft_ctl st) ->
  exists st' up_to, polar_flush_buf_flog_rec page_on_disk rec_end st b invalidate true = Done (st', up_to) /\
    flog_wf st' (filter (fun i => i <> b) q) /\ NBuf (ft_ctl st') = NBuf (ft_ctl st) /\ (forall j, j ∈ q -> j <> b -> pending st' j = pending st j) /\
    ft_log st' = (if bool_decide (b ∈ q) && negb invalidate then (inserted (ft_log st) (pending st b)).1 else ft_log st) /\
    sl_flashback_ptr (slot (ft_ctl st') b) = POLAR_INVALID_FLOG_REC_PTR /\
    let ptr := if bool_decide (b ∈ q) && negb invalidate then (inserted (ft_log st) (pending st b)).2 else sl_flashback_ptr (slot (ft_ctl st) b) in
    up_to = if (ptr =? POLAR_INVALID_FLOG_REC_PTR) || invalidate then None else Some ptr.
Proof.
  intros HW Hb. unfold polar_flush_buf_flog_rec. rewrite (proj1 (w_flag _ _ _ HW b Hb ltac:(lia))).
  pose proof (process_spec st q b false invalidate true HW Hb) as Hp. destruct (bool_decide (b ∈ q)) eqn:Eq.
  - destruct Hp as (l1 & l2 & st1 & -> & -> & HW1 & EN & El & Ept & Hp). cbn [obind].
    pose proof (flush_spec st1 (l1 ++ l2) b invalidate HW1 ltac:(by rewrite EN)) as Hf. destruct (polar_flush_buf_flog st1 b invalidate) as [st2 up_to].
    destruct Hf as (HW2 & EN2 & El2 & Hp2 & Eptr & Hup). exists st2, up_to. split; [done|].
    pose proof (lw_nodup _ _ (w_list _ _ _ HW)) as Hnd. apply NoDup_app in Hnd as (_ & Hd & Hn2). apply NoDup_cons in Hn2 as [Hb2 _].
    assert (b ∉ l1) as Hb1 by (intros H; apply (Hd _ H); by left).
    rewrite filter_app, filter_cons_False by (cbn; tauto). rewrite !filter_all by (intros i Hi ->; done). split; [done|]. split; [by rewrite EN2|]. split; [|split; [|split; [done|]]].
    + intros j Hj Hne. rewrite Hp2. apply Hp. set_solver +Hj Hne.
    + rewrite El2, El. by destruct invalidate.
    + cbv zeta. destruct invalidate; cbn [andb negb]; [rewrite orb_true_r in *; done|]. by rewrite <- Ept.
  - apply bool_decide_eq_false in Eq. cbn [obind andb]. pose proof (flush_spec st q b invalidate HW Hb) as Hf.
    destruct (polar_flush_buf_flog st b invalidate) as [st2 up_to]. destruct Hf as (HW2 & EN2 & El2 & Hp2 & Eptr & Hup).
    exists st2, up_to. split; [done|]. rewrite filter_all by (intros i Hi ->; done). by split_and!.
Qed.

Lemma pendings_write st q b :
  filter (fun p => p.1 <> b) (pendings st q) = pendings st (filter (fun i => i <> b) q) /\
  (NoDup q -> filter (fun p => p.1 = b) (pendings st q) = if bool_decide (b ∈ q) then [(b, pending st b)] else []).
Proof.
  split.
  - induction q as [|i q IH]; [done|]. cbn [pendings map]. rewrite !filter_cons. cbn [fst]. destruct (decide (i <> b)); [|exact IH]. cbn [map pendings]. f_equal. exact IH.
  - intros Hnd. destruct (bool_decide (b ∈ q)) eqn:E.
    + apply bool_decide_eq_true, list_elem_of_split in E as (l1 & l2 & ->). enough (b ∉ l1 ++ l2) as Hb by (by rewrite (proj2 (pendings_split st l1 b l2 Hb))).
      apply NoDup_app in Hnd as (_ & Hd & Hn2). apply NoDup_cons in Hn2 as [Hb2 _]. intros [H|H]%elem_of_app; [apply (Hd _ H); by left|done].
    + apply bool_decide_eq_false in E. rewrite filter_none; [done|]. intros p (i & <- & Hi%list_elem_of_In)%list_elem_of_In%in_map_iff. cbn. by intros ->.
Qed.

(** One operation, on the control block and on the buffers with their records. *)
Lemma run_spec st q op :
  flog_wf st q -> op_ok st op -> exists st' q', flog_run st op = Done st' /\ flog_wf st' q' /\
    (pendings st' q', ft_log st') = flog_spec st op (pendings st q) (ft_log st).
Proof.
  intros HW Hok. destruct op as [b redo curr local cand|b pgprocno a|b invalidate|b page|b tag page|]; cbn [op_ok flog_run flog_spec] in *.
  - rewrite pendings_keys. pose proof (flog_push_spec st q b redo curr local cand HW Hok) as Hp. destruct (bool_decide (b ∈ q)) eqn:Eq.
    + rewrite Hp. exists st, q. by split_and!.
    + destruct Hp as (st' & -> & HW' & _ & El & Hn & Ho & _). exists st', (q ++ [b]). split; [done|]. split; [done|]. rewrite El. f_equal.
      unfold pendings at 1. rewrite map_app. cbn [map]. rewrite Hn. f_equal. by apply pendings_ext.
  - destruct Hok as (Hb & Hp & Ha). destruct (origin_spec st q b pgprocno a HW Hb Hp Ha) as (HW' & El & Ho). exists (polar_add_origin_buf st b pgprocno a).1.1, q.
    split; [done|]. split; [done|]. rewrite El. f_equal. by apply pendings_ext.
  - destruct (write_spec st q b invalidate HW Hok) as (st' & up & -> & HW' & _ & Ho & El & _). eexists st', _. split; [done|]. split; [exact HW'|].
    destruct (pendings_write st q b) as [-> Hs]. rewrite Hs by apply (w_list _ _ _ HW). rewrite El. f_equal.
    + apply pendings_ext. intros j [Hj Hq]%list_elem_of_filter. by apply Ho.
    + destruct invalidate, (bool_decide (b ∈ q)); done.
  - destruct (page_spec st q b (fb_tag (fbuf st b)) page HW Hok) as [HW' Ho]; [done|]. eexists _, q. split; [done|]. split; [exact HW'|]. f_equal. by apply pendings_ext.
  - destruct Hok as [Hb Hin]. destruct (page_spec st q b tag page HW Hb) as [HW' Ho].
    { rewrite (proj1 (w_flag _ _ _ HW b Hb ltac:(lia))) in Hin. by apply bool_decide_eq_false in Hin. }
    eexists _, q. split; [done|]. split; [exact HW'|]. f_equal. by apply pendings_ext.
  - unfold polar_process_flog_list_bg, process_head, get_flog_list_head_with_lock. rewrite (lw_head _ _ (w_list _ _ _ HW)). destruct q as [|b q]; cbn [hd_or].
    { rewrite Z.eqb_refl. exists st, []. by split_and!. }
    assert (0 <= b < NBuf (ft_ctl st)) as Hb by (apply (lw_range _ _ (w_list _ _ _ HW)); by left).
    assert ((b =? NOT_IN_FLOG_LIST) = false) as -> by (apply Z.eqb_neq; unfold NOT_IN_FLOG_LIST; lia).
    pose proof (process_spec st (b :: q) b true false true HW Hb) as Hp. rewrite bool_decide_true in Hp by (by left).
    destruct Hp as (l1 & l2 & st' & Eq & -> & HW' & _ & El & _ & Ho). cbn [obind negb andb].
    assert (l1 = [] /\ l2 = q) as [-> ->].
    { destruct l1 as [|x l1]; [by injection Eq|]. injection Eq as <- Eq. pose proof (lw_nodup _ _ (w_list _ _ _ HW)) as [Hnb _]%NoDup_cons.
      exfalso. apply Hnb. rewrite Eq. apply elem_of_app. right. by left. }
    exists st', q. split; [done|]. split; [done|]. cbn [pendings map]. rewrite El. f_equal. by apply pendings_ext.
Qed.

(** The list after start-up. *)
Lemma flog_init_wf bufs :
  Forall (fun b => has_state (fb_redo_state b) POLAR_BUF_IN_FLOG_LIST = false /\ has_state (fb_redo_state b) POLAR_BUF_INSERTING_FLOG = false) bufs ->
  flog_wf (mk_flog (polar_flog_list_init_data (length bufs)) bufs []) [].
Proof.
  intros Hb. assert (forall i, slot (polar_flog_list_init_data (length bufs)) i = free_slot) as Hs.
  { intros i. unfold slot, aget. cbn [fl_flashback_list polar_flog_list_init_data]. destruct (decide _); [|done].
    destruct (replicate (length bufs) free_slot !! Z.to_nat i) eqn:E; [|done]. by apply lookup_replicate in E as [-> _]. }
  assert (NBuf (polar_flog_list_init_data (length bufs)) = Z.of_nat (length bufs)) as EN by (unfold NBuf; cbn; by rewrite length_replicate).
  split; cbn [ft_ctl ft_bufs]; rewrite ?EN; try done.
  - split; try done; [|constructor]. by intros i Hi%not_elem_of_nil.
  - intros i Hi _. unfold POLAR_CHECK_BUF_FLOG_STATE, fbuf, aget. cbn [ft_bufs]. rewrite decide_True by lia.
    destruct (lookup_lt_is_Some_2 bufs (Z.to_nat i) ltac:(lia)) as [b Eb]. rewrite Eb. cbn [default]. exact (Forall_lookup_1 _ _ _ _ Hb Eb).
  - intros i _ _ _. by rewrite Hs.
  - intros i _ Hne. by rewrite Hs in Hne.
  - intros i j _ _ _ Hne. by rewrite Hs in Hne.
Qed.

(** C18: each operation on the list of the flashback log does to the control
    block what it means for the buffers of the list with their records: a
    buffer is appended with its record when it is not in the list, its
    record is fixed then, whatever happens to the pages and the origin
    buffers meanwhile, the background worker inserts the first record, and a
    buffer that is written or dropped leaves the list, in the first case
    with its record inserted.  No link outside the array is written. *)
Theorem flog_ops_refine (st : flog_state) (q : list Z) (op : flog_op) (HW : flog_wf st q) (Hok : op_ok st op) :
  exists st' q', flog_run st op = Done st' /\ flog_wf st' q' /\ (pendings st' q', ft_log st') = flog_spec st op (pendings st q) (ft_log st).
Proof. by apply run_spec. Qed.

(** The background worker, as often as told. *)
Fixpoint worker (n : nat) (st : flog_state) : outcome flog_state :=
  match n with O => Done st | S k => let! st := polar_process_flog_list_bg page_on_disk rec_end st in worker k st end.

(** The background worker empties the list: as many rounds as there are
    buffers in the list insert their records in the order in which the
    buffers were put in the list. *)
Theorem flog_worker_drains (st : flog_state) (q : list Z) (HW : flog_wf st q) :
  exists st', worker (length q) st = Done st' /\ flog_wf st' [] /\ ft_log st' = foldl (fun log b => (inserted log (pending st b)).1) (ft_log st) q.
Proof.
  revert st HW. induction q as [|b q IH]; intros st HW; cbn [length worker]; [by exists st|].
  destruct (run_spec st (b :: q) OpBackground HW) as (st1 & q1 & Hr & HW1 & E); [done|]. cbn [flog_run flog_spec pendings map] in *. rewrite Hr. cbn [obind].
  injection E as E1 E2. assert (q1 = q) as -> by (rewrite <- (pendings_keys st1 q1), <- (pendings_keys st q); by f_equal).
  destruct (IH st1 HW1) as (st' & -> & HW' & El). exists st'. split; [done|]. split; [done|]. rewrite El, E2. cbn [foldl]. fold (pendings st1 q) in E1.
  assert (forall l log, pendings st1 l = pendings st l ->
    foldl (fun log b => (inserted log (pending st1 b)).1) log l = foldl (fun log b => (inserted log (pending st b)).1) log l) as Hfold.
  { induction l as [|i l IHl]; intros log Hl; [done|]. cbn [foldl]. pose proof (f_equal (fun P => snd (hd (0, pending st i) P)) Hl) as Hi. cbn in Hi. rewrite Hi. apply IHl. exact (f_equal (@tail _) Hl). }
  by apply Hfold.
Qed.

(** What the caller that is about to write a buffer of the list gets from
    [polar_flush_buf_flog_rec], when the pending record is one that is
    inserted: the record is at the end of the log, and the pointer that
    [polar_flog_flush] is called with is its end; a buffer that is dropped
    is only forgotten.  (The flush itself is in [FlogBufTheorems]; the write
    of the page is not modelled.) *)
Lemma flush_buf_rec_pointer (st : flog_state) (q : list Z) (b : Z) (HW : flog_wf st q) (Hb : b ∈ q)
    (Hlog : (inserted (ft_log st) (pending st b)).1 = ft_log st ++ [pending st b]) (Hend : rec_end (ft_log st ++ [pending st b]) <> POLAR_INVALID_FLOG_REC_PTR) :
  (exists st', polar_flush_buf_flog_rec page_on_disk rec_end st b false true = Done (st', Some (rec_end (ft_log st'))) /\
     ft_log st' = ft_log st ++ [pending st b] /\ POLAR_CHECK_BUF_FLOG_STATE st' b POLAR_BUF_IN_FLOG_LIST = false) /\
  (exists st', polar_flush_buf_flog_rec page_on_disk rec_end st b true true = Done (st', None) /\
     ft_log st' = ft_log st /\ POLAR_CHECK_BUF_FLOG_STATE st' b POLAR_BUF_IN_FLOG_LIST = false).
Proof.
  pose proof (lw_range _ _ (w_list _ _ _ HW) _ Hb) as Hr.
  assert (inserted (ft_log st) (pending st b) = (ft_log st ++ [pending st b], rec_end (ft_log st ++ [pending st b]))) as Ei.
  { unfold polar_insert_buf_flog_rec in *. destruct (_ && _); [|done]. cbn in Hlog. apply (f_equal length) in Hlog. rewrite length_app in Hlog. cbn in Hlog. lia. }
  assert (forall st', flog_wf st' (filter (fun i => i <> b) q) -> NBuf (ft_ctl st') = NBuf (ft_ctl st) -> POLAR_CHECK_BUF_FLOG_STATE st' b POLAR_BUF_IN_FLOG_LIST = false) as Hout.
  { intros st' HW' EN. rewrite (proj1 (w_flag _ _ _ HW' b ltac:(lia) ltac:(lia))). apply bool_decide_eq_false. by intros [? _]%list_elem_of_filter. }
  destruct (write_spec st q b false HW Hr) as (st1 & up1 & E1 & HW1 & EN1 & _ & El1 & _ & Eu1). destruct (write_spec st q b true HW Hr) as (st2 & up2 & E2 & HW2 & EN2 & _ & El2 & _ & Eu2).
  rewrite bool_decide_true, Ei in El1, Eu1 by done. cbn [andb negb fst snd] in El1, Eu1. rewrite orb_false_r, (proj2 (Z.eqb_neq _ _) Hend) in Eu1.
  rewrite andb_false_r in El2. cbv zeta in Eu2. rewrite orb_true_r in Eu2. subst up1 up2. split; [exists st1|exists st2]; rewrite ?E1, ?E2, ?El1; by eauto.
Qed.
End spec.

(** ** Examples *)

(** Pages of eight bytes, with their LSN only. *)
Definition lsn_page (lsn : Z) : list Z := [0; 0; 0; 0; lsn; 0; 0; 0].
Definition flog_demo_tag (blk : Z) : BufferTag := mk_tag 1663 13000 16384 0 blk.
Definition flog_demo_bufs : list flog_buf := [mk_fbuf (flog_demo_tag 0) 0 (lsn_page 10); mk_fbuf (flog_demo_tag 1) 0 (lsn_page 20)].
Definition flog_demo : flog_state := mk_flog (polar_flog_list_init_data (length flog_demo_bufs)) flog_demo_bufs [].
Definition flog_demo_disk (tag : BufferTag) : option (list Z) := Some (lsn_page 5).
Definition flog_demo_end (log : list flog_rec) : Z := 40 + 100 * Z.of_nat (length log).

Lemma flog_demo_wf : flog_wf flog_demo [].
Proof. apply flog_init_wf. repeat constructor. Qed.

Lemma flog_demo_pushed :
  exists st, flog_wf st [0; 1] /\ ft_log st = [] /\ pending flog_demo_disk st 0 = mk_rec (flog_demo_tag 0) 50 50 FLOG_LIST_SLOT_READY (lsn_page 5) false.
Proof.
  destruct (flog_push_spec flog_demo_disk flog_demo [] 0 50 50 0 false flog_demo_wf) as (st1 & _ & HW1 & EN1 & El1 & Hp1 & _); [done|].
  pose proof (flog_push_spec flog_demo_disk st1 [0] 1 50 50 0 false HW1 ltac:(rewrite EN1; done)) as H. rewrite bool_decide_false in H by set_solver.
  destruct H as (st2 & _ & HW2 & _ & El2 & _ & Ho & _). exists st2. split; [exact HW2|]. split; [by rewrite El2|].
  rewrite Ho by (by left). rewrite Hp1. reflexivity.
Qed.

Lemma flog_ops_refine_witness :
  exists st' q', flog_run flog_demo_disk flog_demo_end flog_demo (OpPush 0 50 50 0 false) = Done st' /\ flog_wf st' q' /\
    (pendings flog_demo_disk st' q', ft_log st') = ([(0, mk_rec (flog_demo_tag 0) 50 50 FLOG_LIST_SLOT_READY (lsn_page 5) false)], []).
Proof. exact (flog_ops_refine flog_demo_disk flog_demo_end flog_demo [] (OpPush 0 50 50 0 false) flog_demo_wf ltac:(done)). Defined.

Lemma flog_worker_drains_witness :
  exists st st', flog_wf st [0; 1] /\ worker flog_demo_disk flog_demo_end 2 st = Done st' /\ flog_wf st' [].
Proof.
  destruct flog_demo_pushed as (st & HW & El & Hp). destruct (flog_worker_drains flog_demo_disk flog_demo_end st [0; 1] HW) as (st' & H1 & H2 & H3).
  exists st, st'. by split_and!.
Defined.

Lemma flush_buf_rec_pointer_demo :
  exists st st', flog_wf st [0; 1] /\
    polar_flush_buf_flog_rec flog_demo_disk flog_demo_end st 0 false true = Done (st', Some 140).
Proof.
  destruct flog_demo_pushed as (st & HW & El & Hp). exists st.
  destruct (flush_buf_rec_pointer flog_demo_disk flog_demo_end st [0; 1] 0 HW ltac:(by left)) as [(st' & H1 & H2 & _) _].
  - rewrite El, Hp. reflexivity.
  - rewrite El, Hp. done.
  - exists st'. split; [done|]. rewrite H1, H2, El. reflexivity.
Defined.

(** ** What can go wrong *)

(** The steps of the background worker and of two other processes. *)
Definition stale_head_steps (st : flog_state) : outcome flog_state :=
  let! (st, _) := polar_push_buf_to_flog_list st 1 50 50 0 false in
  let head := get_flog_list_head_with_lock (ft_ctl st) in
  let! (st, _) := polar_flush_buf_flog_rec flog_demo_disk flog_demo_end st head false true in
  let '(st, _) := set_buf_in_list st head in
  process_head flog_demo_disk flog_demo_end st head.

(** The background worker has read the head of the list when another
    process writes out that buffer, which leaves the list, and a third one
    marks the buffer as being in the list again, before it has linked it.
    The worker then unlinks a buffer that is not linked, and writes the link
    of the buffer before it, of index -1, outside the array. *)
Theorem stale_head_corrupts : stale_head_steps flog_demo = Fault UNDEFINED.
Proof. vm_compute. reflexivity. Qed.

(** A page kept by an exclusive lock; its buffer is used for another page;
    127 exclusive locks of one other page; the first page comes back, newer,
    and is changed. *)
Definition stale_origin_ops : list flog_op :=
  [OpOrigin 0 0 0; OpReuse 0 (flog_demo_tag 7) (lsn_page 10)] ++ repeat (OpOrigin 1 0 0) 127 ++
  [OpReuse 0 (flog_demo_tag 0) (lsn_page 30); OpOrigin 0 0 0; OpPush 0 50 50 0 false; OpBackground].

Fixpoint flog_runs (page_on_disk : BufferTag -> option (list Z)) (rec_end : list flog_rec -> Z) (st : flog_state) (ops : list flog_op) : outcome flog_state :=
  match ops with [] => Done st | op :: ops => let! st := flog_run page_on_disk rec_end st op in flog_runs page_on_disk rec_end st ops end.

Definition logged_pages (r : outcome flog_state) : option (list (list Z)) :=
  match r with Done st => Some (map rc_origin_page (ft_log st)) | Fault _ => None end.

(** the origin buffers are not given back: a second exclusive lock of a
    page that is not changed takes another one and loses the first.  When
    one page has used them all up, a page that comes back to the buffer in
    which an older version of it was kept is logged in that version,
    although the buffer and the disk had the newer one. *)
Theorem stale_origin_logged :
  logged_pages (flog_runs (fun _ => Some (lsn_page 30)) flog_demo_end flog_demo stale_origin_ops) = Some [lsn_page 10].
Proof. vm_compute. reflexivity. Qed.
