(* ===== verification/FlogPos.v ===== *)
(** * Positions in the flashback log (polar_flashback/polar_flashback_log_file.c)

    The log is a sequence of pages with headers, the first of a segment with
    a long one.  A _usable byte position_ counts the bytes between the
    headers.  This file has the conversions between positions and pointers
    ([polar_flog_pos2ptr], [polar_flog_pos2endptr], [polar_flog_ptr2pos]) and
    describes them by the page and the offset in it. *)

From S2P Require Import Prelude.

Definition POLAR_FLOG_BLCKSZ : Z := 8192.
Definition POLAR_FLOG_SEG_SIZE : Z := 268435456.
Definition FLOG_SHORT_PHD_SIZE : Z := 24.
Definition FLOG_LONG_PHD_SIZE : Z := 40.
Definition USABLE_BYTES_IN_PAGE : Z := POLAR_FLOG_BLCKSZ - FLOG_SHORT_PHD_SIZE.
Definition USABLE_BYTES_IN_SEG : Z := POLAR_FLOG_SEG_SIZE / POLAR_FLOG_BLCKSZ * USABLE_BYTES_IN_PAGE - (FLOG_LONG_PHD_SIZE - FLOG_SHORT_PHD_SIZE).

Definition FLOG_SEGMENT_OFFSET (ptr : Z) : Z := Z.land ptr (POLAR_FLOG_SEG_SIZE - 1).
Definition FLOG_SEG_OFFSET_TO_PTR (segno offset : Z) : Z := u64 (u64 (segno * POLAR_FLOG_SEG_SIZE) + offset).
Definition FLOG_PTR_TO_SEG (ptr : Z) : Z := ptr / POLAR_FLOG_SEG_SIZE.
Definition FLOG_PTR_PREV_TO_SEG (ptr : Z) : Z := u64 (ptr - 1) / POLAR_FLOG_SEG_SIZE.
Definition FLOG_PTR_PREV_IN_SEG (ptr seg_no : Z) : bool := u64 (ptr - 1) / POLAR_FLOG_SEG_SIZE =? seg_no.

Definition polar_flog_pos2ptr (bytepos : Z) : Z :=
  let fullsegs := bytepos / USABLE_BYTES_IN_SEG in
  let bytesleft := bytepos mod USABLE_BYTES_IN_SEG in
  let seg_offset :=
    if bytesleft <? POLAR_FLOG_BLCKSZ - FLOG_LONG_PHD_SIZE then u32 (bytesleft + FLOG_LONG_PHD_SIZE)
    else
      let bytesleft := bytesleft - (POLAR_FLOG_BLCKSZ - FLOG_LONG_PHD_SIZE) in
      let fullpages := bytesleft / USABLE_BYTES_IN_PAGE in
      let bytesleft := bytesleft mod USABLE_BYTES_IN_PAGE in
      u32 (POLAR_FLOG_BLCKSZ + (fullpages * POLAR_FLOG_BLCKSZ + bytesleft + FLOG_SHORT_PHD_SIZE)) in
  FLOG_SEG_OFFSET_TO_PTR fullsegs seg_offset.

Definition polar_flog_pos2endptr (bytepos : Z) : Z :=
  let fullsegs := bytepos / USABLE_BYTES_IN_SEG in
  let bytesleft := bytepos mod USABLE_BYTES_IN_SEG in
  let seg_offset :=
    if bytesleft <? POLAR_FLOG_BLCKSZ - FLOG_LONG_PHD_SIZE then
      if bytesleft =? 0 then 0 else u32 (bytesleft + FLOG_LONG_PHD_SIZE)
    else
      let bytesleft := bytesleft - (POLAR_FLOG_BLCKSZ - FLOG_LONG_PHD_SIZE) in
      let fullpages := bytesleft / USABLE_BYTES_IN_PAGE in
      let bytesleft := bytesleft mod USABLE_BYTES_IN_PAGE in
      if bytesleft =? 0 then u32 (POLAR_FLOG_BLCKSZ + (fullpages * POLAR_FLOG_BLCKSZ + bytesleft))
      else u32 (POLAR_FLOG_BLCKSZ + (fullpages * POLAR_FLOG_BLCKSZ + bytesleft + FLOG_SHORT_PHD_SIZE)) in
  FLOG_SEG_OFFSET_TO_PTR fullsegs seg_offset.

Definition polar_flog_ptr2pos (ptr : Z) : Z :=
  let fullsegs := FLOG_PTR_TO_SEG ptr in
  let fullpages := u32 (FLOG_SEGMENT_OFFSET ptr / POLAR_FLOG_BLCKSZ) in
  let offset := u32 (ptr mod POLAR_FLOG_BLCKSZ) in
  if fullpages =? 0 then
    let result := u64 (fullsegs * USABLE_BYTES_IN_SEG) in
    if offset >? 0 then u64 (result + (offset - FLOG_LONG_PHD_SIZE)) else result
  else
    let result := u64 (fullsegs * USABLE_BYTES_IN_SEG + (POLAR_FLOG_BLCKSZ - FLOG_LONG_PHD_SIZE) + (fullpages - 1) * USABLE_BYTES_IN_PAGE) in
    if offset >? 0 then u64 (result + (offset - FLOG_SHORT_PHD_SIZE)) else result.

Definition convert_to_first_valid_ptr (page_ptr : Z) : Z :=
  if page_ptr mod POLAR_FLOG_SEG_SIZE =? 0 then u64 (page_ptr + FLOG_LONG_PHD_SIZE)
  else if page_ptr mod POLAR_FLOG_BLCKSZ =? 0 then u64 (page_ptr + FLOG_SHORT_PHD_SIZE)
  else page_ptr.

Definition MAXALIGN (len : Z) : Z := Z.land (len + 7) (Z.lnot 7).

Definition polar_get_next_flog_ptr (ptr log_len : Z) : Z := polar_flog_pos2ptr (u64 (polar_flog_ptr2pos ptr + MAXALIGN log_len)).

(** ** Pages

    Page [k] has [page_hdr k] bytes of header, and [page_pos k] is the
    position of the first byte after it. *)

Definition page_hdr (k : Z) : Z := if k mod 32768 =? 0 then FLOG_LONG_PHD_SIZE else FLOG_SHORT_PHD_SIZE.
Definition page_pos (k : Z) : Z := k * 8168 - 16 * ((k + 32767) / 32768).

Lemma page_hdr_cases k : page_hdr k = 40 /\ k mod 32768 = 0 \/ page_hdr k = 24 /\ k mod 32768 <> 0.
Proof. unfold page_hdr, FLOG_LONG_PHD_SIZE, FLOG_SHORT_PHD_SIZE. destruct (k mod 32768 =? 0) eqn:E; zbool; [by left|by right]. Qed.

Lemma page_pos_next k : page_pos (k + 1) = page_pos k + (8192 - page_hdr k).
Proof. unfold page_pos. destruct (page_hdr_cases k) as [[-> H]|[-> H]]; Z.div_mod_to_equations; lia. Qed.

Lemma page_pos_lt j k : j < k -> page_pos j < page_pos k.
Proof. unfold page_pos. intros. Z.div_mod_to_equations. lia. Qed.

Lemma page_pos_nonneg k : 0 <= k -> 0 <= page_pos k.
Proof. unfold page_pos. intros. Z.div_mod_to_equations. lia. Qed.

(** The page of a position. *)
Definition page_of (p : Z) : Z :=
  let b := p mod 267649008 in p / 267649008 * 32768 + (if b <? 8152 then 0 else 1 + (b - 8152) / 8168).

Lemma page_of_spec p : 0 <= p -> 0 <= page_of p /\ page_pos (page_of p) <= p < page_pos (page_of p + 1).
Proof.
  intros Hp. unfold page_of, page_pos. destruct (p mod 267649008 <? 8152) eqn:E; zbool.
  - assert ((p / 267649008 * 32768 + 0 + 32767) / 32768 = p / 267649008) as -> by (Z.div_mod_to_equations; lia).
    assert ((p / 267649008 * 32768 + 0 + 1 + 32767) / 32768 = p / 267649008 + 1) as -> by (Z.div_mod_to_equations; lia).
    Z.div_mod_to_equations. lia.
  - set (s := p / 267649008) in *. set (q := (p mod 267649008 - 8152) / 8168). assert (0 <= q <= 32766) by (unfold q; Z.div_mod_to_equations; lia).
    assert ((s * 32768 + (1 + q) + 32767) / 32768 = s + 1) as -> by (Z.div_mod_to_equations; lia).
    assert ((s * 32768 + (1 + q) + 1 + 32767) / 32768 = s + 1) as -> by (Z.div_mod_to_equations; lia).
    unfold q, s in *. Z.div_mod_to_equations; lia.
Qed.

Lemma page_of_unique p k : 0 <= p -> page_pos k <= p < page_pos (k + 1) -> page_of p = k.
Proof.
  intros Hp Hk. destruct (page_of_spec p Hp) as [_ H].
  destruct (Z.lt_trichotomy (page_of p) k) as [Hlt|[?|Hlt]]; [|done|].
  - destruct (decide (page_of p + 1 = k)) as [E|]; [rewrite E in H; lia|]. pose proof (page_pos_lt (page_of p + 1) k ltac:(lia)). lia.
  - destruct (decide (k + 1 = page_of p)) as [E|]; [rewrite E in Hk; lia|]. pose proof (page_pos_lt (k + 1) (page_of p) ltac:(lia)). lia.
Qed.

Definition pos_ok (p : Z) : Prop := 0 <= p < 2 ^ 62.

(** The conversions, by page and offset. *)
Lemma pos2ptr_spec p : pos_ok p -> polar_flog_pos2ptr p = page_of p * 8192 + page_hdr (page_of p) + (p - page_pos (page_of p)).
Proof.
  intros Hp. unfold pos_ok in Hp. unfold polar_flog_pos2ptr, FLOG_SEG_OFFSET_TO_PTR.
  change USABLE_BYTES_IN_SEG with 267649008. change USABLE_BYTES_IN_PAGE with 8168. change (POLAR_FLOG_BLCKSZ - FLOG_LONG_PHD_SIZE) with 8152.
  unfold page_of, page_pos, FLOG_LONG_PHD_SIZE, FLOG_SHORT_PHD_SIZE, POLAR_FLOG_BLCKSZ, POLAR_FLOG_SEG_SIZE.
  set (s := p / 267649008). set (b := p mod 267649008). assert (0 <= s < 2 ^ 35) by (unfold s; Z.div_mod_to_equations; lia).
  assert (0 <= b < 267649008) by (unfold b; Z.div_mod_to_equations; lia). assert (p = s * 267649008 + b) as Ep by (unfold s, b; Z.div_mod_to_equations; lia).
  clearbody s b. subst p. destruct (b <? 8152) eqn:E; zbool.
  - rewrite (u64_small (s * _)) by (unfold is_u64; lia). rewrite u32_small by (unfold is_u32; lia). rewrite u64_small by (unfold is_u64; lia).
    destruct (page_hdr_cases (s * 32768 + 0)) as [[-> H']|[_ H']]; [|exfalso; Z.div_mod_to_equations; lia]. Z.div_mod_to_equations. lia.
  - set (q := (b - 8152) / 8168). assert (0 <= q <= 32766) by (unfold q; Z.div_mod_to_equations; lia).
    assert ((b - 8152) mod 8168 = b - 8152 - 8168 * q) as -> by (unfold q; Z.div_mod_to_equations; lia).
    assert (8168 * q <= b - 8152 < 8168 * q + 8168) by (unfold q; Z.div_mod_to_equations; lia). clearbody q.
    rewrite (u64_small (s * _)) by (unfold is_u64; lia). rewrite u32_small by (unfold is_u32; lia). rewrite u64_small by (unfold is_u64; lia).
    destruct (page_hdr_cases (s * 32768 + (1 + q))) as [[_ H']|[-> H']]; [exfalso; Z.div_mod_to_equations; lia|]. Z.div_mod_to_equations. lia.
Qed.

Lemma pos2endptr_spec p : pos_ok p ->
  polar_flog_pos2endptr p = if decide (p = page_pos (page_of p)) then page_of p * 8192 else polar_flog_pos2ptr p.
Proof.
  intros Hp. rewrite pos2ptr_spec by done. unfold pos_ok in Hp. unfold polar_flog_pos2endptr, FLOG_SEG_OFFSET_TO_PTR.
  change USABLE_BYTES_IN_SEG with 267649008. change USABLE_BYTES_IN_PAGE with 8168. change (POLAR_FLOG_BLCKSZ - FLOG_LONG_PHD_SIZE) with 8152.
  unfold page_of, page_pos, FLOG_LONG_PHD_SIZE, FLOG_SHORT_PHD_SIZE, POLAR_FLOG_BLCKSZ, POLAR_FLOG_SEG_SIZE.
  set (s := p / 267649008). set (b := p mod 267649008). assert (0 <= s < 2 ^ 35) by (unfold s; Z.div_mod_to_equations; lia).
  assert (0 <= b < 267649008) by (unfold b; Z.div_mod_to_equations; lia). assert (p = s * 267649008 + b) as Ep by (unfold s, b; Z.div_mod_to_equations; lia).
  clearbody s b. subst p. destruct (b <? 8152) eqn:E; zbool.
  - assert ((s * 32768 + 0 + 32767) / 32768 = s) as -> by (Z.div_mod_to_equations; lia).
    rewrite (u64_small (s * _)) by (unfold is_u64; lia). destruct (page_hdr_cases (s * 32768 + 0)) as [[-> H']|[_ H']]; [|exfalso; Z.div_mod_to_equations; lia].
    destruct (b =? 0) eqn:E0; zbool; [rewrite decide_True by lia|rewrite decide_False by lia; rewrite u32_small by (unfold is_u32; lia)];
      rewrite u64_small by (unfold is_u64; lia); lia.
  - set (q := (b - 8152) / 8168). assert (0 <= q <= 32766) by (unfold q; Z.div_mod_to_equations; lia).
    assert ((b - 8152) mod 8168 = b - 8152 - 8168 * q) as -> by (unfold q; Z.div_mod_to_equations; lia).
    assert (8168 * q <= b - 8152 < 8168 * q + 8168) by (unfold q; Z.div_mod_to_equations; lia). clearbody q.
    assert ((s * 32768 + (1 + q) + 32767) / 32768 = s + 1) as -> by (Z.div_mod_to_equations; lia).
    rewrite (u64_small (s * _)) by (unfold is_u64; lia). destruct (page_hdr_cases (s * 32768 + (1 + q))) as [[_ H']|[-> H']]; [exfalso; Z.div_mod_to_equations; lia|].
    destruct (b - 8152 - 8168 * q =? 0) eqn:E0; zbool; [rewrite decide_True by lia|rewrite decide_False by lia];
      rewrite u32_small by (unfold is_u32; lia); rewrite u64_small by (unfold is_u64; lia); lia.
Qed.

Lemma ptr2pos_spec k off : 0 <= k < 2 ^ 50 -> off = 0 \/ page_hdr k <= off < 8192 ->
  polar_flog_ptr2pos (k * 8192 + off) = page_pos k + (if decide (off = 0) then 0 else off - page_hdr k).
Proof.
  intros Hk Hoff. assert (0 <= off < 8192) as Hr by (destruct (page_hdr_cases k) as [[? _]|[? _]]; lia).
  unfold polar_flog_ptr2pos, FLOG_PTR_TO_SEG, FLOG_SEGMENT_OFFSET. change (POLAR_FLOG_SEG_SIZE - 1) with (Z.ones 28). rewrite Z.land_ones by lia.
  change (2 ^ 28) with 268435456. change USABLE_BYTES_IN_SEG with 267649008. change USABLE_BYTES_IN_PAGE with 8168. change (POLAR_FLOG_BLCKSZ - FLOG_LONG_PHD_SIZE) with 8152.
  unfold POLAR_FLOG_BLCKSZ, POLAR_FLOG_SEG_SIZE, FLOG_LONG_PHD_SIZE, FLOG_SHORT_PHD_SIZE, page_pos.
  set (s := k / 32768). set (r := k mod 32768). assert (k = s * 32768 + r /\ 0 <= r < 32768 /\ 0 <= s < 2 ^ 35) as (Ek & Hrr & Hs) by (unfold s, r; Z.div_mod_to_equations; lia).
  assert (page_hdr k = if decide (r = 0) then 40 else 24) as Eh by (destruct (page_hdr_cases k) as [[-> ?]|[-> ?]]; [by rewrite decide_True|by rewrite decide_False]).
  rewrite Eh in *. clearbody s r. subst k.
  assert (((s * 32768 + r) * 8192 + off) / 268435456 = s) as -> by (Z.div_mod_to_equations; lia).
  assert (((s * 32768 + r) * 8192 + off) mod 268435456 / 8192 = r) as -> by (Z.div_mod_to_equations; lia).
  assert (((s * 32768 + r) * 8192 + off) mod 8192 = off) as -> by (Z.div_mod_to_equations; lia).
  rewrite !u32_small by (unfold is_u32; lia). destruct (decide (r = 0)) as [->|Hr0].
  - rewrite Z.eqb_refl. assert ((s * 32768 + 0 + 32767) / 32768 = s) as -> by (Z.div_mod_to_equations; lia).
    rewrite (u64_small (s * _)) by (unfold is_u64; lia).
    destruct (off >? 0) eqn:Eo; zbool; [rewrite decide_False by lia; rewrite u64_small by (unfold is_u64; lia); lia|rewrite decide_True by lia; lia].
  - rewrite (proj2 (Z.eqb_neq _ _) Hr0). assert ((s * 32768 + r + 32767) / 32768 = s + 1) as -> by (Z.div_mod_to_equations; lia).
    rewrite (u64_small (s * _ + _ + _)) by (unfold is_u64; lia).
    destruct (off >? 0) eqn:Eo; zbool; [rewrite decide_False by lia; rewrite u64_small by (unfold is_u64; lia); lia|rewrite decide_True by lia; lia].
Qed.

Lemma page_of_bound p : pos_ok p -> 0 <= page_of p < 2 ^ 50.
Proof.
  intros Hp. unfold pos_ok in Hp. destruct (page_of_spec p ltac:(lia)) as [H1 [H2 _]]. split; [done|]. unfold page_pos in H2. Z.div_mod_to_equations. lia.
Qed.

(** ** Comparing positions and pointers *)

Lemma page_hdr_range k : 24 <= page_hdr k <= 40.
Proof. destruct (page_hdr_cases k) as [[-> _]|[-> _]]; lia. Qed.

Lemma endptr_page p : pos_ok p -> page_of p * 8192 <= polar_flog_pos2endptr p < (page_of p + 1) * 8192.
Proof.
  intros Hp. rewrite pos2endptr_spec, pos2ptr_spec by done. destruct (page_of_spec p ltac:(unfold pos_ok in Hp; lia)) as [_ H].
  rewrite page_pos_next in H. pose proof (page_hdr_range (page_of p)). destruct (decide _); lia.
Qed.

Lemma endptr_le p k : pos_ok p -> 0 <= k -> polar_flog_pos2endptr p <= k * 8192 <-> p <= page_pos k.
Proof.
  intros Hp Hk. pose proof (endptr_page p Hp) as He. destruct (page_of_spec p ltac:(unfold pos_ok in Hp; lia)) as [H1 H2].
  destruct (Z.lt_trichotomy (page_of p) k) as [Hlt|[E|Hlt]].
  - split; [|lia]. intros _. destruct (decide (page_of p + 1 = k)) as [<-|]; [lia|]. pose proof (page_pos_lt (page_of p + 1) k ltac:(lia)). lia.
  - rewrite <- E. rewrite pos2endptr_spec, pos2ptr_spec in * by done. pose proof (page_hdr_range (page_of p)). destruct (decide _); lia.
  - split; [lia|]. intros Hle. pose proof (page_pos_lt k (page_of p) Hlt). lia.
Qed.

Lemma endptr_byte p k off : pos_ok p -> 0 <= k -> page_hdr k <= off < 8192 -> k * 8192 + off < polar_flog_pos2endptr p <-> page_pos k + (off - page_hdr k) < p.
Proof.
  intros Hp Hk Hoff. pose proof (endptr_page p Hp) as He. destruct (page_of_spec p ltac:(unfold pos_ok in Hp; lia)) as [H1 H2].
  pose proof (page_pos_next k) as Hn. pose proof (page_hdr_range (page_of p)). pose proof (page_hdr_range k). destruct (Z.lt_trichotomy (page_of p) k) as [Hlt|[E|Hlt]].
  - split; [lia|]. intros Hlt'. destruct (decide (page_of p + 1 = k)) as [E|]; [rewrite E in H2; lia|]. pose proof (page_pos_lt (page_of p + 1) k ltac:(lia)). lia.
  - subst k. rewrite pos2endptr_spec, pos2ptr_spec in * by done. destruct (decide _); lia.
  - split; [|lia]. intros _. destruct (decide (k + 1 = page_of p)) as [E|]; [rewrite E in Hn; lia|]. pose proof (page_pos_lt (k + 1) (page_of p) ltac:(lia)). lia.
Qed.

Lemma endptr_mono p q : pos_ok p -> pos_ok q -> p <= q -> polar_flog_pos2endptr p <= polar_flog_pos2endptr q.
Proof.
  intros Hp Hq Hle. pose proof (endptr_page p Hp) as He. pose proof (endptr_page q Hq) as He'.
  destruct (page_of_spec p ltac:(unfold pos_ok in Hp; lia)) as [H1 H2]. destruct (page_of_spec q ltac:(unfold pos_ok in Hq; lia)) as [H1' H2'].
  destruct (Z.lt_trichotomy (page_of p) (page_of q)) as [Hlt|[E|Hlt]].
  - nia.
  - rewrite !pos2endptr_spec, !pos2ptr_spec, <- E in * by done. pose proof (page_hdr_range (page_of p)). destruct (decide (p = _)), (decide (q = _)); lia.
  - destruct (decide (page_of q + 1 = page_of p)) as [E|]; [rewrite E in H2'; lia|]. pose proof (page_pos_lt (page_of q + 1) (page_of p) ltac:(lia)). lia.
Qed.

Lemma pos2ptr_page p : pos_ok p -> polar_flog_pos2ptr p / 8192 = page_of p /\ polar_flog_pos2ptr p mod 8192 = page_hdr (page_of p) + (p - page_pos (page_of p)) /\
  page_hdr (page_of p) <= polar_flog_pos2ptr p mod 8192.
Proof.
  intros Hp. rewrite pos2ptr_spec by done. destruct (page_of_spec p ltac:(unfold pos_ok in Hp; lia)) as [H1 H2]. rewrite page_pos_next in H2.
  pose proof (page_hdr_range (page_of p)). Z.div_mod_to_equations. lia.
Qed.

(** The conversions between usable byte positions and pointers into the
    flashback log are inverse to each other: a position is got back from
    either of its pointers, the pointer before which a record ends and the
    one at which the next starts, which differ only by the header of a
    page. *)
Theorem flog_pos_roundtrip (p : Z) (Hp : pos_ok p) :
  polar_flog_ptr2pos (polar_flog_pos2ptr p) = p /\ polar_flog_ptr2pos (polar_flog_pos2endptr p) = p /\
  convert_to_first_valid_ptr (polar_flog_pos2endptr p) = polar_flog_pos2ptr p.
Proof.
  destruct (page_of_spec p ltac:(unfold pos_ok in Hp; lia)) as [H1 H2]. pose proof (page_of_bound p Hp) as Hb. rewrite page_pos_next in H2.
  set (k := page_of p) in *. assert (polar_flog_pos2ptr p = k * 8192 + (page_hdr k + (p - page_pos k))) as E1 by (rewrite pos2ptr_spec by done; fold k; lia).
  assert (24 <= page_hdr k <= 40) by (destruct (page_hdr_cases k) as [[? _]|[? _]]; lia).
  assert (polar_flog_ptr2pos (polar_flog_pos2ptr p) = p) as H3.
  { rewrite E1, ptr2pos_spec, decide_False by lia. lia. }
  split; [done|]. rewrite pos2endptr_spec by done. fold k. destruct (decide (p = page_pos k)) as [Ep|Hne].
  - split; [rewrite <- (Z.add_0_r (k * 8192)), ptr2pos_spec, decide_True by (lia || done); lia|]. rewrite E1. unfold convert_to_first_valid_ptr.
    unfold POLAR_FLOG_SEG_SIZE, POLAR_FLOG_BLCKSZ. destruct (page_hdr_cases k) as [[-> Hm]|[-> Hm]].
    + assert (k * 8192 mod 268435456 = 0) as -> by (Z.div_mod_to_equations; lia). rewrite Z.eqb_refl. rewrite u64_small by (unfold is_u64, FLOG_LONG_PHD_SIZE; lia).
      unfold FLOG_LONG_PHD_SIZE. lia.
    + assert ((k * 8192 mod 268435456 =? 0) = false) as -> by (apply Z.eqb_neq; Z.div_mod_to_equations; lia).
      rewrite Z.mod_mul, Z.eqb_refl by lia. rewrite u64_small by (unfold is_u64, FLOG_SHORT_PHD_SIZE; lia). unfold FLOG_SHORT_PHD_SIZE. lia.
  - split; [done|]. rewrite E1. unfold convert_to_first_valid_ptr, POLAR_FLOG_SEG_SIZE, POLAR_FLOG_BLCKSZ.
    assert (((k * 8192 + (page_hdr k + (p - page_pos k))) mod 8192 =? 0) = false) as -> by (apply Z.eqb_neq; Z.div_mod_to_equations; lia).
    assert (((k * 8192 + (page_hdr k + (p - page_pos k))) mod 268435456 =? 0) = false) as -> by (apply Z.eqb_neq; Z.div_mod_to_equations; lia). done.
Qed.

Lemma flog_pos_roundtrip_witness : pos_ok 8152 /\ polar_flog_pos2ptr 8152 = 8216 /\ polar_flog_pos2endptr 8152 = 8192 /\
  polar_flog_ptr2pos (polar_flog_pos2ptr 8152) = 8152 /\ polar_flog_ptr2pos (polar_flog_pos2endptr 8152) = 8152.
Proof.
  assert (pos_ok 8152) as H by (unfold pos_ok; lia). destruct (flog_pos_roundtrip 8152 H) as (H1 & H2 & _). split; [done|]. by split_and!.
Defined.

(** C37: pointers keep the order of the positions and never wrap around: the
    pointer of a position lies behind the header of its page; what is at a
    position is before the end pointer of every later position, which is at
    most where the next byte goes; and they are all far below the largest
    64-bit number. *)
Theorem flog_ptr_bounds (p q : Z) (Hp : pos_ok p) (Hq : pos_ok q) (Hlt : p < q) :
  page_hdr (polar_flog_pos2ptr p / POLAR_FLOG_BLCKSZ) <= polar_flog_pos2ptr p mod POLAR_FLOG_BLCKSZ /\
  0 <= polar_flog_pos2ptr p < polar_flog_pos2endptr q /\ polar_flog_pos2endptr q <= polar_flog_pos2ptr q < 2 ^ 63.
Proof.
  unfold POLAR_FLOG_BLCKSZ. destruct (pos2ptr_page p Hp) as (P1 & P2 & P3). destruct (page_of_spec p ltac:(unfold pos_ok in Hp; lia)) as [H1 H2].
  destruct (page_of_spec q ltac:(unfold pos_ok in Hq; lia)) as [I1 I2]. pose proof (page_of_bound q Hq) as Hb. rewrite page_pos_next in H2, I2.
  pose proof (page_hdr_range (page_of p)). pose proof (page_hdr_range (page_of q)). rewrite P1. split; [done|].
  pose proof (proj2 (endptr_byte q (page_of p) (page_hdr (page_of p) + (p - page_pos (page_of p))) Hq H1 ltac:(lia)) ltac:(lia)) as Hend.
  rewrite (pos2ptr_spec p), (pos2endptr_spec q) in * by done. rewrite (pos2ptr_spec q) in * by done. destruct (decide _); lia.
Qed.

Lemma flog_ptr_bounds_witness : polar_flog_pos2ptr 8151 = 8191 /\ polar_flog_pos2endptr 8152 = 8192 /\ 0 <= polar_flog_pos2ptr 8151 < polar_flog_pos2endptr 8152.
Proof. split; [reflexivity|]. split; [reflexivity|]. apply (flog_ptr_bounds 8151 8152); unfold pos_ok; lia. Defined.
