(* ===== verification/FlogBuf.v ===== *)
(** * The buffers of the flashback log (polar_flashback/polar_flashback_log_mem.c)

    Space for a record is reserved by moving the position [curr_pos]; the
    record is then copied to the pages in memory, which go to the file when
    their buffers are needed for new pages or the log is flushed.  Page [k]
    may only be in buffer [k mod n].

    A page is its header and its bytes; the bytes of the header are not
    looked at.  The file has a page for each page number.  A record is
    given as a function of its link to the record before, which is filled in
    after the reservation, together with the checksum.  [flog_local] has the
    static variables of one process; the control block and the file are
    shared.  Each function is one step, so that the only insertion lock that
    is held is the caller's own.  The statistics, the control file, the queue
    of the log index and failures of the file system are left out. *)

From S2P Require Import Prelude RingBuf RingBytes FlogPos.

Definition FLOG_PAGE_MAGIC : Z := 0x07e4.
Definition FLOG_PAGE_VERSION : Z := 1.
Definition FLOG_FIRST_IS_CONTRECORD : Z := 1.
Definition FLOG_LONG_PAGE_HEADER : Z := 2.
Definition POLAR_INVALID_FLOG_SEGNO : Z := 2 ^ 64 - 1.

(** The header, with the fields of the long one, and the bytes of a page. *)
Record flog_page_header_data := mk_fpage {
  xlp_magic : Z;
  xlp_info : Z;
  xlp_version : Z;
  xlp_pageaddr : Z;
  xlp_rem_len : Z;
  xlp_long : option (Z * Z * Z);
  xlp_bytes : list Z
}.
Definition blank_page : flog_page_header_data := mk_fpage 0 0 0 0 0 None (replicate (Z.to_nat POLAR_FLOG_BLCKSZ) 0).
Definition set_bytes (pg : flog_page_header_data) (bytes : list Z) : flog_page_header_data :=
  mk_fpage (xlp_magic pg) (xlp_info pg) (xlp_version pg) (xlp_pageaddr pg) (xlp_rem_len pg) (xlp_long pg) bytes.
Definition set_cont (pg : flog_page_header_data) (rem_len : Z) : flog_page_header_data :=
  mk_fpage (xlp_magic pg) (Z.lor (xlp_info pg) FLOG_FIRST_IS_CONTRECORD) (xlp_version pg) (xlp_pageaddr pg) rem_len (xlp_long pg) (xlp_bytes pg).

Inductive flog_buf_state := FLOG_BUF_INIT | FLOG_BUF_CRASH_RECOVERY | FLOG_BUF_SHUTDOWN_RECOVERY | FLOG_BUF_READY | FLOG_BUF_SHUTDOWNED.

(** An insertion lock that is held has the position its holder is at. *)
Record flog_buf_ctl_data_t := mk_fctl {
  fc_curr_pos : Z;
  fc_prev_pos : Z;
  fc_insert_locks : list (option Z);
  fc_write_request : Z;
  fc_write_result : Z;
  fc_initalized_upto : Z;
  fc_max_seg_no : Z;
  fc_pages : list flog_page_header_data;
  fc_blocks : list Z;
  fc_buf_state : flog_buf_state
}.
Definition fc_cache_blck (c : flog_buf_ctl_data_t) : Z := Z.of_nat (length (fc_blocks c)) - 1.

(** The static variables of a process: its copy of the write result, its
    open file and segment, the page it used last and its buffer, and the lock
    it holds. *)
Record flog_local := mk_flocal {
  fo_write_result : Z;
  fo_log_file : bool;
  fo_log_segno : Z;
  fo_cached : option (Z * Z);
  fo_lock_no : Z
}.

Record flog_world := mk_fworld {
  fw_ctl : flog_buf_ctl_data_t;
  fw_file : gmap Z flog_page_header_data;
  fw_synced : gset Z;
  fw_local : flog_local
}.

Definition with_ctl (w : flog_world) (c : flog_buf_ctl_data_t) : flog_world := mk_fworld c (fw_file w) (fw_synced w) (fw_local w).
Definition with_local (w : flog_world) (l : flog_local) : flog_world := mk_fworld (fw_ctl w) (fw_file w) (fw_synced w) l.
Definition fc_set_pos (c : flog_buf_ctl_data_t) (curr prev : Z) : flog_buf_ctl_data_t :=
  mk_fctl curr prev (fc_insert_locks c) (fc_write_request c) (fc_write_result c) (fc_initalized_upto c) (fc_max_seg_no c) (fc_pages c) (fc_blocks c) (fc_buf_state c).
Definition fc_set_locks (c : flog_buf_ctl_data_t) (locks : list (option Z)) : flog_buf_ctl_data_t :=
  mk_fctl (fc_curr_pos c) (fc_prev_pos c) locks (fc_write_request c) (fc_write_result c) (fc_initalized_upto c) (fc_max_seg_no c) (fc_pages c) (fc_blocks c) (fc_buf_state c).
Definition fc_set_request (c : flog_buf_ctl_data_t) (request : Z) : flog_buf_ctl_data_t :=
  mk_fctl (fc_curr_pos c) (fc_prev_pos c) (fc_insert_locks c) (if fc_write_request c <? request then request else fc_write_request c) (fc_write_result c)
    (fc_initalized_upto c) (fc_max_seg_no c) (fc_pages c) (fc_blocks c) (fc_buf_state c).
Definition fc_set_result (c : flog_buf_ctl_data_t) (result : Z) : flog_buf_ctl_data_t :=
  mk_fctl (fc_curr_pos c) (fc_prev_pos c) (fc_insert_locks c) (fc_write_request c) result (fc_initalized_upto c) (fc_max_seg_no c) (fc_pages c) (fc_blocks c) (fc_buf_state c).
Definition fc_set_seg (c : flog_buf_ctl_data_t) (segno : Z) : flog_buf_ctl_data_t :=
  mk_fctl (fc_curr_pos c) (fc_prev_pos c) (fc_insert_locks c) (fc_write_request c) (fc_write_result c) (fc_initalized_upto c) segno (fc_pages c) (fc_blocks c) (fc_buf_state c).
Definition fc_set_page (c : flog_buf_ctl_data_t) (idx : Z) (pg : flog_page_header_data) : flog_buf_ctl_data_t :=
  mk_fctl (fc_curr_pos c) (fc_prev_pos c) (fc_insert_locks c) (fc_write_request c) (fc_write_result c) (fc_initalized_upto c) (fc_max_seg_no c)
    (aset (fc_pages c) idx pg) (fc_blocks c) (fc_buf_state c).
Definition fc_set_block (c : flog_buf_ctl_data_t) (idx endptr : Z) : flog_buf_ctl_data_t :=
  mk_fctl (fc_curr_pos c) (fc_prev_pos c) (fc_insert_locks c) (fc_write_request c) (fc_write_result c) endptr (fc_max_seg_no c)
    (fc_pages c) (aset (fc_blocks c) idx endptr) (fc_buf_state c).
Definition fo_set_result (l : flog_local) (result : Z) : flog_local := mk_flocal result (fo_log_file l) (fo_log_segno l) (fo_cached l) (fo_lock_no l).
Definition fo_set_file (l : flog_local) (segno : Z) : flog_local := mk_flocal (fo_write_result l) true segno (fo_cached l) (fo_lock_no l).
Definition fo_close_file (l : flog_local) : flog_local := mk_flocal (fo_write_result l) false (fo_log_segno l) (fo_cached l) (fo_lock_no l).
Definition fo_set_cached (l : flog_local) (page idx : Z) : flog_local := mk_flocal (fo_write_result l) (fo_log_file l) (fo_log_segno l) (Some (page, idx)) (fo_lock_no l).
Definition local_result (w : flog_world) : Z := fo_write_result (fw_local w).
Definition take_result (w : flog_world) : flog_world := with_local w (fo_set_result (fw_local w) (fc_write_result (fw_ctl w))).

Definition FLOG_PTR2BUF_IDX (c : flog_buf_ctl_data_t) (ptr : Z) : Z := ptr / POLAR_FLOG_BLCKSZ mod (fc_cache_blck c + 1).
Definition FLOG_NEXT_BUF_IDX (c : flog_buf_ctl_data_t) (idx : Z) : Z := if idx =? fc_cache_blck c then 0 else idx + 1.
Definition INSERT_FREESPACE (endptr : Z) : Z :=
  if endptr mod POLAR_FLOG_BLCKSZ =? 0 then 0 else POLAR_FLOG_BLCKSZ - endptr mod POLAR_FLOG_BLCKSZ.

Definition block (c : flog_buf_ctl_data_t) (idx : Z) : Z := aget 0 (fc_blocks c) idx.
Definition mpage (c : flog_buf_ctl_data_t) (idx : Z) : flog_page_header_data := aget blank_page (fc_pages c) idx.
Definition fpage (w : flog_world) (k : Z) : flog_page_header_data := default blank_page (fw_file w !! k).

Definition polar_flog_buf_init_data (insert_locks_num log_buffers : nat) : flog_buf_ctl_data_t :=
  mk_fctl 0 0 (replicate insert_locks_num None) 0 0 0 POLAR_INVALID_FLOG_SEGNO (replicate log_buffers blank_page) (replicate log_buffers 0) FLOG_BUF_INIT.

(** Without a control file, there is no log yet. *)
Definition polar_startup_flog_buf_new (c : flog_buf_ctl_data_t) : flog_buf_ctl_data_t :=
  mk_fctl (fc_curr_pos c) (fc_prev_pos c) (fc_insert_locks c) (fc_write_request c) (fc_write_result c) (fc_initalized_upto c) (fc_max_seg_no c)
    (fc_pages c) (fc_blocks c) FLOG_BUF_READY.

(** The static variables of a process that attaches. *)
Definition polar_flog_buf_init (c : flog_buf_ctl_data_t) (pgprocno : Z) : flog_local :=
  mk_flocal (fc_write_result c) false 0 None (pgprocno mod Z.of_nat (length (fc_insert_locks c))).

(** ** Locks and reservations *)

Definition flog_insert_lock_acquire (w : flog_world) : outcome flog_world :=
  let c := fw_ctl w in
  match aget None (fc_insert_locks c) (fo_lock_no (fw_local w)) with
  | Some _ => Fault BLOCKED
  | None => Done (with_ctl w (fc_set_locks c (aset (fc_insert_locks c) (fo_lock_no (fw_local w)) (Some 0))))
  end.
Definition flog_insert_lock_release (w : flog_world) : flog_world :=
  let c := fw_ctl w in with_ctl w (fc_set_locks c (aset (fc_insert_locks c) (fo_lock_no (fw_local w)) None)).
Definition insertlock_update_insert_at (w : flog_world) (insertingAt : Z) : flog_world :=
  let c := fw_ctl w in with_ctl w (fc_set_locks c (aset (fc_insert_locks c) (fo_lock_no (fw_local w)) (Some insertingAt))).

(** The control block, the start, the end and the previous pointer. *)
Definition reserve_flog_insert_location (c : flog_buf_ctl_data_t) (size : Z) : flog_buf_ctl_data_t * Z * Z * Z :=
  let size := MAXALIGN size in
  let start_bytepos := fc_curr_pos c in
  let prev_bytepos := fc_prev_pos c in
  let end_bytepos := u64 (start_bytepos + size) in
  let start_ptr := polar_flog_pos2ptr start_bytepos in
  let end_ptr := polar_flog_pos2endptr end_bytepos in
  let prev_ptr := if start_ptr =? FLOG_LONG_PHD_SIZE then 0 else polar_flog_pos2ptr prev_bytepos in
  let prev_ptr := if (prev_ptr =? FLOG_LONG_PHD_SIZE) && (start_ptr mod POLAR_FLOG_SEG_SIZE =? FLOG_LONG_PHD_SIZE) then 0 else prev_ptr in
  (fc_set_pos c end_bytepos start_bytepos, start_ptr, end_ptr, prev_ptr).

(** A lock whose holder is not past [upto] is waited for; nobody else runs,
    so it is never released. *)
Fixpoint wait_locks (locks : list (option Z)) (upto finished_upto : Z) : outcome Z :=
  match locks with
  | [] => Done finished_upto
  | None :: locks => wait_locks locks upto finished_upto
  | Some inserting_at :: locks =>
    if inserting_at <? upto then Fault BLOCKED
    else wait_locks locks upto (if negb (inserting_at =? 0) && (inserting_at <? finished_upto) then inserting_at else finished_upto)
  end.

Definition wait_flog_insertions_finish (c : flog_buf_ctl_data_t) (upto : Z) : outcome Z :=
  let reserved_upto := polar_flog_pos2endptr (fc_curr_pos c) in
  let upto := if upto >? reserved_upto then reserved_upto else upto in
  wait_locks (fc_insert_locks c) upto reserved_upto.

(** ** Writing *)

Definition polar_flush_flog_max_seg_no (c : flog_buf_ctl_data_t) (seg_no : Z) : flog_buf_ctl_data_t :=
  if (fc_max_seg_no c =? POLAR_INVALID_FLOG_SEGNO) || (fc_max_seg_no c <? seg_no) then fc_set_seg c seg_no else c.

Definition open_segment (w : flog_world) (ptr : Z) : flog_world :=
  let segno := FLOG_PTR_PREV_TO_SEG ptr in
  mk_fworld (polar_flush_flog_max_seg_no (fw_ctl w) segno) (fw_file w) (fw_synced w) (fo_set_file (fw_local w) segno).

(** [npages] buffers from [startidx] on, to the open segment from
    [startoffset] on. *)
Definition polar_pwrite (w : flog_world) (startidx npages startoffset : Z) : flog_world :=
  let first := fo_log_segno (fw_local w) * (POLAR_FLOG_SEG_SIZE / POLAR_FLOG_BLCKSZ) + startoffset / POLAR_FLOG_BLCKSZ in
  mk_fworld (fw_ctl w) (foldl (fun f i => <[first + i := mpage (fw_ctl w) (startidx + i)]> f) (fw_file w) (seqZ 0 npages)) (fw_synced w) (fw_local w).

(** The loop; [write_result] is the local variable of that name.  The state
    and [write_result] at its end. *)
Fixpoint flog_write_loop (fuel : nat) (w : flog_world) (write_result write_request : Z) (flexible : bool) (curridx npages startidx startoffset : Z)
  : outcome (flog_world * Z) :=
  if negb (write_result <? write_request) then Done (w, write_result)
  else match fuel with
  | O => Fault OUT_OF_FUEL
  | S fuel =>
    let c := fw_ctl w in
    let EndPtr := block c curridx in
    if write_result >=? EndPtr then Fault PANIC
    else
      let write_result := EndPtr in
      let is_partial_page := write_request <? write_result in
      let w := if negb (FLOG_PTR_PREV_IN_SEG write_result (fo_log_segno (fw_local w))) then open_segment w write_result else w in
      let w := if negb (fo_log_file (fw_local w)) then open_segment w write_result else w in
      let startidx := if npages =? 0 then curridx else startidx in
      let startoffset := if npages =? 0 then FLOG_SEGMENT_OFFSET (write_result - POLAR_FLOG_BLCKSZ) else startoffset in
      let npages := npages + 1 in
      let last_iteration := write_request <=? write_result in
      let finishing_seg := negb is_partial_page && (startoffset + npages * POLAR_FLOG_BLCKSZ >=? POLAR_FLOG_SEG_SIZE) in
      let dump := last_iteration || (curridx =? fc_cache_blck c) || finishing_seg in
      let w := if dump then polar_pwrite w startidx npages startoffset else w in
      let w := if dump && finishing_seg then mk_fworld (fw_ctl w) (fw_file w) ({[fo_log_segno (fw_local w)]} ∪ fw_synced w) (fw_local w) else w in
      let npages := if dump then 0 else npages in
      if is_partial_page then Done (w, write_request)
      else if flexible && (npages =? 0) then Done (w, write_result)
      else flog_write_loop fuel w write_result write_request flexible (FLOG_NEXT_BUF_IDX c curridx) npages startidx startoffset
  end.

Definition flog_write (w : flog_world) (write_request : Z) (flexible : bool) : outcome flog_world :=
  let w := take_result w in
  let c := fw_ctl w in
  let! (w, result) := flog_write_loop (S (length (fc_blocks c))) w (fc_write_result c) write_request flexible (FLOG_PTR2BUF_IDX c (fc_write_result c)) 0 0 0 in
  let w := with_local w (fo_set_result (fw_local w) result) in
  Done (with_ctl w (fc_set_request (fc_set_result (fw_ctl w) result) write_request)).

(** ** Pages in memory *)

Section flog_buf.
Context (GetSystemIdentifier : Z).

Definition init_page (c : flog_buf_ctl_data_t) (nextidx : Z) : flog_buf_ctl_data_t :=
  let new_page_beginptr := fc_initalized_upto c in
  let new_page_endptr := u64 (new_page_beginptr + POLAR_FLOG_BLCKSZ) in
  let long := FLOG_SEGMENT_OFFSET new_page_beginptr =? 0 in
  let pg := mk_fpage FLOG_PAGE_MAGIC (if long then FLOG_LONG_PAGE_HEADER else 0) FLOG_PAGE_VERSION new_page_beginptr 0
              (if long then Some (GetSystemIdentifier, POLAR_FLOG_SEG_SIZE, POLAR_FLOG_BLCKSZ) else None) (xlp_bytes blank_page) in
  fc_set_block (fc_set_page c nextidx pg) nextidx new_page_endptr.

Fixpoint advance_loop (fuel : nat) (w : flog_world) (upto : Z) (opportunistic : bool) : outcome flog_world :=
  let c := fw_ctl w in
  if negb ((upto >=? fc_initalized_upto c) || opportunistic) then Done w
  else match fuel with
  | O => Fault OUT_OF_FUEL
  | S fuel =>
    let nextidx := FLOG_PTR2BUF_IDX c (fc_initalized_upto c) in
    let old_page_reqst_ptr := block c nextidx in
    let go w := advance_loop fuel (with_ctl w (init_page (fw_ctl w) nextidx)) upto opportunistic in
    if local_result w <? old_page_reqst_ptr then
      if opportunistic then Done w
      else
        let w := take_result (with_ctl w (fc_set_request c old_page_reqst_ptr)) in
        if local_result w <? old_page_reqst_ptr then
          let! _ := wait_flog_insertions_finish (fw_ctl w) old_page_reqst_ptr in
          let w := take_result w in
          if local_result w >=? old_page_reqst_ptr then advance_loop fuel w upto opportunistic
          else
            let! w := flog_write w old_page_reqst_ptr false in
            advance_loop fuel w upto opportunistic
        else go w
    else go w
  end.

(** A bound for the rounds: a page is initialised in one, perhaps after one
    that writes the page before, and no page is initialised that is a whole
    round of buffers ahead of the written ones. *)
Definition advance_fuel (c : flog_buf_ctl_data_t) (upto : Z) : nat :=
  Z.to_nat (2 * (upto / POLAR_FLOG_BLCKSZ - fc_initalized_upto c / POLAR_FLOG_BLCKSZ) + 4) +
  Z.to_nat (fc_write_result c / POLAR_FLOG_BLCKSZ - fc_initalized_upto c / POLAR_FLOG_BLCKSZ + Z.of_nat (length (fc_blocks c)) + 2).

Definition advance_insert_buffer (w : flog_world) (upto : Z) (opportunistic : bool) : outcome flog_world :=
  advance_loop (advance_fuel (fw_ctl w) upto) w upto opportunistic.

(** The buffer; the offset in it is that of [ptr]. *)
Definition polar_get_flog_buf (w : flog_world) (ptr : Z) : outcome (flog_world * Z) :=
  let page := ptr / POLAR_FLOG_BLCKSZ in
  let hit := match fo_cached (fw_local w) with Some (cached_page, idx) => if page =? cached_page then Some idx else None | None => None end in
  match hit with
  | Some idx => Done (w, idx)
  | None =>
    let idx := FLOG_PTR2BUF_IDX (fw_ctl w) ptr in
    let expected_endptr := u64 (ptr + (POLAR_FLOG_BLCKSZ - ptr mod POLAR_FLOG_BLCKSZ)) in
    let! w :=
      (if negb (expected_endptr =? block (fw_ctl w) idx) then
         let initialized_upto :=
           if (ptr mod POLAR_FLOG_BLCKSZ =? FLOG_SHORT_PHD_SIZE) && (FLOG_SEGMENT_OFFSET ptr >? POLAR_FLOG_BLCKSZ) then ptr - FLOG_SHORT_PHD_SIZE
           else if (ptr mod POLAR_FLOG_BLCKSZ =? FLOG_LONG_PHD_SIZE) && (FLOG_SEGMENT_OFFSET ptr <? POLAR_FLOG_BLCKSZ) then ptr - FLOG_LONG_PHD_SIZE
           else ptr in
         let w := insertlock_update_insert_at w initialized_upto in
         let! w := advance_insert_buffer w ptr false in
         if negb (expected_endptr =? block (fw_ctl w) idx) then Fault PANIC else Done w
       else Done w) in
    Done (with_local w (fo_set_cached (fw_local w) page idx), idx)
  end.

Definition memcpy_page (w : flog_world) (idx off : Z) (bytes : list Z) : flog_world :=
  let c := fw_ctl w in with_ctl w (fc_set_page c idx (set_bytes (mpage c idx) (mem_write (xlp_bytes (mpage c idx)) off bytes))).

(** The bytes that are left, from [curr_ptr] on, which is in buffer [idx]. *)
Fixpoint copy_loop (fuel : nat) (w : flog_world) (idx curr_ptr : Z) (rdata : list Z) : outcome (flog_world * Z) :=
  let freespace := INSERT_FREESPACE curr_ptr in
  if Z.of_nat (length rdata) >? freespace then
    match fuel with
    | O => Fault OUT_OF_FUEL
    | S fuel =>
      let w := memcpy_page w idx (curr_ptr mod POLAR_FLOG_BLCKSZ) (take (Z.to_nat freespace) rdata) in
      let rdata := drop (Z.to_nat freespace) rdata in
      let curr_ptr := curr_ptr + freespace in
      let! (w, idx) := polar_get_flog_buf w curr_ptr in
      let w := with_ctl w (fc_set_page (fw_ctl w) idx (set_cont (mpage (fw_ctl w) idx) (Z.of_nat (length rdata)))) in
      let curr_ptr := if FLOG_SEGMENT_OFFSET curr_ptr =? 0 then curr_ptr + FLOG_LONG_PHD_SIZE else curr_ptr + FLOG_SHORT_PHD_SIZE in
      copy_loop fuel w idx curr_ptr rdata
    end
  else Done (memcpy_page w idx (curr_ptr mod POLAR_FLOG_BLCKSZ) rdata, curr_ptr + Z.of_nat (length rdata)).

Definition polar_copy_flog_rec2buf (w : flog_world) (rdata : list Z) (start_ptr end_ptr : Z) : outcome flog_world :=
  let! (w, idx) := polar_get_flog_buf w start_ptr in
  let! (w, curr_ptr) := copy_loop (length rdata) w idx start_ptr rdata in
  if negb (MAXALIGN curr_ptr =? end_ptr) then Fault PANIC else Done w.

(** ** Inserting and flushing *)

(** The state, the end and the start of the record. *)
Definition polar_flog_rec_insert (w : flog_world) (rec : Z -> list Z) : outcome (flog_world * Z * Z) :=
  match fc_buf_state (fw_ctl w) with
  | FLOG_BUF_READY =>
    let! w := flog_insert_lock_acquire w in
    let '(c, start_ptr, end_ptr, xl_prev) := reserve_flog_insert_location (fw_ctl w) (Z.of_nat (length (rec 0))) in
    let w := with_ctl w c in
    let! w := polar_copy_flog_rec2buf w (rec xl_prev) start_ptr end_ptr in
    let w := flog_insert_lock_release w in
    let w := if negb (start_ptr / POLAR_FLOG_BLCKSZ =? end_ptr / POLAR_FLOG_BLCKSZ)
             then take_result (with_ctl w (fc_set_request (fw_ctl w) end_ptr)) else w in
    Done (w, end_ptr, start_ptr)
  | _ => Fault PANIC
  end.

Definition polar_flog_flush (w : flog_world) (end_ptr : Z) : outcome flog_world :=
  if end_ptr >? local_result w then
    let! _ := wait_flog_insertions_finish (fw_ctl w) end_ptr in flog_write w end_ptr false
  else Done w.

(** [polar_flashback_log_flush_max_size] is in kilobytes.  Also gives the
    result. *)
Definition polar_flog_flush_bg (w : flog_world) (polar_flashback_log_flush_max_size : Z) : outcome (flog_world * Z) :=
  let w := take_result w in
  let write_reqst := fc_write_request (fw_ctl w) in
  let write_reqst := if u64 (write_reqst - local_result w) >=? polar_flashback_log_flush_max_size * 1024
                     then local_result w + polar_flashback_log_flush_max_size * 1024 else write_reqst in
  let write_reqst := write_reqst - write_reqst mod POLAR_FLOG_BLCKSZ in
  if write_reqst <=? local_result w then
    let l := fw_local w in
    let w := if fo_log_file l && negb (FLOG_PTR_PREV_IN_SEG (local_result w) (fo_log_segno l)) then with_local w (fo_close_file l) else w in
    Done (w, local_result w)
  else
    let! _ := wait_flog_insertions_finish (fw_ctl w) write_reqst in
    let w := take_result w in
    let! w := (if write_reqst >? local_result w then flog_write w write_reqst true else Done w) in
    let! w := advance_insert_buffer w 0 true in
    Done (w, local_result w).
End flog_buf.

(** The pointer, and [*prev_ptr]; the last assignment is to the parameter. *)
Definition polar_get_curr_flog_ptr (c : flog_buf_ctl_data_t) : Z * Z :=
  (polar_flog_pos2endptr (fc_curr_pos c), polar_flog_pos2ptr (fc_prev_pos c)).
