(* ===== verification/FlogBufLog.v ===== *)
(** * What the flashback log holds

    The records that were inserted say what byte is at each position of the
    log and where a page starts with the rest of a record, and so what each
    page looks like ([page_image]).  The invariant [flog_inv] says that the
    buffers have the pages up to [initalized_upto] in this form, and the file
    has them up to the write result.  It is shown for inserting and flushing,
    by several processes that take turns. *)

From S2P Require Import Prelude RingBuf RingBytes FlogPos FlogBuf.

(** A record, of which the first bytes are copied: where it starts, its
    length and these bytes. *)
Record frec := mk_frec {
  fr_start : Z;
  fr_total : Z;
  fr_bytes : list Z
}.
Definition fr_end (r : frec) : Z := fr_start r + Z.of_nat (length (fr_bytes r)).

(** The byte at a position; the newest record is first. *)
Fixpoint log_byte (recs : list frec) (p : Z) : Z :=
  match recs with
  | [] => 0
  | r :: recs => if (fr_start r <=? p) && (p <? fr_end r) then aget 0 (fr_bytes r) (p - fr_start r) else log_byte recs p
  end.

(** How much of a record is left at the start of page [k]. *)
Fixpoint log_rem (recs : list frec) (k : Z) : option Z :=
  match recs with
  | [] => None
  | r :: recs => if (fr_start r <? page_pos k) && (page_pos k <? fr_end r) then Some (fr_start r + fr_total r - page_pos k) else log_rem recs k
  end.

Section image.
Context (sysid : Z).

Definition image_bytes (recs : list frec) (k : Z) : list Z :=
  (fun off => if off <? page_hdr k then 0 else log_byte recs (page_pos k + (off - page_hdr k))) <$> seqZ 0 8192.

Definition page_image (recs : list frec) (k : Z) : flog_page_header_data :=
  let long := k mod 32768 =? 0 in
  mk_fpage FLOG_PAGE_MAGIC (Z.lor (if long then FLOG_LONG_PAGE_HEADER else 0) (match log_rem recs k with Some _ => FLOG_FIRST_IS_CONTRECORD | None => 0 end))
    FLOG_PAGE_VERSION (k * 8192) (default 0 (log_rem recs k)) (if long then Some (sysid, POLAR_FLOG_SEG_SIZE, POLAR_FLOG_BLCKSZ) else None) (image_bytes recs k).

Lemma length_image recs k : length (image_bytes recs k) = Z.to_nat 8192.
Proof. unfold image_bytes. by rewrite length_fmap, length_seqZ. Qed.

Lemma aget_image recs k off : 0 <= off < 8192 ->
  aget 0 (image_bytes recs k) off = if off <? page_hdr k then 0 else log_byte recs (page_pos k + (off - page_hdr k)).
Proof.
  intros Hoff. unfold aget. rewrite decide_True by lia. unfold image_bytes. rewrite list_lookup_fmap, lookup_seqZ_lt by lia.
  cbn [fmap option_fmap option_map default]. by rewrite Z2Nat.id by lia.
Qed.

Lemma bytes_eq (l1 l2 : list Z) : length l1 = Z.to_nat 8192 -> length l2 = Z.to_nat 8192 -> (forall off, 0 <= off < 8192 -> aget 0 l1 off = aget 0 l2 off) -> l1 = l2.
Proof.
  intros H1 H2 H. apply list_eq. intros i. destruct (decide (i < Z.to_nat 8192)%nat) as [Hi|Hi].
  - rewrite !(lookup_aget 0) by (rewrite ?H1, ?H2; done). f_equal. apply H. lia.
  - rewrite !lookup_ge_None_2; [done|rewrite H2; lia|rewrite H1; lia].
Qed.

Lemma image_ext recs recs' k : (forall p, page_pos k <= p < page_pos (k + 1) -> log_byte recs' p = log_byte recs p) -> log_rem recs' k = log_rem recs k ->
  page_image recs' k = page_image recs k.
Proof.
  intros HF HH. unfold page_image. rewrite HH. f_equal. apply bytes_eq; [apply length_image|apply length_image|]. intros off Hoff. rewrite !aget_image by done.
  destruct (off <? page_hdr k) eqn:E; [done|]. zbool. apply HF. rewrite page_pos_next. lia.
Qed.

Definition rec_ok (c : Z) (r : frec) : Prop := 0 <= fr_start r /\ fr_end r <= c.

Lemma log_byte_after recs c p : Forall (rec_ok c) recs -> c <= p -> log_byte recs p = 0.
Proof.
  intros H Hp. induction H as [|r recs [_ H] _ IH]; [done|]. cbn [log_byte]. assert ((p <? fr_end r) = false) as -> by (apply Z.ltb_ge; lia). by rewrite andb_false_r.
Qed.

Lemma log_rem_after recs c k : Forall (rec_ok c) recs -> c <= page_pos k -> log_rem recs k = None.
Proof.
  intros H Hp. induction H as [|r recs [_ H] _ IH]; [done|]. cbn [log_rem]. assert ((page_pos k <? fr_end r) = false) as -> by (apply Z.ltb_ge; lia). by rewrite andb_false_r.
Qed.

(** A page after the end of the log is empty. *)
Lemma image_after recs c k : Forall (rec_ok c) recs -> c <= page_pos k -> page_image recs k = page_image [] k.
Proof.
  intros H Hc. apply image_ext; [|by apply (log_rem_after _ c)]. intros p Hp. apply (log_byte_after _ c); [done|lia].
Qed.

(** ** Buffers and file *)

Record cache_ok (pages : list flog_page_header_data) (blocks : list Z) (upto : Z) (recs : list frec) : Prop := {
  ca_len : length pages = length blocks;
  ca_pos : (0 < length blocks)%nat;
  ca_upto : exists I, upto = I * 8192 /\ 0 <= I;
  ca_win : forall k, 0 <= k -> upto / 8192 - Z.of_nat (length blocks) <= k < upto / 8192 ->
    aget 0 blocks (k mod Z.of_nat (length blocks)) = (k + 1) * 8192 /\ aget blank_page pages (k mod Z.of_nat (length blocks)) = page_image recs k;
  ca_new : forall i, upto / 8192 <= i < Z.of_nat (length blocks) -> aget 0 blocks i = 0
}.

Definition same_header (a b : flog_page_header_data) : Prop := set_bytes a [] = set_bytes b [].

Definition file_ok (f : gmap Z flog_page_header_data) (recs : list frec) (D : Z) : Prop :=
  forall k, 0 <= k -> k * 8192 < D ->
    same_header (default blank_page (f !! k)) (page_image recs k) /\
    forall off, 0 <= off < 8192 -> k * 8192 + off < D -> aget 0 (xlp_bytes (default blank_page (f !! k))) off = aget 0 (image_bytes recs k) off.

Lemma file_ok_le f recs D D' : file_ok f recs D -> D' <= D -> file_ok f recs D'.
Proof. intros H Hle k Hk HD. destruct (H k Hk ltac:(lia)) as [H1 H2]. split; [done|]. intros off Hoff Ho. apply H2; [done|lia]. Qed.

Lemma file_dump f recs D P (m : nat) g :
  0 <= P -> file_ok f recs D -> P * 8192 <= D -> (forall i, 0 <= i < Z.of_nat m -> g i = page_image recs (P + i)) ->
  file_ok (foldl (fun f i => <[P + i := g i]> f) f (seqZ 0 (Z.of_nat m))) recs ((P + Z.of_nat m) * 8192).
Proof.
  intros HP Hf HD Hg. assert (forall k, foldl (fun f i => <[P + i := g i]> f) f (seqZ 0 (Z.of_nat m)) !! k =
    if decide (P <= k < P + Z.of_nat m) then Some (page_image recs k) else f !! k) as Hl.
  { intros k. clear Hf HD. induction m as [|m IH].
    - rewrite decide_False by lia. done.
    - rewrite seqZ_S, foldl_app. cbn [foldl]. rewrite Z.add_0_l. destruct (decide (P + Z.of_nat m = k)) as [<-|Hne].
      + rewrite lookup_insert_eq, decide_True by lia. f_equal. apply Hg. lia.
      + rewrite lookup_insert_ne by done. rewrite IH by (intros; apply Hg; lia). destruct (decide (P <= k < P + Z.of_nat m)) as [|Hn1];
          [by rewrite decide_True by lia|by rewrite decide_False by lia]. }
  intros k Hk HkD. rewrite Hl. destruct (decide (P <= k < P + Z.of_nat m)) as [Hin|Hout]; [by split|].
  destruct (Hf k Hk ltac:(lia)) as [H1 H2]. split; [done|]. intros off Hoff _. apply H2; lia.
Qed.

(** ** Writing *)

(** Writing leaves everything but the file, the open segment and the highest
    segment number. *)
Definition written_from (w w' : flog_world) : Prop :=
  (exists m, fw_ctl w' = fc_set_seg (fw_ctl w) m) /\ fo_write_result (fw_local w') = fo_write_result (fw_local w) /\
  fo_cached (fw_local w') = fo_cached (fw_local w) /\ fo_lock_no (fw_local w') = fo_lock_no (fw_local w).

Lemma written_from_refl w : written_from w w.
Proof. split; [|done]. exists (fc_max_seg_no (fw_ctl w)). by destruct (fw_ctl w). Qed.

Lemma written_from_trans w1 w2 w3 : written_from w1 w2 -> written_from w2 w3 -> written_from w1 w3.
Proof. intros ((m & E) & A & B & C) ((m' & E') & A' & B' & C'). split; [|split_and!; congruence]. exists m'. rewrite E', E. done. Qed.

(** The segment of page [k] is opened when it is not open. *)
Lemma open_segment_spec w k :
  0 <= k < 2 ^ 50 ->
  let ptr := (k + 1) * 8192 in
  let w1 := if negb (FLOG_PTR_PREV_IN_SEG ptr (fo_log_segno (fw_local w))) then open_segment w ptr else w in
  let w2 := if negb (fo_log_file (fw_local w1)) then open_segment w1 ptr else w1 in
  written_from w w2 /\ fw_file w2 = fw_file w /\ fo_log_segno (fw_local w2) = k / 32768.
Proof.
  intros Hk ptr. assert (u64 (ptr - 1) / POLAR_FLOG_SEG_SIZE = k / 32768) as Es.
  { rewrite u64_small by (unfold is_u64, ptr; lia). unfold ptr, POLAR_FLOG_SEG_SIZE. Z.div_mod_to_equations. lia. }
  assert (forall w, written_from w (open_segment w ptr) /\ fw_file (open_segment w ptr) = fw_file w /\ fo_log_segno (fw_local (open_segment w ptr)) = k / 32768) as Ho.
  { intros w'. split; [|split; [done|exact Es]]. split; [|done]. cbn. unfold polar_flush_flog_max_seg_no. destruct (_ || _); [by eexists|].
    exists (fc_max_seg_no (fw_ctl w')). by destruct (fw_ctl w'). }
  unfold FLOG_PTR_PREV_IN_SEG. rewrite Es. cbv zeta. destruct (Z.eqb_spec (k / 32768) (fo_log_segno (fw_local w))) as [E|Hne]; cbn [negb].
  - destruct (fo_log_file (fw_local w)); cbn [negb]; [|apply Ho]. split; [apply written_from_refl|done].
  - destruct (fo_log_file (fw_local (open_segment w ptr))); cbn [negb]; [apply Ho|]. destruct (Ho w) as (A & B & _). destruct (Ho (open_segment w ptr)) as (A' & B' & C').
    split; [by eapply written_from_trans|]. split; [by rewrite B'|done].
Qed.

(** Pages [P] to [K] are to be written; they are consecutive in the buffers
    and in the segment that is open. *)
Record write_group (c : flog_buf_ctl_data_t) (K npages startidx startoffset : Z) : Prop := {
  wg_pos : 0 < npages <= K;
  wg_win : fc_initalized_upto c / 8192 - Z.of_nat (length (fc_blocks c)) <= K - npages;
  wg_idx : startidx = (K - npages) mod Z.of_nat (length (fc_blocks c)) /\ startidx + npages < Z.of_nat (length (fc_blocks c));
  wg_off : startoffset = (K - npages) mod 32768 * 8192 /\ (K - npages) mod 32768 + npages < 32768
}.

Lemma segment_offset ptr : FLOG_SEGMENT_OFFSET ptr = ptr mod 268435456.
Proof. unfold FLOG_SEGMENT_OFFSET. change (POLAR_FLOG_SEG_SIZE - 1) with (Z.ones 28). by rewrite Z.land_ones. Qed.

Lemma pwrite_spec w recs P npages D :
  cache_ok (fc_pages (fw_ctl w)) (fc_blocks (fw_ctl w)) (fc_initalized_upto (fw_ctl w)) recs -> file_ok (fw_file w) recs D ->
  0 <= P -> 0 < npages -> P * 8192 <= D -> fo_log_segno (fw_local w) = P / 32768 ->
  let n := Z.of_nat (length (fc_blocks (fw_ctl w))) in
  fc_initalized_upto (fw_ctl w) / 8192 - n <= P -> P + npages <= fc_initalized_upto (fw_ctl w) / 8192 -> P mod n + npages <= n ->
  file_ok (fw_file (polar_pwrite w (P mod n) npages (P mod 32768 * 8192))) recs ((P + npages) * 8192).
Proof.
  intros HC HF HP Hnp HD Hseg n Hw1 Hw2 Hn. pose proof (ca_pos _ _ _ _ HC) as Hn0. unfold polar_pwrite. cbn [fw_file].
  assert (fo_log_segno (fw_local w) * (POLAR_FLOG_SEG_SIZE / POLAR_FLOG_BLCKSZ) + P mod 32768 * 8192 / POLAR_FLOG_BLCKSZ = P) as ->.
  { rewrite Hseg. change (POLAR_FLOG_SEG_SIZE / POLAR_FLOG_BLCKSZ) with 32768. unfold POLAR_FLOG_BLCKSZ. Z.div_mod_to_equations. lia. }
  pose proof (file_dump (fw_file w) recs D P (Z.to_nat npages) (fun i => mpage (fw_ctl w) (P mod n + i)) HP HF HD) as H. rewrite Z2Nat.id in H by lia.
  apply H. intros i Hi. unfold mpage. assert (P mod n + i = (P + i) mod n) as ->.
  { symmetry. rewrite <- Z.add_mod_idemp_l by lia. apply Z.mod_small. pose proof (Z.mod_pos_bound P n ltac:(lia)). lia. }
  apply (ca_win _ _ _ _ HC); lia.
Qed.

Lemma write_loop_spec fuel : forall w recs D wr request flexible npages startidx startoffset,
  let c := fw_ctl w in
  let n := Z.of_nat (length (fc_blocks c)) in
  let K := wr / 8192 in
  cache_ok (fc_pages c) (fc_blocks c) (fc_initalized_upto c) recs -> file_ok (fw_file w) recs D -> fc_initalized_upto c < 2 ^ 62 ->
  0 <= wr <= request -> request <= fc_initalized_upto c -> fc_initalized_upto c / 8192 - n <= K -> D <= wr ->
  (npages = 0 /\ D = wr \/ wr = K * 8192 /\ wr < request /\ (K - npages) * 8192 <= D /\ write_group c K npages startidx startoffset) ->
  fc_initalized_upto c / 8192 - K <= Z.of_nat fuel ->
  exists w' wr', flog_write_loop fuel w wr request flexible (K mod n) npages startidx startoffset = Done (w', wr') /\
    file_ok (fw_file w') recs wr' /\ wr <= wr' <= request /\ (flexible = false -> wr' = request) /\ (wr < request -> wr < wr') /\ written_from w w'.
Proof.
  induction fuel as [|fuel IH]; intros w recs D wr request flexible npages startidx startoffset c n K HC HF Hbig Hwr Hreq HKw HD Hgrp Hfuel.
  { pose proof (ca_upto _ _ _ _ HC) as (I & EI & HI). assert (wr = request) as <- by (unfold K in *; rewrite EI in *; Z.div_mod_to_equations; lia).
    cbn [flog_write_loop]. rewrite Z.ltb_irrefl. cbn [negb]. eexists _, _. split; [reflexivity|]. destruct Hgrp as [[_ <-]|[_ ?]]; [|lia].
    split; [done|]. split; [lia|]. split; [done|]. split; [lia|]. apply written_from_refl. }
  cbn [flog_write_loop]. destruct (Z.ltb_spec wr request) as [Hlt|Hge]; cbn [negb].
  2: { assert (wr = request) as <- by lia. eexists _, _. split; [reflexivity|]. destruct Hgrp as [[_ <-]|[_ ?]]; [|lia].
       split; [done|]. split; [lia|]. split; [done|]. split; [lia|]. apply written_from_refl. }
  pose proof (ca_upto _ _ _ _ HC) as (I & EI & HI). pose proof (ca_pos _ _ _ _ HC) as Hn0. assert (0 < n) as Hn by (unfold n; lia).
  assert (fc_initalized_upto c / 8192 = I) as EI' by (rewrite EI; apply Z.div_mul; lia). rewrite EI' in *.
  assert (0 <= K < I /\ K * 8192 <= wr < (K + 1) * 8192) as [HK HKwr] by (unfold K; rewrite EI in *; Z.div_mod_to_equations; lia).
  destruct (ca_win _ _ _ _ HC K ltac:(lia)) as [Hblk _]; [rewrite EI'; fold n; lia|]. fold c. fold n in Hblk.
  set (wr1 := (K + 1) * 8192). assert (block c (K mod n) = wr1) as -> by exact Hblk. assert ((wr >=? wr1) = false) as -> by (rewrite Z.geb_leb; apply Z.leb_gt; lia).
  destruct (open_segment_spec w K ltac:(rewrite EI in *; lia)) as (HWF & Hfile & Hseg). fold wr1 in HWF, Hfile, Hseg.
  set (w1 := if negb (FLOG_PTR_PREV_IN_SEG wr1 _) then _ else w) in *. set (w2 := if negb (fo_log_file (fw_local w1)) then _ else w1) in *. clearbody w2. clear w1.
  destruct HWF as ((m & Ectl) & HWF). set (P := if npages =? 0 then K else K - npages).
  assert (0 <= P <= K /\ I - n <= P /\ P mod n + (K - P) < n /\ P mod 32768 + (K - P) < 32768 /\ P * 8192 <= D /\ npages + 1 = K + 1 - P /\
    (if npages =? 0 then K mod n else startidx) = P mod n /\ (if npages =? 0 then FLOG_SEGMENT_OFFSET (wr1 - POLAR_FLOG_BLCKSZ) else startoffset) = P mod 32768 * 8192)
    as (HP & HPw & HPn & HPs & HPD & Enp & Eidx & Eoff).
  { unfold P. destruct Hgrp as [[-> ->]|(E1 & E2 & E3 & [[G1 G1'] G2 [-> G3] [-> G4]])].
    - rewrite Z.eqb_refl. rewrite segment_offset. unfold wr1, POLAR_FLOG_BLCKSZ. pose proof (Z.mod_pos_bound K n Hn). split_and!; try lia; Z.div_mod_to_equations; lia.
    - assert ((npages =? 0) = false) as -> by (apply Z.eqb_neq; lia). rewrite EI' in G2. fold n in G2, G3. split_and!; try lia; done. }
  rewrite Eidx, Eoff, Enp. clearbody P. clear Eidx Eoff.
  assert (P / 32768 = K / 32768) as EPs by (Z.div_mod_to_equations; lia). assert (P mod n + (K - P) = K mod n) as EPn.
  { replace (K mod n) with ((P + (K - P)) mod n) by (f_equal; lia). rewrite <- Z.add_mod_idemp_l by lia. symmetry. apply Z.mod_small. pose proof (Z.mod_pos_bound P n Hn). lia. }
  set (partial := request <? wr1). set (fin := negb partial && _). set (dump := _ || _ || fin).
  set (w3 := if dump then polar_pwrite w2 _ _ _ else w2). set (w4 := if dump && fin then _ else w3).
  assert (fw_ctl w4 = fc_set_seg c m /\ fo_write_result (fw_local w4) = fo_write_result (fw_local w) /\ fo_cached (fw_local w4) = fo_cached (fw_local w) /\
    fo_lock_no (fw_local w4) = fo_lock_no (fw_local w) /\ (dump = true -> file_ok (fw_file w4) recs wr1) /\ (dump = false -> fw_file w4 = fw_file w)) as (C4 & A1 & A2 & A3 & F4 & F4').
  { assert (fw_ctl w4 = fw_ctl w2 /\ fw_local w4 = fw_local w2 /\ fw_file w4 = fw_file w3) as (-> & -> & ->) by (unfold w4, w3; by destruct dump, fin).
    rewrite Ectl. destruct HWF as (-> & -> & ->). split_and!; try done; unfold w3; intros Ed; rewrite Ed; [|by rewrite Hfile].
    pose proof (pwrite_spec w2 recs P (K + 1 - P) D) as H. rewrite Ectl in H. cbn [fc_set_seg fc_pages fc_blocks fc_initalized_upto] in H. fold c in H. fold n in H. rewrite EI', Hfile in H.
    replace wr1 with ((P + (K + 1 - P)) * 8192) by (unfold wr1; f_equal; lia). apply H; try done; lia || congruence. }
  assert (written_from w w4) as HWF4 by (split; [by exists m|done]). clearbody w4. clear w3 w2 Ectl HWF Hfile Hseg.
  assert (dump = false -> request > wr1 /\ K mod n <> n - 1 /\ P mod 32768 + (K + 1 - P) < 32768) as Hnd.
  { unfold dump. intros Ed. zbool. split; [lia|]. split.
    - change (fc_cache_blck c) with (n - 1) in *. lia.
    - unfold fin in *. assert (partial = false) as Ep by (unfold partial; apply Z.ltb_ge; lia). rewrite Ep in *. cbn [negb andb] in *. zbool.
      unfold POLAR_FLOG_BLCKSZ, POLAR_FLOG_SEG_SIZE in *. lia. }
  unfold partial at 1. destruct (Z.ltb_spec request wr1) as [Hpart|Hpart].
  { assert (dump = true) as Ed by (unfold dump; rewrite (proj2 (Z.leb_le request wr1)) by lia; done). eexists _, _. split; [reflexivity|].
    split; [eapply file_ok_le; [by apply F4|lia]|]. split; [lia|]. split; [done|]. split; [done|done]. }
  destruct (flexible && _) eqn:Efl.
  { apply andb_true_iff in Efl as [-> Ed]. assert (dump = true) as Ed' by (destruct dump; [done|]; zbool; lia). eexists _, _. split; [reflexivity|].
    split; [by apply F4|]. unfold wr1 in *. split; [lia|]. split; [done|]. split; [lia|done]. }
  assert (wr1 / 8192 = K + 1) as EK1 by (unfold wr1; apply Z.div_mul; lia).
  assert (FLOG_NEXT_BUF_IDX c (K mod n) = (K + 1) mod n) as ->.
  { unfold FLOG_NEXT_BUF_IDX. change (fc_cache_blck c) with (n - 1). rewrite <- (Z.add_mod_idemp_l K 1) by lia. pose proof (Z.mod_pos_bound K n Hn).
    destruct (Z.eqb_spec (K mod n) (n - 1)) as [->|]; [replace (n - 1 + 1) with n by lia; by rewrite Z.mod_same by lia|by rewrite (Z.mod_small (K mod n + 1)) by lia]. }
  specialize (IH w4 recs (if dump then wr1 else D) wr1 request flexible (if dump then 0 else K + 1 - P) (P mod n) (P mod 32768 * 8192)).
  cbv zeta in IH. rewrite C4 in IH. cbn [fc_set_seg fc_pages fc_blocks fc_initalized_upto] in IH. rewrite EK1, EI' in IH. fold n in IH.
  destruct IH as (w' & wr' & Hrun & H1 & H2 & H3 & H4 & H5); try done; try lia.
  - destruct dump; [by apply F4|by rewrite F4'].
  - destruct dump; unfold wr1; lia.
  - destruct dump; [by left|right]. destruct (Hnd eq_refl) as (N1 & N2 & N3). split; [unfold wr1; lia|]. split; [lia|]. split; [lia|].
    split; cbn [fc_initalized_upto fc_blocks fc_set_seg]; rewrite ?EI'; fold n; [lia|lia| |]; replace (K + 1 - (K + 1 - P)) with P by lia; split; try done; lia.
  - eexists _, _. split; [exact Hrun|]. split; [done|]. unfold wr1 in H2. split; [lia|]. split; [done|]. split; [lia|]. by eapply written_from_trans.
Qed.

(** ** The invariant

    Everything before position [c] is copied; more may be reserved. *)
Record flog_inv (w : flog_world) (recs : list frec) (c : Z) : Prop := {
  v_cache : cache_ok (fc_pages (fw_ctl w)) (fc_blocks (fw_ctl w)) (fc_initalized_upto (fw_ctl w)) recs;
  v_pos : 0 <= c <= fc_curr_pos (fw_ctl w) /\ fc_curr_pos (fw_ctl w) < 2 ^ 60;
  v_done : polar_flog_pos2endptr c <= fc_initalized_upto (fw_ctl w);
  v_recs : Forall (rec_ok c) recs;
  v_res : 0 <= fc_write_result (fw_ctl w) <= polar_flog_pos2endptr c;
  v_evicted : (fc_initalized_upto (fw_ctl w) / 8192 - Z.of_nat (length (fc_blocks (fw_ctl w)))) * 8192 <= fc_write_result (fw_ctl w);
  v_req : fc_write_result (fw_ctl w) <= fc_write_request (fw_ctl w) <= polar_flog_pos2endptr (fc_curr_pos (fw_ctl w));
  v_file : file_ok (fw_file w) recs (fc_write_result (fw_ctl w));
  v_local : local_result w <= fc_write_result (fw_ctl w);
  v_cached : forall k i, fo_cached (fw_local w) = Some (k, i) ->
    0 <= k /\ i = k mod Z.of_nat (length (fc_blocks (fw_ctl w))) /\ (k + 1) * 8192 <= fc_initalized_upto (fw_ctl w);
  v_size : Z.of_nat (length (fc_blocks (fw_ctl w))) < 2 ^ 40
}.

Lemma endptr_bound p : 0 <= p < 2 ^ 60 -> polar_flog_pos2endptr p < 2 ^ 61.
Proof.
  intros Hp. pose proof (endptr_page p ltac:(unfold pos_ok; lia)) as [_ He]. destruct (page_of_spec p ltac:(lia)) as [_ [H _]]. unfold page_pos in H.
  Z.div_mod_to_equations. lia.
Qed.

Lemma inv_upto w recs c : flog_inv w recs c -> fc_initalized_upto (fw_ctl w) < 2 ^ 62 - 8192.
Proof.
  intros HV. pose proof (endptr_bound c ltac:(pose proof (v_pos _ _ _ HV); lia)). pose proof (v_res _ _ _ HV). pose proof (v_evicted _ _ _ HV). pose proof (v_size _ _ _ HV).
  Z.div_mod_to_equations. lia.
Qed.

Lemma inv_take_result w recs c : flog_inv w recs c -> flog_inv (take_result w) recs c.
Proof. intros [V1 V2 V3 V4 V5 V6 V7 V8 V9 V10 V11]. split; try done. Qed.

Lemma inv_request w recs c request :
  flog_inv w recs c -> request <= polar_flog_pos2endptr (fc_curr_pos (fw_ctl w)) -> flog_inv (with_ctl w (fc_set_request (fw_ctl w) request)) recs c.
Proof. intros [V1 V2 V3 V4 V5 V6 V7 V8 V9 V10 V11] Hr. split; try done. cbn [fw_ctl with_ctl fc_set_request fc_write_result fc_write_request fc_curr_pos]. destruct (Z.ltb_spec (fc_write_request (fw_ctl w)) request); lia. Qed.

(** What an operation leaves of the control block. *)
Definition same_log (w w' : flog_world) : Prop :=
  fc_curr_pos (fw_ctl w') = fc_curr_pos (fw_ctl w) /\ fc_prev_pos (fw_ctl w') = fc_prev_pos (fw_ctl w) /\
  length (fc_blocks (fw_ctl w')) = length (fc_blocks (fw_ctl w)) /\ fc_buf_state (fw_ctl w') = fc_buf_state (fw_ctl w) /\
  fo_lock_no (fw_local w') = fo_lock_no (fw_local w) /\ fc_write_result (fw_ctl w) <= fc_write_result (fw_ctl w') /\
  fc_initalized_upto (fw_ctl w) <= fc_initalized_upto (fw_ctl w') /\ length (fc_insert_locks (fw_ctl w')) = length (fc_insert_locks (fw_ctl w)).

Lemma flog_write_spec w recs c request flexible :
  flog_inv w recs c -> fc_write_result (fw_ctl w) <= request -> request <= polar_flog_pos2endptr c ->
  exists w', flog_write w request flexible = Done w' /\ flog_inv w' recs c /\ same_log w w' /\
    fc_initalized_upto (fw_ctl w') = fc_initalized_upto (fw_ctl w) /\ fc_insert_locks (fw_ctl w') = fc_insert_locks (fw_ctl w) /\
    local_result w' = fc_write_result (fw_ctl w') /\
    (flexible = false -> fc_write_result (fw_ctl w') = request) /\ (fc_write_result (fw_ctl w) < request -> fc_write_result (fw_ctl w) < fc_write_result (fw_ctl w')).
Proof.
  intros HV Hr1 Hr2. pose proof (inv_upto _ _ _ HV) as Hup. pose proof HV as [V1 V2 V3 V4 V5 V6 V7 V8 V9 V10 V11]. unfold flog_write. set (w0 := take_result w). change (fw_ctl w0) with (fw_ctl w).
  set (n := Z.of_nat (length (fc_blocks (fw_ctl w)))) in *. set (W := fc_write_result (fw_ctl w)) in *. set (upto := fc_initalized_upto (fw_ctl w)) in *.
  destruct (write_loop_spec (S (length (fc_blocks (fw_ctl w)))) w0 recs W W request flexible 0 0 0) as (w1 & r & Hrun & H1 & H2 & H3 & H4 & ((m & Ec) & H5 & H6 & H7));
    try done; change (fw_ctl w0) with (fw_ctl w); fold n upto W; [lia|lia|lia|Z.div_mod_to_equations; lia|by left|Z.div_mod_to_equations; lia|].
  unfold FLOG_PTR2BUF_IDX. change (fc_cache_blck (fw_ctl w) + 1) with (n - 1 + 1). replace (n - 1 + 1) with n by lia. unfold POLAR_FLOG_BLCKSZ.
  change (fw_ctl w0) with (fw_ctl w) in Hrun, Ec. fold n in Hrun. rewrite Hrun. cbn [obind]. eexists. split; [reflexivity|].
  set (w2 := with_ctl _ _). assert (fw_ctl w2 = fc_set_request (fc_set_result (fc_set_seg (fw_ctl w) m) r) request) as E2 by (unfold w2; cbn [fw_ctl with_ctl with_local]; by rewrite Ec).
  assert (0 <= r <= polar_flog_pos2endptr c) as Hr by lia. split; [|split; [|rewrite !E2; by split_and!]].
  - split; rewrite ?E2; cbn [fc_set_request fc_set_result fc_set_seg fc_pages fc_blocks fc_initalized_upto fc_curr_pos fc_write_result fc_write_request]; try done; fold n upto W; try lia.
    + assert (polar_flog_pos2endptr c <= polar_flog_pos2endptr (fc_curr_pos (fw_ctl w))) by (apply endptr_mono; unfold pos_ok; lia).
      destruct (Z.ltb_spec (fc_write_request (fw_ctl w)) request); lia.
    + intros k i. change (fo_cached (fw_local w2)) with (fo_cached (fw_local w1)). rewrite H6. apply V10.
  - unfold same_log. rewrite E2. split_and!; try done; cbn [fc_set_request fc_set_result fc_set_seg fc_write_result fc_initalized_upto]; fold W upto; lia.
Qed.

(** ** Initialising pages *)

Lemma inv_index w recs c : flog_inv w recs c -> forall ptr, FLOG_PTR2BUF_IDX (fw_ctl w) ptr = ptr / 8192 mod Z.of_nat (length (fc_blocks (fw_ctl w))).
Proof. intros _ ptr. unfold FLOG_PTR2BUF_IDX, fc_cache_blck, POLAR_FLOG_BLCKSZ. f_equal. lia. Qed.

Lemma inv_page w recs c : flog_inv w recs c -> exists I, fc_initalized_upto (fw_ctl w) = I * 8192 /\ 0 <= I /\ fc_initalized_upto (fw_ctl w) / 8192 = I.
Proof. intros HV. destruct (ca_upto _ _ _ _ (v_cache _ _ _ HV)) as (I & E & HI). exists I. split; [done|]. split; [done|]. rewrite E. apply Z.div_mul. lia. Qed.

(** The buffer of the next page has the page [n] pages before, if any. *)
Lemma next_block w recs c I : flog_inv w recs c -> fc_initalized_upto (fw_ctl w) = I * 8192 -> 0 <= I ->
  let n := Z.of_nat (length (fc_blocks (fw_ctl w))) in block (fw_ctl w) (I mod n) = Z.max 0 ((I - n + 1) * 8192).
Proof.
  intros HV EI HI n. pose proof (ca_pos _ _ _ _ (v_cache _ _ _ HV)) as Hn. assert (fc_initalized_upto (fw_ctl w) / 8192 = I) as EI' by (rewrite EI; apply Z.div_mul; lia).
  unfold block. destruct (decide (I < n)) as [Hlt|Hge].
  - rewrite Z.mod_small by lia. rewrite (ca_new _ _ _ _ (v_cache _ _ _ HV)) by (rewrite EI'; fold n; lia). lia.
  - destruct (ca_win _ _ _ _ (v_cache _ _ _ HV) (I - n)) as [H _]; [lia|rewrite EI'; fold n; lia|]. fold n in H.
    replace (I mod n) with ((I - n) mod n); [rewrite H; lia|]. rewrite <- (Z_mod_plus_full (I - n) 1 n). f_equal. lia.
Qed.

(** Pages that are less than a round apart have different buffers. *)
Lemma mod_near a b n : 0 < n -> 0 < a - b < n -> a mod n <> b mod n.
Proof.
  intros Hn Hab E. pose proof (Z.div_mod a n ltac:(lia)). pose proof (Z.div_mod b n ltac:(lia)). assert (a - b = n * (a / n - b / n)) as Ed by lia.
  destruct (Z.lt_trichotomy (a / n - b / n) 0) as [|[H1|]]; [nia|rewrite H1 in Ed; lia|nia].
Qed.

Lemma init_page_spec w recs c I :
  flog_inv w recs c -> fc_initalized_upto (fw_ctl w) = I * 8192 -> 0 <= I ->
  let idx := I mod Z.of_nat (length (fc_blocks (fw_ctl w))) in
  block (fw_ctl w) idx <= fc_write_result (fw_ctl w) ->
  let w' := with_ctl w (init_page sysid (fw_ctl w) idx) in
  flog_inv w' recs c /\ same_log w w' /\ fc_initalized_upto (fw_ctl w') = (I + 1) * 8192 /\ fc_insert_locks (fw_ctl w') = fc_insert_locks (fw_ctl w) /\
  local_result w' = local_result w.
Proof.
  intros HV EI HI idx Hblk w'. pose proof (next_block _ _ _ _ HV EI HI) as Hnb. cbv zeta in Hnb. fold idx in Hnb. rewrite Hnb in Hblk. clear Hnb.
  pose proof (inv_upto _ _ _ HV) as Hup. pose proof HV as [V1 V2 V3 V4 V5 V6 V7 V8 V9 V10 V11]. set (n := Z.of_nat (length (fc_blocks (fw_ctl w)))) in *.
  pose proof (ca_pos _ _ _ _ V1) as Hn. assert (0 <= idx < n) as Hidx by (apply Z.mod_pos_bound; lia).
  assert (u64 (fc_initalized_upto (fw_ctl w) + POLAR_FLOG_BLCKSZ) = (I + 1) * 8192) as Eup.
  { rewrite EI in *. unfold POLAR_FLOG_BLCKSZ. rewrite u64_small by (unfold is_u64; lia). lia. }
  assert (fc_initalized_upto (fw_ctl w') = (I + 1) * 8192) as EI1 by exact Eup.
  assert (c <= page_pos I) as Hc by (apply endptr_le; [unfold pos_ok; lia|done|rewrite EI in *; lia]).
  assert (length (fc_blocks (fw_ctl w')) = length (fc_blocks (fw_ctl w))) as El by (cbn; apply length_aset).
  split; [|split; [unfold same_log; rewrite El, EI1, EI; split_and!; try done; lia|by split_and!]].
  split; rewrite ?EI1, ?El; try done; fold n.
  - assert (fc_initalized_upto (fw_ctl w) / 8192 = I) as EI' by (rewrite EI; apply Z.div_mul; lia).
    split; cbn [fw_ctl w' with_ctl init_page fc_set_block fc_set_page fc_pages fc_blocks]; rewrite ?length_aset, ?Eup, ?Z.div_mul by lia; fold n; [apply V1|apply V1|exists (I + 1); lia| |].
    + intros k Hk Hw. rewrite aget_aset by (fold n; lia). rewrite aget_aset by (rewrite (ca_len _ _ _ _ V1); fold n; lia). destruct (decide (k = I)) as [->|Hne].
      * fold idx. rewrite !decide_True by done. split; [done|]. rewrite (image_after recs c) by done. unfold page_image. cbn [log_rem default]. rewrite segment_offset, EI.
        assert ((I * 8192 mod 268435456 =? 0) = (I mod 32768 =? 0)) as -> by (apply Bool.eq_iff_eq_true; rewrite !Z.eqb_eq; Z.div_mod_to_equations; lia).
        rewrite Z.lor_0_r. f_equal. symmetry. apply bytes_eq; [apply length_image|done|]. intros off Hoff. rewrite aget_image by done.
        change (xlp_bytes blank_page) with (replicate (Z.to_nat POLAR_FLOG_BLCKSZ) 0). rewrite aget_replicate. by destruct (_ <? _).
      * assert (idx <> k mod n) as Hni.
        { unfold idx. intros E. apply (mod_near I k n); [lia|lia|done]. }
        rewrite !decide_False by done. apply (ca_win _ _ _ _ V1); [done|]. rewrite EI'. fold n. lia.
    + intros i Hi. rewrite aget_aset_ne; [apply (ca_new _ _ _ _ V1); rewrite EI'; fold n; lia|]. unfold idx. rewrite Z.mod_small by lia. lia.
  - rewrite EI in V3. lia.
  - rewrite Z.div_mul by lia. change (fc_write_result (fw_ctl w')) with (fc_write_result (fw_ctl w)). lia.
  - intros k i Hk. rewrite EI in V10. specialize (V10 k i Hk). lia.
Qed.

(** Every insertion is past [upto]. *)
Definition locks_past (w : flog_world) (upto : Z) : Prop :=
  Forall (fun l => match l with Some at_ => upto <= at_ | None => True end) (fc_insert_locks (fw_ctl w)).

Lemma wait_done w upto : locks_past w upto -> exists r, wait_flog_insertions_finish (fw_ctl w) upto = Done r.
Proof.
  unfold wait_flog_insertions_finish, locks_past. intros H. set (u := if upto >? _ then _ else upto).
  assert (u <= upto) as Hu by (unfold u; destruct (upto >? _) eqn:E; zbool; lia). generalize (polar_flog_pos2endptr (fc_curr_pos (fw_ctl w))).
  induction H as [|[at_|] locks Hat _ IH]; intros f; cbn [wait_locks]; [by eexists| |apply IH].
  assert ((at_ <? u) = false) as -> by (apply Z.ltb_ge; lia). apply IH.
Qed.

Lemma advance_stop fuel w upto : upto < fc_initalized_upto (fw_ctl w) -> advance_loop sysid fuel w upto false = Done w.
Proof. intros H. assert ((upto >=? fc_initalized_upto (fw_ctl w)) = false) as E by (rewrite Z.geb_leb; apply Z.leb_gt; lia). destruct fuel; cbn; by rewrite E. Qed.

Lemma same_log_refl w : same_log w w.
Proof. by repeat split. Qed.
Lemma same_log_trans w1 w2 w3 : same_log w1 w2 -> same_log w2 w3 -> same_log w1 w3.
Proof. intros (A1 & A2 & A3 & A4 & A5 & A6 & A7 & A8) (B1 & B2 & B3 & B4 & B5 & B6 & B7 & B8). unfold same_log. split_and!; congruence || lia. Qed.

(** The next page, after the page that is in its buffer was written. *)
Lemma advance_one fuel w recs c I ptr :
  flog_inv w recs c -> fc_initalized_upto (fw_ctl w) = I * 8192 -> 0 <= I -> I * 8192 <= ptr < (I + 1) * 8192 -> I * 8192 <= polar_flog_pos2endptr c ->
  locks_past w (I * 8192) -> (2 <= fuel)%nat ->
  exists w', advance_loop sysid fuel w ptr false = Done w' /\ flog_inv w' recs c /\ same_log w w' /\ fc_initalized_upto (fw_ctl w') = (I + 1) * 8192 /\
    fc_insert_locks (fw_ctl w') = fc_insert_locks (fw_ctl w).
Proof.
  intros HV EI HI Hptr Hc HL Hf. destruct fuel as [|[|fuel]]; [lia|lia|]. clear Hf.
  assert (forall fuel w, flog_inv w recs c -> fc_initalized_upto (fw_ctl w) = I * 8192 -> let idx := I mod Z.of_nat (length (fc_blocks (fw_ctl w))) in
    block (fw_ctl w) idx <= fc_write_result (fw_ctl w) ->
    exists w', advance_loop sysid fuel (with_ctl w (init_page sysid (fw_ctl w) idx)) ptr false = Done w' /\ flog_inv w' recs c /\ same_log w w' /\
      fc_initalized_upto (fw_ctl w') = (I + 1) * 8192 /\ fc_insert_locks (fw_ctl w') = fc_insert_locks (fw_ctl w)) as Hgo.
  { clear - HI Hptr. intros fuel w HV EI idx Hblk. destruct (init_page_spec w recs c I HV EI HI Hblk) as (H1 & H2 & H3 & H4 & _). fold idx in H1, H2, H3, H4.
    eexists. split; [apply advance_stop; rewrite H3; lia|]. by split_and!. }
  assert (forall fuel w, flog_inv w recs c -> fc_initalized_upto (fw_ctl w) = I * 8192 -> let idx := I mod Z.of_nat (length (fc_blocks (fw_ctl w))) in
    block (fw_ctl w) idx <= fc_write_result (fw_ctl w) -> block (fw_ctl w) idx <= local_result w ->
    exists w', advance_loop sysid (S fuel) w ptr false = Done w' /\ flog_inv w' recs c /\ same_log w w' /\
      fc_initalized_upto (fw_ctl w') = (I + 1) * 8192 /\ fc_insert_locks (fw_ctl w') = fc_insert_locks (fw_ctl w)) as Hround.
  { clear - HI Hptr Hgo. intros fuel w HV EI idx Hblk Hloc. cbn [advance_loop]. rewrite (inv_index _ _ _ HV), EI, Z.div_mul by lia. fold idx.
    rewrite (proj2 (Z.geb_le ptr (I * 8192))) by lia. cbn [orb negb]. rewrite (proj2 (Z.ltb_ge (local_result w) _)) by lia. by apply Hgo. }
  set (idx := I mod Z.of_nat (length (fc_blocks (fw_ctl w)))). pose proof (next_block _ _ _ _ HV EI HI) as Hold. cbv zeta in Hold. fold idx in Hold.
  pose proof (ca_pos _ _ _ _ (v_cache _ _ _ HV)) as Hn. pose proof HV as [V1 V2 V3 V4 V5 V6 V7 V8 V9 V10 V11].
  assert (block (fw_ctl w) idx <= I * 8192) as Hle by (rewrite Hold; lia).
  destruct (decide (block (fw_ctl w) idx <= local_result w)) as [Hl|Hl]; [apply Hround; try done; fold idx; lia|].
  remember (S fuel) as f eqn:Ef. cbn [advance_loop]. rewrite (inv_index _ _ _ HV), EI, Z.div_mul by lia. fold idx.
  rewrite (proj2 (Z.geb_le ptr (I * 8192))) by lia. cbn [orb negb]. rewrite (proj2 (Z.ltb_lt (local_result w) _)) by lia.
  assert (polar_flog_pos2endptr c <= polar_flog_pos2endptr (fc_curr_pos (fw_ctl w))) as Hmono by (apply endptr_mono; unfold pos_ok; lia).
  pose proof (inv_take_result _ _ _ (inv_request w recs c (block (fw_ctl w) idx) HV ltac:(lia))) as HV1. set (w1 := take_result _) in *.
  change (local_result w1) with (fc_write_result (fw_ctl w)). destruct (Z.ltb_spec (fc_write_result (fw_ctl w)) (block (fw_ctl w) idx)) as [Hw|Hw].
  2: { destruct (Hgo f w1 HV1 EI) as (w' & H1 & H2 & H3 & H4); [exact Hw|]. exists w'. split; [exact H1|]. split; [done|]. split; [exact H3|]. split; [apply H4|apply H4]. }
  destruct (wait_done w1 (block (fw_ctl w) idx)) as (r & ->); [eapply Forall_impl; [exact HL|]; intros [at_|]; [cbn; lia|done]|]. cbn [obind].
  change (local_result (take_result w1)) with (fc_write_result (fw_ctl w)). rewrite Z.geb_leb, (proj2 (Z.leb_gt _ _)) by lia.
  destruct (flog_write_spec w1 recs c (block (fw_ctl w) idx) false HV1) as (w2 & -> & HV2 & HS2 & E2 & EL2 & Hloc2 & Hres2 & _);
    [change (fc_write_result (fw_ctl w) <= block (fw_ctl w) idx); lia|lia|]. cbn [obind]. specialize (Hres2 eq_refl). subst f.
  assert (block (fw_ctl w2) (I mod Z.of_nat (length (fc_blocks (fw_ctl w2)))) = block (fw_ctl w) idx) as Eb2.
  { rewrite (next_block _ _ _ _ HV2) by (done || by rewrite E2). rewrite Hold. destruct HS2 as (_ & _ & -> & _). done. }
  destruct (Hround fuel w2 HV2) as (w' & H1 & H2 & H3 & H4 & H5); [by rewrite E2|rewrite Eb2; lia|rewrite Eb2; lia|].
  exists w'. split; [exact H1|]. split; [done|]. split; [eapply same_log_trans; [exact HS2|exact H3]|]. split; [done|]. by rewrite H5, EL2.
Qed.

(** As many pages as there is room for, without writing. *)
Lemma advance_opportunistic fuel : forall w recs c,
  flog_inv w recs c -> local_result w = fc_write_result (fw_ctl w) ->
  fc_write_result (fw_ctl w) / 8192 - fc_initalized_upto (fw_ctl w) / 8192 + Z.of_nat (length (fc_blocks (fw_ctl w))) + 1 <= Z.of_nat fuel ->
  exists w', advance_loop sysid fuel w 0 true = Done w' /\ flog_inv w' recs c /\ same_log w w' /\ fc_insert_locks (fw_ctl w') = fc_insert_locks (fw_ctl w) /\
    local_result w' = fc_write_result (fw_ctl w').
Proof.
  induction fuel as [|fuel IH]; intros w recs c HV Hloc Hf.
  { destruct (inv_page _ _ _ HV) as (I & EI & HI & EI'). pose proof (v_evicted _ _ _ HV). rewrite EI' in *. exfalso. Z.div_mod_to_equations. lia. }
  destruct (inv_page _ _ _ HV) as (I & EI & HI & EI'). cbn [advance_loop]. rewrite orb_true_r. cbn [negb]. rewrite (inv_index _ _ _ HV), EI'.
  set (idx := I mod _). destruct (Z.ltb_spec (local_result w) (block (fw_ctl w) idx)) as [Hlt|Hge].
  { exists w. split; [done|]. split; [done|]. split; [apply same_log_refl|done]. }
  destruct (init_page_spec w recs c I HV EI HI) as (H1 & H2 & H3 & H4 & H5); [fold idx; lia|]. fold idx in H1, H2, H3, H4, H5. set (w1 := with_ctl w _) in *.
  destruct (IH w1 recs c H1) as (w' & -> & G1 & G2 & G3 & G4); [by rewrite H5|rewrite H3, Z.div_mul by lia; destruct H2 as (_ & _ & -> & _); rewrite EI' in Hf;
    change (fc_write_result (fw_ctl w1)) with (fc_write_result (fw_ctl w)); lia|].
  exists w'. split; [done|]. split; [done|]. split; [by eapply same_log_trans|]. split; [by rewrite G3|done].
Qed.

(** ** Finding the buffer of a page *)

(** Only the caller may hold an insertion lock. *)
Definition own_lock (w : flog_world) : Prop :=
  0 <= fo_lock_no (fw_local w) < Z.of_nat (length (fc_insert_locks (fw_ctl w))) /\
  forall j, j <> fo_lock_no (fw_local w) -> aget None (fc_insert_locks (fw_ctl w)) j = None.

Lemma inv_locks w recs c locks : flog_inv w recs c -> flog_inv (with_ctl w (fc_set_locks (fw_ctl w) locks)) recs c.
Proof. intros [V1 V2 V3 V4 V5 V6 V7 V8 V9 V10 V11]. by split. Qed.

Lemma inv_set_cached w recs c k : flog_inv w recs c -> 0 <= k -> (k + 1) * 8192 <= fc_initalized_upto (fw_ctl w) ->
  flog_inv (with_local w (fo_set_cached (fw_local w) k (k mod Z.of_nat (length (fc_blocks (fw_ctl w)))))) recs c.
Proof. intros [V1 V2 V3 V4 V5 V6 V7 V8 V9 V10 V11] Hk Hle. split; try done. by intros k' i [= <- <-]. Qed.

(** The page of the end of the log is in its buffer once it is initialised. *)
Lemma end_in_window w recs c : flog_inv w recs c -> let n := Z.of_nat (length (fc_blocks (fw_ctl w))) in
  (page_of c + 1) * 8192 <= fc_initalized_upto (fw_ctl w) ->
  block (fw_ctl w) (page_of c mod n) = (page_of c + 1) * 8192 /\ mpage (fw_ctl w) (page_of c mod n) = page_image recs (page_of c).
Proof.
  intros HV n Hle. pose proof HV as [V1 V2 V3 V4 V5 V6 V7 V8 V9 V10 V11]. destruct (inv_page _ _ _ HV) as (I & EI & HI & EI').
  pose proof (endptr_page c ltac:(unfold pos_ok; lia)). destruct (page_of_spec c ltac:(lia)) as [Hk _]. rewrite EI' in V6. fold n in V6.
  apply (ca_win _ _ _ _ V1); [done|]. rewrite EI'. fold n. rewrite EI in Hle. lia.
Qed.

Lemma page_le_upto w recs c I : flog_inv w recs c -> fc_initalized_upto (fw_ctl w) = I * 8192 -> 0 <= I -> page_of c <= I.
Proof.
  intros HV EI HI. pose proof (v_pos _ _ _ HV) as Hp. pose proof (v_done _ _ _ HV) as Hd. rewrite EI in Hd. apply endptr_le in Hd; [|unfold pos_ok; lia|done].
  destruct (page_of_spec c ltac:(lia)) as [_ [H _]]. destruct (decide (page_of c <= I)) as [|Hn]; [done|]. pose proof (page_pos_lt I (page_of c) ltac:(lia)). lia.
Qed.

Lemma get_buf_spec w recs c ptr :
  flog_inv w recs c -> own_lock w -> ptr / 8192 = page_of c -> ptr = polar_flog_pos2ptr c \/ ptr = page_of c * 8192 ->
  exists w', polar_get_flog_buf sysid w ptr = Done (w', page_of c mod Z.of_nat (length (fc_blocks (fw_ctl w)))) /\ flog_inv w' recs c /\ own_lock w' /\ same_log w w' /\
    (page_of c + 1) * 8192 <= fc_initalized_upto (fw_ctl w').
Proof.
  intros HV HO Hpage Hptr. pose proof HV as [V1 V2 V3 V4 V5 V6 V7 V8 V9 V10 V11]. destruct (inv_page _ _ _ HV) as (I & EI & HI & EI').
  set (k := page_of c) in *. set (n := Z.of_nat (length (fc_blocks (fw_ctl w)))) in *. pose proof (ca_pos _ _ _ _ V1) as Hn0.
  assert (0 <= k) as Hk by (apply page_of_spec; lia). assert (pos_ok c) as Hpc by (unfold pos_ok; lia).
  pose proof (page_le_upto _ _ _ _ HV EI HI) as HkI. fold k in HkI. assert (k * 8192 <= ptr < (k + 1) * 8192) as Hr by (rewrite <- Hpage; Z.div_mod_to_equations; lia).
  unfold polar_get_flog_buf. unfold POLAR_FLOG_BLCKSZ. rewrite Hpage.
  assert (k + 1 <= 2 ^ 50) as Hkb by (pose proof (inv_upto _ _ _ HV) as Hu; rewrite EI in Hu; lia).
  assert (u64 (ptr + (8192 - ptr mod 8192)) = (k + 1) * 8192) as -> by (rewrite u64_small; unfold is_u64; Z.div_mod_to_equations; lia).
  rewrite (inv_index _ _ _ HV), Hpage. fold n.
  destruct (decide (k < I)) as [Hlt|Hge].
  { (* initialised already *)
    destruct (end_in_window _ _ _ HV) as [Hblk _]; [fold k; rewrite EI; lia|]. fold k n in Hblk.
    set (hit := match fo_cached (fw_local w) with Some _ => _ | None => None end).
    assert (hit = None \/ hit = Some (k mod n)) as [->| ->].
    { unfold hit. destruct (fo_cached (fw_local w)) as [[k' i]|] eqn:Ec; [|by left]. destruct (Z.eqb_spec k k') as [<-|]; [|by left]. right. by destruct (V10 k i ltac:(done || exact Ec)) as (_ & -> & _). }
    - rewrite Hblk, Z.eqb_refl. cbn [negb obind]. eexists. split; [reflexivity|]. split; [apply (inv_set_cached w recs c k); [done|done|rewrite EI; lia]|]. split; [done|]. split; [exact (same_log_refl w)|].
      change (fc_initalized_upto (fw_ctl (with_local w _))) with (fc_initalized_upto (fw_ctl w)). rewrite EI. lia.
    - exists w. split; [done|]. split; [done|]. split; [done|]. split; [apply same_log_refl|]. rewrite EI. lia. }
  assert (I = k) as -> by lia. set (hit := match fo_cached (fw_local w) with Some _ => _ | None => None end).
  assert (hit = None) as ->.
  { unfold hit. destruct (fo_cached (fw_local w)) as [[k' i]|] eqn:Ec; [|done]. destruct (Z.eqb_spec k k') as [<-|]; [|done]. destruct (V10 k i ltac:(done || exact Ec)) as (_ & _ & H). rewrite EI in H. lia. }
  pose proof (next_block _ _ _ _ HV EI HI) as Hnb. cbv zeta in Hnb. fold n in Hnb. assert (((k + 1) * 8192 =? block (fw_ctl w) (k mod n)) = false) as ->.
  { apply Z.eqb_neq. rewrite Hnb. pose proof V11. lia. }
  cbn [negb]. set (u := if _ && _ then ptr - FLOG_SHORT_PHD_SIZE else _). assert (k * 8192 <= u) as Hu.
  { unfold u, FLOG_SHORT_PHD_SIZE, FLOG_LONG_PHD_SIZE. pose proof (Z.div_mod ptr 8192 ltac:(lia)) as Hdm. rewrite Hpage in Hdm. destruct ((ptr mod 8192 =? 24) && _) eqn:E1; [zbool; lia|].
    destruct ((ptr mod 8192 =? 40) && _) eqn:E2; zbool; lia. }
  pose proof (inv_locks w recs c (aset (fc_insert_locks (fw_ctl w)) (fo_lock_no (fw_local w)) (Some u)) HV) as HV1.
  change (with_ctl w _) with (insertlock_update_insert_at w u) in HV1. set (w1 := insertlock_update_insert_at w u) in *. destruct HO as [HO1 HO2].
  assert (own_lock w1) as HO'.
  { split; cbn [fw_local w1 insertlock_update_insert_at with_ctl fw_ctl fc_set_locks fc_insert_locks]; [by rewrite length_aset|]. intros j Hj. rewrite aget_aset_ne by congruence. by apply HO2. }
  assert (same_log w w1) as HSw by (unfold same_log; cbn [w1 insertlock_update_insert_at with_ctl fw_ctl fw_local fc_set_locks fc_insert_locks fc_curr_pos fc_prev_pos fc_blocks fc_buf_state fc_write_result fc_initalized_upto]; rewrite length_aset; split_and!; reflexivity).
  unfold advance_insert_buffer. destruct (advance_one (advance_fuel (fw_ctl w1) ptr) w1 recs c k ptr HV1) as (w2 & -> & H1 & H2 & H3 & H4); try done.
  - by apply endptr_page.
  - apply Forall_forall. intros l Hl. apply list_elem_of_lookup_1 in Hl as (j & Hj). destruct l as [at_|]; [|done].
    assert (aget None (fc_insert_locks (fw_ctl w1)) (Z.of_nat j) = Some at_) as Ha by (unfold aget; rewrite decide_True by lia; by rewrite Nat2Z.id, Hj).
    destruct (decide (Z.of_nat j = fo_lock_no (fw_local w1))) as [Ej|Hne]; [|by rewrite (proj2 HO') in Ha].
    cbn [fw_ctl w1 insertlock_update_insert_at with_ctl fc_set_locks fc_insert_locks] in Ha. rewrite Ej in Ha.
    change (fo_lock_no (fw_local w1)) with (fo_lock_no (fw_local w)) in Ha. rewrite aget_aset_eq in Ha by done. injection Ha as <-. done.
  - unfold advance_fuel. change (fc_initalized_upto (fw_ctl w1)) with (fc_initalized_upto (fw_ctl w)). unfold POLAR_FLOG_BLCKSZ. rewrite Hpage, EI'. lia.
  - cbn [obind]. destruct (end_in_window _ _ _ H1) as [Hblk _]; [fold k; rewrite H3; lia|]. fold k in Hblk.
    assert (Z.of_nat (length (fc_blocks (fw_ctl w2))) = n) as En by (destruct H2 as (_ & _ & -> & _); done). rewrite En in Hblk.
    change (fw_ctl w1) with (fc_set_locks (fw_ctl w) (aset (fc_insert_locks (fw_ctl w)) (fo_lock_no (fw_local w)) (Some u))) in *.
    rewrite Hblk, Z.eqb_refl. cbn [negb obind]. eexists. split; [reflexivity|]. split; [rewrite <- En; apply (inv_set_cached w2 recs c k); [done|done|rewrite H3; lia]|].
    split; [|split; [eapply same_log_trans; [exact HSw|exact H2]|change (fc_initalized_upto (fw_ctl (with_local w2 _))) with (fc_initalized_upto (fw_ctl w2)); rewrite H3; lia]].
    split; cbn [fw_ctl fw_local with_local fo_lock_no fo_set_cached]; rewrite H4; destruct H2 as (_ & _ & _ & _ & -> & _); apply HO'.
Qed.

(** ** Copying a record *)

(** The first [m] bytes of a record are copied. *)
Definition part (s : Z) (b : list Z) (m : nat) : frec := mk_frec s (Z.of_nat (length b)) (take m b).

Lemma part_end s b m : (m <= length b)%nat -> fr_end (part s b m) = s + Z.of_nat m.
Proof. intros. unfold fr_end, part. cbn. rewrite length_take. lia. Qed.

Lemma part_byte s b m recs p : (m <= length b)%nat ->
  log_byte (part s b m :: recs) p = if decide (s <= p < s + Z.of_nat m) then aget 0 b (p - s) else log_byte recs p.
Proof.
  intros Hm. cbn [log_byte]. rewrite part_end by done. change (fr_start (part s b m)) with s. destruct (decide _) as [Hin|Hout].
  - rewrite (proj2 (Z.leb_le _ _)), (proj2 (Z.ltb_lt _ _)) by lia. cbn [andb]. unfold aget. rewrite !decide_True by lia. cbn [fr_bytes part]. by rewrite lookup_take_lt by lia.
  - destruct ((s <=? p) && (p <? s + Z.of_nat m)) eqn:E; [zbool; lia|done].
Qed.

Lemma part_rem s b m recs k : (m <= length b)%nat ->
  log_rem (part s b m :: recs) k = if decide (s < page_pos k < s + Z.of_nat m) then Some (s + Z.of_nat (length b) - page_pos k) else log_rem recs k.
Proof.
  intros Hm. cbn [log_rem]. rewrite part_end by done. change (fr_start (part s b m)) with s. change (fr_total (part s b m)) with (Z.of_nat (length b)).
  destruct (decide _) as [Hin|Hout]; [by rewrite (proj2 (Z.ltb_lt _ _)), (proj2 (Z.ltb_lt _ _)) by lia|]. destruct ((s <? page_pos k) && _) eqn:E; [zbool; lia|done].
Qed.

(** What is written is not changed by what comes after it. *)
Lemma file_ok_ext f recs recs' c D :
  pos_ok c -> D <= polar_flog_pos2endptr c -> (forall p, p < c -> log_byte recs' p = log_byte recs p) -> (forall k, page_pos k < c -> log_rem recs' k = log_rem recs k) ->
  file_ok f recs D -> file_ok f recs' D.
Proof.
  intros Hc HD HF HH H k Hk HkD. destruct (H k Hk HkD) as [H1 H2]. assert (page_pos k < c) as Hpk.
  { destruct (decide (c <= page_pos k)) as [Hle|]; [|lia]. apply (endptr_le c k Hc Hk) in Hle. lia. }
  split; [unfold same_header, page_image in *; by rewrite (HH k Hpk)|]. intros off Hoff HoD. rewrite (H2 off Hoff HoD), !aget_image by done.
  destruct (off <? page_hdr k) eqn:E; [done|]. zbool. symmetry. apply HF. apply endptr_byte; [done|done|lia|lia].
Qed.

Lemma rec_ok_le c c' recs : c <= c' -> Forall (rec_ok c) recs -> Forall (rec_ok c') recs.
Proof. intros Hle H. eapply Forall_impl; [exact H|]. intros r [H1 H2]. split; lia. Qed.

(** The bytes of a page after a copy to it. *)
Lemma image_write s b m m' recs k :
  (m <= m' <= length b)%nat -> page_pos k <= s + Z.of_nat m -> s + Z.of_nat m' <= page_pos (k + 1) ->
  mem_write (image_bytes (part s b m :: recs) k) (page_hdr k + (s + Z.of_nat m - page_pos k)) (take (m' - m) (drop m b)) = image_bytes (part s b m' :: recs) k.
Proof.
  intros Hm Hk1 Hk2. rewrite page_pos_next in Hk2. pose proof (page_hdr_range k). assert (length (take (m' - m) (drop m b)) = (m' - m)%nat) as El by (rewrite length_take, length_drop; lia).
  apply bytes_eq; [rewrite length_mem_write; [apply length_image|lia|rewrite El, length_image; lia]|apply length_image|]. intros off Hoff.
  rewrite aget_mem_write by (rewrite ?El, ?length_image; lia). rewrite El, !aget_image by done. destruct (decide (_ <= off < _)) as [Hin|Hout].
  - rewrite (proj2 (Z.ltb_ge _ _)) by lia. rewrite part_byte, decide_True by lia. unfold aget. rewrite !decide_True by lia. rewrite lookup_take_lt, lookup_drop by lia. do 2 f_equal. lia.
  - destruct (off <? page_hdr k) eqn:E; [done|]. zbool. rewrite !part_byte by lia. destruct (decide (s <= _ < s + Z.of_nat m)); [by rewrite decide_True by lia|by rewrite decide_False by lia].
Qed.

(** Copying the bytes from [m] to [m'] to one page, at whose start the rest of
    the record is announced. *)
Lemma chunk_spec w recs s b m m' (cont : bool) :
  let c := s + Z.of_nat m in
  let k := page_of c in
  let idx := k mod Z.of_nat (length (fc_blocks (fw_ctl w))) in
  flog_inv w (part s b m :: recs) c -> (k + 1) * 8192 <= fc_initalized_upto (fw_ctl w) -> (m < m' <= length b)%nat -> s + Z.of_nat m' <= page_pos (k + 1) ->
  s + Z.of_nat m' <= fc_curr_pos (fw_ctl w) -> (if cont then (0 < m)%nat /\ page_pos k = c else m = 0%nat) ->
  let w1 := if cont then with_ctl w (fc_set_page (fw_ctl w) idx (set_cont (mpage (fw_ctl w) idx) (Z.of_nat (length b) - Z.of_nat m))) else w in
  flog_inv (memcpy_page w1 idx (page_hdr k + (c - page_pos k)) (take (m' - m) (drop m b))) (part s b m' :: recs) (s + Z.of_nat m').
Proof.
  intros c k idx HV Hup Hm Hk2 Hcur Hcont w1. pose proof HV as [V1 V2 V3 V4 V5 V6 V7 V8 V9 V10 V11]. pose proof (ca_pos _ _ _ _ V1) as Hn.
  set (n := Z.of_nat (length (fc_blocks (fw_ctl w)))) in *. assert (0 <= idx < n) as Hidx by (apply Z.mod_pos_bound; lia).
  inversion V4 as [|? ? [Hs0 _] V4']; subst. cbn in Hs0. destruct (page_of_spec c ltac:(lia)) as [Hk Hkc]. fold k in Hk, Hkc.
  assert (forall j, log_rem (part s b m' :: recs) j = if cont && (j =? k) then Some (Z.of_nat (length b) - Z.of_nat m) else log_rem (part s b m :: recs) j) as HH.
  { intros j. rewrite !part_rem by lia. destruct (Z.lt_trichotomy j k) as [Hlt|[->|Hlt]].
    - rewrite (proj2 (Z.eqb_neq j k)), andb_false_r by lia. pose proof (page_pos_lt j k Hlt). destruct (decide (s < page_pos j < s + Z.of_nat m)); [by rewrite decide_True by lia|by rewrite decide_False by (unfold c in *; lia)].
    - rewrite Z.eqb_refl, andb_true_r. destruct cont; [rewrite decide_True by (unfold c in *; lia); f_equal; unfold c in *; lia|]. subst m. unfold c in *. by rewrite !decide_False by lia.
    - rewrite (proj2 (Z.eqb_neq j k)), andb_false_r by lia. assert (page_pos (k + 1) <= page_pos j) as Hj.
      { destruct (decide (k + 1 = j)) as [<-|]; [lia|]. pose proof (page_pos_lt (k + 1) j ltac:(lia)). lia. }
      unfold c in *. by rewrite !decide_False by lia. }
  assert (forall p, p < c \/ s + Z.of_nat m' <= p -> log_byte (part s b m' :: recs) p = log_byte (part s b m :: recs) p) as HF.
  { intros p Hp. rewrite !part_byte by lia. unfold c in Hp. destruct (decide (s <= p < s + Z.of_nat m)); [by rewrite decide_True by lia|by rewrite decide_False by lia]. }
  assert (pos_ok c /\ pos_ok (s + Z.of_nat m')) as [Hp1 Hp2] by (unfold pos_ok, c; lia).
  destruct (end_in_window _ _ _ HV) as [_ Himg]; [exact Hup|]. fold k n idx in Himg.
  pose (pg := page_image (part s b m' :: recs) k). assert (pg = page_image (part s b m' :: recs) k) as Epg by reflexivity. assert (fw_ctl (memcpy_page w1 idx (page_hdr k + (c - page_pos k)) (take (m' - m) (drop m b))) = fc_set_page (fw_ctl w) idx pg) as Ectl.
  { assert (exists pg0, fw_ctl w1 = (if cont then fc_set_page (fw_ctl w) idx pg0 else fw_ctl w) /\ mpage (fw_ctl w1) idx = pg0 /\
      set_bytes pg0 (image_bytes (part s b m' :: recs) k) = pg /\ xlp_bytes pg0 = image_bytes (part s b m :: recs) k) as (pg0 & E1 & E2 & E3 & E4).
    { unfold w1. destruct cont; rewrite Himg; eexists; (split; [reflexivity|]).
      - split; [unfold mpage; cbn; apply aget_aset_eq; rewrite (ca_len _ _ _ _ V1); exact Hidx|]. split; [|done]. unfold pg, page_image. rewrite HH, Z.eqb_refl. cbn [andb].
        assert (log_rem (part s b m :: recs) k = None) as -> by (apply (log_rem_after _ c); [done|lia]). unfold set_bytes, set_cont. cbn. by rewrite Z.lor_0_r.
      - split; [reflexivity|]. split; [|done]. unfold pg, page_image. by rewrite HH. }
    unfold memcpy_page. rewrite E2, E4. unfold c. rewrite image_write by (unfold c in *; lia). rewrite E3, E1. destruct cont; [|done].
    unfold fc_set_page. cbn. unfold aset. rewrite !decide_True by lia. by rewrite list_insert_insert_eq. }
  assert (polar_flog_pos2endptr c <= polar_flog_pos2endptr (s + Z.of_nat m')) as Hmono by (apply endptr_mono; [done|done|unfold c; lia]).
  assert (forall x y z, fw_file (memcpy_page w1 x y z) = fw_file w /\ fw_local (memcpy_page w1 x y z) = fw_local w) as Hoth
    by (intros; unfold w1, memcpy_page; destruct cont; split; reflexivity).
  set (w2 := memcpy_page _ _ _ _) in *. assert (fw_file w2 = fw_file w /\ fw_local w2 = fw_local w) as [Ef El] by apply Hoth. clearbody w2 pg. clear Hoth w1.
  split; rewrite ?Ectl, ?Ef; unfold local_result; rewrite ?El; cbn [fc_set_page fc_pages fc_blocks fc_initalized_upto fc_curr_pos fc_write_result fc_write_request]; fold n;
    [|split; [lia|apply V2]| | |lia|exact V6|exact V7| |exact V9|exact V10|exact V11].
  - destruct V1 as [C1 C2 C3 C4 C5]. split; try done; [by rewrite length_aset|]. intros j Hj Hw. destruct (C4 j Hj Hw) as [B1 B2]. split; [done|]. fold n in Hw, B1, B2 |- *.
    rewrite aget_aset by (rewrite C1; exact Hidx). destruct (decide (idx = j mod n)) as [E|Hne].
    + assert (j = k) as ->; [|exact Epg]. destruct (Z.lt_trichotomy j k) as [Hlt|[?|Hlt]]; [|done|]; exfalso.
      * apply (mod_near k j n); [lia| |done]. destruct (inv_page _ _ _ HV) as (I & EI & HI & EI'). rewrite EI' in Hw. rewrite EI in Hup. lia.
      * apply (mod_near j k n); [lia| |done]. destruct (inv_page _ _ _ HV) as (I & EI & HI & EI'). rewrite EI' in Hw, V6.
        pose proof (endptr_page c Hp1) as He. fold k in He. lia.
    + rewrite B2. symmetry. apply image_ext; [|rewrite HH, (proj2 (Z.eqb_neq j k)), andb_false_r; [done|by intros ->]].
      intros p Hp. apply HF. destruct (Z.lt_trichotomy j k) as [Hlt|[->|Hlt]]; [|done|].
      * left. destruct (decide (j + 1 = k)) as [E|]; [rewrite E in Hp; lia|]. pose proof (page_pos_lt (j + 1) k ltac:(lia)). lia.
      * right. destruct (decide (k + 1 = j)) as [E|]; [rewrite E in Hk2; lia|]. pose proof (page_pos_lt (k + 1) j ltac:(lia)). lia.
  - assert (polar_flog_pos2endptr (s + Z.of_nat m') <= (k + 1) * 8192) by (apply endptr_le; [done|lia|done]). lia.
  - constructor; [|by apply (rec_ok_le c); [unfold c; lia|]]. split; [done|]. rewrite part_end by lia. lia.
  - apply (file_ok_ext _ (part s b m :: recs) _ c); [done|lia| | |done].
    + intros p Hp. apply HF. by left.
    + intros j Hj. rewrite HH. destruct cont; [|done]. rewrite (proj2 (Z.eqb_neq j k)); [done|]. intros ->. lia.
Qed.

Lemma maxalign z : MAXALIGN z = 8 * ((z + 7) / 8).
Proof.
  replace (8 * ((z + 7) / 8)) with (Z.shiftl (Z.shiftr (z + 7) 3) 3) by (rewrite Z.shiftl_mul_pow2, Z.shiftr_div_pow2 by lia; change (2 ^ 3) with 8; lia).
  unfold MAXALIGN. apply Z.bits_inj'. intros i Hi. rewrite Z.land_spec, Z.lnot_spec by done. change 7 with (Z.ones 3) at 2.
  rewrite Z.shiftl_spec by done. destruct (decide (i < 3)) as [Hlt|Hge].
  - rewrite Z.ones_spec_low by lia. rewrite (Z.testbit_neg_r _ (i - 3)) by lia. by rewrite andb_false_r.
  - rewrite Z.ones_spec_high by lia. rewrite andb_true_r. rewrite Z.shiftr_spec by lia. f_equal. lia.
Qed.

(** The end of a record, aligned, is where its space ends. *)
Lemma record_end s len k :
  0 <= s -> s mod 8 = 0 -> 0 < len -> pos_ok (s + MAXALIGN len) -> page_of (s + len - 1) = k ->
  MAXALIGN (k * 8192 + page_hdr k + (s + len - page_pos k)) = polar_flog_pos2endptr (s + MAXALIGN len) /\ s + MAXALIGN len <= page_pos (k + 1).
Proof.
  intros Hs Hs8 Hlen Hok Hk. rewrite !maxalign in *. destruct (page_of_spec (s + len - 1) ltac:(lia)) as [Hk0 Hkp]. rewrite Hk in *.
  assert (page_pos k mod 8 = 0 /\ page_pos (k + 1) mod 8 = 0) as [P1 P2] by (unfold page_pos; split; Z.div_mod_to_equations; lia).
  pose proof (page_pos_next k) as Hn. set (a := 8 * ((len + 7) / 8)) in *. assert (len <= a < len + 8 /\ a mod 8 = 0) as [Ha Ha8] by (unfold a; Z.div_mod_to_equations; lia).
  assert (s + a <= page_pos (k + 1)) as Hle by (Z.div_mod_to_equations; lia). split; [|done].
  assert (8 * ((k * 8192 + page_hdr k + (s + len - page_pos k) + 7) / 8) = k * 8192 + page_hdr k + (s + a - page_pos k)) as ->
    by (destruct (page_hdr_cases k) as [[-> _]|[-> _]]; Z.div_mod_to_equations; lia).
  rewrite pos2endptr_spec by done. destruct (decide (s + a = page_pos (k + 1))) as [E|Hne].
  - assert (page_of (s + a) = k + 1) as ->; [|rewrite decide_True by done; lia]. apply page_of_unique; [lia|]. pose proof (page_pos_lt (k + 1) (k + 1 + 1)). lia.
  - assert (page_of (s + a) = k) as Ek by (apply page_of_unique; lia). rewrite Ek, decide_False by lia. rewrite pos2ptr_spec by done. rewrite Ek. lia.
Qed.

Lemma own_lock_same w w' : own_lock w -> fc_insert_locks (fw_ctl w') = fc_insert_locks (fw_ctl w) -> fw_local w' = fw_local w -> own_lock w'.
Proof. intros H E1 E2. unfold own_lock. by rewrite E1, E2. Qed.

(** The page of the record that is worked on, with its header set when it
    starts with the rest of the record. *)
Definition announced (w : flog_world) (idx : Z) (cont : bool) (rest : Z) : flog_world :=
  if cont then with_ctl w (fc_set_page (fw_ctl w) idx (set_cont (mpage (fw_ctl w) idx) rest)) else w.

Lemma copied_from w idx cont rest x y z : let w' := memcpy_page (announced w idx cont rest) x y z in
  fw_local w' = fw_local w /\ fc_insert_locks (fw_ctl w') = fc_insert_locks (fw_ctl w) /\ same_log w w' /\ fc_initalized_upto (fw_ctl w') = fc_initalized_upto (fw_ctl w).
Proof. unfold announced, memcpy_page, same_log. destruct cont; repeat split; apply Z.le_refl. Qed.

Lemma copy_loop_spec recs s b fuel : forall w m (cont : bool),
  let c := s + Z.of_nat m in
  let k := page_of c in
  let idx := k mod Z.of_nat (length (fc_blocks (fw_ctl w))) in
  flog_inv w (part s b m :: recs) c -> own_lock w -> (k + 1) * 8192 <= fc_initalized_upto (fw_ctl w) -> (m < length b)%nat ->
  s mod 8 = 0 -> s + MAXALIGN (Z.of_nat (length b)) <= fc_curr_pos (fw_ctl w) -> (if cont then (0 < m)%nat /\ page_pos k = c else m = 0%nat) -> (length b - m <= fuel)%nat ->
  exists w' e, copy_loop sysid fuel (announced w idx cont (Z.of_nat (length b) - Z.of_nat m)) idx (polar_flog_pos2ptr c) (drop m b) = Done (w', e) /\
    flog_inv w' (part s b (length b) :: recs) (s + Z.of_nat (length b)) /\ own_lock w' /\ same_log w w' /\
    MAXALIGN e = polar_flog_pos2endptr (s + MAXALIGN (Z.of_nat (length b))) /\ polar_flog_pos2endptr (s + MAXALIGN (Z.of_nat (length b))) <= fc_initalized_upto (fw_ctl w').
Proof.
  induction fuel as [|fuel IH]; intros w m cont c k idx HV HO Hup Hm Hs8 Hcur Hcont Hf; [lia|].
  pose proof HV as [V1 V2 V3 V4 V5 V6 V7 V8 V9 V10 V11]. inversion V4 as [|? ? [Hs0 _] V4']; subst. cbn in Hs0.
  assert (Z.of_nat (length b) <= MAXALIGN (Z.of_nat (length b))) as Hal by (rewrite maxalign; Z.div_mod_to_equations; lia).
  assert (pos_ok c) as Hpc by (unfold pos_ok; lia). destruct (pos2ptr_page c Hpc) as (Ep1 & Ep2 & Ep3). fold k in Ep1, Ep2, Ep3.
  destruct (page_of_spec c ltac:(lia)) as [Hk Hkc]. fold k in Hk, Hkc. pose proof (page_pos_next k) as Hnx. pose proof (page_hdr_range k) as Hh.
  assert (INSERT_FREESPACE (polar_flog_pos2ptr c) = page_pos (k + 1) - c) as Hfree.
  { unfold INSERT_FREESPACE, POLAR_FLOG_BLCKSZ. rewrite Ep2. rewrite (proj2 (Z.eqb_neq _ _)) by lia. lia. }
  cbn [copy_loop]. rewrite Hfree, length_drop. unfold POLAR_FLOG_BLCKSZ at 1 2. rewrite Ep2.
  set (free := Z.to_nat (page_pos (k + 1) - c)). assert (Z.of_nat free = page_pos (k + 1) - c /\ (0 < free)%nat) as [Efree Hfr0] by (unfold free; lia).
  destruct (Z.of_nat (length b - m) >? page_pos (k + 1) - c) eqn:Egt; zbool.
  - (* the record goes on on the next page *)
    assert (s + Z.of_nat (m + free) = page_pos (k + 1)) as Em1 by (unfold c in *; lia).
    pose proof (chunk_spec w recs s b m (m + free) cont HV Hup ltac:(lia) ltac:(fold c k; lia) ltac:(lia) Hcont) as HV1. cbv zeta in HV1. fold c k in HV1. fold idx in HV1.
    replace (m + free - m)%nat with free in HV1 by lia. rewrite Em1 in HV1. fold (announced w idx cont (Z.of_nat (length b) - Z.of_nat m)) in HV1.
    destruct (copied_from w idx cont (Z.of_nat (length b) - Z.of_nat m) idx (page_hdr k + (c - page_pos k)) (take free (drop m b))) as (L1 & L2 & L3 & L4).
    set (w1 := memcpy_page _ _ _ _) in *. clearbody w1.
    assert (page_of (page_pos (k + 1)) = k + 1) as Ek1 by (apply page_of_unique; [pose proof (page_pos_nonneg (k + 1)); lia|]; pose proof (page_pos_lt (k + 1) (k + 1 + 1)); lia).
    assert (polar_flog_pos2ptr c + (page_pos (k + 1) - c) = (k + 1) * 8192) as -> by (rewrite pos2ptr_spec by done; fold k; lia).
    destruct (get_buf_spec w1 (part s b (m + free) :: recs) (page_pos (k + 1)) ((k + 1) * 8192) HV1) as (w2 & -> & HV2 & HO2 & HS2 & HU2);
      [by apply (own_lock_same w)|by rewrite Ek1, Z.div_mul by lia|right; by rewrite Ek1|]. rewrite Ek1 in *. cbn [obind].
    pose proof (same_log_trans _ _ _ L3 HS2) as HS. assert (length (fc_blocks (fw_ctl w2)) = length (fc_blocks (fw_ctl w)) /\ length (fc_blocks (fw_ctl w1)) = length (fc_blocks (fw_ctl w)))
      as [En2 En1] by (split; [apply HS|apply L3]). rewrite En1.
    assert (pos_ok (page_pos (k + 1))) as Hp1 by (unfold pos_ok; lia).
    assert ((if FLOG_SEGMENT_OFFSET ((k + 1) * 8192) =? 0 then (k + 1) * 8192 + FLOG_LONG_PHD_SIZE else (k + 1) * 8192 + FLOG_SHORT_PHD_SIZE) = polar_flog_pos2ptr (page_pos (k + 1))) as ->.
    { rewrite pos2ptr_spec, Ek1, segment_offset by done. unfold page_hdr.
      assert (((k + 1) * 8192 mod 268435456 =? 0) = ((k + 1) mod 32768 =? 0)) as -> by (apply Bool.eq_iff_eq_true; rewrite !Z.eqb_eq; Z.div_mod_to_equations; lia).
      destruct (_ =? 0); lia. }
    rewrite drop_drop. specialize (IH w2 (m + free)%nat true). cbv zeta in IH. rewrite Em1, Ek1, En2 in IH. unfold announced in IH at 1.
    replace (Z.of_nat (length (drop (m + free) b))) with (Z.of_nat (length b) - Z.of_nat (m + free)) by (rewrite length_drop; lia).
    destruct IH as (w' & e & Hrun & G1 & G2 & G3 & G4); try done; [lia|destruct HS as (-> & _); lia|split; lia|lia|].
    exists w', e. split; [exact Hrun|]. split; [done|]. split; [done|]. split; [by eapply same_log_trans|done].
  - (* the rest fits *)
    pose proof (chunk_spec w recs s b m (length b) cont HV Hup ltac:(lia) ltac:(fold c k; unfold c in *; lia) ltac:(lia) Hcont) as HV1. cbv zeta in HV1. fold c k in HV1. fold idx in HV1.
    rewrite (take_ge (drop m b)) in HV1 by (rewrite length_drop; lia). fold (announced w idx cont (Z.of_nat (length b) - Z.of_nat m)) in HV1.
    destruct (copied_from w idx cont (Z.of_nat (length b) - Z.of_nat m) idx (page_hdr k + (c - page_pos k)) (drop m b)) as (L1 & L2 & L3 & L4).
    set (w1 := memcpy_page _ _ _ _) in *. clearbody w1. eexists _, _. split; [reflexivity|]. split; [done|]. split; [by apply (own_lock_same w)|]. split; [done|].
    assert (page_of (s + Z.of_nat (length b) - 1) = k) as Ek by (apply page_of_unique; unfold c in *; lia).
    destruct (record_end s (Z.of_nat (length b)) k) as [R1 R2]; [done|done|lia|unfold pos_ok; lia|done|].
    split; [rewrite <- R1; f_equal; rewrite pos2ptr_spec by done; fold k; unfold c; lia|]. rewrite L4.
    assert (polar_flog_pos2endptr (s + MAXALIGN (Z.of_nat (length b))) <= (k + 1) * 8192) by (apply endptr_le; [unfold pos_ok; lia|lia|done]). lia.
Qed.
End image.
