(* ===== verification/FlogBufTheorems.v ===== *)
(** * The flashback log: inserting and flushing by several processes

    The invariant of FlogBufLog for the whole operations
    ([polar_flog_rec_insert], [polar_flog_flush], [polar_flog_flush_bg]), which
    processes run in turn, and what is read back from the file. *)

From S2P Require Import Prelude RingBuf RingBytes FlogPos FlogBuf FlogBufLog.

Section flog_ops.
Context (sysid : Z).

(** ** Operations of one process *)

(** No insertion is going on. *)
Definition locks_free (w : flog_world) : Prop :=
  0 <= fo_lock_no (fw_local w) < Z.of_nat (length (fc_insert_locks (fw_ctl w))) /\ forall j, aget None (fc_insert_locks (fw_ctl w)) j = None.

(** Positions may be skipped up to the end of the initialised pages. *)
Lemma inv_pad w recs c c' :
  flog_inv sysid w recs c -> c <= c' <= fc_curr_pos (fw_ctl w) -> polar_flog_pos2endptr c' <= fc_initalized_upto (fw_ctl w) -> flog_inv sysid w recs c'.
Proof.
  intros [V1 V2 V3 V4 V5 V6 V7 V8 V9 V10 V11] Hc He. assert (polar_flog_pos2endptr c <= polar_flog_pos2endptr c') by (apply endptr_mono; unfold pos_ok; lia).
  split; try done; [lia|apply (rec_ok_le c); [lia|done]|lia].
Qed.

(** Reserving space, and starting with a record of which nothing is copied. *)
Lemma inv_reserve w recs c b curr prev :
  flog_inv sysid w recs c -> fc_curr_pos (fw_ctl w) <= curr < 2 ^ 60 -> flog_inv sysid (with_ctl w (fc_set_pos (fw_ctl w) curr prev)) (part c b 0 :: recs) c.
Proof.
  intros [V1 V2 V3 V4 V5 V6 V7 V8 V9 V10 V11] Hc.
  assert (forall p, log_byte (part c b 0 :: recs) p = log_byte recs p) as HF by (intros p; rewrite part_byte, decide_False by lia; done).
  assert (forall k, log_rem (part c b 0 :: recs) k = log_rem recs k) as HH by (intros k; rewrite part_rem, decide_False by lia; done).
  assert (polar_flog_pos2endptr (fc_curr_pos (fw_ctl w)) <= polar_flog_pos2endptr curr) by (apply endptr_mono; unfold pos_ok; lia).
  split; cbn [fw_ctl with_ctl fc_set_pos fc_pages fc_blocks fc_initalized_upto fc_curr_pos fc_write_result fc_write_request];
    [|lia|exact V3| |exact V5|exact V6|lia| |exact V9|exact V10|exact V11].
  - destruct V1 as [C1 C2 C3 C4 C5]. split; try assumption. intros k Hk Hw. rewrite (image_ext sysid recs); [by apply C4|by intros|apply HH].
  - constructor; [|done]. split; [apply V2|]. rewrite part_end by lia. lia.
  - apply (file_ok_ext sysid _ recs _ c); [unfold pos_ok; lia|lia|by intros|by intros|exact V8].
Qed.

Lemma part_full s b : part s b (length b) = mk_frec s (Z.of_nat (length b)) b.
Proof. unfold part. by rewrite firstn_all. Qed.

Lemma insert_flog_spec w recs (rec : Z -> list Z) len :
  let s := fc_curr_pos (fw_ctl w) in
  let a := MAXALIGN (Z.of_nat len) in
  flog_inv sysid w recs s -> locks_free w -> fc_buf_state (fw_ctl w) = FLOG_BUF_READY -> (forall p, length (rec p) = len) -> (0 < len)%nat -> s mod 8 = 0 -> s + a < 2 ^ 60 ->
  exists w', polar_flog_rec_insert sysid w rec = Done (w', polar_flog_pos2endptr (s + a), polar_flog_pos2ptr s) /\
    flog_inv sysid w' (mk_frec s (Z.of_nat len) (rec (reserve_flog_insert_location (fw_ctl w) (Z.of_nat len)).2) :: recs) (s + a) /\
    fc_curr_pos (fw_ctl w') = s + a /\ fc_prev_pos (fw_ctl w') = s /\ locks_free w' /\
    fc_buf_state (fw_ctl w') = FLOG_BUF_READY /\ length (fc_blocks (fw_ctl w')) = length (fc_blocks (fw_ctl w)) /\
    length (fc_insert_locks (fw_ctl w')) = length (fc_insert_locks (fw_ctl w)) /\
    fo_lock_no (fw_local w') = fo_lock_no (fw_local w) /\ fc_write_result (fw_ctl w) <= fc_write_result (fw_ctl w') /\
    fc_initalized_upto (fw_ctl w) <= fc_initalized_upto (fw_ctl w').
Proof.
  intros s a HV [HL1 HL2] HR Hlen Hlen0 Hs8 Hbig. unfold polar_flog_rec_insert. rewrite HR. unfold flog_insert_lock_acquire. rewrite HL2. cbn [obind].
  set (w1 := with_ctl w (fc_set_locks (fw_ctl w) _)). assert (flog_inv sysid w1 recs s) as HV1 by by apply inv_locks. unfold reserve_flog_insert_location.
  rewrite Hlen. change (fc_curr_pos (fw_ctl w1)) with s. fold a. assert (Z.of_nat len <= a) as Ha by (unfold a; rewrite maxalign; Z.div_mod_to_equations; lia).
  pose proof (v_pos _ _ _ _ HV) as Hp. assert (u64 (s + a) = s + a) as -> by (apply u64_small; unfold is_u64; lia). set (prev := if _ && _ then 0 else _). set (b := rec prev).
  assert (length b = len) as Hb by apply Hlen. set (w2 := with_ctl w1 (fc_set_pos (fw_ctl w1) (s + a) s)).
  pose proof (inv_reserve w1 recs s b (s + a) s HV1 ltac:(change (fc_curr_pos (fw_ctl w1)) with s; lia)) as HV2. fold w2 in HV2.
  assert (own_lock w2) as HO2.
  { split; cbn [w2 w1 fw_ctl fw_local with_ctl fc_set_locks fc_set_pos fc_insert_locks]; [by rewrite length_aset|]. intros j Hj. rewrite aget_aset_ne by congruence. apply HL2. }
  unfold polar_copy_flog_rec2buf. assert (pos_ok s) as Hps by (unfold pos_ok; lia).
  destruct (get_buf_spec sysid w2 (part s b 0 :: recs) s (polar_flog_pos2ptr s) HV2 HO2) as (w3 & -> & HV3 & HO3 & HS3 & HU3); [by apply pos2ptr_page|by left|]. cbn [obind].
  assert (length (fc_blocks (fw_ctl w3)) = length (fc_blocks (fw_ctl w2))) as En3 by apply HS3.
  pose proof (copy_loop_spec sysid recs s b (length b) w3 0 false) as HC. cbv zeta in HC. rewrite Z.add_0_r, Hb, En3 in HC. fold a in HC. unfold announced in HC. rewrite drop_0 in HC. rewrite Hb.
  destruct HC as (w4 & e & -> & HV4 & HO4 & HS4 & He & Hup); try done; [destruct HS3 as (-> & _); done|lia|]. cbn [obind]. rewrite He, Z.eqb_refl. cbn [negb obind].
  pose proof (same_log_trans _ _ _ HS3 HS4) as HS. assert (fc_curr_pos (fw_ctl w4) = s + a) as Ecur by (destruct HS as (-> & _); done).
  rewrite <- Hb, part_full, Hb in HV4. apply (inv_pad _ _ _ (s + a)) in HV4; [|lia|done].
  cbv zeta. set (w5 := flog_insert_lock_release w4). assert (flog_inv sysid w5 (mk_frec s (Z.of_nat len) b :: recs) (s + a)) as HV5 by by apply inv_locks.
  assert (locks_free w5) as HF5.
  { destruct HO4 as [O1 O2]. split; cbn [w5 flog_insert_lock_release fw_ctl fw_local with_ctl fc_set_locks fc_insert_locks]; [by rewrite length_aset|].
    intros j. rewrite aget_aset by done. destruct (decide _) as [|Hne]; [done|]. apply O2. congruence. }
  assert (length (fc_insert_locks (fw_ctl w5)) = length (fc_insert_locks (fw_ctl w))) as El5.
  { cbn [w5 flog_insert_lock_release fw_ctl with_ctl fc_set_locks fc_insert_locks]. rewrite length_aset. destruct HS as (_ & _ & _ & _ & _ & _ & _ & ->).
    cbn [w2 w1 fw_ctl with_ctl fc_set_locks fc_set_pos fc_insert_locks]. apply length_aset. }
  destruct HS as (_ & S2 & S3 & S4 & S5 & S6 & S7 & _). set (w6 := if negb _ then take_result _ else w5).
  assert (flog_inv sysid w6 (mk_frec s (Z.of_nat len) b :: recs) (s + a) /\ fc_insert_locks (fw_ctl w6) = fc_insert_locks (fw_ctl w5) /\ fo_lock_no (fw_local w6) = fo_lock_no (fw_local w5) /\
    same_log w5 w6) as (HV6 & EL6 & EN6 & HS6).
  { unfold w6. destruct (negb _); [|split; [done|]; split; [done|]; split; [done|apply same_log_refl]]. split; [|by repeat split].
    apply inv_take_result, inv_request; [done|]. change (fc_curr_pos (fw_ctl w5)) with (fc_curr_pos (fw_ctl w4)). rewrite Ecur. lia. }
  clearbody w6. exists w6. split; [done|]. split; [exact HV6|]. destruct HS6 as (T1 & T2 & T3 & T4 & T5 & T6 & T7 & T8).
  split; [by rewrite T1|]. split; [rewrite T2; exact S2|]. split; [unfold locks_free; rewrite EL6, EN6; exact HF5|]. split; [rewrite T4; change (fc_buf_state (fw_ctl w4) = FLOG_BUF_READY); by rewrite S4|].
  split; [by rewrite T3|]. split; [by rewrite T8|]. split; [by rewrite T5|]. split; [etransitivity; [exact S6|exact T6]|etransitivity; [exact S7|exact T7]].
Qed.

(** ** Flushing *)

Lemma free_past w upto : locks_free w -> locks_past w upto.
Proof.
  intros [_ HL]. unfold locks_past. apply Forall_lookup_2. intros i l Hl. specialize (HL (Z.of_nat i)). unfold aget in HL.
  rewrite decide_True, Nat2Z.id, Hl in HL by lia. cbn in HL. by subst l.
Qed.

Lemma inv_done w recs : flog_inv sysid w recs (fc_curr_pos (fw_ctl w)) -> fc_write_result (fw_ctl w) <= polar_flog_pos2endptr (fc_curr_pos (fw_ctl w)).
Proof. intros HV. apply (v_res _ _ _ _ HV). Qed.

(** What flushing keeps. *)
Definition flushed_from (w w' : flog_world) (recs : list frec) : Prop :=
  flog_inv sysid w' recs (fc_curr_pos (fw_ctl w)) /\ same_log w w' /\ fc_insert_locks (fw_ctl w') = fc_insert_locks (fw_ctl w).

(** A request that is behind the result writes nothing. *)
Lemma write_behind w recs c request flexible :
  flog_inv sysid w recs c -> request < fc_write_result (fw_ctl w) ->
  exists w', flog_write w request flexible = Done w' /\ flog_inv sysid w' recs c /\ same_log w w' /\ fc_insert_locks (fw_ctl w') = fc_insert_locks (fw_ctl w) /\
    fc_write_result (fw_ctl w') = fc_write_result (fw_ctl w).
Proof.
  intros HV Hr. unfold flog_write. set (w0 := take_result w). change (fw_ctl w0) with (fw_ctl w). cbn [flog_write_loop].
  rewrite (proj2 (Z.ltb_ge _ _)) by lia. cbn [negb obind]. eexists. split; [reflexivity|]. pose proof HV as [V1 V2 V3 V4 V5 V6 V7 V8 V9 V10 V11].
  split; [|by repeat split]. split; try done. cbn. destruct (Z.ltb_spec (fc_write_request (fw_ctl w)) request); lia.
Qed.

Lemma flog_flush_spec w recs end_ptr :
  flog_inv sysid w recs (fc_curr_pos (fw_ctl w)) -> locks_free w -> end_ptr <= polar_flog_pos2endptr (fc_curr_pos (fw_ctl w)) ->
  exists w', polar_flog_flush w end_ptr = Done w' /\ flushed_from w w' recs /\ fc_write_result (fw_ctl w') = Z.max (fc_write_result (fw_ctl w)) end_ptr.
Proof.
  intros HV HL He. unfold polar_flog_flush. pose proof (v_local _ _ _ _ HV) as Hloc. rewrite Z.gtb_ltb. destruct (Z.ltb_spec (local_result w) end_ptr) as [Hlt|Hge].
  2: { exists w. split; [done|]. split; [split; [done|]; split; [apply same_log_refl|done]|lia]. }
  destruct (wait_done w end_ptr) as (r & ->); [by apply free_past|]. cbn [obind].
  destruct (decide (end_ptr < fc_write_result (fw_ctl w))) as [Hlt'|Hge].
  - destruct (write_behind w recs _ end_ptr false HV Hlt') as (w' & E & H1 & H2 & H3 & H4). exists w'. split; [done|]. split; [by split|lia].
  - destruct (flog_write_spec sysid w recs _ end_ptr false HV ltac:(lia) He) as (w' & E & H1 & H2 & _ & H3 & _ & H4 & _). exists w'. split; [done|]. split; [by split|].
    rewrite H4 by done. lia.
Qed.

Lemma flush_bg_spec w recs max_size :
  flog_inv sysid w recs (fc_curr_pos (fw_ctl w)) -> locks_free w -> 0 <= max_size < 2 ^ 21 ->
  exists w', polar_flog_flush_bg sysid w max_size = Done (w', fc_write_result (fw_ctl w')) /\ flushed_from w w' recs.
Proof.
  intros HV HL Hm. unfold polar_flog_flush_bg. set (w1 := take_result w). assert (flog_inv sysid w1 recs (fc_curr_pos (fw_ctl w))) as HV1 by by apply inv_take_result.
  change (fw_ctl w1) with (fw_ctl w). change (local_result w1) with (fc_write_result (fw_ctl w)). pose proof HV as [V1 V2 V3 V4 V5 V6 V7 V8 V9 V10 V11].
  assert (polar_flog_pos2endptr (fc_curr_pos (fw_ctl w)) < 2 ^ 61) as Hb by (apply endptr_bound; lia). rewrite u64_small by (unfold is_u64; lia).
  set (r0 := if _ >=? _ then _ else _). assert (fc_write_result (fw_ctl w) <= r0 <= fc_write_request (fw_ctl w)) as Hr0 by (unfold r0; destruct (_ >=? _) eqn:E; zbool; lia).
  clearbody r0. set (r := r0 - r0 mod POLAR_FLOG_BLCKSZ). assert (r <= r0) as Hr by (unfold r, POLAR_FLOG_BLCKSZ; Z.div_mod_to_equations; lia). clearbody r.
  destruct (Z.leb_spec r (fc_write_result (fw_ctl w))) as [Hle|Hgt].
  - destruct (_ && _); [exists (with_local w1 (fo_close_file (fw_local w1)))|exists w1]; (split; [reflexivity|]); (split; [|by repeat split]); [|done]. by destruct HV1; split.
  - destruct (wait_done w1 r) as (x & Ew); [by apply (free_past w)|]. change (fw_ctl w1) with (fw_ctl w) in Ew. rewrite Ew. cbn [obind].
    change (local_result (take_result w1)) with (fc_write_result (fw_ctl w)). rewrite Z.gtb_ltb, (proj2 (Z.ltb_lt _ _)) by lia.
    destruct (flog_write_spec sysid (take_result w1) recs (fc_curr_pos (fw_ctl w)) r true) as (w2 & -> & H1 & H2 & H3 & H4 & H5 & _);
      [by apply inv_take_result|change (fc_write_result (fw_ctl w) <= r); lia|lia|]. cbn [obind]. unfold advance_insert_buffer.
    destruct (advance_opportunistic sysid (advance_fuel (fw_ctl w2) 0) w2 recs _ H1 H5) as (w3 & -> & G1 & G2 & G3 & G4); [unfold advance_fuel, POLAR_FLOG_BLCKSZ; lia|].
    cbn [obind]. exists w3. split; [|split; [done|]; split; [by eapply same_log_trans|by rewrite G3, H4]]. by rewrite G4.
Qed.

(** ** Several processes

    The control block and the files are shared, and each process has its own
    static variables.  An operation is one step of the system. *)

Record flog_sys := mk_fsys {
  sy_ctl : flog_buf_ctl_data_t;
  sy_file : gmap Z flog_page_header_data;
  sy_synced : gset Z;
  sy_procs : list flog_local
}.
Definition sys_world (s : flog_sys) (l : flog_local) : flog_world := mk_fworld (sy_ctl s) (sy_file s) (sy_synced s) l.
Definition put_world (s : flog_sys) (p : nat) (w : flog_world) : flog_sys := mk_fsys (fw_ctl w) (fw_file w) (fw_synced w) (<[p := fw_local w]> (sy_procs s)).

Inductive flog_buf_op :=
| OpInsert (rec : Z -> list Z)
| OpFlush (end_ptr : Z)
| OpFlushBg (max_size : Z).

(** Process [p] runs the operation.  The value is the end of the record that
    was inserted, or the result of flushing in the background. *)
Definition flog_step (s : flog_sys) (p : nat) (op : flog_buf_op) : outcome (flog_sys * Z) :=
  match sy_procs s !! p with
  | None => Fault PANIC
  | Some l =>
    match op with
    | OpInsert rec => let! (w, end_ptr, _) := polar_flog_rec_insert sysid (sys_world s l) rec in Done (put_world s p w, end_ptr)
    | OpFlush end_ptr => let! w := polar_flog_flush (sys_world s l) end_ptr in Done (put_world s p w, 0)
    | OpFlushBg max_size => let! (w, result) := polar_flog_flush_bg sysid (sys_world s l) max_size in Done (put_world s p w, result)
    end
  end.

(** ** The log as a sequence of records *)

(** The records, newest first, the position after them, and how far the log
    is in the file. *)
Record flog_abs := mk_fabs {
  fa_recs : list frec;
  fa_pos : Z;
  fa_flushed : Z
}.

(** The link of the next record to the one before. *)
Definition flog_link (a : flog_abs) : Z :=
  match fa_recs a with
  | [] => 0
  | r :: _ =>
    if (polar_flog_pos2ptr (fr_start r) =? FLOG_LONG_PHD_SIZE) && (polar_flog_pos2ptr (fa_pos a) mod POLAR_FLOG_SEG_SIZE =? FLOG_LONG_PHD_SIZE) then 0
    else polar_flog_pos2ptr (fr_start r)
  end.

Inductive flog_spec_step (a : flog_abs) : flog_buf_op -> Z -> flog_abs -> Prop :=
| spec_insert rec f :
    fa_flushed a <= f <= polar_flog_pos2endptr (fa_pos a + MAXALIGN (Z.of_nat (length (rec 0)))) ->
    flog_spec_step a (OpInsert rec) (polar_flog_pos2endptr (fa_pos a + MAXALIGN (Z.of_nat (length (rec 0)))))
      (mk_fabs (mk_frec (fa_pos a) (Z.of_nat (length (rec 0))) (rec (flog_link a)) :: fa_recs a) (fa_pos a + MAXALIGN (Z.of_nat (length (rec 0)))) f)
| spec_flush end_ptr :
    flog_spec_step a (OpFlush end_ptr) 0 (mk_fabs (fa_recs a) (fa_pos a) (Z.max (fa_flushed a) end_ptr))
| spec_flush_bg max_size f :
    fa_flushed a <= f <= polar_flog_pos2endptr (fa_pos a) ->
    flog_spec_step a (OpFlushBg max_size) f (mk_fabs (fa_recs a) (fa_pos a) f).

(** A record keeps its length when the link is filled in, and the log has room
    for it; only what was inserted is flushed; the range of the parameter. *)
Definition op_valid (a : flog_abs) (op : flog_buf_op) : Prop :=
  match op with
  | OpInsert rec => (forall l, length (rec l) = length (rec 0)) /\ 0 < Z.of_nat (length (rec 0)) /\ fa_pos a + MAXALIGN (Z.of_nat (length (rec 0))) < 2 ^ 60
  | OpFlush end_ptr => end_ptr <= polar_flog_pos2endptr (fa_pos a)
  | OpFlushBg max_size => 0 <= max_size < 2 ^ 21
  end.

(** Records are whole and in order. *)
Fixpoint recs_in_order (recs : list frec) (c : Z) : Prop :=
  match recs with
  | [] => c = 0
  | r :: recs => fr_total r = Z.of_nat (length (fr_bytes r)) /\ 0 < fr_total r /\ fr_start r + MAXALIGN (fr_total r) = c /\ recs_in_order recs (fr_start r)
  end.

Record flog_refines (s : flog_sys) (a : flog_abs) : Prop := {
  fr_state : fc_buf_state (sy_ctl s) = FLOG_BUF_READY;
  fr_pos : fc_curr_pos (sy_ctl s) = fa_pos a;
  fr_prev : fc_prev_pos (sy_ctl s) = match fa_recs a with [] => 0 | r :: _ => fr_start r end;
  fr_flushed : fc_write_result (sy_ctl s) = fa_flushed a;
  fr_order : recs_in_order (fa_recs a) (fa_pos a);
  fr_procs : Forall (fun l => flog_inv sysid (sys_world s l) (fa_recs a) (fa_pos a) /\ locks_free (sys_world s l)) (sy_procs s)
}.

Lemma maxalign_pos z : 0 < z -> z <= MAXALIGN z /\ MAXALIGN z mod 8 = 0.
Proof. rewrite maxalign. intros. split; Z.div_mod_to_equations; lia. Qed.

Lemma order_aligned recs : forall c, recs_in_order recs c -> 0 <= c /\ c mod 8 = 0.
Proof.
  induction recs as [|r recs IH]; intros c; cbn [recs_in_order]; [intros ->; split; [lia|done]|]. intros (H1 & H2 & H3 & H4). destruct (IH _ H4) as [I1 I2].
  destruct (maxalign_pos _ H2) as [M1 M2]. split; [lia|]. rewrite <- H3. Z.div_mod_to_equations. lia.
Qed.

(** The other processes do not notice more than that the log has grown. *)
Lemma inv_other w w' l recs c recs' c' :
  flog_inv sysid (with_local w l) recs c -> flog_inv sysid w' recs' c' -> length (fc_blocks (fw_ctl w')) = length (fc_blocks (fw_ctl w)) ->
  fc_write_result (fw_ctl w) <= fc_write_result (fw_ctl w') -> fc_initalized_upto (fw_ctl w) <= fc_initalized_upto (fw_ctl w') -> flog_inv sysid (with_local w' l) recs' c'.
Proof.
  intros [A1 A2 A3 A4 A5 A6 A7 A8 A9 A10 A11] [V1 V2 V3 V4 V5 V6 V7 V8 V9 V10 V11] E Hw Hu. split; try done.
  - unfold local_result in *. cbn in *. lia.
  - intros k i Hk. destruct (A10 k i Hk) as (B1 & B2 & B3). cbn in *. rewrite E. split_and!; [done|done|lia].
Qed.

Lemma locks_other w w' l : locks_free (with_local w l) -> locks_free w' -> length (fc_insert_locks (fw_ctl w')) = length (fc_insert_locks (fw_ctl w)) -> locks_free (with_local w' l).
Proof. intros [A1 _] [_ B2] E. split; [cbn in *; by rewrite E|exact B2]. Qed.

Lemma procs_after s a p l w' recs' c' :
  flog_refines s a -> sy_procs s !! p = Some l -> flog_inv sysid w' recs' c' -> locks_free w' ->
  let w := sys_world s l in
  length (fc_blocks (fw_ctl w')) = length (fc_blocks (fw_ctl w)) -> length (fc_insert_locks (fw_ctl w')) = length (fc_insert_locks (fw_ctl w)) ->
  fc_write_result (fw_ctl w) <= fc_write_result (fw_ctl w') -> fc_initalized_upto (fw_ctl w) <= fc_initalized_upto (fw_ctl w') ->
  Forall (fun l => flog_inv sysid (sys_world (put_world s p w') l) recs' c' /\ locks_free (sys_world (put_world s p w') l)) (sy_procs (put_world s p w')).
Proof.
  intros HR Hl HV HF w E1 E2 Hw Hu. apply Forall_insert; [|by destruct w'].
  eapply Forall_impl; [exact (fr_procs _ _ HR)|]. intros l' [I1 I2]. split; [by apply (inv_other w w' l' (fa_recs a) (fa_pos a))|by apply (locks_other w w' l')].
Qed.

Lemma link_spec s a size : flog_refines s a -> fa_pos a < 2 ^ 60 -> (reserve_flog_insert_location (sy_ctl s) size).2 = flog_link a.
Proof.
  intros HR Hb. unfold reserve_flog_insert_location, flog_link. cbn [snd]. rewrite (fr_pos _ _ HR), (fr_prev _ _ HR). pose proof (fr_order _ _ HR) as HO.
  destruct (fa_recs a) as [|r recs]; cbn [recs_in_order] in HO; [rewrite HO; reflexivity|]. destruct HO as (H1 & H2 & H3 & H4). destruct (order_aligned _ _ H4) as [I1 _].
  destruct (maxalign_pos _ H2) as [M1 _]. assert (0 < fa_pos a) as Hp by lia. rewrite (proj2 (Z.eqb_neq (polar_flog_pos2ptr (fa_pos a)) _)); [done|].
  assert (pos_ok (fa_pos a)) as Hok by (unfold pos_ok; lia). rewrite pos2ptr_spec by done. destruct (page_of_spec (fa_pos a) ltac:(lia)) as [Hk Hkp].
  pose proof (page_hdr_range (page_of (fa_pos a))). unfold FLOG_LONG_PHD_SIZE. destruct (decide (page_of (fa_pos a) = 0)) as [E|]; [rewrite E; change (page_pos 0) with 0; change (page_hdr 0) with 40; lia|lia].
Qed.

Lemma flog_step_spec s a p op :
  flog_refines s a -> (p < length (sy_procs s))%nat -> op_valid a op ->
  exists s' v a', flog_step s p op = Done (s', v) /\ flog_spec_step a op v a' /\ flog_refines s' a' /\ length (sy_procs s') = length (sy_procs s).
Proof.
  intros HR Hp Hop. destruct (lookup_lt_is_Some_2 _ _ Hp) as [l Hl]. unfold flog_step. rewrite Hl.
  destruct (Forall_lookup_1 _ _ _ _ (fr_procs _ _ HR) Hl) as [HV HF]. set (w := sys_world s l) in *.
  assert (fc_curr_pos (fw_ctl w) = fa_pos a) as Ec by apply (fr_pos _ _ HR). destruct (order_aligned _ _ (fr_order _ _ HR)) as [Hc0 Hc8].
  assert (fa_pos a < 2 ^ 60) as Hbig by (rewrite <- Ec; apply (v_pos _ _ _ _ HV)).
  destruct op as [rec|end_ptr|max_size]; cbn [op_valid] in Hop.
  - destruct Hop as (Hlen & Hpos & Hroom). rewrite <- Ec in HV.
    destruct (insert_flog_spec w (fa_recs a) rec (length (rec 0)) HV HF (fr_state _ _ HR) Hlen ltac:(lia)) as (w' & -> & G1 & G2 & G3 & G4 & G5 & G6 & G7 & G8 & G9 & G10); [by rewrite Ec|by rewrite Ec|].
    change (fw_ctl w) with (sy_ctl s) in G1 at 2. rewrite (link_spec s a) in G1 by done. rewrite Ec in *. cbn [obind].
    eexists _, _, _. split; [reflexivity|]. split; [apply (spec_insert a rec (fc_write_result (fw_ctl w')))|split; [|apply length_insert]].
    + split; [rewrite <- (fr_flushed _ _ HR); exact G9|apply (v_res _ _ _ _ G1)].
    + split; cbn [fa_recs fa_pos fa_flushed]; [exact G5|exact G2|exact G3|done| |by apply (procs_after s a p l)]. cbn [recs_in_order fr_total fr_bytes fr_start].
      split_and!; [by rewrite (Hlen (flog_link a))|lia|done|apply (fr_order _ _ HR)].
  - rewrite <- Ec in HV. destruct (flog_flush_spec w (fa_recs a) end_ptr HV HF) as (w' & -> & (G1 & (T1 & T2 & T3 & T4 & T5 & T6 & T7 & T8) & G3) & G4); [by rewrite Ec|]. cbn [obind].
    assert (locks_free w') as HF' by (unfold locks_free; rewrite G3, T5; exact HF). rewrite Ec in G1.
    eexists _, _, _. split; [reflexivity|]. split; [apply spec_flush|split; [|apply length_insert]].
    split; cbn [fa_recs fa_pos fa_flushed]; [by rewrite <- (fr_state _ _ HR)|by rewrite <- (fr_pos _ _ HR)|by rewrite <- (fr_prev _ _ HR)|by rewrite <- (fr_flushed _ _ HR)|apply (fr_order _ _ HR)|].
    by apply (procs_after s a p l).
  - rewrite <- Ec in HV. destruct (flush_bg_spec w (fa_recs a) max_size HV HF Hop) as (w' & -> & (G1 & (T1 & T2 & T3 & T4 & T5 & T6 & T7 & T8) & G3)). cbn [obind].
    assert (locks_free w') as HF' by (unfold locks_free; rewrite G3, T5; exact HF). rewrite Ec in G1.
    eexists _, _, _. split; [reflexivity|]. split; [apply spec_flush_bg|split; [|apply length_insert]].
    + split; [rewrite <- (fr_flushed _ _ HR); exact T6|apply (v_res _ _ _ _ G1)].
    + split; cbn [fa_recs fa_pos fa_flushed]; [by rewrite <- (fr_state _ _ HR)|by rewrite <- (fr_pos _ _ HR)|by rewrite <- (fr_prev _ _ HR)|done|apply (fr_order _ _ HR)|].
      by apply (procs_after s a p l).
Qed.

(** ** Reading back *)

Definition file_byte (f : gmap Z flog_page_header_data) (ptr : Z) : Z :=
  aget 0 (xlp_bytes (default blank_page (f !! (ptr / POLAR_FLOG_BLCKSZ)))) (ptr mod POLAR_FLOG_BLCKSZ).
Definition flog_read (f : gmap Z flog_page_header_data) (pos len : Z) : list Z := (fun i => file_byte f (polar_flog_pos2ptr (pos + i))) <$> seqZ 0 len.

Lemma order_in recs : forall c r, recs_in_order recs c -> r ∈ recs ->
  fr_total r = Z.of_nat (length (fr_bytes r)) /\ 0 < fr_total r /\ 0 <= fr_start r /\ fr_start r + MAXALIGN (fr_total r) <= c.
Proof.
  induction recs as [|r0 recs IH]; intros c r HO Hr; [by apply elem_of_nil in Hr|].
  cbn [recs_in_order] in HO. destruct HO as (H1 & H2 & H3 & H4). destruct (order_aligned _ _ H4) as [I1 _]. destruct (maxalign_pos _ H2) as [M1 _].
  apply elem_of_cons in Hr as [->|Hr]; [by split_and!; try lia|]. destruct (IH _ _ H4 Hr) as (J1 & J2 & J3 & J4). split_and!; lia.
Qed.

Lemma log_byte_in recs : forall c r i, recs_in_order recs c -> r ∈ recs -> 0 <= i < fr_total r -> log_byte recs (fr_start r + i) = aget 0 (fr_bytes r) i.
Proof.
  induction recs as [|r0 recs IH]; intros c r i HO Hr Hi; [by apply elem_of_nil in Hr|]. cbn [recs_in_order] in HO. destruct HO as (H1 & H2 & H3 & H4). cbn [log_byte].
  apply elem_of_cons in Hr as [->|Hr].
  - unfold fr_end. rewrite <- H1, (proj2 (Z.leb_le _ _)), (proj2 (Z.ltb_lt _ _)) by lia. cbn [andb]. f_equal. lia.
  - destruct (order_in _ _ _ H4 Hr) as (J1 & J2 & J3 & J4). destruct (maxalign_pos _ J2) as [M1 _]. rewrite (proj2 (Z.leb_gt _ _)) by lia. cbn [andb]. by eapply IH.
Qed.

Lemma file_read s a r :
  flog_refines s a -> sy_procs s <> [] -> r ∈ fa_recs a -> polar_flog_pos2endptr (fr_start r + MAXALIGN (fr_total r)) <= fa_flushed a ->
  flog_read (sy_file s) (fr_start r) (fr_total r) = fr_bytes r.
Proof.
  intros HR Hp Hr Hf. destruct (sy_procs s) as [|l ls] eqn:El; [done|]. pose proof (fr_procs _ _ HR) as HP. rewrite El in HP. inversion_clear HP as [|? ? [HV _] _].
  pose proof (v_file _ _ _ _ HV) as HFile. change (fc_write_result (fw_ctl (sys_world s l))) with (fc_write_result (sy_ctl s)) in HFile. rewrite (fr_flushed _ _ HR) in HFile.
  pose proof (v_pos _ _ _ _ HV) as Hpos. destruct (order_in _ _ _ (fr_order _ _ HR) Hr) as (H1 & H2 & H3 & H4).
  destruct (maxalign_pos _ H2) as [M1 _].
  apply list_eq_same_length with (n := length (fr_bytes r)); [done|unfold flog_read; rewrite length_fmap, length_seqZ; lia|]. intros i x y Hi Hx Hy.
  unfold flog_read in Hx. rewrite list_lookup_fmap in Hx. rewrite lookup_seqZ_lt in Hx by lia. cbn in Hx. injection Hx as <-.
  set (pos := fr_start r + Z.of_nat i). assert (pos_ok pos /\ pos_ok (fr_start r + MAXALIGN (fr_total r))) as [Hok Hok'] by (unfold pos_ok, pos; lia).
  destruct (pos2ptr_page pos Hok) as (P1 & P2 & P3). destruct (page_of_spec pos ltac:(unfold pos_ok in Hok; lia)) as [K1 K2].
  pose proof (page_pos_next (page_of pos)) as Hn. pose proof (page_hdr_range (page_of pos)) as Hh.
  assert (page_of pos * 8192 + (page_hdr (page_of pos) + (pos - page_pos (page_of pos))) < fa_flushed a) as Hlt.
  { eapply Z.lt_le_trans; [|exact Hf]. apply endptr_byte; [done|done|lia|]. unfold pos in *. lia. }
  replace (0 + Z.of_nat i) with (Z.of_nat i) by lia. fold pos. unfold file_byte, POLAR_FLOG_BLCKSZ. rewrite P1, P2.
  destruct (HFile (page_of pos) K1 ltac:(lia)) as [_ HB]. rewrite HB by lia. rewrite aget_image by lia. rewrite (proj2 (Z.ltb_ge _ _)) by lia.
  replace (page_pos (page_of pos) + (page_hdr (page_of pos) + (pos - page_pos (page_of pos)) - page_hdr (page_of pos))) with pos by lia.
  unfold pos. rewrite (log_byte_in _ (fa_pos a)) by (done || apply (fr_order _ _ HR) || lia). unfold aget. rewrite decide_True, Nat2Z.id, Hy by lia. done.
Qed.

(** ** A new log *)

Definition flog_start (insert_locks_num log_buffers : nat) (procs : list Z) : flog_sys :=
  let c := polar_startup_flog_buf_new (polar_flog_buf_init_data insert_locks_num log_buffers) in mk_fsys c ∅ ∅ (polar_flog_buf_init c <$> procs).

Lemma flog_start_refines insert_locks_num log_buffers procs :
  (0 < insert_locks_num)%nat -> (0 < log_buffers)%nat -> Z.of_nat log_buffers < 2 ^ 40 -> flog_refines (flog_start insert_locks_num log_buffers procs) (mk_fabs [] 0 0).
Proof.
  intros Hl Hb Hb'. split; try done. apply Forall_fmap, Forall_true. intros proc. split.
  - assert (polar_flog_pos2endptr 0 = 0) as E0 by reflexivity.
    split; cbn [sys_world flog_start polar_startup_flog_buf_new polar_flog_buf_init_data fw_ctl fw_file fw_local sy_ctl sy_file fc_pages fc_blocks fc_initalized_upto fc_curr_pos fc_write_result
      fc_write_request polar_flog_buf_init fo_cached fo_write_result fa_recs fa_pos]; rewrite ?length_replicate, ?E0; [|lia|lia|by constructor|lia| |lia| | | |done].
    + split; rewrite ?length_replicate; [done|done|by exists 0| |]; [intros k Hk Hw; change (0 / 8192) with 0 in Hw; lia|]. intros i _. apply aget_replicate.
    + change (0 / 8192) with 0. lia.
    + intros k Hk Hlt. lia.
    + apply Z.le_refl.
    + intros k i H. discriminate H.
  - split; cbn; [rewrite length_replicate; apply Z.mod_pos_bound; lia|]. intros j. apply aget_replicate.
Qed.

(** ** Theorems *)

(** C19: The buffers implement a log of records.  Several processes share the
    buffers and the file and each has stale copies of the result and of the
    buffer it used last.  From every state that represents a log, an
    operation of any process comes to its end without an error, gives the
    value and the log that the specification says, and the new state
    represents that log: a record is appended at the reserved position,
    linked to the record before; a flush to a pointer makes the file reach
    that pointer and changes no record; the background flush returns how far
    the file reaches. *)
Theorem flog_ops_simulate s a p op :
  flog_refines s a -> (p < length (sy_procs s))%nat -> op_valid a op ->
  exists s' v a', flog_step s p op = Done (s', v) /\ flog_spec_step a op v a' /\ flog_refines s' a'.
Proof. intros HR Hp Hop. destruct (flog_step_spec s a p op HR Hp Hop) as (s' & v & a' & H1 & H2 & H3 & _). by exists s', v, a'. Qed.

(** C20: A flushed record is in the file.  When one process inserts a record
    and another flushes the log up to the end that the insertion returned,
    then the bytes at the positions from the old end of the log on are the
    record, with its link, whatever the pages and segments it is spread over,
    and every older record is still there. *)
Theorem flog_record_durable s a p q rec :
  flog_refines s a -> (p < length (sy_procs s))%nat -> (q < length (sy_procs s))%nat -> op_valid a (OpInsert rec) ->
  exists s1 e s2 v, flog_step s p (OpInsert rec) = Done (s1, e) /\ flog_step s1 q (OpFlush e) = Done (s2, v) /\
    flog_read (sy_file s2) (fa_pos a) (Z.of_nat (length (rec 0))) = rec (flog_link a) /\
    Forall (fun r => flog_read (sy_file s2) (fr_start r) (fr_total r) = fr_bytes r) (fa_recs a).
Proof.
  intros HR Hp Hq Hop. destruct (flog_step_spec s a p _ HR Hp Hop) as (s1 & e & a1 & H1 & H2 & HR1 & L1). inversion H2; subst.
  destruct (flog_step_spec s1 _ q (OpFlush (polar_flog_pos2endptr (fa_pos a + MAXALIGN (Z.of_nat (length (rec 0)))))) HR1) as (s2 & v & a2 & G1 & G2 & HR2 & L2); [by rewrite L1|apply Z.le_refl|]. inversion G2; subst. cbn [fa_recs fa_pos fa_flushed] in HR2.
  eexists s1, _, s2, _. split; [exact H1|]. split; [exact G1|].
  assert (sy_procs s2 <> []) as Hne by (intros E; rewrite E in L2; cbn in L2; lia). split.
  - refine (file_read s2 _ _ HR2 Hne ltac:(by left) _). cbn. lia.
  - apply Forall_forall. intros r Hr. refine (file_read s2 _ r HR2 Hne ltac:(by right) _). cbn [fa_flushed].
    etransitivity; [|apply Z.le_max_r]. destruct Hop as (_ & Hlen & Hroom). destruct (maxalign_pos _ Hlen) as [M1 _].
    destruct (order_in _ _ _ (fr_order _ _ HR) Hr) as (J1 & J2 & J3 & J4). destruct (maxalign_pos _ J2) as [M2 _]. apply endptr_mono; unfold pos_ok; lia.
Qed.
End flog_ops.

(** ** Concrete runs

    Two processes, two buffers, a record over three pages. *)

Definition demo_rec (link : Z) : list Z := link :: ((fun i => i mod 251) <$> seqZ 1 20000).

Lemma demo_refines : flog_refines 77 (flog_start 2 2 [0; 5]) (mk_fabs [] 0 0).
Proof. apply flog_start_refines; lia. Qed.

Lemma demo_length l : length (demo_rec l) = S (Z.to_nat 20000).
Proof. unfold demo_rec. cbn [length]. by rewrite length_fmap, length_seqZ. Qed.

Lemma demo_valid : op_valid (mk_fabs [] 0 0) (OpInsert demo_rec).
Proof. split_and!; [intros l; by rewrite !demo_length|rewrite demo_length; lia|rewrite demo_length, maxalign; cbn [fa_pos]; Z.div_mod_to_equations; lia]. Qed.

Lemma flog_ops_simulate_witness :
  flog_refines 77 (flog_start 2 2 [0; 5]) (mk_fabs [] 0 0) /\
  exists s' v a', flog_step 77 (flog_start 2 2 [0; 5]) 1 (OpInsert demo_rec) = Done (s', v) /\ flog_spec_step (mk_fabs [] 0 0) (OpInsert demo_rec) v a' /\ flog_refines 77 s' a'.
Proof. split; [apply demo_refines|]. apply (flog_ops_simulate 77 _ _ 1 _ demo_refines); [cbn; lia|apply demo_valid]. Defined.

Lemma flog_record_durable_witness :
  flog_refines 77 (flog_start 2 2 [0; 5]) (mk_fabs [] 0 0) /\
  exists s1 e s2 v, flog_step 77 (flog_start 2 2 [0; 5]) 0 (OpInsert demo_rec) = Done (s1, e) /\ flog_step 77 s1 1 (OpFlush e) = Done (s2, v) /\
    flog_read (sy_file s2) 0 (Z.of_nat (length (demo_rec 0))) = demo_rec (flog_link (mk_fabs [] 0 0)) /\
    Forall (fun r => flog_read (sy_file s2) (fr_start r) (fr_total r) = fr_bytes r) [].
Proof. split; [apply demo_refines|]. apply (flog_record_durable 77 _ (mk_fabs [] 0 0) 0 1 _ demo_refines); [cbn; lia|cbn; lia|apply demo_valid]. Defined.

(** The flush of a segment that is not full is not followed by a sync. *)
Example flush_leaves_unsynced :
  match (let! (s1, e) := flog_step 77 (flog_start 2 2 [0; 5]) 0 (OpInsert (fun link => [link; 7; 8])) in flog_step 77 s1 1 (OpFlush e)) with
  | Done (s2, _) => bool_decide (sy_synced s2 = ∅) && (Z.of_nat (size (sy_file s2)) =? 1)
  | Fault _ => false
  end = true.
Proof. vm_compute. reflexivity. Qed.
