(* ===== verification/HashFn.v ===== *)
(** * Hash functions (common/hashfn.c)

    Jenkins' hash of a byte string: the internal state is three 32-bit
    words, mixed after every 12 bytes.  There are four code paths, for
    aligned and unaligned keys on little and big endian machines; [big] and
    [aligned] select one.  A key is a list of bytes. *)

From S2P Require Import Prelude BufTag.

Definition add32 (x y : Z) : Z := u32 (x + y).
Definition sub32 (x y : Z) : Z := u32 (x - y).

Definition pg_rotate_left32 (word n : Z) : Z := Z.lor (u32 (Z.shiftl word n)) (Z.shiftr word (32 - n)).
Abbreviation rot := pg_rotate_left32.

(** One line of [mix]: [x -= z; x ^= rot(z, k); z += y]. *)
Definition mix_step (k x y z : Z) : Z * Z := (Z.lxor (sub32 x z) (rot z k), add32 z y).

Definition mix '(a, b, c) : Z * Z * Z :=
  let '(a, c) := mix_step 4 a b c in
  let '(b, a) := mix_step 6 b c a in
  let '(c, b) := mix_step 8 c a b in
  let '(a, c) := mix_step 16 a b c in
  let '(b, a) := mix_step 19 b c a in
  let '(c, b) := mix_step 4 c a b in
  (a, b, c).

(** One assignment pair of [final]: [x ^= y; x -= rot(y, k)]. *)
Definition final_step (k x y : Z) : Z := sub32 (Z.lxor x y) (rot y k).

Definition final '(a, b, c) : Z * Z * Z :=
  let c := final_step 14 c b in
  let a := final_step 11 a c in
  let b := final_step 25 b a in
  let c := final_step 16 c b in
  let a := final_step 4 a c in
  let b := final_step 14 b a in
  let c := final_step 24 c b in
  (a, b, c).

Section paths.
Context (big : bool).

Definition byte (k : list Z) (i : Z) : Z := aget 0 k i.

(** [ka[i]], the word at byte [4 * i] as the machine reads it. *)
Definition ka (k : list Z) (i : Z) : Z :=
  if big then byte k (4 * i + 3) + byte k (4 * i + 2) * 2 ^ 8 + byte k (4 * i + 1) * 2 ^ 16 + byte k (4 * i) * 2 ^ 24
  else byte k (4 * i) + byte k (4 * i + 1) * 2 ^ 8 + byte k (4 * i + 2) * 2 ^ 16 + byte k (4 * i + 3) * 2 ^ 24.

(** The word put together from bytes [i ..]. *)
Definition word (k : list Z) (i : Z) : Z :=
  if big then u32 (byte k (i + 3) + Z.shiftl (byte k (i + 2)) 8 + Z.shiftl (byte k (i + 1)) 16 + Z.shiftl (byte k i) 24)
  else u32 (byte k i + Z.shiftl (byte k (i + 1)) 8 + Z.shiftl (byte k (i + 2)) 16 + Z.shiftl (byte k (i + 3)) 24).

(** Byte [i] of the rest of the key at [place] of the word it belongs to; in
    the third word one byte is left to the length. *)
Definition at_place (k : list Z) (i place : Z) : Z := Z.shiftl (byte k i) (8 * (if big then 3 - place else place)).
Definition third_place (k : list Z) (i place : Z) : Z := Z.shiftl (byte k i) (8 * (if big then 4 - place else place)).

(** The cases 11, 10 and 9 of the [switch]; a case falls through to the
    next. *)
Definition tail_c (k : list Z) (len c : Z) : Z :=
  let c := if len >=? 11 then add32 c (third_place k 10 3) else c in
  let c := if len >=? 10 then add32 c (third_place k 9 2) else c in
  if len >=? 9 then add32 c (third_place k 8 1) else c.

Definition tail_aligned (k : list Z) (len : Z) '(a, b, c) : Z * Z * Z :=
  if len >=? 8 then
    let c := tail_c k len c in
    let b := add32 b (ka k 1) in
    let a := add32 a (ka k 0) in
    (a, b, c)
  else if len >=? 4 then
    let b := if len >=? 7 then add32 b (at_place k 6 2) else b in
    let b := if len >=? 6 then add32 b (at_place k 5 1) else b in
    let b := if len >=? 5 then add32 b (at_place k 4 0) else b in
    let a := add32 a (ka k 0) in
    (a, b, c)
  else
    let a := if len >=? 3 then add32 a (at_place k 2 2) else a in
    let a := if len >=? 2 then add32 a (at_place k 1 1) else a in
    let a := if len >=? 1 then add32 a (at_place k 0 0) else a in
    (a, b, c).

Definition tail_unaligned (k : list Z) (len : Z) '(a, b, c) : Z * Z * Z :=
  let c := tail_c k len c in
  let b := if len >=? 8 then add32 b (at_place k 7 3) else b in
  let b := if len >=? 7 then add32 b (at_place k 6 2) else b in
  let b := if len >=? 6 then add32 b (at_place k 5 1) else b in
  let b := if len >=? 5 then add32 b (at_place k 4 0) else b in
  let a := if len >=? 4 then add32 a (at_place k 3 3) else a in
  let a := if len >=? 3 then add32 a (at_place k 2 2) else a in
  let a := if len >=? 2 then add32 a (at_place k 1 1) else a in
  let a := if len >=? 1 then add32 a (at_place k 0 0) else a in
  (a, b, c).

(** The loop over 12 bytes at a time and the rest; every round shortens
    the key. *)
Fixpoint hash_loop (fuel : nat) (aligned : bool) (k : list Z) (st : Z * Z * Z) : Z * Z * Z :=
  let '(a, b, c) := st in
  let len := Z.of_nat (length k) in
  match fuel with
  | S n =>
    if len >=? 12 then
      if aligned then hash_loop n aligned (drop 12 k) (mix (add32 a (ka k 0), add32 b (ka k 1), add32 c (ka k 2)))
      else hash_loop n aligned (drop 12 k) (mix (add32 a (word k 0), add32 b (word k 4), add32 c (word k 8)))
    else if aligned then tail_aligned k len (a, b, c) else tail_unaligned k len (a, b, c)
  | O => (a, b, c)
  end.

Definition hash_init (len : Z) : Z := u32 (0x9e3779b9 + len + 3923095).

Definition hash_bytes (aligned : bool) (k : list Z) : Z :=
  let x := hash_init (Z.of_nat (length k)) in
  let '(_, _, c) := final (hash_loop (S (length k)) aligned k (x, x, x)) in c.

(** The seed is mixed in first. *)
Definition seed_state (seed x : Z) : Z * Z * Z :=
  if negb (seed =? 0) then mix (add32 x (u32 (Z.shiftr seed 32)), add32 x (u32 seed), x) else (x, x, x).

Definition hash_bytes_extended (aligned : bool) (k : list Z) (seed : Z) : Z :=
  let x := hash_init (Z.of_nat (length k)) in
  let '(_, b, c) := final (hash_loop (S (length k)) aligned k (seed_state seed x)) in
  Z.lor (Z.shiftl b 32) c.
End paths.

Definition hash_bytes_uint32 (k : Z) : Z :=
  let x := hash_init 4 in
  let '(_, _, c) := final (add32 x k, x, x) in c.

Definition hash_bytes_uint32_extended (k seed : Z) : Z :=
  let '(a, b, c) := seed_state seed (hash_init 4) in
  let '(_, b, c) := final (add32 a k, b, c) in
  Z.lor (Z.shiftl b 32) c.

(** The wrappers of dynahash: the hash functions of strings, of fixed-size
    keys and of 32-bit keys.  A key is the memory it points to. *)
Fixpoint strlen (key : list Z) : Z :=
  match key with
  | [] => 0
  | x :: key => if x =? 0 then 0 else 1 + strlen key
  end.

Definition string_hash (big aligned : bool) (key : list Z) (keysize : Z) : Z :=
  let s_len := Z.min (strlen key) (u64 (keysize - 1)) in
  hash_bytes big aligned (take (Z.to_nat s_len) key).

Definition tag_hash (big aligned : bool) (key : list Z) (keysize : Z) : Z := hash_bytes big aligned (take (Z.to_nat keysize) key).

Definition uint32_hash (big : bool) (key : list Z) : Z := hash_bytes_uint32 (ka big key 0).

(** The hash of a page tag, [tag_hash(tag, sizeof(BufferTag))], and of a
    byte string with a seed, on a little endian machine. *)
Definition buffer_tag_hash (tag : BufferTag) : Z := tag_hash false true (tag_bytes tag) 20.
Definition jenkins : list Z -> Z -> Z := hash_bytes_extended false true.

(** The bytes of a 32-bit value in memory. *)
Definition uint32_bytes (big : bool) (w : Z) : list Z :=
  let le := [w mod 2 ^ 8; w / 2 ^ 8 mod 2 ^ 8; w / 2 ^ 16 mod 2 ^ 8; w / 2 ^ 24 mod 2 ^ 8] in
  if big then rev le else le.

(** ** The code paths agree *)

Lemma add32_assoc x y z : add32 (add32 x y) z = add32 x (y + z).
Proof. unfold add32, u32, wrap. rewrite Z.add_mod_idemp_l by lia. f_equal. lia. Qed.

Lemma add32_u32 x y : add32 x (u32 y) = add32 x y.
Proof. unfold add32, u32, wrap. by rewrite Z.add_mod_idemp_r by lia. Qed.

Lemma shiftl_mul x n : 0 <= n -> Z.shiftl x n = x * 2 ^ n.
Proof. apply Z.shiftl_mul_pow2. Qed.

Lemma word_ka big x k i : add32 x (word big k (4 * i)) = add32 x (ka big k i).
Proof. unfold word, ka. destruct big; rewrite add32_u32, !shiftl_mul by lia; f_equal; lia. Qed.

Lemma places_ka big k (i j : Z) x :
  j = 4 * i ->
  add32 (add32 (add32 (add32 x (at_place big k (j + 3) 3)) (at_place big k (j + 2) 2)) (at_place big k (j + 1) 1)) (at_place big k j 0) =
  add32 x (ka big k i).
Proof.
  intros ->. unfold at_place, ka. rewrite !add32_assoc. destruct big; rewrite !shiftl_mul by lia; f_equal; lia.
Qed.

Lemma tails_agree big k len st : tail_aligned big k len st = tail_unaligned big k len st.
Proof.
  destruct st as [[a b] c]. unfold tail_aligned, tail_unaligned.
  pose proof (places_ka big k 0 0 a eq_refl) as Ha. pose proof (places_ka big k 1 4 b eq_refl) as Hb.
  change (0 + 3) with 3 in Ha. change (0 + 2) with 2 in Ha. change (0 + 1) with 1 in Ha.
  change (4 + 3) with 7 in Hb. change (4 + 2) with 6 in Hb. change (4 + 1) with 5 in Hb.
  assert (forall n, n <= 8 -> 8 <= len -> (len >=? n) = true) as H8 by (intros; rewrite Z.geb_leb; apply Z.leb_le; lia).
  assert (forall n, len < n -> (len >=? n) = false) as Hlow by (intros; rewrite Z.geb_leb; apply Z.leb_gt; lia).
  destruct (len >=? 8) eqn:E8; zbool.
  - rewrite !(H8 7), !(H8 6), !(H8 5), !(H8 4), !(H8 3), !(H8 2), !(H8 1) by lia. by rewrite Ha, Hb.
  - assert (tail_c big k len c = c) as -> by (unfold tail_c; by rewrite !Hlow by lia).
    destruct (len >=? 4) eqn:E4; zbool; [|by rewrite !(Hlow 7), !(Hlow 6), !(Hlow 5) by lia].
    assert (forall n, n <= 4 -> (len >=? n) = true) as H4 by (intros; rewrite Z.geb_leb; apply Z.leb_le; lia).
    rewrite !(H4 3), !(H4 2), !(H4 1) by lia. by rewrite Ha.
Qed.

Lemma loops_agree big fuel k st : hash_loop big fuel true k st = hash_loop big fuel false k st.
Proof.
  revert k st. induction fuel as [|n IH]; intros k [[a b] c]; [done|]. cbn [hash_loop].
  destruct (Z.of_nat (length k) >=? 12); [|apply tails_agree].
  rewrite IH. do 2 f_equal. pose proof (word_ka big a k 0) as H0. pose proof (word_ka big b k 1) as H1. pose proof (word_ka big c k 2) as H2.
  change (4 * 0) with 0 in H0. change (4 * 1) with 4 in H1. change (4 * 2) with 8 in H2. by rewrite H0, H1, H2.
Qed.

(** The four code paths are two functions: on either kind of machine the
    word-wide path for aligned keys computes the same 32-bit and 64-bit
    hashes as the byte-wise path for unaligned ones, for every key and
    seed. *)
Theorem hash_paths_agree big k seed :
  hash_bytes big true k = hash_bytes big false k /\ hash_bytes_extended big true k seed = hash_bytes_extended big false k seed.
Proof. unfold hash_bytes, hash_bytes_extended. by rewrite !loops_agree. Qed.

(** ** Hashing a 32-bit value *)

Lemma split_bytes w : is_u32 w -> w mod 2 ^ 8 + w / 2 ^ 8 mod 2 ^ 8 * 2 ^ 8 + w / 2 ^ 16 mod 2 ^ 8 * 2 ^ 16 + w / 2 ^ 24 mod 2 ^ 8 * 2 ^ 24 = w.
Proof.
  unfold is_u32. intros Hw. change (2 ^ 24) with (2 ^ 8 * 2 ^ 8 * 2 ^ 8). change (2 ^ 16) with (2 ^ 8 * 2 ^ 8).
  rewrite <- !Z.div_div by lia. change (2 ^ 32) with 4294967296 in Hw. change (2 ^ 8) with 256. Z.div_mod_to_equations. lia.
Qed.

Lemma ka_uint32 big w : is_u32 w -> ka big (uint32_bytes big w) 0 = w.
Proof. intros Hw. rewrite <- (split_bytes w Hw) at 2. by destruct big. Qed.

Lemma uint32_bytes_length big w : length (uint32_bytes big w) = 4%nat.
Proof. by destruct big. Qed.

Lemma hash_loop_uint32 big aligned w a b c :
  is_u32 w -> hash_loop big 5 aligned (uint32_bytes big w) (a, b, c) = (add32 a w, b, c).
Proof.
  intros Hw. transitivity (hash_loop big 5 true (uint32_bytes big w) (a, b, c)).
  { destruct aligned; [done|]. by rewrite <- loops_agree. }
  rewrite <- (ka_uint32 big w Hw) at 2. cbn [hash_loop]. by rewrite uint32_bytes_length.
Qed.

(** [hash_bytes_uint32] and its 64-bit version are shortcuts: for a
    32-bit value they return what the general functions return for the four
    bytes of that value in memory, whatever the byte order, the alignment
    and the seed; so [tag_hash] works for a 32-bit key too and gives what
    [uint32_hash] gives. *)
Theorem hash_uint32_shortcut big aligned w seed :
  is_u32 w ->
  hash_bytes_uint32 w = hash_bytes big aligned (uint32_bytes big w) /\
  hash_bytes_uint32_extended w seed = hash_bytes_extended big aligned (uint32_bytes big w) seed /\
  uint32_hash big (uint32_bytes big w) = tag_hash big aligned (uint32_bytes big w) 4.
Proof.
  intros Hw. unfold uint32_hash, tag_hash. rewrite (ka_uint32 big w Hw).
  rewrite take_ge by (rewrite uint32_bytes_length; done).
  unfold hash_bytes_uint32, hash_bytes_uint32_extended, hash_bytes, hash_bytes_extended.
  rewrite uint32_bytes_length. change (Z.of_nat 4) with 4.
  destruct (seed_state seed (hash_init 4)) as [[a b] c]. by rewrite !hash_loop_uint32.
Qed.

Lemma hash_uint32_shortcut_witness :
  hash_bytes_uint32 123456789 = hash_bytes true false (uint32_bytes true 123456789) /\
  hash_bytes_uint32_extended 123456789 7 = hash_bytes_extended true false (uint32_bytes true 123456789) 7 /\
  uint32_hash true (uint32_bytes true 123456789) = tag_hash true false (uint32_bytes true 123456789) 4.
Proof. apply hash_uint32_shortcut. unfold is_u32. lia. Defined.

(** ** Mixing loses nothing *)

Definition is_state '((a, b, c) : Z * Z * Z) : Prop := is_u32 a /\ is_u32 b /\ is_u32 c.

Lemma u32_range z : is_u32 (u32 z).
Proof. apply wrap_range. lia. Qed.

Lemma u32_lxor x y : is_u32 x -> is_u32 y -> is_u32 (Z.lxor x y).
Proof.
  unfold is_u32. intros Hx Hy. split; [by apply Z.lxor_nonneg; lia|].
  apply Z.bounded_iff_bits_nonneg; [lia|apply Z.lxor_nonneg; lia|]. intros l Hl. rewrite Z.lxor_spec.
  rewrite (proj1 (Z.bounded_iff_bits_nonneg 32 x ltac:(lia) ltac:(lia))) by lia.
  by rewrite (proj1 (Z.bounded_iff_bits_nonneg 32 y ltac:(lia) ltac:(lia))) by lia.
Qed.

Lemma add32_sub32 x z : is_u32 x -> add32 (sub32 x z) z = x.
Proof.
  intros Hx. unfold add32, sub32, u32, wrap. rewrite Z.add_mod_idemp_l by lia. replace (x - z + z) with x by lia. by apply wrap_small.
Qed.

Lemma sub32_add32 x z : is_u32 x -> sub32 (add32 x z) z = x.
Proof.
  intros Hx. unfold add32, sub32, u32, wrap. rewrite Zminus_mod_idemp_l by lia. replace (x + z - z) with x by lia. by apply wrap_small.
Qed.

Lemma lxor_cancel x y : Z.lxor (Z.lxor x y) y = x.
Proof. by rewrite Z.lxor_assoc, Z.lxor_nilpotent, Z.lxor_0_r. Qed.

Lemma rot_range z k : is_u32 z -> 0 <= k <= 32 -> is_u32 (rot z k).
Proof.
  intros Hz Hk. unfold pg_rotate_left32. pose proof (u32_range (Z.shiftl z k)) as Hl. unfold is_u32 in *.
  assert (0 <= Z.shiftr z (32 - k) < 2 ^ 32) as Hr.
  { rewrite Z.shiftr_div_pow2 by lia. pose proof (Z.pow_pos_nonneg 2 (32 - k) ltac:(lia) ltac:(lia)).
    split; [apply Z.div_pos; lia|]. apply Z.le_lt_trans with z; [|lia]. apply Z.div_le_upper_bound; nia. }
  assert (0 <= Z.lor (u32 (Z.shiftl z k)) (Z.shiftr z (32 - k))) as H0 by (apply Z.lor_nonneg; lia).
  split; [done|]. apply Z.bounded_iff_bits_nonneg; [lia|done|]. intros l Hlt. rewrite Z.lor_spec.
  rewrite (proj1 (Z.bounded_iff_bits_nonneg 32 (u32 _) ltac:(lia) (proj1 Hl))) by lia.
  by rewrite (proj1 (Z.bounded_iff_bits_nonneg 32 (Z.shiftr _ _) ltac:(lia) (proj1 Hr))) by lia.
Qed.

(** A line of [mix] backwards. *)
Definition unmix_step (k x y z : Z) : Z * Z := let z := sub32 z y in (add32 (Z.lxor x (rot z k)) z, z).

Definition unmix '(a, b, c) : Z * Z * Z :=
  let '(c, b) := unmix_step 4 c a b in
  let '(b, a) := unmix_step 19 b c a in
  let '(a, c) := unmix_step 16 a b c in
  let '(c, b) := unmix_step 8 c a b in
  let '(b, a) := unmix_step 6 b c a in
  let '(a, c) := unmix_step 4 a b c in
  (a, b, c).

Lemma mix_step_undo k x y z x' z' :
  is_u32 x -> is_u32 z -> mix_step k x y z = (x', z') -> 0 <= k <= 32 ->
  unmix_step k x' y z' = (x, z) /\ is_u32 x' /\ is_u32 z'.
Proof.
  unfold mix_step, unmix_step. intros Hx Hz [= <- <-] Hk.
  rewrite sub32_add32, lxor_cancel, add32_sub32 by done. split; [done|].
  split; [apply u32_lxor; [apply u32_range|by apply rot_range]|apply u32_range].
Qed.

(** [mix] is reversible, as its comment says: from the state after it
    the state before it is computed, so no information of the three words
    is lost; and it stays within 32 bits. *)
Theorem mix_reversible st : is_state st -> unmix (mix st) = st /\ is_state (mix st).
Proof.
  destruct st as [[a b] c]. intros (Ha & Hb & Hc). unfold mix.
  repeat match goal with
  | |- context[mix_step ?k ?x ?y ?z] =>
    let E := fresh "E" in destruct (mix_step k x y z) as [? ?] eqn:E;
    apply mix_step_undo in E as (? & ? & ?); [|done|done|lia]; cbv beta iota
  end.
  split; [|done]. unfold unmix.
  repeat match goal with E : unmix_step _ _ _ _ = _ |- _ => rewrite E; clear E end. done.
Qed.

Lemma mix_reversible_witness : is_state (1, 2, 3) /\ unmix (mix (1, 2, 3)) = (1, 2, 3).
Proof. assert (is_state (1, 2, 3)) as H by (unfold is_state, is_u32; lia). split; [exact H|]. apply (mix_reversible _ H). Defined.

Example mix_moves : mix (1, 2, 3) <> (1, 2, 3).
Proof. by vm_compute. Qed.

(** ** Both widths *)

Lemma final_range st a b c : final st = (a, b, c) -> is_u32 c.
Proof. destruct st as [[a0 b0] c0]. unfold final. intros [= _ _ <-]. apply u32_range. Qed.

(** With seed zero the low 32 bits of the 64-bit hash are the 32-bit
    hash of the same key, and the 32-bit hash of a 32-bit value likewise. *)
Lemma extended_low_bits big aligned k w :
  u32 (hash_bytes_extended big aligned k 0) = hash_bytes big aligned k /\
  u32 (hash_bytes_uint32_extended w 0) = hash_bytes_uint32 w.
Proof.
  assert (forall b c, is_u32 c -> u32 (Z.lor (Z.shiftl b 32) c) = c) as Hlow.
  { intros b c Hc. apply Z.bits_inj'. intros n Hn. unfold u32, wrap. rewrite Z.testbit_mod_pow2 by lia.
    destruct (n <? 32) eqn:E; zbool; cbn [andb].
    - rewrite Z.lor_spec, Z.shiftl_spec_low by lia. done.
    - symmetry. unfold is_u32 in Hc. apply (Z.bounded_iff_bits_nonneg 32); lia. }
  unfold hash_bytes_extended, hash_bytes, hash_bytes_uint32_extended, hash_bytes_uint32. cbn [seed_state Z.eqb negb].
  split; match goal with |- context[final ?st] => destruct (final st) as [[a b] c] eqn:E end; apply Hlow; by eapply final_range.
Qed.
