(* ===== verification/Bloom.v ===== *)
(** * The Bloom filter (lib/bloomfilter.c)

    A bit set addressed by up to ten hashes of an element.  The bit set is
    a list of bytes and an element a list of bytes.  The 64-bit hash
    function and the number of hash functions computed in floating point
    are parameters.  [bloom_init_struct] overlays the structure on a
    caller's buffer; what the buffer holds after the header is passed as
    the bit set. *)

From S2P Require Import Prelude HashFn.

Set Default Proof Using "Type".

Definition MAX_HASH_FUNCS : Z := 10.
Definition BITS_PER_BYTE : Z := 8.

(** [offsetof(bloom_filter, bitset)]. *)
Definition BLOOM_HEADER_SIZE : Z := 24.

Record bloom_filter := mk_bloom_filter {
  k_hash_funcs : Z;
  bf_seed : Z;
  bf_m : Z;
  bf_bitset : list Z
}.

(** The loop runs at most 33 times. *)
Fixpoint bloom_power_loop (fuel : nat) (bloom_power target_bitset_bits : Z) : Z :=
  match fuel with
  | O => bloom_power
  | S n => if (target_bitset_bits >? 0) && (bloom_power <? 32)
           then bloom_power_loop n (bloom_power + 1) (Z.shiftr target_bitset_bits 1) else bloom_power
  end.

Definition my_bloom_power (target_bitset_bits : Z) : Z := bloom_power_loop 33 (-1) target_bitset_bits.

Definition mod_m (val m : Z) : Z := Z.land val (m - 1).

(** Hashes [i ..] of the array, [n] of them. *)
Fixpoint k_hashes_loop (n : nat) (m i x y : Z) : list Z :=
  match n with
  | O => []
  | S n =>
    let x := mod_m (u32 (x + y)) m in
    let y := mod_m (u32 (y + i)) m in
    x :: k_hashes_loop n m (i + 1) x y
  end.

Section filter.
Context (hash_any_extended : list Z -> Z -> Z).
(** [rint(log(2.0) * bitset_bits / total_elems)]. *)
Context (rint_log2 : Z -> Z -> Z).

Definition optimal_k (bitset_bits total_elems : Z) : Z :=
  Z.max 1 (Z.min (rint_log2 bitset_bits total_elems) MAX_HASH_FUNCS).

Definition bloom_create (total_elems bloom_work_mem seed : Z) : bloom_filter :=
  let bitset_bytes := Z.min (u64 (bloom_work_mem * 1024)) (u64 (total_elems * 2)) in
  let bitset_bytes := Z.max (1024 * 1024) bitset_bytes in
  let bloom_power := my_bloom_power (u64 (bitset_bytes * BITS_PER_BYTE)) in
  let bitset_bits := Z.shiftl 1 bloom_power in
  let bitset_bytes := bitset_bits / BITS_PER_BYTE in
  mk_bloom_filter (optimal_k bitset_bits total_elems) seed bitset_bits (replicate (Z.to_nat bitset_bytes) 0).

Definition bloom_init_struct (bloom_buf : list Z) (bloom_buf_size total_elems seed : Z) : bloom_filter :=
  let bitset_bytes := bloom_buf_size - BLOOM_HEADER_SIZE in
  let bloom_power := my_bloom_power (u64 (bitset_bytes * BITS_PER_BYTE)) in
  let bitset_bits := Z.shiftl 1 bloom_power in
  mk_bloom_filter (optimal_k bitset_bits total_elems) seed bitset_bits bloom_buf.

Definition k_hashes (filter : bloom_filter) (elem : list Z) : list Z :=
  let hash := hash_any_extended elem (bf_seed filter) in
  let x := mod_m (u32 hash) (bf_m filter) in
  let y := mod_m (u32 (Z.shiftr hash 32)) (bf_m filter) in
  x :: k_hashes_loop (Z.to_nat (k_hash_funcs filter - 1)) (bf_m filter) 1 x y.

Definition bloom_add_element (filter : bloom_filter) (elem : list Z) : bloom_filter :=
  mk_bloom_filter (k_hash_funcs filter) (bf_seed filter) (bf_m filter)
    (foldl (fun bits h => aset bits (Z.shiftr h 3) (u8 (Z.lor (aget 0 bits (Z.shiftr h 3)) (Z.shiftl 1 (Z.land h 7)))))
       (bf_bitset filter) (k_hashes filter elem)).

(** True at the first hash whose bit is clear. *)
Definition bloom_lacks_element (filter : bloom_filter) (elem : list Z) : bool :=
  existsb (fun h => Z.land (aget 0 (bf_bitset filter) (Z.shiftr h 3)) (Z.shiftl 1 (Z.land h 7)) =? 0) (k_hashes filter elem).

End filter.

(** ** Invariant *)

Definition bit_set (bits : list Z) (h : Z) : bool := Z.testbit (aget 0 bits (Z.shiftr h 3)) (Z.land h 7).

Record bloom_wf (f : bloom_filter) : Prop := {
  bw_k : 1 <= k_hash_funcs f <= MAX_HASH_FUNCS;
  bw_m : exists p, 3 <= p <= 32 /\ bf_m f = 2 ^ p;
  bw_len : bf_m f <= 8 * Z.of_nat (length (bf_bitset f));
  bw_byte : forall i, is_u8 (aget 0 (bf_bitset f) i)
}.

Lemma mod_m_range v p : 0 <= p -> 0 <= mod_m v (2 ^ p) < 2 ^ p.
Proof.
  intros Hp. unfold mod_m. rewrite Z.sub_1_r, <- Z.ones_equiv, Z.land_ones by lia.
  apply Z.mod_pos_bound. apply Z.pow_pos_nonneg; lia.
Qed.

Lemma k_hashes_loop_range n p i x y h : 0 <= p -> h ∈ k_hashes_loop n (2 ^ p) i x y -> 0 <= h < 2 ^ p.
Proof.
  intros Hp. revert i x y. induction n as [|n IH]; intros i x y H; [by apply not_elem_of_nil in H|].
  cbn [k_hashes_loop] in H. apply elem_of_cons in H as [->|H]; [by apply mod_m_range|by eapply IH].
Qed.

Lemma shiftl_1_testbit k n : 0 <= k -> Z.testbit (Z.shiftl 1 k) n = bool_decide (n = k).
Proof.
  intros Hk. rewrite Z.shiftl_1_l, Z.pow2_bits_eqb by done. case_bool_decide as E; [subst; apply Z.eqb_refl|apply Z.eqb_neq; congruence].
Qed.

Lemma land_7_range h : 0 <= Z.land h 7 < 8.
Proof. change 7 with (Z.ones 3). rewrite Z.land_ones by lia. apply Z.mod_pos_bound. lia. Qed.

Lemma bit_test bits h : (Z.land (aget 0 bits (Z.shiftr h 3)) (Z.shiftl 1 (Z.land h 7)) =? 0) = negb (bit_set bits h).
Proof.
  unfold bit_set. pose proof (land_7_range h) as Hr. set (v := aget 0 bits _). set (k := Z.land h 7) in *.
  destruct (Z.testbit v k) eqn:E; cbn [negb].
  - apply Z.eqb_neq. intros H0. assert (Z.testbit 0 k = true) as Hb; [|by rewrite Z.bits_0 in Hb].
    rewrite <- H0, Z.land_spec, E, shiftl_1_testbit by lia. by rewrite bool_decide_true.
  - apply Z.eqb_eq, Z.bits_inj'. intros n Hn. rewrite Z.land_spec, shiftl_1_testbit, Z.bits_0 by lia.
    case_bool_decide as En; [by subst n; rewrite E|by rewrite andb_false_r].
Qed.

(** One bit is added and no other bit of the set changes. *)
Definition add_bit (bits : list Z) (h : Z) : list Z :=
  aset bits (Z.shiftr h 3) (u8 (Z.lor (aget 0 bits (Z.shiftr h 3)) (Z.shiftl 1 (Z.land h 7)))).

Lemma or_byte v k : is_u8 v -> 0 <= k < 8 -> u8 (Z.lor v (Z.shiftl 1 k)) = Z.lor v (Z.shiftl 1 k) /\ is_u8 (Z.lor v (Z.shiftl 1 k)).
Proof.
  intros Hv Hk. assert (is_u8 (Z.lor v (Z.shiftl 1 k))) as Hr.
  { unfold is_u8 in *. rewrite Z.shiftl_1_l. assert (0 <= 2 ^ k) by (apply Z.pow_nonneg; lia).
    assert (0 <= Z.lor v (2 ^ k)) by (apply Z.lor_nonneg; lia). split; [done|].
    assert (2 ^ k < 2 ^ 8) by (apply Z.pow_lt_mono_r; lia).
    destruct (decide (Z.lor v (2 ^ k) = 0)) as [->|Hne]; [done|]. apply Z.log2_lt_pow2; [lia|].
    rewrite Z.log2_lor by lia. apply Z.max_lub_lt.
    - destruct (decide (v = 0)) as [->|]; [done|]. apply Z.log2_lt_pow2; lia.
    - rewrite Z.log2_pow2 by lia. lia. }
  split; [|done]. by apply wrap_small.
Qed.

Lemma add_bit_spec bits h h' :
  (forall i, is_u8 (aget 0 bits i)) -> 0 <= h < 8 * Z.of_nat (length bits) -> 0 <= h' ->
  bit_set (add_bit bits h) h' = bit_set bits h' || bool_decide (h = h').
Proof.
  intros Hb Hh Hh'. unfold bit_set, add_bit. pose proof (land_7_range h) as Hr.
  destruct (or_byte (aget 0 bits (Z.shiftr h 3)) (Z.land h 7) (Hb _) Hr) as [-> _].
  assert (Z.shiftr h 3 = h / 8) as Hs by (by rewrite Z.shiftr_div_pow2). assert (Z.shiftr h' 3 = h' / 8) as Hs' by (by rewrite Z.shiftr_div_pow2).
  assert (Z.land h 7 = h mod 8) as Hl by (change 7 with (Z.ones 3); by rewrite Z.land_ones).
  assert (Z.land h' 7 = h' mod 8) as Hl' by (change 7 with (Z.ones 3); by rewrite Z.land_ones).
  rewrite aget_aset by (rewrite Hs; mlia). destruct (decide (Z.shiftr h 3 = Z.shiftr h' 3)) as [E|E].
  - rewrite Z.lor_spec, shiftl_1_testbit, E by lia. f_equal. apply bool_decide_ext. rewrite Hl, Hl'. rewrite Hs, Hs' in E. split; mlia.
  - rewrite bool_decide_false by congruence. by rewrite orb_false_r.
Qed.

Lemma add_bit_byte bits h : (forall i, is_u8 (aget 0 bits i)) -> 0 <= h < 8 * Z.of_nat (length bits) ->
  forall i, is_u8 (aget 0 (add_bit bits h) i).
Proof.
  intros Hb Hh i. unfold add_bit. destruct (or_byte (aget 0 bits (Z.shiftr h 3)) (Z.land h 7) (Hb _) (land_7_range h)) as [-> Hu].
  rewrite aget_aset by (rewrite Z.shiftr_div_pow2 by lia; change (2 ^ 3) with 8; mlia). by case_decide.
Qed.

Lemma add_bits_spec hs bits :
  (forall i, is_u8 (aget 0 bits i)) -> (forall h, h ∈ hs -> 0 <= h < 8 * Z.of_nat (length bits)) ->
  (forall i, is_u8 (aget 0 (foldl add_bit bits hs) i)) /\ length (foldl add_bit bits hs) = length bits /\
  forall h', 0 <= h' -> bit_set (foldl add_bit bits hs) h' = bit_set bits h' || bool_decide (h' ∈ hs).
Proof.
  revert bits. induction hs as [|h hs IH]; intros bits Hb Hr; cbn [foldl].
  { split_and!; [done|done|]. intros h' _. rewrite bool_decide_false by apply not_elem_of_nil. by rewrite orb_false_r. }
  pose proof (Hr h ltac:(by left)) as Hh. assert (length (add_bit bits h) = length bits) as Hlen by apply length_aset.
  destruct (IH (add_bit bits h)) as (H1 & H2 & H3); [by apply add_bit_byte|intros x Hx; rewrite Hlen; apply Hr; by right|].
  split_and!; [done|congruence|]. intros h' Hh'. rewrite H3, add_bit_spec by done. rewrite <- orb_assoc. f_equal.
  destruct (decide (h = h')) as [->|Hne].
  - by rewrite (bool_decide_true (h' = h')), (bool_decide_true (h' ∈ h' :: hs)) by (done || by left).
  - rewrite (bool_decide_false (h = h')) by done. cbn [orb]. apply bool_decide_ext. rewrite elem_of_cons. naive_solver.
Qed.

(** ** Sizes *)

Lemma power_loop_spec n p t :
  0 <= t -> -1 <= p -> p + Z.of_nat n >= 32 ->
  let r := bloom_power_loop n p t in
  p <= r <= Z.max p 32 /\ (0 < t -> p < 32 -> 2 ^ (r - p - 1) <= t /\ (r = 32 \/ t < 2 ^ (r - p))) /\ (t = 0 -> r = p).
Proof.
  revert p t. induction n as [|n IH]; intros p t Ht Hp Hn; cbn [bloom_power_loop].
  { split_and!; [lia..| |done]. lia. }
  destruct (t >? 0) eqn:E1; zbool; cbn [andb].
  2: { split_and!; [lia..| |done]. lia. }
  destruct (p <? 32) eqn:E2; zbool.
  2: { split_and!; [lia..| |lia]. lia. }
  assert (Z.shiftr t 1 = t / 2) as Hs by (by rewrite Z.shiftr_div_pow2). rewrite Hs.
  destruct (IH (p + 1) (t / 2)) as (H1 & H2 & H3); [mlia|lia|lia|]. set (r := bloom_power_loop n (p + 1) (t / 2)) in *.
  split_and!; [lia|lia| |lia]. intros _ _. destruct (decide (t / 2 = 0)) as [E|E].
  - rewrite (H3 E). replace (p + 1 - p - 1) with 0 by lia. replace (p + 1 - p) with 1 by lia. split; [lia|]. right. mlia.
  - destruct (decide (p + 1 < 32)) as [Hlt|Hge].
    + destruct H2 as [H4 H5]; [mlia|done|].
      assert (p + 1 < r) as Hr.
      { destruct (decide (r = p + 1)) as [Er|]; [|lia]. exfalso. rewrite Er in H5.
        replace (p + 1 - (p + 1)) with 0 in H5 by lia. destruct H5 as [H5|H5]; [lia|mlia]. }
      replace (r - p - 1) with (Z.succ (r - (p + 1) - 1)) by lia. rewrite Z.pow_succ_r by lia.
      replace (r - p) with (Z.succ (r - (p + 1))) by lia. rewrite Z.pow_succ_r by lia. split; [mlia|].
      destruct H5 as [->|H5]; [by left|right; mlia].
    + assert (r = 32) as -> by lia. replace (32 - p - 1) with 0 by lia. split; [lia|by left].
Qed.

Lemma my_bloom_power_spec t :
  0 < t -> let p := my_bloom_power t in 0 <= p <= 32 /\ 2 ^ p <= t /\ (p = 32 \/ t < 2 ^ (p + 1)) /\ (8 <= t -> 3 <= p).
Proof.
  intros Ht. destruct (power_loop_spec 33 (-1) t) as (H1 & H2 & _); [lia..|]. fold (my_bloom_power t) in *.
  destruct H2 as [H2 H3]; [lia..|]. set (p := my_bloom_power t) in *.
  replace (p - -1 - 1) with p in H2 by lia. replace (p - -1) with (p + 1) in H3 by lia.
  assert (p <> -1). { intros E. rewrite E in H3. change (2 ^ (-1 + 1)) with 1 in H3. lia. }
  split; [lia|]. split; [done|]. split; [done|]. intros H8. destruct H3 as [->|H3]; [lia|]. destruct (decide (3 <= p)); [done|].
  assert (2 ^ (p + 1) <= 2 ^ 3) by (apply Z.pow_le_mono_r; lia). lia.
Qed.

Section spec.
Context (hash_any_extended : list Z -> Z -> Z) (rint_log2 : Z -> Z -> Z).
Notation k_hashes := (k_hashes hash_any_extended).
Notation bloom_add_element := (bloom_add_element hash_any_extended).
Notation bloom_lacks_element := (bloom_lacks_element hash_any_extended).
Notation optimal_k := (optimal_k rint_log2).
Notation bloom_init_struct := (bloom_init_struct rint_log2).
Notation bloom_create := (bloom_create rint_log2).

(** Every hash is a bit of the bit set. *)
Lemma k_hashes_range f elem h : bloom_wf f -> h ∈ k_hashes f elem -> 0 <= h < bf_m f.
Proof.
  intros [_ (p & Hp & Hm) _ _]. unfold k_hashes. rewrite Hm.
  intros [->|H]%elem_of_cons; [apply mod_m_range; lia|eapply k_hashes_loop_range; [|exact H]; lia].
Qed.

(** ** Adding and testing *)

Lemma add_element_spec f elem :
  bloom_wf f ->
  bloom_wf (bloom_add_element f elem) /\
  forall h, 0 <= h -> bit_set (bf_bitset (bloom_add_element f elem)) h = bit_set (bf_bitset f) h || bool_decide (h ∈ k_hashes f elem).
Proof.
  intros Hwf. pose proof Hwf as [H1 H2 H3 H4].
  destruct (add_bits_spec (k_hashes f elem) (bf_bitset f) H4) as (A1 & A2 & A3).
  { intros h Hh. pose proof (k_hashes_range f elem h Hwf Hh). lia. }
  split; [|exact A3]. split; [exact H1|exact H2| |exact A1].
  change (bf_m f <= 8 * Z.of_nat (length (foldl add_bit (bf_bitset f) (k_hashes f elem)))). by rewrite A2.
Qed.

Lemma k_hashes_add f e elem : k_hashes (bloom_add_element f e) elem = k_hashes f elem.
Proof. done. Qed.

Lemma lacks_spec f elem : bloom_lacks_element f elem = negb (forallb (bit_set (bf_bitset f)) (k_hashes f elem)).
Proof.
  unfold bloom_lacks_element. induction (k_hashes f elem) as [|h hs IH]; [done|].
  cbn [existsb forallb]. by rewrite bit_test, IH, negb_andb.
Qed.

Definition bloom_add_all (f : bloom_filter) (es : list (list Z)) : bloom_filter := foldl bloom_add_element f es.

Lemma add_all_wf f es : bloom_wf f -> bloom_wf (bloom_add_all f es).
Proof. revert f. induction es as [|e es IH]; intros f Hf; [done|]. by apply IH, add_element_spec. Qed.

Lemma lacks_mono f e elem : bloom_wf f -> bloom_lacks_element f elem = false -> bloom_lacks_element (bloom_add_element f e) elem = false.
Proof.
  intros Hf. rewrite !lacks_spec, k_hashes_add, !negb_false_iff, !forallb_forall. intros H h Hh. specialize (H h Hh).
  destruct (add_element_spec f e Hf) as [_ Hs]. pose proof (k_hashes_range f elem h Hf ltac:(by apply list_elem_of_In)).
  by rewrite Hs, H by lia.
Qed.

Lemma lacks_mono_all f es elem : bloom_wf f -> bloom_lacks_element f elem = false -> bloom_lacks_element (bloom_add_all f es) elem = false.
Proof. revert f. induction es as [|e es IH]; intros f Hf H; [done|]. by apply IH; [apply add_element_spec|apply lacks_mono]. Qed.

Lemma lacks_added f elem : bloom_wf f -> bloom_lacks_element (bloom_add_element f elem) elem = false.
Proof.
  intros Hf. rewrite lacks_spec, k_hashes_add, negb_false_iff, forallb_forall. intros h Hh%list_elem_of_In.
  destruct (add_element_spec f elem Hf) as [_ Hs]. pose proof (k_hashes_range f elem h Hf Hh).
  rewrite Hs, bool_decide_true by (done || lia). apply orb_true_r.
Qed.

Lemma added_not_lacking f es elem : bloom_wf f -> elem ∈ es -> bloom_lacks_element (bloom_add_all f es) elem = false.
Proof.
  intros Hf He. apply list_elem_of_split in He as (a & b & ->). unfold bloom_add_all. rewrite foldl_app. cbn [foldl].
  apply lacks_mono_all; [by apply add_element_spec, add_all_wf|by apply lacks_added, add_all_wf].
Qed.

Lemma optimal_k_range bits elems : 1 <= optimal_k bits elems <= MAX_HASH_FUNCS.
Proof. unfold optimal_k, MAX_HASH_FUNCS. lia. Qed.

Lemma bloom_init_wf buf size elems sd :
  25 <= size <= 2 ^ 32 -> Z.of_nat (length buf) = size - BLOOM_HEADER_SIZE -> (forall i, is_u8 (aget 0 buf i)) ->
  bloom_wf (bloom_init_struct buf size elems sd).
Proof.
  intros Hs Hl Hb. unfold bloom_init_struct, BLOOM_HEADER_SIZE, BITS_PER_BYTE in *.
  assert (u64 ((size - 24) * 8) = (size - 24) * 8) as -> by (apply wrap_small; lia).
  destruct (my_bloom_power_spec ((size - 24) * 8)) as (H1 & H2 & _ & Hp); [lia|]. specialize (Hp ltac:(lia)). set (p := my_bloom_power _) in *.
  split; cbn [k_hash_funcs bf_m bf_bitset]; [apply optimal_k_range| |rewrite Z.shiftl_1_l; lia|done].
  exists p. split; [lia|]. apply Z.shiftl_1_l.
Qed.

Lemma zero_bits_clear n h : bit_set (replicate n 0) h = false.
Proof. unfold bit_set. by rewrite aget_replicate, Z.bits_0. Qed.

Lemma zero_filter_lacks f n elem : bf_bitset f = replicate n 0 -> bloom_lacks_element f elem = true.
Proof. intros E. rewrite lacks_spec, E. unfold k_hashes. cbn [forallb]. by rewrite zero_bits_clear. Qed.

(** C40: a created filter is well formed: its bit set is a power of two of
    at most [2^32] bits, entirely allocated, between one and ten hash
    functions are used, and before anything is added it lacks every
    element. *)
Theorem bloom_create_ok total_elems bloom_work_mem sd :
  0 <= bloom_work_mem < 2 ^ 31 ->
  bloom_wf (bloom_create total_elems bloom_work_mem sd) /\
  forall elem, bloom_lacks_element (bloom_create total_elems bloom_work_mem sd) elem = true.
Proof.
  intros Hw. split; [|intros elem; by eapply zero_filter_lacks]. unfold bloom_create.
  set (b := Z.max _ _). assert (2 ^ 20 <= b <= 2 ^ 41) as Hb.
  { unfold b. assert (u64 (bloom_work_mem * 1024) = bloom_work_mem * 1024) as -> by (apply wrap_small; lia). lia. }
  unfold BITS_PER_BYTE. assert (u64 (b * 8) = b * 8) as -> by (apply wrap_small; lia).
  destruct (my_bloom_power_spec (b * 8)) as (H1 & H2 & _ & Hp); [lia|]. specialize (Hp ltac:(lia)). set (p := my_bloom_power _) in *.
  rewrite Z.shiftl_1_l. split; cbn [k_hash_funcs bf_m bf_bitset]; [apply optimal_k_range|by exists p; split; [lia|]| |].
  - rewrite length_replicate. replace p with (p - 3 + 3) by lia. rewrite Z.pow_add_r by lia. change (2 ^ 3) with 8.
    rewrite Z.div_mul by lia. assert (0 <= 2 ^ (p - 3)) by (apply Z.pow_nonneg; lia). lia.
  - intros i. rewrite aget_replicate. unfold is_u8. lia.
Qed.

(** C28: there are no false negatives: an element that was added to a well
    formed filter, before or after any others, is never reported as
    lacking, and the filter stays well formed. *)
Theorem bloom_no_false_negatives f es elem :
  bloom_wf f -> elem ∈ es ->
  bloom_wf (foldl bloom_add_element f es) /\ bloom_lacks_element (foldl bloom_add_element f es) elem = false.
Proof. intros Hf He. split; [by apply add_all_wf|by apply added_not_lacking]. Qed.
End spec.

(** ** Witnesses *)

Lemma bloom_create_ok_witness :
  bloom_wf (bloom_create (fun _ _ => 7) 1000 64 0) /\
  forall elem, bloom_lacks_element jenkins (bloom_create (fun _ _ => 7) 1000 64 0) elem = true.
Proof. apply (bloom_create_ok jenkins (fun _ _ => 7) 1000 64 0). split; [discriminate|reflexivity]. Defined.

Definition demo_filter : bloom_filter := bloom_init_struct (fun _ _ => 7) (replicate 16 0) 40 5 0.

Lemma demo_filter_wf : bloom_wf demo_filter.
Proof.
  apply (bloom_init_wf (fun _ _ => 7) (replicate 16 0) 40 5 0); [split; vm_compute; discriminate|reflexivity|].
  intros i. rewrite aget_replicate. split; [discriminate|reflexivity].
Qed.

Lemma bloom_no_false_negatives_witness :
  (bloom_wf (foldl (bloom_add_element jenkins) demo_filter [[1; 2]; [3; 4]]) /\
   bloom_lacks_element jenkins (foldl (bloom_add_element jenkins) demo_filter [[1; 2]; [3; 4]]) [3; 4] = false) /\
  bloom_lacks_element jenkins (foldl (bloom_add_element jenkins) demo_filter [[1; 2]; [3; 4]]) [5; 6] = true.
Proof.
  split; [|vm_compute; reflexivity].
  apply (bloom_no_false_negatives jenkins demo_filter [[1; 2]; [3; 4]] [3; 4] demo_filter_wf).
  apply elem_of_cons. right. apply elem_of_cons. left. reflexivity.
Defined.
