(* ===== verification/MiniTrans.v ===== *)
(** * Mini transactions (polar_mini_transaction.h, polar_mini_transaction.c)

    While the pages of one WAL record are added to the log index, readers
    must not see some of them without the others: each page of the record
    gets a slot with a page lock in a coalesced hash table, and the
    transaction ends when every slot is released.

    The table refines to a finite map from pages to slots.  Slots are
    numbered from 1, as in the code.  Each critical section under
    [MINI_TRANSACTION_LOCK] is one step; a process then waits for the page
    lock of its slot and takes it in another step.  The page LWLocks
    themselves are not part of the state, only the reference counts and the
    record each process keeps of its locks: any waiting process may get its
    lock, which allows more interleavings than the lock modes do.
    [tag_hash] is PostgreSQL's hash function on tags. *)

From S2P Require Import Prelude BitPos BufTag.

Definition POLAR_INVALID_PAGE_LOCK : Z := 0.
Definition MINI_TRANSACTION_HASH_SIZE : Z := 31.
Definition MINI_TRANSACTION_TABLE_SIZE : Z := MINI_TRANSACTION_HASH_SIZE + MINI_TRANSACTION_HASH_SIZE / 5.

Record mini_trans_info_t := mk_info {
  mi_tag : BufferTag;
  mi_refcount : Z;
  mi_next : Z;
  mi_added : bool
}.
Definition zero_info : mini_trans_info_t := mk_info (mk_tag 0 0 0 0 0) 0 0 false.

Record mini_trans_data_t := mk_trans {
  mt_started : bool;
  mt_lsn : Z;
  mt_occupied : Z;
  mt_info : list mini_trans_info_t
}.

(** What a process remembers of its page locks. *)
Record proc_occupied_mini_trans_t := mk_proc { pt_trans : bool; pt_acquired : list bool }.

(** Entry of slot [i], counted from 1. *)
Definition info_at (t : mini_trans_data_t) (i : Z) : mini_trans_info_t := aget zero_info (mt_info t) (i - 1).
Definition set_info_at (t : mini_trans_data_t) (i : Z) (x : mini_trans_info_t) : mini_trans_data_t :=
  mk_trans (mt_started t) (mt_lsn t) (mt_occupied t) (aset (mt_info t) (i - 1) x).

Definition MINI_TRANS_IS_OCCUPIED (t : mini_trans_data_t) (key : Z) : bool :=
  POLAR_BIT_IS_OCCUPIED (mt_occupied t) key.
Definition MINI_TRANS_OCCUPY (t : mini_trans_data_t) (key : Z) : mini_trans_data_t :=
  mk_trans (mt_started t) (mt_lsn t) (POLAR_BIT_OCCUPY (mt_occupied t) key) (mt_info t).

Definition mini_trans_init : mini_trans_data_t :=
  mk_trans false InvalidXLogRecPtr 0 (replicate (Z.to_nat MINI_TRANSACTION_TABLE_SIZE) zero_info).

Definition polar_logindex_mini_trans_start (t : mini_trans_data_t) (lsn : Z) : outcome mini_trans_data_t :=
  if negb (mt_lsn t =? InvalidXLogRecPtr) || mt_started t then Fault PANIC
  else Done (mk_trans true lsn (mt_occupied t) (mt_info t)).

(** Only the tag, the count and the link are set; [added] keeps its value. *)
Definition mini_trans_set_info (t : mini_trans_data_t) (i : Z) (tag : BufferTag) : mini_trans_data_t :=
  set_info_at t i (mk_info tag 1 0 (mi_added (info_at t i))).

(** The search for an empty bucket from the end of the table; 0 when the
    table is full. *)
Fixpoint find_empty (t : mini_trans_data_t) (n : nat) : Z :=
  match n with
  | O => 0
  | S m => if negb (MINI_TRANS_IS_OCCUPIED t (Z.of_nat n)) then Z.of_nat n else find_empty t m
  end.

(** The last node of a chain. *)
Fixpoint chain_last (fuel : nat) (t : mini_trans_data_t) (i : Z) : outcome Z :=
  match fuel with
  | O => Fault OUT_OF_FUEL
  | S n => if negb (mi_next (info_at t i) =? 0) then chain_last n t (mi_next (info_at t i)) else Done i
  end.

Definition TABLE_FUEL : nat := Z.to_nat MINI_TRANSACTION_TABLE_SIZE.

Definition mini_trans_insert_tag (t : mini_trans_data_t) (tag : BufferTag) (key : Z)
  : outcome (mini_trans_data_t * Z) :=
  if (mt_lsn t =? InvalidXLogRecPtr) || negb (mt_started t) then Fault PANIC
  else if key >=? MINI_TRANSACTION_TABLE_SIZE then Fault PANIC
  else if negb (MINI_TRANS_IS_OCCUPIED t (key + 1)) then
    Done (mini_trans_set_info (MINI_TRANS_OCCUPY t (key + 1)) (key + 1) tag, key + 1)
  else
    let i := find_empty t (Z.to_nat MINI_TRANSACTION_TABLE_SIZE) in
    if i =? 0 then Done (t, i)
    else
      let t := mini_trans_set_info (MINI_TRANS_OCCUPY t i) i tag in
      let! it := chain_last TABLE_FUEL t (key + 1) in
      let x := info_at t it in
      Done (set_info_at t it (mk_info (mi_tag x) (mi_refcount x) i (mi_added x)), i).

Fixpoint find_loop (fuel : nat) (t : mini_trans_data_t) (tag : BufferTag) (i : Z) : outcome Z :=
  match fuel with
  | O => Fault OUT_OF_FUEL
  | S n =>
    if i =? 0 then Done POLAR_INVALID_PAGE_LOCK
    else if BUFFERTAGS_EQUAL tag (mi_tag (info_at t i)) then Done i
    else find_loop n t tag (mi_next (info_at t i))
  end.

Definition mini_trans_find (t : mini_trans_data_t) (tag : BufferTag) (key : Z) : outcome Z :=
  if (mt_lsn t =? InvalidXLogRecPtr) || negb (mt_started t) then Fault PANIC
  else if MINI_TRANS_IS_OCCUPIED t (key + 1) then find_loop (S TABLE_FUEL) t tag (key + 1)
  else Done POLAR_INVALID_PAGE_LOCK.

Definition add_ref (t : mini_trans_data_t) (i d : Z) : mini_trans_data_t :=
  let x := info_at t i in
  set_info_at t i (mk_info (mi_tag x) (u32 (mi_refcount x + d)) (mi_next x) (mi_added x)).

Definition mini_trans_increase_ref (t : mini_trans_data_t) (tag : BufferTag) (key : Z)
  : outcome (mini_trans_data_t * Z) :=
  let! i := mini_trans_find t tag key in
  Done (if negb (i =? POLAR_INVALID_PAGE_LOCK) then add_ref t i 1 else t, i).

(** After the page lock [l] is acquired. *)
Definition proc_acquire (p : proc_occupied_mini_trans_t) (l : Z) : proc_occupied_mini_trans_t :=
  mk_proc true (aset (pt_acquired p) (l - 1) true).

(** What happens outside [MINI_TRANSACTION_LOCK]: the page lock of the slot
    found is acquired, and the caller gets the slot and, through [lsn], the
    LSN read before. *)
Definition page_lock_acquire (t : mini_trans_data_t) (p : proc_occupied_mini_trans_t) (l : Z)
  : mini_trans_data_t * proc_occupied_mini_trans_t * Z * option Z :=
  if negb (l =? POLAR_INVALID_PAGE_LOCK) then (t, proc_acquire p l, l, Some (mt_lsn t))
  else (t, p, l, None).

(** The critical section of [polar_logindex_mini_trans_cond_key_lock]. *)
Definition cond_key_lock_table (t : mini_trans_data_t) (tag : BufferTag) (key : Z)
  : outcome (mini_trans_data_t * Z) :=
  if mt_started t && negb (mt_lsn t =? InvalidXLogRecPtr) then mini_trans_increase_ref t tag key
  else Done (t, POLAR_INVALID_PAGE_LOCK).

Definition polar_logindex_mini_trans_cond_key_lock (t : mini_trans_data_t) (p : proc_occupied_mini_trans_t)
    (tag : BufferTag) (key : Z)
  : outcome (mini_trans_data_t * proc_occupied_mini_trans_t * Z * option Z) :=
  let! (t, l) := cond_key_lock_table t tag key in
  Done (page_lock_acquire t p l).

Definition polar_logindex_mini_trans_key_find (t : mini_trans_data_t) (tag : BufferTag) (key : Z) : outcome Z :=
  if mt_started t && negb (mt_lsn t =? InvalidXLogRecPtr) then
    let! l := mini_trans_find t tag key in
    Done (if negb (l =? POLAR_INVALID_PAGE_LOCK) then mt_lsn t else InvalidXLogRecPtr)
  else Done InvalidXLogRecPtr.

(** The critical section of [polar_logindex_mini_trans_key_lock]. *)
Definition key_lock_table (t : mini_trans_data_t) (tag : BufferTag) (key : Z)
  : outcome (mini_trans_data_t * Z) :=
  let! (t, l) := mini_trans_increase_ref t tag key in
  if negb (l =? POLAR_INVALID_PAGE_LOCK) then Done (t, l) else mini_trans_insert_tag t tag key.

Definition polar_logindex_mini_trans_key_lock (t : mini_trans_data_t) (p : proc_occupied_mini_trans_t)
    (tag : BufferTag) (key : Z)
  : outcome (mini_trans_data_t * proc_occupied_mini_trans_t * Z * option Z) :=
  let! (t, l) := key_lock_table t tag key in
  Done (page_lock_acquire t p l).

Definition polar_logindex_mini_trans_unlock (t : mini_trans_data_t) (p : proc_occupied_mini_trans_t) (l : Z)
  : outcome (mini_trans_data_t * proc_occupied_mini_trans_t) :=
  if (l =? POLAR_INVALID_PAGE_LOCK) || (l >? MINI_TRANSACTION_TABLE_SIZE) then Fault PANIC
  else if negb (pt_trans p) || negb (aget false (pt_acquired p) (l - 1)) then Fault PANIC
  else if negb (MINI_TRANS_IS_OCCUPIED t l) || (mi_refcount (info_at t l) =? 0) then Fault PANIC
  else Done (add_ref t l (-1), mk_proc (pt_trans p) (aset (pt_acquired p) (l - 1) false)).

(** The [for] loop of [polar_logindex_abort_mini_transaction] over the
    slots [l], [l + 1], ..., [n] of them. *)
Fixpoint abort_loop (n : nat) (t : mini_trans_data_t) (p : proc_occupied_mini_trans_t) (l : Z)
  : outcome (mini_trans_data_t * proc_occupied_mini_trans_t) :=
  match n with
  | O => Done (t, p)
  | S n =>
    let! (t, p) := (if aget false (pt_acquired p) (l - 1)
                    then polar_logindex_mini_trans_unlock t p l else Done (t, p)) in
    abort_loop n t p (l + 1)
  end.

Definition polar_logindex_abort_mini_transaction (t : mini_trans_data_t) (p : proc_occupied_mini_trans_t)
  : outcome (mini_trans_data_t * proc_occupied_mini_trans_t) :=
  if negb (pt_trans p) then Done (t, p)
  else
    let! (t, p) := abort_loop TABLE_FUEL t p 1 in
    Done (t, mk_proc false (pt_acquired p)).

(** One pass of the waiting loop of [polar_logindex_mini_trans_end]: are
    all occupied slots released? *)
Definition end_unlock_all (t : mini_trans_data_t) : bool :=
  for_each_bit (fun pos ok => ok && negb (mi_refcount (info_at t pos) >? 0)) (mt_occupied t) true.

(** The loop that clears the occupied slots. *)
Fixpoint end_clear (fuel : nat) (t : mini_trans_data_t) : outcome mini_trans_data_t :=
  if mt_occupied t =? 0 then Done t
  else match fuel with
       | O => Fault OUT_OF_FUEL
       | S n =>
         let pos := POLAR_BIT_LEAST_POS (mt_occupied t) in
         let t := set_info_at t pos zero_info in
         end_clear n (mk_trans (mt_started t) (mt_lsn t) (POLAR_BIT_CLEAR_LEAST (mt_occupied t)) (mt_info t))
       end.

(** The first critical section of [polar_logindex_mini_trans_end]. *)
Definition mini_trans_end_begin (t : mini_trans_data_t) (lsn : Z) : outcome mini_trans_data_t :=
  if negb (mt_lsn t =? lsn) then Fault PANIC
  else Done (mk_trans false (mt_lsn t) (mt_occupied t) (mt_info t)).

(** Its rest, once a pass found every slot released; [None] when the pass
    goes round again. *)
Definition mini_trans_end_finish (t : mini_trans_data_t) : option (outcome mini_trans_data_t) :=
  if negb (end_unlock_all t) then None
  else Some (let! t := end_clear 64 t in
             Done (mk_trans (mt_started t) InvalidXLogRecPtr (mt_occupied t) (mt_info t))).

Definition slot_valid (t : mini_trans_data_t) (lock : Z) : bool :=
  negb ((lock =? POLAR_INVALID_PAGE_LOCK) || (lock >? MINI_TRANSACTION_TABLE_SIZE)
        || negb (MINI_TRANS_IS_OCCUPIED t lock)).

Definition polar_logindex_mini_trans_set_page_added (t : mini_trans_data_t) (lock : Z)
  : outcome mini_trans_data_t :=
  if negb (slot_valid t lock) then Fault PANIC
  else let x := info_at t lock in
       Done (set_info_at t lock (mk_info (mi_tag x) (mi_refcount x) (mi_next x) true)).

Definition polar_logindex_mini_trans_get_page_added (t : mini_trans_data_t) (lock : Z) : outcome bool :=
  if negb (slot_valid t lock) then Fault PANIC else Done (mi_added (info_at t lock)).

(** The entry points that hash the tag. *)
Section hashed.
Context (tag_hash : BufferTag -> Z).

Definition MINI_TRANSACTION_HASH_PAGE (tag : BufferTag) : Z := tag_hash tag mod MINI_TRANSACTION_HASH_SIZE.

Definition polar_logindex_mini_trans_cond_lock (t : mini_trans_data_t) (p : proc_occupied_mini_trans_t)
    (tag : BufferTag) :=
  polar_logindex_mini_trans_cond_key_lock t p tag (MINI_TRANSACTION_HASH_PAGE tag).

Definition polar_logindex_mini_trans_find (t : mini_trans_data_t) (tag : BufferTag) : outcome Z :=
  polar_logindex_mini_trans_key_find t tag (MINI_TRANSACTION_HASH_PAGE tag).

Definition polar_logindex_mini_trans_lock (t : mini_trans_data_t) (p : proc_occupied_mini_trans_t)
    (tag : BufferTag) : outcome (mini_trans_data_t * proc_occupied_mini_trans_t * Z * option Z) :=
  let! (t, p, l, lsn) := polar_logindex_mini_trans_key_lock t p tag (MINI_TRANSACTION_HASH_PAGE tag) in
  if l =? POLAR_INVALID_PAGE_LOCK then Fault PANIC else Done (t, p, l, lsn).
End hashed.

(** ** The invariant *)

Definition tocc (t : mini_trans_data_t) (i : Z) : Prop :=
  1 <= i <= MINI_TRANSACTION_TABLE_SIZE /\ Z.testbit (mt_occupied t) (i - 1) = true.

(** One step along a chain. *)
Definition nx (t : mini_trans_data_t) (a b : Z) : Prop := mi_next (info_at t a) = b /\ b <> 0.

(** Links lead from earlier slots of [ord] to later ones. *)
Definition next_later (t : mini_trans_data_t) (ord : list Z) : Prop :=
  forall a i, ord !! a = Some i ->
    mi_next (info_at t i) = 0 \/ exists b, (a < b)%nat /\ ord !! b = Some (mi_next (info_at t i)).

(** [ord] lists the slots in use in the order they were taken; [h] is the
    bucket of a tag. *)
Record mt_wf (h : BufferTag -> Z) (t : mini_trans_data_t) (ord : list Z) : Prop := {
  mw_len : length (mt_info t) = Z.to_nat MINI_TRANSACTION_TABLE_SIZE;
  mw_occ : 0 <= mt_occupied t < 2 ^ MINI_TRANSACTION_TABLE_SIZE;
  mw_ord : forall i, i ∈ ord <-> tocc t i;
  mw_nodup : NoDup ord;
  mw_next : next_later t ord;
  mw_home : forall i, i ∈ ord -> h (mi_tag (info_at t i)) + 1 ∈ ord;
  mw_reach : forall i, i ∈ ord -> rtc (nx t) (h (mi_tag (info_at t i)) + 1) i;
  mw_tags : forall i j, i ∈ ord -> j ∈ ord -> mi_tag (info_at t i) = mi_tag (info_at t j) -> i = j;
  mw_zero : forall i, 1 <= i <= MINI_TRANSACTION_TABLE_SIZE -> i ∉ ord -> info_at t i = zero_info
}.

Lemma table_size : MINI_TRANSACTION_TABLE_SIZE = 37.
Proof. done. Qed.

Lemma slots_le (ord : list Z) :
  NoDup ord -> (forall i, i ∈ ord -> 1 <= i <= 37) -> (length ord <= 37)%nat.
Proof.
  intros Hnd Hr. assert (ord ⊆+ seqZ 1 37) as Hs.
  { apply NoDup_submseteq; [done|]. intros i Hi. apply elem_of_seqZ. specialize (Hr i Hi). lia. }
  apply submseteq_length in Hs. by rewrite length_seqZ in Hs.
Qed.

Lemma info_at_set t i j x :
  1 <= i <= 37 -> length (mt_info t) = 37%nat ->
  info_at (set_info_at t i x) j = if decide (j = i) then x else info_at t j.
Proof.
  intros Hi Hl. unfold info_at, set_info_at. cbn [mt_info]. rewrite aget_aset by lia.
  case_decide; case_decide; try done; lia.
Qed.

Lemma is_occupied_iff t i :
  1 <= i <= 37 -> MINI_TRANS_IS_OCCUPIED t i = Z.testbit (mt_occupied t) (i - 1).
Proof. intros Hi. unfold MINI_TRANS_IS_OCCUPIED. apply is_occupied_testbit. lia. Qed.

Lemma testbit_above v n j : 0 <= v < 2 ^ n -> n <= j -> Z.testbit v j = false.
Proof.
  intros Hv Hj. destruct (decide (v = 0)) as [->|Hne]; [apply Z.bits_0|].
  assert (0 <= n) by (destruct (decide (n < 0)); [rewrite Z.pow_neg_r in Hv by done|]; lia).
  apply Z.bits_above_log2; [lia|]. apply Z.lt_le_trans with n; [|done]. apply Z.log2_lt_pow2; lia.
Qed.

Section walk.
Context (t : mini_trans_data_t) (ord : list Z) (Hnext : next_later t ord).
Context (Hpos : forall i, i ∈ ord -> 1 <= i).

Lemma find_loop_spec tag fuel a i :
  ord !! a = Some i -> (length ord - a < fuel)%nat ->
  exists r, find_loop fuel t tag i = Done r /\
    ((r = 0 /\ forall j, rtc (nx t) i j -> mi_tag (info_at t j) <> tag) \/
     (r ∈ ord /\ rtc (nx t) i r /\ mi_tag (info_at t r) = tag)).
Proof.
  revert a i. induction fuel as [|n IH]; intros a i Ha Hf; [lia|]. simpl.
  assert (i ∈ ord) as Hi by (by eapply list_elem_of_lookup_2). specialize (Hpos i Hi) as Hi1.
  destruct (i =? 0) eqn:E0; zbool; [lia|]. unfold BUFFERTAGS_EQUAL. case_bool_decide as Ht.
  { exists i. split; [done|]. right. split_and!; [done|apply rtc_refl|done]. }
  pose proof (lookup_lt_Some _ _ _ Ha) as Hlt.
  destruct (Hnext a i Ha) as [Hz|(b & Hab & Hb)].
  - rewrite Hz. exists 0. destruct n as [|n]; [lia|]. split; [done|]. left. split; [done|].
    intros j Hj. destruct Hj as [|x y z [Hn Hnz] _]; [congruence|congruence].
  - pose proof (lookup_lt_Some _ _ _ Hb). destruct (IH b _ Hb ltac:(lia)) as (r & Hr & Hcase).
    exists r. split; [done|]. destruct Hcase as [[-> Hno]|(Hr1 & Hr2 & Hr3)]; [left|right].
    + split; [done|]. intros j Hj. destruct Hj as [|x y z [Hn Hnz] Hrest]; [congruence|].
      subst y. by apply Hno.
    + split_and!; [done| |done]. eapply rtc_l; [|exact Hr2]. split; [done|].
      assert (mi_next (info_at t i) ∈ ord) as Hin by (by eapply list_elem_of_lookup_2).
      specialize (Hpos _ Hin). lia.
Qed.

Lemma chain_last_spec fuel a i :
  ord !! a = Some i -> (length ord - a <= fuel)%nat ->
  exists e, chain_last fuel t i = Done e /\ e ∈ ord /\ rtc (nx t) i e /\ mi_next (info_at t e) = 0.
Proof.
  revert a i. induction fuel as [|n IH]; intros a i Ha Hf.
  { apply lookup_lt_Some in Ha. lia. }
  simpl. assert (i ∈ ord) as Hi by (by eapply list_elem_of_lookup_2).
  destruct (mi_next (info_at t i) =? 0) eqn:E; zbool; simpl.
  { exists i. split_and!; [done|done|apply rtc_refl|done]. }
  destruct (Hnext a i Ha) as [Hz|(b & Hab & Hb)]; [done|].
  pose proof (lookup_lt_Some _ _ _ Hb). destruct (IH b _ Hb ltac:(lia)) as (e & He & H1 & H2 & H3).
  exists e. split_and!; try done. by eapply rtc_l; [split|exact H2].
Qed.
End walk.

Lemma info_at_out t i : length (mt_info t) = 37%nat -> ~ 1 <= i <= 37 -> info_at t i = zero_info.
Proof.
  intros Hl Hi. unfold info_at, aget. case_decide; [|done]. by rewrite lookup_ge_None_2 by lia.
Qed.

Section table.
Context (h : BufferTag -> Z) (t : mini_trans_data_t) (ord : list Z) (Hwf : mt_wf h t ord).

Lemma mt_slot_range i : i ∈ ord -> 1 <= i <= 37.
Proof. intros Hi. by apply (mw_ord _ _ _ Hwf) in Hi as [? _]. Qed.

Lemma mt_slots_le : (length ord <= 37)%nat.
Proof. apply slots_le; [apply Hwf|apply mt_slot_range]. Qed.

Lemma mt_occupied_iff i : 1 <= i <= 37 -> MINI_TRANS_IS_OCCUPIED t i = true <-> i ∈ ord.
Proof.
  intros Hi. rewrite is_occupied_iff by done. rewrite (mw_ord _ _ _ Hwf). unfold tocc. rewrite table_size. tauto.
Qed.

(** Looking a page up finds its slot if it has one. *)
Lemma find_spec tag :
  mt_started t = true -> mt_lsn t <> 0 -> 0 <= h tag < 37 ->
  exists r, mini_trans_find t tag (h tag) = Done r /\
    ((r ∈ ord /\ mi_tag (info_at t r) = tag) \/
     (r = 0 /\ forall i, i ∈ ord -> mi_tag (info_at t i) <> tag)).
Proof.
  intros Hs Hl Hk. unfold mini_trans_find, InvalidXLogRecPtr.
  destruct (mt_lsn t =? 0) eqn:E; zbool; [done|]. rewrite Hs. simpl negb. cbn [orb]. cbv iota.
  destruct (MINI_TRANS_IS_OCCUPIED t (h tag + 1)) eqn:Eo.
  - apply mt_occupied_iff in Eo; [|lia]. apply list_elem_of_lookup_1 in Eo as [a Ha].
    destruct (find_loop_spec t ord (mw_next _ _ _ Hwf) (fun i Hi => proj1 (mt_slot_range i Hi))
      tag (S TABLE_FUEL) a (h tag + 1) Ha) as (r & Hr & Hcase).
    { pose proof mt_slots_le. change (S TABLE_FUEL) with 38%nat. lia. }
    exists r. split; [done|]. destruct Hcase as [[-> Hno]|(H1 & _ & H3)]; [right|by left].
    split; [done|]. intros i Hi Ht. apply (Hno i); [|done]. rewrite <- Ht. by apply (mw_reach _ _ _ Hwf).
  - exists 0. split; [done|]. right. split; [done|]. intros i Hi Ht.
    assert (MINI_TRANS_IS_OCCUPIED t (h tag + 1) = true); [|congruence].
    apply mt_occupied_iff; [lia|]. rewrite <- Ht. by apply (mw_home _ _ _ Hwf).
Qed.

Lemma find_empty_spec n :
  (n <= 37)%nat ->
  (find_empty t n = 0 /\ forall i, 1 <= i <= Z.of_nat n -> i ∈ ord) \/
  (1 <= find_empty t n <= Z.of_nat n /\ find_empty t n ∉ ord).
Proof.
  induction n as [|n IH]; intros Hn; [left; split; [done|lia]|]. cbn [find_empty].
  destruct (MINI_TRANS_IS_OCCUPIED t (Z.of_nat (S n))) eqn:E; cbn [negb]; cbv iota.
  - apply mt_occupied_iff in E; [|lia]. destruct (IH ltac:(lia)) as [[H1 H2]|[H1 H2]]; [left|right].
    + split; [done|]. intros i Hi. destruct (decide (i = Z.of_nat (S n))) as [->|]; [done|]. apply H2. lia.
    + split; [lia|done].
  - right. split; [lia|]. intros Hin. apply mt_occupied_iff in Hin; [congruence|lia].
Qed.

(** Taking a new slot [l] and linking it behind [e]. *)
Lemma wf_new_slot t' l tag (e : option Z) :
  1 <= l <= 37 -> l ∉ ord -> (forall i, i ∈ ord -> mi_tag (info_at t i) <> tag) ->
  length (mt_info t') = 37%nat -> mt_occupied t' = POLAR_BIT_OCCUPY (mt_occupied t) l ->
  (forall j, 1 <= j <= 37 -> info_at t' j =
     if decide (j = l) then mk_info tag 1 0 false
     else let x := info_at t j in
          mk_info (mi_tag x) (mi_refcount x) (if decide (Some j = e) then l else mi_next x) (mi_added x)) ->
  match e with
  | None => h tag + 1 = l
  | Some e => e ∈ ord /\ mi_next (info_at t e) = 0 /\ h tag + 1 ∈ ord /\ rtc (nx t) (h tag + 1) e
  end ->
  mt_wf h t' (ord ++ [l]).
Proof.
  intros Hl Hnl Habs Hlen Hocc Hinfo He. pose proof mt_slot_range as Hr.
  pose proof (mw_len _ _ _ Hwf) as Hlen0. change (Z.to_nat MINI_TRANSACTION_TABLE_SIZE) with 37%nat in Hlen0.
  assert (0 <= mt_occupied t < 2 ^ 64) as Ho64.
  { pose proof (mw_occ _ _ _ Hwf) as Ho. rewrite table_size in Ho.
    assert (2 ^ 37 < 2 ^ 64) by (apply Z.pow_lt_mono_r; lia). lia. }
  assert (forall j, j ∈ ord -> mi_tag (info_at t' j) = mi_tag (info_at t j)) as Htag.
  { intros j Hj. rewrite Hinfo by auto. rewrite decide_False by (by intros ->). done. }
  assert (mi_tag (info_at t' l) = tag) as Htl by (rewrite Hinfo, decide_True; done).
  assert (forall a b, nx t a b -> nx t' a b) as Hsub.
  { intros a b [Hab Hb]. split; [|done].
    destruct (decide (1 <= a <= 37)) as [Ha|Ha]; [|by rewrite info_at_out in Hab by done].
    rewrite Hinfo by done. rewrite decide_False.
    2:{ intros ->. rewrite (mw_zero _ _ _ Hwf) in Hab by done. simpl in Hab. congruence. }
    simpl. rewrite decide_False; [done|]. intros <-. destruct He as (_ & Hz & _). congruence. }
  assert (forall a b, rtc (nx t) a b -> rtc (nx t') a b) as Hrtc.
  { intros a b. apply rtc_subrel. intros x y. apply Hsub. }
  split.
  - done.
  - rewrite Hocc. pose proof (occupy_range (mt_occupied t) l Ho64 ltac:(lia)) as Hor. split; [lia|].
    apply bits_below_lt; [lia|done|]. intros j Hj. rewrite occupy_testbit in Hj by (done || lia).
    apply orb_true_iff in Hj as [Hj|Hj].
    + pose proof (mw_occ _ _ _ Hwf) as Ho. destruct (decide (j < MINI_TRANSACTION_TABLE_SIZE)); [done|].
      rewrite (testbit_above (mt_occupied t) MINI_TRANSACTION_TABLE_SIZE) in Hj; [done|done|lia].
    + apply bool_decide_eq_true in Hj. rewrite table_size. lia.
  - intros i. rewrite elem_of_app, list_elem_of_singleton, (mw_ord _ _ _ Hwf). unfold tocc.
    rewrite Hocc, occupy_testbit by (done || lia). rewrite orb_true_iff, bool_decide_eq_true, table_size.
    split; [intros [[? ?]| ->]; [auto|split; [done|by right]]|]. intros [? [?|?]]; [by left|right; lia].
  - apply NoDup_app. split_and!; [apply Hwf| |apply NoDup_singleton].
    intros x Hx. rewrite list_elem_of_singleton. by intros ->.
  - intros a i Ha. destruct (decide (a < length ord)%nat) as [Hlt|Hge].
    + rewrite lookup_app_l in Ha by done. assert (i ∈ ord) as Hi by (by eapply list_elem_of_lookup_2).
      rewrite Hinfo by auto. rewrite decide_False by (by intros ->). simpl. case_decide as Hie.
      * right. exists (length ord). split; [done|]. rewrite lookup_app_r by lia. by rewrite Nat.sub_diag.
      * destruct (mw_next _ _ _ Hwf a i Ha) as [?|(b & Hab & Hb)]; [by left|right].
        exists b. split; [done|]. by apply lookup_app_l_Some.
    + rewrite lookup_app_r in Ha by lia. destruct (a - length ord)%nat as [|k] eqn:Ek; [|by destruct k].
      simpl in Ha. injection Ha as <-. left. by rewrite Hinfo, decide_True.
  - intros i Hi. apply elem_of_app in Hi as [Hi|Hi].
    + rewrite Htag by done. apply elem_of_app. left. by apply (mw_home _ _ _ Hwf).
    + assert (i = l) as -> by set_solver. rewrite Htl. apply elem_of_app.
      destruct e as [e|]; [left; tauto|right; rewrite He; set_solver].
  - intros i Hi. apply elem_of_app in Hi as [Hi|Hi].
    + rewrite Htag by done. apply Hrtc. by apply (mw_reach _ _ _ Hwf).
    + assert (i = l) as -> by set_solver. rewrite Htl. destruct e as [e|]; [|rewrite He; apply rtc_refl].
      destruct He as (He1 & He2 & _ & He4). eapply rtc_r; [by apply Hrtc|]. split; [|lia].
      rewrite Hinfo by auto. rewrite decide_False by (by intros ->). simpl. by rewrite decide_True.
  - intros i j Hi Hj. apply elem_of_app in Hi as [Hi|Hi], Hj as [Hj|Hj].
    + rewrite !Htag by done. by apply (mw_tags _ _ _ Hwf).
    + assert (j = l) as -> by set_solver. rewrite Htl, Htag by done. intros E. by destruct (Habs i Hi).
    + assert (i = l) as -> by set_solver. rewrite Htl, Htag by done. intros E. by destruct (Habs j Hj).
    + set_solver.
  - intros i Hi Hni. rewrite Hinfo by done. assert (i <> l /\ i ∉ ord) as [Hil Hio] by set_solver.
    rewrite decide_False by done. rewrite (mw_zero _ _ _ Hwf i Hi Hio). simpl.
    rewrite decide_False; [done|]. intros <-. by destruct He.
Qed.

(** What a change keeps of the entries in use. *)
Definition same_data (t t' : mini_trans_data_t) (l : list Z) : Prop :=
  forall j, j ∈ l -> mi_tag (info_at t' j) = mi_tag (info_at t j) /\
    mi_refcount (info_at t' j) = mi_refcount (info_at t j) /\ mi_added (info_at t' j) = mi_added (info_at t j).

Lemma set_info_at_info t0 l tag j :
  length (mt_info t0) = 37%nat -> 1 <= l <= 37 -> 
  info_at (mini_trans_set_info (MINI_TRANS_OCCUPY t0 l) l tag) j =
  if decide (j = l) then mk_info tag 1 0 (mi_added (info_at t0 l)) else info_at t0 j.
Proof. intros Hl Hj. unfold mini_trans_set_info. by rewrite info_at_set. Qed.

Lemma insert_spec tag :
  mt_started t = true -> mt_lsn t <> 0 -> 0 <= h tag < 37 ->
  (forall i, i ∈ ord -> mi_tag (info_at t i) <> tag) ->
  exists t' l, mini_trans_insert_tag t tag (h tag) = Done (t', l) /\
    mt_started t' = true /\ mt_lsn t' = mt_lsn t /\
    ((l = 0 /\ t' = t /\ length ord = 37%nat) \/
     (1 <= l <= 37 /\ l ∉ ord /\ mt_wf h t' (ord ++ [l]) /\ same_data t t' ord /\
      mi_tag (info_at t' l) = tag /\ mi_refcount (info_at t' l) = 1 /\ mi_added (info_at t' l) = false)).
Proof.
  intros Hs Hlsn Hk Habs. unfold mini_trans_insert_tag, InvalidXLogRecPtr.
  pose proof (mw_len _ _ _ Hwf) as Hlen. change (Z.to_nat MINI_TRANSACTION_TABLE_SIZE) with 37%nat in Hlen.
  destruct (mt_lsn t =? 0) eqn:E; zbool; [done|]. rewrite Hs. cbn [negb orb]. cbv iota.
  destruct (h tag >=? MINI_TRANSACTION_TABLE_SIZE) eqn:Ek; zbool; [rewrite table_size in Ek; lia|].
  assert (forall l, 1 <= l <= 37 -> l ∉ ord -> mi_added (info_at t l) = false) as Hadd.
  { intros l Hl Hn. by rewrite (mw_zero _ _ _ Hwf). }
  destruct (MINI_TRANS_IS_OCCUPIED t (h tag + 1)) eqn:Eo; cbn [negb]; cbv iota.
  2:{ set (l := h tag + 1) in *. assert (1 <= l <= 37) as Hl by (unfold l; lia).
      assert (l ∉ ord) as Hnl by (intros Hin; apply mt_occupied_iff in Hin; [congruence|done]).
      set (t' := mini_trans_set_info (MINI_TRANS_OCCUPY t l) l tag). exists t', l.
      split; [done|]. split; [done|]. split; [done|]. right.
      assert (forall j, info_at t' j = if decide (j = l) then mk_info tag 1 0 (mi_added (info_at t l))
                                       else info_at t j) as Hi by (intros; by apply set_info_at_info).
      split_and!; try done; try lia.
      - apply (wf_new_slot t' l tag None); try done.
        + simpl. by rewrite length_aset.
        + intros j Hj. rewrite Hi. rewrite Hadd by done. destruct (decide (j = l)); [done|].
          simpl. by destruct (info_at t j).
      - intros j Hj. rewrite Hi, decide_False by (by intros ->). done.
      - by rewrite Hi, decide_True.
      - by rewrite Hi, decide_True.
      - rewrite Hi, decide_True by done. by apply Hadd. }
  change (Z.to_nat MINI_TRANSACTION_TABLE_SIZE) with 37%nat.
  destruct (find_empty_spec 37 ltac:(lia)) as [[-> Hall]|[Hl Hnl]].
  { exists t, 0. split_and!; try done. left. split_and!; [done|done|].
    assert (seqZ 1 37 ⊆+ ord) as Hsub.
    { apply NoDup_submseteq; [apply NoDup_seqZ|]. intros i Hi. apply elem_of_seqZ in Hi. apply Hall. lia. }
    apply submseteq_length in Hsub. rewrite length_seqZ in Hsub. pose proof mt_slots_le. lia. }
  set (l := find_empty t 37) in *. destruct (l =? 0) eqn:El; zbool; [lia|].
  set (t1 := mini_trans_set_info (MINI_TRANS_OCCUPY t l) l tag).
  assert (1 <= l <= 37) as Hl37 by lia.
  assert (forall j, info_at t1 j = if decide (j = l) then mk_info tag 1 0 (mi_added (info_at t l))
                                   else info_at t j) as Hi1 by (intros; by apply set_info_at_info).
  apply mt_occupied_iff in Eo; [|lia]. pose proof Eo as Hhome.
  apply list_elem_of_lookup_1 in Eo as [a Ha].
  assert (forall j, j ∈ ord -> info_at t1 j = info_at t j) as Hsame
    by (intros j Hj; rewrite Hi1, decide_False; [done|by intros ->]).
  destruct (chain_last_spec t1 ord) with (fuel := TABLE_FUEL) (a := a) (i := h tag + 1)
    as (e & He & Heo & Hre & Hz).
  { intros b i Hb. rewrite Hsame by (by eapply list_elem_of_lookup_2). by apply (mw_next _ _ _ Hwf). }
  { done. }
  { pose proof mt_slots_le. change TABLE_FUEL with 37%nat. lia. }
  rewrite He. cbn [obind]. rewrite Hsame in Hz by done. rewrite (Hsame e Heo).
  set (t' := set_info_at t1 e _). exists t', l. split; [done|]. split; [done|]. split; [done|]. right.
  assert (length (mt_info t1) = 37%nat) as Hlen1 by (simpl; by rewrite length_aset).
  assert (e <> l) as Hel by (by intros ->).
  assert (forall j, info_at t' j = if decide (j = e) then
            mk_info (mi_tag (info_at t e)) (mi_refcount (info_at t e)) l (mi_added (info_at t e))
            else info_at t1 j) as Hi'.
  { intros j. unfold t'. rewrite info_at_set; [done|by apply mt_slot_range|done]. }
  assert (rtc (nx t) (h tag + 1) e) as Hreach.
  { clear -Hre Hi1 Hnl Hwf Hl37. induction Hre as [|x y z [Hxy Hy] _ IH]; [apply rtc_refl|].
    eapply rtc_l; [|exact IH]. split; [|done]. rewrite Hi1 in Hxy. case_decide; [|done].
    simpl in Hxy. congruence. }
  split_and!; try done; try lia.
  - apply (wf_new_slot t' l tag (Some e)); try done.
    + simpl. by rewrite !length_aset.
    + intros j Hj. rewrite Hi'. destruct (decide (j = e)) as [->|Hje].
      * rewrite decide_False by done. simpl. by rewrite decide_True.
      * rewrite Hi1. rewrite Hadd by done. case_decide; [done|]. simpl.
        rewrite decide_False by congruence. by destruct (info_at t j).
  - intros j Hj. rewrite Hi'. destruct (decide (j = e)) as [->|]; [done|]. by rewrite Hsame.
  - rewrite Hi', decide_False by done. by rewrite Hi1, decide_True.
  - rewrite Hi', decide_False by done. by rewrite Hi1, decide_True.
  - rewrite Hi', decide_False by done. rewrite Hi1, decide_True by done. by apply Hadd.
Qed.

Lemma full_elem : length ord = 37%nat -> forall i, 1 <= i <= 37 -> i ∈ ord.
Proof.
  intros Hfull i Hi. assert (ord ⊆+ seqZ 1 37) as Hsub.
  { apply NoDup_submseteq; [apply (mw_nodup _ _ _ Hwf)|]. intros j Hj. apply elem_of_seqZ.
    pose proof (mt_slot_range j Hj). lia. }
  rewrite (submseteq_length_Permutation _ _ Hsub) by (rewrite length_seqZ; lia). apply elem_of_seqZ. lia.
Qed.

(** Changing counts and marks only. *)
Lemma wf_same_links t' :
  length (mt_info t') = length (mt_info t) -> mt_occupied t' = mt_occupied t ->
  (forall j, mi_tag (info_at t' j) = mi_tag (info_at t j) /\ mi_next (info_at t' j) = mi_next (info_at t j)) ->
  (forall j, j ∉ ord -> info_at t' j = info_at t j) -> mt_wf h t' ord.
Proof.
  intros Hl Ho Hj Hz. destruct Hwf as [H1 H2 H3 H4 H5 H6 H7 H8 H9].
  assert (forall j, mi_tag (info_at t' j) = mi_tag (info_at t j)) as Ht by (intros; by apply Hj).
  assert (forall a b, nx t a b -> nx t' a b) as Hnx by (intros a b; unfold nx; by rewrite (proj2 (Hj a))).
  split.
  - congruence.
  - by rewrite Ho.
  - intros i. unfold tocc. rewrite Ho. apply H3.
  - done.
  - intros a i Ha. rewrite (proj2 (Hj i)). by apply H5.
  - intros i Hi. rewrite Ht. by apply H6.
  - intros i Hi. rewrite Ht. specialize (H7 i Hi). revert H7. apply rtc_subrel. intros a b. apply Hnx.
  - intros i j Hi Hj'. rewrite !Ht. by apply H8.
  - intros i Hi Hni. rewrite Hz by done. by apply H9.
Qed.

Lemma add_ref_wf i d : i ∈ ord ->
  mt_wf h (add_ref t i d) ord /\
  (forall j, info_at (add_ref t i d) j = if decide (j = i) then
     let x := info_at t i in mk_info (mi_tag x) (u32 (mi_refcount x + d)) (mi_next x) (mi_added x)
   else info_at t j).
Proof.
  intros Hi. pose proof (mw_len _ _ _ Hwf) as Hlen. change (Z.to_nat MINI_TRANSACTION_TABLE_SIZE) with 37%nat in Hlen.
  assert (forall j, info_at (add_ref t i d) j = if decide (j = i) then
     let x := info_at t i in mk_info (mi_tag x) (u32 (mi_refcount x + d)) (mi_next x) (mi_added x)
   else info_at t j) as Hj.
  { intros j. unfold add_ref. apply info_at_set; [by apply mt_slot_range|done]. }
  split; [|done]. apply wf_same_links.
  - simpl. apply length_aset.
  - done.
  - intros j. rewrite Hj. by destruct (decide (j = i)) as [->|].
  - intros j Hnj. rewrite Hj, decide_False; [done|]. by intros ->.
Qed.
End table.
