(* ===== verification/MiniTransSteps.v ===== *)
(** * Mini transactions among several processes

    The operations of [MiniTrans] as steps of a system of processes that
    share one table, and what holds in every state they reach: the
    reference count of a slot is the number of processes that hold or wait
    for its page lock, releasing never PANICs, the transaction ends exactly
    when nobody has a page lock any more, and its table is then as new. *)

From S2P Require Import Prelude BitPos BufTag MiniTrans.

(** ** What the critical sections do to the map from pages to slots *)

Section locking.
Context (h : BufferTag -> Z) (Hh : forall tag, 0 <= h tag < 37).

(** The table holds the finite map [M]. *)
Definition mt_abs (t : mini_trans_data_t) (M : BufferTag -> option Z) : Prop :=
  exists ord, mt_wf h t ord /\
    forall tag l, M tag = Some l <-> l ∈ ord /\ mi_tag (info_at t l) = tag.

Lemma increase_ref_spec t ord tag :
  mt_wf h t ord -> mt_started t = true -> mt_lsn t <> 0 ->
  (exists l, mini_trans_increase_ref t tag (h tag) = Done (add_ref t l 1, l) /\
     l ∈ ord /\ mi_tag (info_at t l) = tag) \/
  (mini_trans_increase_ref t tag (h tag) = Done (t, 0) /\
     forall i, i ∈ ord -> mi_tag (info_at t i) <> tag).
Proof.
  intros Hwf Hs Hl. unfold mini_trans_increase_ref.
  destruct (find_spec h t ord Hwf tag Hs Hl (Hh tag)) as (r & -> & [[Hr Ht]|[-> Hno]]); cbn [obind].
  - left. exists r. pose proof (mt_slot_range h t ord Hwf r Hr). unfold POLAR_INVALID_PAGE_LOCK.
    destruct (r =? 0) eqn:E; zbool; [lia|]. done.
  - right. done.
Qed.

(** The two outcomes of asking for a page lock when the transaction is
    open. *)
Lemma key_lock_table_spec t ord tag :
  mt_wf h t ord -> mt_started t = true -> mt_lsn t <> 0 ->
  (exists l, key_lock_table t tag (h tag) = Done (add_ref t l 1, l) /\
     l ∈ ord /\ mi_tag (info_at t l) = tag) \/
  ((forall i, i ∈ ord -> mi_tag (info_at t i) <> tag) /\
   exists t' l, key_lock_table t tag (h tag) = Done (t', l) /\
    mt_started t' = true /\ mt_lsn t' = mt_lsn t /\
    ((l = 0 /\ t' = t /\ length ord = 37%nat) \/
     (1 <= l <= 37 /\ l ∉ ord /\ mt_wf h t' (ord ++ [l]) /\ same_data t t' ord /\
      mi_tag (info_at t' l) = tag /\ mi_refcount (info_at t' l) = 1 /\ mi_added (info_at t' l) = false))).
Proof.
  intros Hwf Hs Hl. unfold key_lock_table.
  destruct (increase_ref_spec t ord tag Hwf Hs Hl) as [(l & -> & Hl1 & Hl2)|[-> Hno]]; cbn [obind].
  - left. exists l. pose proof (mt_slot_range h t ord Hwf l Hl1). unfold POLAR_INVALID_PAGE_LOCK.
    destruct (l =? 0) eqn:E; zbool; [lia|]. done.
  - right. split; [done|]. cbn [negb]. exact (insert_spec h t ord Hwf tag Hs Hl (Hh tag) Hno).
Qed.

Lemma add_ref_fields t i d :
  mt_started (add_ref t i d) = mt_started t /\ mt_lsn (add_ref t i d) = mt_lsn t.
Proof. done. Qed.

(** The map determines what lookups return. *)
Lemma key_find_abs t M tag :
  mt_abs t M -> mt_started t = true -> mt_lsn t <> 0 ->
  polar_logindex_mini_trans_key_find t tag (h tag) = Done (if M tag then mt_lsn t else InvalidXLogRecPtr).
Proof.
  intros (ord & Hwf & HM) Hs Hl. unfold polar_logindex_mini_trans_key_find, InvalidXLogRecPtr.
  destruct (mt_lsn t =? 0) eqn:E; zbool; [done|]. rewrite Hs. cbn [andb negb].
  destruct (find_spec h t ord Hwf tag Hs Hl (Hh tag)) as (r & -> & [[Hr Ht]|[-> Hno]]); cbn [obind].
  - pose proof (mt_slot_range h t ord Hwf r Hr). rewrite (proj2 (HM tag r)) by done.
    unfold POLAR_INVALID_PAGE_LOCK. by destruct (r =? 0) eqn:Er; zbool; [lia|].
  - destruct (M tag) as [l|] eqn:EM; [|done]. apply HM in EM as [Hl1 Hl2]. by destruct (Hno l Hl1).
Qed.

Lemma key_lock_abs t M tag :
  mt_abs t M -> mt_started t = true -> mt_lsn t <> 0 ->
  exists t' l, key_lock_table t tag (h tag) = Done (t', l) /\
    mt_started t' = true /\ mt_lsn t' = mt_lsn t /\
    match M tag with
    | Some l0 => l = l0 /\ mt_abs t' M
    | None =>
      (l = 0 /\ t' = t /\ forall i, 1 <= i <= 37 -> exists tag', M tag' = Some i) \/
      (1 <= l <= 37 /\ (forall tag', M tag' <> Some l) /\
       mt_abs t' (fun tag' => if decide (tag' = tag) then Some l else M tag'))
    end.
Proof.
  intros (ord & Hwf & HM) Hs Hl.
  destruct (key_lock_table_spec t ord tag Hwf Hs Hl) as [(l & Hk & Hl1 & Hl2)|(Hno & t' & l & Hk & Hs' & Hl' & Hc)].
  - exists (add_ref t l 1), l. rewrite (proj2 (HM tag l)) by done. split_and!; [done..|].
    destruct (add_ref_wf h t ord Hwf l 1 Hl1) as [Hwf' Hi]. exists ord. split; [done|].
    intros tag' l'. rewrite HM, Hi. by destruct (decide (l' = l)) as [->|].
  - exists t', l. assert (M tag = None) as ->.
    { destruct (M tag) as [l'|] eqn:E; [|done]. apply HM in E as [E1 E2]. by destruct (Hno l' E1). }
    split_and!; [done..|]. destruct Hc as [(-> & -> & Hfull)|(Hr & Hnl & Hwf' & Hsame & Htl & _)].
    + left. split_and!; [done..|]. intros i Hi. exists (mi_tag (info_at t i)). apply HM. split; [|done].
      apply (full_elem h t ord Hwf Hfull i Hi).
    + right. split_and!; [lia..| |].
      { intros tag' E. apply HM in E as [E _]. done. }
      exists (ord ++ [l]). split; [done|]. intros tag' l'. rewrite elem_of_app, list_elem_of_singleton.
      destruct (decide (tag' = tag)) as [->|Hne].
      * split; [intros [= ->]; by split; [right|]|]. intros [[Hin|Hin] E]; [|congruence].
        destruct (Hno l' Hin). by rewrite <- E, (proj1 (Hsame l' Hin)).
      * rewrite HM. split.
        -- intros [Hin E]. split; [by left|]. by rewrite (proj1 (Hsame l' Hin)).
        -- intros [[Hin| ->] E]; [|congruence]. by rewrite (proj1 (Hsame l' Hin)) in E.
Qed.
End locking.

(** ** The system *)

(** A process: its own record, and the slot whose page lock it waits for. *)
Record mproc := mk_mproc { mp_occ : proc_occupied_mini_trans_t; mp_wait : option Z }.

Record msys := mk_msys { ms_trans : mini_trans_data_t; ms_procs : list mproc }.

Definition fresh_proc : mproc :=
  mk_mproc (mk_proc false (replicate (Z.to_nat MINI_TRANSACTION_TABLE_SIZE) false)) None.

Definition msys_init (n : nat) : msys := mk_msys mini_trans_init (replicate n fresh_proc).

Definition holds (p : mproc) (l : Z) : bool := aget false (pt_acquired (mp_occ p)) (l - 1).
Definition waits (p : mproc) (l : Z) : bool := bool_decide (mp_wait p = Some l).

(** Process [i] becomes [p]. *)
Definition upd_proc (ps : list mproc) (i : nat) (p : mproc) : list mproc := <[i := p]> ps.

(** How many holds and waits there are for slot [l]. *)
Definition users (ps : list mproc) (l : Z) : Z :=
  foldr (fun p n => Z.b2z (holds p l) + Z.b2z (waits p l) + n) 0 ps.

Section system.
Context (h : BufferTag -> Z) (Hh : forall tag, 0 <= h tag < 37).

Inductive mstep : msys -> msys -> Prop :=
| step_start t ps lsn t' :
    lsn <> InvalidXLogRecPtr -> polar_logindex_mini_trans_start t lsn = Done t' ->
    mstep (mk_msys t ps) (mk_msys t' ps)
| step_request t ps i p tag t' l :
    ps !! i = Some p -> mp_wait p = None -> key_lock_table t tag (h tag) = Done (t', l) ->
    l <> POLAR_INVALID_PAGE_LOCK ->
    mstep (mk_msys t ps) (mk_msys t' (upd_proc ps i (mk_mproc (mp_occ p) (Some l))))
| step_cond_request t ps i p tag t' l :
    ps !! i = Some p -> mp_wait p = None -> cond_key_lock_table t tag (h tag) = Done (t', l) ->
    l <> POLAR_INVALID_PAGE_LOCK ->
    mstep (mk_msys t ps) (mk_msys t' (upd_proc ps i (mk_mproc (mp_occ p) (Some l))))
| step_grant t ps i p l :
    ps !! i = Some p -> mp_wait p = Some l -> holds p l = false ->
    mstep (mk_msys t ps) (mk_msys t (upd_proc ps i (mk_mproc (proc_acquire (mp_occ p) l) None)))
| step_unlock t ps i p l t' o :
    ps !! i = Some p -> mp_wait p = None ->
    polar_logindex_mini_trans_unlock t (mp_occ p) l = Done (t', o) ->
    mstep (mk_msys t ps) (mk_msys t' (upd_proc ps i (mk_mproc o None)))
| step_abort t ps i p t' o :
    ps !! i = Some p -> mp_wait p = None ->
    polar_logindex_abort_mini_transaction t (mp_occ p) = Done (t', o) ->
    mstep (mk_msys t ps) (mk_msys t' (upd_proc ps i (mk_mproc o None)))
| step_set_added t ps l t' :
    is_u32 l -> polar_logindex_mini_trans_set_page_added t l = Done t' ->
    mstep (mk_msys t ps) (mk_msys t' ps)
| step_end_begin t ps lsn t' :
    lsn <> InvalidXLogRecPtr -> mini_trans_end_begin t lsn = Done t' ->
    mstep (mk_msys t ps) (mk_msys t' ps)
| step_end_finish t ps t' :
    mt_started t = false -> mt_lsn t <> InvalidXLogRecPtr -> mini_trans_end_finish t = Some (Done t') ->
    mstep (mk_msys t ps) (mk_msys t' ps).

Record msys_wf (s : msys) (ord : list Z) : Prop := {
  sw_table : mt_wf h (ms_trans s) ord;
  sw_refs : forall l, l ∈ ord -> mi_refcount (info_at (ms_trans s) l) = users (ms_procs s) l;
  sw_users : forall l p, p ∈ ms_procs s -> holds p l = true \/ waits p l = true -> l ∈ ord;
  sw_held : forall l p, p ∈ ms_procs s -> holds p l = true -> pt_trans (mp_occ p) = true;
  sw_arrays : forall p, p ∈ ms_procs s -> length (pt_acquired (mp_occ p)) = 37%nat;
  sw_idle : mt_lsn (ms_trans s) = 0 -> ord = [] /\ mt_started (ms_trans s) = false
}.

(** ** Counting *)

Lemma users_upd ps i p p' l :
  ps !! i = Some p ->
  users (upd_proc ps i p') l =
  users ps l - (Z.b2z (holds p l) + Z.b2z (waits p l)) + (Z.b2z (holds p' l) + Z.b2z (waits p' l)).
Proof.
  unfold upd_proc. revert i. induction ps as [|q ps IH]; intros [|i] Hi; try done; simpl in *.
  - injection Hi as ->. lia.
  - rewrite (IH i Hi). lia.
Qed.

Lemma users_bounds ps l : 0 <= users ps l <= 2 * Z.of_nat (length ps).
Proof.
  induction ps as [|p ps IH]; [done|]. simpl users. rewrite length_cons.
  destruct (holds p l), (waits p l); simpl; lia.
Qed.

Lemma users_ge ps p l : p ∈ ps -> Z.b2z (holds p l) + Z.b2z (waits p l) <= users ps l.
Proof.
  induction 1 as [p ps|p q ps _ IH]; simpl.
  - pose proof (users_bounds ps l). lia.
  - destruct (holds q l), (waits q l); simpl; lia.
Qed.

Lemma users_zero ps l :
  users ps l = 0 <-> forall p, p ∈ ps -> holds p l = false /\ waits p l = false.
Proof.
  split.
  - intros Hz p Hp. pose proof (users_ge ps p l Hp). destruct (holds p l), (waits p l); simpl in *; try lia; done.
  - induction ps as [|p ps IH]; intros Hall; [done|]. simpl.
    destruct (Hall p) as [-> ->]; [by left|]. rewrite IH; [done|]. intros q Hq. apply Hall. by right.
Qed.

Lemma elem_of_upd ps i p' q : q ∈ upd_proc ps i p' -> q = p' \/ q ∈ ps.
Proof.
  intros [j Hj]%list_elem_of_lookup_1. unfold upd_proc in Hj.
  apply list_lookup_insert_Some in Hj as [(_ & -> & _)|[_ Hj]]; [by left|right].
  by eapply list_elem_of_lookup_2.
Qed.

(** ** Every step keeps the invariant *)

(** Contribution of one process. *)
Definition uses (p : mproc) (l : Z) : Z := Z.b2z (holds p l) + Z.b2z (waits p l).

(** A step of process [i] that changes counts and perhaps takes new slots. *)
Lemma wf_upd t ps ord i p p' t' ord' :
  msys_wf (mk_msys t ps) ord -> ps !! i = Some p -> mt_wf h t' ord' -> (forall l, l ∈ ord -> l ∈ ord') ->
  (forall l, l ∈ ord' -> mi_refcount (info_at t' l) = users ps l - uses p l + uses p' l) ->
  (forall l, holds p' l = true \/ waits p' l = true -> l ∈ ord') ->
  (forall l, holds p' l = true -> pt_trans (mp_occ p') = true) ->
  length (pt_acquired (mp_occ p')) = 37%nat ->
  (mt_lsn t' = 0 -> ord' = [] /\ mt_started t' = false) ->
  msys_wf (mk_msys t' (upd_proc ps i p')) ord'.
Proof.
  intros [H1 H2 H3 H4 H5 H6] Hi Hwf' Hsub Href Hu Hh' Hl Hidle. cbn [ms_trans ms_procs] in *. split; cbn [ms_trans ms_procs].
  - done.
  - intros l Hin. rewrite Href by done. by rewrite (users_upd ps i p p' l Hi).
  - intros l q [->|Hq]%elem_of_upd; [apply Hu|]. intros Hq'. apply Hsub. by eapply H3.
  - intros l q [->|Hq]%elem_of_upd; [apply Hh'|]. by apply H4.
  - intros q [->|Hq]%elem_of_upd; [done|]. by apply H5.
  - done.
Qed.

Lemma aget_false_range (l : list bool) i : aget false l i = true -> 0 <= i < Z.of_nat (length l).
Proof.
  unfold aget. case_decide; [|done]. destruct (l !! Z.to_nat i) eqn:E; [|done].
  apply lookup_lt_Some in E. lia.
Qed.

Lemma holds_acquire p l l' :
  length (pt_acquired (mp_occ p)) = 37%nat -> 1 <= l <= 37 ->
  holds (mk_mproc (proc_acquire (mp_occ p) l) None) l' = bool_decide (l' = l) || holds p l'.
Proof.
  intros Hlen Hl. unfold holds, proc_acquire. cbn [mp_occ pt_acquired]. rewrite aget_aset by lia.
  destruct (decide (l - 1 = l' - 1)); [rewrite bool_decide_eq_true_2 by lia; done|].
  by rewrite bool_decide_eq_false_2 by lia.
Qed.

Lemma holds_release p l l' w :
  length (pt_acquired (mp_occ p)) = 37%nat -> 1 <= l <= 37 ->
  holds (mk_mproc (mk_proc w (aset (pt_acquired (mp_occ p)) (l - 1) false)) None) l' =
  negb (bool_decide (l' = l)) && holds p l'.
Proof.
  intros Hlen Hl. unfold holds. cbn [mp_occ pt_acquired]. rewrite aget_aset by lia.
  destruct (decide (l - 1 = l' - 1)); [rewrite bool_decide_eq_true_2 by lia; done|].
  by rewrite bool_decide_eq_false_2 by lia.
Qed.

Lemma waits_eq o w l : waits (mk_mproc o w) l = bool_decide (w = Some l).
Proof. done. Qed.

(** Waiting for slot [l] from now on. *)
Lemma uses_wait p l l' :
  mp_wait p = None -> uses (mk_mproc (mp_occ p) (Some l)) l' = uses p l' + Z.b2z (bool_decide (l' = l)).
Proof.
  intros Hw. unfold uses, waits, holds. rewrite Hw. cbn [mp_wait mp_occ].
  rewrite (bool_decide_eq_false_2 (None = Some l')) by done.
  destruct (decide (l' = l)) as [->|Hne].
  - rewrite !bool_decide_eq_true_2 by done. simpl Z.b2z. lia.
  - rewrite !bool_decide_eq_false_2 by congruence. simpl Z.b2z. lia.
Qed.

Section steps.
Context (t : mini_trans_data_t) (ps : list mproc) (ord : list Z).
Context (Hwf : msys_wf (mk_msys t ps) ord) (Hn : 2 * Z.of_nat (length ps) + 1 < 2 ^ 32).

Lemma wait_wf i p l t' ord' :
  ps !! i = Some p -> mp_wait p = None -> l ∈ ord' ->
  mt_wf h t' ord' -> (forall l, l ∈ ord -> l ∈ ord') ->
  (forall l', l' ∈ ord' -> mi_refcount (info_at t' l') = users ps l' + Z.b2z (bool_decide (l' = l))) ->
  mt_lsn t' <> 0 ->
  msys_wf (mk_msys t' (upd_proc ps i (mk_mproc (mp_occ p) (Some l)))) ord'.
Proof.
  intros Hi Hw Hl Hwf' Hsub Href Hlsn. assert (p ∈ ps) as Hp by (by eapply list_elem_of_lookup_2).
  eapply wf_upd; try done.
  - intros l' Hl'. rewrite Href, uses_wait by done. lia.
  - intros l' [Hh'|Hw'].
    + apply Hsub, (sw_users _ _ Hwf l' p Hp). by left.
    + rewrite waits_eq, bool_decide_eq_true in Hw'. by injection Hw' as <-.
  - intros l' Hh'. by apply (sw_held _ _ Hwf l' p Hp).
  - exact (sw_arrays _ _ Hwf p Hp).
Qed.

Lemma add_ref_refs l d l' :
  l ∈ ord -> l' ∈ ord -> 0 <= users ps l + d < 2 ^ 32 ->
  mi_refcount (info_at (add_ref t l d) l') = users ps l' + d * Z.b2z (bool_decide (l' = l)).
Proof.
  intros Hl Hl' Hr. destruct (add_ref_wf h t ord (sw_table _ _ Hwf) l d Hl) as [_ ->].
  pose proof (sw_refs _ _ Hwf) as Href. cbn [ms_trans ms_procs] in Href. destruct (decide (l' = l)) as [->|Hne].
  - rewrite bool_decide_eq_true_2 by done. cbv zeta. cbn [mi_refcount]. rewrite Href by done.
    rewrite u32_small by (by unfold is_u32). simpl. lia.
  - rewrite bool_decide_eq_false_2 by done. rewrite Href by done. simpl. lia.
Qed.

(** Another reference on a slot in use, and the process waits for it. *)
Lemma reuse_wf i p l :
  ps !! i = Some p -> mp_wait p = None -> l ∈ ord -> mt_lsn t <> 0 ->
  msys_wf (mk_msys (add_ref t l 1) (upd_proc ps i (mk_mproc (mp_occ p) (Some l)))) ord.
Proof.
  intros Hi Hw Hl Hlsn. eapply wait_wf; try done.
  - apply (add_ref_wf h t ord (sw_table _ _ Hwf) l 1 Hl).
  - intros l' Hl'. rewrite add_ref_refs; [lia|done..|]. pose proof (users_bounds ps l). lia.
Qed.

Lemma request_wf i p tag t' l :
  ps !! i = Some p -> mp_wait p = None -> key_lock_table t tag (h tag) = Done (t', l) -> l <> 0 ->
  exists ord', msys_wf (mk_msys t' (upd_proc ps i (mk_mproc (mp_occ p) (Some l)))) ord'.
Proof.
  intros Hi Hw Hk Hl0. assert (mt_started t = true /\ mt_lsn t <> 0) as [Hs Hlsn].
  { unfold key_lock_table, mini_trans_increase_ref, mini_trans_find, InvalidXLogRecPtr in Hk.
    destruct (mt_lsn t =? 0) eqn:E; zbool; [done|]. destruct (mt_started t); [done|done]. }
  destruct (key_lock_table_spec h Hh t ord tag (sw_table _ _ Hwf) Hs Hlsn)
    as [(l' & Hk' & Hin & _)|(Hno & t1 & l' & Hk' & _ & Hlsn' & Hc)]; rewrite Hk' in Hk; injection Hk as <- <-.
  - exists ord. by apply reuse_wf.
  - destruct Hc as [[-> _]|(Hr & Hnl & Hwf' & Hsame & _ & Href & _)]; [done|]. exists (ord ++ [l']).
    apply wait_wf; try done.
    + set_solver.
    + set_solver.
    + intros k [Hk|Hk]%elem_of_app.
      * rewrite (proj1 (proj2 (Hsame k Hk))), bool_decide_eq_false_2 by (by intros ->).
        pose proof (sw_refs _ _ Hwf k Hk) as E. cbn [ms_trans ms_procs] in E. simpl. lia.
      * apply list_elem_of_singleton in Hk as ->. rewrite Href, bool_decide_eq_true_2 by done.
        rewrite (proj2 (users_zero ps l')); [done|]. intros q Hq.
        pose proof (sw_users _ _ Hwf l' q Hq) as E. destruct (holds q l'), (waits q l'); try done.
        all: by destruct Hnl; apply E; auto.
    + by rewrite Hlsn'.
Qed.

Lemma cond_request_wf i p tag t' l :
  ps !! i = Some p -> mp_wait p = None -> cond_key_lock_table t tag (h tag) = Done (t', l) -> l <> 0 ->
  exists ord', msys_wf (mk_msys t' (upd_proc ps i (mk_mproc (mp_occ p) (Some l)))) ord'.
Proof.
  unfold cond_key_lock_table, InvalidXLogRecPtr, POLAR_INVALID_PAGE_LOCK. intros Hi Hw Hk Hl0.
  destruct (mt_started t) eqn:Hs; [|by injection Hk as <- <-].
  destruct (mt_lsn t =? 0) eqn:E; zbool; [by injection Hk as <- <-|]. cbn [andb negb] in Hk.
  destruct (increase_ref_spec h Hh t ord tag (sw_table _ _ Hwf) Hs E) as [(l' & Hk' & Hin & _)|[Hk' _]];
    rewrite Hk' in Hk; injection Hk as <- <-; [|done].
  exists ord. by apply reuse_wf.
Qed.

Lemma grant_wf i p l :
  ps !! i = Some p -> mp_wait p = Some l -> holds p l = false ->
  msys_wf (mk_msys t (upd_proc ps i (mk_mproc (proc_acquire (mp_occ p) l) None))) ord.
Proof.
  intros Hi Hw Hnh. assert (p ∈ ps) as Hp by (by eapply list_elem_of_lookup_2).
  pose proof (sw_arrays _ _ Hwf p Hp) as Hlen.
  assert (l ∈ ord) as Hin by (apply (sw_users _ _ Hwf l p Hp); right; unfold waits; by rewrite bool_decide_eq_true).
  pose proof (mt_slot_range h t ord (sw_table _ _ Hwf) l Hin) as Hr.
  eapply wf_upd; try done.
  - apply (sw_table _ _ Hwf).
  - intros l' Hl'. pose proof (sw_refs _ _ Hwf l' Hl') as E. cbn [ms_trans ms_procs] in E. rewrite E.
    unfold uses. rewrite holds_acquire by done. rewrite waits_eq. unfold waits. rewrite Hw.
    rewrite (bool_decide_eq_false_2 (None = Some l')) by done. destruct (decide (l' = l)) as [->|Hne].
    + rewrite !bool_decide_eq_true_2 by done. rewrite Hnh. simpl. lia.
    + rewrite !bool_decide_eq_false_2 by congruence. simpl. lia.
  - intros l' [H|H].
    + rewrite holds_acquire in H by done. apply orb_true_iff in H as [H|H].
      * apply bool_decide_eq_true in H as ->. done.
      * apply (sw_users _ _ Hwf l' p Hp). by left.
    + by rewrite waits_eq, bool_decide_eq_true in H.
  - cbn [mp_occ proc_acquire pt_acquired]. by rewrite length_aset.
  - apply (sw_idle _ _ Hwf).
Qed.

(** Releasing a held page lock never PANICs. *)
Lemma unlock_held i p l :
  ps !! i = Some p -> mp_wait p = None -> holds p l = true ->
  let o := mk_proc true (aset (pt_acquired (mp_occ p)) (l - 1) false) in
  polar_logindex_mini_trans_unlock t (mp_occ p) l = Done (add_ref t l (-1), o) /\
  msys_wf (mk_msys (add_ref t l (-1)) (upd_proc ps i (mk_mproc o None))) ord /\
  (forall l', holds (mk_mproc o None) l' = negb (bool_decide (l' = l)) && holds p l').
Proof.
  intros Hi Hw Hh' o. assert (p ∈ ps) as Hp by (by eapply list_elem_of_lookup_2).
  pose proof (sw_arrays _ _ Hwf p Hp) as Hlen. pose proof (sw_table _ _ Hwf) as Ht. cbn [ms_trans] in Ht.
  assert (l ∈ ord) as Hin by (apply (sw_users _ _ Hwf l p Hp); by left).
  pose proof (mt_slot_range h t ord Ht l Hin) as Hr.
  pose proof (sw_held _ _ Hwf l p Hp Hh') as Htr.
  pose proof (sw_refs _ _ Hwf l Hin) as Href. cbn [ms_trans ms_procs] in Href.
  pose proof (users_ge ps p l Hp) as Hge. rewrite Hh' in Hge. pose proof (users_bounds ps l) as Hb.
  assert (0 < users ps l) as Hpos by (destruct (waits p l); simpl in Hge; lia).
  split_and!.
  - unfold polar_logindex_mini_trans_unlock, POLAR_INVALID_PAGE_LOCK. rewrite table_size.
    destruct (l =? 0) eqn:E1; zbool; [lia|]. destruct (l >? _) eqn:E2; zbool; [lia|].
    unfold holds in Hh'. rewrite Htr, Hh'. cbn [negb orb].
    rewrite (proj2 (mt_occupied_iff h t ord Ht l Hr)) by done. cbn [negb orb].
    destruct (mi_refcount (info_at t l) =? 0) eqn:E3; zbool; [lia|]. done.
  - eapply wf_upd; try done.
    + apply (add_ref_wf h t ord Ht l (-1) Hin).
    + intros l' Hl'. rewrite add_ref_refs by (done || lia). unfold uses. unfold o.
      rewrite holds_release, waits_eq by done. unfold waits. rewrite Hw.
      rewrite (bool_decide_eq_false_2 (None = Some l')) by done.
      destruct (decide (l' = l)) as [->|Hne].
      * rewrite !bool_decide_eq_true_2 by done. rewrite Hh'. simpl Z.b2z. lia.
      * rewrite !bool_decide_eq_false_2 by done. simpl negb. cbn [andb]. simpl Z.b2z. lia.
    + unfold o. intros l' [H|H].
      * rewrite holds_release in H by done. apply andb_true_iff in H as [_ H].
        apply (sw_users _ _ Hwf l' p Hp). by left.
      * by rewrite waits_eq, bool_decide_eq_true in H.
    + unfold o. cbn [mp_occ pt_acquired]. by rewrite length_aset.
    + apply (sw_idle _ _ Hwf).
  - intros l'. unfold o. by rewrite holds_release.
Qed.
End steps.

Lemma upd_upd ps i a b : upd_proc (upd_proc ps i a) i b = upd_proc ps i b.
Proof. apply list_insert_insert_eq. Qed.

Lemma lookup_upd ps i p q : ps !! i = Some p -> upd_proc ps i q !! i = Some q.
Proof. intros Hi. apply list_lookup_insert_eq. by eapply lookup_lt_Some. Qed.

(** Aborting releases what the process holds in the range the loop covers. *)
Lemma abort_loop_spec n t ps ord i p l :
  msys_wf (mk_msys t ps) ord -> 2 * Z.of_nat (length ps) + 1 < 2 ^ 32 ->
  ps !! i = Some p -> mp_wait p = None ->
  exists t' o, abort_loop n t (mp_occ p) l = Done (t', o) /\
    msys_wf (mk_msys t' (upd_proc ps i (mk_mproc o None))) ord /\
    (forall l', holds (mk_mproc o None) l' = holds p l' && negb (bool_decide (l <= l' < l + Z.of_nat n))) /\
    pt_trans o = pt_trans (mp_occ p) /\ mt_started t' = mt_started t /\ mt_lsn t' = mt_lsn t.
Proof.
  revert t ps p l. induction n as [|n IH]; intros t ps p l Hwf Hn Hi Hw.
  { exists t, (mp_occ p). split; [done|]. assert (mk_mproc (mp_occ p) None = p) as -> by (destruct p; simpl in *; congruence).
    unfold upd_proc. rewrite list_insert_id by done. split_and!; try done. intros l'.
    rewrite bool_decide_eq_false_2 by lia. by rewrite andb_true_r. }
  cbn [abort_loop]. destruct (aget false (pt_acquired (mp_occ p)) (l - 1)) eqn:Eh.
  - destruct (unlock_held t ps ord Hwf Hn i p l Hi Hw Eh) as (-> & Hwf' & Hh'). cbn [obind].
    set (o := mk_proc true _) in *.
    destruct (IH _ _ (mk_mproc o None) (l + 1) Hwf') as (t' & o' & Hrun & Hwf'' & Hh'' & Htr & Hst & Hls).
    { unfold upd_proc. by rewrite length_insert. }
    { by eapply lookup_upd. }
    { done. }
    cbn [mp_occ] in Hrun. exists t', o'. rewrite upd_upd in Hwf''. split_and!; try done.
    + intros l'. rewrite Hh'', Hh'. destruct (decide (l' = l)) as [->|Hne].
      * rewrite (bool_decide_eq_true_2 (l = l)), (bool_decide_eq_true_2 (l <= l < l + _)) by (done || lia).
        by rewrite andb_false_r.
      * rewrite (bool_decide_eq_false_2 (l' = l)) by done. cbn [negb andb].
        erewrite bool_decide_ext; [done|lia].
    + rewrite Htr. symmetry. apply (sw_held _ _ Hwf l p); [by eapply list_elem_of_lookup_2|done].
  - cbn [obind]. destruct (IH t ps p (l + 1) Hwf Hn Hi Hw) as (t' & o' & Hrun & Hwf'' & Hh'' & Htr & Hst & Hls).
    exists t', o'. split_and!; try done. intros l'. rewrite Hh''. destruct (decide (l' = l)) as [->|Hne].
    + unfold holds. by rewrite Eh.
    + erewrite (bool_decide_ext (l + 1 <= _ < _)); [done|lia].
Qed.

Lemma holds_range ps ord t p l :
  msys_wf (mk_msys t ps) ord -> p ∈ ps -> holds p l = true -> 1 <= l <= 37.
Proof.
  intros Hwf Hp Hh'. apply (mt_slot_range h t ord (sw_table _ _ Hwf)). apply (sw_users _ _ Hwf l p Hp). by left.
Qed.

Lemma abort_spec t ps ord i p :
  msys_wf (mk_msys t ps) ord -> 2 * Z.of_nat (length ps) + 1 < 2 ^ 32 ->
  ps !! i = Some p -> mp_wait p = None ->
  exists t' o, polar_logindex_abort_mini_transaction t (mp_occ p) = Done (t', o) /\
    msys_wf (mk_msys t' (upd_proc ps i (mk_mproc o None))) ord /\
    (forall l, holds (mk_mproc o None) l = false) /\ pt_trans o = false.
Proof.
  intros Hwf Hn Hi Hw. assert (p ∈ ps) as Hp by (by eapply list_elem_of_lookup_2).
  unfold polar_logindex_abort_mini_transaction.
  destruct (pt_trans (mp_occ p)) eqn:Ep; cbn [negb].
  - destruct (abort_loop_spec TABLE_FUEL t ps ord i p 1 Hwf Hn Hi Hw) as (t' & o & -> & Hwf' & Hh' & _).
    cbn [obind]. exists t', (mk_proc false (pt_acquired o)).
    assert (forall l, holds (mk_mproc o None) l = false) as Hnone.
    { intros l. rewrite Hh'. destruct (holds p l) eqn:E; [|done].
      pose proof (holds_range ps ord t p l Hwf Hp E). by rewrite bool_decide_eq_true_2 by (change (Z.of_nat TABLE_FUEL) with 37; lia). }
    split_and!; try done. rewrite <- (upd_upd ps i (mk_mproc o None)).
    assert (mk_mproc o None ∈ upd_proc ps i (mk_mproc o None)) as Hin
      by (eapply list_elem_of_lookup_2; by eapply lookup_upd).
    eapply wf_upd; try done.
    + by eapply lookup_upd.
    + apply (sw_table _ _ Hwf').
    + intros l Hl. pose proof (sw_refs _ _ Hwf' l Hl) as E. cbn [ms_trans ms_procs] in E. rewrite E.
      unfold uses, holds, waits. simpl. lia.
    + intros l [H|H]; [|done]. specialize (Hnone l). unfold holds in *. cbn [mp_occ pt_acquired] in *. congruence.
    + intros l H. specialize (Hnone l). unfold holds in *. cbn [mp_occ pt_acquired] in *. congruence.
    + exact (sw_arrays _ _ Hwf' _ Hin).
    + apply (sw_idle _ _ Hwf').
  - exists t, (mp_occ p). assert (mk_mproc (mp_occ p) None = p) as -> by (destruct p; simpl in *; congruence).
    unfold upd_proc. rewrite list_insert_id by done. split_and!; try done.
    intros l. destruct (holds p l) eqn:E; [|done]. pose proof (sw_held _ _ Hwf l p Hp E). congruence.
Qed.

(** A step on the table alone that keeps slots and counts. *)
Lemma wf_table t ps ord t' :
  msys_wf (mk_msys t ps) ord -> mt_wf h t' ord ->
  (forall l, l ∈ ord -> mi_refcount (info_at t' l) = mi_refcount (info_at t l)) ->
  (mt_lsn t' = 0 -> ord = [] /\ mt_started t' = false) -> msys_wf (mk_msys t' ps) ord.
Proof.
  intros [H1 H2 H3 H4 H5 H6] Hwf' Href Hidle. cbn [ms_trans ms_procs] in *. split; cbn [ms_trans ms_procs]; try done.
  intros l Hl. rewrite Href by done. by apply H2.
Qed.

Lemma set_added_wf t ps ord l t' :
  msys_wf (mk_msys t ps) ord -> is_u32 l -> polar_logindex_mini_trans_set_page_added t l = Done t' ->
  msys_wf (mk_msys t' ps) ord.
Proof.
  intros Hwf [Hl _]. unfold polar_logindex_mini_trans_set_page_added, slot_valid, POLAR_INVALID_PAGE_LOCK.
  pose proof (sw_table _ _ Hwf) as Ht. cbn [ms_trans] in Ht. pose proof (mw_len _ _ _ Ht) as Hlen.
  change (Z.to_nat MINI_TRANSACTION_TABLE_SIZE) with 37%nat in Hlen. rewrite table_size.
  destruct (l =? 0) eqn:E1; [done|]. destruct (l >? 37) eqn:E2; [done|].
  destruct (MINI_TRANS_IS_OCCUPIED t l) eqn:E3; [|done]. cbn [negb orb]. zbool. intros [= <-].
  assert (l ∈ ord) as Hin by (apply (mt_occupied_iff h t ord Ht); [lia|done]).
  assert (forall j, info_at (set_info_at t l (mk_info (mi_tag (info_at t l)) (mi_refcount (info_at t l))
            (mi_next (info_at t l)) true)) j = if decide (j = l) then mk_info (mi_tag (info_at t l))
            (mi_refcount (info_at t l)) (mi_next (info_at t l)) true else info_at t j) as Hi
    by (intros j; apply info_at_set; [lia|done]).
  eapply wf_table; [done| | |apply (sw_idle _ _ Hwf)].
  - apply (wf_same_links h t ord Ht).
    + simpl. by rewrite length_aset.
    + done.
    + intros j. rewrite Hi. by destruct (decide (j = l)) as [->|].
    + intros j Hj. rewrite Hi, decide_False; [done|by intros ->].
  - intros j Hj. rewrite Hi. by destruct (decide (j = l)) as [->|].
Qed.

Lemma same_table_wf t ps ord t' :
  msys_wf (mk_msys t ps) ord -> mt_info t' = mt_info t -> mt_occupied t' = mt_occupied t ->
  (mt_lsn t' = 0 -> ord = [] /\ mt_started t' = false) -> msys_wf (mk_msys t' ps) ord.
Proof.
  intros Hwf Hi Ho Hidle. assert (forall j, info_at t' j = info_at t j) as Hj by (intros; unfold info_at; by rewrite Hi).
  eapply wf_table; [done| | |done].
  - apply (wf_same_links h t ord (sw_table _ _ Hwf)); try done.
    + by rewrite Hi.
    + intros j. by rewrite Hj.
  - intros l _. by rewrite Hj.
Qed.

Lemma start_wf t ps ord lsn t' :
  msys_wf (mk_msys t ps) ord -> lsn <> 0 -> polar_logindex_mini_trans_start t lsn = Done t' ->
  msys_wf (mk_msys t' ps) ord.
Proof.
  unfold polar_logindex_mini_trans_start, InvalidXLogRecPtr. intros Hwf Hl. case_match; [done|]. intros [= <-].
  by eapply same_table_wf.
Qed.

Lemma end_begin_wf t ps ord lsn t' :
  msys_wf (mk_msys t ps) ord -> mini_trans_end_begin t lsn = Done t' -> msys_wf (mk_msys t' ps) ord.
Proof.
  unfold mini_trans_end_begin. intros Hwf. case_match; [done|]. intros [= <-].
  eapply same_table_wf; try done. intros Hl. split; [by apply (sw_idle _ _ Hwf)|done].
Qed.

(** ** Ending the transaction *)

Lemma end_clear_spec fuel lo t :
  length (mt_info t) = 37%nat -> 0 <= mt_occupied t < 2 ^ 37 -> 0 <= lo ->
  (forall j, 0 <= j < lo -> Z.testbit (mt_occupied t) j = false) -> 37 - lo <= Z.of_nat fuel ->
  exists t', end_clear fuel t = Done t' /\ mt_occupied t' = 0 /\ length (mt_info t') = 37%nat /\
    mt_started t' = mt_started t /\ mt_lsn t' = mt_lsn t /\
    forall i, 1 <= i <= 37 -> info_at t' i = if Z.testbit (mt_occupied t) (i - 1) then zero_info else info_at t i.
Proof.
  assert (2 ^ 37 < 2 ^ 64) as Hpow by (apply Z.pow_lt_mono_r; lia).
  revert lo t. induction fuel as [|n IH]; intros lo t Hlen Ho Hlo Hb Hf.
  - assert (mt_occupied t = 0) as Hz.
    { apply Z.bits_inj_0. intros j. destruct (decide (j < 0)); [by apply Z.testbit_neg_r|].
      destruct (decide (j < lo)); [apply Hb; lia|]. apply testbit_above with 37; lia. }
    exists t. simpl. rewrite Hz. split_and!; try done. intros i _. by rewrite Z.bits_0.
  - cbn [end_clear]. destruct (mt_occupied t =? 0) eqn:E; zbool.
    { exists t. rewrite E. split_and!; try done. intros i _. by rewrite Z.bits_0. }
    assert (0 < mt_occupied t < 2 ^ 64) as Hp by lia.
    destruct (least_pos_spec _ Hp) as (Hp1 & Hp2 & Hp3). set (pos := POLAR_BIT_LEAST_POS (mt_occupied t)) in *.
    assert (lo <= pos - 1). { destruct (decide (lo <= pos - 1)); [done|]. rewrite Hb in Hp2; [done|lia]. }
    assert (pos <= 37).
    { destruct (decide (pos <= 37)); [done|]. rewrite (testbit_above (mt_occupied t) 37) in Hp2; [done|lia|lia]. }
    cbv zeta. set (t1 := mk_trans _ _ _ _).
    assert (forall j, Z.testbit (mt_occupied t1) j = Z.testbit (mt_occupied t) j && negb (j =? pos - 1)) as Hbits.
    { intros j. unfold t1. simpl mt_occupied. by rewrite clear_least_testbit. }
    assert (forall j, info_at t1 j = if decide (j = pos) then zero_info else info_at t j) as Hi1
      by (intros j; apply info_at_set; [lia|done]).
    destruct (IH pos t1) as (t' & Hrun & Hz & Hl' & Hs & Hlsn & Hi).
    + unfold t1. simpl. by rewrite length_aset.
    + pose proof (clear_least_range _ Hp) as Hc. split; [apply Hc|]. apply bits_below_lt; [apply Hc|lia|].
      intros j Hj. rewrite Hbits in Hj. apply andb_true_iff in Hj as [Hj _].
      destruct (decide (j < 37)); [done|]. rewrite (testbit_above (mt_occupied t) 37) in Hj; [done|lia|lia].
    + lia.
    + intros j Hj. rewrite Hbits. destruct (j =? pos - 1) eqn:Ej; zbool; [by rewrite andb_false_r|].
      rewrite Hp3; [done|lia].
    + lia.
    + exists t'. split_and!; try done. intros i Hir. rewrite Hi by done. rewrite Hbits, Hi1.
      destruct (decide (i = pos)) as [->|Hne].
      * rewrite Hp2. by case_match.
      * assert ((i - 1 =? pos - 1) = false) as -> by (apply Z.eqb_neq; lia). by rewrite andb_true_r.
Qed.

Lemma fold_and {A} (f : A -> bool) (l : list A) (b : bool) :
  fold_left (fun ok x => ok && f x) l b = true <-> b = true /\ forall x, x ∈ l -> f x = true.
Proof.
  revert b. induction l as [|a l IH]; intros b; simpl.
  - split; [intros ->; split; [done|]; intros x Hx; by apply not_elem_of_nil in Hx|tauto].
  - rewrite IH, andb_true_iff. setoid_rewrite elem_of_cons. naive_solver.
Qed.

Lemma end_unlock_all_iff t ord :
  mt_wf h t ord -> end_unlock_all t = true <-> forall l, l ∈ ord -> mi_refcount (info_at t l) <= 0.
Proof.
  intros Hwf. pose proof (mw_occ _ _ _ Hwf) as Ho. rewrite table_size in Ho.
  assert (2 ^ 37 < 2 ^ 64) as Hpow by (apply Z.pow_lt_mono_r; lia).
  unfold end_unlock_all. rewrite for_each_bit_fold by lia. rewrite fold_and.
  split.
  - intros [_ H] l Hl. pose proof (mt_slot_range h t ord Hwf l Hl) as Hr.
    assert (l ∈ positions (mt_occupied t)) as Hp.
    { apply elem_of_positions. split; [lia|]. by apply (mw_ord _ _ _ Hwf) in Hl as [_ ?]. }
    specialize (H l Hp). destruct (_ >? 0) eqn:E; zbool; [done|lia].
  - intros H. split; [done|]. intros l [Hl1 Hl2]%elem_of_positions.
    assert (l ∈ ord) as Hl.
    { apply (mw_ord _ _ _ Hwf). split; [|done]. rewrite table_size.
      destruct (decide (l <= 37)); [lia|]. rewrite (testbit_above (mt_occupied t) 37) in Hl2; [done|lia|lia]. }
    specialize (H l Hl). destruct (_ >? 0) eqn:E; zbool; [lia|done].
Qed.

Lemma table_zero t : length (mt_info t) = 37%nat -> (forall i, 1 <= i <= 37 -> info_at t i = zero_info) ->
  mt_info t = replicate 37 zero_info.
Proof.
  intros Hlen Hz. apply list_eq. intros k. destruct (decide (k < 37)%nat) as [Hk|Hk].
  - rewrite lookup_replicate_2 by done. specialize (Hz (Z.of_nat k + 1) ltac:(lia)). unfold info_at, aget in Hz.
    rewrite decide_True in Hz by lia. replace (Z.to_nat (Z.of_nat k + 1 - 1)) with k in Hz by lia.
    destruct (mt_info t !! k) as [x|] eqn:E; [by f_equal|]. apply lookup_ge_None in E. lia.
  - rewrite !lookup_ge_None_2; [done|by rewrite length_replicate; lia|lia].
Qed.

Lemma end_finish_spec t ps ord :
  msys_wf (mk_msys t ps) ord ->
  ((exists p l, p ∈ ps /\ (holds p l = true \/ waits p l = true)) -> mini_trans_end_finish t = None) /\
  ((~ exists p l, p ∈ ps /\ (holds p l = true \/ waits p l = true)) ->
   mini_trans_end_finish t = Some (Done (mk_trans (mt_started t) InvalidXLogRecPtr 0 (mt_info mini_trans_init)))).
Proof.
  intros Hwf. pose proof (sw_table _ _ Hwf) as Ht. cbn [ms_trans] in Ht. unfold mini_trans_end_finish.
  pose proof (end_unlock_all_iff t ord Ht) as Hall.
  assert (forall l, l ∈ ord -> mi_refcount (info_at t l) = users ps l) as Href by (apply (sw_refs _ _ Hwf)).
  split; intros Hd.
  - destruct Hd as (p & l & Hp & Hu). destruct (end_unlock_all t); [|done]. exfalso.
    pose proof (sw_users _ _ Hwf l p Hp Hu) as Hl. pose proof (proj1 Hall eq_refl l Hl) as H.
    rewrite Href in H by done. pose proof (users_ge ps p l Hp) as Hge.
    destruct Hu as [Hu|Hu]; rewrite Hu in Hge; destruct (holds p l), (waits p l); simpl in Hge; lia.
  - rewrite (proj2 Hall). 2:{ intros l Hl. rewrite Href by done. rewrite (proj2 (users_zero ps l)); [done|].
      intros p Hp. split; [destruct (holds p l) eqn:E|destruct (waits p l) eqn:E]; try done; destruct Hd; eauto. }
    cbn [negb]. do 2 f_equal. pose proof (mw_occ _ _ _ Ht) as Ho. rewrite table_size in Ho.
    destruct (end_clear_spec 64 0 t) as (t' & -> & Hz & Hlen & Hs & _ & Hi); [apply (mw_len _ _ _ Ht)|done|done|lia|lia|].
    cbn [obind]. f_equal. rewrite Hz, Hs. f_equal. apply table_zero; [done|]. intros i Hir. rewrite Hi by done.
    case_match; [done|]. apply (mw_zero _ _ _ Ht); [done|]. intros Hin. apply (mw_ord _ _ _ Ht) in Hin as [_ E]. congruence.
Qed.

Lemma init_table_wf : mt_wf h mini_trans_init [].
Proof.
  assert (forall i, info_at mini_trans_init i = zero_info) as Hz by (intros; apply aget_replicate).
  split; try done.
  - intros i. split; [intros Hi; by apply not_elem_of_nil in Hi|]. intros [_ H]. by rewrite Z.bits_0 in H.
  - apply NoDup_nil_2.
  - intros i Hi. by apply not_elem_of_nil in Hi.
  - intros i Hi. by apply not_elem_of_nil in Hi.
  - intros i j Hi. by apply not_elem_of_nil in Hi.
Qed.

Lemma clean_table_wf s : mt_wf h (mk_trans s InvalidXLogRecPtr 0 (mt_info mini_trans_init)) [].
Proof.
  apply (wf_same_links h mini_trans_init [] init_table_wf); done.
Qed.

Lemma idle_wf t ps ord :
  msys_wf (mk_msys t ps) ord ->
  (~ exists p l, p ∈ ps /\ (holds p l = true \/ waits p l = true)) -> mt_started t = false ->
  msys_wf (mk_msys (mk_trans (mt_started t) InvalidXLogRecPtr 0 (mt_info mini_trans_init)) ps) [].
Proof.
  intros [H1 H2 H3 H4 H5 H6] Hno Hs. cbn [ms_trans ms_procs] in *. split; cbn [ms_trans ms_procs].
  - apply clean_table_wf.
  - intros l Hl. by apply not_elem_of_nil in Hl.
  - intros l p Hp Hu. destruct Hno. eauto.
  - done.
  - done.
  - done.
Qed.

Lemma unlock_holds t p l t' o : polar_logindex_mini_trans_unlock t (mp_occ p) l = Done (t', o) -> holds p l = true.
Proof.
  unfold polar_logindex_mini_trans_unlock. case_match; [done|]. case_match eqn:E; [done|].
  apply orb_false_iff in E as [_ E]. intros _. unfold holds. by apply negb_false_iff in E.
Qed.

Lemma mstep_procs s s' : mstep s s' -> length (ms_procs s') = length (ms_procs s).
Proof. destruct 1; simpl; try done; unfold upd_proc; by rewrite length_insert. Qed.

Lemma mstep_wf s s' ord :
  msys_wf s ord -> 2 * Z.of_nat (length (ms_procs s)) + 1 < 2 ^ 32 -> mstep s s' -> exists ord', msys_wf s' ord'.
Proof.
  intros Hwf Hn Hstep. destruct Hstep; cbn [ms_procs] in Hn.
  - exists ord. by eapply start_wf.
  - by eapply request_wf.
  - by eapply cond_request_wf.
  - exists ord. by eapply grant_wf.
  - exists ord. match goal with H : polar_logindex_mini_trans_unlock _ _ _ = _ |- _ => pose proof (unlock_holds _ _ _ _ _ H) as Hh'; rename H into Hu end.
    destruct (unlock_held t ps ord Hwf Hn i p l) as (E & Hwf' & _); [done..|]. rewrite E in Hu. by injection Hu as <- <-.
  - exists ord. match goal with H : polar_logindex_abort_mini_transaction _ _ = _ |- _ => rename H into Hu end.
    destruct (abort_spec t ps ord i p Hwf Hn) as (t1 & o1 & E & Hwf' & _); [done..|]. rewrite E in Hu. by injection Hu as <- <-.
  - exists ord. by eapply set_added_wf.
  - exists ord. by eapply end_begin_wf.
  - match goal with H : mini_trans_end_finish _ = _ |- _ => rename H into Hf end.
    destruct (end_finish_spec t ps ord Hwf) as [Hbusy Hfree].
    assert (~ exists p l, p ∈ ps /\ (holds p l = true \/ waits p l = true)) as Hno
      by (intros Hd; rewrite (Hbusy Hd) in Hf; done).
    rewrite (Hfree Hno) in Hf. injection Hf as <-. exists []. by eapply idle_wf.
Qed.

Lemma init_system_wf n : msys_wf (msys_init n) [].
Proof.
  assert (forall p, p ∈ replicate n fresh_proc -> p = fresh_proc) as Hp.
  { intros p Hp. by apply elem_of_replicate in Hp as [-> _]. }
  assert (forall l, holds fresh_proc l = false) as Hf by (intros; apply aget_replicate).
  split; cbn [ms_trans ms_procs msys_init].
  - apply init_table_wf.
  - intros l Hl. by apply not_elem_of_nil in Hl.
  - intros l p ->%Hp. rewrite Hf. by intros [?|?].
  - intros l p ->%Hp. by rewrite Hf.
  - by intros p ->%Hp.
  - done.
Qed.

Lemma reachable_wf n s :
  2 * Z.of_nat n + 1 < 2 ^ 32 -> rtc mstep (msys_init n) s -> length (ms_procs s) = n /\ exists ord, msys_wf s ord.
Proof.
  intros Hn Hr. assert (length (ms_procs s) = n /\ exists ord, msys_wf s ord); [|done].
  revert Hr. apply (rtc_ind_r (fun s => length (ms_procs s) = n /\ exists ord, msys_wf s ord)).
  - split; [apply length_replicate|]. exists []. apply init_system_wf.
  - intros a b _ Hab [Hl [ord Hwf]]. split; [rewrite (mstep_procs a b Hab); done|].
    eapply mstep_wf; [done| |done]. lia.
Qed.
End system.

(** ** The properties *)

Lemma hash_page_range tag_hash tag : 0 <= MINI_TRANSACTION_HASH_PAGE tag_hash tag < 37.
Proof.
  unfold MINI_TRANSACTION_HASH_PAGE. pose proof (Z.mod_pos_bound (tag_hash tag) MINI_TRANSACTION_HASH_SIZE).
  unfold MINI_TRANSACTION_HASH_SIZE in *. lia.
Qed.

(** Locking the pages of one WAL record, in turn, by one process. *)
Fixpoint lock_pages (tag_hash : BufferTag -> Z) (t : mini_trans_data_t) (p : proc_occupied_mini_trans_t)
    (tags : list BufferTag) : outcome (mini_trans_data_t * proc_occupied_mini_trans_t * list Z) :=
  match tags with
  | [] => Done (t, p, [])
  | tag :: tags =>
    let! (t, p, l, _) := polar_logindex_mini_trans_lock tag_hash t p tag in
    let! (t, p, ls) := lock_pages tag_hash t p tags in
    Done (t, p, l :: ls)
  end.

Section properties.
Context (tag_hash : BufferTag -> Z).
Notation hash := (MINI_TRANSACTION_HASH_PAGE tag_hash).

Lemma lock_abs t M p tag :
  mt_abs hash t M -> mt_started t = true -> mt_lsn t <> 0 ->
  (M tag = None /\ (forall i, 1 <= i <= 37 -> exists tag', M tag' = Some i) /\
   polar_logindex_mini_trans_lock tag_hash t p tag = Fault PANIC) \/
  exists t' l, polar_logindex_mini_trans_lock tag_hash t p tag = Done (t', proc_acquire p l, l, Some (mt_lsn t)) /\
    1 <= l <= 37 /\ mt_started t' = true /\ mt_lsn t' = mt_lsn t /\
    mt_abs hash t' (fun tag' => if decide (tag' = tag) then Some l else M tag') /\
    match M tag with Some l0 => l = l0 | None => forall tag', M tag' <> Some l end.
Proof.
  intros HM Hs Hl. unfold polar_logindex_mini_trans_lock, polar_logindex_mini_trans_key_lock, page_lock_acquire.
  destruct (key_lock_abs hash (hash_page_range tag_hash) t M tag HM Hs Hl) as (t' & l & -> & Hs' & Hl' & Hc).
  cbn [obind]. unfold POLAR_INVALID_PAGE_LOCK. destruct (M tag) as [l0|] eqn:EM.
  - destruct Hc as [-> HM']. pose proof HM' as (ord & Hwf & Hiff). destruct (proj1 (Hiff tag l0) EM) as [Hin _].
    pose proof (mt_slot_range _ _ _ Hwf l0 Hin) as Hr. right. exists t', l0.
    destruct (l0 =? 0) eqn:E; zbool; [lia|]. cbn [negb obind]. apply Z.eqb_neq in E. rewrite ?E, Hl'.
    split_and!; try done; try lia. exists ord. split; [done|]. intros tag' l'.
    destruct (decide (tag' = tag)) as [->|]; [|apply Hiff]. rewrite <- EM. apply Hiff.
  - destruct Hc as [(-> & -> & Hfull)|(Hr & Hfresh & HM')]; [left; done|right]. exists t', l.
    destruct (l =? 0) eqn:E; zbool; [lia|]. cbn [negb obind]. apply Z.eqb_neq in E. rewrite ?E, Hl'.
    split_and!; try done; try lia.
Qed.

(** C27: the coalesced hash table is a map from pages to slots.  In an open
    transaction, locking a page returns the slot the map has for it, or else
    a slot no other page has, which the map then holds for the page and
    for no other; only when all 37 slots belong to other pages does it
    PANIC.  Afterwards, whatever the hash function, a lookup of any page
    returns the LSN of the transaction exactly for the pages of the map. *)
Theorem mini_trans_lock_refines_map t M p tag :
  mt_abs hash t M -> mt_started t = true -> mt_lsn t <> 0 ->
  (M tag = None /\ (forall i, 1 <= i <= MINI_TRANSACTION_TABLE_SIZE -> exists tag', M tag' = Some i) /\
   polar_logindex_mini_trans_lock tag_hash t p tag = Fault PANIC) \/
  exists t' l, polar_logindex_mini_trans_lock tag_hash t p tag = Done (t', proc_acquire p l, l, Some (mt_lsn t)) /\
    let M' := fun tag' => if decide (tag' = tag) then Some l else M tag' in
    mt_abs hash t' M' /\
    match M tag with Some l0 => l = l0 | None => forall tag', M tag' <> Some l end /\
    forall tag', polar_logindex_mini_trans_find tag_hash t' tag' =
                 Done (if M' tag' then mt_lsn t else InvalidXLogRecPtr).
Proof.
  intros HM Hs Hl. destruct (lock_abs t M p tag HM Hs Hl) as [H|(t' & l & Hr & _ & Hs' & Hl' & HM' & Hm)]; [by left|].
  right. exists t', l. split; [done|]. cbv zeta. split_and!; [done..|]. intros tag'. rewrite <- Hl'.
  apply (key_find_abs hash (hash_page_range tag_hash) t' _ tag' HM' Hs'). congruence.
Qed.

Lemma lock_pages_abs tags t M p (k : nat) :
  mt_abs hash t M -> mt_started t = true -> mt_lsn t <> 0 ->
  NoDup tags -> (forall tag, tag ∈ tags -> M tag = None) ->
  (exists used : list Z, length used = k /\ forall tag l, M tag = Some l -> l ∈ used) ->
  (k + length tags <= 37)%nat ->
  exists t' p' ls, lock_pages tag_hash t p tags = Done (t', p', ls) /\ length ls = length tags /\
    mt_started t' = true /\ mt_lsn t' = mt_lsn t /\
    exists M', mt_abs hash t' M' /\ forall tag, is_Some (M' tag) <-> is_Some (M tag) \/ tag ∈ tags.
Proof.
  revert t M p k. induction tags as [|tag tags IH]; intros t M p k HM Hs Hl Hnd Hnone (used & Hk & Hused) Hle.
  { exists t, p, []. split_and!; try done. exists M. split; [done|]. intros tag. rewrite elem_of_nil. tauto. }
  apply NoDup_cons in Hnd as [Hni Hnd]. rewrite length_cons in Hle. cbn [lock_pages].
  destruct (lock_abs t M p tag HM Hs Hl) as [(_ & Hfull & _)|(t1 & l & -> & Hr & Hs1 & Hl1 & HM1 & Hm)].
  { exfalso. assert (seqZ 1 37 ⊆+ used) as Hsub.
    { apply NoDup_submseteq; [apply NoDup_seqZ|]. intros i Hi. apply elem_of_seqZ in Hi.
      destruct (Hfull i) as [tag' E]; [lia|]. by eapply Hused. }
    apply submseteq_length in Hsub. rewrite length_seqZ in Hsub. lia. }
  cbn [obind]. destruct (IH t1 _ (proc_acquire p l) (S k) HM1 Hs1) as (t' & p' & ls & -> & Hlen & Hs' & Hl' & M' & HM' & Hiff).
  - congruence.
  - done.
  - intros tag' Ht'. rewrite decide_False by (by intros ->). apply Hnone. by right.
  - exists (l :: used). split; [by rewrite length_cons, Hk|]. intros tag' l'.
    destruct (decide (tag' = tag)); [intros [= ->]; by left|]. intros E. right. by eapply Hused.
  - lia.
  - cbn [obind]. exists t', p', (l :: ls). split_and!; try done.
    + by rewrite !length_cons, Hlen.
    + congruence.
    + exists M'. split; [done|]. intros tag'. rewrite Hiff, elem_of_cons.
      destruct (decide (tag' = tag)) as [->|]; [|tauto]. split; [auto|]. intros _. left. by eexists.
Qed.

(** A transaction has room for every WAL record.  Starting from a clean
    table, locking the pages of a record, at most 37 different ones (a
    record refers to at most [XLR_MAX_BLOCK_ID] + 1 = 33 pages), never
    PANICs whatever pages collide in the hash, and then the transaction's
    LSN is found for exactly those pages. *)
Theorem mini_trans_record_lockable lsn p tags :
  lsn <> InvalidXLogRecPtr -> NoDup tags -> Z.of_nat (length tags) <= MINI_TRANSACTION_TABLE_SIZE ->
  exists t0 t p' ls, polar_logindex_mini_trans_start mini_trans_init lsn = Done t0 /\
    lock_pages tag_hash t0 p tags = Done (t, p', ls) /\ length ls = length tags /\
    forall tag, polar_logindex_mini_trans_find tag_hash t tag =
                Done (if decide (tag ∈ tags) then lsn else InvalidXLogRecPtr).
Proof.
  intros Hl Hnd Hlen. rewrite table_size in Hlen.
  set (t0 := mk_trans true lsn 0 (mt_info mini_trans_init)).
  assert (mt_abs hash t0 (fun _ => None)) as HM.
  { exists []. split; [apply (wf_same_links hash mini_trans_init [] (init_table_wf hash)); done|].
    intros tag l. rewrite elem_of_nil. split; [done|]. by intros []. }
  destruct (lock_pages_abs tags t0 (fun _ => None) p 0 HM) as (t & p' & ls & Hrun & Hll & Hs & Hl' & M & HM' & Hiff);
    try done; [by exists []|lia|].
  exists t0, t, p', ls. split_and!; try done. intros tag.
  transitivity (Done (if M tag then mt_lsn t else InvalidXLogRecPtr)).
  { apply (key_find_abs hash (hash_page_range tag_hash)); [done|done|]. by rewrite Hl'. }
  rewrite Hl'. specialize (Hiff tag). cbn in Hiff. rewrite is_Some_alt in Hiff.
  destruct (M tag), (decide (tag ∈ tags)); try done; naive_solver.
Qed.

Section reachable.
Context (n : nat) (s : msys) (Hn : 2 * Z.of_nat n + 1 < 2 ^ 32) (Hr : rtc (mstep hash) (msys_init n) s).

(** C11: in every reachable state the reference count of a slot in use is
    the number of processes that hold its page lock plus those that wait
    for it, and a process only holds or waits for locks of slots in use:
    no interleaving of locking, unlocking, aborting and ending loses or
    forges a reference. *)
Theorem mini_trans_refcounts_exact l :
  1 <= l <= MINI_TRANSACTION_TABLE_SIZE ->
  (MINI_TRANS_IS_OCCUPIED (ms_trans s) l = true ->
   mi_refcount (info_at (ms_trans s) l) = users (ms_procs s) l) /\
  (forall p, p ∈ ms_procs s -> holds p l = true \/ waits p l = true ->
   MINI_TRANS_IS_OCCUPIED (ms_trans s) l = true).
Proof using Hn Hr.
  intros Hl. destruct (reachable_wf hash (hash_page_range tag_hash) n s Hn Hr) as [_ [ord Hwf]].
  pose proof (mt_occupied_iff _ _ _ (sw_table _ _ _ Hwf) l Hl) as Ho. rewrite Ho. split.
  - apply (sw_refs _ _ _ Hwf).
  - intros p Hp Hu. apply Ho. by apply (sw_users _ _ _ Hwf l p Hp).
Qed.

(** Releasing never PANICs.  In every reachable state a process that
    does not wait can unlock each page lock it holds, and aborting
    releases all of them: afterwards the process holds none. *)
Theorem mini_trans_release_never_panics i p :
  ms_procs s !! i = Some p -> mp_wait p = None ->
  (forall l, holds p l = true ->
     polar_logindex_mini_trans_unlock (ms_trans s) (mp_occ p) l =
     Done (add_ref (ms_trans s) l (-1), mk_proc true (aset (pt_acquired (mp_occ p)) (l - 1) false))) /\
  exists t' o, polar_logindex_abort_mini_transaction (ms_trans s) (mp_occ p) = Done (t', o) /\
    (forall l, holds (mk_mproc o None) l = false) /\
    forall l, MINI_TRANS_IS_OCCUPIED (ms_trans s) l = true -> 1 <= l <= MINI_TRANSACTION_TABLE_SIZE ->
      mi_refcount (info_at t' l) = mi_refcount (info_at (ms_trans s) l) - Z.b2z (holds p l).
Proof using Hn Hr.
  intros Hi Hw. destruct (reachable_wf hash (hash_page_range tag_hash) n s Hn Hr) as [Hlen [ord Hwf]].
  destruct s as [t ps]. cbn [ms_trans ms_procs] in *. split.
  - intros l Hl. eapply unlock_held; try done; lia.
  - destruct (abort_spec hash t ps ord i p Hwf ltac:(lia) Hi Hw) as (t' & o & -> & Hwf' & Hno & _).
    exists t', o. split_and!; try done. intros l Ho Hl.
    apply (mt_occupied_iff _ _ _ (sw_table _ _ _ Hwf) l Hl) in Ho.
    pose proof (sw_refs _ _ _ Hwf l Ho) as E1. pose proof (sw_refs _ _ _ Hwf' l Ho) as E2.
    cbn [ms_trans ms_procs] in E1, E2. rewrite E1, E2, (users_upd ps i p _ l Hi), Hno.
    unfold waits. rewrite Hw. cbn [mp_wait]. rewrite (bool_decide_eq_false_2 (None = Some l)) by done. simpl Z.b2z. lia.
Qed.

(** The end of a transaction waits for exactly the processes that hold
    or wait for one of its page locks; when there is none, the table is
    cleared to its initial state and the next transaction can start. *)
Theorem mini_trans_end_waits_for_holders :
  mt_started (ms_trans s) = false ->
  ((exists p l, p ∈ ms_procs s /\ (holds p l = true \/ waits p l = true)) ->
   mini_trans_end_finish (ms_trans s) = None) /\
  ((~ exists p l, p ∈ ms_procs s /\ (holds p l = true \/ waits p l = true)) ->
   mini_trans_end_finish (ms_trans s) = Some (Done mini_trans_init) /\
   forall lsn, is_done (polar_logindex_mini_trans_start mini_trans_init lsn) = true).
Proof using Hn Hr.
  intros Hs. destruct (reachable_wf hash (hash_page_range tag_hash) n s Hn Hr) as [_ [ord Hwf]].
  destruct s as [t ps]. cbn [ms_trans ms_procs] in *.
  destruct (end_finish_spec hash (hash_page_range tag_hash) t ps ord Hwf) as [H1 H2]. split; [done|]. intros Hno. split; [|done].
  rewrite (H2 Hno), Hs. done.
Qed.
End reachable.
End properties.

(** ** Concrete runs *)

Definition blk (b : Z) : BufferTag := mk_tag 1663 1 16384 0 b.

Definition get_done {A} (d : A) (m : outcome A) : A := match m with Done a => a | Fault _ => d end.

(** Page 0 and page 31 collide. *)
Definition open_table : mini_trans_data_t :=
  get_done mini_trans_init (polar_logindex_mini_trans_start mini_trans_init 500).
Definition one_page : mini_trans_data_t :=
  (get_done (mini_trans_init, 0) (key_lock_table open_table (blk 0) (MINI_TRANSACTION_HASH_PAGE blockNum (blk 0)))).1.

Lemma one_page_abs :
  mt_abs (MINI_TRANSACTION_HASH_PAGE blockNum) one_page (fun tag => if decide (tag = blk 0) then Some 1 else None).
Proof.
  destruct (key_lock_abs (MINI_TRANSACTION_HASH_PAGE blockNum) (hash_page_range blockNum) open_table (fun _ => None) (blk 0))
    as (t' & l & Hk & _ & _ & Hc).
  - exists []. split; [apply (wf_same_links _ mini_trans_init [] (init_table_wf _)); done|].
    intros tag l. rewrite elem_of_nil. split; [done|]. by intros [].
  - done.
  - done.
  - unfold one_page. rewrite Hk. assert (l = 1) as -> by (vm_compute in Hk; congruence).
    destruct Hc as [[E _]|(_ & _ & HM)]; [done|exact HM].
Qed.

Lemma mini_trans_lock_refines_witness :
  exists t' l, polar_logindex_mini_trans_lock blockNum one_page (mp_occ fresh_proc) (blk 31) =
    Done (t', proc_acquire (mp_occ fresh_proc) l, l, Some 500).
Proof.
  destruct (mini_trans_lock_refines_map blockNum one_page _ (mp_occ fresh_proc) (blk 31) one_page_abs)
    as [(_ & _ & H)|(t' & l & H & _)].
  - vm_compute; reflexivity.
  - vm_compute. discriminate.
  - vm_compute in H. discriminate.
  - exists t', l. exact H.
Defined.

Lemma mini_trans_record_lockable_witness :
  exists t0 t p' ls, polar_logindex_mini_trans_start mini_trans_init 500 = Done t0 /\
    lock_pages (fun _ => 7) t0 (mp_occ fresh_proc) (map blk (seqZ 0 33)) = Done (t, p', ls) /\ length ls = 33%nat.
Proof.
  destruct (mini_trans_record_lockable (fun _ => 7) 500 (mp_occ fresh_proc) (map blk (seqZ 0 33)))
    as (t0 & t & p' & ls & H1 & H2 & H3 & _).
  - vm_compute. discriminate.
  - apply (bool_decide_eq_true_1 _). vm_compute. reflexivity.
  - vm_compute. discriminate.
  - exists t0, t, p', ls. split; [exact H1|]. split; [exact H2|]. rewrite H3. vm_compute. reflexivity.
Defined.

(** Process 1 holds slot 1, process 0 waits for it. *)
Definition held_proc : mproc := mk_mproc (proc_acquire (mp_occ fresh_proc) 1) None.
Definition busy_state : msys :=
  mk_msys (add_ref one_page 1 1) [mk_mproc (mp_occ fresh_proc) (Some 1); held_proc].

Lemma busy_reachable : rtc (mstep (MINI_TRANSACTION_HASH_PAGE blockNum)) (msys_init 2) busy_state.
Proof.
  eapply rtc_l; [apply (step_start _ mini_trans_init _ 500 open_table); [done|vm_compute; reflexivity]|].
  eapply rtc_l; [apply (step_request _ open_table _ 1%nat fresh_proc (blk 0) one_page 1); [done|done|vm_compute; reflexivity|done]|].
  eapply rtc_l; [eapply (step_grant _ one_page _ 1%nat _ 1); [reflexivity|done|vm_compute; reflexivity]|].
  eapply rtc_l; [eapply (step_cond_request _ one_page _ 0%nat fresh_proc (blk 0)); [reflexivity|done|vm_compute; reflexivity|done]|].
  apply rtc_refl.
Qed.

Lemma mini_trans_refcounts_exact_witness : mi_refcount (info_at (ms_trans busy_state) 1) = users (ms_procs busy_state) 1.
Proof.
  apply (mini_trans_refcounts_exact blockNum 2 busy_state ltac:(lia) busy_reachable 1).
  - vm_compute. split; discriminate.
  - vm_compute. reflexivity.
Defined.

Lemma mini_trans_release_witness :
  polar_logindex_mini_trans_unlock (ms_trans busy_state) (mp_occ held_proc) 1 =
  Done (add_ref (ms_trans busy_state) 1 (-1), mk_proc true (aset (pt_acquired (mp_occ held_proc)) 0 false)).
Proof.
  apply (mini_trans_release_never_panics blockNum 2 busy_state ltac:(lia) busy_reachable 1 held_proc).
  - reflexivity.
  - reflexivity.
  - vm_compute. reflexivity.
Defined.

Definition ending_state : msys :=
  mk_msys (get_done mini_trans_init (mini_trans_end_begin (ms_trans busy_state) 500)) (ms_procs busy_state).

Lemma ending_reachable : rtc (mstep (MINI_TRANSACTION_HASH_PAGE blockNum)) (msys_init 2) ending_state.
Proof.
  eapply rtc_r; [exact busy_reachable|]. apply (step_end_begin _ _ _ 500); [done|vm_compute; reflexivity].
Qed.

Lemma mini_trans_end_waits_witness : mini_trans_end_finish (ms_trans ending_state) = None.
Proof.
  apply (mini_trans_end_waits_for_holders blockNum 2 ending_state ltac:(lia) ending_reachable).
  - vm_compute. reflexivity.
  - exists held_proc, 1. split; [right; left|left; vm_compute; reflexivity].
Defined.
