(* ===== verification/LogIndexTable.v ===== *)
(** * Log index tables (polar_logindex_internal.h, polar_logindex.c)

    The log index keeps, per page, the LSNs of the WAL records that changed
    it.  A table is an array of 4096 segments of fixed size used for two
    purposes: an item head starts the entries of a page with two LSNs and
    links to segments with ten more each.  Heads hang in hash buckets; only
    the low 32 bits of an LSN are stored, all LSNs of a table share the
    high ones.  [idx_order] lists the entries in insertion order.

    A segment is a C union; here it is an inductive type with the zeroed
    memory as its own constructor.  Reading it through the wrong member is
    undefined, but for [head_seg], which both members have first.  Segment
    numbers count from 1, 0 is no segment.  [Assert] is not compiled in
    production builds and has no counterpart. *)

From S2P Require Import Prelude BufTag.

Definition LOG_INDEX_MEM_TBL_SEG_NUM : Z := 4096.
Definition LOG_INDEX_MEM_TBL_HASH_NUM : Z := LOG_INDEX_MEM_TBL_SEG_NUM / 2.
Definition LOG_INDEX_TBL_INVALID_SEG : Z := 0.
Definition LOG_INDEX_ITEM_HEAD_LSN_NUM : Z := 2.
Definition LOG_INDEX_ITEM_SEG_LSN_NUM : Z := 10.
Definition LOG_INDEX_MAX_ORDER_NUM : Z := LOG_INDEX_MEM_TBL_SEG_NUM * LOG_INDEX_ITEM_SEG_LSN_NUM.

Record log_index_lsn_t := mk_lsn_info { li_tag : BufferTag; li_lsn : Z; li_prev_lsn : Z }.

Record log_item_head_t := mk_head {
  ih_head_seg : Z;
  ih_next_item : Z;
  ih_next_seg : Z;
  ih_tail_seg : Z;
  ih_tag : BufferTag;
  ih_number : Z;
  ih_prev_page_lsn : Z;
  ih_suffix_lsn : list Z
}.

Record log_item_seg_t := mk_seg {
  is_head_seg : Z;
  is_next_seg : Z;
  is_prev_seg : Z;
  is_number : Z;
  is_suffix_lsn : list Z
}.

Inductive log_tbl_seg_t :=
| item_head (h : log_item_head_t)
| item_seg (s : log_item_seg_t)
| padding.

Definition zero_tag : BufferTag := mk_tag 0 0 0 0 0.
Definition zero_head : log_item_head_t :=
  mk_head 0 0 0 0 zero_tag 0 0 (replicate (Z.to_nat LOG_INDEX_ITEM_HEAD_LSN_NUM) 0).
Definition zero_seg : log_item_seg_t :=
  mk_seg 0 0 0 0 (replicate (Z.to_nat LOG_INDEX_ITEM_SEG_LSN_NUM) 0).

Record log_idx_table_data_t := mk_table {
  td_idx_table_id : Z;
  td_min_lsn : Z;
  td_max_lsn : Z;
  td_prefix_lsn : Z;
  td_crc : Z;
  td_last_order : Z;
  td_idx_order : list Z;
  td_hash : list Z;
  td_segment : list log_tbl_seg_t
}.

Record log_mem_table_t := mk_mem_table {
  lt_free_head : Z;
  lt_state : Z;
  lt_data : log_idx_table_data_t
}.

(** ** Access to segments *)

Definition seg_at (d : log_idx_table_data_t) (id : Z) : log_tbl_seg_t := aget padding (td_segment d) (id - 1).
Definition set_seg (d : log_idx_table_data_t) (id : Z) (u : log_tbl_seg_t) : log_idx_table_data_t :=
  mk_table (td_idx_table_id d) (td_min_lsn d) (td_max_lsn d) (td_prefix_lsn d) (td_crc d) (td_last_order d)
           (td_idx_order d) (td_hash d) (aset (td_segment d) (id - 1) u).

Definition as_head (u : log_tbl_seg_t) : outcome log_item_head_t :=
  match u with item_head h => Done h | padding => Done zero_head | item_seg _ => Fault UNDEFINED end.
Definition as_seg (u : log_tbl_seg_t) : outcome log_item_seg_t :=
  match u with item_seg s => Done s | padding => Done zero_seg | item_head _ => Fault UNDEFINED end.

(** The field both members start with. *)
Definition seg_head_seg (u : log_tbl_seg_t) : Z :=
  match u with item_head h => ih_head_seg h | item_seg s => is_head_seg s | padding => 0 end.

(** A pointer into the table, [None] for a null pointer. *)
Definition log_index_item_head (d : log_idx_table_data_t) (head : Z) : outcome (option log_tbl_seg_t) :=
  if head >? LOG_INDEX_MEM_TBL_SEG_NUM then Fault PANIC
  else Done (if head =? LOG_INDEX_TBL_INVALID_SEG then None else Some (seg_at d head)).

Definition log_index_item_seg (d : log_idx_table_data_t) (seg : Z) : outcome (option log_tbl_seg_t) :=
  if seg >? LOG_INDEX_MEM_TBL_SEG_NUM then Fault PANIC
  else Done (if seg =? LOG_INDEX_TBL_INVALID_SEG then None else Some (seg_at d seg)).

Definition deref {A} (p : option A) : outcome A := match p with Some a => Done a | None => Fault UNDEFINED end.

(** The item head, or the segment, that a number points at. *)
Definition get_head (d : log_idx_table_data_t) (id : Z) : outcome log_item_head_t :=
  let! p := log_index_item_head d id in let! u := deref p in as_head u.
Definition get_seg (d : log_idx_table_data_t) (id : Z) : outcome log_item_seg_t :=
  let! p := log_index_item_seg d id in let! u := deref p in as_seg u.

(** ** LSNs *)

Definition LOG_INDEX_COMBINE_LSN (d : log_idx_table_data_t) (suffix : Z) : Z :=
  Z.lor (Z.shiftl (td_prefix_lsn d) 32) suffix.
Definition LOG_INDEX_SAME_TABLE_LSN_PREFIX (d : log_idx_table_data_t) (lsn : Z) : bool :=
  td_prefix_lsn d =? Z.shiftr lsn 32.
Definition LOG_INDEX_INSERT_LSN_INFO (suffix_lsn : list Z) (idx lsn : Z) : list Z :=
  aset suffix_lsn idx (u32 (Z.shiftr (u64 (Z.shiftl lsn 32)) 32)).

Definition LOG_INDEX_SEG_MIN_LSN (d : log_idx_table_data_t) (suffix_lsn : list Z) : Z :=
  LOG_INDEX_COMBINE_LSN d (aget 0 suffix_lsn 0).
Definition LOG_INDEX_SEG_MAX_LSN (d : log_idx_table_data_t) (suffix_lsn : list Z) (number : Z) : Z :=
  LOG_INDEX_COMBINE_LSN d (aget 0 suffix_lsn (number - 1)).

Definition log_index_item_max_lsn (d : log_idx_table_data_t) (item : log_item_head_t) : outcome Z :=
  if ih_head_seg item =? ih_tail_seg item then Done (LOG_INDEX_SEG_MAX_LSN d (ih_suffix_lsn item) (ih_number item))
  else let! seg := get_seg d (ih_tail_seg item) in
       Done (LOG_INDEX_SEG_MAX_LSN d (is_suffix_lsn seg) (is_number seg)).

(** ** Looking a page up *)

Definition LOG_INDEX_TBL_SLOT_VALUE (d : log_idx_table_data_t) (key : Z) : Z := aget 0 (td_hash d) key.

(** The walk along a bucket; a bucket has at most as many items as the
    table has segments. *)
Fixpoint exists_page_loop (fuel : nat) (tag : BufferTag) (d : log_idx_table_data_t) (exists_ : Z) : outcome Z :=
  match fuel with
  | O => Fault OUT_OF_FUEL
  | S n =>
    let! p := log_index_item_head d exists_ in
    match p with
    | None => Done exists_
    | Some u =>
      let! item := as_head u in
      if negb (BUFFERTAGS_EQUAL (ih_tag item) tag) then exists_page_loop n tag d (ih_next_item item)
      else Done exists_
    end
  end.

Definition SEG_FUEL : nat := S (Z.to_nat LOG_INDEX_MEM_TBL_SEG_NUM).

Definition log_index_mem_tbl_exists_page (tag : BufferTag) (d : log_idx_table_data_t) (key : Z) : outcome Z :=
  exists_page_loop SEG_FUEL tag d (LOG_INDEX_TBL_SLOT_VALUE d key).

(** The number of the item's head, 0 for a null pointer. *)
Definition log_index_tbl_find (tag : BufferTag) (d : log_idx_table_data_t) (key : Z) : outcome Z :=
  let! item_id := log_index_mem_tbl_exists_page tag d key in
  let! p := log_index_item_head d item_id in
  Done (match p with None => LOG_INDEX_TBL_INVALID_SEG | Some _ => item_id end).

(** ** Adding an entry *)

Definition log_index_mem_seg_full (d : log_idx_table_data_t) (head : Z) : outcome bool :=
  let! item := get_head d head in
  if ih_tail_seg item =? head then Done (ih_number item =? LOG_INDEX_ITEM_HEAD_LSN_NUM)
  else let! seg := get_seg d (ih_tail_seg item) in
       Done (is_number seg =? LOG_INDEX_ITEM_SEG_LSN_NUM).

Definition set_hash (d : log_idx_table_data_t) (key id : Z) : log_idx_table_data_t :=
  mk_table (td_idx_table_id d) (td_min_lsn d) (td_max_lsn d) (td_prefix_lsn d) (td_crc d) (td_last_order d)
           (td_idx_order d) (aset (td_hash d) key id) (td_segment d).

Definition log_index_insert_new_item (lsn_info : log_index_lsn_t) (d : log_idx_table_data_t) (key new_item_id : Z)
  : outcome log_idx_table_data_t :=
  let! new_item := get_head d new_item_id in
  let slot := LOG_INDEX_TBL_SLOT_VALUE d key in
  let next_item := if slot =? LOG_INDEX_TBL_INVALID_SEG then LOG_INDEX_TBL_INVALID_SEG else slot in
  Done (set_hash
          (set_seg d new_item_id
             (item_head (mk_head new_item_id next_item LOG_INDEX_TBL_INVALID_SEG new_item_id (li_tag lsn_info) 1
                           (li_prev_lsn lsn_info)
                           (LOG_INDEX_INSERT_LSN_INFO (ih_suffix_lsn new_item) 0 (li_lsn lsn_info)))))
          key new_item_id).

Definition head_set_next_seg (h : log_item_head_t) (x : Z) : log_item_head_t :=
  mk_head (ih_head_seg h) (ih_next_item h) x (ih_tail_seg h) (ih_tag h) (ih_number h) (ih_prev_page_lsn h) (ih_suffix_lsn h).
Definition head_set_tail_seg (h : log_item_head_t) (x : Z) : log_item_head_t :=
  mk_head (ih_head_seg h) (ih_next_item h) (ih_next_seg h) x (ih_tag h) (ih_number h) (ih_prev_page_lsn h) (ih_suffix_lsn h).
Definition seg_set_next_seg (s : log_item_seg_t) (x : Z) : log_item_seg_t :=
  mk_seg (is_head_seg s) x (is_prev_seg s) (is_number s) (is_suffix_lsn s).

(** The pointers may meet in the same memory, so each is read again after
    the writes before it. *)
Definition log_index_insert_new_seg (d : log_idx_table_data_t) (head seg_id : Z) (lsn_info : log_index_lsn_t)
  : outcome log_idx_table_data_t :=
  let! seg := get_seg d seg_id in
  let d := set_seg d seg_id (item_seg (mk_seg head (is_next_seg seg) (is_prev_seg seg) (is_number seg) (is_suffix_lsn seg))) in
  let! item := get_head d head in
  let! d := (if ih_tail_seg item =? head then Done (set_seg d head (item_head (head_set_next_seg item seg_id)))
             else
               let! p := log_index_item_seg d (ih_tail_seg item) in
               match p with
               | None => Fault PANIC
               | Some u => let! pre_seg := as_seg u in
                           Done (set_seg d (ih_tail_seg item) (item_seg (seg_set_next_seg pre_seg seg_id)))
               end) in
  let! item := get_head d head in
  let prev := ih_tail_seg item in
  let d := set_seg d head (item_head (head_set_tail_seg item seg_id)) in
  let! seg := get_seg d seg_id in
  Done (set_seg d seg_id
          (item_seg (mk_seg (is_head_seg seg) LOG_INDEX_TBL_INVALID_SEG prev 1
                       (LOG_INDEX_INSERT_LSN_INFO (is_suffix_lsn seg) 0 (li_lsn lsn_info))))).

(** The table and the index the entry got in its segment. *)
Definition log_index_append_lsn (d : log_idx_table_data_t) (head : Z) (lsn_info : log_index_lsn_t)
  : outcome (log_idx_table_data_t * Z) :=
  let! item := get_head d head in
  if ih_tail_seg item =? head then
    let idx := ih_number item in
    Done (set_seg d head
            (item_head (mk_head (ih_head_seg item) (ih_next_item item) (ih_next_seg item) (ih_tail_seg item)
                          (ih_tag item) (u8 (idx + 1)) (ih_prev_page_lsn item)
                          (LOG_INDEX_INSERT_LSN_INFO (ih_suffix_lsn item) idx (li_lsn lsn_info)))), idx)
  else
    let! seg := get_seg d (ih_tail_seg item) in
    let idx := is_number seg in
    Done (set_seg d (ih_tail_seg item)
            (item_seg (mk_seg (is_head_seg seg) (is_next_seg seg) (is_prev_seg seg) (u8 (idx + 1))
                         (LOG_INDEX_INSERT_LSN_INFO (is_suffix_lsn seg) idx (li_lsn lsn_info)))), idx).

(** ** The insertion order *)

Definition LOG_INDEX_ORDER_SEG_MASK : Z := 0x0FFF.
Definition LOG_INDEX_ORDER_IDX_MASK : Z := 0xF000.
Definition LOG_INDEX_ORDER_IDX_SHIFT : Z := 12.
Definition LOG_INDEX_SEG_ORDER (idx_order : Z) : Z := Z.land idx_order LOG_INDEX_ORDER_SEG_MASK.
Definition LOG_INDEX_ID_ORDER (idx_order : Z) : Z :=
  Z.shiftr (Z.land idx_order LOG_INDEX_ORDER_IDX_MASK) LOG_INDEX_ORDER_IDX_SHIFT.

(** The array has no room at [LOG_INDEX_MAX_ORDER_NUM]. *)
Definition LOG_INDEX_MEM_TBL_ADD_ORDER (d : log_idx_table_data_t) (seg_id idx : Z) : outcome log_idx_table_data_t :=
  if td_last_order d <? LOG_INDEX_MAX_ORDER_NUM then
    Done (mk_table (td_idx_table_id d) (td_min_lsn d) (td_max_lsn d) (td_prefix_lsn d) (td_crc d)
            (u32 (td_last_order d + 1))
            (aset (td_idx_order d) (td_last_order d)
               (Z.lor (Z.land seg_id LOG_INDEX_ORDER_SEG_MASK)
                      (Z.land (Z.shiftl idx LOG_INDEX_ORDER_IDX_SHIFT) LOG_INDEX_ORDER_IDX_MASK)))
            (td_hash d) (td_segment d))
  else Fault UNDEFINED.

Definition log_index_get_seg_page_tag (d : log_idx_table_data_t) (seg_id : Z) : outcome BufferTag :=
  let! p := log_index_item_seg d seg_id in
  let! seg := deref p in
  let! head := get_head d (seg_head_seg seg) in
  Done (ih_tag head).

Definition log_index_get_seg_prev_lsn (d : log_idx_table_data_t) (seg_id idx : Z) : outcome Z :=
  let! p := log_index_item_seg d seg_id in
  let! u := deref p in
  if seg_head_seg u =? seg_id then
    let! head := get_head d seg_id in
    Done (if idx =? 0 then ih_prev_page_lsn head
          else LOG_INDEX_COMBINE_LSN d (aget 0 (ih_suffix_lsn head) (idx - 1)))
  else
    let! seg := as_seg u in
    if idx >? 0 then Done (LOG_INDEX_COMBINE_LSN d (aget 0 (is_suffix_lsn seg) (idx - 1)))
    else
      let prev_seg := is_prev_seg seg in
      if prev_seg =? is_head_seg seg then
        let! head := get_head d prev_seg in
        Done (LOG_INDEX_COMBINE_LSN d (aget 0 (ih_suffix_lsn head) (ih_number head - 1)))
      else
        let! seg := get_seg d prev_seg in
        Done (LOG_INDEX_COMBINE_LSN d (aget 0 (is_suffix_lsn seg) (is_number seg - 1))).

(** The LSN at a position of the order with the other fields of
    [lsn_info]; [None] when there is no such position. *)
Definition log_index_get_order_lsn (d : log_idx_table_data_t) (order : Z) : outcome (option log_index_lsn_t) :=
  if order >=? td_last_order d then Done None
  else
    let o := aget 0 (td_idx_order d) order in
    let seg_id := LOG_INDEX_SEG_ORDER o in
    let idx := LOG_INDEX_ID_ORDER o in
    let! p := log_index_item_seg d seg_id in
    let! u := deref p in
    let! lsn := (if seg_head_seg u =? seg_id then
                   let! head := get_head d seg_id in
                   Done (LOG_INDEX_COMBINE_LSN d (aget 0 (ih_suffix_lsn head) idx))
                 else
                   let! seg := as_seg u in
                   Done (LOG_INDEX_COMBINE_LSN d (aget 0 (is_suffix_lsn seg) idx))) in
    let! prev := log_index_get_seg_prev_lsn d seg_id idx in
    let! tag := log_index_get_seg_page_tag d seg_id in
    Done (Some (mk_lsn_info tag lsn prev)).
