(* ===== verification/LogIndexRepr.v ===== *)
(** * What a log index table stands for

    The abstract view of a table: per hash bucket a list of pages, per page
    its blocks of LSN suffixes, the head block first; and the log of
    entries in insertion order.  [table_repr] relates it to the memory of
    the table. *)

From S2P Require Import Prelude BufTag LogIndexTable.

(** ** LSNs and order entries *)

Definition suffix (lsn : Z) : Z := lsn mod 2 ^ 32.

Lemma insert_lsn_info_suffix sfx idx lsn :
  LOG_INDEX_INSERT_LSN_INFO sfx idx lsn = aset sfx idx (suffix lsn).
Proof.
  unfold LOG_INDEX_INSERT_LSN_INFO. f_equal. unfold suffix, u64, u32, wrap.
  rewrite Z.shiftl_mul_pow2, Z.shiftr_div_pow2 by lia.
  replace (2 ^ 64) with (2 ^ 32 * 2 ^ 32) by reflexivity.
  rewrite Zmult_mod_distr_r, Z.div_mul by lia. by rewrite Z.mod_mod by lia.
Qed.

Lemma combine_suffix d lsn :
  LOG_INDEX_SAME_TABLE_LSN_PREFIX d lsn = true -> LOG_INDEX_COMBINE_LSN d (suffix lsn) = lsn.
Proof.
  unfold LOG_INDEX_SAME_TABLE_LSN_PREFIX, LOG_INDEX_COMBINE_LSN, suffix. intros H%Z.eqb_eq. rewrite H.
  apply Z.bits_inj'. intros n Hn. rewrite Z.lor_spec. destruct (decide (n < 32)).
  - rewrite Z.shiftl_spec_low by lia. by rewrite Z.mod_pow2_bits_low by lia.
  - rewrite Z.shiftl_spec_high, Z.shiftr_spec by lia. rewrite Z.mod_pow2_bits_high by lia.
    rewrite orb_false_r. f_equal. lia.
Qed.

Definition order_code (seg_id idx : Z) : Z :=
  Z.lor (Z.land seg_id LOG_INDEX_ORDER_SEG_MASK)
        (Z.land (Z.shiftl idx LOG_INDEX_ORDER_IDX_SHIFT) LOG_INDEX_ORDER_IDX_MASK).

(** Both parts of an order entry are read back, for every segment number of
    a table and every index. *)
Lemma order_code_roundtrip seg_id idx :
  0 <= seg_id < 4096 -> 0 <= idx < 16 ->
  LOG_INDEX_SEG_ORDER (order_code seg_id idx) = seg_id /\ LOG_INDEX_ID_ORDER (order_code seg_id idx) = idx.
Proof.
  intros Hs Hi.
  unfold LOG_INDEX_SEG_ORDER, LOG_INDEX_ID_ORDER, order_code, LOG_INDEX_ORDER_SEG_MASK, LOG_INDEX_ORDER_IDX_MASK, LOG_INDEX_ORDER_IDX_SHIFT.
  rewrite !Z.land_lor_distr_l, <- !Z.land_assoc. change (Z.land 4095 4095) with (Z.ones 12). change (Z.land 61440 4095) with 0.
  change (Z.land 4095 61440) with 0. change (Z.land 61440 61440) with 61440. rewrite !Z.land_0_r, Z.lor_0_r, Z.lor_0_l. split.
  - by rewrite Z.land_ones, Z.mod_small by lia.
  - rewrite Z.shiftr_land, Z.shiftr_shiftl_l by lia. change (Z.shiftr 61440 12) with (Z.ones 4). change (12 - 12) with 0.
    by rewrite Z.shiftl_0_r, Z.land_ones, Z.mod_small by lia.
Qed.

(** ** Pages *)

Record apage := mk_apage {
  ap_tag : BufferTag;
  ap_prev : Z;
  ap_id : Z;
  ap_first : list Z;
  ap_segs : list (Z * list Z)
}.

Definition page_blocks (p : apage) : list (Z * list Z) := (ap_id p, ap_first p) :: ap_segs p.
Definition page_ids (p : apage) : list Z := map fst (page_blocks p).
Definition page_sfx (p : apage) : list Z := concat (map snd (page_blocks p)).

(** First number of a list of blocks, and last one, with defaults. *)
Definition next_id (bs : list (Z * list Z)) (nxt : Z) : Z := match bs with [] => nxt | b :: _ => b.1 end.
Definition last_id (prev : Z) (bs : list (Z * list Z)) : Z := default prev (fst <$> list.last bs).
Definition tail_id (p : apage) : Z := last_id (ap_id p) (ap_segs p).

(** An array of [n] suffixes whose first ones are [ls]. *)
Definition holds_sfx (n : nat) (sfx ls : list Z) : Prop := length sfx = n /\ take (length ls) sfx = ls.

Definition seg_ok (d : log_idx_table_data_t) (hd prev nxt s : Z) (ls : list Z) : Prop :=
  exists sfx, seg_at d s = item_seg (mk_seg hd nxt prev (Z.of_nat (length ls)) sfx) /\ holds_sfx 10 sfx ls.

Fixpoint segs_ok (d : log_idx_table_data_t) (hd prev : Z) (bs : list (Z * list Z)) (nxt : Z) : Prop :=
  match bs with
  | [] => True
  | (s, ls) :: rest => seg_ok d hd prev (next_id rest nxt) s ls /\ segs_ok d hd s rest nxt
  end.

Definition head_ok (d : log_idx_table_data_t) (nxt : Z) (p : apage) : Prop :=
  exists sfx, seg_at d (ap_id p) =
    item_head (mk_head (ap_id p) nxt (next_id (ap_segs p) 0) (tail_id p) (ap_tag p)
                 (Z.of_nat (length (ap_first p))) (ap_prev p) sfx) /\ holds_sfx 2 sfx (ap_first p).

Definition page_ok (d : log_idx_table_data_t) (nxt : Z) (p : apage) : Prop :=
  head_ok d nxt p /\ segs_ok d (ap_id p) (ap_id p) (ap_segs p) 0.

Definition hd_id (ps : list apage) : Z := match ps with [] => 0 | p :: _ => ap_id p end.

Fixpoint pages_ok (d : log_idx_table_data_t) (ps : list apage) : Prop :=
  match ps with
  | [] => True
  | p :: ps => page_ok d (hd_id ps) p /\ pages_ok d ps
  end.

(** Every block but the last is full, and none is empty. *)
Definition sizes_ok (p : apage) : Prop :=
  (1 <= length (ap_first p) <= 2)%nat /\
  (ap_segs p <> [] -> length (ap_first p) = 2%nat) /\
  (forall i b, ap_segs p !! i = Some b -> (1 <= length b.2 <= 10)%nat /\
     (S i < length (ap_segs p) -> length b.2 = 10)%nat).

Definition all_ids (A : list (list apage)) : list Z := concat (map page_ids (concat A)).

(** ** Lemmas on blocks *)

Lemma segs_ok_app d hd prev a b nxt :
  segs_ok d hd prev (a ++ b) nxt <-> segs_ok d hd prev a (next_id b nxt) /\ segs_ok d hd (last_id prev a) b nxt.
Proof.
  revert prev. induction a as [|[s ls] a IH]; intros prev; simpl; [unfold last_id; simpl; tauto|].
  rewrite IH. assert (last_id prev ((s, ls) :: a) = last_id s a) as ->.
  { unfold last_id. rewrite last_cons. by destruct (list.last a). }
  assert (next_id (a ++ b) nxt = next_id a (next_id b nxt)) as -> by (by destruct a). tauto.
Qed.

Lemma last_id_snoc prev a b : last_id prev (a ++ [b]) = b.1.
Proof. unfold last_id. by rewrite last_snoc. Qed.

Lemma segs_ok_frame d d' hd prev bs nxt :
  (forall s, s ∈ map fst bs -> seg_at d' s = seg_at d s) -> segs_ok d hd prev bs nxt -> segs_ok d' hd prev bs nxt.
Proof.
  revert prev. induction bs as [|[s ls] bs IH]; intros prev Hf; [done|]. intros [(sfx & H1 & H2) Hr]. split.
  - exists sfx. rewrite Hf by (by left). done.
  - apply IH; [|done]. intros s' Hs'. apply Hf. by right.
Qed.

Lemma page_ok_frame d d' nxt p :
  (forall s, s ∈ page_ids p -> seg_at d' s = seg_at d s) -> page_ok d nxt p -> page_ok d' nxt p.
Proof.
  intros Hf [(sfx & H1 & H2) Hs]. split.
  - exists sfx. rewrite Hf by (by left). done.
  - eapply segs_ok_frame; [|done]. intros s Hs'. apply Hf. by right.
Qed.

Lemma pages_ok_frame d d' ps :
  (forall s, s ∈ concat (map page_ids ps) -> seg_at d' s = seg_at d s) -> pages_ok d ps -> pages_ok d' ps.
Proof.
  induction ps as [|p ps IH]; intros Hf; [done|]. intros [Hp Hr]. cbn [map concat] in Hf. split.
  - eapply page_ok_frame; [|done]. intros s Hs. apply Hf, elem_of_app. by left.
  - apply IH; [|done]. intros s Hs. apply Hf, elem_of_app. by right.
Qed.

(** Changing one page of a bucket in place. *)
Lemma pages_ok_replace d d' ps1 p p' ps2 :
  pages_ok d (ps1 ++ p :: ps2) -> ap_id p' = ap_id p ->
  (forall s, s ∈ concat (map page_ids (ps1 ++ ps2)) -> seg_at d' s = seg_at d s) ->
  (forall nxt, page_ok d nxt p -> page_ok d' nxt p') ->
  pages_ok d' (ps1 ++ p' :: ps2).
Proof.
  intros Hok Hid Hf Hp. induction ps1 as [|q ps1 IH]; cbn [app map concat pages_ok] in *.
  - destruct Hok as [H1 H2]. split; [by apply Hp|]. by eapply pages_ok_frame.
  - destruct Hok as [H1 H2]. split.
    + assert (hd_id (ps1 ++ p' :: ps2) = hd_id (ps1 ++ p :: ps2)) as -> by (by destruct ps1).
      eapply page_ok_frame; [|done]. intros s Hs. apply Hf, elem_of_app. by left.
    + apply IH; [done|]. intros s Hs. apply Hf, elem_of_app. by right.
Qed.

Lemma pages_ok_in d ps p : pages_ok d ps -> p ∈ ps -> exists nxt, page_ok d nxt p.
Proof.
  induction ps as [|q ps IH]; intros Hok Hp; [by apply not_elem_of_nil in Hp|].
  destruct Hok as [H1 H2]. apply elem_of_cons in Hp as [->|Hp]; [by eexists|by apply IH].
Qed.

(** ** Cells: the entries of a page with their places *)

Definition cells_of (b : Z * list Z) : list (Z * nat * Z) := imap (fun i x => (b.1, i, x)) b.2.
Definition page_cells (p : apage) : list (Z * nat * Z) := concat (map cells_of (page_blocks p)).

(** The entry in the [n]th cell of a page. *)
Definition entry_of (d : log_idx_table_data_t) (p : apage) (n : nat) (x : Z) : log_index_lsn_t :=
  mk_lsn_info (ap_tag p) (LOG_INDEX_COMBINE_LSN d x)
    (match n with
     | O => ap_prev p
     | S m => LOG_INDEX_COMBINE_LSN d (default 0 (page_sfx p !! m))
     end).

Lemma cells_of_sfx b : map snd (cells_of b) = b.2.
Proof.
  unfold cells_of. destruct b as [s ls]. simpl. apply list_eq. intros i.
  rewrite list_lookup_fmap, list_lookup_imap. by destruct (ls !! i).
Qed.

Lemma page_cells_sfx p : map snd (page_cells p) = page_sfx p.
Proof.
  unfold page_cells, page_sfx. induction (page_blocks p) as [|b bs IH]; [done|].
  cbn [map concat]. by rewrite map_app, cells_of_sfx, IH.
Qed.

Lemma elem_of_cells_of b s i x : (s, i, x) ∈ cells_of b <-> s = b.1 /\ b.2 !! i = Some x.
Proof.
  unfold cells_of. rewrite elem_of_lookup_imap. split.
  - intros (j & y & [= -> -> ->] & Hj). done.
  - intros [-> Hx]. by exists i, x.
Qed.

Lemma elem_of_concat_map {A B} (f : A -> list B) (l : list A) y : y ∈ concat (map f l) <-> exists a, a ∈ l /\ y ∈ f a.
Proof.
  induction l as [|a l IH]; cbn [map concat].
  - split; [intros H; by apply not_elem_of_nil in H|]. intros (a & H & _). by apply not_elem_of_nil in H.
  - rewrite elem_of_app, IH. setoid_rewrite elem_of_cons. naive_solver.
Qed.

Lemma elem_of_concat {A} (ll : list (list A)) x : x ∈ concat ll <-> exists l, x ∈ l /\ l ∈ ll.
Proof.
  rewrite <- (map_id ll) at 1. rewrite (elem_of_concat_map id). unfold id. naive_solver.
Qed.

Lemma elem_of_page_cells p s i x :
  (s, i, x) ∈ page_cells p <-> exists b, b ∈ page_blocks p /\ s = b.1 /\ b.2 !! i = Some x.
Proof. unfold page_cells. rewrite elem_of_concat_map. by setoid_rewrite elem_of_cells_of. Qed.

(** ** Places in a concatenation *)

Lemma concat_lookup {A} (ll : list (list A)) n y :
  concat ll !! n = Some y ->
  exists m i l, ll !! m = Some l /\ l !! i = Some y /\ n = (length (concat (take m ll)) + i)%nat.
Proof.
  revert n. induction ll as [|l ll IH]; intros n H; [done|]. cbn [concat] in H.
  destruct (decide (n < length l)%nat) as [Hlt|Hge].
  - rewrite lookup_app_l in H by done. by exists 0%nat, n, l.
  - rewrite lookup_app_r in H by lia. destruct (IH _ H) as (m & i & l' & H1 & H2 & H3).
    exists (S m), i, l'. split_and!; [done|done|]. cbn [take concat]. rewrite length_app. lia.
Qed.

Lemma concat_lookup_at {A} (ll : list (list A)) m i l :
  ll !! m = Some l -> (i < length l)%nat -> concat ll !! (length (concat (take m ll)) + i)%nat = l !! i.
Proof.
  intros Hm Hi. replace (concat ll) with (concat (take m ll ++ l :: drop (S m) ll)) by (by rewrite take_drop_middle).
  rewrite concat_app. cbn [concat].
  rewrite lookup_app_r by lia. rewrite lookup_app_l by lia. f_equal. lia.
Qed.

Lemma concat_take_S {A} (ll : list (list A)) m l :
  ll !! m = Some l -> concat (take (S m) ll) = concat (take m ll) ++ l.
Proof. intros Hm. rewrite (take_S_r _ _ _ Hm), concat_app. cbn [concat]. by rewrite app_nil_r. Qed.

(** ** The relation *)

Section repr.
Context (hash : BufferTag -> Z).

Record table_repr (d : log_idx_table_data_t) (free : Z) (A : list (list apage)) (Q : list (Z * nat))
    (L : list log_index_lsn_t) : Prop := {
  tr_hash_len : length (td_hash d) = 2048%nat;
  tr_seg_len : length (td_segment d) = 4096%nat;
  tr_ord_len : Z.of_nat (length (td_idx_order d)) = LOG_INDEX_MAX_ORDER_NUM;
  tr_buckets : length A = 2048%nat;
  tr_bucket : forall k ps, A !! k = Some ps ->
    aget 0 (td_hash d) (Z.of_nat k) = hd_id ps /\ pages_ok d ps /\ NoDup (map ap_tag ps) /\
    forall p, p ∈ ps -> hash (ap_tag p) = Z.of_nat k;
  tr_sizes : forall p, p ∈ concat A -> sizes_ok p;
  tr_ids : NoDup (all_ids A);
  tr_range : forall id, id ∈ all_ids A -> 1 <= id < free;
  tr_free : 1 <= free <= LOG_INDEX_MEM_TBL_SEG_NUM;
  tr_fresh : forall id, free <= id <= LOG_INDEX_MEM_TBL_SEG_NUM -> seg_at d id = padding;
  tr_last : td_last_order d = Z.of_nat (length Q);
  tr_order : forall j s i, Q !! j = Some (s, i) -> aget 0 (td_idx_order d) (Z.of_nat j) = order_code s (Z.of_nat i);
  tr_nodup : NoDup Q;
  tr_len : length Q = length L;
  tr_log : forall j s i e, Q !! j = Some (s, i) -> L !! j = Some e ->
    exists p n x, p ∈ concat A /\ page_cells p !! n = Some (s, i, x) /\ e = entry_of d p n x;
  tr_page : forall p, p ∈ concat A ->
    page_sfx p = map (fun e => suffix (li_lsn e)) (filter (fun e => li_tag e = ap_tag p) L);
  tr_entry : forall e, e ∈ L ->
    LOG_INDEX_SAME_TABLE_LSN_PREFIX d (li_lsn e) = true /\ exists p, p ∈ concat A /\ ap_tag p = li_tag e
}.

Context (Hhash : forall tag, 0 <= hash tag < LOG_INDEX_MEM_TBL_HASH_NUM).

Section reading.
Context (d : log_idx_table_data_t) (free : Z) (A : list (list apage)) (Q : list (Z * nat)) (L : list log_index_lsn_t).
Context (HR : table_repr d free A Q L).

Lemma page_id_all p s : p ∈ concat A -> s ∈ page_ids p -> s ∈ all_ids A.
Proof. intros Hp Hs. unfold all_ids. apply elem_of_concat_map. by exists p. Qed.

Lemma page_id_range p s : p ∈ concat A -> s ∈ page_ids p -> 1 <= s < 4096.
Proof.
  intros Hp Hs. pose proof (tr_range _ _ _ _ _ HR s (page_id_all p s Hp Hs)).
  pose proof (tr_free _ _ _ _ _ HR). unfold LOG_INDEX_MEM_TBL_SEG_NUM in *. lia.
Qed.

Lemma page_in_repr p : p ∈ concat A -> exists nxt, page_ok d nxt p.
Proof.
  intros (ps & Hp & Hps)%elem_of_concat. apply list_elem_of_lookup_1 in Hps as [k Hk].
  destruct (tr_bucket _ _ _ _ _ HR k ps Hk) as (_ & Hok & _). by eapply pages_ok_in.
Qed.

Lemma item_head_at s : 1 <= s <= 4096 -> log_index_item_head d s = Done (Some (seg_at d s)).
Proof.
  intros Hs. unfold log_index_item_head, LOG_INDEX_MEM_TBL_SEG_NUM, LOG_INDEX_TBL_INVALID_SEG.
  destruct (s >? 4096) eqn:E; zbool; [lia|]. destruct (s =? 0) eqn:E0; zbool; [lia|done].
Qed.

Lemma item_seg_at s : 1 <= s <= 4096 -> log_index_item_seg d s = Done (Some (seg_at d s)).
Proof. apply item_head_at. Qed.

Lemma get_head_at s h : 1 <= s <= 4096 -> seg_at d s = item_head h -> get_head d s = Done h.
Proof. intros Hs Hh. unfold get_head. rewrite item_head_at by done. cbn [obind deref]. by rewrite Hh. Qed.

Lemma get_seg_at s h : 1 <= s <= 4096 -> seg_at d s = item_seg h -> get_seg d s = Done h.
Proof. intros Hs Hh. unfold get_seg. rewrite item_seg_at by done. cbn [obind deref]. by rewrite Hh. Qed.

(** The walk along a bucket finds the page if it is there. *)
Lemma exists_page_loop_spec ps tag fuel :
  pages_ok d ps -> (forall p, p ∈ ps -> 1 <= ap_id p < 4096) -> (length ps < fuel)%nat ->
  (exists p, p ∈ ps /\ ap_tag p = tag /\ exists_page_loop fuel tag d (hd_id ps) = Done (ap_id p)) \/
  ((forall p, p ∈ ps -> ap_tag p <> tag) /\ exists_page_loop fuel tag d (hd_id ps) = Done 0).
Proof.
  revert fuel. induction ps as [|p ps IH]; intros [|fuel] Hok Hid Hf; simpl in Hf; try lia.
  { right. split; [intros p Hp; by apply not_elem_of_nil in Hp|done]. }
  cbn [exists_page_loop hd_id]. pose proof (Hid p ltac:(by left)) as Hr. rewrite item_head_at by lia. cbn [obind].
  destruct Hok as [[(sfx & Hh & _) _] Hrest]. rewrite Hh. cbn [as_head obind ih_tag ih_next_item].
  unfold BUFFERTAGS_EQUAL. case_bool_decide as Ht; cbn [negb].
  - left. exists p. split; [by left|done].
  - destruct (IH fuel Hrest) as [(q & Hq & Hqt & Hrun)|[Hno Hrun]]; [intros q Hq; apply Hid; by right|lia| |].
    + left. exists q. split; [by right|done].
    + right. split; [|done]. intros q [->|Hq]%elem_of_cons; [done|by apply Hno].
Qed.

Lemma all_ids_split k ps : A !! k = Some ps ->
  all_ids A = all_ids (take k A) ++ concat (map page_ids ps) ++ all_ids (drop (S k) A).
Proof.
  intros Hk. unfold all_ids. rewrite <- (take_drop_middle A k ps Hk) at 1.
  by rewrite concat_app, map_app, concat_app; cbn [concat]; rewrite map_app, concat_app.
Qed.

Lemma heads_nodup ps : NoDup (concat (map page_ids ps)) -> NoDup (map ap_id ps).
Proof.
  induction ps as [|p ps IH]; cbn [map concat]; [done|]. intros (_ & Hd & Hr)%NoDup_app.
  apply NoDup_cons. split; [|by apply IH]. intros (q & Hq & Hin)%list_elem_of_fmap_1.
  apply (Hd (ap_id p)); [by left|]. apply elem_of_concat_map. exists q. split; [done|]. rewrite Hq. by left.
Qed.

Lemma bucket_len k ps : A !! k = Some ps -> (length ps <= 4095)%nat.
Proof.
  intros Hk. assert (NoDup (map ap_id ps)) as Hnd.
  { apply heads_nodup. pose proof (tr_ids _ _ _ _ _ HR) as H. rewrite (all_ids_split k ps Hk) in H.
    apply NoDup_app in H as (_ & _ & H). by apply NoDup_app in H as (H & _ & _). }
  assert (map ap_id ps ⊆+ seqZ 1 4095) as Hsub.
  { apply NoDup_submseteq; [done|]. intros x (p & -> & Hp)%list_elem_of_fmap_1. apply elem_of_seqZ.
    pose proof (page_id_range p (ap_id p)) as Hr. assert (p ∈ concat A) as Hc.
    { apply elem_of_concat. exists ps. split; [done|]. by eapply list_elem_of_lookup_2. }
    specialize (Hr Hc ltac:(by left)). lia. }
  apply submseteq_length in Hsub. by rewrite length_map, length_seqZ in Hsub.
Qed.

Lemma bucket_of tag : exists ps, A !! Z.to_nat (hash tag) = Some ps.
Proof.
  apply lookup_lt_is_Some. rewrite (tr_buckets _ _ _ _ _ HR). pose proof (Hhash tag) as H.
  change LOG_INDEX_MEM_TBL_HASH_NUM with 2048 in H. lia.
Qed.

Lemma bucket_page tag ps p : A !! Z.to_nat (hash tag) = Some ps -> p ∈ concat A -> ap_tag p = tag -> p ∈ ps.
Proof.
  intros Hk (ps' & Hp & Hps)%elem_of_concat Ht. apply list_elem_of_lookup_1 in Hps as [k Hk'].
  destruct (tr_bucket _ _ _ _ _ HR k ps' Hk') as (_ & _ & _ & Hh). specialize (Hh p Hp). rewrite Ht in Hh.
  rewrite Hh, Nat2Z.id, Hk' in Hk. by injection Hk as ->.
Qed.

(** A lookup finds the page's item, or there is none. *)
Lemma exists_page_spec tag :
  (exists p, p ∈ concat A /\ ap_tag p = tag /\ log_index_mem_tbl_exists_page tag d (hash tag) = Done (ap_id p)) \/
  ((forall p, p ∈ concat A -> ap_tag p <> tag) /\ log_index_mem_tbl_exists_page tag d (hash tag) = Done 0).
Proof.
  destruct (bucket_of tag) as [ps Hk]. unfold log_index_mem_tbl_exists_page, LOG_INDEX_TBL_SLOT_VALUE.
  destruct (tr_bucket _ _ _ _ _ HR _ ps Hk) as (Hslot & Hok & _ & Hh).
  pose proof (Hhash tag) as Hr. rewrite Z2Nat.id in Hslot by lia. rewrite Hslot.
  assert (forall p, p ∈ ps -> p ∈ concat A) as Hin.
  { intros p Hp. apply elem_of_concat. exists ps. split; [done|]. by eapply list_elem_of_lookup_2. }
  destruct (exists_page_loop_spec ps tag SEG_FUEL Hok) as [(p & Hp & Ht & Hrun)|[Hno Hrun]].
  - intros p Hp. apply (page_id_range p); [by apply Hin|by left].
  - pose proof (bucket_len _ ps Hk). change SEG_FUEL with (S (Z.to_nat 4096)). lia.
  - left. exists p. split_and!; [by apply Hin|done|done].
  - right. split; [|done]. intros p Hp Ht. apply (Hno p); [|done]. by eapply bucket_page.
Qed.

(** ** Reading the blocks of a page *)

Lemma page_block_at p i b :
  p ∈ concat A -> page_blocks p !! i = Some b -> 1 <= b.1 < 4096.
Proof.
  intros Hp Hb. apply (page_id_range p); [done|]. unfold page_ids. apply list_elem_of_fmap_2.
  by eapply list_elem_of_lookup_2.
Qed.

Lemma segs_ok_lookup hd prev bs nxt i s ls :
  segs_ok d hd prev bs nxt -> bs !! i = Some (s, ls) ->
  seg_ok d hd (match i with O => prev | S j => default 0 (fst <$> bs !! j) end)
         (default nxt (fst <$> bs !! S i)) s ls.
Proof.
  revert prev i. induction bs as [|[s0 l0] bs IH]; intros prev [|i] Hok Hi; try done.
  - simpl in Hi. injection Hi as -> ->. destruct Hok as [Hs _]. destruct bs as [|[]]; done.
  - destruct Hok as [_ Hok]. specialize (IH s0 i Hok Hi). destruct i as [|j]; [|done]. simpl. exact IH.
Qed.

Lemma page_ids_nodup p : p ∈ concat A -> NoDup (page_ids p).
Proof.
  intros (ps & Hp & Hps)%elem_of_concat. apply list_elem_of_lookup_1 in Hps as [k Hk].
  pose proof (tr_ids _ _ _ _ _ HR) as H. rewrite (all_ids_split k ps Hk) in H.
  apply NoDup_app in H as (_ & _ & H). apply NoDup_app in H as (H & _ & _).
  apply list_elem_of_split in Hp as (a & b & ->). rewrite map_app, concat_app in H.
  apply NoDup_app in H as (_ & _ & H). cbn [map concat] in H. by apply NoDup_app in H as (H & _ & _).
Qed.

(** What the memory of a block of a page holds. *)
Lemma head_block p : p ∈ concat A -> exists nxt sfx,
  get_head d (ap_id p) = Done (mk_head (ap_id p) nxt (next_id (ap_segs p) 0) (tail_id p) (ap_tag p)
                                 (Z.of_nat (length (ap_first p))) (ap_prev p) sfx) /\
  holds_sfx 2 sfx (ap_first p) /\
  log_index_item_seg d (ap_id p) = Done (Some (seg_at d (ap_id p))) /\ seg_head_seg (seg_at d (ap_id p)) = ap_id p.
Proof.
  intros Hp. destruct (page_in_repr p Hp) as [nxt [(sfx & Hh & Hs) _]]. exists nxt, sfx.
  pose proof (page_id_range p (ap_id p) Hp ltac:(by left)) as Hr.
  split_and!; [by apply get_head_at; [lia|]|done|by apply item_seg_at; lia|by rewrite Hh].
Qed.

Lemma seg_block p m s ls : p ∈ concat A -> ap_segs p !! m = Some (s, ls) -> exists nxt sfx,
  seg_at d s = item_seg (mk_seg (ap_id p) nxt (default 0 (fst <$> page_blocks p !! m)) (Z.of_nat (length ls)) sfx) /\
  holds_sfx 10 sfx ls /\ log_index_item_seg d s = Done (Some (seg_at d s)) /\ s <> ap_id p /\ 1 <= s <= 4096.
Proof.
  intros Hp Hm. destruct (page_in_repr p Hp) as [nx [_ Hok]].
  pose proof (segs_ok_lookup _ _ _ _ _ _ _ Hok Hm) as (sfx & Hat & Hs).
  assert (page_blocks p !! S m = Some (s, ls)) as Hb by done.
  pose proof (page_block_at p _ _ Hp Hb) as Hr. simpl in Hr.
  eexists _, sfx. split_and!; [|done|by apply item_seg_at; lia| |lia|lia].
  - rewrite Hat. do 2 f_equal. by destruct m.
  - pose proof (page_ids_nodup p Hp) as Hnd. apply NoDup_cons in Hnd as [Hn _]. intros ->. apply Hn.
    apply list_elem_of_lookup_2 in Hm. by apply (list_elem_of_fmap_2 fst) in Hm.
Qed.

Lemma take_aget (sfx ls : list Z) i x : take (length ls) sfx = ls -> ls !! i = Some x -> aget 0 sfx (Z.of_nat i) = x.
Proof.
  intros Ht Hi. unfold aget. rewrite decide_True by lia. rewrite Nat2Z.id. rewrite <- Ht in Hi.
  apply lookup_take_Some in Hi as [-> _]. done.
Qed.

Lemma last_aget (sfx ls : list Z) :
  take (length ls) sfx = ls -> ls <> [] -> aget 0 sfx (Z.of_nat (length ls) - 1) = default 0 (list.last ls).
Proof.
  intros Ht Hne. rewrite last_lookup. destruct (ls !! pred (length ls)) as [x|] eqn:E.
  - replace (Z.of_nat (length ls) - 1) with (Z.of_nat (pred (length ls))) by (destruct ls; simpl in *; [done|lia]).
    by apply (take_aget _ ls).
  - apply lookup_ge_None in E. destruct ls; simpl in *; [done|lia].
Qed.

(** The entry before a place in a block. *)
Definition prev_in_blocks (p : apage) (m i : nat) (ls : list Z) : Z :=
  match i, m with
  | S i', _ => LOG_INDEX_COMBINE_LSN d (default 0 (ls !! i'))
  | 0%nat, 0%nat => ap_prev p
  | 0%nat, S m' => LOG_INDEX_COMBINE_LSN d (default 0 (list.last (default [] (snd <$> page_blocks p !! m'))))
  end.

Lemma block_nonempty p m s ls : p ∈ concat A -> page_blocks p !! m = Some (s, ls) -> ls <> [].
Proof.
  intros Hp Hm. destruct (tr_sizes _ _ _ _ _ HR p Hp) as (H1 & _ & H3). destruct m as [|m].
  - injection Hm as <- <-. intros E. rewrite E in H1. simpl in H1. lia.
  - destruct (H3 m (s, ls) Hm) as [H _]. intros ->. simpl in H. lia.
Qed.

Lemma get_seg_prev_lsn_spec p m i s ls :
  p ∈ concat A -> page_blocks p !! m = Some (s, ls) -> (i < length ls)%nat ->
  log_index_get_seg_prev_lsn d s (Z.of_nat i) = Done (prev_in_blocks p m i ls).
Proof.
  intros Hp Hm Hi. unfold log_index_get_seg_prev_lsn.
  destruct (head_block p Hp) as (nxt & sfx & Hgh & [Hsl Hst] & Hseg & Hhs). destruct m as [|m].
  - injection Hm as <- <-. rewrite Hseg. cbn [obind deref]. rewrite Hhs, Z.eqb_refl, Hgh. cbn [obind].
    destruct i as [|i]; [done|]. destruct (Z.of_nat (S i) =? 0) eqn:E; zbool; [lia|]. cbn [ih_suffix_lsn].
    unfold prev_in_blocks. do 2 f_equal. replace (Z.of_nat (S i) - 1) with (Z.of_nat i) by lia.
    destruct (ap_first p !! i) as [x|] eqn:Ex; [by apply (take_aget _ (ap_first p))|].
    apply lookup_ge_None in Ex. lia.
  - change (ap_segs p !! m = Some (s, ls)) in Hm.
    destruct (seg_block p m s ls Hp Hm) as (nx & sf & Hat & [Hl Ht] & His & Hne & Hr).
    rewrite His. cbn [obind deref]. rewrite Hat. cbn [seg_head_seg is_head_seg as_seg obind is_suffix_lsn is_prev_seg].
    destruct (ap_id p =? s) eqn:E; zbool; [congruence|]. destruct i as [|i].
    + change (Z.of_nat 0 >? 0) with false. cbv iota. destruct m as [|m].
      * simpl default. rewrite Z.eqb_refl, Hgh. cbn [obind ih_suffix_lsn ih_number]. unfold prev_in_blocks. simpl default at 2.
        rewrite last_aget; [done|done|]. by eapply (block_nonempty p 0).
      * assert (is_Some (ap_segs p !! m)) as [[s' ls'] Hm'].
        { apply lookup_lt_is_Some. apply lookup_lt_Some in Hm. lia. }
        change (page_blocks p !! S m) with (ap_segs p !! m). rewrite Hm'. cbn [fmap option_fmap option_map default fst].
        destruct (seg_block p m s' ls' Hp Hm') as (nx' & sf' & Hat' & [Hl' Ht'] & His' & Hne' & Hr').
        unfold id. destruct (s' =? ap_id p) eqn:E'; zbool; [congruence|].
        rewrite (get_seg_at s' _ Hr' Hat'). cbn [obind is_suffix_lsn is_number].
        unfold prev_in_blocks. change (page_blocks p !! S m) with (ap_segs p !! m). rewrite Hm'. simpl default at 2.
        rewrite last_aget; [done|done|]. by eapply (block_nonempty p (S m)).
    + destruct (Z.of_nat (S i) >? 0) eqn:E'; zbool; [|lia]. unfold prev_in_blocks. do 2 f_equal.
      replace (Z.of_nat (S i) - 1) with (Z.of_nat i) by lia.
      destruct (ls !! i) as [x|] eqn:Ex; [by apply (take_aget _ ls)|]. apply lookup_ge_None in Ex. lia.
Qed.

Lemma cells_concat_length p m :
  length (concat (take m (map cells_of (page_blocks p)))) = length (concat (take m (map snd (page_blocks p)))).
Proof.
  revert m. induction (page_blocks p) as [|b bs IH]; intros [|m]; try done. cbn [map take concat].
  rewrite !length_app, IH. unfold cells_of. by rewrite length_imap.
Qed.

(** Where a cell is among the blocks, and which entry comes before it. *)
Lemma cell_block p n s i x :
  p ∈ concat A -> page_cells p !! n = Some (s, i, x) ->
  exists m ls, page_blocks p !! m = Some (s, ls) /\ ls !! i = Some x /\
    prev_in_blocks p m i ls = li_prev_lsn (entry_of d p n x).
Proof.
  intros Hp Hn. destruct (concat_lookup _ _ _ Hn) as (m & j & l & Hm & Hj & ->).
  apply list_lookup_fmap_Some in Hm as ([s' ls] & -> & Hb). unfold cells_of in Hj.
  apply list_lookup_imap_Some in Hj as (y & Hy & [= -> -> ->]). exists m, ls. split_and!; [done|done|].
  rewrite cells_concat_length. unfold entry_of, li_prev_lsn, prev_in_blocks.
  assert (map snd (page_blocks p) !! m = Some ls) as Hms by (by rewrite list_lookup_fmap, Hb).
  cbn [snd] in Hy. pose proof (lookup_lt_Some _ _ _ Hy) as Hlt. destruct j as [|j].
  - destruct m as [|m]; [done|]. assert (is_Some (page_blocks p !! m)) as [[s0 ls0] Hb0].
    { apply lookup_lt_is_Some. apply lookup_lt_Some in Hb. lia. }
    assert (map snd (page_blocks p) !! m = Some ls0) as Hms0 by (by rewrite list_lookup_fmap, Hb0).
    rewrite (concat_take_S _ _ _ Hms0), length_app. pose proof (block_nonempty p m s0 ls0 Hp Hb0) as Hne.
    destruct (length ls0) as [|k] eqn:Ek; [by destruct ls0|].
    replace (length (concat (take m (map snd (page_blocks p)))) + S k + 0)%nat
      with (S (length (concat (take m (map snd (page_blocks p)))) + k))%nat by lia.
    unfold page_sfx. rewrite (concat_lookup_at _ m k ls0) by (done || lia). rewrite Hb0. do 2 f_equal.
    simpl default. rewrite last_lookup. simpl length in Ek. unfold id in *. rewrite Ek. done.
  - replace (length (concat (take m (map snd (page_blocks p)))) + S j)%nat
      with (S (length (concat (take m (map snd (page_blocks p)))) + j))%nat by lia.
    unfold page_sfx. by rewrite (concat_lookup_at _ m j ls) by (done || lia).
Qed.

(** Reading the order gives the log. *)
Lemma get_order_lsn_log j :
  log_index_get_order_lsn d (Z.of_nat j) = Done (L !! j).
Proof.
  unfold log_index_get_order_lsn. rewrite (tr_last _ _ _ _ _ HR), (tr_len _ _ _ _ _ HR).
  destruct (Z.of_nat j >=? Z.of_nat (length L)) eqn:E; zbool; [by rewrite lookup_ge_None_2 by lia|].
  assert (is_Some (L !! j)) as [e He] by (apply lookup_lt_is_Some; lia).
  assert (is_Some (Q !! j)) as [[s i] Hq] by (apply lookup_lt_is_Some; rewrite (tr_len _ _ _ _ _ HR); lia).
  destruct (tr_log _ _ _ _ _ HR j s i e Hq He) as (p & n & x & Hp & Hn & ->).
  destruct (cell_block p n s i x Hp Hn) as (m & ls & Hb & Hx & Hprev).
  rewrite (tr_order _ _ _ _ _ HR j s i Hq). pose proof (page_block_at p m _ Hp Hb) as Hr. simpl in Hr.
  assert (i < 10)%nat as Hi.
  { pose proof (lookup_lt_Some _ _ _ Hx). destruct (tr_sizes _ _ _ _ _ HR p Hp) as (H1 & _ & H3).
    destruct m as [|m]; [injection Hb as <- <-; lia|]. destruct (H3 m (s, ls) Hb) as [H4 _]. simpl in H4. lia. }
  destruct (order_code_roundtrip s (Z.of_nat i) ltac:(lia) ltac:(lia)) as [-> ->].
  rewrite (get_seg_prev_lsn_spec p m i s ls Hp Hb) by (by eapply lookup_lt_Some). rewrite Hprev, He.
  unfold log_index_get_seg_page_tag. destruct (head_block p Hp) as (nxt & sfx & Hgh & [Hsl Hst] & Hseg & Hhs).
  destruct m as [|m].
  - injection Hb as <- <-. rewrite Hseg. cbn [obind deref]. rewrite Hhs, Z.eqb_refl, Hgh. cbn [obind ih_suffix_lsn ih_tag].
    by rewrite (take_aget _ _ _ _ Hst Hx).
  - change (ap_segs p !! m = Some (s, ls)) in Hb.
    destruct (seg_block p m s ls Hp Hb) as (nx & sf & Hat & [Hl Ht] & His & Hne & _).
    rewrite His. cbn [obind deref]. rewrite Hat. cbn [seg_head_seg is_head_seg as_seg obind is_suffix_lsn].
    destruct (ap_id p =? s) eqn:E'; zbool; [congruence|]. cbn [obind]. rewrite Hgh. cbn [obind ih_tag].
    by rewrite (take_aget _ _ _ _ Ht Hx).
Qed.

(** The places in the order are those of cells. *)
Lemma position_bound j x y : Q !! j = Some (x, y) -> x ∈ all_ids A /\ (y < 10)%nat /\
  exists q z, q ∈ concat A /\ (x, y, z) ∈ page_cells q.
Proof.
  intros Hj. assert (is_Some (L !! j)) as [e He].
  { apply lookup_lt_is_Some. rewrite <- (tr_len _ _ _ _ _ HR). by eapply lookup_lt_Some. }
  destruct (tr_log _ _ _ _ _ HR j x y e Hj He) as (q & n & z & Hq & Hn & _).
  destruct (cell_block q n x y z Hq Hn) as (m & ls & Hb & Hz & _).
  apply list_elem_of_lookup_2 in Hn. split_and!; [| |by eauto].
  - eapply page_id_all; [done|]. apply list_elem_of_lookup_2 in Hb. by apply (list_elem_of_fmap_2 fst) in Hb.
  - destruct (tr_sizes _ _ _ _ _ HR q Hq) as (H1 & _ & H3). apply lookup_lt_Some in Hz.
    destruct m as [|m]; [injection Hb as <- <-; lia|]. destruct (H3 m _ Hb) as [H4 _]. simpl in H4. lia.
Qed.
(** The first and the last LSN of an item. *)
Lemma item_max_spec p :
  p ∈ concat A -> exists nxt sfx, get_head d (ap_id p) =
    Done (mk_head (ap_id p) nxt (next_id (ap_segs p) 0) (tail_id p) (ap_tag p) (Z.of_nat (length (ap_first p))) (ap_prev p) sfx) /\
  Some (LOG_INDEX_SEG_MIN_LSN d sfx) = head (map (LOG_INDEX_COMBINE_LSN d) (page_sfx p)) /\
  exists m, log_index_item_max_lsn d
      (mk_head (ap_id p) nxt (next_id (ap_segs p) 0) (tail_id p) (ap_tag p) (Z.of_nat (length (ap_first p))) (ap_prev p) sfx) =
    Done m /\ list.last (map (LOG_INDEX_COMBINE_LSN d) (page_sfx p)) = Some m.
Proof.
  intros Hp. destruct (head_block p Hp) as (nxt & sfx & Hgh & [Hl Ht] & _). exists nxt, sfx.
  pose proof (block_nonempty p 0 _ _ Hp eq_refl) as Hne. split_and!; [done|..].
  { unfold LOG_INDEX_SEG_MIN_LSN, page_sfx. cbn [page_blocks map concat snd]. destruct (ap_first p) as [|x l] eqn:E; [done|].
    cbn [app map head]. do 2 f_equal. exact (take_aget _ (x :: l) 0 x Ht eq_refl). }
  unfold log_index_item_max_lsn. cbn [ih_head_seg ih_tail_seg ih_suffix_lsn ih_number]. unfold LOG_INDEX_SEG_MAX_LSN.
  unfold page_sfx, page_blocks, tail_id, last_id. destruct (ap_segs p) as [|[s ls] bs _] eqn:Es using rev_ind.
  - simpl default. rewrite Z.eqb_refl. eexists. split; [done|]. cbn [map concat snd]. rewrite app_nil_r, fmap_last.
    rewrite last_aget by done. destruct (list.last (ap_first p)) eqn:El; [done|]. by apply last_None in El.
  - rewrite last_snoc. simpl default. assert (ap_segs p !! length bs = Some (s, ls)) as Hb by (rewrite Es; by apply list_lookup_middle).
    destruct (seg_block p _ s ls Hp Hb) as (nx & sf & Hat & [_ Hts] & _ & Hns & Hr).
    destruct (ap_id p =? s) eqn:E; zbool; [congruence|]. rewrite (get_seg_at s _ Hr Hat). cbn [obind is_suffix_lsn is_number].
    pose proof (block_nonempty p (S (length bs)) s ls Hp Hb) as Hls.
    eexists. split; [done|]. rewrite last_aget by done. cbn [map concat snd]. rewrite (map_app snd), concat_app. cbn [map concat snd].
    rewrite app_nil_r, app_assoc, fmap_last, last_app. destruct (list.last ls) eqn:El; [done|]. by apply last_None in El.
Qed.
End reading.
End repr.
