(* ===== verification/LogIndexInsert.v ===== *)
(** * Adding entries to a log index table

    Each way of adding an entry (to the last segment of a page, with a new
    segment, with a new item) takes a table that represents a log to one
    that represents the log with the entry at its end. *)

From S2P Require Import Prelude BufTag LogIndexTable LogIndexRepr.

Lemma seg_at_set d s u s' :
  1 <= s <= 4096 -> length (td_segment d) = 4096%nat ->
  seg_at (set_seg d s u) s' = if decide (s' = s) then u else seg_at d s'.
Proof.
  intros Hs Hl. unfold seg_at, set_seg. cbn [td_segment]. rewrite aget_aset by lia.
  case_decide; case_decide; try done; lia.
Qed.

(** Different cells of a page have different places. *)
Lemma cells_nodup p : NoDup (page_ids p) -> NoDup (map fst (page_cells p)).
Proof.
  unfold page_ids, page_cells. induction (page_blocks p) as [|b bs IH]; cbn [map concat]; [intros; apply NoDup_nil_2|].
  intros [Hn Hnd]%NoDup_cons. rewrite map_app. apply NoDup_app. split_and!; [| |by apply IH].
  - unfold cells_of. apply NoDup_fmap_2_strong.
    + intros x y Hx Hy E. apply elem_of_lookup_imap in Hx as (a & v & -> & Ha), Hy as (a' & v' & -> & Ha').
      simpl in E. injection E as ->. congruence.
    + apply NoDup_alt. intros a a' x Ha Ha'. apply list_lookup_imap_Some in Ha as (v & _ & ->), Ha' as (v' & _ & E).
      by injection E.
  - intros [s i] Hx Hy. apply list_elem_of_fmap_1 in Hx as ([[s1 i1] x1] & E1 & Hx), Hy as ([[s2 i2] x2] & E2 & Hy).
    simpl in E1, E2. injection E1 as -> ->. injection E2 as -> ->. apply elem_of_cells_of in Hx as [Hx _].
    apply elem_of_concat_map in Hy as (b' & Hb' & Hy). apply elem_of_cells_of in Hy as [Hy _]. apply Hn.
    rewrite <- Hx, Hy. by apply (list_elem_of_fmap_2 fst).
Qed.

Section extend.
Context (hash : BufferTag -> Z) (Hhash : forall tag, 0 <= hash tag < LOG_INDEX_MEM_TBL_HASH_NUM).
Context (d d' : log_idx_table_data_t) (free free' : Z) (A : list (list apage)) (Q : list (Z * nat))
        (L : list log_index_lsn_t).
Context (k : nat) (ps1 olds ps2 : list apage) (p' : apage) (new : list Z) (s : Z) (i : nat) (lsn prev : Z).

(** The bucket [k] holds the pages [ps1], [olds], [ps2]; [olds] is the page
    before the change, if it has one, and [p'] after it. *)
Record change : Prop := {
  ch_repr : table_repr hash d free A Q L;
  ch_bucket : A !! k = Some (ps1 ++ olds ++ ps2);
  ch_key : hash (ap_tag p') = Z.of_nat k;
  ch_olds : olds = [] /\ ps1 = [] /\ (forall q, q ∈ concat A -> ap_tag q <> ap_tag p') /\ prev = ap_prev p' \/
            exists p, olds = [p] /\ ap_id p' = ap_id p /\ ap_tag p' = ap_tag p /\ ap_prev p' = ap_prev p /\
              prev = LOG_INDEX_COMBINE_LSN d (default 0 (list.last (page_sfx p)));
  ch_cells : page_cells p' = concat (map page_cells olds) ++ [(s, i, suffix lsn)];
  ch_ids : page_ids p' = concat (map page_ids olds) ++ new;
  ch_new : new = [] /\ free' = free \/ new = [free] /\ free' = free + 1 /\ free < LOG_INDEX_MEM_TBL_SEG_NUM;
  ch_sizes : sizes_ok p';
  ch_frame : forall x, x ∉ page_ids p' -> seg_at d' x = seg_at d x;
  ch_page : (olds = [] -> page_ok d' (hd_id ps2) p') /\
            (forall p nxt, olds = [p] -> page_ok d nxt p -> page_ok d' nxt p');
  ch_prefix : td_prefix_lsn d' = td_prefix_lsn d;
  ch_hash : length (td_hash d') = length (td_hash d) /\
    (forall j, j <> k -> aget 0 (td_hash d') (Z.of_nat j) = aget 0 (td_hash d) (Z.of_nat j)) /\
    aget 0 (td_hash d') (Z.of_nat k) = hd_id (ps1 ++ p' :: ps2);
  ch_seg_len : length (td_segment d') = length (td_segment d);
  ch_lsn : LOG_INDEX_SAME_TABLE_LSN_PREFIX d lsn = true;
  ch_fits : td_last_order d < LOG_INDEX_MAX_ORDER_NUM;
  ch_order : td_idx_order d' = aset (td_idx_order d) (td_last_order d) (order_code s (Z.of_nat i));
  ch_last : td_last_order d' = td_last_order d + 1
}.

Context (C : change).
#[local] Definition R1 : list apage := concat (take k A) ++ ps1.
#[local] Definition R2 : list apage := ps2 ++ concat (drop (S k) A).
#[local] Definition A' : list (list apage) := <[k := ps1 ++ p' :: ps2]> A.

Lemma concat_A : concat A = R1 ++ olds ++ R2.
Proof.
  unfold R1, R2. rewrite <- (take_drop_middle A k _ (ch_bucket C)) at 1. rewrite concat_app. cbn [concat].
  by rewrite !app_assoc.
Qed.

Lemma concat_A' : concat A' = R1 ++ p' :: R2.
Proof.
  unfold A', R1, R2. rewrite insert_take_drop by (by eapply lookup_lt_Some, (ch_bucket C)).
  rewrite concat_app. cbn [concat]. by rewrite <- !app_assoc.
Qed.

Lemma elem_A' q : q ∈ concat A' <-> q = p' \/ q ∈ R1 ++ R2.
Proof. rewrite concat_A'. rewrite !elem_of_app, elem_of_cons. tauto. Qed.

Lemma elem_A q : q ∈ concat A <-> q ∈ olds \/ q ∈ R1 ++ R2.
Proof. rewrite concat_A. rewrite !elem_of_app. tauto. Qed.

Lemma others_tag q : q ∈ R1 ++ R2 -> ap_tag q <> ap_tag p'.
Proof.
  intros Hq. destruct (ch_olds C) as [(_ & _ & Habs & _)|(p & Hp & _ & Ht & _)].
  { apply Habs, elem_A. by right. }
  rewrite Ht. intros E. pose proof (ch_bucket C) as Hb. rewrite Hp in Hb.
  destruct (tr_bucket _ _ _ _ _ _ (ch_repr C) _ _ Hb) as (_ & _ & Hnd & _).
  assert (q ∈ ps1 ++ ps2) as Hin.
  { unfold R1, R2 in Hq. rewrite !elem_of_app in *. destruct Hq as [[Hq|Hq]|[Hq|Hq]]; auto; exfalso.
    all: apply elem_of_concat in Hq as (qs & Hq1 & Hq2); apply list_elem_of_lookup_1 in Hq2 as [j Hj].
    - apply lookup_take_Some in Hj as [Hj Hlt]. destruct (tr_bucket _ _ _ _ _ _ (ch_repr C) _ _ Hj) as (_ & _ & _ & Hh).
      specialize (Hh q Hq1). rewrite E, <- Ht, (ch_key C) in Hh. lia.
    - rewrite lookup_drop in Hj. destruct (tr_bucket _ _ _ _ _ _ (ch_repr C) _ _ Hj) as (_ & _ & _ & Hh).
      specialize (Hh q Hq1). rewrite E, <- Ht, (ch_key C) in Hh. lia. }
  rewrite !map_app in Hnd. cbn [map app] in Hnd. rewrite <- Permutation_middle in Hnd.
  apply NoDup_cons in Hnd as [Hn _]. apply Hn. rewrite <- E, <- map_app. by apply (list_elem_of_fmap_2 ap_tag).
Qed.

Lemma all_ids_A' : all_ids A' ≡ₚ all_ids A ++ new.
Proof.
  unfold all_ids. rewrite concat_A, concat_A'. rewrite !map_app, !concat_app. cbn [map concat].
  rewrite (ch_ids C). set (x := concat (map page_ids R1)). set (y := concat (map page_ids olds)).
  set (z := concat (map page_ids R2)). solve_Permutation.
Qed.

Lemma cells_sfx : page_sfx p' = concat (map page_sfx olds) ++ [suffix lsn].
Proof.
  rewrite <- page_cells_sfx, (ch_cells C), map_app. cbn [map]. f_equal.
  induction olds as [|p l IH]; [done|]. cbn [map concat]. by rewrite map_app, page_cells_sfx, IH.
Qed.

Lemma entry_of_prefix q n x : entry_of d' q n x = entry_of d q n x.
Proof. unfold entry_of, LOG_INDEX_COMBINE_LSN. by rewrite (ch_prefix C). Qed.

(** Entries of the page before the change are where they were. *)
Lemma entry_of_grow p n x y :
  olds = [p] -> page_cells p !! n = Some y -> page_cells p' !! n = Some y /\ entry_of d' p' n x = entry_of d p n x.
Proof.
  intros Ho Hn. pose proof cells_sfx as Hsfx. pose proof (ch_cells C) as Hc. rewrite Ho in Hc, Hsfx.
  cbn [map concat] in Hc, Hsfx. rewrite app_nil_r in Hc, Hsfx. split; [rewrite Hc; by apply lookup_app_l_Some|].
  rewrite entry_of_prefix. destruct (ch_olds C) as [(E & _)|(q & E & _ & Ht & Hp & _)]; [congruence|].
  rewrite Ho in E. injection E as <-. unfold entry_of. rewrite Ht, Hp. f_equal. destruct n as [|m]; [done|].
  rewrite Hsfx, lookup_app_l; [done|]. apply lookup_lt_Some in Hn. rewrite <- page_cells_sfx, length_map. lia.
Qed.

(** The entry that was added. *)
Definition added : log_index_lsn_t := mk_lsn_info (ap_tag p') lsn prev.

Lemma entry_of_added :
  exists n, page_cells p' !! n = Some (s, i, suffix lsn) /\ entry_of d' p' n (suffix lsn) = added.
Proof.
  exists (length (concat (map page_cells olds))). split; [rewrite (ch_cells C); apply list_lookup_middle; done|].
  rewrite entry_of_prefix. unfold entry_of, added. rewrite (combine_suffix d lsn (ch_lsn C)). f_equal.
  destruct (ch_olds C) as [(-> & _ & _ & ->)|(p & Ho & _ & _ & Hp & ->)]; [done|].
  pose proof cells_sfx as Hsfx. rewrite Ho in *. cbn [map concat] in *. rewrite app_nil_r in *.
  assert (length (page_cells p) = length (page_sfx p)) as Hl by (by rewrite <- page_cells_sfx, length_map).
  assert (sizes_ok p) as (Hs & _) by (apply (tr_sizes _ _ _ _ _ _ (ch_repr C)), elem_A; rewrite Ho; left; by left).
  destruct (length (page_cells p)) as [|m] eqn:E.
  - exfalso. unfold page_sfx, page_blocks in Hl. cbn [map concat snd] in Hl. rewrite length_app in Hl. lia.
  - rewrite Hsfx, lookup_app_l by lia. rewrite last_lookup. do 3 f_equal. lia.
Qed.

Lemma all_ids_nodup' : NoDup (all_ids A').
Proof.
  rewrite all_ids_A'. apply NoDup_app. split_and!; [apply (tr_ids _ _ _ _ _ _ (ch_repr C))| |].
  - intros y Hy Hn. pose proof (tr_range _ _ _ _ _ _ (ch_repr C) y Hy) as Hr.
    destruct (ch_new C) as [[E _]|(E & _)]; rewrite E in Hn; [by apply not_elem_of_nil in Hn|].
    apply list_elem_of_singleton in Hn. lia.
  - destruct (ch_new C) as [[-> _]|(-> & _)]; [apply NoDup_nil_2|apply NoDup_singleton].
Qed.

Lemma NoDup_p' : NoDup (page_ids p').
Proof.
  pose proof all_ids_nodup' as H. unfold all_ids in H. rewrite concat_A', map_app, concat_app in H.
  cbn [map concat] in H. apply NoDup_app in H as (_ & _ & H). by apply NoDup_app in H as (H & _ & _).
Qed.

Lemma page_ids_disjoint q x : q ∈ R1 ++ R2 -> x ∈ page_ids q -> x ∉ page_ids p'.
Proof.
  intros Hq Hx Hin. pose proof all_ids_nodup' as Hnd'.
  unfold all_ids in Hnd'. rewrite concat_A', map_app, concat_app in Hnd'. cbn [map concat] in Hnd'.
  apply NoDup_app in Hnd' as (_ & Hd1 & Hnd'). apply NoDup_app in Hnd' as (_ & Hd2 & _).
  apply elem_of_app in Hq as [Hq|Hq].
  - apply (Hd1 x); [apply elem_of_concat_map; eauto|]. apply elem_of_app. by left.
  - apply (Hd2 x); [done|]. apply elem_of_concat_map; eauto.
Qed.

Lemma changed_pages_ok : pages_ok d' (ps1 ++ p' :: ps2).
Proof.
  assert (forall x, x ∈ concat (map page_ids (ps1 ++ ps2)) -> seg_at d' x = seg_at d x) as Hf.
  { intros x (q & Hq & Hx)%elem_of_concat_map. apply (ch_frame C). apply (page_ids_disjoint q); [|done].
    unfold R1, R2. rewrite !elem_of_app in *. tauto. }
  destruct (tr_bucket _ _ _ _ _ _ (ch_repr C) _ _ (ch_bucket C)) as (_ & Hok & _).
  destruct (ch_olds C) as [(Ho & Hp1 & _)|(p & Ho & Hid & _)]; rewrite Ho in Hok.
  - rewrite Hp1 in *. cbn [app] in *. split; [by apply (ch_page C)|]. by eapply pages_ok_frame.
  - eapply pages_ok_replace; [exact Hok|done|done|]. intros nxt. by apply (ch_page C).
Qed.

Lemma new_position : (s, i) ∉ Q.
Proof.
  intros (j & Hj)%list_elem_of_lookup_1. destruct (position_bound _ _ _ _ _ _ (ch_repr C) j s i Hj) as (Hs & _ & q & z & Hq & Hz).
  assert (exists n, page_cells p' !! n = Some (s, i, suffix lsn)) as [n Hn] by (destruct entry_of_added as (n & ? & _); eauto).
  assert (s ∈ page_ids p') as Hsp.
  { apply list_elem_of_lookup_2 in Hn. apply elem_of_page_cells in Hn as (b & Hb & -> & _).
    by apply (list_elem_of_fmap_2 fst) in Hb. }
  assert (s ∈ page_ids q) as Hsq.
  { apply elem_of_page_cells in Hz as (b & Hb & -> & _). by apply (list_elem_of_fmap_2 fst) in Hb. }
  apply elem_A in Hq as [Hq|Hq]; [|by apply (page_ids_disjoint q s)].
  destruct (ch_olds C) as [(Ho & _)|(p & Ho & _)]; rewrite Ho in Hq; [by apply not_elem_of_nil in Hq|].
  apply list_elem_of_singleton in Hq as ->.
  assert (NoDup (map fst (page_cells p'))) as Hnd by (apply cells_nodup, NoDup_p').
  rewrite (ch_cells C), Ho in Hnd. cbn [map concat] in Hnd. rewrite app_nil_r, map_app in Hnd.
  apply NoDup_app in Hnd as (_ & Hd & _). apply (Hd (s, i)); [by apply (list_elem_of_fmap_2 fst) in Hz|by left].
Qed.

Lemma same_prefix_iff x : LOG_INDEX_SAME_TABLE_LSN_PREFIX d' x = LOG_INDEX_SAME_TABLE_LSN_PREFIX d x.
Proof. unfold LOG_INDEX_SAME_TABLE_LSN_PREFIX. by rewrite (ch_prefix C). Qed.

Lemma extend_bucket j ps : A' !! j = Some ps ->
  aget 0 (td_hash d') (Z.of_nat j) = hd_id ps /\ pages_ok d' ps /\ NoDup (map ap_tag ps) /\
  forall q, q ∈ ps -> hash (ap_tag q) = Z.of_nat j.
Proof.
  intros Hj. pose proof (ch_hash C) as (_ & Hho & Hhk).
  destruct (tr_bucket _ _ _ _ _ _ (ch_repr C) _ _ (ch_bucket C)) as (_ & _ & Hndk & Hhashk).
  apply list_lookup_insert_Some in Hj as [(<- & <- & _)|[Hne Hj]].
  - assert (forall q, q ∈ ps1 ++ ps2 -> q ∈ R1 ++ R2) as Hin
      by (intros q; unfold R1, R2; rewrite !elem_of_app; tauto).
    split_and!; [done|apply changed_pages_ok| |].
    + rewrite map_app. cbn [map]. rewrite <- Permutation_middle, <- map_app. apply NoDup_cons. split.
      * intros (q & E & Hq)%list_elem_of_fmap_1. by apply (others_tag q (Hin q Hq)).
      * rewrite !map_app in Hndk. apply NoDup_app in Hndk as (H1 & H2 & H3). apply NoDup_app in H3 as (H3 & H4 & H5).
        rewrite map_app. apply NoDup_app. split_and!; [done| |done]. intros x Hx Hx2. apply (H2 x Hx), elem_of_app. by right.
    + intros q Hq. apply elem_of_app in Hq as [Hq|[->|Hq]%elem_of_cons]; [|apply (ch_key C)|].
      all: apply Hhashk; rewrite !elem_of_app; tauto.
  - destruct (tr_bucket _ _ _ _ _ _ (ch_repr C) j ps Hj) as (H1 & H2 & H3 & H4). rewrite Hho by done.
    split_and!; try done. eapply pages_ok_frame; [|done]. intros x Hx. apply (ch_frame C).
    apply elem_of_concat_map in Hx as (q & Hq & Hx). apply (page_ids_disjoint q); [|done].
    assert (q ∈ concat A') as Hq'.
    { apply elem_of_concat. exists ps. split; [done|]. eapply (list_elem_of_lookup_2 _ j). unfold A'.
      by rewrite list_lookup_insert_ne. }
    apply elem_A' in Hq' as [->|Hq']; [|done]. specialize (H4 p' Hq). rewrite (ch_key C) in H4. lia.
Qed.

Lemma extend_log j x y e : (Q ++ [(s, i)]) !! j = Some (x, y) -> (L ++ [added]) !! j = Some e ->
  exists q n z, q ∈ concat A' /\ page_cells q !! n = Some (x, y, z) /\ e = entry_of d' q n z.
Proof.
  intros Hj He. pose proof (tr_len _ _ _ _ _ _ (ch_repr C)) as Hlen. destruct (decide (j < length Q)%nat) as [Hlt|Hge].
  - rewrite lookup_app_l in Hj by done. rewrite lookup_app_l in He by lia.
    destruct (tr_log _ _ _ _ _ _ (ch_repr C) j x y e Hj He) as (q & n & z & Hq & Hn & ->).
    apply elem_A in Hq as [Hq|Hq].
    + destruct (ch_olds C) as [(Ho & _)|(p & Ho & _)]; rewrite Ho in Hq; [by apply not_elem_of_nil in Hq|].
      apply list_elem_of_singleton in Hq as ->. destruct (entry_of_grow p n z (x, y, z) Ho Hn) as [H1 H2].
      exists p', n, z. split_and!; [apply elem_A'; by left|done|done].
    + exists q, n, z. split_and!; [apply elem_A'; by right|done|by rewrite entry_of_prefix].
  - assert (j = length Q) as ->. { apply lookup_lt_Some in Hj. rewrite length_app in Hj. simpl in Hj. lia. }
    rewrite lookup_app_r, Nat.sub_diag in Hj by done. injection Hj as <- <-.
    rewrite Hlen, lookup_app_r, Nat.sub_diag in He by done. injection He as <-.
    destruct entry_of_added as (n & H1 & H2). exists p', n, (suffix lsn). split_and!; [apply elem_A'; by left|done|done].
Qed.

Lemma extend_page q : q ∈ concat A' ->
  page_sfx q = map (fun e => suffix (li_lsn e)) (filter (fun e => li_tag e = ap_tag q) (L ++ [added])).
Proof.
  intros Hq. rewrite filter_app. apply elem_A' in Hq as [->|Hq].
  - rewrite filter_cons_True by done. rewrite filter_nil, map_app, cells_sfx. f_equal.
    destruct (ch_olds C) as [(-> & _ & Habs & _)|(p & Ho & _ & Ht & _)].
    + cbn [map concat]. rewrite filter_none; [done|]. intros e He E.
      destruct (tr_entry _ _ _ _ _ _ (ch_repr C) e He) as (_ & q & Hq & Hqt). apply (Habs q Hq). congruence.
    + rewrite Ho. cbn [map concat]. rewrite app_nil_r, Ht. apply (tr_page _ _ _ _ _ _ (ch_repr C)), elem_A. rewrite Ho. left. by left.
  - rewrite filter_cons_False by (intros E; by apply (others_tag q Hq)). rewrite filter_nil, app_nil_r.
    apply (tr_page _ _ _ _ _ _ (ch_repr C)), elem_A. by right.
Qed.

Lemma extend_repr : table_repr hash d' free' A' (Q ++ [(s, i)]) (L ++ [added]).
Proof.
  pose proof (ch_repr C) as HR. pose proof (tr_last _ _ _ _ _ _ HR) as Hlast. pose proof (tr_free _ _ _ _ _ _ HR) as Hfree.
  split.
  - rewrite (proj1 (ch_hash C)). apply HR.
  - rewrite (ch_seg_len C). apply HR.
  - rewrite (ch_order C), length_aset. apply HR.
  - unfold A'. rewrite length_insert. apply HR.
  - apply extend_bucket.
  - intros q [->|Hq]%elem_A'; [apply (ch_sizes C)|]. apply (tr_sizes _ _ _ _ _ _ HR), elem_A. by right.
  - apply all_ids_nodup'.
  - intros x. rewrite all_ids_A', elem_of_app. intros [Hx|Hx].
    + pose proof (tr_range _ _ _ _ _ _ HR x Hx). destruct (ch_new C) as [(_ & ->)|(_ & -> & _)]; lia.
    + destruct (ch_new C) as [(E & _)|(E & -> & _)]; rewrite E in Hx; [by apply not_elem_of_nil in Hx|].
      apply list_elem_of_singleton in Hx. lia.
  - destruct (ch_new C) as [(_ & ->)|(_ & -> & Hlt)]; lia.
  - intros x Hx. assert (x ∉ page_ids p') as Hn.
    { intros Hin. assert (x ∈ all_ids A') as Hall
        by (unfold all_ids; apply elem_of_concat_map; exists p'; split; [apply elem_A'; by left|done]).
      rewrite all_ids_A' in Hall. apply elem_of_app in Hall as [Hall|Hall].
      - pose proof (tr_range _ _ _ _ _ _ HR x Hall). destruct (ch_new C) as [(_ & E)|(_ & E & _)]; lia.
      - destruct (ch_new C) as [(E & _)|(E & E2 & _)]; rewrite E in Hall; [by apply not_elem_of_nil in Hall|].
        apply list_elem_of_singleton in Hall. lia. }
    rewrite (ch_frame C x Hn). apply (tr_fresh _ _ _ _ _ _ HR). destruct (ch_new C) as [(_ & E)|(_ & E & _)]; lia.
  - rewrite (ch_last C), Hlast, length_app. simpl. lia.
  - intros j x y Hj. rewrite (ch_order C), aget_aset.
    2:{ rewrite (tr_ord_len _ _ _ _ _ _ HR). pose proof (ch_fits C) as Hf. lia. }
    destruct (decide (j < length Q)%nat) as [Hlt|Hge].
    + rewrite lookup_app_l in Hj by done. rewrite decide_False by lia. by apply (tr_order _ _ _ _ _ _ HR).
    + assert (j = length Q) as -> by (apply lookup_lt_Some in Hj; rewrite length_app in Hj; simpl in Hj; lia).
      rewrite lookup_app_r, Nat.sub_diag in Hj by done. injection Hj as <- <-. by rewrite decide_True.
  - apply NoDup_app. split_and!; [apply HR| |apply NoDup_singleton].
    intros x Hx ->%list_elem_of_singleton. by apply new_position.
  - rewrite !length_app. simpl. by rewrite (tr_len _ _ _ _ _ _ HR).
  - apply extend_log.
  - apply extend_page.
  - intros e [He|He]%elem_of_app.
    + destruct (tr_entry _ _ _ _ _ _ HR e He) as (H1 & q & Hq & Ht). rewrite same_prefix_iff. split; [done|].
      apply elem_A in Hq as [Hq|Hq]; [|exists q; split; [apply elem_A'; by right|done]].
      destruct (ch_olds C) as [(Ho & _)|(p & Ho & _ & Htp & _)]; rewrite Ho in Hq; [by apply not_elem_of_nil in Hq|].
      apply list_elem_of_singleton in Hq as ->. exists p'. split; [apply elem_A'; by left|congruence].
    + apply list_elem_of_singleton in He as ->. rewrite same_prefix_iff. split; [apply (ch_lsn C)|].
      exists p'. split; [apply elem_A'; by left|done].
Qed.
End extend.

(** ** The three ways of adding an entry *)

Lemma cells_of_snoc s ls x : cells_of (s, ls ++ [x]) = cells_of (s, ls) ++ [(s, length ls, x)].
Proof. unfold cells_of. cbn [fst snd]. rewrite imap_app. simpl. by rewrite Nat.add_0_r. Qed.

Lemma holds_sfx_snoc n sfx ls x :
  holds_sfx n sfx ls -> (length ls < n)%nat -> holds_sfx n (aset sfx (Z.of_nat (length ls)) x) (ls ++ [x]).
Proof.
  intros [Hl Ht] Hlt. split; [by rewrite length_aset|]. rewrite length_app. cbn [length].
  unfold aset. rewrite decide_True by lia. rewrite Nat2Z.id.
  replace (length ls + 1)%nat with (S (length ls)) by lia.
  rewrite (take_S_r _ _ x) by (apply list_lookup_insert_eq; lia).
  by rewrite take_insert_ge, Ht by lia.
Qed.

Lemma holds_sfx_first n x sfx : length sfx = n -> (0 < n)%nat -> holds_sfx n (aset sfx 0 x) [x].
Proof. intros Hl Hn. apply (holds_sfx_snoc n sfx [] x); [by split|done]. Qed.

(** Is the last block of the page full? *)
Definition page_full (p : apage) : bool :=
  match list.last (ap_segs p) with
  | None => Nat.eqb (length (ap_first p)) 2
  | Some b => Nat.eqb (length b.2) 10
  end.

Lemma u8_small z : 0 <= z < 256 -> u8 z = z.
Proof. intros Hz. unfold u8. apply wrap_small. done. Qed.

Section adding.
Context (hash : BufferTag -> Z) (Hhash : forall tag, 0 <= hash tag < LOG_INDEX_MEM_TBL_HASH_NUM).
Context (d : log_idx_table_data_t) (free : Z) (A : list (list apage)) (Q : list (Z * nat)) (L : list log_index_lsn_t).
Context (HR : table_repr hash d free A Q L).

Lemma page_split p : p ∈ concat A -> exists k ps1 ps2,
  A !! k = Some (ps1 ++ [p] ++ ps2) /\ hash (ap_tag p) = Z.of_nat k.
Proof.
  intros (ps & Hp & Hps)%elem_of_concat. apply list_elem_of_lookup_1 in Hps as [k Hk].
  destruct (tr_bucket _ _ _ _ _ _ HR k ps Hk) as (_ & _ & _ & Hh). specialize (Hh p Hp).
  apply list_elem_of_split in Hp as (a & b & ->). by exists k, a, b.
Qed.

Lemma mem_seg_full_spec p : p ∈ concat A -> log_index_mem_seg_full d (ap_id p) = Done (page_full p).
Proof.
  intros Hp. destruct (head_block _ _ _ _ _ _ HR p Hp) as (nxt & sfx & Hgh & _). unfold log_index_mem_seg_full.
  rewrite Hgh. cbn [obind ih_tail_seg ih_number]. unfold page_full, tail_id, last_id.
  destruct (list.last (ap_segs p)) as [[s ls]|] eqn:El.
  - rewrite last_lookup in El. destruct (seg_block _ _ _ _ _ _ HR p _ s ls Hp El) as (nx & sf & Hat & _ & _ & Hne & Hr).
    simpl default. unfold id. destruct (s =? ap_id p) eqn:E; zbool; [done|]. rewrite (get_seg_at d s _ Hr Hat).
    cbn [obind is_number]. unfold LOG_INDEX_ITEM_SEG_LSN_NUM. f_equal. cbn [snd].
    destruct (Nat.eqb_spec (length ls) 10) as [->|Hn]; [done|]. apply Z.eqb_neq. lia.
  - simpl default. rewrite Z.eqb_refl. unfold LOG_INDEX_ITEM_HEAD_LSN_NUM. f_equal.
    destruct (Nat.eqb_spec (length (ap_first p)) 2) as [->|Hn]; [done|]. apply Z.eqb_neq. lia.
Qed.

(** There is always room in the order array: a table has at most 4095
    segments with at most ten entries each. *)
Lemma order_fits : td_last_order d < LOG_INDEX_MAX_ORDER_NUM.
Proof.
  rewrite (tr_last _ _ _ _ _ _ HR). pose proof (tr_free _ _ _ _ _ _ HR) as Hf.
  assert (Q ⊆+ list_prod (seqZ 1 (free - 1)) (seq 0 10)) as Hsub.
  { apply NoDup_submseteq; [apply HR|]. intros [s i] Hsi. apply list_elem_of_lookup_1 in Hsi as [j Hj].
    destruct (position_bound _ _ _ _ _ _ HR j s i Hj) as (Hs & Hi & _). apply list_elem_of_In, in_prod.
    - apply list_elem_of_In, elem_of_seqZ. pose proof (tr_range _ _ _ _ _ _ HR s Hs). lia.
    - apply in_seq. lia. }
  apply submseteq_length in Hsub. rewrite length_prod, length_seqZ in Hsub. simpl length in Hsub.
  unfold LOG_INDEX_MAX_ORDER_NUM, LOG_INDEX_MEM_TBL_SEG_NUM, LOG_INDEX_ITEM_SEG_LSN_NUM in *. lia.
Qed.

Lemma last_order_u32 : u32 (td_last_order d + 1) = td_last_order d + 1.
Proof.
  pose proof order_fits as H. rewrite (tr_last _ _ _ _ _ _ HR) in *. apply u32_small. unfold is_u32.
  unfold LOG_INDEX_MAX_ORDER_NUM, LOG_INDEX_MEM_TBL_SEG_NUM, LOG_INDEX_ITEM_SEG_LSN_NUM in *. lia.
Qed.

Definition add_order_to (t : log_idx_table_data_t) (s : Z) (i : nat) : log_idx_table_data_t :=
  mk_table (td_idx_table_id t) (td_min_lsn t) (td_max_lsn t) (td_prefix_lsn t) (td_crc t)
    (td_last_order t + 1) (aset (td_idx_order t) (td_last_order t) (order_code s (Z.of_nat i))) (td_hash t) (td_segment t).

Lemma add_order_eq t s i : td_last_order t = td_last_order d ->
  LOG_INDEX_MEM_TBL_ADD_ORDER t s (Z.of_nat i) = Done (add_order_to t s i).
Proof.
  intros Ht. unfold LOG_INDEX_MEM_TBL_ADD_ORDER, add_order_to. rewrite Ht, last_order_u32.
  pose proof order_fits. destruct (_ <? _) eqn:E; zbool; [done|lia].
Qed.

(** What adding an entry to the last block of a page gives. *)
Definition page_grow (p : apage) (x : Z) : apage :=
  match list.last (ap_segs p) with
  | None => mk_apage (ap_tag p) (ap_prev p) (ap_id p) (ap_first p ++ [x]) []
  | Some b => mk_apage (ap_tag p) (ap_prev p) (ap_id p) (ap_first p)
                (take (pred (length (ap_segs p))) (ap_segs p) ++ [(b.1, b.2 ++ [x])])
  end.

Lemma last_inv {X} (l : list X) b : list.last l = Some b -> l = take (pred (length l)) l ++ [b].
Proof.
  intros (l' & ->)%last_Some. rewrite length_app. simpl. replace (pred (length l' + 1)) with (length l') by lia.
  by rewrite take_app_length.
Qed.

Lemma page_grow_facts p x :
  ap_tag (page_grow p x) = ap_tag p /\ ap_prev (page_grow p x) = ap_prev p /\ ap_id (page_grow p x) = ap_id p /\
  page_ids (page_grow p x) = page_ids p /\ tail_id (page_grow p x) = tail_id p /\
  exists i, page_cells (page_grow p x) = page_cells p ++ [(tail_id p, i, x)] /\
    i = match list.last (ap_segs p) with None => length (ap_first p) | Some b => length b.2 end.
Proof.
  unfold page_grow, tail_id, last_id, page_ids, page_cells, page_blocks.
  destruct (list.last (ap_segs p)) as [[s ls]|] eqn:El; cbn [fst snd].
  - pose proof (last_inv _ _ El) as E. set (bs := take _ _) in *. rewrite E. cbn [ap_id ap_segs ap_tag ap_prev ap_first].
    rewrite !last_snoc. cbn [map fst snd]. rewrite !map_app. split_and!; try done.
    eexists; split; [|done]. cbn [map concat]. rewrite !concat_app. cbn [concat map]. rewrite cells_of_snoc, !app_nil_r.
    by rewrite !app_assoc.
  - assert (ap_segs p = []) as E by (by apply last_None). rewrite E. cbn [ap_id ap_segs ap_tag ap_prev ap_first map concat fst].
    split_and!; try done. eexists; split; [|done]. rewrite !app_nil_r. apply cells_of_snoc.
Qed.

Lemma page_grow_sizes p x : sizes_ok p -> page_full p = false -> sizes_ok (page_grow p x).
Proof.
  intros (H1 & H2 & H3). unfold page_full, page_grow. destruct (list.last (ap_segs p)) as [[s ls]|] eqn:El.
  - intros Hn%Nat.eqb_neq. pose proof (last_inv _ _ El) as E. set (bs := take _ _) in *. cbn [fst snd] in *.
    assert (length ls < 10)%nat as Hlt.
    { destruct (H3 (length bs) (s, ls)) as [H _]; [rewrite E; by apply list_lookup_middle|]. simpl in H. lia. }
    split_and!; [apply H1..| |]; cbn [ap_first ap_segs].
    + intros _. apply H2. rewrite E. by destruct bs.
    + intros i b Hb. apply lookup_app_Some in Hb as [Hb|[Hge Hb]].
      * assert (i < length bs)%nat as Hib by (by eapply lookup_lt_Some).
        destruct (H3 i b) as [H4 H5]; [rewrite E; by apply lookup_app_l_Some|]. split; [done|]. intros _. apply H5.
        rewrite E, length_app. simpl. lia.
      * destruct (i - length bs)%nat as [|n] eqn:En; [|by destruct n]. injection Hb as <-. cbn [snd].
        rewrite !length_app. cbn [length]. lia.
  - intros Hn%Nat.eqb_neq. cbn [ap_first ap_segs]. split_and!; [..|done|done]; cbn [ap_first]; rewrite length_app; simpl; lia.
Qed.

Lemma tail_range p : p ∈ concat A -> 1 <= tail_id p <= 4096 /\ tail_id p ∈ page_ids p.
Proof.
  intros Hp. assert (tail_id p ∈ page_ids p) as Hin.
  { unfold tail_id, last_id, page_ids, page_blocks. destruct (list.last (ap_segs p)) as [b|] eqn:El; [|by left].
    right. apply last_Some_elem_of in El. by apply (list_elem_of_fmap_2 fst) in El. }
  split; [|done]. pose proof (page_id_range _ _ _ _ _ _ HR p _ Hp Hin). lia.
Qed.

Lemma append_page p info :
  p ∈ concat A -> page_full p = false ->
  exists u, log_index_append_lsn d (ap_id p) info =
    Done (set_seg d (tail_id p) u,
          Z.of_nat (match list.last (ap_segs p) with None => length (ap_first p) | Some b => length b.2 end)) /\
    (exists h, (if decide (tail_id p = ap_id p) then u else seg_at d (ap_id p)) = item_head h /\ ih_tail_seg h = tail_id p) /\
    forall d', (forall s, seg_at d' s = if decide (s = tail_id p) then u else seg_at d s) ->
      forall nxt, page_ok d nxt p -> page_ok d' nxt (page_grow p (suffix (li_lsn info))).
Proof.
  intros Hp Hfull. destruct (page_in_repr _ _ _ _ _ _ HR p Hp) as [nxt0 [(sfx & Hat & Hsfx) Hsegs]].
  pose proof (page_id_range _ _ _ _ _ _ HR p (ap_id p) Hp ltac:(by left)) as Hr.
  destruct (tr_sizes _ _ _ _ _ _ HR p Hp) as (Hs1 & _ & Hs3).
  unfold log_index_append_lsn. rewrite (get_head_at d (ap_id p) _ ltac:(lia) Hat). cbn [obind ih_tail_seg ih_number].
  unfold page_full in Hfull. unfold page_grow. destruct (list.last (ap_segs p)) as [[s ls]|] eqn:El.
  - pose proof (last_inv _ _ El) as E. set (bs := take _ _) in *. apply Nat.eqb_neq in Hfull. cbn [snd] in *.
    assert (ap_segs p !! length bs = Some (s, ls)) as Hlk by (rewrite E; by apply list_lookup_middle).
    destruct (seg_block _ _ _ _ _ _ HR p _ s ls Hp Hlk) as (nx & sf & Hat' & _ & _ & Hne & Hr').
    destruct (Hs3 _ _ Hlk) as [Hlen _]. simpl in Hlen.
    assert (tail_id p = s) as Ht by (unfold tail_id, last_id; by rewrite El). rewrite Ht.
    destruct (s =? ap_id p) eqn:Es; zbool; [done|]. rewrite (get_seg_at d s _ Hr' Hat').
    cbn [obind is_number is_head_seg is_next_seg is_prev_seg is_suffix_lsn].
    eexists. split; [done|]. rewrite decide_False by done. split; [by rewrite Hat; eauto|].
    intros d' Hd' nxt [(sf0 & Hh & Hsf0) Hs]. rewrite E in Hs. apply segs_ok_app in Hs as [Hb [(sf1 & Hat1 & Hsf1) _]].
    cbn [next_id] in Hat1. rewrite Hat' in Hat1. injection Hat1 as Enx Eprev Esf. rewrite <- Esf in Hsf1. split.
    + exists sf0. split; [|done]. cbn [ap_id ap_tag ap_prev ap_first ap_segs]. rewrite Hd', decide_False by done.
      rewrite Hh. unfold tail_id. cbn [ap_id ap_segs]. rewrite last_id_snoc. rewrite E, last_id_snoc.
      by destruct bs as [|[] ?].
    + cbn [ap_id ap_segs]. apply segs_ok_app. cbn [next_id fst]. split.
      * eapply segs_ok_frame; [|exact Hb]. intros x Hx. rewrite Hd', decide_False; [done|]. intros ->.
        pose proof (page_ids_nodup _ _ _ _ _ _ HR p Hp) as Hnd. unfold page_ids, page_blocks in Hnd. cbn [map] in Hnd.
        apply NoDup_cons in Hnd as [_ Hnd]. rewrite E, map_app in Hnd. apply NoDup_app in Hnd as (_ & Hd & _).
        apply (Hd s Hx). by left.
      * split; [|done]. exists (aset sf (Z.of_nat (length ls)) (suffix (li_lsn info))). split.
        -- rewrite Hd', decide_True by done. rewrite insert_lsn_info_suffix, length_app, Enx, Eprev. do 2 f_equal.
           rewrite u8_small by lia. simpl. lia.
        -- by apply holds_sfx_snoc; [|lia].
  - assert (ap_segs p = []) as E by (by apply last_None). apply Nat.eqb_neq in Hfull.
    assert (tail_id p = ap_id p) as Ht by (unfold tail_id, last_id; by rewrite El). rewrite Ht, Z.eqb_refl.
    cbn [ih_head_seg ih_next_item ih_next_seg ih_tag ih_prev_page_lsn ih_suffix_lsn].
    eexists. split; [done|]. rewrite decide_True by done. split; [eauto|].
    intros d' Hd' nxt [(sf0 & Hh & Hsf0) _]. rewrite Hat in Hh. injection Hh as -> ->. split; [|done].
    exists (aset sf0 (Z.of_nat (length (ap_first p))) (suffix (li_lsn info))). split.
    + cbn [ap_id ap_tag ap_prev ap_first ap_segs]. rewrite Hd', decide_True by done.
      rewrite insert_lsn_info_suffix, length_app, E. do 2 f_equal. rewrite u8_small by lia. simpl. lia.
    + cbn [ap_first]. by apply holds_sfx_snoc; [|lia].
Qed.

(** The abstract table after page [p] of bucket [k] became [p']. *)
Lemma append_repr p info :
  p ∈ concat A -> page_full p = false -> LOG_INDEX_SAME_TABLE_LSN_PREFIX d (li_lsn info) = true ->
  exists d1 idx h d' A' Q', log_index_append_lsn d (ap_id p) info = Done (d1, idx) /\
    get_head d1 (ap_id p) = Done h /\ LOG_INDEX_MEM_TBL_ADD_ORDER d1 (ih_tail_seg h) idx = Done d' /\
    td_min_lsn d' = td_min_lsn d /\ td_max_lsn d' = td_max_lsn d /\ td_idx_table_id d' = td_idx_table_id d /\
    table_repr hash d' free A' Q'
      (L ++ [mk_lsn_info (ap_tag p) (li_lsn info) (LOG_INDEX_COMBINE_LSN d (default 0 (list.last (page_sfx p))))]).
Proof.
  intros Hp Hfull Hpre. destruct (append_page p info Hp Hfull) as (u & Hrun & (h & Hh & Hht) & Hok).
  destruct (tail_range p Hp) as [Htr Htin]. pose proof (tr_seg_len _ _ _ _ _ _ HR) as Hsl.
  destruct (page_grow_facts p (suffix (li_lsn info))) as (G1 & G2 & G3 & G4 & G5 & i & G6 & G7). rewrite <- G7 in Hrun.
  destruct (page_split p Hp) as (k & ps1 & ps2 & Hk & Hkey).
  pose proof (page_id_range _ _ _ _ _ _ HR p (ap_id p) Hp ltac:(by left)) as Hr.
  assert (forall s, seg_at (add_order_to (set_seg d (tail_id p) u) (tail_id p) i) s =
    if decide (s = tail_id p) then u else seg_at d s) as Hsa by (intros; by apply seg_at_set).
  eexists _, _, h, (add_order_to (set_seg d (tail_id p) u) (tail_id p) i), _, _. split; [exact Hrun|].
  split; [apply get_head_at; [lia|]; rewrite seg_at_set by done; rewrite <- Hh; by destruct (decide (ap_id p = tail_id p)), (decide (tail_id p = ap_id p)); congruence|].
  split; [rewrite Hht; by apply add_order_eq|]. split_and!; [done..|].
  rewrite <- G1. eapply (extend_repr hash d _ free free A Q L k ps1 [p] ps2 (page_grow p (suffix (li_lsn info))) []
    (tail_id p) i (li_lsn info) (LOG_INDEX_COMBINE_LSN d (default 0 (list.last (page_sfx p))))).
  split; try done.
  - by rewrite G1.
  - right. by exists p.
  - cbn [map concat]. by rewrite app_nil_r.
  - cbn [map concat]. by rewrite !app_nil_r.
  - by left.
  - apply page_grow_sizes; [by apply HR|done].
  - intros x Hx. rewrite Hsa, decide_False; [done|]. intros ->. rewrite G4 in Hx. done.
  - split; [done|]. intros q nxt [= <-]. by apply Hok.
  - split_and!; [done|done|]. cbn [add_order_to set_seg td_hash].
    destruct (tr_bucket _ _ _ _ _ _ HR k _ Hk) as (-> & _). destruct ps1; [by symmetry|done].
  - simpl. by rewrite length_aset.
  - apply order_fits.
Qed.

(** ** A new segment for a page *)

Lemma free_not_page p x : p ∈ concat A -> x ∈ page_ids p -> x <> free.
Proof. intros Hp Hx. pose proof (tr_range _ _ _ _ _ _ HR x (page_id_all A p x Hp Hx)). lia. Qed.

Definition with_segments (t : log_idx_table_data_t) (l : list log_tbl_seg_t) : log_idx_table_data_t :=
  mk_table (td_idx_table_id t) (td_min_lsn t) (td_max_lsn t) (td_prefix_lsn t) (td_crc t) (td_last_order t)
           (td_idx_order t) (td_hash t) l.

(** The writes of [log_index_insert_new_seg] after the link to the new
    segment. *)
Lemma new_seg_finish l1 id seg_id info h1 g :
  let d1 := with_segments d l1 in
  length l1 = 4096%nat -> 1 <= id <= 4096 -> 1 <= seg_id <= 4096 -> id <> seg_id ->
  seg_at d1 id = item_head h1 -> seg_at d1 seg_id = item_seg g ->
  exists l,
    (let! item := get_head d1 id in
     let prev := ih_tail_seg item in
     let d2 := set_seg d1 id (item_head (head_set_tail_seg item seg_id)) in
     let! seg := get_seg d2 seg_id in
     Done (set_seg d2 seg_id
            (item_seg (mk_seg (is_head_seg seg) LOG_INDEX_TBL_INVALID_SEG prev 1
                         (LOG_INDEX_INSERT_LSN_INFO (is_suffix_lsn seg) 0 (li_lsn info)))))) = Done (with_segments d l) /\
    length l = 4096%nat /\
    forall s, seg_at (with_segments d l) s =
      if decide (s = seg_id) then item_seg (mk_seg (is_head_seg g) 0 (ih_tail_seg h1) 1
                                              (aset (is_suffix_lsn g) 0 (suffix (li_lsn info))))
      else if decide (s = id) then item_head (head_set_tail_seg h1 seg_id) else seg_at d1 s.
Proof.
  intros d1 Hl1 Hid Hsid Hne Hh Hg. rewrite (get_head_at d1 id _ Hid Hh). cbn [obind]. cbv zeta.
  set (d2 := set_seg d1 id _). assert (length (td_segment d2) = 4096%nat) as Hl2 by (simpl; by rewrite length_aset).
  epose proof (fun s => seg_at_set d1 id _ s Hid Hl1 : seg_at d2 s = _) as Hd2.
  rewrite (get_seg_at d2 seg_id g Hsid) by (by rewrite Hd2, decide_False). cbn [obind].
  eexists. split; [reflexivity|]. split; [by rewrite length_aset|]. intros s.
  etrans; [exact (seg_at_set d2 seg_id _ s Hsid Hl2)|]. destruct (decide (s = seg_id)); [|apply Hd2].
  by rewrite insert_lsn_info_suffix.
Qed.

(** The part before: the new segment, and the link to it. *)
Definition seg_link (d0 : log_idx_table_data_t) (id seg_id : Z) (item : log_item_head_t) : outcome log_idx_table_data_t :=
  if ih_tail_seg item =? id then Done (set_seg d0 id (item_head (head_set_next_seg item seg_id)))
  else
    let! q := log_index_item_seg d0 (ih_tail_seg item) in
    match q with
    | None => Fault PANIC
    | Some u => let! pre_seg := as_seg u in
                Done (set_seg d0 (ih_tail_seg item) (item_seg (seg_set_next_seg pre_seg seg_id)))
    end.

Lemma tail_head_iff p : p ∈ concat A -> tail_id p = ap_id p <-> ap_segs p = [].
Proof.
  intros Hp. unfold tail_id, last_id. destruct (list.last (ap_segs p)) as [b|] eqn:El; cycle 1.
  { apply last_None in El. by rewrite El. }
  split; [|intros E; by rewrite E in El]. simpl. intros Ht. exfalso. apply last_Some_elem_of in El.
  pose proof (page_ids_nodup _ _ _ _ _ _ HR p Hp) as [Hn _]%NoDup_cons. apply Hn.
  unfold id in Ht. rewrite <- Ht. by apply (list_elem_of_fmap_2 fst) in El.
Qed.

Lemma new_seg_link p nxt sfx :
  p ∈ concat A -> free < LOG_INDEX_MEM_TBL_SEG_NUM ->
  let h := mk_head (ap_id p) nxt (next_id (ap_segs p) 0) (tail_id p) (ap_tag p)
                   (Z.of_nat (length (ap_first p))) (ap_prev p) sfx in
  seg_at d (ap_id p) = item_head h ->
  let g := mk_seg (ap_id p) 0 0 0 (is_suffix_lsn zero_seg) in
  let d0 := set_seg d free (item_seg g) in
  get_head d0 (ap_id p) = Done h /\
  exists l1, length l1 = 4096%nat /\ seg_link d0 (ap_id p) free h = Done (with_segments d l1) /\
    (forall s, s <> free -> s <> ap_id p -> s <> tail_id p -> seg_at (with_segments d l1) s = seg_at d s) /\
    seg_at (with_segments d l1) free = item_seg g /\
    seg_at (with_segments d l1) (ap_id p) =
      item_head (mk_head (ap_id p) nxt (next_id (ap_segs p) free) (tail_id p) (ap_tag p)
                   (Z.of_nat (length (ap_first p))) (ap_prev p) sfx) /\
    (forall sg, tail_id p <> ap_id p -> seg_at d (tail_id p) = item_seg sg ->
       seg_at (with_segments d l1) (tail_id p) = item_seg (seg_set_next_seg sg free)).
Proof.
  intros Hp Hfree h Hat g d0. pose proof (tr_seg_len _ _ _ _ _ _ HR) as Hsl. pose proof (tr_free _ _ _ _ _ _ HR) as Hf.
  unfold LOG_INDEX_MEM_TBL_SEG_NUM in *. assert (1 <= free <= 4096) as Hfr by lia.
  pose proof (page_id_range _ _ _ _ _ _ HR p (ap_id p) Hp ltac:(by left)) as Hr. assert (1 <= ap_id p <= 4096) as Hr' by lia.
  pose proof (free_not_page p (ap_id p) Hp ltac:(by left)) as Hnf. destruct (tail_range p Hp) as [Htr Htin].
  pose proof (free_not_page p (tail_id p) Hp Htin) as Hntf.
  assert (length (td_segment d0) = 4096%nat) as Hl0 by (simpl; by rewrite length_aset).
  pose proof (fun s => seg_at_set d free (item_seg g) s Hfr Hsl : seg_at d0 s = _) as Hd0.
  assert (seg_at d0 (ap_id p) = item_head h) as Ha0 by (by rewrite Hd0, decide_False).
  split; [by apply get_head_at|]. unfold seg_link. pose proof (tail_head_iff p Hp) as Hti. cbn [h ih_tail_seg].
  destruct (tail_id p =? ap_id p) eqn:Et; zbool.
  - eexists. split; [|split; [reflexivity|]]; [by rewrite !length_aset|].
    pose proof (fun s => seg_at_set d0 (ap_id p) (item_head (head_set_next_seg h free)) s Hr' Hl0) as Hd1.
    apply Hti in Et as Es. split_and!.
    + intros s H1 H2 _. etrans; [apply Hd1|]. by rewrite decide_False, Hd0, decide_False.
    + etrans; [apply Hd1|]. by rewrite decide_False, Hd0, decide_True.
    + etrans; [apply Hd1|]. rewrite decide_True by done. by rewrite Es.
    + done.
  - assert (exists sg, seg_at d (tail_id p) = item_seg sg) as [sg Hsg].
    { unfold tail_id, last_id in *. destruct (list.last (ap_segs p)) as [[s ls]|] eqn:El; [|done].
      rewrite last_lookup in El. destruct (seg_block _ _ _ _ _ _ HR p _ s ls Hp El) as (nx & sf & Hsa & _). by eexists. }
    assert (seg_at d0 (tail_id p) = item_seg sg) as Hs0 by (by rewrite Hd0, decide_False).
    rewrite item_seg_at by lia. cbn [obind]. rewrite Hs0. cbn [as_seg obind].
    eexists. split; [|split; [reflexivity|]]; [by rewrite !length_aset|].
    pose proof (fun s => seg_at_set d0 (tail_id p) (item_seg (seg_set_next_seg sg free)) s Htr Hl0) as Hd1. split_and!.
    + intros s H1 H2 H3. etrans; [apply Hd1|]. by rewrite decide_False, Hd0, decide_False.
    + etrans; [apply Hd1|]. by rewrite decide_False, Hd0, decide_True.
    + etrans; [apply Hd1|]. rewrite decide_False, Ha0 by done. unfold h.
      destruct (ap_segs p) eqn:Es; [|done]. by destruct Et; apply Hti.
    + intros sg' _ E. rewrite Hsg in E. injection E as <-. etrans; [apply Hd1|]. by rewrite decide_True.
Qed.

Lemma new_seg_page p info nxt sfx :
  p ∈ concat A -> free < LOG_INDEX_MEM_TBL_SEG_NUM ->
  seg_at d (ap_id p) = item_head (mk_head (ap_id p) nxt (next_id (ap_segs p) 0) (tail_id p) (ap_tag p)
                                    (Z.of_nat (length (ap_first p))) (ap_prev p) sfx) ->
  exists l, log_index_insert_new_seg d (ap_id p) free info = Done (with_segments d l) /\ length l = 4096%nat /\
    (forall s, s <> free -> s <> ap_id p -> s <> tail_id p -> seg_at (with_segments d l) s = seg_at d s) /\
    seg_at (with_segments d l) free =
      item_seg (mk_seg (ap_id p) 0 (tail_id p) 1 (aset (is_suffix_lsn zero_seg) 0 (suffix (li_lsn info)))) /\
    seg_at (with_segments d l) (ap_id p) =
      item_head (mk_head (ap_id p) nxt (next_id (ap_segs p) free) free (ap_tag p)
                   (Z.of_nat (length (ap_first p))) (ap_prev p) sfx) /\
    (forall sg, tail_id p <> ap_id p -> seg_at d (tail_id p) = item_seg sg ->
       seg_at (with_segments d l) (tail_id p) = item_seg (seg_set_next_seg sg free)).
Proof.
  intros Hp Hfree Hat. destruct (new_seg_link p nxt sfx Hp Hfree Hat) as (Hgh & l1 & Hl1 & Hlink & H1 & H2 & H3 & H4).
  pose proof (tr_free _ _ _ _ _ _ HR) as Hf. unfold LOG_INDEX_MEM_TBL_SEG_NUM in *.
  pose proof (page_id_range _ _ _ _ _ _ HR p (ap_id p) Hp ltac:(by left)) as Hr.
  pose proof (free_not_page p (ap_id p) Hp ltac:(by left)) as Hnf. destruct (tail_range p Hp) as [Htr Htin].
  pose proof (free_not_page p (tail_id p) Hp Htin) as Hntf.
  pose proof (tr_fresh _ _ _ _ _ _ HR free ltac:(unfold LOG_INDEX_MEM_TBL_SEG_NUM; lia)) as Hfr.
  destruct (new_seg_finish l1 (ap_id p) free info _ _ Hl1 ltac:(lia) ltac:(lia) Hnf H3 H2) as (l & Hfin & Hl & Hs).
  exists l. split.
  - unfold log_index_insert_new_seg. assert (get_seg d free = Done zero_seg) as ->.
    { unfold get_seg. rewrite item_seg_at by lia. cbn [obind deref]. by rewrite Hfr. }
    cbn [obind is_next_seg is_prev_seg is_number is_suffix_lsn zero_seg].
    change (replicate _ 0) with (is_suffix_lsn zero_seg). rewrite Hgh. cbn [obind].
    unfold seg_link in Hlink. rewrite Hlink. cbn [obind]. exact Hfin.
  - split_and!; [done| | | |].
    + intros s Hs1 Hs2 Hs3. rewrite Hs, decide_False, decide_False by done. by apply H1.
    + by rewrite Hs, decide_True.
    + by rewrite Hs, decide_False, decide_True.
    + intros sg Hne Hsg. rewrite Hs, decide_False, decide_False by done. by apply H4.
Qed.

Definition page_new_seg (p : apage) (s x : Z) : apage :=
  mk_apage (ap_tag p) (ap_prev p) (ap_id p) (ap_first p) (ap_segs p ++ [(s, [x])]).

Lemma page_new_seg_sizes p s x : sizes_ok p -> page_full p = true -> sizes_ok (page_new_seg p s x).
Proof.
  intros (H1 & H2 & H3) Hf. unfold page_full in Hf. cbn [page_new_seg ap_first ap_segs].
  split_and!; [apply H1..| |]; cbn [page_new_seg ap_first ap_segs].
  - intros _. destruct (list.last (ap_segs p)) as [b|] eqn:El; [|by apply Nat.eqb_eq in Hf].
    apply H2. intros E. by rewrite E in El.
  - intros i b Hb. apply lookup_app_Some in Hb as [Hb|[Hge Hb]].
    + destruct (H3 i b Hb) as [H4 H5]. split; [done|]. intros _.
      destruct (decide (S i < length (ap_segs p))%nat) as [Hlt|Hnl]; [by apply H5|].
      assert (i = pred (length (ap_segs p))) as -> by (apply lookup_lt_Some in Hb; lia).
      rewrite last_lookup, Hb in Hf. by apply Nat.eqb_eq in Hf.
    + destruct (i - length (ap_segs p))%nat as [|n] eqn:En; [|by destruct n]. injection Hb as <-. simpl.
      rewrite length_app. simpl. lia.
Qed.

(** Memory of a page whose last segment got a successor. *)
Lemma new_seg_ok d' p x :
  p ∈ concat A ->
  (forall s, s <> free -> s <> ap_id p -> s <> tail_id p -> seg_at d' s = seg_at d s) ->
  seg_at d' free = item_seg (mk_seg (ap_id p) 0 (tail_id p) 1 (aset (is_suffix_lsn zero_seg) 0 x)) ->
  (forall nxt sfx, seg_at d (ap_id p) = item_head (mk_head (ap_id p) nxt (next_id (ap_segs p) 0) (tail_id p) (ap_tag p)
                                    (Z.of_nat (length (ap_first p))) (ap_prev p) sfx) ->
     seg_at d' (ap_id p) = item_head (mk_head (ap_id p) nxt (next_id (ap_segs p) free) free (ap_tag p)
                             (Z.of_nat (length (ap_first p))) (ap_prev p) sfx)) ->
  (forall sg, tail_id p <> ap_id p -> seg_at d (tail_id p) = item_seg sg ->
     seg_at d' (tail_id p) = item_seg (seg_set_next_seg sg free)) ->
  forall nxt, page_ok d nxt p -> page_ok d' nxt (page_new_seg p free x).
Proof.
  intros Hp H1 H2 H3 H4 nxt [(sfx & Hat & Hsfx) Hsegs]. split.
  - exists sfx. cbn [page_new_seg ap_id ap_tag ap_prev ap_first ap_segs]. split; [|done].
    rewrite (H3 nxt sfx Hat). unfold tail_id. cbn [page_new_seg ap_id ap_segs]. rewrite last_id_snoc.
    by destruct (ap_segs p).
  - cbn [page_new_seg ap_id ap_segs]. apply segs_ok_app. cbn [next_id fst].
    assert (seg_ok d' (ap_id p) (tail_id p) 0 free [x]) as Hnew.
    { eexists. split; [exact H2|]. by apply holds_sfx_first; [|lia]. }
    split; [|split; [exact Hnew|done]].
    destruct (list.last (ap_segs p)) as [[s ls]|] eqn:El; cycle 1.
    { apply last_None in El. by rewrite El. }
    pose proof (last_inv _ _ El) as E. set (bs := take _ _) in *.
    assert (tail_id p = s) as Ht by (unfold tail_id, last_id; by rewrite El).
    pose proof (page_ids_nodup _ _ _ _ _ _ HR p Hp) as Hnd. unfold page_ids, page_blocks in Hnd. cbn [map] in Hnd.
    apply NoDup_cons in Hnd as [Hhd Hnd]. rewrite E in *. rewrite map_app in Hnd, Hhd. apply segs_ok_app in Hsegs as [Hb [(sf & Hs1 & Hs2) _]].
    apply segs_ok_app. cbn [next_id fst] in *. split.
    + eapply segs_ok_frame; [|exact Hb]. intros y Hy. apply H1.
      * apply (free_not_page p); [done|]. unfold page_ids, page_blocks. cbn [map]. right. rewrite E, map_app. apply elem_of_app. by left.
      * intros ->. apply Hhd, elem_of_app. by left.
      * rewrite Ht. intros ->. apply NoDup_app in Hnd as (_ & Hd & _). apply (Hd s Hy). by left.
    + split; [|done]. exists sf. split; [|done]. rewrite <- Ht. rewrite <- Ht in Hs1.
      rewrite (H4 _ ltac:(rewrite Ht; intros ->; apply Hhd, elem_of_app; right; by left) Hs1). done.
Qed.

Lemma new_seg_repr p info :
  p ∈ concat A -> page_full p = true -> free < LOG_INDEX_MEM_TBL_SEG_NUM ->
  LOG_INDEX_SAME_TABLE_LSN_PREFIX d (li_lsn info) = true ->
  exists d1 d' A' Q', log_index_insert_new_seg d (ap_id p) free info = Done d1 /\
    LOG_INDEX_MEM_TBL_ADD_ORDER d1 free 0 = Done d' /\
    td_min_lsn d' = td_min_lsn d /\ td_max_lsn d' = td_max_lsn d /\ td_idx_table_id d' = td_idx_table_id d /\
    table_repr hash d' (free + 1) A' Q'
      (L ++ [mk_lsn_info (ap_tag p) (li_lsn info) (LOG_INDEX_COMBINE_LSN d (default 0 (list.last (page_sfx p))))]).
Proof.
  intros Hp Hfull Hfree Hpre. destruct (page_in_repr _ _ _ _ _ _ HR p Hp) as [nxt0 [(sfx & Hat & Hsfx) Hsegs]].
  destruct (new_seg_page p info nxt0 sfx Hp Hfree Hat) as (l & Hrun & Hl & H1 & H2 & H3 & H4).
  destruct (page_split p Hp) as (k & ps1 & ps2 & Hk & Hkey). destruct (tail_range p Hp) as [_ Htin].
  set (p' := page_new_seg p free (suffix (li_lsn info))).
  assert (page_ids p' = page_ids p ++ [free]) as Hids.
  { unfold p', page_ids, page_blocks. cbn [page_new_seg ap_id ap_segs ap_first map]. by rewrite map_app. }
  eexists _, (add_order_to (with_segments d l) free 0), _, _. split; [exact Hrun|].
  split; [by apply (add_order_eq (with_segments d l) free 0)|]. split_and!; [done..|].
  eapply (extend_repr hash d _ free (free + 1) A Q L k ps1 [p] ps2 p' [free]
    free 0 (li_lsn info) (LOG_INDEX_COMBINE_LSN d (default 0 (list.last (page_sfx p))))).
  split; try done.
  - right. by exists p.
  - unfold p', page_cells, page_blocks. cbn [page_new_seg ap_id ap_segs ap_first map concat]. rewrite map_app, concat_app.
    cbn [map concat cells_of imap fst snd app]. by rewrite !app_nil_r, <- app_assoc.
  - cbn [map concat]. by rewrite app_nil_r.
  - right. done.
  - apply page_new_seg_sizes; [by apply HR|done].
  - intros x Hx. rewrite Hids in Hx. apply not_elem_of_app in Hx as [Hx1 Hx2]. apply H1.
    + intros ->. apply Hx2. by left.
    + intros ->. apply Hx1. by left.
    + by intros ->.
  - split; [done|]. intros q nxt [= <-] Hok. refine (new_seg_ok (add_order_to (with_segments d l) free 0) p (suffix (li_lsn info)) Hp H1 H2 _ H4 nxt Hok).
    intros nx sf Hat'. rewrite Hat in Hat'. injection Hat' as <- <-. exact H3.
  - split_and!; [done|done|]. destruct (tr_bucket _ _ _ _ _ _ HR k _ Hk) as (E & _).
    change (td_hash (add_order_to (with_segments d l) free 0)) with (td_hash d). rewrite E. by destruct ps1.
  - simpl. by rewrite (tr_seg_len _ _ _ _ _ _ HR).
  - apply order_fits.
Qed.

(** ** A new item *)

Lemma new_item_repr info :
  (forall p, p ∈ concat A -> ap_tag p <> li_tag info) -> free < LOG_INDEX_MEM_TBL_SEG_NUM ->
  LOG_INDEX_SAME_TABLE_LSN_PREFIX d (li_lsn info) = true ->
  exists d1 d' A' Q', log_index_insert_new_item info d (hash (li_tag info)) free = Done d1 /\
    LOG_INDEX_MEM_TBL_ADD_ORDER d1 free 0 = Done d' /\
    td_min_lsn d' = td_min_lsn d /\ td_max_lsn d' = td_max_lsn d /\ td_idx_table_id d' = td_idx_table_id d /\
    table_repr hash d' (free + 1) A' Q' (L ++ [info]).
Proof.
  intros Habs Hfree Hpre. pose proof (tr_seg_len _ _ _ _ _ _ HR) as Hsl. pose proof (tr_free _ _ _ _ _ _ HR) as Hf.
  pose proof (Hhash (li_tag info)) as Hkr. pose proof (tr_hash_len _ _ _ _ _ _ HR) as Hhl.
  change LOG_INDEX_MEM_TBL_HASH_NUM with 2048 in Hkr. unfold LOG_INDEX_MEM_TBL_SEG_NUM in *.
  pose proof (tr_fresh _ _ _ _ _ _ HR free ltac:(unfold LOG_INDEX_MEM_TBL_SEG_NUM; lia)) as Hfr.
  destruct (bucket_of _ Hhash _ _ _ _ _ HR (li_tag info)) as [ps Hk]. set (k := Z.to_nat (hash (li_tag info))) in *.
  destruct (tr_bucket _ _ _ _ _ _ HR k ps Hk) as (Hslot & _). replace (Z.of_nat k) with (hash (li_tag info)) in Hslot by lia.
  set (p' := mk_apage (li_tag info) (li_prev_lsn info) free [suffix (li_lsn info)] []).
  set (u := item_head (mk_head free (hd_id ps) 0 free (li_tag info) 1 (li_prev_lsn info)
              (aset (ih_suffix_lsn zero_head) 0 (suffix (li_lsn info))))).
  assert (log_index_insert_new_item info d (hash (li_tag info)) free = Done (set_hash (set_seg d free u) (hash (li_tag info)) free)) as Hrun.
  { unfold log_index_insert_new_item, LOG_INDEX_TBL_SLOT_VALUE. rewrite Hslot. unfold get_head.
    rewrite item_head_at by lia. cbn [obind deref]. rewrite Hfr. cbn [as_head obind]. rewrite insert_lsn_info_suffix.
    unfold u, LOG_INDEX_TBL_INVALID_SEG. do 5 f_equal. by destruct (hd_id ps =? 0) eqn:E; zbool. }
  set (d1 := set_hash _ _ _) in *.
  assert (forall s, seg_at (add_order_to d1 free 0) s = if decide (s = free) then u else seg_at d s) as Hsa
    by (intros; apply (seg_at_set d free u s); [lia|done]).
  eexists _, (add_order_to d1 free 0), _, _. split; [exact Hrun|]. split; [by apply (add_order_eq d1 free 0)|].
  split_and!; [done..|]. destruct info as [tag lsn prev]. cbn [li_tag li_lsn li_prev_lsn] in *.
  eapply (extend_repr hash d _ free (free + 1) A Q L k [] [] ps p' [free] free 0 lsn prev).
  split; try done.
  - cbn [p' ap_tag]. lia.
  - left. done.
  - right. done.
  - split_and!; cbn [p' ap_first ap_segs length]; [lia|lia|done|done].
  - intros x Hx. rewrite Hsa, decide_False; [done|]. intros ->. apply Hx. by left.
  - split; [|done]. intros _. split; [|done]. eexists. split; [rewrite Hsa, decide_True by done; reflexivity|].
    by apply holds_sfx_first; [|lia].
  - cbn [d1 set_hash set_seg add_order_to td_hash]. rewrite length_aset. split_and!; [done| |].
    + intros j Hj. rewrite aget_aset by lia. rewrite decide_False by lia. done.
    + rewrite aget_aset by lia. by rewrite decide_True by lia.
  - simpl. by rewrite length_aset.
  - apply order_fits.
Qed.
End adding.
