(* ===== verification/LogIndexBloom.v ===== *)
(** * The Bloom filter of a log index table (polar_logindex.c)

    Before a table is saved, a Bloom filter of the pages it has entries of
    is computed from its items, along with the range of its LSNs. *)

From stdpp Require Import sorting.
From S2P Require Import Prelude BufTag Bloom LogIndexTable LogIndexRepr.

Definition LOG_INDEX_FILE_TBL_BLOOM_SIZE : Z := 4096.

(** [LOG_INDEX_MEM_TBL_SEG_NUM * 0.2] as an integer. *)
Definition LOG_INDEX_BLOOM_ELEMS_NUM : Z := 819.

(** [offsetof(log_file_table_bloom_t, bloom_bytes)]. *)
Definition BLOOM_BYTES_OFFSET : Z := 32.

(** [bt_bitset] is what follows the header of the filter in [bloom_bytes]. *)
Record log_file_table_bloom_t := mk_tbl_bloom {
  bt_idx_table_id : Z;
  bt_min_lsn : Z;
  bt_max_lsn : Z;
  bt_buf_size : Z;
  bt_bitset : list Z
}.

Section bloom.
Context (hash_any_extended : list Z -> Z -> Z) (bloom_rint : Z -> Z -> Z).

Definition tbl_filter (bloom : log_file_table_bloom_t) : bloom_filter :=
  bloom_init_struct bloom_rint (bt_bitset bloom) (bt_buf_size bloom) LOG_INDEX_BLOOM_ELEMS_NUM 0.

(** The body of the inner loop. *)
Definition calc_bloom_item (d : log_idx_table_data_t) (item : log_item_head_t) (f : bloom_filter) (bloom : log_file_table_bloom_t)
  : outcome (bloom_filter * log_file_table_bloom_t) :=
  let! item_max := log_index_item_max_lsn d item in
  let max_lsn := Z.max (bt_max_lsn bloom) item_max in
  let min_lsn := Z.min (bt_min_lsn bloom) (LOG_INDEX_SEG_MIN_LSN d (ih_suffix_lsn item)) in
  Done (bloom_add_element hash_any_extended f (tag_bytes (ih_tag item)),
        mk_tbl_bloom (bt_idx_table_id bloom) min_lsn max_lsn (bt_buf_size bloom) (bt_bitset bloom)).

Fixpoint calc_bloom_chain (fuel : nat) (d : log_idx_table_data_t) (id : Z) (f : bloom_filter) (bloom : log_file_table_bloom_t)
  : outcome (bloom_filter * log_file_table_bloom_t) :=
  match fuel with
  | O => Fault OUT_OF_FUEL
  | S n =>
    let! p := log_index_item_head d id in
    match p with
    | None => Done (f, bloom)
    | Some u =>
      let! item := as_head u in
      let! (f, bloom) := calc_bloom_item d item f bloom in
      calc_bloom_chain n d (ih_next_item item) f bloom
    end
  end.

(** The loop over the slots [i ..] of the hash table, [n] of them. *)
Fixpoint calc_bloom_slots (n : nat) (i : Z) (d : log_idx_table_data_t) (f : bloom_filter) (bloom : log_file_table_bloom_t)
  : outcome (bloom_filter * log_file_table_bloom_t) :=
  match n with
  | O => Done (f, bloom)
  | S n =>
    let id := LOG_INDEX_TBL_SLOT_VALUE d i in
    let! (f, bloom) := (if negb (id =? LOG_INDEX_TBL_INVALID_SEG) then calc_bloom_chain SEG_FUEL d id f bloom else Done (f, bloom)) in
    calc_bloom_slots n (i + 1) d f bloom
  end.

(** The filter is built in place, in the bytes of [bloom]. *)
Definition log_index_calc_bloom (d : log_idx_table_data_t) (bloom : log_file_table_bloom_t) : outcome log_file_table_bloom_t :=
  let! (f, bloom) := calc_bloom_slots (Z.to_nat LOG_INDEX_MEM_TBL_HASH_NUM) 0 d (tbl_filter bloom) bloom in
  Done (mk_tbl_bloom (bt_idx_table_id bloom) (bt_min_lsn bloom) (bt_max_lsn bloom) (bt_buf_size bloom) (bf_bitset f)).

(** The memory of [bloom] is zero before. *)
Definition log_index_get_bloom_data (d : log_idx_table_data_t) (tid : Z) : outcome log_file_table_bloom_t :=
  let buf_size := LOG_INDEX_FILE_TBL_BLOOM_SIZE - BLOOM_BYTES_OFFSET in
  log_index_calc_bloom d
    (mk_tbl_bloom tid UINT64_MAX InvalidXLogRecPtr buf_size (replicate (Z.to_nat (buf_size - BLOOM_HEADER_SIZE)) 0)).

End bloom.

(** ** What the filter holds *)

Section spec.
Context (hash_any_extended : list Z -> Z -> Z) (bloom_rint : Z -> Z -> Z).
Context (hash : BufferTag -> Z) (d : log_idx_table_data_t) (free : Z) (A : list (list apage)) (Q : list (Z * nat)).
Context (L : list log_index_lsn_t) (HR : table_repr hash d free A Q L).
Notation add_all := (bloom_add_all hash_any_extended).

Definition page_tags (ps : list apage) : list (list Z) := map (fun p => tag_bytes (ap_tag p)) ps.

Definition page_first (p : apage) : Z := default 0 (head (map (LOG_INDEX_COMBINE_LSN d) (page_sfx p))).
Definition page_last (p : apage) : Z := default 0 (list.last (map (LOG_INDEX_COMBINE_LSN d) (page_sfx p))).

(** The range of LSNs widened by the items of pages. *)
Definition widen (b : log_file_table_bloom_t) (ps : list apage) : log_file_table_bloom_t :=
  mk_tbl_bloom (bt_idx_table_id b) (foldl (fun l p => Z.min l (page_first p)) (bt_min_lsn b) ps)
    (foldl (fun l p => Z.max l (page_last p)) (bt_max_lsn b) ps) (bt_buf_size b) (bt_bitset b).

Lemma widen_app b ps qs : widen (widen b ps) qs = widen b (ps ++ qs).
Proof. unfold widen. cbn. by rewrite !foldl_app. Qed.

Lemma calc_chain_spec ps fuel f b :
  pages_ok d ps -> (forall p, p ∈ ps -> p ∈ concat A) -> (length ps < fuel)%nat ->
  calc_bloom_chain hash_any_extended fuel d (hd_id ps) f b = Done (add_all f (page_tags ps), widen b ps).
Proof.
  revert fuel f b. induction ps as [|p ps IH]; intros [|fuel] f b Hok Hin Hf; simpl in Hf; try lia.
  { cbn. by destruct b. }
  cbn [calc_bloom_chain hd_id]. pose proof (Hin p ltac:(by left)) as Hp.
  pose proof (page_id_range hash d free A Q L HR p (ap_id p) Hp ltac:(by left)) as Hr.
  destruct (item_max_spec hash d free A Q L HR p Hp) as (nxt & sfx & Hgh & Hmin & mx & Hmax & Hlast).
  destruct Hok as [[(sfx' & Hh & _) _] Hrest]. rewrite (get_head_at d (ap_id p) _ ltac:(lia) Hh) in Hgh. injection Hgh as En Es.
  rewrite item_head_at by lia. cbn [obind]. rewrite Hh. cbn [as_head obind]. unfold calc_bloom_item.
  rewrite En, Es, Hmax. cbn [obind ih_next_item ih_tag ih_suffix_lsn].
  rewrite <- En, IH by (done || lia || (intros q Hq; apply Hin; by right)). f_equal. f_equal.
  assert (page_first p = LOG_INDEX_SEG_MIN_LSN d sfx) as Hpf by (unfold page_first; by rewrite <- Hmin).
  assert (page_last p = mx) as Hpl by (unfold page_last; by rewrite Hlast).
  unfold widen. cbn [foldl bt_idx_table_id bt_min_lsn bt_max_lsn bt_buf_size bt_bitset]. by rewrite Hpf, Hpl.
Qed.

Lemma calc_slots_spec n i f b :
  (i + n = length A)%nat ->
  calc_bloom_slots hash_any_extended n (Z.of_nat i) d f b =
  Done (add_all f (page_tags (concat (drop i A))), widen b (concat (drop i A))).
Proof.
  revert i f b. induction n as [|n IH]; intros i f b Hi; cbn [calc_bloom_slots].
  { rewrite drop_ge by lia. by destruct b. }
  assert (is_Some (A !! i)) as [ps Hps] by (apply lookup_lt_is_Some; lia).
  destruct (tr_bucket _ _ _ _ _ _ HR i ps Hps) as (Hslot & Hok & _). unfold LOG_INDEX_TBL_SLOT_VALUE. rewrite Hslot.
  assert (forall p, p ∈ ps -> p ∈ concat A) as Hin.
  { intros p Hp. apply elem_of_concat. exists ps. split; [done|]. by eapply list_elem_of_lookup_2. }
  assert ((if negb (hd_id ps =? LOG_INDEX_TBL_INVALID_SEG) then calc_bloom_chain hash_any_extended SEG_FUEL d (hd_id ps) f b
           else Done (f, b)) = Done (add_all f (page_tags ps), widen b ps)) as ->.
  { unfold LOG_INDEX_TBL_INVALID_SEG. destruct (hd_id ps =? 0) eqn:E; zbool; cbn [negb].
    - destruct ps as [|p ps]; [by destruct b|]. cbn [hd_id] in E.
      pose proof (page_id_range hash d free A Q L HR p (ap_id p) (Hin p ltac:(by left)) ltac:(by left)). lia.
    - apply calc_chain_spec; [done|done|]. pose proof (bucket_len hash d free A Q L HR i ps Hps).
      change SEG_FUEL with (S (Z.to_nat 4096)). lia. }
  cbn [obind]. replace (Z.of_nat i + 1) with (Z.of_nat (S i)) by lia. rewrite IH by lia.
  rewrite (drop_S A ps i Hps). cbn [concat]. rewrite widen_app. unfold page_tags, bloom_add_all. by rewrite map_app, foldl_app.
Qed.

Definition new_bloom (tid : Z) : log_file_table_bloom_t :=
  mk_tbl_bloom tid UINT64_MAX InvalidXLogRecPtr 4064 (replicate (Z.to_nat 4040) 0).

(** The Bloom data of a table: it has its range of LSNs and does not lack
    the pages of its entries. *)
Record bloom_of (tid : Z) (L : list log_index_lsn_t) (b : log_file_table_bloom_t) : Prop := {
  bo_id : bt_idx_table_id b = tid;
  bo_max : forall e, e ∈ L -> li_lsn e <= bt_max_lsn b;
  bo_min : forall e, e ∈ L -> bt_min_lsn b <= li_lsn e;
  bo_tags : forall e, e ∈ L -> bloom_lacks_element hash_any_extended (tbl_filter bloom_rint b) (tag_bytes (li_tag e)) = false
}.

Lemma get_bloom_spec tid :
  log_index_get_bloom_data hash_any_extended bloom_rint d tid =
  Done (mk_tbl_bloom tid (bt_min_lsn (widen (new_bloom tid) (concat A))) (bt_max_lsn (widen (new_bloom tid) (concat A))) 4064
          (bf_bitset (add_all (tbl_filter bloom_rint (new_bloom tid)) (page_tags (concat A))))).
Proof.
  unfold log_index_get_bloom_data, log_index_calc_bloom. change (LOG_INDEX_FILE_TBL_BLOOM_SIZE - BLOOM_BYTES_OFFSET) with 4064.
  change (4064 - BLOOM_HEADER_SIZE) with 4040. fold (new_bloom tid).
  pose proof (calc_slots_spec (Z.to_nat LOG_INDEX_MEM_TBL_HASH_NUM) 0 (tbl_filter bloom_rint (new_bloom tid)) (new_bloom tid)) as H.
  change (Z.of_nat 0) with 0 in H. rewrite H by (rewrite (tr_buckets _ _ _ _ _ _ HR); done). done.
Qed.

Lemma new_filter_wf tid : bloom_wf (tbl_filter bloom_rint (new_bloom tid)).
Proof.
  apply bloom_init_wf; [split; vm_compute; discriminate| |].
  - unfold new_bloom. cbn [bt_bitset bt_buf_size]. rewrite length_replicate. reflexivity.
  - intros i. unfold new_bloom. cbn [bt_bitset]. rewrite aget_replicate. split; [discriminate|reflexivity].
Qed.

Lemma foldl_max_ge {T} (g : T -> Z) ps z : z <= foldl (fun l p => Z.max l (g p)) z ps /\ forall p, p ∈ ps -> g p <= foldl (fun l p => Z.max l (g p)) z ps.
Proof.
  revert z. induction ps as [|q ps IH]; intros z; cbn [foldl]; [split; [lia|intros p Hp; by apply not_elem_of_nil in Hp]|].
  destruct (IH (Z.max z (g q))) as [H1 H2]. split; [lia|]. intros p [->|Hp]%elem_of_cons; [lia|by apply H2].
Qed.

Lemma foldl_min_le {T} (g : T -> Z) ps z : foldl (fun l p => Z.min l (g p)) z ps <= z /\ forall p, p ∈ ps -> foldl (fun l p => Z.min l (g p)) z ps <= g p.
Proof.
  revert z. induction ps as [|q ps IH]; intros z; cbn [foldl]; [split; [lia|intros p Hp; by apply not_elem_of_nil in Hp]|].
  destruct (IH (Z.min z (g q))) as [H1 H2]. split; [lia|]. intros p [->|Hp]%elem_of_cons; [lia|by apply H2].
Qed.

Lemma add_all_params f es : k_hash_funcs (add_all f es) = k_hash_funcs f /\ bf_seed (add_all f es) = bf_seed f /\ bf_m (add_all f es) = bf_m f.
Proof. revert f. induction es as [|e es IH]; intros f; [done|]. destruct (IH (bloom_add_element hash_any_extended f e)) as (H1 & H2 & H3). done. Qed.

(** The Bloom data computed for a table whose pages have increasing LSNs. *)
Lemma get_bloom_of tid :
  (forall tag, StronglySorted Z.le (map li_lsn (filter (fun e => li_tag e = tag) L))) ->
  exists b, log_index_get_bloom_data hash_any_extended bloom_rint d tid = Done b /\ bloom_of tid L b.
Proof.
  intros Hs. eexists. split; [apply get_bloom_spec|].
  assert (forall e, e ∈ L -> exists p, p ∈ concat A /\ ap_tag p = li_tag e /\ page_first p <= li_lsn e <= page_last p) as Hpage.
  { intros e He. destruct (tr_entry _ _ _ _ _ _ HR e He) as (_ & p & Hp & Ht). exists p. split_and!; [done|done|..].
    all: specialize (Hs (ap_tag p)); unfold page_first, page_last.
    all: assert (map (LOG_INDEX_COMBINE_LSN d) (page_sfx p) = map li_lsn (filter (fun e => li_tag e = ap_tag p) L)) as ->.
    1, 3: rewrite (tr_page _ _ _ _ _ _ HR p Hp), map_map; apply map_ext_in; intros x Hx%list_elem_of_In;
      apply list_elem_of_filter in Hx as [_ Hx]; apply combine_suffix; by apply (tr_entry _ _ _ _ _ _ HR).
    all: assert (li_lsn e ∈ map li_lsn (filter (fun e => li_tag e = ap_tag p) L)) as Hin
      by (apply list_elem_of_fmap_2, list_elem_of_filter; done).
    - destruct (map li_lsn _) as [|y l]; [by apply not_elem_of_nil in Hin|]. apply StronglySorted_inv in Hs as [_ Hall].
      cbn. apply elem_of_cons in Hin as [->|Hin]; [lia|]. rewrite Forall_forall in Hall. by apply Hall.
    - revert Hs Hin. generalize (map li_lsn (filter (fun e => li_tag e = ap_tag p) L)). clear. intros l.
      induction l as [|y l IH] using rev_ind; intros Hs Hin; [by apply not_elem_of_nil in Hin|].
      rewrite last_snoc. cbn. apply elem_of_app in Hin as [Hin|Hin%list_elem_of_singleton]; [|lia].
      eapply (StronglySorted_app_1_elem_of Z.le l [y]); [done|done|by left]. }
  split; cbn [bt_idx_table_id bt_min_lsn bt_max_lsn]; [done|..]; intros e He; destruct (Hpage e He) as (p & Hp & Ht & Hle).
  - etransitivity; [apply Hle|]. cbn. by apply (foldl_max_ge page_last).
  - etransitivity; [|apply Hle]. cbn. by apply (foldl_min_le page_first).
  - set (f0 := tbl_filter bloom_rint (new_bloom tid)). set (b := mk_tbl_bloom _ _ _ _ _).
    assert (tbl_filter bloom_rint b = add_all f0 (page_tags (concat A))) as ->.
    { destruct (add_all_params f0 (page_tags (concat A))) as (H1 & H2 & H3). unfold b, tbl_filter at 1, bloom_init_struct.
      cbn [bt_bitset bt_buf_size]. destruct (add_all f0 _) as [k' s' m' bs]. cbn in H1, H2, H3 |- *. by rewrite H1, H2, H3. }
    apply added_not_lacking; [apply new_filter_wf|]. rewrite <- Ht. by apply (list_elem_of_fmap_2 (fun p => tag_bytes (ap_tag p))).
Qed.
End spec.
