(* ===== verification/LogIndexSnapshot.v ===== *)
(** * The ring of log index tables (polar_logindex.c)

    A snapshot has a ring of memory tables; one is active and takes new
    entries.  A full table, or one whose LSN prefix no longer fits, becomes
    inactive, is written to storage in the order of the table ids and may
    then be reused.

    Storage is a map from table ids to table contents and a copy of the
    meta data, and the Bloom data of the tables by table id; writing does
    not fail (an I/O error ends the process).  One process inserts; a pass
    of its waiting loop is one step. *)

From S2P Require Import Prelude BufTag Bloom LogIndexTable LogIndexBloom.

Definition LOG_INDEX_TABLE_INVALID_ID : Z := 0.
Definition LOG_INDEX_MEM_TBL_STATE_FREE : Z := 0x00.
Definition LOG_INDEX_MEM_TBL_STATE_ACTIVE : Z := 0x01.
Definition LOG_INDEX_MEM_TBL_STATE_INACTIVE : Z := 0x02.
Definition LOG_INDEX_MEM_TBL_STATE_FLUSHED : Z := 0x04.
Definition POLAR_LOGINDEX_STATE_ADDING : Z := 2.
Definition POLAR_LOGINDEX_STATE_WRITABLE : Z := 4.

(** [SLRU_PAGES_PER_SEGMENT] is 32 and a page holds two bloom filters. *)
Definition LOG_INDEX_TABLE_NUM_PER_FILE : Z := 64.
Definition LOG_INDEX_FILE_TABLE_SEGMENT_NO (tid : Z) : Z := u64 (tid - 1) / LOG_INDEX_TABLE_NUM_PER_FILE.

Record log_index_file_segment_t := mk_file_segment {
  fs_segment_no : Z;
  fs_max_lsn : Z;
  fs_max_idx_table_id : Z;
  fs_min_idx_table_id : Z
}.

Record log_index_meta_t := mk_meta {
  me_max_idx_table_id : Z;
  me_min_segment_info : log_index_file_segment_t;
  me_start_lsn : Z;
  me_max_lsn : Z
}.

Record log_index_promoted_info_t := mk_promoted {
  pr_old_rw_saved_max_lsn : Z;
  pr_old_rw_saved_max_tid : Z;
  pr_old_rw_max_inserted_lsn : Z;
  pr_old_rw_max_tid : Z
}.

Record log_index_snapshot_t := mk_snapshot {
  ls_max_lsn : Z;
  ls_state : Z;
  ls_active_table : Z;
  ls_max_idx_table_id : Z;
  ls_promoted_info : log_index_promoted_info_t;
  ls_meta : log_index_meta_t;
  ls_mem_table : list log_mem_table_t;
  ls_storage : gmap Z log_idx_table_data_t;
  ls_storage_meta : log_index_meta_t;
  ls_bloom : gmap Z log_file_table_bloom_t
}.

Definition mem_tbl_size (s : log_index_snapshot_t) : Z := Z.of_nat (length (ls_mem_table s)).

(** Zeroed memory. *)
Definition zero_data : log_idx_table_data_t :=
  mk_table 0 0 0 0 0 0 (replicate (Z.to_nat LOG_INDEX_MAX_ORDER_NUM) 0)
    (replicate (Z.to_nat LOG_INDEX_MEM_TBL_HASH_NUM) 0) (replicate (Z.to_nat LOG_INDEX_MEM_TBL_SEG_NUM) padding).
Definition zero_mem_table : log_mem_table_t := mk_mem_table 0 0 zero_data.

Definition LOG_INDEX_MEM_TBL (s : log_index_snapshot_t) (mid : Z) : log_mem_table_t :=
  aget zero_mem_table (ls_mem_table s) mid.
Definition set_table (s : log_index_snapshot_t) (mid : Z) (t : log_mem_table_t) : log_index_snapshot_t :=
  mk_snapshot (ls_max_lsn s) (ls_state s) (ls_active_table s) (ls_max_idx_table_id s) (ls_promoted_info s) (ls_meta s)
    (aset (ls_mem_table s) mid t) (ls_storage s) (ls_storage_meta s) (ls_bloom s).

Definition LOG_INDEX_MEM_TBL_NEXT_ID (s : log_index_snapshot_t) (id : Z) : Z :=
  if id =? mem_tbl_size s - 1 then 0 else id + 1.
Definition LOG_INDEX_MEM_TBL_PREV_ID (s : log_index_snapshot_t) (id : Z) : Z :=
  if id =? 0 then mem_tbl_size s - 1 else id - 1.

Definition LOG_INDEX_MEM_TBL_SET_STATE (t : log_mem_table_t) (st : Z) : log_mem_table_t :=
  mk_mem_table (lt_free_head t) st (lt_data t).
Definition LOG_INDEX_MEM_TBL_TID (t : log_mem_table_t) : Z := td_idx_table_id (lt_data t).

Definition LOG_INDEX_MEM_TBL_IS_NEW (t : log_mem_table_t) : bool :=
  (td_max_lsn (lt_data t) =? InvalidXLogRecPtr) && (td_min_lsn (lt_data t) =? UINT64_MAX) &&
  (td_prefix_lsn (lt_data t) =? InvalidXLogRecPtr) && (lt_free_head t =? 1).

Definition LOG_INDEX_MEM_TBL_FULL (t : log_mem_table_t) : bool := lt_free_head t =? LOG_INDEX_MEM_TBL_SEG_NUM.

Definition data_set_prefix (d : log_idx_table_data_t) (prefix : Z) : log_idx_table_data_t :=
  mk_table (td_idx_table_id d) (td_min_lsn d) (td_max_lsn d) prefix (td_crc d) (td_last_order d)
    (td_idx_order d) (td_hash d) (td_segment d).
Definition LOG_INDEX_MEM_TBL_SET_PREFIX_LSN (t : log_mem_table_t) (lsn : Z) : log_mem_table_t :=
  mk_mem_table (lt_free_head t) (lt_state t) (data_set_prefix (lt_data t) (u32 (Z.shiftr lsn 32))).

(** The table with the free head advanced, and the segment it gives. *)
Definition LOG_INDEX_MEM_TBL_UPDATE_FREE_HEAD (t : log_mem_table_t) : log_mem_table_t * Z :=
  (mk_mem_table (u16 (lt_free_head t + 1)) (lt_state t) (lt_data t), lt_free_head t).

Definition LOG_INDEX_MEM_TBL_NEW_ACTIVE (s : log_index_snapshot_t) (mid lsn : Z) : log_index_snapshot_t :=
  let tid := u64 (ls_max_idx_table_id s + 1) in
  let d := lt_data (LOG_INDEX_MEM_TBL s mid) in
  let s := mk_snapshot (ls_max_lsn s) (ls_state s) (ls_active_table s) tid (ls_promoted_info s) (ls_meta s)
             (ls_mem_table s) (ls_storage s) (ls_storage_meta s) (ls_bloom s) in
  set_table s mid
    (mk_mem_table 1 LOG_INDEX_MEM_TBL_STATE_ACTIVE
       (mk_table tid UINT64_MAX InvalidXLogRecPtr (u32 (Z.shiftr lsn 32)) (td_crc d) (td_last_order d) (td_idx_order d)
          (td_hash d) (td_segment d))).

Definition polar_logindex_check_state (s : log_index_snapshot_t) (state : Z) : bool :=
  negb (Z.land (ls_state s) state =? 0).

(** ** Writing a table out *)

Definition log_index_table_saved_before_promote (s : log_index_snapshot_t) (t : log_mem_table_t) : outcome bool :=
  let saved_tid := pr_old_rw_saved_max_tid (ls_promoted_info s) in
  if negb (saved_tid =? LOG_INDEX_TABLE_INVALID_ID) then
    if (LOG_INDEX_MEM_TBL_TID t =? saved_tid) &&
       negb (td_max_lsn (lt_data t) =? pr_old_rw_saved_max_lsn (ls_promoted_info s)) then Fault PANIC
    else Done (LOG_INDEX_MEM_TBL_TID t <=? saved_tid)
  else Done false.

(** The meta data after table [t] was saved. *)
Definition meta_after_save (me : log_index_meta_t) (t : log_mem_table_t) : log_index_meta_t :=
  let tid := LOG_INDEX_MEM_TBL_TID t in
  let max_lsn := td_max_lsn (lt_data t) in
  let segment_no := LOG_INDEX_FILE_TABLE_SEGMENT_NO tid in
  let m := me_min_segment_info me in
  let min_no := Z.min (fs_segment_no m) segment_no in
  let m := mk_file_segment min_no (fs_max_lsn m) (fs_max_idx_table_id m) (fs_min_idx_table_id m) in
  let m := if min_no =? segment_no then
             mk_file_segment min_no (Z.max max_lsn (fs_max_lsn m)) (Z.max tid (fs_max_idx_table_id m))
               (min_no * LOG_INDEX_TABLE_NUM_PER_FILE + 1)
           else m in
  mk_meta (Z.max (me_max_idx_table_id me) tid) m (me_start_lsn me) (Z.max (me_max_lsn me) max_lsn).

(** Writing the meta data sets the start LSN to the largest LSN saved. *)
Definition polar_log_index_write_meta (s : log_index_snapshot_t) (me : log_index_meta_t) : log_index_snapshot_t :=
  let me := if negb (me_max_lsn me =? InvalidXLogRecPtr)
            then mk_meta (me_max_idx_table_id me) (me_min_segment_info me) (me_max_lsn me) (me_max_lsn me) else me in
  mk_snapshot (ls_max_lsn s) (ls_state s) (ls_active_table s) (ls_max_idx_table_id s) (ls_promoted_info s) me
    (ls_mem_table s) (ls_storage s) me (ls_bloom s).

(** The place of the Bloom data of a table in its page. *)
Definition LOG_INDEX_TBL_BLOOM_PAGE_OFFSET (tid : Z) : Z := ((tid - 1) * LOG_INDEX_FILE_TBL_BLOOM_SIZE) mod 8192.

(** Writing the first of the Bloom data of a page starts with a page of
    zeros. *)
Definition log_index_save_bloom (s : log_index_snapshot_t) (tid : Z) (bloom : log_file_table_bloom_t) : log_index_snapshot_t :=
  let m := if LOG_INDEX_TBL_BLOOM_PAGE_OFFSET tid =? 0 then delete (tid + 1) (ls_bloom s) else ls_bloom s in
  mk_snapshot (ls_max_lsn s) (ls_state s) (ls_active_table s) (ls_max_idx_table_id s) (ls_promoted_info s)
    (ls_meta s) (ls_mem_table s) (ls_storage s) (ls_storage_meta s) (<[tid := bloom]> m).

(** What other code provides: the owner's test whether a table may be
    flushed, the hash function and the rounded number of hash functions of
    the Bloom filter, and the checksum of a table. *)
Class log_index_env := {
  table_flushable : log_mem_table_t -> bool;
  hash_any_extended : list Z -> Z -> Z;
  bloom_rint : Z -> Z -> Z;
  log_index_calc_crc : log_idx_table_data_t -> Z
}.

Section snapshot.
Context `{env : log_index_env}.

(** The table as it is written, and left in memory. *)
Definition log_index_save_table (d : log_idx_table_data_t) (bloom : log_file_table_bloom_t) : log_idx_table_data_t :=
  let with_crc crc := mk_table (td_idx_table_id d) (bt_min_lsn bloom) (bt_max_lsn bloom) (td_prefix_lsn d) crc (td_last_order d)
                        (td_idx_order d) (td_hash d) (td_segment d) in
  with_crc (log_index_calc_crc (with_crc 0)).

Definition log_index_write_table_data (s : log_index_snapshot_t) (mid : Z) : outcome log_index_snapshot_t :=
  let t := LOG_INDEX_MEM_TBL s mid in
  let tid := LOG_INDEX_MEM_TBL_TID t in
  let! bloom := log_index_get_bloom_data hash_any_extended bloom_rint (lt_data t) tid in
  let s := log_index_save_bloom s tid bloom in
  let d := log_index_save_table (lt_data t) bloom in
  let s := set_table s mid (mk_mem_table (lt_free_head t) (lt_state t) d) in
  Done (mk_snapshot (ls_max_lsn s) (ls_state s) (ls_active_table s) (ls_max_idx_table_id s) (ls_promoted_info s)
          (ls_meta s) (ls_mem_table s) (<[tid := d]> (ls_storage s)) (ls_storage_meta s) (ls_bloom s)).

Definition log_index_write_table (s : log_index_snapshot_t) (mid : Z) : outcome (log_index_snapshot_t * bool) :=
  let tid := LOG_INDEX_MEM_TBL_TID (LOG_INDEX_MEM_TBL s mid) in
  if tid =? me_max_idx_table_id (ls_meta s) + 1 then
    let! s := log_index_write_table_data s mid in
    let t := LOG_INDEX_MEM_TBL s mid in
    if lt_state t =? LOG_INDEX_MEM_TBL_STATE_ACTIVE then Done (s, true)
    else
      let s := polar_log_index_write_meta s (meta_after_save (ls_meta s) t) in
      Done (set_table s mid (LOG_INDEX_MEM_TBL_SET_STATE t LOG_INDEX_MEM_TBL_STATE_FLUSHED), true)
  else Done (s, false).

Definition log_index_force_save_table (s : log_index_snapshot_t) (mid : Z) : outcome log_index_snapshot_t :=
  let t := LOG_INDEX_MEM_TBL s mid in
  if negb (polar_logindex_check_state s POLAR_LOGINDEX_STATE_WRITABLE) then
    let me := ls_storage_meta s in
    let s := mk_snapshot (ls_max_lsn s) (ls_state s) (ls_active_table s) (ls_max_idx_table_id s) (ls_promoted_info s)
               me (ls_mem_table s) (ls_storage s) (ls_storage_meta s) (ls_bloom s) in
    Done (if me_max_idx_table_id me >=? LOG_INDEX_MEM_TBL_TID t
          then set_table s mid (LOG_INDEX_MEM_TBL_SET_STATE t LOG_INDEX_MEM_TBL_STATE_FLUSHED) else s)
  else if table_flushable t then
    let! saved := log_index_table_saved_before_promote s t in
    if saved then Done (set_table s mid (LOG_INDEX_MEM_TBL_SET_STATE t LOG_INDEX_MEM_TBL_STATE_FLUSHED))
    else let! (s, succeed) := log_index_write_table s mid in
         if negb succeed then Fault FATAL else Done s
  else Done s.

(** One pass of the loop of [log_index_wait_active]; the flag tells
    whether the table is active with room in it. *)
Definition wait_active_pass (s : log_index_snapshot_t) (mid lsn : Z) : outcome (log_index_snapshot_t * bool) :=
  let! s := (if lt_state (LOG_INDEX_MEM_TBL s mid) =? LOG_INDEX_MEM_TBL_STATE_INACTIVE
             then log_index_force_save_table s mid else Done s) in
  let s := if lt_state (LOG_INDEX_MEM_TBL s mid) =? LOG_INDEX_MEM_TBL_STATE_FLUSHED
           then set_table s mid zero_mem_table else s in
  let s := if lt_state (LOG_INDEX_MEM_TBL s mid) =? LOG_INDEX_MEM_TBL_STATE_FREE
           then LOG_INDEX_MEM_TBL_NEW_ACTIVE s mid lsn else s in
  Done (s, (lt_state (LOG_INDEX_MEM_TBL s mid) =? LOG_INDEX_MEM_TBL_STATE_ACTIVE)
           && negb (LOG_INDEX_MEM_TBL_FULL (LOG_INDEX_MEM_TBL s mid))).

Fixpoint log_index_wait_active (fuel : nat) (s : log_index_snapshot_t) (mid lsn : Z) : outcome log_index_snapshot_t :=
  match fuel with
  | O => Fault OUT_OF_FUEL
  | S n => let! (s, end_) := wait_active_pass s mid lsn in
           if end_ then Done s else log_index_wait_active n s mid lsn
  end.

Definition set_active_id (s : log_index_snapshot_t) (mid : Z) : log_index_snapshot_t :=
  mk_snapshot (ls_max_lsn s) (ls_state s) mid (ls_max_idx_table_id s) (ls_promoted_info s) (ls_meta s)
    (ls_mem_table s) (ls_storage s) (ls_storage_meta s) (ls_bloom s).

(** The segment, and the memory table it is in: [active] is the caller's
    variable, changed when the table is switched; [next_mem_id] keeps its
    value from one round to the next. *)
Fixpoint log_index_next_free_seg (fuel : nat) (s : log_index_snapshot_t) (lsn active next_mem_id : Z)
  : outcome (log_index_snapshot_t * Z * Z) :=
  match fuel with
  | O => Fault OUT_OF_FUEL
  | S n =>
    let mid := ls_active_table s in
    let t := LOG_INDEX_MEM_TBL s mid in
    let '(s, dst, next_mem_id) :=
      if lt_state t =? LOG_INDEX_MEM_TBL_STATE_ACTIVE then
        if LOG_INDEX_MEM_TBL_IS_NEW t then
          let '(t, dst) := LOG_INDEX_MEM_TBL_UPDATE_FREE_HEAD (LOG_INDEX_MEM_TBL_SET_PREFIX_LSN t lsn) in
          (set_table s mid t, dst, next_mem_id)
        else if LOG_INDEX_MEM_TBL_FULL t || negb (LOG_INDEX_SAME_TABLE_LSN_PREFIX (lt_data t) lsn) then
          (set_table s mid (LOG_INDEX_MEM_TBL_SET_STATE t LOG_INDEX_MEM_TBL_STATE_INACTIVE), LOG_INDEX_TBL_INVALID_SEG,
           LOG_INDEX_MEM_TBL_NEXT_ID s mid)
        else
          let '(t, dst) := LOG_INDEX_MEM_TBL_UPDATE_FREE_HEAD t in (set_table s mid t, dst, next_mem_id)
      else (s, LOG_INDEX_TBL_INVALID_SEG, next_mem_id) in
    if negb (dst =? LOG_INDEX_TBL_INVALID_SEG) then Done (s, dst, active)
    else
      let wait_for := if negb (next_mem_id =? -1) then next_mem_id else mid in
      let active := if negb (next_mem_id =? -1) then next_mem_id else active in
      let! s := log_index_wait_active n s wait_for lsn in
      let s := if negb (next_mem_id =? -1) then set_active_id s next_mem_id else s in
      log_index_next_free_seg n s lsn active next_mem_id
  end.

Definition set_data (s : log_index_snapshot_t) (mid : Z) (d : log_idx_table_data_t) : log_index_snapshot_t :=
  let t := LOG_INDEX_MEM_TBL s mid in set_table s mid (mk_mem_table (lt_free_head t) (lt_state t) d).

(** The end of [log_index_insert_lsn], under the snapshot's spin lock. *)
Definition update_lsn_range (s : log_index_snapshot_t) (mid lsn : Z) : log_index_snapshot_t :=
  let d := lt_data (LOG_INDEX_MEM_TBL s mid) in
  let max_lsn := Z.max lsn (td_max_lsn d) in
  let s := set_data s mid (mk_table (td_idx_table_id d) (Z.min lsn (td_min_lsn d)) max_lsn (td_prefix_lsn d) (td_crc d)
             (td_last_order d) (td_idx_order d) (td_hash d) (td_segment d)) in
  mk_snapshot max_lsn (ls_state s) (ls_active_table s) (ls_max_idx_table_id s) (ls_promoted_info s) (ls_meta s)
    (ls_mem_table s) (ls_storage s) (ls_storage_meta s) (ls_bloom s).

Definition log_index_insert_lsn (fuel : nat) (s : log_index_snapshot_t) (lsn_info : log_index_lsn_t) (key : Z)
  : outcome log_index_snapshot_t :=
  let active := ls_active_table s in
  let d := lt_data (LOG_INDEX_MEM_TBL s active) in
  let! head := (if (lt_state (LOG_INDEX_MEM_TBL s active) =? LOG_INDEX_MEM_TBL_STATE_ACTIVE)
                   && LOG_INDEX_SAME_TABLE_LSN_PREFIX d (li_lsn lsn_info)
                then log_index_mem_tbl_exists_page (li_tag lsn_info) d key
                else Done LOG_INDEX_TBL_INVALID_SEG) in
  let new_item := head =? LOG_INDEX_TBL_INVALID_SEG in
  let! full := (if negb new_item then log_index_mem_seg_full d head else Done true) in
  if negb new_item && negb full then
    let! (d, idx) := log_index_append_lsn d head lsn_info in
    let! item := get_head d head in
    let! d := LOG_INDEX_MEM_TBL_ADD_ORDER d (ih_tail_seg item) idx in
    Done (update_lsn_range (set_data s active d) active (li_lsn lsn_info))
  else
    let old_active := active in
    let! (s, dst, active) := log_index_next_free_seg fuel s (li_lsn lsn_info) active (-1) in
    let d := lt_data (LOG_INDEX_MEM_TBL s active) in
    let! d := (if new_item || negb (active =? old_active) then log_index_insert_new_item lsn_info d key dst
               else log_index_insert_new_seg d head dst lsn_info) in
    let! d := LOG_INDEX_MEM_TBL_ADD_ORDER d dst 0 in
    Done (update_lsn_range (set_data s active d) active (li_lsn lsn_info)).

(** ** Adding an entry *)

(** The loop of [log_index_exists_in_saved_table], from the newest entry. *)
Fixpoint exists_in_saved_loop (i : nat) (d : log_idx_table_data_t) (lsn_info : log_index_lsn_t) : outcome bool :=
  match i with
  | O => Done false
  | S n =>
    let! saved := log_index_get_order_lsn d (Z.of_nat n) in
    match saved with
    | None => Done false
    | Some saved =>
      if negb (li_lsn saved =? li_lsn lsn_info) then Done false
      else if BUFFERTAGS_EQUAL (li_tag lsn_info) (li_tag saved) then Done true
      else exists_in_saved_loop n d lsn_info
    end
  end.

Definition log_index_exists_in_saved_table (s : log_index_snapshot_t) (lsn_info : log_index_lsn_t) : outcome bool :=
  let t := LOG_INDEX_MEM_TBL s (LOG_INDEX_MEM_TBL_PREV_ID s (ls_active_table s)) in
  if negb (lt_state t =? LOG_INDEX_MEM_TBL_STATE_FLUSHED) then Done false
  else exists_in_saved_loop (Z.to_nat (td_last_order (lt_data t))) (lt_data t) lsn_info.

Context (tag_hash : BufferTag -> Z).

Definition LOG_INDEX_MEM_TBL_HASH_PAGE (tag : BufferTag) : Z := tag_hash tag mod LOG_INDEX_MEM_TBL_HASH_NUM.

Definition set_adding (s : log_index_snapshot_t) : log_index_snapshot_t :=
  mk_snapshot (ls_max_lsn s) (Z.lor (ls_state s) POLAR_LOGINDEX_STATE_ADDING) (ls_active_table s) (ls_max_idx_table_id s)
    (ls_promoted_info s) (ls_meta s) (ls_mem_table s) (ls_storage s) (ls_storage_meta s) (ls_bloom s).

Definition polar_logindex_add_lsn (fuel : nat) (s : log_index_snapshot_t) (tag : BufferTag) (prev lsn : Z)
  : outcome log_index_snapshot_t :=
  let key := LOG_INDEX_MEM_TBL_HASH_PAGE tag in
  let lsn_info := mk_lsn_info tag lsn prev in
  let meta := ls_meta s in
  if negb (polar_logindex_check_state s POLAR_LOGINDEX_STATE_ADDING) then
    if lsn <? me_start_lsn meta then Done s
    else if lsn <? me_max_lsn meta then Done s
    else
      let! saved := (if me_max_lsn meta =? lsn then log_index_exists_in_saved_table s lsn_info else Done false) in
      if saved then Done s else log_index_insert_lsn fuel (set_adding s) lsn_info key
  else log_index_insert_lsn fuel s lsn_info key.
End snapshot.
