(* ===== verification/LogIndexTheorems.v ===== *)
(** * Properties of the log index

    Inserting an entry appends it to the log that the active table
    represents or starts the log of the next table, and loses no entry of
    any other table; reading a table in insertion order gives its log. *)

From S2P Require Import Prelude BufTag HashFn Bloom LogIndexTable LogIndexRepr LogIndexInsert LogIndexBloom LogIndexSnapshot.

Section log_index.
Context (hash : BufferTag -> Z) (Hhash : forall tag, 0 <= hash tag < LOG_INDEX_MEM_TBL_HASH_NUM).

(** The table represents the log [L]. *)
Definition represents (d : log_idx_table_data_t) (free : Z) (L : list log_index_lsn_t) : Prop :=
  exists A Q, table_repr hash d free A Q L.

(** What is kept of an entry: within a table the previous LSN of a page is
    the one of its entry before. *)
Definition stored (L : list log_index_lsn_t) (e : log_index_lsn_t) : log_index_lsn_t :=
  mk_lsn_info (li_tag e) (li_lsn e)
    (match list.last (filter (fun x => li_tag x = li_tag e) L) with Some x => li_lsn x | None => li_prev_lsn e end).

Lemma repr_ext d d' free A Q L :
  td_hash d' = td_hash d -> td_segment d' = td_segment d -> td_idx_order d' = td_idx_order d ->
  td_last_order d' = td_last_order d -> (L <> [] -> td_prefix_lsn d' = td_prefix_lsn d) ->
  table_repr hash d free A Q L -> table_repr hash d' free A Q L.
Proof.
  intros H1 H2 H3 H4 H5 HR. assert (forall s, seg_at d' s = seg_at d s) as Hs by (intros; unfold seg_at; by rewrite H2).
  assert (forall e, e ∈ L -> td_prefix_lsn d' = td_prefix_lsn d) as H5'.
  { intros e He. apply H5. intros ->. by apply not_elem_of_nil in He. }
  destruct HR. split; rewrite ?H1, ?H2, ?H3, ?H4; try done.
  - intros k ps Hk. destruct (tr_bucket k ps Hk) as (B1 & B2 & B3). split_and!; [done| |apply B3..].
    eapply pages_ok_frame; [|done]. intros s _. apply Hs.
  - intros id Hid. rewrite Hs. by apply tr_fresh.
  - intros j s i e Hj He. destruct (tr_log j s i e Hj He) as (p & n & x & Hp & Hn & ->). exists p, n, x.
    split_and!; [done|done|]. unfold entry_of, LOG_INDEX_COMBINE_LSN.
    rewrite (H5' _ (list_elem_of_lookup_2 _ _ _ He)). done.
  - intros e He. unfold LOG_INDEX_SAME_TABLE_LSN_PREFIX. rewrite (H5' e He). by apply tr_entry.
Qed.

(** The last LSN of a page, as the table has it. *)
Lemma last_page_lsn d free A Q L p :
  table_repr hash d free A Q L -> p ∈ concat A ->
  exists x, list.last (filter (fun x => li_tag x = ap_tag p) L) = Some x /\
    li_lsn x = LOG_INDEX_COMBINE_LSN d (default 0 (list.last (page_sfx p))).
Proof.
  intros HR Hp. rewrite (tr_page _ _ _ _ _ _ HR p Hp). set (F := filter _ L).
  destruct (list.last F) as [x|] eqn:El.
  - exists x. split; [done|]. rewrite fmap_last, El. cbn [fmap option_fmap option_map from_option]. unfold id.
    rewrite combine_suffix; [done|]. apply last_Some_elem_of in El. apply list_elem_of_filter in El as [_ El].
    by apply (tr_entry _ _ _ _ _ _ HR).
  - apply last_None in El. pose proof (tr_page _ _ _ _ _ _ HR p Hp) as E. fold F in E. rewrite El in E. cbn [map] in E.
    destruct (tr_sizes _ _ _ _ _ _ HR p Hp) as (H1 & _). unfold page_sfx, page_blocks in E. cbn [map concat snd] in E.
    apply app_eq_nil in E as [E _]. rewrite E in H1. simpl in H1. lia.
Qed.

(** An empty table. *)
Lemma repr_empty d A Q L : table_repr hash d 1 A Q L -> L = [] /\ concat A = [].
Proof.
  intros HR. assert (concat A = []) as E.
  { destruct (concat A) as [|p ps] eqn:E; [done|]. exfalso.
    assert (ap_id p ∈ all_ids A) as Hin.
    { apply (page_id_all A p); [rewrite E; by left|by left]. }
    pose proof (tr_range _ _ _ _ _ _ HR _ Hin). lia. }
  split; [|done]. destruct L as [|e L]; [done|]. destruct (tr_entry _ _ _ _ _ _ HR e ltac:(by left)) as (_ & p & Hp & _).
  rewrite E in Hp. by apply not_elem_of_nil in Hp.
Qed.

Lemma fresh_table_repr d :
  td_hash d = td_hash zero_data -> td_segment d = td_segment zero_data -> td_idx_order d = td_idx_order zero_data ->
  td_last_order d = 0 -> represents d 1 [].
Proof.
  intros H1 H2 H3 H4. exists (replicate (Z.to_nat LOG_INDEX_MEM_TBL_HASH_NUM) []), [].
  assert (forall p, p ∉ concat (replicate (Z.to_nat LOG_INDEX_MEM_TBL_HASH_NUM) (@nil apage))) as Hno.
  { intros p (l & Hl & Hp)%elem_of_concat. apply elem_of_replicate in Hp as [-> _]. by apply not_elem_of_nil in Hl. }
  assert (forall id, id ∉ all_ids (replicate (Z.to_nat LOG_INDEX_MEM_TBL_HASH_NUM) [])) as Hni.
  { intros id (p & Hp & _)%elem_of_concat_map. by apply Hno in Hp. }
  split; rewrite ?H1, ?H2, ?H3, ?H4.
  - apply length_replicate.
  - apply length_replicate.
  - cbn [td_idx_order zero_data]. rewrite length_replicate. rewrite Z2Nat.id; [done|]. by vm_compute.
  - apply length_replicate.
  - intros k ps Hk. apply lookup_replicate in Hk as [-> _]. split_and!; [apply aget_replicate|done|apply NoDup_nil_2|].
    intros p Hp. by apply not_elem_of_nil in Hp.
  - intros p Hp. by apply Hno in Hp.
  - revert Hni. generalize (all_ids (replicate (Z.to_nat LOG_INDEX_MEM_TBL_HASH_NUM) [])). intros [|x l] Hni;
    [apply NoDup_nil_2|]. destruct (Hni x). by left.
  - intros id Hid. by apply Hni in Hid.
  - unfold LOG_INDEX_MEM_TBL_SEG_NUM. lia.
  - intros id _. unfold seg_at. rewrite H2. apply aget_replicate.
  - done.
  - done.
  - apply NoDup_nil_2.
  - done.
  - done.
  - intros p Hp. by apply Hno in Hp.
  - intros e He. by apply not_elem_of_nil in He.
Qed.

(** ** The ring *)

Context `{env : log_index_env}.

Lemma get_set_table s mid t m :
  0 <= mid < mem_tbl_size s -> LOG_INDEX_MEM_TBL (set_table s mid t) m = if decide (mid = m) then t else LOG_INDEX_MEM_TBL s m.
Proof. intros Hm. unfold LOG_INDEX_MEM_TBL, set_table. cbn [ls_mem_table]. apply aget_aset. exact Hm. Qed.

Lemma set_table_size s mid t : mem_tbl_size (set_table s mid t) = mem_tbl_size s.
Proof. unfold mem_tbl_size, set_table. cbn [ls_mem_table]. by rewrite length_aset. Qed.

Lemma next_id_range s : 2 <= mem_tbl_size s -> 0 <= ls_active_table s < mem_tbl_size s ->
  0 <= LOG_INDEX_MEM_TBL_NEXT_ID s (ls_active_table s) < mem_tbl_size s /\
  LOG_INDEX_MEM_TBL_NEXT_ID s (ls_active_table s) <> ls_active_table s.
Proof. intros Hs Ha. unfold LOG_INDEX_MEM_TBL_NEXT_ID. destruct (_ =? _) eqn:E; zbool; lia. Qed.

Definition fresh_active (tid lsn : Z) : log_mem_table_t :=
  mk_mem_table 1 LOG_INDEX_MEM_TBL_STATE_ACTIVE
    (mk_table tid UINT64_MAX InvalidXLogRecPtr (u32 (Z.shiftr lsn 32)) 0 0 (td_idx_order zero_data) (td_hash zero_data)
       (td_segment zero_data)).

(** A table that the inserting process can take over without waiting for
    another one: free, flushed, or inactive and the next one to save. *)
Inductive reusable (s : log_index_snapshot_t) (mid : Z) : Prop :=
| reuse_free : LOG_INDEX_MEM_TBL s mid = zero_mem_table -> reusable s mid
| reuse_flushed : lt_state (LOG_INDEX_MEM_TBL s mid) = LOG_INDEX_MEM_TBL_STATE_FLUSHED -> reusable s mid
| reuse_save :
    lt_state (LOG_INDEX_MEM_TBL s mid) = LOG_INDEX_MEM_TBL_STATE_INACTIVE ->
    polar_logindex_check_state s POLAR_LOGINDEX_STATE_WRITABLE = true ->
    table_flushable (LOG_INDEX_MEM_TBL s mid) = true ->
    pr_old_rw_saved_max_tid (ls_promoted_info s) = LOG_INDEX_TABLE_INVALID_ID ->
    LOG_INDEX_MEM_TBL_TID (LOG_INDEX_MEM_TBL s mid) = me_max_idx_table_id (ls_meta s) + 1 ->
    (exists free L, represents (lt_data (LOG_INDEX_MEM_TBL s mid)) free L) -> reusable s mid.

(** Table [t] was saved, with its Bloom data. *)
Definition saved_table (s : log_index_snapshot_t) (t : log_mem_table_t) : Prop :=
  exists b, log_index_get_bloom_data hash_any_extended bloom_rint (lt_data t) (LOG_INDEX_MEM_TBL_TID t) = Done b /\
    ls_bloom s !! LOG_INDEX_MEM_TBL_TID t = Some b /\
    ls_storage s !! LOG_INDEX_MEM_TBL_TID t = Some (log_index_save_table (lt_data t) b).

(** What happens to storage when a table is taken over: its content is
    saved first if it was not. *)
Definition taken_over (s s' : log_index_snapshot_t) (mid : Z) : Prop :=
  let t := LOG_INDEX_MEM_TBL s mid in
  (lt_state t = LOG_INDEX_MEM_TBL_STATE_INACTIVE -> saved_table s' t) /\
  (forall tid, tid <> LOG_INDEX_MEM_TBL_TID t -> ls_storage s' !! tid = ls_storage s !! tid) /\
  (lt_state t <> LOG_INDEX_MEM_TBL_STATE_INACTIVE -> ls_storage s' = ls_storage s).

(** The end of a pass, once the table is zeroed. *)
Lemma new_active_zero s mid lsn :
  0 <= mid < mem_tbl_size s -> lt_data (LOG_INDEX_MEM_TBL s mid) = zero_data ->
  let s' := LOG_INDEX_MEM_TBL_NEW_ACTIVE s mid lsn in
  LOG_INDEX_MEM_TBL s' mid = fresh_active (u64 (ls_max_idx_table_id s + 1)) lsn /\
  (forall m, m <> mid -> LOG_INDEX_MEM_TBL s' m = LOG_INDEX_MEM_TBL s m) /\
  mem_tbl_size s' = mem_tbl_size s /\ ls_active_table s' = ls_active_table s /\ ls_storage s' = ls_storage s /\ ls_bloom s' = ls_bloom s.
Proof.
  intros Hm Hz. unfold LOG_INDEX_MEM_TBL_NEW_ACTIVE. cbv zeta. rewrite Hz.
  set (s0 := mk_snapshot _ _ _ _ _ _ _ _ _ _). assert (0 <= mid < mem_tbl_size s0) as Hm0 by done. split_and!.
  - by rewrite get_set_table, decide_True.
  - intros m Hne. by rewrite get_set_table, decide_False.
  - by rewrite set_table_size.
  - done.
  - done.
  - done.
Qed.

Lemma zeroed_pass s mid lsn :
  0 <= mid < mem_tbl_size s -> lt_state (LOG_INDEX_MEM_TBL s mid) = LOG_INDEX_MEM_TBL_STATE_FLUSHED ->
  exists s', wait_active_pass s mid lsn = Done (s', true) /\
    LOG_INDEX_MEM_TBL s' mid = fresh_active (u64 (ls_max_idx_table_id s + 1)) lsn /\
    (forall m, m <> mid -> LOG_INDEX_MEM_TBL s' m = LOG_INDEX_MEM_TBL s m) /\
    mem_tbl_size s' = mem_tbl_size s /\ ls_active_table s' = ls_active_table s /\ ls_storage s' = ls_storage s /\ ls_bloom s' = ls_bloom s.
Proof.
  intros Hm Hst. unfold wait_active_pass. rewrite Hst. change (_ =? LOG_INDEX_MEM_TBL_STATE_INACTIVE) with false. cbn [obind].
  rewrite Hst, Z.eqb_refl. set (s1 := set_table s mid zero_mem_table).
  assert (LOG_INDEX_MEM_TBL s1 mid = zero_mem_table) as Hz by (unfold s1; by rewrite get_set_table, decide_True).
  cbv zeta. rewrite Hz. cbn [zero_mem_table lt_state]. rewrite Z.eqb_refl.
  destruct (new_active_zero s1 mid lsn) as (H1 & H2 & H3 & H4 & H5 & H6); [unfold s1; by rewrite set_table_size|by rewrite Hz|].
  rewrite H1. eexists. split; [reflexivity|]. split_and!; [done| | |done|done|done].
  - intros m Hne. rewrite H2 by done. unfold s1. by rewrite get_set_table, decide_False.
  - rewrite H3. unfold s1. by rewrite set_table_size.
Qed.

Lemma save_table_repr d b free A Q L : table_repr hash d free A Q L -> table_repr hash (log_index_save_table d b) free A Q L.
Proof. by apply repr_ext. Qed.

Lemma write_table_spec s mid free L :
  let t := LOG_INDEX_MEM_TBL s mid in
  0 <= mid < mem_tbl_size s -> lt_state t <> LOG_INDEX_MEM_TBL_STATE_ACTIVE ->
  LOG_INDEX_MEM_TBL_TID t = me_max_idx_table_id (ls_meta s) + 1 -> represents (lt_data t) free L ->
  exists s' b, log_index_write_table s mid = Done (s', true) /\ saved_table s' t /\
    (forall tid, tid <> LOG_INDEX_MEM_TBL_TID t -> ls_storage s' !! tid = ls_storage s !! tid) /\
    (forall m, LOG_INDEX_MEM_TBL s' m = if decide (mid = m)
       then mk_mem_table (lt_free_head t) LOG_INDEX_MEM_TBL_STATE_FLUSHED (log_index_save_table (lt_data t) b)
       else LOG_INDEX_MEM_TBL s m) /\
    mem_tbl_size s' = mem_tbl_size s /\ ls_active_table s' = ls_active_table s /\ ls_max_idx_table_id s' = ls_max_idx_table_id s /\
    log_index_get_bloom_data hash_any_extended bloom_rint (lt_data t) (LOG_INDEX_MEM_TBL_TID t) = Done b /\
    me_max_idx_table_id (ls_meta s') = LOG_INDEX_MEM_TBL_TID t /\ ls_storage_meta s' = ls_meta s' /\ ls_promoted_info s' = ls_promoted_info s.
Proof.
  intros t Hm Hst Htid (A & Q & HR). pose proof (get_bloom_spec hash_any_extended bloom_rint hash _ _ _ _ _ HR (LOG_INDEX_MEM_TBL_TID t)) as Hb.
  set (b := mk_tbl_bloom _ _ _ _ _) in Hb. unfold log_index_write_table, log_index_write_table_data. fold t.
  rewrite <- Htid, Z.eqb_refl, Hb. cbn [obind]. cbv zeta. set (s1 := mk_snapshot _ _ _ _ _ _ _ _ _ _).
  assert (mem_tbl_size s1 = mem_tbl_size s) as Hs1 by (unfold mem_tbl_size, s1, set_table; cbn [ls_mem_table]; by rewrite length_aset).
  assert (forall m, LOG_INDEX_MEM_TBL s1 m = if decide (mid = m) then mk_mem_table (lt_free_head t) (lt_state t) (log_index_save_table (lt_data t) b)
            else LOG_INDEX_MEM_TBL s m) as Hg1 by (intros m; unfold LOG_INDEX_MEM_TBL, s1, set_table; cbn [ls_mem_table]; by apply aget_aset).
  rewrite Hg1, decide_True by done. cbn [lt_state]. destruct (lt_state t =? LOG_INDEX_MEM_TBL_STATE_ACTIVE) eqn:E; zbool; [done|].
  eexists _, b. split; [reflexivity|]. split.
  { exists b. split; [exact Hb|]. unfold s1. cbn [ls_bloom ls_storage set_table log_index_save_bloom polar_log_index_write_meta]. by rewrite !lookup_insert_eq. }
  split; [intros tid Hne; unfold s1; cbn [ls_storage set_table log_index_save_bloom polar_log_index_write_meta]; by rewrite lookup_insert_ne|].
  split; [|split; [by rewrite set_table_size|]].
  { intros m. rewrite get_set_table by (unfold mem_tbl_size in *; cbn [ls_mem_table polar_log_index_write_meta] in *; lia).
    destruct (decide (mid = m)) as [<-|Hne]; [done|]. specialize (Hg1 m). by rewrite decide_False in Hg1. }
  split; [done|]. split; [done|]. split; [done|]. split; [|done].
  unfold LOG_INDEX_MEM_TBL_TID in *. cbn. destruct (negb _); cbn; fold t; lia.
Qed.

Lemma wait_pass_spec s mid lsn :
  0 <= mid < mem_tbl_size s -> reusable s mid ->
  exists s', wait_active_pass s mid lsn = Done (s', true) /\
    LOG_INDEX_MEM_TBL s' mid = fresh_active (u64 (ls_max_idx_table_id s + 1)) lsn /\
    (forall m, m <> mid -> LOG_INDEX_MEM_TBL s' m = LOG_INDEX_MEM_TBL s m) /\
    mem_tbl_size s' = mem_tbl_size s /\ ls_active_table s' = ls_active_table s /\ taken_over s s' mid.
Proof.
  intros Hm [Hz|Hst|Hst Hw Hfl Hpr Htid (free & L & HL)].
  - unfold wait_active_pass. rewrite Hz. cbn [zero_mem_table lt_state].
    change (0 =? LOG_INDEX_MEM_TBL_STATE_INACTIVE) with false. cbn [obind].
    rewrite Hz. cbn [zero_mem_table lt_state]. change (0 =? LOG_INDEX_MEM_TBL_STATE_FLUSHED) with false. cbv zeta iota.
    rewrite Hz. cbn [zero_mem_table lt_state]. change (0 =? LOG_INDEX_MEM_TBL_STATE_FREE) with true. cbv iota.
    destruct (new_active_zero s mid lsn Hm) as (H1 & H2 & H3 & H4 & H5 & H6); [by rewrite Hz|]. rewrite H1.
    eexists. split; [reflexivity|]. split_and!; try done. unfold taken_over. rewrite H5, Hz. done.
  - destruct (zeroed_pass s mid lsn Hm Hst) as (s' & Hrun & H1 & H2 & H3 & H4 & H5 & H6). exists s'. split_and!; try done.
    unfold taken_over. rewrite H5, Hst. done.
  - set (t := LOG_INDEX_MEM_TBL s mid) in *.
    destruct (write_table_spec s mid free L Hm) as (s0 & b & Hwr & Hsv & Hoth & Hget & Hsz & Hact & Hmax & _); [by fold t; rewrite Hst|done|done|].
    fold t in Hsv, Hoth, Hget.
    assert (log_index_force_save_table s mid = Done s0) as Hsave.
    { unfold log_index_force_save_table. fold t. rewrite Hw, Hfl. cbn [negb].
      unfold log_index_table_saved_before_promote. rewrite Hpr, Z.eqb_refl. cbn [obind negb]. by rewrite Hwr. }
    destruct (zeroed_pass s0 mid lsn) as (s' & Hrun & H1 & H2 & H3 & H4 & H5 & H6);
      [by rewrite Hsz|rewrite Hget, decide_True by done; done|].
    exists s'. split_and!; [|by rewrite <- Hmax| |congruence|congruence|].
    + unfold wait_active_pass in *. fold t. rewrite Hst, Z.eqb_refl, Hsave. cbn [obind].
      rewrite Hget, decide_True in Hrun by done. cbn [lt_state] in Hrun.
      change (LOG_INDEX_MEM_TBL_STATE_FLUSHED =? LOG_INDEX_MEM_TBL_STATE_INACTIVE) with false in Hrun. cbn [obind] in Hrun.
      exact Hrun.
    + intros m Hne. rewrite H2, Hget, decide_False by done. done.
    + unfold taken_over, saved_table. fold t. rewrite H5, H6. split; [by intros _|]. split; [done|]. done.
Qed.

(** ** Inserting *)

Lemma free_seg_stay n s lsn act nx A Q L :
  let mid := ls_active_table s in
  let t := LOG_INDEX_MEM_TBL s mid in
  lt_state t = LOG_INDEX_MEM_TBL_STATE_ACTIVE -> table_repr hash (lt_data t) (lt_free_head t) A Q L -> is_u64 lsn ->
  (LOG_INDEX_MEM_TBL_IS_NEW t = true \/
   LOG_INDEX_MEM_TBL_FULL t = false /\ LOG_INDEX_SAME_TABLE_LSN_PREFIX (lt_data t) lsn = true) ->
  exists d', log_index_next_free_seg (S n) s lsn act nx =
      Done (set_table s mid (mk_mem_table (lt_free_head t + 1) LOG_INDEX_MEM_TBL_STATE_ACTIVE d'), lt_free_head t, act) /\
    table_repr hash d' (lt_free_head t) A Q L /\ LOG_INDEX_SAME_TABLE_LSN_PREFIX d' lsn = true /\
    lt_free_head t < LOG_INDEX_MEM_TBL_SEG_NUM /\ td_idx_table_id d' = td_idx_table_id (lt_data t).
Proof.
  intros mid t Hst HR Hl Hcase. pose proof (tr_free _ _ _ _ _ _ HR) as Hf. unfold LOG_INDEX_MEM_TBL_SEG_NUM in Hf.
  assert (u16 (lt_free_head t + 1) = lt_free_head t + 1) as Hu by (apply wrap_small; lia).
  cbn [log_index_next_free_seg]. fold mid. fold t. rewrite Hst, Z.eqb_refl.
  assert ((lt_free_head t =? LOG_INDEX_TBL_INVALID_SEG) = false) as Hnz by (apply Z.eqb_neq; unfold LOG_INDEX_TBL_INVALID_SEG; lia).
  destruct (LOG_INDEX_MEM_TBL_IS_NEW t) eqn:En.
  - unfold LOG_INDEX_MEM_TBL_UPDATE_FREE_HEAD, LOG_INDEX_MEM_TBL_SET_PREFIX_LSN. cbn [lt_free_head lt_state lt_data].
    rewrite Hnz. cbn [negb]. cbv iota. rewrite Hu, Hst. eexists. split; [reflexivity|].
    apply andb_true_iff in En as [_ Efh%Z.eqb_eq]. rewrite Efh in *. destruct (repr_empty _ _ _ _ HR) as [-> _].
    split_and!; [by eapply repr_ext; [..|exact HR]| |unfold LOG_INDEX_MEM_TBL_SEG_NUM; lia|done].
    unfold LOG_INDEX_SAME_TABLE_LSN_PREFIX. cbn [data_set_prefix td_prefix_lsn]. apply Z.eqb_eq, u32_small.
    unfold is_u32, is_u64 in *. rewrite Z.shiftr_div_pow2 by lia. split; [apply Z.div_pos; lia|].
    apply Z.div_lt_upper_bound; [lia|]. replace (2 ^ 32 * 2 ^ 32) with (2 ^ 64) by reflexivity. lia.
  - destruct Hcase as [?|[Hnf Hp]]; [done|]. rewrite Hnf, Hp. cbn [negb orb]. cbv iota.
    unfold LOG_INDEX_MEM_TBL_UPDATE_FREE_HEAD. rewrite Hnz. cbn [negb]. cbv iota. rewrite Hu, Hst.
    eexists. split; [reflexivity|]. split_and!; try done.
    unfold LOG_INDEX_MEM_TBL_FULL, LOG_INDEX_MEM_TBL_SEG_NUM in *. zbool. lia.
Qed.

(** The final writes, on table [mid] with content [d]. *)
Lemma finish_insert s mid d lsn free L :
  0 <= mid < mem_tbl_size s -> represents d free L ->
  let t := LOG_INDEX_MEM_TBL s mid in
  let s' := update_lsn_range (set_data s mid d) mid lsn in
  (forall m, m <> mid -> LOG_INDEX_MEM_TBL s' m = LOG_INDEX_MEM_TBL s m) /\
  ls_active_table s' = ls_active_table s /\ ls_storage s' = ls_storage s /\
  lt_free_head (LOG_INDEX_MEM_TBL s' mid) = lt_free_head t /\ lt_state (LOG_INDEX_MEM_TBL s' mid) = lt_state t /\
  represents (lt_data (LOG_INDEX_MEM_TBL s' mid)) free L /\
  td_idx_table_id (lt_data (LOG_INDEX_MEM_TBL s' mid)) = td_idx_table_id d /\
  td_min_lsn (lt_data (LOG_INDEX_MEM_TBL s' mid)) <= lsn <= td_max_lsn (lt_data (LOG_INDEX_MEM_TBL s' mid)).
Proof.
  intros Hm (A & Q & HR) t s'. set (s1 := set_data s mid d) in *.
  assert (forall m, LOG_INDEX_MEM_TBL s1 m = if decide (mid = m) then mk_mem_table (lt_free_head t) (lt_state t) d
            else LOG_INDEX_MEM_TBL s m) as H1 by (intros m; unfold s1, set_data; by rewrite get_set_table).
  assert (LOG_INDEX_MEM_TBL s1 mid = mk_mem_table (lt_free_head t) (lt_state t) d) as Hmid by (by rewrite H1, decide_True).
  assert (mem_tbl_size s1 = mem_tbl_size s) as Hs1 by apply set_table_size.
  assert (forall m, LOG_INDEX_MEM_TBL s' m = if decide (mid = m) then
     mk_mem_table (lt_free_head t) (lt_state t)
       (mk_table (td_idx_table_id d) (Z.min lsn (td_min_lsn d)) (Z.max lsn (td_max_lsn d)) (td_prefix_lsn d) (td_crc d)
             (td_last_order d) (td_idx_order d) (td_hash d) (td_segment d))
     else LOG_INDEX_MEM_TBL s m) as H2.
  { intros m. unfold s', update_lsn_range. rewrite Hmid. cbn [lt_data]. unfold set_data at 1. rewrite Hmid.
    cbn [lt_free_head lt_state]. unfold LOG_INDEX_MEM_TBL at 1. cbn [ls_mem_table].
    etrans; [apply (get_set_table s1 mid _ m); by rewrite Hs1|]. destruct (decide (mid = m)) as [Hmm|Hne]; [|by rewrite H1, decide_False].
    by rewrite Hmid. }
  rewrite !H2, !decide_True by done. cbn [lt_free_head lt_state lt_data td_idx_table_id td_min_lsn td_max_lsn].
  split_and!; try done; try lia.
  - intros m Hne. by rewrite H2, decide_False.
  - exists A, Q. by eapply repr_ext; [..|exact HR].
Qed.

(** Adding an entry as a new item to an open table. *)
Lemma insert_item_done d free L info :
  represents d free L -> free < LOG_INDEX_MEM_TBL_SEG_NUM -> LOG_INDEX_SAME_TABLE_LSN_PREFIX d (li_lsn info) = true ->
  (forall e, e ∈ L -> li_tag e <> li_tag info) ->
  exists d1 d2, log_index_insert_new_item info d (hash (li_tag info)) free = Done d1 /\
    LOG_INDEX_MEM_TBL_ADD_ORDER d1 free 0 = Done d2 /\ represents d2 (free + 1) (L ++ [stored L info]) /\
    td_idx_table_id d2 = td_idx_table_id d.
Proof.
  intros (A & Q & HR) Hf Hp Hno.
  destruct (new_item_repr hash Hhash d free A Q L HR info) as (d1 & d2 & A' & Q' & H1 & H2 & _ & _ & H3 & H4); [|done|done|].
  - intros p Hpa Ht. destruct (last_page_lsn _ _ _ _ _ p HR Hpa) as (x & Hx & _). apply last_Some_elem_of in Hx.
    apply list_elem_of_filter in Hx as [Hx1 Hx2]. apply (Hno x Hx2). congruence.
  - exists d1, d2. split_and!; try done. exists A', Q'. unfold stored. rewrite filter_none by done. simpl list.last.
    by destruct info.
Qed.

(** What a successful insertion leaves behind: the active table went on
    from the log [L], and the others are as before. *)
Definition inserted_here (s s' : log_index_snapshot_t) (L : list log_index_lsn_t) (info : log_index_lsn_t) : Prop :=
  let mid := ls_active_table s in
  ls_active_table s' = mid /\ ls_storage s' = ls_storage s /\
  (forall m, m <> mid -> LOG_INDEX_MEM_TBL s' m = LOG_INDEX_MEM_TBL s m) /\
  let t' := LOG_INDEX_MEM_TBL s' mid in
  lt_state t' = LOG_INDEX_MEM_TBL_STATE_ACTIVE /\ LOG_INDEX_MEM_TBL_TID t' = LOG_INDEX_MEM_TBL_TID (LOG_INDEX_MEM_TBL s mid) /\
  td_min_lsn (lt_data t') <= li_lsn info <= td_max_lsn (lt_data t') /\
  represents (lt_data t') (lt_free_head t') (L ++ [stored L info]).

(** Or the next table was taken over and starts with the entry; the table
    that was active only changed its state. *)
Definition inserted_next (s s' : log_index_snapshot_t) (info : log_index_lsn_t) : Prop :=
  let mid := ls_active_table s in
  let nxt := LOG_INDEX_MEM_TBL_NEXT_ID s mid in
  ls_active_table s' = nxt /\ taken_over s s' nxt /\
  LOG_INDEX_MEM_TBL s' mid = LOG_INDEX_MEM_TBL_SET_STATE (LOG_INDEX_MEM_TBL s mid) LOG_INDEX_MEM_TBL_STATE_INACTIVE /\
  (forall m, m <> mid -> m <> nxt -> LOG_INDEX_MEM_TBL s' m = LOG_INDEX_MEM_TBL s m) /\
  let t' := LOG_INDEX_MEM_TBL s' nxt in
  lt_state t' = LOG_INDEX_MEM_TBL_STATE_ACTIVE /\ LOG_INDEX_MEM_TBL_TID t' = u64 (ls_max_idx_table_id s + 1) /\
  td_min_lsn (lt_data t') <= li_lsn info <= td_max_lsn (lt_data t') /\
  represents (lt_data t') (lt_free_head t') [info].

Section insert.
Context (s : log_index_snapshot_t) (L : list log_index_lsn_t) (info : log_index_lsn_t).
Notation mid := (ls_active_table s).
Notation t := (LOG_INDEX_MEM_TBL s mid).
Context (Hsize : 2 <= mem_tbl_size s) (Hmid : 0 <= mid < mem_tbl_size s).
Context (Hst : lt_state t = LOG_INDEX_MEM_TBL_STATE_ACTIVE) (HL : represents (lt_data t) (lt_free_head t) L).
Context (Hlsn : is_u64 (li_lsn info)).

(** The item of the page in the active table, if the table is one for the
    entry. *)
Lemma insert_head : exists head,
  (if (lt_state t =? LOG_INDEX_MEM_TBL_STATE_ACTIVE) && LOG_INDEX_SAME_TABLE_LSN_PREFIX (lt_data t) (li_lsn info)
   then log_index_mem_tbl_exists_page (li_tag info) (lt_data t) (hash (li_tag info))
   else Done LOG_INDEX_TBL_INVALID_SEG) = Done head /\
  ((head = 0 /\ (LOG_INDEX_SAME_TABLE_LSN_PREFIX (lt_data t) (li_lsn info) = true -> forall e, e ∈ L -> li_tag e <> li_tag info)) \/
   (LOG_INDEX_SAME_TABLE_LSN_PREFIX (lt_data t) (li_lsn info) = true /\ head <> 0 /\
    exists A Q p, table_repr hash (lt_data t) (lt_free_head t) A Q L /\ p ∈ concat A /\ ap_tag p = li_tag info /\ ap_id p = head)).
Proof.
  destruct HL as (A & Q & HR). rewrite Hst, Z.eqb_refl. cbn [andb].
  destruct (LOG_INDEX_SAME_TABLE_LSN_PREFIX _ _) eqn:Ep; [|by exists 0; split; [|left]].
  destruct (exists_page_spec hash Hhash _ _ _ _ _ HR (li_tag info)) as [(p & Hp & Ht & ->)|[Hno ->]].
  - exists (ap_id p). split; [done|]. right. pose proof (page_id_range _ _ _ _ _ _ HR p (ap_id p) Hp ltac:(by left)).
    split_and!; [done|lia|]. by exists A, Q, p.
  - exists 0. split; [done|]. left. split; [done|]. intros _ e He Ht.
    destruct (tr_entry _ _ _ _ _ _ HR e He) as (_ & p & Hp & Hpt). apply (Hno p Hp). congruence.
Qed.

(** The table is full or has another prefix, and a new segment is needed. *)
Lemma free_seg_switch n :
  LOG_INDEX_MEM_TBL_IS_NEW t = false ->
  LOG_INDEX_MEM_TBL_FULL t = true \/ LOG_INDEX_SAME_TABLE_LSN_PREFIX (lt_data t) (li_lsn info) = false ->
  reusable s (LOG_INDEX_MEM_TBL_NEXT_ID s mid) ->
  exists s' d', let nxt := LOG_INDEX_MEM_TBL_NEXT_ID s mid in
    log_index_next_free_seg (S (S n)) s (li_lsn info) mid (-1) = Done (s', 1, nxt) /\
    ls_active_table s' = nxt /\ taken_over s s' nxt /\ mem_tbl_size s' = mem_tbl_size s /\
    LOG_INDEX_MEM_TBL s' mid = LOG_INDEX_MEM_TBL_SET_STATE t LOG_INDEX_MEM_TBL_STATE_INACTIVE /\
    (forall m, m <> mid -> m <> nxt -> LOG_INDEX_MEM_TBL s' m = LOG_INDEX_MEM_TBL s m) /\
    LOG_INDEX_MEM_TBL s' nxt = mk_mem_table 2 LOG_INDEX_MEM_TBL_STATE_ACTIVE d' /\
    represents d' 1 [] /\ LOG_INDEX_SAME_TABLE_LSN_PREFIX d' (li_lsn info) = true /\
    td_idx_table_id d' = u64 (ls_max_idx_table_id s + 1).
Proof.
  intros Hnew Hcase Hre. destruct (next_id_range s Hsize Hmid) as [Hnr Hnm]. set (nxt := LOG_INDEX_MEM_TBL_NEXT_ID s mid) in *.
  cbn [log_index_next_free_seg]. rewrite Hst, Z.eqb_refl, Hnew. fold nxt.
  assert (LOG_INDEX_MEM_TBL_FULL t || negb (LOG_INDEX_SAME_TABLE_LSN_PREFIX (lt_data t) (li_lsn info)) = true) as ->
    by (destruct Hcase as [-> | ->]; [done|by rewrite orb_true_r]).
  cbv iota. rewrite Z.eqb_refl. cbn [negb]. destruct (nxt =? -1) eqn:En; zbool; [lia|]. cbn [negb].
  set (s1 := set_table s mid _).
  assert (mem_tbl_size s1 = mem_tbl_size s) as Hs1 by apply set_table_size.
  assert (forall m, LOG_INDEX_MEM_TBL s1 m = if decide (mid = m) then LOG_INDEX_MEM_TBL_SET_STATE t LOG_INDEX_MEM_TBL_STATE_INACTIVE
            else LOG_INDEX_MEM_TBL s m) as Hg1 by (intros m; unfold s1; by rewrite get_set_table).
  assert (LOG_INDEX_MEM_TBL s1 nxt = LOG_INDEX_MEM_TBL s nxt) as Hg1n by (by rewrite Hg1, decide_False).
  destruct (wait_pass_spec s1 nxt (li_lsn info)) as (s2 & Hrun & Hf & Hoth & Hsz & Hact & Htk).
  { by rewrite Hs1. }
  { destruct Hre as [H|H|H1 H2 H3 H4 H5]; [apply reuse_free|apply reuse_flushed|apply reuse_save]; by rewrite ?Hg1n. }
  cbn [log_index_wait_active]. rewrite Hrun. cbn [obind]. set (s3 := set_active_id s2 nxt).
  assert (forall m, LOG_INDEX_MEM_TBL s3 m = LOG_INDEX_MEM_TBL s2 m) as Hg3 by done.
  assert (LOG_INDEX_MEM_TBL s3 (ls_active_table s3) = fresh_active (u64 (ls_max_idx_table_id s + 1)) (li_lsn info)) as Hfr by exact Hf.
  assert (u32 (Z.shiftr (li_lsn info) 32) = Z.shiftr (li_lsn info) 32) as Hpre.
  { apply u32_small. unfold is_u32, is_u64 in *. rewrite Z.shiftr_div_pow2 by lia. split; [apply Z.div_pos; lia|].
    apply Z.div_lt_upper_bound; [lia|]. replace (2 ^ 32 * 2 ^ 32) with (2 ^ 64) by reflexivity. lia. }
  destruct (fresh_table_repr (lt_data (fresh_active (u64 (ls_max_idx_table_id s + 1)) (li_lsn info)))) as (A & Q & HR); [done..|].
  destruct (free_seg_stay n s3 (li_lsn info) nxt nxt A Q []) as (d' & Hrun2 & HR' & Hsp & _ & Htid).
  { by rewrite Hfr. }
  { rewrite Hfr. exact HR. }
  { done. }
  { rewrite Hfr. right. split; [done|]. unfold LOG_INDEX_SAME_TABLE_LSN_PREFIX. cbn [fresh_active lt_data td_prefix_lsn].
    rewrite Hpre. apply Z.eqb_refl. }
  rewrite Hfr in Hrun2, HR', Htid. cbn [fresh_active lt_free_head lt_data td_idx_table_id] in Hrun2, HR', Htid.
  assert (0 <= ls_active_table s3 < mem_tbl_size s3) as Ha3 by (change (0 <= nxt < mem_tbl_size s2); lia).
  eexists _, d'. cbv zeta. split; [exact Hrun2|]. change (ls_active_table s3) with nxt in *.
  split_and!; try done.
  - destruct Htk as (T1 & T2 & T3). unfold taken_over in *. cbv zeta in *. rewrite Hg1n in *. split_and!; [exact T1|exact T2|exact T3].
  - rewrite set_table_size. change (mem_tbl_size s3) with (mem_tbl_size s2). congruence.
  - rewrite get_set_table, decide_False by done. by rewrite Hg3, Hoth, Hg1, decide_True.
  - intros m H1 H2. rewrite get_set_table, decide_False by done. by rewrite Hg3, Hoth, Hg1, decide_False.
  - by rewrite get_set_table, decide_True.
  - by exists A, Q.
Qed.

Context (Hnext : LOG_INDEX_MEM_TBL_FULL t = true \/ LOG_INDEX_SAME_TABLE_LSN_PREFIX (lt_data t) (li_lsn info) = false ->
                 reusable s (LOG_INDEX_MEM_TBL_NEXT_ID s mid)).

(** The result of the writes to table [mid] of [s], whose log was [L0]. *)
Lemma insert_here_finish free d2 :
  represents d2 free (L ++ [stored L info]) -> td_idx_table_id d2 = td_idx_table_id (lt_data t) ->
  forall d0, inserted_here s (update_lsn_range (set_data
    (set_table s mid (mk_mem_table free LOG_INDEX_MEM_TBL_STATE_ACTIVE d0)) mid d2) mid (li_lsn info)) L info.
Proof.
  intros HR Htid d0. set (s1 := set_table s mid _). assert (mem_tbl_size s1 = mem_tbl_size s) as Hs1 by apply set_table_size.
  assert (LOG_INDEX_MEM_TBL s1 mid = mk_mem_table free LOG_INDEX_MEM_TBL_STATE_ACTIVE d0) as Hg
    by (unfold s1; by rewrite get_set_table, decide_True).
  destruct (finish_insert s1 mid d2 (li_lsn info) free (L ++ [stored L info])) as (F1 & F2 & F3 & F4 & F5 & F6 & F7 & F8).
  { by rewrite Hs1. } { done. }
  rewrite Hg in F4, F5. unfold inserted_here. cbv zeta. split_and!; try done; try lia.
  - intros m Hm. rewrite F1 by done. unfold s1. by rewrite get_set_table, decide_False.
  - unfold LOG_INDEX_MEM_TBL_TID. congruence.
  - by rewrite F4.
Qed.

Lemma insert_switch n :
  LOG_INDEX_MEM_TBL_IS_NEW t = false ->
  LOG_INDEX_MEM_TBL_FULL t = true \/ LOG_INDEX_SAME_TABLE_LSN_PREFIX (lt_data t) (li_lsn info) = false ->
  exists s1, (let! (s1, dst, active) := log_index_next_free_seg (S (S n)) s (li_lsn info) mid (-1) in
              Done (s1, dst, active)) = Done (s1, 1, LOG_INDEX_MEM_TBL_NEXT_ID s mid) /\
    exists d1 d2, log_index_insert_new_item info (lt_data (LOG_INDEX_MEM_TBL s1 (LOG_INDEX_MEM_TBL_NEXT_ID s mid)))
                   (hash (li_tag info)) 1 = Done d1 /\
      LOG_INDEX_MEM_TBL_ADD_ORDER d1 1 0 = Done d2 /\
      inserted_next s (update_lsn_range (set_data s1 (LOG_INDEX_MEM_TBL_NEXT_ID s mid) d2)
                         (LOG_INDEX_MEM_TBL_NEXT_ID s mid) (li_lsn info)) info.
Proof.
  intros Hnew Hcase. destruct (next_id_range s Hsize Hmid) as [Hnr Hnm].
  destruct (free_seg_switch n Hnew Hcase (Hnext Hcase)) as (s1 & d' & -> & Ha & Htk & Hsz & Hold & Hoth & Hnx & HR & Hp & Htid).
  cbn [obind]. exists s1. split; [done|]. rewrite Hnx. cbn [lt_data].
  destruct (insert_item_done d' 1 [] info HR) as (d1 & d2 & H1 & H2 & H3 & H4); [done|done|intros e He; by apply not_elem_of_nil in He|].
  exists d1, d2. split_and!; [done|done|]. set (nxt := LOG_INDEX_MEM_TBL_NEXT_ID s mid) in *.
  assert (stored [] info = info) as Hsi by (by destruct info). cbn [app] in H3. rewrite Hsi in H3.
  destruct (finish_insert s1 nxt d2 (li_lsn info) 2 [info]) as (F1 & F2 & F3 & F4 & F5 & F6 & F7 & F8); [lia|done|].
  rewrite Hnx in F4, F5. unfold inserted_next. cbv zeta. fold nxt.
  split; [by rewrite F2|]. split; [unfold taken_over in *; cbv zeta in *; rewrite F3; exact Htk|].
  split; [by rewrite F1, Hold by done|]. split; [intros m Hm1 Hm2; rewrite F1 by done; by apply Hoth|].
  split; [done|]. split; [unfold LOG_INDEX_MEM_TBL_TID; congruence|]. split; [lia|]. by rewrite F4.
Qed.

Lemma stored_page A Q p :
  table_repr hash (lt_data t) (lt_free_head t) A Q L -> p ∈ concat A -> ap_tag p = li_tag info ->
  mk_lsn_info (ap_tag p) (li_lsn info) (LOG_INDEX_COMBINE_LSN (lt_data t) (default 0 (list.last (page_sfx p)))) = stored L info.
Proof.
  intros HR Hp Ht. destruct (last_page_lsn _ _ _ _ _ p HR Hp) as (x & Hx & <-). unfold stored. rewrite <- Ht, Hx. done.
Qed.

(** A new entry for a page without an item in the table. *)
Lemma insert_new_page n :
  (LOG_INDEX_SAME_TABLE_LSN_PREFIX (lt_data t) (li_lsn info) = true -> forall e, e ∈ L -> li_tag e <> li_tag info) ->
  exists s1 dst active d1 d2,
    log_index_next_free_seg (S (S n)) s (li_lsn info) mid (-1) = Done (s1, dst, active) /\
    log_index_insert_new_item info (lt_data (LOG_INDEX_MEM_TBL s1 active)) (hash (li_tag info)) dst = Done d1 /\
    LOG_INDEX_MEM_TBL_ADD_ORDER d1 dst 0 = Done d2 /\
    let s' := update_lsn_range (set_data s1 active d2) active (li_lsn info) in
    inserted_here s s' L info \/ inserted_next s s' info.
Proof.
  intros Hno. pose proof (insert_switch n) as Hsw. pose proof (insert_here_finish) as Hfin. destruct HL as (A & Q & HR). clear Hnext.
  destruct (LOG_INDEX_MEM_TBL_IS_NEW t) eqn:En; [|destruct (LOG_INDEX_MEM_TBL_FULL t) eqn:Ef;
    [|destruct (LOG_INDEX_SAME_TABLE_LSN_PREFIX (lt_data t) (li_lsn info)) eqn:Ep]].
  2, 4: destruct (Hsw eq_refl ltac:(auto)) as (s1 & Hrun & d1 & d2 & H1 & H2 & H3);
    destruct (log_index_next_free_seg _ _ _ _ _) as [[[sx dx] ax]|] eqn:Er; [|done]; cbn [obind] in Hrun;
    injection Hrun as -> -> ->; exists s1, 1, (LOG_INDEX_MEM_TBL_NEXT_ID s mid), d1, d2; split_and!; [done..|]; cbv zeta; by right.
  all: destruct (free_seg_stay (S n) s (li_lsn info) mid (-1) A Q L Hst HR Hlsn) as (d' & Hrun & HR' & Hp' & Hfree & Htid); [by auto|].
  all: destruct (insert_item_done d' (lt_free_head t) L info) as (d1 & d2 & H1 & H2 & H3 & H4); [by exists A, Q|done|done| |].
  1: { apply andb_true_iff in En as [_ Efh%Z.eqb_eq]. rewrite Efh in HR. destruct (repr_empty _ _ _ _ HR) as [-> _].
       intros e He. by apply not_elem_of_nil in He. }
  2: by apply Hno.
  all: eexists _, (lt_free_head t), mid, d1, d2; split_and!; [exact Hrun| |exact H2|].
  1, 3: rewrite get_set_table, decide_True by done; exact H1.
  all: left; apply Hfin; [done|congruence].
Qed.

(** An entry for a page whose last segment is full. *)
Lemma insert_full_page n A Q p :
  table_repr hash (lt_data t) (lt_free_head t) A Q L -> p ∈ concat A -> ap_tag p = li_tag info -> page_full p = true ->
  LOG_INDEX_SAME_TABLE_LSN_PREFIX (lt_data t) (li_lsn info) = true ->
  exists s1 dst active d1 d2,
    log_index_next_free_seg (S (S n)) s (li_lsn info) mid (-1) = Done (s1, dst, active) /\
    (if negb (active =? mid)
     then log_index_insert_new_item info (lt_data (LOG_INDEX_MEM_TBL s1 active)) (hash (li_tag info)) dst
     else log_index_insert_new_seg (lt_data (LOG_INDEX_MEM_TBL s1 active)) (ap_id p) dst info) = Done d1 /\
    LOG_INDEX_MEM_TBL_ADD_ORDER d1 dst 0 = Done d2 /\
    let s' := update_lsn_range (set_data s1 active d2) active (li_lsn info) in
    inserted_here s s' L info \/ inserted_next s s' info.
Proof.
  intros HR Hp Ht Hfull Hpre. pose proof (insert_switch n) as Hsw. pose proof (insert_here_finish) as Hfin. clear Hnext.
  destruct (next_id_range s Hsize Hmid) as [Hnr Hnm].
  assert (LOG_INDEX_MEM_TBL_IS_NEW t = false) as Hnew.
  { destruct (LOG_INDEX_MEM_TBL_IS_NEW t) eqn:En; [|done]. apply andb_true_iff in En as [_ Efh%Z.eqb_eq].
    rewrite Efh in HR. destruct (repr_empty _ _ _ _ HR) as [_ E]. rewrite E in Hp. by apply not_elem_of_nil in Hp. }
  destruct (LOG_INDEX_MEM_TBL_FULL t) eqn:Ef.
  - destruct (Hsw Hnew ltac:(auto)) as (s1 & Hrun & d1 & d2 & H1 & H2 & H3).
    destruct (log_index_next_free_seg _ _ _ _ _) as [[[sx dx] ax]|] eqn:Er; [|done]. cbn [obind] in Hrun.
    injection Hrun as -> -> ->. exists s1, 1, (LOG_INDEX_MEM_TBL_NEXT_ID s mid), d1, d2.
    destruct (LOG_INDEX_MEM_TBL_NEXT_ID s mid =? mid) eqn:E; zbool; [done|]. cbn [negb].
    split_and!; [done..|]. cbv zeta. by right.
  - destruct (free_seg_stay (S n) s (li_lsn info) mid (-1) A Q L Hst HR Hlsn) as (d' & Hrun & HR' & Hp' & Hfree & Htid); [by auto|].
    destruct (new_seg_repr hash d' _ A Q L HR' p info Hp Hfull Hfree Hp')
      as (d1 & d2 & A' & Q' & H1 & H2 & _ & _ & H3 & H4).
    assert (LOG_INDEX_COMBINE_LSN d' (default 0 (list.last (page_sfx p))) =
            LOG_INDEX_COMBINE_LSN (lt_data t) (default 0 (list.last (page_sfx p)))) as E.
    { unfold LOG_INDEX_COMBINE_LSN. unfold LOG_INDEX_SAME_TABLE_LSN_PREFIX in *. zbool. congruence. }
    rewrite E, (stored_page A Q p HR Hp Ht) in H4.
    eexists _, (lt_free_head t), mid, d1, d2. split; [exact Hrun|]. rewrite Z.eqb_refl. cbn [negb].
    rewrite get_set_table, decide_True by done. split_and!; [exact H1|exact H2|]. cbv zeta. left.
    apply Hfin; [by exists A', Q'|congruence].
Qed.

Lemma set_data_table d : set_data s mid d = set_data (set_table s mid t) mid d.
Proof.
  unfold set_data. rewrite get_set_table, decide_True by done. unfold set_table.
  cbn [ls_mem_table ls_max_lsn ls_state ls_active_table ls_max_idx_table_id ls_promoted_info ls_meta ls_storage ls_storage_meta].
  unfold aset. rewrite !decide_True by lia. by rewrite list_insert_insert_eq.
Qed.

(** C2: inserting an entry appends it to the log.  When the active table
    represents the log [L] of the entries added to it, the insertion always
    succeeds; either the same table then represents [L] with the entry at
    its end (its previous LSN being the page's last one in the table, if
    any) and no other table and nothing in storage has changed, or, when
    the table is full or of another LSN prefix, it only becomes inactive,
    the entry starts the log of the next table with the next table id, and
    what that table held is in storage unless it was free or flushed
    already. *)
Theorem insert_lsn_appends n :
  exists s', log_index_insert_lsn (S (S n)) s info (hash (li_tag info)) = Done s' /\
    (inserted_here s s' L info \/ inserted_next s s' info).
Proof using All.
  unfold log_index_insert_lsn. destruct insert_head as (head & -> & Hcase). cbn [obind].
  destruct Hcase as [[-> Hno]|(Hpre & Hh0 & A & Q & p & HR & Hp & Ht & <-)].
  - change (0 =? LOG_INDEX_TBL_INVALID_SEG) with true. cbn [negb obind andb].
    destruct (insert_new_page n Hno) as (s1 & dst & active & d1 & d2 & -> & H1 & H2 & H3). cbn [obind orb]. rewrite H1.
    cbn [obind]. rewrite H2. cbn [obind]. eexists. split; [done|exact H3].
  - unfold LOG_INDEX_TBL_INVALID_SEG. destruct (ap_id p =? 0) eqn:E0; zbool; [done|]. cbn [negb].
    rewrite (mem_seg_full_spec hash _ _ _ _ _ HR p Hp). cbn [obind andb]. destruct (page_full p) eqn:Ef; cbn [negb].
    + destruct (insert_full_page n A Q p HR Hp Ht Ef Hpre) as (s1 & dst & active & d1 & d2 & -> & H1 & H2 & H3).
      cbn [obind orb]. rewrite H1. cbn [obind]. rewrite H2. cbn [obind]. eexists. split; [done|exact H3].
    + destruct (append_repr hash _ _ _ _ _ HR p info Hp Ef Hpre) as (d1 & idx & hd & d2 & A' & Q' & H1 & H2 & H3 & _ & _ & H4 & H5).
      rewrite H1. cbn [obind]. rewrite H2. cbn [obind]. rewrite H3. cbn [obind]. eexists. split; [done|]. left.
      rewrite (stored_page A Q p HR Hp Ht) in H5. rewrite set_data_table.
      assert (t = mk_mem_table (lt_free_head t) LOG_INDEX_MEM_TBL_STATE_ACTIVE (lt_data t)) as Et
        by (rewrite <- Hst; by destruct t).
      rewrite Et at 1. apply insert_here_finish; [by exists A', Q'|done].
Qed.
End insert.

(** Reading a table in insertion order gives back its log: position by
    position the page, the LSN with its prefix restored and the previous
    LSN of the page, and nothing past the end. *)
Theorem order_reads_log d free L j :
  represents d free L -> log_index_get_order_lsn d (Z.of_nat j) = Done (L !! j).
Proof. intros (A & Q & HR). by apply (get_order_lsn_log hash d free A Q L HR). Qed.
(** C13: a saved table can be found again.  Writing out an inactive table
    that is the next one to save always succeeds; storage then holds a
    table with the same log, its Bloom data covers the LSNs and lacks none
    of the pages of that log, the meta data names it as the last saved
    table, it is marked flushed in memory and no other table changed. *)
Theorem saved_table_found s mid free L :
  let t := LOG_INDEX_MEM_TBL s mid in
  let tid := LOG_INDEX_MEM_TBL_TID t in
  0 <= mid < mem_tbl_size s -> lt_state t = LOG_INDEX_MEM_TBL_STATE_INACTIVE -> tid = me_max_idx_table_id (ls_meta s) + 1 ->
  represents (lt_data t) free L -> (forall tag, StronglySorted Z.le (map li_lsn (filter (fun e => li_tag e = tag) L))) ->
  exists s' d b, log_index_write_table s mid = Done (s', true) /\
    ls_storage s' !! tid = Some d /\ td_idx_table_id d = tid /\ represents d free L /\
    ls_bloom s' !! tid = Some b /\ bloom_of hash_any_extended bloom_rint tid L b /\
    me_max_idx_table_id (ls_meta s') = tid /\ ls_storage_meta s' = ls_meta s' /\
    LOG_INDEX_MEM_TBL s' mid = mk_mem_table (lt_free_head t) LOG_INDEX_MEM_TBL_STATE_FLUSHED d /\
    (forall m, m <> mid -> LOG_INDEX_MEM_TBL s' m = LOG_INDEX_MEM_TBL s m) /\
    (forall i, i <> tid -> ls_storage s' !! i = ls_storage s !! i).
Proof using env.
  intros t tid Hm Hst Htid HL Hs.
  destruct (write_table_spec s mid free L Hm) as (s' & b & Hrun & (b' & Hb' & Hbl & Hsto) & Hoth & Hget & _ & _ & _ & Hbb & Hme & Hsm & _);
    [by fold t; rewrite Hst|done|done|]. fold t in Hb', Hbl, Hsto, Hoth, Hget, Hbb, Hme. fold tid in Hb', Hbl, Hsto, Hoth, Hbb, Hme.
  rewrite Hb' in Hbb. injection Hbb as ->. destruct HL as (A & Q & HR).
  destruct (get_bloom_of hash_any_extended bloom_rint _ _ _ _ _ _ HR tid Hs) as (b0 & Hb0 & Ho).
  assert (b0 = b) as -> by (fold tid in Hb'; congruence).
  exists s', (log_index_save_table (lt_data t) b), b. split; [done|]. split; [done|]. split; [done|].
  split; [by exists A, Q; apply save_table_repr|]. split; [done|]. split; [done|]. split; [done|]. split; [done|].
  split; [by rewrite Hget, decide_True|]. split; [intros m Hne; by rewrite Hget, decide_False|done].
Qed.
End log_index.

(** ** A concrete run *)

Lemma index_hash_range tag_hash tag : 0 <= LOG_INDEX_MEM_TBL_HASH_PAGE tag_hash tag < LOG_INDEX_MEM_TBL_HASH_NUM.
Proof. apply Z.mod_pos_bound. reflexivity. Qed.

Definition demo_tag (b : Z) : BufferTag := mk_tag 1663 1 16384 0 b.
Definition demo_info (b lsn prev : Z) : log_index_lsn_t := mk_lsn_info (demo_tag b) lsn prev.

(** Every table may be flushed, and simple hash and checksum functions. *)
Definition demo_env : log_index_env := {|
  table_flushable := fun _ => true;
  hash_any_extended := jenkins;
  bloom_rint := fun _ _ => 7;
  log_index_calc_crc := td_max_lsn
|}.
#[local] Existing Instance demo_env.

(** Three tables, the first one active and empty. *)
Definition demo_snapshot : log_index_snapshot_t :=
  mk_snapshot 0 (POLAR_LOGINDEX_STATE_ADDING + POLAR_LOGINDEX_STATE_WRITABLE) 0 1 (mk_promoted 0 0 0 0)
    (mk_meta 0 (mk_file_segment 0 0 0 0) 0 0) [fresh_active 1 (7 * 2 ^ 32); zero_mem_table; zero_mem_table] ∅
    (mk_meta 0 (mk_file_segment 0 0 0 0) 0 0) ∅.

Lemma demo_table_repr hash : represents hash (lt_data (fresh_active 1 (7 * 2 ^ 32))) 1 [].
Proof. apply fresh_table_repr; reflexivity. Qed.

(** An LSN with another prefix: the next table is taken. *)
Lemma insert_lsn_appends_witness :
  exists s', log_index_insert_lsn 2 demo_snapshot (demo_info 5 (8 * 2 ^ 32 + 100) 0)
               (LOG_INDEX_MEM_TBL_HASH_PAGE buffer_tag_hash (demo_tag 5)) = Done s' /\
    (inserted_here (LOG_INDEX_MEM_TBL_HASH_PAGE buffer_tag_hash) demo_snapshot s' [] (demo_info 5 (8 * 2 ^ 32 + 100) 0) \/
     inserted_next (LOG_INDEX_MEM_TBL_HASH_PAGE buffer_tag_hash) demo_snapshot s' (demo_info 5 (8 * 2 ^ 32 + 100) 0)).
Proof.
  apply (insert_lsn_appends (LOG_INDEX_MEM_TBL_HASH_PAGE buffer_tag_hash) (index_hash_range buffer_tag_hash)
           demo_snapshot [] (demo_info 5 (8 * 2 ^ 32 + 100) 0)).
  - vm_compute. discriminate.
  - vm_compute. split; [discriminate|reflexivity].
  - reflexivity.
  - exact (demo_table_repr (LOG_INDEX_MEM_TBL_HASH_PAGE buffer_tag_hash)).
  - vm_compute. split; [discriminate|reflexivity].
  - intros _. apply reuse_free. reflexivity.
Defined.

(** A table with the first entry of a page, and what is read from it. *)
Lemma order_reads_log_witness :
  exists d1 d2, log_index_insert_new_item (demo_info 5 (7 * 2 ^ 32 + 100) 40) (lt_data (fresh_active 1 (7 * 2 ^ 32)))
                  (LOG_INDEX_MEM_TBL_HASH_PAGE buffer_tag_hash (demo_tag 5)) 1 = Done d1 /\
    LOG_INDEX_MEM_TBL_ADD_ORDER d1 1 0 = Done d2 /\
    log_index_get_order_lsn d2 (Z.of_nat 0) = Done (Some (demo_info 5 (7 * 2 ^ 32 + 100) 40)).
Proof.
  destruct (insert_item_done (LOG_INDEX_MEM_TBL_HASH_PAGE buffer_tag_hash) (index_hash_range buffer_tag_hash) _ 1 []
              (demo_info 5 (7 * 2 ^ 32 + 100) 40) (demo_table_repr _)) as (d1 & d2 & H1 & H2 & H3 & _).
  - reflexivity.
  - vm_compute. reflexivity.
  - intros e He. inversion He.
  - exists d1, d2. split; [exact H1|]. split; [exact H2|].
    exact (order_reads_log (LOG_INDEX_MEM_TBL_HASH_PAGE buffer_tag_hash) d2 _ _ 0 H3).
Defined.

Definition one_entry_table (tid : Z) (info : log_index_lsn_t) : log_idx_table_data_t :=
  match log_index_insert_new_item info (lt_data (fresh_active tid (li_lsn info))) (LOG_INDEX_MEM_TBL_HASH_PAGE buffer_tag_hash (li_tag info)) 1 with
  | Done d1 => match LOG_INDEX_MEM_TBL_ADD_ORDER d1 1 0 with Done d2 => d2 | Fault _ => zero_data end
  | Fault _ => zero_data
  end.

Abbreviation demo_hash := (LOG_INDEX_MEM_TBL_HASH_PAGE buffer_tag_hash).

Lemma one_entry_repr tid info :
  is_u64 (li_lsn info) -> represents demo_hash (one_entry_table tid info) 2 [info] /\ td_idx_table_id (one_entry_table tid info) = tid.
Proof.
  intros Hl. assert (represents demo_hash (lt_data (fresh_active tid (li_lsn info))) 1 []) as H0 by (by apply fresh_table_repr).
  destruct (insert_item_done demo_hash (index_hash_range buffer_tag_hash) _ 1 [] info H0) as (d1 & d2 & H1 & H2 & H3 & H4).
  - done.
  - unfold LOG_INDEX_SAME_TABLE_LSN_PREFIX. cbn [fresh_active lt_data td_prefix_lsn]. rewrite u32_small; [apply Z.eqb_refl|].
    unfold is_u32, is_u64 in *. rewrite Z.shiftr_div_pow2 by lia. mlia.
  - intros e He. by apply not_elem_of_nil in He.
  - unfold one_entry_table. rewrite H1, H2. cbn [app] in H3. split; [|done]. assert (stored [] info = info) as Hst by (by destruct info).
    by rewrite Hst in H3.
Qed.

Definition demo_first : log_index_lsn_t := demo_info 5 (7 * 2 ^ 32 + 100) 0.
Definition demo_second : log_index_lsn_t := demo_info 5 (7 * 2 ^ 32 + 200) (7 * 2 ^ 32 + 100).

(** A full turn: the first table is to be saved. *)
Definition demo_inactive : log_index_snapshot_t :=
  mk_snapshot (7 * 2 ^ 32 + 100) (POLAR_LOGINDEX_STATE_ADDING + POLAR_LOGINDEX_STATE_WRITABLE) 1 1 (mk_promoted 0 0 0 0)
    (mk_meta 0 (mk_file_segment 0 0 0 0) 0 0)
    [mk_mem_table 2 LOG_INDEX_MEM_TBL_STATE_INACTIVE (one_entry_table 1 demo_first); zero_mem_table] ∅
    (mk_meta 0 (mk_file_segment 0 0 0 0) 0 0) ∅.

Lemma saved_table_found_witness :
  exists s' d b, log_index_write_table demo_inactive 0 = Done (s', true) /\
    ls_storage s' !! 1 = Some d /\ td_idx_table_id d = 1 /\ represents demo_hash d 2 [demo_first] /\
    ls_bloom s' !! 1 = Some b /\ bloom_of hash_any_extended bloom_rint 1 [demo_first] b /\
    me_max_idx_table_id (ls_meta s') = 1 /\ ls_storage_meta s' = ls_meta s' /\
    LOG_INDEX_MEM_TBL s' 0 = mk_mem_table 2 LOG_INDEX_MEM_TBL_STATE_FLUSHED d /\
    (forall m, m <> 0 -> LOG_INDEX_MEM_TBL s' m = LOG_INDEX_MEM_TBL demo_inactive m) /\
    (forall i, i <> 1 -> ls_storage s' !! i = ls_storage demo_inactive !! i).
Proof.
  destruct (one_entry_repr 1 demo_first) as [H1 H2]; [vm_compute; split; congruence|].
  pose proof (saved_table_found demo_hash demo_inactive 0 2 [demo_first]) as H. cbv zeta in H.
  change (LOG_INDEX_MEM_TBL_TID (LOG_INDEX_MEM_TBL demo_inactive 0)) with (td_idx_table_id (one_entry_table 1 demo_first)) in H.
  rewrite H2 in H. apply H.
  - vm_compute. split; congruence.
  - reflexivity.
  - reflexivity.
  - exact H1.
  - intros tag. rewrite filter_cons. destruct (decide _); repeat constructor.
Defined.
