(* ===== verification/LogIndexIter.v ===== *)
(** * The page iterator of the log index (polar_logindex_iterator.c)

    To replay a page, the LSNs of its records in a range are collected from
    the tables, newest first, on a stack of blocks of 64, and then popped,
    oldest first, each with the LSN before it.

    The stack blocks and the table stacks are linked lists in the code and
    lists here, the top first.  An item head is passed by its number.
    [elog(ERROR)] leaves the function, so what follows it is not reached.
    [LOG_INDEX_SUPPORT_NO_PREVIOUS_LSN] is defined, so an item without a
    previous LSN does not end the search. *)

From S2P Require Import Prelude BufTag LogIndexTable LogIndexSnapshot.

Definition LOG_INDEX_PAGE_STACK_ITEM_SIZE : Z := 64.

Inductive log_index_iter_state_t :=
| ITERATE_STATE_FORWARD
| ITERATE_STATE_BACKWARD
| ITERATE_STATE_FINISHED
| ITERATE_STATE_HOLLOW
| ITERATE_STATE_CORRUPTED.

#[export] Instance iter_state_eq_dec : EqDecision log_index_iter_state_t.
Proof. solve_decision. Defined.

Record log_index_page_lsn_t := mk_page_lsn {
  pl_item_size : Z;
  pl_iter_pos : Z;
  pl_lsn : list Z;
  pl_prev_lsn : Z
}.

Record log_index_tbl_stack_lsn_t := mk_tbl_stack {
  ts_full_page_lsn : Z;
  ts_prev_page_lsn : Z;
  ts_head : list log_index_page_lsn_t
}.

Record log_index_page_iter_data_t := mk_page_iter {
  pi_tag : BufferTag;
  pi_min_lsn : Z;
  pi_max_lsn : Z;
  pi_iter_prev_lsn : Z;
  pi_iter_max_lsn : Z;
  pi_max_idx_table_id : Z;
  pi_lsn_stack : list log_index_tbl_stack_lsn_t;
  pi_key : Z;
  pi_state : log_index_iter_state_t
}.

Definition set_iter_state (it : log_index_page_iter_data_t) (st : log_index_iter_state_t) : log_index_page_iter_data_t :=
  mk_page_iter (pi_tag it) (pi_min_lsn it) (pi_max_lsn it) (pi_iter_prev_lsn it) (pi_iter_max_lsn it)
    (pi_max_idx_table_id it) (pi_lsn_stack it) (pi_key it) st.

(** ** The stacks *)

Definition zero_page_lsn : log_index_page_lsn_t :=
  mk_page_lsn 0 0 (replicate (Z.to_nat LOG_INDEX_PAGE_STACK_ITEM_SIZE) 0) 0.

(** The stack, whose top block is the one to write, and the index. *)
Definition log_index_tbl_stack_next_item (stack : list log_index_page_lsn_t) : list log_index_page_lsn_t * Z :=
  let stack := match stack with
               | [] => [zero_page_lsn]
               | b :: _ => if pl_item_size b =? LOG_INDEX_PAGE_STACK_ITEM_SIZE then zero_page_lsn :: stack else stack
               end in
  match stack with
  | [] => ([], 0)
  | b :: rest =>
    let idx := pl_item_size b in
    let size := u16 (pl_item_size b + 1) in
    (mk_page_lsn size size (pl_lsn b) (pl_prev_lsn b) :: rest, idx)
  end.

(** The block written after [log_index_tbl_stack_next_item]. *)
Definition stack_write (stack : list log_index_page_lsn_t) (idx lsn prev_lsn : Z) : list log_index_page_lsn_t :=
  match stack with
  | [] => []
  | b :: rest => mk_page_lsn (pl_item_size b) (pl_iter_pos b) (aset (pl_lsn b) idx lsn) prev_lsn :: rest
  end.

(** The LSN popped and the one before it, [None] when there is none. *)
Definition log_index_tbl_stack_pop_lsn (stack : list log_index_page_lsn_t) : list log_index_page_lsn_t * option (Z * Z) :=
  match stack with
  | [] => ([], None)
  | b :: rest =>
    let idx := u8 (pl_iter_pos b - 1) in
    let prev_lsn := if pl_iter_pos b =? pl_item_size b then pl_prev_lsn b else aget 0 (pl_lsn b) (idx + 1) in
    let lsn := aget 0 (pl_lsn b) idx in
    let pos := u16 (pl_iter_pos b - 1) in
    (if pos =? 0 then rest else mk_page_lsn (pl_item_size b) pos (pl_lsn b) (pl_prev_lsn b) :: rest, Some (lsn, prev_lsn))
  end.

Definition log_index_iter_push_tbl_stack (stack : list log_index_tbl_stack_lsn_t) : list log_index_tbl_stack_lsn_t :=
  mk_tbl_stack 0 0 [] :: stack.

(** The next LSN of the page, with the one before it; a table stack that
    has none is popped, which leaves [rest]. *)
Fixpoint iterator_next_loop (stack : list log_index_tbl_stack_lsn_t)
  : list log_index_tbl_stack_lsn_t * option (Z * Z) :=
  match stack with
  | [] => ([], None)
  | ts :: rest =>
    match log_index_tbl_stack_pop_lsn (ts_head ts) with
    | (blocks, Some r) => (mk_tbl_stack (ts_full_page_lsn ts) (ts_prev_page_lsn ts) blocks :: rest, Some r)
    | (_, None) => iterator_next_loop rest
    end
  end.

Definition polar_logindex_page_iterator_next (it : log_index_page_iter_data_t)
  : log_index_page_iter_data_t * option log_index_lsn_t :=
  let '(stack, r) := iterator_next_loop (pi_lsn_stack it) in
  (mk_page_iter (pi_tag it) (pi_min_lsn it) (pi_max_lsn it) (pi_iter_prev_lsn it) (pi_iter_max_lsn it)
     (pi_max_idx_table_id it) stack (pi_key it) (pi_state it),
   match r with Some (lsn, prev_lsn) => Some (mk_lsn_info (pi_tag it) lsn prev_lsn) | None => None end).

Definition polar_logindex_page_iterator_end (it : log_index_page_iter_data_t) : bool :=
  match pi_lsn_stack it with [] => true | _ => false end.

(** Releasing the iterator: the table stacks that are freed, and those
    that are unlinked without being freed.  The top one is unlinked here,
    and [log_index_pop_tbl_stack] then takes the one after it. *)
Fixpoint log_index_stack_release (stack : list log_index_tbl_stack_lsn_t)
  : list log_index_tbl_stack_lsn_t * list log_index_tbl_stack_lsn_t :=
  match stack with
  | [] => ([], [])
  | top :: rest =>
    match rest with
    | [] => ([], [top])
    | popped :: rest => let '(freed, lost) := log_index_stack_release rest in (popped :: freed, top :: lost)
    end
  end.

(** ** Collecting the LSNs of a table *)

(** The loop of [log_index_page_iterate_push_lsn] over the indices below
    [i], downwards; [suffix_lsn] are the entries of segment [seg_id].  The
    result is the iterator, the blocks and [prev_correct]. *)
Fixpoint push_lsn_loop (i : nat) (it : log_index_page_iter_data_t) (stack : list log_index_page_lsn_t)
    (d : log_idx_table_data_t) (seg_id : Z) (suffix_lsn : list Z) (prev_correct : bool)
  : outcome (log_index_page_iter_data_t * list log_index_page_lsn_t * bool) :=
  match i with
  | O => Done (it, stack, prev_correct)
  | S n =>
    let idx := Z.of_nat n in
    let l := LOG_INDEX_COMBINE_LSN d (aget 0 suffix_lsn idx) in
    let prev_correct := if negb prev_correct && (l =? pi_iter_prev_lsn it) then true else prev_correct in
    if (l >=? pi_min_lsn it) && (l <=? pi_iter_max_lsn it) then
      if negb prev_correct then Fault ERROR
      else
        let '(stack, stack_idx) := log_index_tbl_stack_next_item stack in
        let! prev_lsn := log_index_get_seg_prev_lsn d seg_id idx in
        let stack := stack_write stack stack_idx l prev_lsn in
        if l =? pi_min_lsn it then Done (set_iter_state it ITERATE_STATE_FINISHED, stack, prev_correct)
        else push_lsn_loop n it stack d seg_id suffix_lsn prev_correct
    else if l <? pi_min_lsn it then
      if negb prev_correct then Fault ERROR
      else Done (set_iter_state it ITERATE_STATE_FINISHED, stack, prev_correct)
    else push_lsn_loop n it stack d seg_id suffix_lsn prev_correct
  end.

Definition log_index_page_iterate_push_lsn (it : log_index_page_iter_data_t) (stack : list log_index_page_lsn_t)
    (d : log_idx_table_data_t) (seg_id : Z) (prev_correct : bool)
  : outcome (log_index_page_iter_data_t * list log_index_page_lsn_t * bool) :=
  let! p := log_index_item_seg d seg_id in
  let! u := deref p in
  if seg_head_seg u =? seg_id then
    let! head := get_head d seg_id in
    push_lsn_loop (Z.to_nat (ih_number head)) it stack d seg_id (ih_suffix_lsn head) prev_correct
  else
    let! seg := as_seg u in
    push_lsn_loop (Z.to_nat (is_number seg)) it stack d seg_id (is_suffix_lsn seg) prev_correct.

(** The [do] loop of [log_index_iterate_table_data] from segment
    [item_id] back to the head [item_head]; the result is also the number
    of the segment it stopped at. *)
Fixpoint iterate_segs (fuel : nat) (it : log_index_page_iter_data_t) (stack : list log_index_page_lsn_t)
    (d : log_idx_table_data_t) (item_head item_id : Z) (prev_correct : bool)
  : outcome (log_index_page_iter_data_t * list log_index_page_lsn_t * bool * Z) :=
  match fuel with
  | O => Fault OUT_OF_FUEL
  | S n =>
    let! item := log_index_item_seg d item_id in
    if item_id =? item_head then Done (it, stack, prev_correct, item_id)
    else match item with
         | None => Fault PANIC
         | Some u =>
           let! seg := as_seg u in
           if is_number seg <=? 0 then Fault PANIC
           else
             let! (it, stack, prev_correct) := log_index_page_iterate_push_lsn it stack d item_id prev_correct in
             if decide (pi_state it = ITERATE_STATE_FORWARD)
             then iterate_segs n it stack d item_head (is_prev_seg seg) prev_correct
             else Done (it, stack, prev_correct, is_prev_seg seg)
         end
  end.

(** Replaces the blocks of the table stack on top. *)
Definition set_top_blocks (it : log_index_page_iter_data_t) (blocks : list log_index_page_lsn_t) : log_index_page_iter_data_t :=
  mk_page_iter (pi_tag it) (pi_min_lsn it) (pi_max_lsn it) (pi_iter_prev_lsn it) (pi_iter_max_lsn it)
    (pi_max_idx_table_id it)
    (match pi_lsn_stack it with
     | [] => []
     | ts :: rest => mk_tbl_stack (ts_full_page_lsn ts) (ts_prev_page_lsn ts) blocks :: rest
     end) (pi_key it) (pi_state it).

Definition log_index_iterate_table_data (it : log_index_page_iter_data_t) (d : log_idx_table_data_t) (item_head : Z)
  : outcome log_index_page_iter_data_t :=
  let! head := get_head d item_head in
  if ih_number head <=? 0 then Fault PANIC
  else
    let prev_correct := pi_iter_prev_lsn it =? InvalidXLogRecPtr in
    let stack := match log_index_iter_push_tbl_stack (pi_lsn_stack it) with
                 | [] => []
                 | ts :: rest => mk_tbl_stack (ts_full_page_lsn ts) (ih_prev_page_lsn head) (ts_head ts) :: rest
                 end in
    let it := mk_page_iter (pi_tag it) (pi_min_lsn it) (pi_max_lsn it) (pi_iter_prev_lsn it) (pi_iter_max_lsn it)
                (pi_max_idx_table_id it) stack (pi_key it) (pi_state it) in
    let! (it, blocks, prev_correct, item_id) := iterate_segs SEG_FUEL it [] d item_head (ih_tail_seg head) prev_correct in
    let! (it, blocks, prev_correct) :=
      (if decide (pi_state it = ITERATE_STATE_FORWARD)
       then log_index_page_iterate_push_lsn it blocks d item_id prev_correct else Done (it, blocks, prev_correct)) in
    Done (set_top_blocks it blocks).

Definition log_index_push_tbl_lsn (it : log_index_page_iter_data_t) (d : log_idx_table_data_t)
  : outcome log_index_page_iter_data_t :=
  let! item_id := log_index_tbl_find (pi_tag it) d (pi_key it) in
  if item_id =? LOG_INDEX_TBL_INVALID_SEG then Done it
  else
    let! item := get_head d item_id in
    let min_lsn := LOG_INDEX_SEG_MIN_LSN d (ih_suffix_lsn item) in
    let! max_lsn := log_index_item_max_lsn d item in
    let iter_prev := match pi_lsn_stack it with
                     | ts :: _ => if negb (ts_prev_page_lsn ts =? InvalidXLogRecPtr) then ts_prev_page_lsn ts
                                  else pi_iter_prev_lsn it
                     | [] => pi_iter_prev_lsn it
                     end in
    let it := mk_page_iter (pi_tag it) (pi_min_lsn it) (pi_max_lsn it) iter_prev (pi_iter_max_lsn it)
                (pi_max_idx_table_id it) (pi_lsn_stack it) (pi_key it) (pi_state it) in
    if min_lsn >? pi_max_lsn it then Done it
    else if max_lsn <? pi_min_lsn it then Done (set_iter_state it ITERATE_STATE_FINISHED)
    else
      let! it := log_index_iterate_table_data it d item_id in
      Done (mk_page_iter (pi_tag it) (pi_min_lsn it) (pi_max_lsn it) (pi_iter_prev_lsn it) (u64 (max_lsn + 1))
              (pi_max_idx_table_id it) (pi_lsn_stack it) (pi_key it) (pi_state it)).

(** ** Searching the memory tables *)

Definition log_index_table_in_range (it : log_index_page_iter_data_t) (t : log_mem_table_t)
  : log_index_page_iter_data_t * bool :=
  if lt_state t =? LOG_INDEX_MEM_TBL_STATE_ACTIVE then (it, true)
  else if td_min_lsn (lt_data t) >? pi_max_lsn it then (it, false)
  else if td_max_lsn (lt_data t) <? pi_min_lsn it then (set_iter_state it ITERATE_STATE_FINISHED, false)
  else (it, true).

(** The loop from table id [tid] downwards; the ids go down at each round,
    so there are at most as many as [tid]. *)
Fixpoint push_mem_tbl_loop (fuel : nat) (s : log_index_snapshot_t) (it : log_index_page_iter_data_t) (tid mid : Z)
  : outcome (log_index_page_iter_data_t * Z) :=
  match fuel with
  | O => Fault OUT_OF_FUEL
  | S n =>
    let t := LOG_INDEX_MEM_TBL s mid in
    if negb (tid =? LOG_INDEX_TABLE_INVALID_ID) && (tid =? LOG_INDEX_MEM_TBL_TID t)
       && negb (lt_state t =? LOG_INDEX_MEM_TBL_STATE_FREE) then
      let '(it, in_range) := log_index_table_in_range it t in
      let! it := (if in_range then log_index_push_tbl_lsn it (lt_data t) else Done it) in
      if decide (pi_state it = ITERATE_STATE_FORWARD)
      then push_mem_tbl_loop n s it (tid - 1) (LOG_INDEX_MEM_TBL_PREV_ID s mid)
      else Done (it, tid - 1)
    else Done (it, tid)
  end.

Definition log_index_push_mem_tbl_lsn (s : log_index_snapshot_t) (it : log_index_page_iter_data_t)
  : outcome (log_index_page_iter_data_t * Z) :=
  let tid := pi_max_idx_table_id it in
  let mid := (u64 (tid - 1)) mod mem_tbl_size s in
  let! (it, tid) := push_mem_tbl_loop (S (Z.to_nat tid)) s it tid mid in
  Done (if tid =? LOG_INDEX_TABLE_INVALID_ID then set_iter_state it ITERATE_STATE_FINISHED else it, tid).
