(* ===== verification/LogIndexFile.v ===== *)
(** * Page iterators over saved tables (polar_logindex.c, polar_logindex_iterator.c)

    Tables that are no longer in memory are read from storage, a segment
    of 64 tables at a time, through a cache of one segment; the Bloom data
    tells whether a table can have entries of the page.  A page iterator
    collects from the memory tables first and then from the saved ones.

    A table lock is only tried for: [try_lock tid k] tells whether attempt
    [k] of the round for table [tid] gets it.  The cache is the process's
    own variable; [dir] names the directory of the snapshot. *)

From S2P Require Import Prelude BufTag Bloom LogIndexTable LogIndexBloom LogIndexSnapshot LogIndexIter.

Record log_table_cache_t := mk_cache {
  tc_name : list Z;
  tc_min_idx_table_id : Z;
  tc_max_idx_table_id : Z;
  tc_data : list log_idx_table_data_t
}.

(** The tables of a segment file from table [tid] on, up to its end. *)
Fixpoint seg_file (n : nat) (storage : gmap Z log_idx_table_data_t) (tid : Z) : list log_idx_table_data_t :=
  match n with
  | O => []
  | S n => match storage !! tid with Some d => d :: seg_file n storage (tid + 1) | None => [] end
  end.

(** The loop from the last table of the file back. *)
Fixpoint max_saved (tables : list log_idx_table_data_t) (min_id max_id : Z) : Z :=
  match tables with
  | [] => LOG_INDEX_TABLE_INVALID_ID
  | d :: rest => if (td_idx_table_id d >=? min_id) && (td_idx_table_id d <=? max_id) then td_idx_table_id d
                 else max_saved rest min_id max_id
  end.

Definition log_index_read_seg_file (s : log_index_snapshot_t) (cache : log_table_cache_t) (segno : Z) : log_table_cache_t * bool :=
  let meta := ls_meta s in
  let min_id := segno * LOG_INDEX_TABLE_NUM_PER_FILE + 1 in
  let data := seg_file (Z.to_nat LOG_INDEX_TABLE_NUM_PER_FILE) (ls_storage s) min_id in
  match data with
  | [] => (mk_cache (tc_name cache) LOG_INDEX_TABLE_INVALID_ID LOG_INDEX_TABLE_INVALID_ID (tc_data cache), false)
  | first :: _ =>
    if negb (td_idx_table_id first =? min_id) || (min_id >? me_max_idx_table_id meta)
    then (mk_cache (tc_name cache) LOG_INDEX_TABLE_INVALID_ID LOG_INDEX_TABLE_INVALID_ID data, false)
    else (mk_cache (tc_name cache) min_id (max_saved (rev data) min_id (me_max_idx_table_id meta)) data, true)
  end.

Section file.
Context `{env : log_index_env} (try_lock : Z -> Z -> bool) (dir : list Z).

(** [log_index_report_io_error] does not return. *)
Definition log_index_read_table (s : log_index_snapshot_t) (cache : log_table_cache_t) (tid : Z)
  : outcome (log_index_snapshot_t * log_table_cache_t * log_idx_table_data_t) :=
  let mid := u64 (tid - 1) mod mem_tbl_size s in
  let t := LOG_INDEX_MEM_TBL s mid in
  if try_lock tid 1 && (lt_state t =? LOG_INDEX_MEM_TBL_STATE_FLUSHED) && (tid =? LOG_INDEX_MEM_TBL_TID t) then
    Done (s, cache, lt_data t)
  else
    let! cache :=
      (if negb (bool_decide (tc_name cache = dir)) || (tid <? tc_min_idx_table_id cache) || (tid >? tc_max_idx_table_id cache) then
         let '(cache, ok) := log_index_read_seg_file s cache (LOG_INDEX_FILE_TABLE_SEGMENT_NO tid) in
         if negb ok then Fault FATAL
         else Done (mk_cache dir (tc_min_idx_table_id cache) (tc_max_idx_table_id cache) (tc_data cache))
       else Done cache) in
    if (tid <? tc_min_idx_table_id cache) || (tid >? tc_max_idx_table_id cache) then Fault PANIC
    else
      let data := aget zero_data (tc_data cache) (tid - tc_min_idx_table_id cache) in
      let s := if try_lock tid 2 && (lt_state t =? LOG_INDEX_MEM_TBL_STATE_FLUSHED) && negb (tid =? LOG_INDEX_MEM_TBL_TID t)
               then set_table s mid (mk_mem_table (lt_free_head t) (lt_state t) data) else s in
      Done (s, cache, data).

(** The meta data copied for the search, and whether there is a gap. *)
Definition log_index_check_hollow_table (s : log_index_snapshot_t) (it : log_index_page_iter_data_t) (tid : Z)
  : log_index_snapshot_t * log_index_page_iter_data_t * log_index_meta_t * bool :=
  let s := if me_max_idx_table_id (ls_meta s) <? tid then
             mk_snapshot (ls_max_lsn s) (ls_state s) (ls_active_table s) (ls_max_idx_table_id s) (ls_promoted_info s)
               (ls_storage_meta s) (ls_mem_table s) (ls_storage s) (ls_storage_meta s) (ls_bloom s)
           else s in
  let meta := ls_meta s in
  let it := if me_max_idx_table_id meta <? tid then set_iter_state it ITERATE_STATE_HOLLOW else it in
  (s, it, meta, bool_decide (pi_state it = ITERATE_STATE_HOLLOW)).

(** A page of zeros. *)
Definition zero_bloom : log_file_table_bloom_t := mk_tbl_bloom 0 0 0 0 [].

Definition log_index_check_bloom_not_exists (s : log_index_snapshot_t) (it : log_index_page_iter_data_t) (tid : Z)
  : outcome (log_index_page_iter_data_t * bool) :=
  let bloom := default zero_bloom (ls_bloom s !! tid) in
  if negb (tid =? bt_idx_table_id bloom) then Fault PANIC
  else if bt_max_lsn bloom <? pi_min_lsn it then Done (set_iter_state it ITERATE_STATE_FINISHED, false)
  else Done (it, bloom_lacks_element hash_any_extended (tbl_filter bloom_rint bloom) (tag_bytes (pi_tag it))).

(** The loop over the saved tables, downwards. *)
Fixpoint push_file_loop (fuel : nat) (s : log_index_snapshot_t) (cache : log_table_cache_t) (it : log_index_page_iter_data_t)
    (min_id tid : Z) : outcome (log_index_snapshot_t * log_table_cache_t * log_index_page_iter_data_t) :=
  match fuel with
  | O => Fault OUT_OF_FUEL
  | S n =>
    if negb (tid =? LOG_INDEX_TABLE_INVALID_ID) && (tid >=? min_id) && bool_decide (pi_state it = ITERATE_STATE_FORWARD) then
      let t := LOG_INDEX_MEM_TBL s ((tid - 1) mod mem_tbl_size s) in
      let! (s, cache, it) :=
        (if try_lock tid 0 && (lt_state t =? LOG_INDEX_MEM_TBL_STATE_FLUSHED) && (tid =? LOG_INDEX_MEM_TBL_TID t) then
           let! it := log_index_push_tbl_lsn it (lt_data t) in Done (s, cache, it)
         else
           let! (it, not_exists) := log_index_check_bloom_not_exists s it tid in
           if negb not_exists && bool_decide (pi_state it = ITERATE_STATE_FORWARD) then
             let! (s, cache, table) := log_index_read_table s cache tid in
             let! it := log_index_push_tbl_lsn it table in
             Done (s, cache, it)
           else Done (s, cache, it)) in
      push_file_loop n s cache it min_id (tid - 1)
    else Done (s, cache, it)
  end.

Definition log_index_push_file_tbl_lsn (s : log_index_snapshot_t) (cache : log_table_cache_t) (it : log_index_page_iter_data_t) (tid : Z)
  : outcome (log_index_snapshot_t * log_table_cache_t * log_index_page_iter_data_t) :=
  let '(s, it, meta, hollow) := log_index_check_hollow_table s it tid in
  if hollow then Fault ERROR
  else push_file_loop (S (Z.to_nat tid)) s cache it (fs_min_idx_table_id (me_min_segment_info meta)) tid.

Context (tag_hash : BufferTag -> Z).

Definition polar_logindex_create_page_iterator (s : log_index_snapshot_t) (cache : log_table_cache_t) (tag : BufferTag)
    (min_lsn max_lsn : Z) (before_promote : bool)
  : outcome (log_index_snapshot_t * log_table_cache_t * log_index_page_iter_data_t) :=
  if before_promote && (max_lsn >=? pr_old_rw_max_inserted_lsn (ls_promoted_info s)) then Fault PANIC
  else
    let max_idx_table_id := if before_promote then pr_old_rw_max_tid (ls_promoted_info s) else ls_max_idx_table_id s in
    let it := mk_page_iter tag min_lsn max_lsn InvalidXLogRecPtr max_lsn max_idx_table_id [] (LOG_INDEX_MEM_TBL_HASH_PAGE tag_hash tag)
                ITERATE_STATE_FORWARD in
    let! (it, tid) := log_index_push_mem_tbl_lsn s it in
    if bool_decide (pi_state it = ITERATE_STATE_FORWARD) then
      let! (s, cache, it) := log_index_push_file_tbl_lsn s cache it tid in
      Done (s, cache, set_iter_state it ITERATE_STATE_FINISHED)
    else Done (s, cache, it).
End file.
