(* ===== verification/LogIndexReplay.v ===== *)
(** * What the page iterator returns

    The stack of blocks behaves like a list, collecting a page of a table
    is a scan of its entries from the newest to the oldest, and popping
    gives back the entries in the range of LSNs from the oldest on, each
    with the LSN before it. *)

From S2P Require Import Prelude BufTag LogIndexTable LogIndexRepr LogIndexInsert LogIndexSnapshot LogIndexTheorems LogIndexIter.

(** ** The stack as a list *)

(** What popping gives from position [k] of a block on. *)
Fixpoint pops_from (b : log_index_page_lsn_t) (k : nat) : list (Z * Z) :=
  match k with
  | O => []
  | S n => (aget 0 (pl_lsn b) (Z.of_nat n),
            if Z.of_nat k =? pl_item_size b then pl_prev_lsn b else aget 0 (pl_lsn b) (Z.of_nat k)) :: pops_from b n
  end.

Definition stack_pops (bs : list log_index_page_lsn_t) : list (Z * Z) :=
  concat (map (fun b => pops_from b (Z.to_nat (pl_iter_pos b))) bs).

Definition block_wf (b : log_index_page_lsn_t) : Prop :=
  1 <= pl_iter_pos b <= pl_item_size b /\ pl_item_size b <= LOG_INDEX_PAGE_STACK_ITEM_SIZE /\ length (pl_lsn b) = 64%nat.

(** Nothing was popped from the block yet. *)
Definition untouched (b : log_index_page_lsn_t) : Prop := block_wf b /\ pl_iter_pos b = pl_item_size b.

(** Values below the position do not depend on what is written above. *)
Lemma pops_from_ext b b' k :
  (forall i, 0 <= i < Z.of_nat k -> aget 0 (pl_lsn b') i = aget 0 (pl_lsn b) i) ->
  (forall j, (1 <= j <= k)%nat ->
     (if Z.of_nat j =? pl_item_size b' then pl_prev_lsn b' else aget 0 (pl_lsn b') (Z.of_nat j)) =
     (if Z.of_nat j =? pl_item_size b then pl_prev_lsn b else aget 0 (pl_lsn b) (Z.of_nat j))) ->
  pops_from b' k = pops_from b k.
Proof.
  intros H1 H2. induction k as [|k IH]; [done|]. cbn [pops_from]. f_equal.
  - f_equal; [apply H1; lia|apply H2; lia].
  - apply IH; [intros i Hi; apply H1; lia|intros j Hj; apply H2; lia].
Qed.

Lemma pop_spec bs :
  Forall block_wf bs ->
  exists bs', log_index_tbl_stack_pop_lsn bs = (bs', head (stack_pops bs)) /\
    stack_pops bs' = tail (stack_pops bs) /\ Forall block_wf bs'.
Proof.
  intros Hwf. destruct bs as [|b bs]; [by exists []|]. apply Forall_cons in Hwf as [(Hp & Hs & Hl) Hwf].
  unfold LOG_INDEX_PAGE_STACK_ITEM_SIZE in Hs. unfold log_index_tbl_stack_pop_lsn, stack_pops. cbn [map concat].
  destruct (Z.to_nat (pl_iter_pos b)) as [|k] eqn:Ek; [lia|]. assert (pl_iter_pos b = Z.of_nat (S k)) as Epos by lia.
  cbn [pops_from app head tail]. rewrite Epos. rewrite u8_small by lia.
  assert (u16 (Z.of_nat (S k) - 1) = Z.of_nat k) as -> by (unfold u16; rewrite wrap_small; lia).
  replace (Z.of_nat (S k) - 1) with (Z.of_nat k) by lia. replace (Z.of_nat k + 1) with (Z.of_nat (S k)) by lia.
  eexists. split; [reflexivity|]. destruct (Z.of_nat k =? 0) eqn:E0; zbool.
  - replace k with 0%nat by lia. by split.
  - cbn [map concat pl_iter_pos]. rewrite Nat2Z.id.
    split; [f_equal; by apply pops_from_ext|]. apply Forall_cons. split; [|done].
    split_and!; cbn [pl_iter_pos pl_item_size pl_lsn]; unfold LOG_INDEX_PAGE_STACK_ITEM_SIZE; lia || done.
Qed.

(** Pushing [l] with the LSN before it; what was on top must have [l]
    before it. *)
Lemma push_spec bs l p :
  Forall untouched bs -> (forall x, head (stack_pops bs) = Some x -> x.2 = l) ->
  let '(st, idx) := log_index_tbl_stack_next_item bs in
  stack_pops (stack_write st idx l p) = (l, p) :: stack_pops bs /\ Forall untouched (stack_write st idx l p).
Proof.
  intros Hwf Htop.
  assert (forall b rest, pl_item_size b < 64 -> pl_iter_pos b = pl_item_size b ->
    length (pl_lsn b) = 64%nat -> Forall untouched rest ->
    (0 < pl_item_size b -> pl_prev_lsn b = l) ->
    0 <= pl_item_size b ->
    let size := u16 (pl_item_size b + 1) in
    let b' := mk_page_lsn size size (aset (pl_lsn b) (pl_item_size b) l) p in
    stack_pops (b' :: rest) = (l, p) :: pops_from b (Z.to_nat (pl_item_size b)) ++ stack_pops rest /\
    Forall untouched (b' :: rest)) as Hkey.
  { intros b rest Hlt Hpos Hlen Hrest Hprev H0. cbv zeta.
    assert (u16 (pl_item_size b + 1) = pl_item_size b + 1) as -> by (unfold u16; rewrite wrap_small; lia).
    split.
    - unfold stack_pops at 1. cbn [map concat pl_iter_pos].
      replace (Z.to_nat (pl_item_size b + 1)) with (S (Z.to_nat (pl_item_size b))) by lia. cbn [pops_from app pl_lsn pl_item_size pl_prev_lsn].
      rewrite Z2Nat.id by lia. rewrite aget_aset_eq by lia.
      replace (Z.of_nat (S (Z.to_nat (pl_item_size b)))) with (pl_item_size b + 1) by lia. rewrite Z.eqb_refl. f_equal.
      fold (stack_pops rest). f_equal. apply pops_from_ext; cbn [pl_lsn pl_item_size pl_prev_lsn].
      + intros i Hi. apply aget_aset_ne. lia.
      + intros j Hj. destruct (Z.of_nat j =? pl_item_size b + 1) eqn:E1; zbool; [lia|].
        destruct (Z.of_nat j =? pl_item_size b) eqn:E2; zbool.
        * rewrite E2, aget_aset_eq by lia. symmetry. apply Hprev. lia.
        * apply aget_aset_ne. lia.
    - apply Forall_cons. split; [|done]. split; [|done]. unfold block_wf, LOG_INDEX_PAGE_STACK_ITEM_SIZE.
      cbn [pl_iter_pos pl_item_size pl_lsn]. rewrite length_aset. split_and!; (done || lia). }
  unfold log_index_tbl_stack_next_item. destruct bs as [|b bs].
  - by apply (Hkey zero_page_lsn []).
  - apply Forall_cons in Hwf as [[Hb Hpos] Hwf]. destruct (Hb) as (Hp & Hs & Hl). unfold LOG_INDEX_PAGE_STACK_ITEM_SIZE in *.
    destruct (pl_item_size b =? 64) eqn:E; zbool.
    + apply (Hkey zero_page_lsn (b :: bs)); try done. by apply Forall_cons.
    + unfold stack_pops. cbn [map concat]. rewrite Hpos. apply (Hkey b bs); try done; [lia| |lia].
      intros _. apply (Htop (aget 0 (pl_lsn b) (pl_item_size b - 1), pl_prev_lsn b)).
      unfold stack_pops. cbn [map concat]. rewrite Hpos. destruct (Z.to_nat (pl_item_size b)) as [|k] eqn:Ek; [lia|].
      cbn [pops_from app head]. replace (Z.of_nat (S k)) with (pl_item_size b) by lia. rewrite Z.eqb_refl. do 3 f_equal. lia.
Qed.

(** ** Collecting as a scan *)

(** The entries of a chain of LSNs, each with the one before it. *)
Definition chain_entries (prev : Z) (ls : list Z) : list (Z * Z) := zip ls (prev :: ls).

Lemma chain_entries_app prev a b :
  chain_entries prev (a ++ b) = chain_entries prev a ++ chain_entries (default prev (list.last a)) b.
Proof.
  revert prev. induction a as [|x a IH]; intros prev; [done|]. cbn [app chain_entries zip_with].
  change (zip (a ++ b) (x :: a ++ b)) with (chain_entries x (a ++ b)). rewrite IH. unfold chain_entries at 1 3. cbn [zip_with app].
  rewrite last_cons. by destruct (list.last a).
Qed.

Lemma chain_entries_lsn prev ls : map fst (chain_entries prev ls) = ls.
Proof. unfold chain_entries. apply fst_zip. simpl. lia. Qed.

(** The body of the loop, over entries from the newest on. *)
Fixpoint scan (es : list (Z * Z)) (it : log_index_page_iter_data_t) (stack : list log_index_page_lsn_t) (prev_correct : bool)
  : outcome (log_index_page_iter_data_t * list log_index_page_lsn_t * bool) :=
  match es with
  | [] => Done (it, stack, prev_correct)
  | (l, prev_lsn) :: es =>
    let prev_correct := if negb prev_correct && (l =? pi_iter_prev_lsn it) then true else prev_correct in
    if (l >=? pi_min_lsn it) && (l <=? pi_iter_max_lsn it) then
      if negb prev_correct then Fault ERROR
      else
        let '(stack, stack_idx) := log_index_tbl_stack_next_item stack in
        let stack := stack_write stack stack_idx l prev_lsn in
        if l =? pi_min_lsn it then Done (set_iter_state it ITERATE_STATE_FINISHED, stack, prev_correct)
        else scan es it stack prev_correct
    else if l <? pi_min_lsn it then
      if negb prev_correct then Fault ERROR
      else Done (set_iter_state it ITERATE_STATE_FINISHED, stack, prev_correct)
    else scan es it stack prev_correct
  end.

(** The iteration of one part after another. *)
Definition then_scan (r : outcome (log_index_page_iter_data_t * list log_index_page_lsn_t * bool)) (es : list (Z * Z)) :=
  let! (it, stack, prev_correct) := r in
  if decide (pi_state it = ITERATE_STATE_FORWARD) then scan es it stack prev_correct else Done (it, stack, prev_correct).

Lemma scan_app a b it stack pc :
  pi_state it = ITERATE_STATE_FORWARD -> scan (a ++ b) it stack pc = then_scan (scan a it stack pc) b.
Proof.
  intros Hst. unfold then_scan. revert stack pc. induction a as [|[l p] a IH]; intros stack pc.
  { cbn [app scan obind]. by rewrite decide_True. }
  cbn [app scan]. set (pc' := if negb pc && (l =? pi_iter_prev_lsn it) then true else pc).
  destruct ((l >=? pi_min_lsn it) && (l <=? pi_iter_max_lsn it)).
  - destruct (negb pc'); [done|]. destruct (log_index_tbl_stack_next_item stack) as [st idx].
    destruct (l =? pi_min_lsn it); [cbn [obind]; by rewrite decide_False|apply IH].
  - destruct (l <? pi_min_lsn it); [|apply IH]. destruct (negb pc'); [done|]. cbn [obind]. by rewrite decide_False.
Qed.

Lemma push_lsn_loop_scan n it stack d seg_id sfx pc (es : list (Z * Z)) :
  (n <= length es)%nat ->
  (forall i l p, (i < n)%nat -> es !! i = Some (l, p) ->
     l = LOG_INDEX_COMBINE_LSN d (aget 0 sfx (Z.of_nat i)) /\ log_index_get_seg_prev_lsn d seg_id (Z.of_nat i) = Done p) ->
  push_lsn_loop n it stack d seg_id sfx pc = scan (rev (take n es)) it stack pc.
Proof.
  revert stack pc. induction n as [|n IH]; intros stack pc Hn Hes; [done|].
  assert (is_Some (es !! n)) as [[l p] He] by (apply lookup_lt_is_Some; lia).
  rewrite (take_S_r _ _ _ He), rev_app_distr. cbn [rev app scan push_lsn_loop].
  destruct (Hes n l p ltac:(lia) He) as [<- ->].
  assert (forall st b, push_lsn_loop n it st d seg_id sfx b = scan (rev (take n es)) it st b) as HI
    by (intros; apply IH; [lia|intros i l' p' Hi; apply Hes; lia]).
  destruct (log_index_tbl_stack_next_item stack) as [st idx]. cbn [obind]. by rewrite !HI.
Qed.

Lemma chain_entries_lookup prev ls i l p :
  chain_entries prev ls !! i = Some (l, p) ->
  ls !! i = Some l /\ p = match i with O => prev | S j => default 0 (ls !! j) end.
Proof.
  intros H. apply lookup_zip_with_Some in H as (x & y & [= -> ->] & Hx & Hy). split; [done|].
  destruct i as [|j]; simpl in Hy; [congruence|]. by rewrite Hy.
Qed.

Lemma length_chain_entries prev ls : length (chain_entries prev ls) = length ls.
Proof. unfold chain_entries. rewrite length_zip. simpl. lia. Qed.

Section table.
Context (hash : BufferTag -> Z) (Hhash : forall tag, 0 <= hash tag < LOG_INDEX_MEM_TBL_HASH_NUM).
Context (d : log_idx_table_data_t) (free : Z) (A : list (list apage)) (Q : list (Z * nat)) (L : list log_index_lsn_t).
Context (HR : table_repr hash d free A Q L).
Notation C := (LOG_INDEX_COMBINE_LSN d).

(** The entries of a page in its first [m] blocks. *)
Definition blocks_entries (p : apage) (m : nat) : list (Z * Z) :=
  chain_entries (ap_prev p) (map C (concat (map snd (take m (page_blocks p))))).

Lemma blocks_entries_S p m s ls :
  p ∈ concat A -> page_blocks p !! m = Some (s, ls) ->
  blocks_entries p (S m) = blocks_entries p m ++ chain_entries (prev_in_blocks d p m 0 ls) (map C ls).
Proof.
  intros Hp Hm. unfold blocks_entries. rewrite (take_S_r _ _ _ Hm), map_app, concat_app, map_app.
  cbn [map concat snd]. rewrite app_nil_r, chain_entries_app. do 2 f_equal. destruct m as [|m]; [done|].
  assert (is_Some (page_blocks p !! m)) as [[s0 ls0] Hm0].
  { apply lookup_lt_is_Some. apply lookup_lt_Some in Hm. lia. }
  pose proof (block_nonempty _ _ _ _ _ _ HR p m s0 ls0 Hp Hm0) as Hne.
  unfold prev_in_blocks. rewrite Hm0. rewrite (take_S_r _ _ _ Hm0), map_app, concat_app. cbn [map concat snd].
  rewrite app_nil_r, fmap_last, last_app. destruct (list.last ls0) as [x|] eqn:El.
  { simpl. by rewrite El. }
  by apply last_None in El.
Qed.

(** Pushing one block of a page. *)
Lemma push_block p m s ls it stack pc :
  p ∈ concat A -> page_blocks p !! m = Some (s, ls) ->
  log_index_page_iterate_push_lsn it stack d s pc = scan (rev (chain_entries (prev_in_blocks d p m 0 ls) (map C ls))) it stack pc.
Proof.
  intros Hp Hm. unfold log_index_page_iterate_push_lsn. set (es := chain_entries _ _).
  assert (length es = length ls) as Hlen by (unfold es; by rewrite length_chain_entries, length_map).
  assert (forall i l q, es !! i = Some (l, q) -> (exists x, ls !! i = Some x /\ l = C x) /\
            log_index_get_seg_prev_lsn d s (Z.of_nat i) = Done q) as Hes.
  { intros i l q H. apply chain_entries_lookup in H as [H1 ->]. apply list_lookup_fmap_Some in H1 as (x & -> & Hx).
    split; [by exists x|]. rewrite (get_seg_prev_lsn_spec _ _ _ _ _ _ HR p m i s ls Hp Hm) by (by eapply lookup_lt_Some).
    destruct i as [|j]; [done|]. unfold prev_in_blocks. rewrite list_lookup_fmap. do 2 f_equal.
    assert (is_Some (ls !! j)) as [y Hy] by (apply lookup_lt_is_Some; apply lookup_lt_Some in Hx; lia).
    by rewrite Hy. }
  destruct (head_block _ _ _ _ _ _ HR p Hp) as (nxt & sfx & Hgh & [Hsl Hst] & Hseg & Hhs). destruct m as [|m].
  - injection Hm as <- <-. rewrite Hseg. cbn [obind deref]. rewrite Hhs, Z.eqb_refl, Hgh. cbn [obind ih_number ih_suffix_lsn].
    rewrite Nat2Z.id. rewrite (push_lsn_loop_scan _ _ _ _ _ _ _ es); [by rewrite <- Hlen, firstn_all|lia|].
    intros i l q _ H. destruct (Hes i l q H) as [(x & Hx & ->) ->]. by rewrite (take_aget _ _ _ _ Hst Hx).
  - change (ap_segs p !! m = Some (s, ls)) in Hm.
    destruct (seg_block _ _ _ _ _ _ HR p m s ls Hp Hm) as (nx & sf & Hat & [Hl Ht] & His & Hne & _).
    rewrite His. cbn [obind deref]. rewrite Hat. cbn [seg_head_seg is_head_seg as_seg obind is_number is_suffix_lsn].
    destruct (ap_id p =? s) eqn:E; zbool; [congruence|]. rewrite Nat2Z.id.
    rewrite (push_lsn_loop_scan _ _ _ _ _ _ _ es); [by rewrite <- Hlen, firstn_all|lia|].
    intros i l q _ H. destruct (Hes i l q H) as [(x & Hx & ->) ->]. by rewrite (take_aget _ _ _ _ Ht Hx).
Qed.

(** Both loops of [log_index_iterate_table_data]. *)
Lemma iterate_segs_scan p fuel m s ls it stack pc :
  p ∈ concat A -> page_blocks p !! m = Some (s, ls) -> (m < fuel)%nat -> pi_state it = ITERATE_STATE_FORWARD ->
  (let! (it, blocks, prev_correct, item_id) := iterate_segs fuel it stack d (ap_id p) s pc in
   if decide (pi_state it = ITERATE_STATE_FORWARD)
   then log_index_page_iterate_push_lsn it blocks d item_id prev_correct else Done (it, blocks, prev_correct)) =
  scan (rev (blocks_entries p (S m))) it stack pc.
Proof.
  intros Hp. revert m s ls it stack pc. induction fuel as [|fuel IH]; intros m s ls it stack pc Hm Hf Hst; [lia|].
  cbn [iterate_segs]. destruct m as [|m].
  - injection Hm as <- <-. destruct (head_block _ _ _ _ _ _ HR p Hp) as (nxt & sfx & _ & _ & Hseg & _).
    rewrite Hseg. cbn [obind]. rewrite Z.eqb_refl. cbn [obind]. rewrite decide_True by done.
    rewrite (push_block p 0 (ap_id p) (ap_first p)) by done. rewrite (blocks_entries_S p 0 (ap_id p) (ap_first p)) by done. done.
  - pose proof Hm as Hm'. change (ap_segs p !! m = Some (s, ls)) in Hm'.
    destruct (seg_block _ _ _ _ _ _ HR p m s ls Hp Hm') as (nx & sf & Hat & _ & His & Hne & _).
    assert (is_Some (page_blocks p !! m)) as [[s0 ls0] Hm0].
    { apply lookup_lt_is_Some. apply lookup_lt_Some in Hm. lia. }
    rewrite His. cbn [obind]. destruct (s =? ap_id p) eqn:E; zbool; [done|]. rewrite Hat. cbn [as_seg obind is_number is_prev_seg].
    pose proof (block_nonempty _ _ _ _ _ _ HR p (S m) s ls Hp Hm) as Hls.
    destruct (Z.of_nat (length ls) <=? 0) eqn:El; zbool; [by destruct ls; simpl in *; [|lia]|].
    rewrite (push_block p (S m) s ls) by done. rewrite (blocks_entries_S p (S m) s ls Hp Hm), rev_app_distr, scan_app by done.
    unfold then_scan. destruct (scan _ it stack pc) as [[[it' st'] pc']|f]; [|done]. cbn [obind].
    destruct (decide (pi_state it' = ITERATE_STATE_FORWARD)) as [Hs|Hs].
    + rewrite Hm0. simpl default. unfold id. rewrite (IH m s0 ls0) by (done || lia). done.
    + cbn [obind]. by rewrite decide_False.
Qed.
End table.

(** ** The result of a scan *)

Definition in_range (lo hi : Z) (e : Z * Z) : Prop := lo <= e.1 <= hi.

#[export] Instance in_range_dec lo hi e : Decision (in_range lo hi e).
Proof. unfold in_range. apply _. Defined.

Lemma increasing_snoc (ls : list Z) x :
  StronglySorted Z.lt (ls ++ [x]) -> StronglySorted Z.lt ls /\ forall y, y ∈ ls -> y < x.
Proof.
  induction ls as [|a ls IH]; intros H; [split; [constructor|intros y Hy; by apply not_elem_of_nil in Hy]|].
  cbn [app] in H. apply StronglySorted_inv in H as [H1 H2]. apply Forall_app in H2 as [H2 H3].
  apply Forall_cons in H3 as [H3 _]. destruct (IH H1) as [H4 H5]. split; [by constructor|].
  intros y [->|Hy]%elem_of_cons; [done|by apply H5].
Qed.

Lemma filter_chain_below prev ls lo hi :
  (forall y, y ∈ ls -> y < lo) -> filter (in_range lo hi) (chain_entries prev ls) = [].
Proof.
  intros H. apply filter_none. intros [l p] He [H1 _]. simpl in H1.
  assert (l ∈ ls) as Hl. { rewrite <- (chain_entries_lsn prev ls). by apply (list_elem_of_fmap_2 fst) in He. }
  specialize (H l Hl). lia.
Qed.

(** Some entry is at or below the lower end of the range. *)
Definition reaches (lo : Z) (ls : list Z) : bool := existsb (fun l => l <=? lo) ls.

Lemma reaches_snoc lo ls x : reaches lo (ls ++ [x]) = reaches lo ls || (x <=? lo).
Proof. unfold reaches. rewrite existsb_app. simpl. by rewrite orb_false_r. Qed.

Lemma reaches_below lo ls x : (forall y, y ∈ ls -> y < x) -> x <= lo -> reaches lo (ls ++ [x]) = true.
Proof. intros _ H. rewrite reaches_snoc. apply orb_true_iff. right. by apply Z.leb_le. Qed.

Definition finished_if (b : bool) (it : log_index_page_iter_data_t) : log_index_page_iter_data_t :=
  if b then set_iter_state it ITERATE_STATE_FINISHED else it.

(** Scanning the entries of a chain of increasing LSNs pushes the ones in
    range, and finishes when it meets the lower end.  The newest entry must
    be the one the iterator expects, and link to what is on the stack. *)
Lemma scan_chain prev ls it st pc :
  StronglySorted Z.lt ls -> Forall untouched st -> pi_min_lsn it <= pi_iter_max_lsn it ->
  (forall x, head (stack_pops st) = Some x -> forall l, list.last ls = Some l -> x.2 = l /\ l <= pi_iter_max_lsn it) ->
  (forall l, list.last ls = Some l -> pc = true \/ l = pi_iter_prev_lsn it) ->
  exists st' pc', scan (rev (chain_entries prev ls)) it st pc = Done (finished_if (reaches (pi_min_lsn it) ls) it, st', pc') /\
    stack_pops st' = filter (in_range (pi_min_lsn it) (pi_iter_max_lsn it)) (chain_entries prev ls) ++ stack_pops st /\
    Forall untouched st'.
Proof.
  revert st pc. induction ls as [|x ls IH] using rev_ind; intros st pc Hs Hst Hmm Htop Hpc; [by exists st, pc|].
  apply increasing_snoc in Hs as [Hs Hlt]. rewrite chain_entries_app, rev_app_distr. cbn [chain_entries zip_with rev app scan].
  set (p := default prev (list.last ls)). rewrite last_snoc in Htop, Hpc.
  assert ((if negb pc && (x =? pi_iter_prev_lsn it) then true else pc) = true) as ->.
  { destruct (Hpc x eq_refl) as [-> | ->]; [done|]. rewrite Z.eqb_refl. by destruct pc. }
  cbn [negb]. rewrite filter_app, reaches_snoc.
  assert (forall l, list.last ls = Some l -> l < x) as Hlast by (intros l Hl; apply Hlt; by apply last_Some_elem_of).
  destruct (x >=? pi_min_lsn it) eqn:E1, (x <=? pi_iter_max_lsn it) eqn:E2; cbn [andb]; zbool.
  - pose proof (push_spec st x p Hst (fun y Hy => proj1 (Htop y Hy x eq_refl))) as Hpush.
    destruct (log_index_tbl_stack_next_item st) as [st1 idx]. destruct Hpush as [Hp1 Hp2].
    rewrite filter_cons_True by (split; simpl; lia). rewrite filter_nil, <- app_assoc. cbn [app]. rewrite <- Hp1.
    destruct (x =? pi_min_lsn it) eqn:E3; zbool.
    + eexists _, true. split_and!; [|by rewrite filter_chain_below by (intros y Hy; specialize (Hlt y Hy); lia)|done].
      rewrite (proj2 (Z.leb_le _ _)) by lia. by rewrite orb_true_r.
    + rewrite (proj2 (Z.leb_gt _ _)) by lia. rewrite orb_false_r. apply IH; [done|done|done| |by auto].
      intros y Hy l Hl. rewrite Hp1 in Hy. injection Hy as <-. cbn [snd]. unfold p. rewrite Hl. specialize (Hlast l Hl). simpl. lia.
  - destruct (x <? pi_min_lsn it) eqn:E4; zbool; [lia|]. rewrite filter_cons_False by (intros [? ?]; simpl in *; lia).
    rewrite filter_nil, app_nil_r. rewrite (proj2 (Z.leb_gt _ _)) by lia.
    rewrite orb_false_r. apply IH; [done|done|done| |by auto]. intros y Hy l Hl. specialize (Htop y Hy x eq_refl). lia.
  - destruct (x <? pi_min_lsn it) eqn:E4; zbool; [|lia]. rewrite filter_cons_False by (intros [? ?]; simpl in *; lia).
    rewrite filter_nil, app_nil_r, filter_chain_below by (intros y Hy; specialize (Hlt y Hy); lia).
    rewrite (proj2 (Z.leb_le _ _)), orb_true_r by lia. by exists st, true.
  - destruct (x <? pi_min_lsn it) eqn:E4; zbool; [|lia]. rewrite filter_cons_False by (intros [? ?]; simpl in *; lia).
    rewrite filter_nil, app_nil_r, filter_chain_below by (intros y Hy; specialize (Hlt y Hy); lia).
    rewrite (proj2 (Z.leb_le _ _)), orb_true_r by lia. by exists st, true.
Qed.

(** When the expected LSN is not in the chain, the scan fails at the first
    entry it would have to use. *)
Lemma scan_gap prev ls it st :
  (forall l, l ∈ ls -> l <> pi_iter_prev_lsn it) -> (exists l, l ∈ ls /\ l <= pi_iter_max_lsn it) ->
  scan (rev (chain_entries prev ls)) it st false = Fault ERROR.
Proof.
  revert st. induction ls as [|x ls IH] using rev_ind; intros st Hne [l [Hl Hle]]; [by apply not_elem_of_nil in Hl|].
  rewrite chain_entries_app, rev_app_distr. cbn [chain_entries zip_with rev app scan negb andb].
  destruct (x =? pi_iter_prev_lsn it) eqn:E; zbool; [by destruct (Hne x ltac:(apply elem_of_app; right; by left))|].
  cbn [negb]. destruct (x <=? pi_iter_max_lsn it) eqn:E1; zbool.
  - rewrite andb_true_r. destruct (x >=? pi_min_lsn it) eqn:E2; zbool; [done|]. by destruct (x <? pi_min_lsn it) eqn:E3; zbool; [|lia].
  - rewrite andb_false_r. destruct (x <? pi_min_lsn it) eqn:E3; [done|]. apply IH; [intros y Hy; apply Hne, elem_of_app; by left|].
    exists l. split; [|done]. apply elem_of_app in Hl as [Hl|Hl%list_elem_of_singleton]; [done|lia].
Qed.

(** ** One table *)

Section one_table.
Context (hash : BufferTag -> Z) (Hhash : forall tag, 0 <= hash tag < LOG_INDEX_MEM_TBL_HASH_NUM).
Context (d : log_idx_table_data_t) (free : Z) (A : list (list apage)) (Q : list (Z * nat)) (L : list log_index_lsn_t).
Context (HR : table_repr hash d free A Q L).

Definition page_log (tag : BufferTag) (L : list log_index_lsn_t) : list log_index_lsn_t := filter (fun e => li_tag e = tag) L.

Definition lsn_pair (e : log_index_lsn_t) : Z * Z := (li_lsn e, li_prev_lsn e).

Lemma blocks_len p : p ∈ concat A -> (length (page_blocks p) <= 4095)%nat.
Proof.
  intros Hp. assert (page_ids p ⊆+ seqZ 1 4095) as Hsub.
  { apply NoDup_submseteq; [by eapply page_ids_nodup|]. intros x Hx. apply elem_of_seqZ.
    pose proof (page_id_range hash d free A Q L HR p x Hp Hx). lia. }
  apply submseteq_length in Hsub. unfold page_ids in Hsub. by rewrite length_map, length_seqZ in Hsub.
Qed.

Lemma tail_block p : exists ls, page_blocks p !! length (ap_segs p) = Some (tail_id p, ls).
Proof.
  unfold page_blocks, tail_id, last_id. destruct (ap_segs p) as [|b bs] using rev_ind; [by eexists|].
  rewrite last_snoc, length_app, Nat.add_comm. exists b.2. cbn [length Nat.add].
  change (((ap_id p, ap_first p) :: bs ++ [b]) !! S (length bs)) with ((bs ++ [b]) !! length bs).
  rewrite list_lookup_middle by done. by destruct b.
Qed.

(** The iterator after the item of page [p] was iterated. *)
Definition iterated (it : log_index_page_iter_data_t) (p : apage) (blocks : list log_index_page_lsn_t) : log_index_page_iter_data_t :=
  mk_page_iter (pi_tag it) (pi_min_lsn it) (pi_max_lsn it) (pi_iter_prev_lsn it) (pi_iter_max_lsn it) (pi_max_idx_table_id it)
    (mk_tbl_stack 0 (ap_prev p) blocks :: pi_lsn_stack it) (pi_key it)
    (if reaches (pi_min_lsn it) (map (LOG_INDEX_COMBINE_LSN d) (page_sfx p)) then ITERATE_STATE_FINISHED else ITERATE_STATE_FORWARD).

Lemma iterate_table_spec p it :
  let ls := map (LOG_INDEX_COMBINE_LSN d) (page_sfx p) in
  p ∈ concat A -> pi_state it = ITERATE_STATE_FORWARD -> StronglySorted Z.lt ls -> pi_min_lsn it <= pi_iter_max_lsn it ->
  (pi_iter_prev_lsn it = InvalidXLogRecPtr \/ list.last ls = Some (pi_iter_prev_lsn it)) ->
  exists blocks, log_index_iterate_table_data it d (ap_id p) = Done (iterated it p blocks) /\
    stack_pops blocks = filter (in_range (pi_min_lsn it) (pi_iter_max_lsn it)) (chain_entries (ap_prev p) ls) /\
    Forall untouched blocks.
Proof.
  intros ls Hp Hst Hs Hmm Hprev. unfold log_index_iterate_table_data.
  destruct (head_block _ _ _ _ _ _ HR p Hp) as (nxt & sfx & -> & _). cbn [obind ih_number ih_tail_seg ih_prev_page_lsn].
  pose proof (block_nonempty _ _ _ _ _ _ HR p 0 _ _ Hp eq_refl) as Hne.
  destruct (Z.of_nat (length (ap_first p)) <=? 0) eqn:E; zbool; [destruct (ap_first p); simpl in *; [done|lia]|].
  cbn [log_index_iter_push_tbl_stack ts_full_page_lsn ts_head]. set (pc := pi_iter_prev_lsn it =? _). set (it1 := mk_page_iter _ _ _ _ _ _ _ _ _).
  destruct (tail_block p) as [tl Htl]. pose proof (blocks_len p Hp) as Hlen.
  pose proof (iterate_segs_scan hash d free A Q L HR p SEG_FUEL (length (ap_segs p)) _ tl it1 [] pc Hp Htl) as Hscan.
  assert (blocks_entries d p (S (length (ap_segs p))) = chain_entries (ap_prev p) ls) as Hbe.
  { unfold blocks_entries, page_sfx, ls. by rewrite (firstn_all2 (page_blocks p)) by done. }
  rewrite Hbe in Hscan. destruct (scan_chain (ap_prev p) ls it1 [] pc) as (st' & pc' & Hsc & Hpops & Hun); try done.
  { intros l Hl. unfold pc. destruct Hprev as [-> | Hp']; [by left|]. right. change (pi_iter_prev_lsn it1) with (pi_iter_prev_lsn it). congruence. }
  rewrite Hsc in Hscan. cbn [stack_pops map concat] in Hpops. rewrite app_nil_r in Hpops. cbn [length page_blocks] in Hlen.
  specialize (Hscan ltac:(change SEG_FUEL with (S (Z.to_nat 4096)); lia) Hst).
  exists st'. split; [|by split]. destruct (iterate_segs _ _ _ _ _ _ _) as [[[[it2 b2] pc2] id2]|f]; [|done].
  cbn [obind] in Hscan |- *. rewrite Hscan. cbn [obind]. f_equal. unfold iterated, finished_if. fold ls.
  change (pi_min_lsn it1) with (pi_min_lsn it). unfold it1, set_top_blocks, set_iter_state.
  destruct (reaches _ ls); cbn; rewrite ?Hst; reflexivity.
Qed.

Lemma iterate_table_gap p it :
  let ls := map (LOG_INDEX_COMBINE_LSN d) (page_sfx p) in
  p ∈ concat A -> pi_state it = ITERATE_STATE_FORWARD -> pi_iter_prev_lsn it <> InvalidXLogRecPtr ->
  (forall l, l ∈ ls -> l <> pi_iter_prev_lsn it) -> (exists l, l ∈ ls /\ l <= pi_iter_max_lsn it) ->
  log_index_iterate_table_data it d (ap_id p) = Fault ERROR.
Proof.
  intros ls Hp Hst Hne Hno Hin. unfold log_index_iterate_table_data.
  destruct (head_block _ _ _ _ _ _ HR p Hp) as (nxt & sfx & -> & _). cbn [obind ih_number ih_tail_seg ih_prev_page_lsn].
  pose proof (block_nonempty _ _ _ _ _ _ HR p 0 _ _ Hp eq_refl) as Hnn.
  destruct (Z.of_nat (length (ap_first p)) <=? 0) eqn:E; zbool; [destruct (ap_first p); simpl in *; [done|lia]|].
  cbn [log_index_iter_push_tbl_stack ts_full_page_lsn ts_head]. destruct (pi_iter_prev_lsn it =? _) eqn:Ep; zbool; [done|].
  set (it1 := mk_page_iter _ _ _ _ _ _ _ _ _). destruct (tail_block p) as [tl Htl]. pose proof (blocks_len p Hp) as Hlen.
  pose proof (iterate_segs_scan hash d free A Q L HR p SEG_FUEL (length (ap_segs p)) _ tl it1 [] false Hp Htl) as Hscan.
  cbn [length page_blocks] in Hlen. specialize (Hscan ltac:(change SEG_FUEL with (S (Z.to_nat 4096)); lia) Hst).
  assert (blocks_entries d p (S (length (ap_segs p))) = chain_entries (ap_prev p) ls) as Hbe.
  { unfold blocks_entries, page_sfx, ls. by rewrite (firstn_all2 (page_blocks p)) by done. }
  rewrite Hbe, (scan_gap (ap_prev p) ls it1 [] Hno Hin) in Hscan.
  destruct (iterate_segs _ _ _ _ _ _ _) as [[[[it2 b2] pc2] id2]|f]; cbn [obind] in Hscan |- *; [by rewrite Hscan|congruence].
Qed.

Lemma same_page p p' : p ∈ concat A -> p' ∈ concat A -> ap_tag p = ap_tag p' -> p = p'.
Proof.
  intros Hp Hp' Ht. destruct (bucket_of hash Hhash d free A Q L HR (ap_tag p)) as [ps Hk].
  pose proof (bucket_page hash d free A Q L HR _ ps p Hk Hp eq_refl) as H1.
  pose proof (bucket_page hash d free A Q L HR _ ps p' Hk Hp' (eq_sym Ht)) as H2.
  destruct (tr_bucket _ _ _ _ _ _ HR _ ps Hk) as (_ & _ & Hnd & _).
  apply list_elem_of_lookup_1 in H1 as [i Hi], H2 as [j Hj].
  assert (i = j) as <-; [|congruence]. eapply (NoDup_lookup (map ap_tag ps)); [done|..].
  - by rewrite list_lookup_fmap, Hi.
  - rewrite list_lookup_fmap, Hj. simpl. by rewrite Ht.
Qed.

Lemma page_lsns p : p ∈ concat A -> map (LOG_INDEX_COMBINE_LSN d) (page_sfx p) = map li_lsn (page_log (ap_tag p) L).
Proof.
  intros Hp. rewrite (tr_page _ _ _ _ _ _ HR p Hp), map_map. apply map_ext_in. intros e He%list_elem_of_In.
  apply list_elem_of_filter in He as [_ He]. apply combine_suffix. by apply (tr_entry _ _ _ _ _ _ HR).
Qed.

Lemma sorted_inj (ls : list Z) i j x : StronglySorted Z.lt ls -> ls !! i = Some x -> ls !! j = Some x -> i = j.
Proof.
  intros Hs. revert i j. induction Hs as [|y ls Hs IH Hall]; intros i j Hi Hj; [done|].
  rewrite Forall_lookup in Hall. destruct i as [|i], j as [|j]; simpl in *; [done|..].
  - injection Hi as ->. specialize (Hall _ _ Hj). lia.
  - injection Hj as ->. specialize (Hall _ _ Hi). lia.
  - f_equal. by apply IH.
Qed.

(** The entries of a page are a chain. *)
Lemma page_pairs p :
  p ∈ concat A -> StronglySorted Z.lt (map li_lsn (page_log (ap_tag p) L)) ->
  map lsn_pair (page_log (ap_tag p) L) = chain_entries (ap_prev p) (map (LOG_INDEX_COMBINE_LSN d) (page_sfx p)).
Proof.
  intros Hp Hs. set (F := page_log _ _) in *. apply list_eq. intros i. rewrite list_lookup_fmap.
  destruct (F !! i) as [e|] eqn:Ei; simpl.
  - assert (e ∈ L /\ li_tag e = ap_tag p) as [HeL Htag].
    { apply list_elem_of_lookup_2, list_elem_of_filter in Ei. naive_solver. }
    apply list_elem_of_lookup_1 in HeL as [j Hj].
    assert (is_Some (Q !! j)) as [[s k] Hq].
    { apply lookup_lt_is_Some. rewrite (tr_len _ _ _ _ _ _ HR). by eapply lookup_lt_Some. }
    destruct (tr_log _ _ _ _ _ _ HR j s k e Hq Hj) as (p' & n & x & Hp' & Hn & Ee).
    assert (p' = p) as -> by (apply same_page; [done..|]; by rewrite <- Htag, Ee).
    assert (page_sfx p !! n = Some x) as Hx by (rewrite <- page_cells_sfx, list_lookup_fmap, Hn; done).
    assert (n = i) as ->.
    { eapply sorted_inj; [exact Hs| |by rewrite list_lookup_fmap, Ei].
      unfold F. rewrite <- page_lsns, list_lookup_fmap, Hx by done. by rewrite Ee. }
    unfold chain_entries. symmetry. apply lookup_zip_with_Some. eexists _, _. split; [reflexivity|].
    rewrite list_lookup_fmap, Hx, Ee. split; [done|]. destruct i as [|m]; [done|]. rewrite lookup_cons_ne_0 by done. cbn [pred li_prev_lsn entry_of].
    assert (is_Some (page_sfx p !! m)) as [y Hy] by (apply lookup_lt_is_Some; apply lookup_lt_Some in Hx; lia).
    by rewrite Hy, list_lookup_fmap, Hy.
  - symmetry. apply lookup_ge_None. rewrite length_chain_entries, page_lsns, length_map by done. by apply lookup_ge_None.
Qed.
End one_table.
