(* ===== verification/LogIndexPages.v ===== *)
(** * Replaying a page from the memory tables

    What the page iterator collects from one table and from all the tables
    in memory, and what repeated calls of its [next] return. *)

From S2P Require Import Prelude BufTag HashFn LogIndexTable LogIndexRepr LogIndexSnapshot LogIndexTheorems LogIndexIter LogIndexReplay.

(** ** Draining the iterator *)

Definition iter_pops (it : log_index_page_iter_data_t) : list (Z * Z) :=
  concat (map (fun ts => stack_pops (ts_head ts)) (pi_lsn_stack it)).

Definition iter_wf (it : log_index_page_iter_data_t) : Prop := Forall (fun ts => Forall block_wf (ts_head ts)) (pi_lsn_stack it).

Definition pair_info (tag : BufferTag) (x : Z * Z) : log_index_lsn_t := mk_lsn_info tag x.1 x.2.

Lemma next_loop_spec st :
  Forall (fun ts => Forall block_wf (ts_head ts)) st ->
  exists st', iterator_next_loop st = (st', head (concat (map (fun ts => stack_pops (ts_head ts)) st))) /\
    concat (map (fun ts => stack_pops (ts_head ts)) st') = tail (concat (map (fun ts => stack_pops (ts_head ts)) st)) /\
    Forall (fun ts => Forall block_wf (ts_head ts)) st'.
Proof.
  induction st as [|ts st IH]; intros Hwf; [by exists []|]. apply Forall_cons in Hwf as [Hts Hwf].
  destruct (pop_spec (ts_head ts) Hts) as (bs & Hpop & Hrest & Hbs). cbn [iterator_next_loop map concat]. rewrite Hpop.
  destruct (stack_pops (ts_head ts)) as [|r rs] eqn:E; cbn [head].
  - destruct (IH Hwf) as (st' & H1 & H2 & H3). by exists st'.
  - eexists. split; [reflexivity|]. cbn [map concat ts_head]. rewrite Hrest. split; [done|]. by apply Forall_cons.
Qed.

Lemma next_spec it :
  iter_wf it -> exists it', polar_logindex_page_iterator_next it = (it', pair_info (pi_tag it) <$> head (iter_pops it)) /\
    iter_pops it' = tail (iter_pops it) /\ iter_wf it' /\ pi_tag it' = pi_tag it.
Proof.
  intros Hwf. destruct (next_loop_spec _ Hwf) as (st' & H1 & H2 & H3). unfold polar_logindex_page_iterator_next. rewrite H1.
  eexists. split; [f_equal; unfold iter_pops; by destruct (head _) as [[]|]|].
  split; [exact H2|split; [exact H3|reflexivity]].
Qed.

(** What [fuel] calls of [next] return, up to the first that returns NULL. *)
Fixpoint replay_page (fuel : nat) (it : log_index_page_iter_data_t) : list log_index_lsn_t :=
  match fuel with
  | O => []
  | S n => match polar_logindex_page_iterator_next it with
           | (it', Some e) => e :: replay_page n it'
           | (_, None) => []
           end
  end.

Lemma replay_page_spec fuel it :
  iter_wf it -> (length (iter_pops it) <= fuel)%nat -> replay_page fuel it = map (pair_info (pi_tag it)) (iter_pops it).
Proof.
  revert it. induction fuel as [|n IH]; intros it Hwf Hlen; [by destruct (iter_pops it); simpl in *; [|lia]|].
  destruct (next_spec it Hwf) as (it' & Hn & Hp & Hwf' & Ht). cbn [replay_page]. rewrite Hn.
  destruct (iter_pops it) as [|x xs]; [done|]. cbn [head tail fmap option_fmap option_map map length] in *.
  rewrite IH by (done || (rewrite Hp; lia)). by rewrite Hp, Ht.
Qed.

(** releasing a page iterator frees only every second table stack: of
    a stack of [n] tables, [n / 2] are freed and the other ones are
    unlinked but never freed, among them always the top one. *)
Theorem release_loses_table_stacks stack :
  let '(freed, lost) := log_index_stack_release stack in
  (length freed = length stack / 2)%nat /\ (length lost = length stack - length stack / 2)%nat /\
  head lost = head stack /\ forall ts, ts ∈ stack <-> ts ∈ freed \/ ts ∈ lost.
Proof.
  assert (forall n stack, (length stack <= n)%nat ->
    let '(freed, lost) := log_index_stack_release stack in
    (length freed = length stack / 2)%nat /\ (length lost = length stack - length stack / 2)%nat /\
    head lost = head stack /\ forall ts, ts ∈ stack <-> ts ∈ freed \/ ts ∈ lost) as H; [|by apply (H (length stack))].
  clear stack. induction n as [|n IH]; intros [|a [|b st]] Hn; simpl in Hn; try lia; try (simpl; set_solver).
  cbn [log_index_stack_release]. specialize (IH st ltac:(lia)). destruct (log_index_stack_release st) as [freed lost].
  destruct IH as (H1 & H2 & _ & H4). cbn [length head].
  assert (S (S (length st)) / 2 = S (length st / 2))%nat as E.
  { replace (S (S (length st))) with (length st + 1 * 2)%nat by lia. rewrite Nat.div_add by lia. lia. }
  pose proof (Nat.Div0.div_le_upper_bound (length st) 2 (length st) ltac:(lia)).
  split_and!; [lia|lia|done|]. intros ts. rewrite !elem_of_cons, H4. naive_solver.
Qed.

(** ** One table *)

Section replay.
Context (hash : BufferTag -> Z) (Hhash : forall tag, 0 <= hash tag < LOG_INDEX_MEM_TBL_HASH_NUM).

(** The previous LSN expected in the next table searched. *)
Definition expected_prev (it : log_index_page_iter_data_t) : Z :=
  match pi_lsn_stack it with
  | ts :: _ => if negb (ts_prev_page_lsn ts =? InvalidXLogRecPtr) then ts_prev_page_lsn ts else pi_iter_prev_lsn it
  | [] => pi_iter_prev_lsn it
  end.

Definition set_iter_prev (it : log_index_page_iter_data_t) (prev : Z) : log_index_page_iter_data_t :=
  mk_page_iter (pi_tag it) (pi_min_lsn it) (pi_max_lsn it) prev (pi_iter_max_lsn it)
    (pi_max_idx_table_id it) (pi_lsn_stack it) (pi_key it) (pi_state it).

(** The iterator after the entries [e0 .. en] of a page were collected. *)
Definition collected (it : log_index_page_iter_data_t) (e0 en : log_index_lsn_t) (F : list log_index_lsn_t)
    (blocks : list log_index_page_lsn_t) : log_index_page_iter_data_t :=
  mk_page_iter (pi_tag it) (pi_min_lsn it) (pi_max_lsn it) (expected_prev it) (u64 (li_lsn en + 1)) (pi_max_idx_table_id it)
    (mk_tbl_stack 0 (li_prev_lsn e0) blocks :: pi_lsn_stack it) (pi_key it)
    (if reaches (pi_min_lsn it) (map li_lsn F) then ITERATE_STATE_FINISHED else ITERATE_STATE_FORWARD).

Lemma push_tbl_absent d free L it :
  represents hash d free L -> pi_key it = hash (pi_tag it) -> page_log (pi_tag it) L = [] ->
  log_index_push_tbl_lsn it d = Done it.
Proof.
  intros (A & Q & HR) Hkey HF. unfold log_index_push_tbl_lsn, log_index_tbl_find. rewrite Hkey.
  destruct (exists_page_spec hash Hhash _ _ _ _ _ HR (pi_tag it)) as [(p & Hp & Ht & _)|[_ ->]]; [|done].
  destruct (last_page_lsn hash _ _ _ _ _ p HR Hp) as (x & Hx & _). rewrite Ht in Hx.
  unfold page_log in HF. by rewrite HF in Hx.
Qed.

(** The iterator after a table, with the new upper limit. *)
Definition set_iter_max (it : log_index_page_iter_data_t) (l : Z) : log_index_page_iter_data_t :=
  mk_page_iter (pi_tag it) (pi_min_lsn it) (pi_max_lsn it) (pi_iter_prev_lsn it) l
    (pi_max_idx_table_id it) (pi_lsn_stack it) (pi_key it) (pi_state it).

(** A table with the page: what happens, by its first and last LSN. *)
Lemma push_tbl_present d free L it e0 en :
  let F := page_log (pi_tag it) L in
  represents hash d free L -> pi_key it = hash (pi_tag it) -> head F = Some e0 -> list.last F = Some en ->
  exists A Q p, table_repr hash d free A Q L /\ p ∈ concat A /\ ap_tag p = pi_tag it /\
    map (LOG_INDEX_COMBINE_LSN d) (page_sfx p) = map li_lsn F /\
    log_index_push_tbl_lsn it d =
      let it1 := set_iter_prev it (expected_prev it) in
      if li_lsn e0 >? pi_max_lsn it then Done it1
      else if li_lsn en <? pi_min_lsn it then Done (set_iter_state it1 ITERATE_STATE_FINISHED)
      else let! it2 := log_index_iterate_table_data it1 d (ap_id p) in Done (set_iter_max it2 (u64 (li_lsn en + 1))).
Proof.
  intros F (A & Q & HR) Hkey He0 Hen. exists A, Q. unfold log_index_push_tbl_lsn, log_index_tbl_find.
  destruct (exists_page_spec hash Hhash _ _ _ _ _ HR (pi_tag it)) as [(p & Hp & Ht & Hrun)|[Hno _]].
  2: { apply last_Some_elem_of, list_elem_of_filter in Hen as [He1 He2].
       destruct (tr_entry _ _ _ _ _ _ HR en He2) as (_ & p & Hp & Htp). destruct (Hno p Hp). congruence. }
  pose proof (page_id_range hash d free A Q L HR p (ap_id p) Hp ltac:(by left)) as Hid.
  pose proof (page_lsns hash d free A Q L HR p Hp) as Hls. rewrite Ht in Hls. fold F in Hls.
  exists p. split; [done|]. split; [done|]. split; [done|]. split; [done|].
  rewrite Hkey, Hrun, <- Hkey. cbn [obind]. rewrite item_head_at by lia. cbn [obind]. unfold LOG_INDEX_TBL_INVALID_SEG.
  destruct (ap_id p =? 0) eqn:E0; zbool; [lia|].
  destruct (item_max_spec hash d free A Q L HR p Hp) as (nxt & sfx & -> & Hmin & m & Hmax & Hm). cbn [obind ih_suffix_lsn].
  rewrite Hmax. cbn [obind]. rewrite Hls in Hmin, Hm. rewrite fmap_last, Hen in Hm. injection Hm as <-.
  assert (LOG_INDEX_SEG_MIN_LSN d sfx = li_lsn e0) as ->.
  { destruct F; [done|]. injection He0 as ->. by injection Hmin. }
  done.
Qed.

Lemma push_tbl_spec d free L it e0 en :
  let F := page_log (pi_tag it) L in
  represents hash d free L -> pi_key it = hash (pi_tag it) -> pi_state it = ITERATE_STATE_FORWARD ->
  head F = Some e0 -> list.last F = Some en -> StronglySorted Z.lt (map li_lsn F) ->
  pi_min_lsn it <= pi_iter_max_lsn it -> (expected_prev it = InvalidXLogRecPtr \/ expected_prev it = li_lsn en) ->
  if li_lsn e0 >? pi_max_lsn it then log_index_push_tbl_lsn it d = Done (set_iter_prev it (expected_prev it))
  else if li_lsn en <? pi_min_lsn it then
    log_index_push_tbl_lsn it d = Done (set_iter_state (set_iter_prev it (expected_prev it)) ITERATE_STATE_FINISHED)
  else exists blocks, log_index_push_tbl_lsn it d = Done (collected it e0 en F blocks) /\
    stack_pops blocks = filter (in_range (pi_min_lsn it) (pi_iter_max_lsn it)) (map lsn_pair F) /\ Forall untouched blocks.
Proof.
  intros F HL Hkey Hst He0 Hen Hs Hmm Hprev.
  destruct (push_tbl_present d free L it e0 en HL Hkey He0 Hen) as (A & Q & p & HR & Hp & Ht & Hls & ->). fold F in Hls. cbv zeta.
  destruct (li_lsn e0 >? pi_max_lsn it); [done|]. destruct (li_lsn en <? pi_min_lsn it); [done|].
  destruct (iterate_table_spec hash d free A Q L HR p (set_iter_prev it (expected_prev it)))
    as (blocks & -> & Hpops & Hun); try (done || by rewrite Hls).
  { rewrite Hls, fmap_last, Hen. destruct Hprev as [H|H]; [by left|right]. simpl. by rewrite H. }
  pose proof (page_pairs hash Hhash d free A Q L HR p Hp) as Hpp. rewrite Ht in Hpp. fold F in Hpp. specialize (Hpp Hs).
  assert (ap_prev p = li_prev_lsn e0) as Hap.
  { rewrite Hls in Hpp. destruct F as [|f F']; [done|]. injection He0 as ->. cbn in Hpp. by injection Hpp. }
  exists blocks. cbn [obind]. split; [|split; [by rewrite Hpops, Hpp|done]].
  unfold collected, iterated. by rewrite Hls, Hap.
Qed.

(** A gap in the history is an error.  Records of the page were
    collected from newer tables, the oldest of them naming [expected_prev]
    as the record before it; if the next table with records of the page
    does not have that record, and has records that would be used, the
    search raises an error instead of returning a history with a record
    missing. *)
Theorem missing_record_detected d free L it e0 en :
  let F := page_log (pi_tag it) L in
  represents hash d free L -> pi_key it = hash (pi_tag it) -> pi_state it = ITERATE_STATE_FORWARD ->
  head F = Some e0 -> list.last F = Some en ->
  expected_prev it <> InvalidXLogRecPtr -> (forall e, e ∈ F -> li_lsn e <> expected_prev it) ->
  li_lsn e0 <= pi_max_lsn it -> pi_min_lsn it <= li_lsn en -> li_lsn e0 <= pi_iter_max_lsn it ->
  log_index_push_tbl_lsn it d = Fault ERROR.
Proof.
  intros F HL Hkey Hst He0 Hen Hne Hno H0 H1 H2.
  destruct (push_tbl_present d free L it e0 en HL Hkey He0 Hen) as (A & Q & p & HR & Hp & Ht & Hls & ->). fold F in Hls. cbv zeta.
  destruct (li_lsn e0 >? pi_max_lsn it) eqn:E1; zbool; [lia|]. destruct (li_lsn en <? pi_min_lsn it) eqn:E2; zbool; [lia|].
  assert (e0 ∈ F) as He by (destruct F; [done|]; injection He0 as ->; by left).
  rewrite (iterate_table_gap hash d free A Q L HR p); [done|done|done|done|..]; rewrite Hls.
  - intros l (e & -> & Hin)%list_elem_of_fmap_1. by apply Hno.
  - exists (li_lsn e0). split; [by apply list_elem_of_fmap_2|done].
Qed.

(** ** The history of a page *)

Definition lsn_in (lo hi : Z) (e : log_index_lsn_t) : Prop := lo <= li_lsn e <= hi.

#[export] Instance lsn_in_dec lo hi e : Decision (lsn_in lo hi e).
Proof. unfold lsn_in. apply _. Defined.

(** The records of one page: increasing LSNs.  When the previous LSNs are
    [known], each record has the LSN of the one before it. *)
Record page_history (known : bool) (G : list log_index_lsn_t) : Prop := {
  ph_sorted : StronglySorted Z.lt (map li_lsn G);
  ph_range : forall e, e ∈ G -> InvalidXLogRecPtr < li_lsn e < UINT64_MAX;
  ph_prev : known = true -> forall i a b, G !! i = Some a -> G !! S i = Some b -> li_prev_lsn b = li_lsn a
}.

Lemma pairs_in_range lo hi F : filter (in_range lo hi) (map lsn_pair F) = map lsn_pair (filter (lsn_in lo hi) F).
Proof.
  induction F as [|e F IH]; [done|]. cbn [map]. destruct (decide (lsn_in lo hi e)).
  - rewrite !filter_cons_True by done. cbn [map]. by rewrite IH.
  - by rewrite !filter_cons_False.
Qed.

Lemma filter_lsn_none lo hi F : (forall e, e ∈ F -> ~ lsn_in lo hi e) -> filter (lsn_in lo hi) F = [].
Proof. apply filter_none. Qed.

Lemma sorted_app_lt a b x y :
  StronglySorted Z.lt (map li_lsn (a ++ b)) -> x ∈ a -> y ∈ b -> li_lsn x < li_lsn y.
Proof.
  intros Hs Hx Hy. rewrite map_app in Hs. induction a as [|z a IH]; [by apply not_elem_of_nil in Hx|].
  cbn [map app] in Hs. apply StronglySorted_inv in Hs as [Hs Hall]. apply elem_of_cons in Hx as [->|Hx]; [|by apply IH].
  rewrite Forall_forall in Hall. apply Hall, elem_of_app. right. by apply list_elem_of_fmap_2.
Qed.

Lemma sorted_app_parts a b :
  StronglySorted Z.lt (map li_lsn (a ++ b)) -> StronglySorted Z.lt (map li_lsn a) /\ StronglySorted Z.lt (map li_lsn b).
Proof.
  rewrite map_app. intros Hs. induction a as [|z a IH]; [by split; [constructor|]|]. cbn [map app] in Hs |- *.
  apply StronglySorted_inv in Hs as [Hs Hall]. apply Forall_app in Hall as [H1 H2]. destruct (IH Hs) as [H3 H4].
  by split; [constructor|].
Qed.

(** The entry before the first one of [b] is the last one of [a]. *)
Lemma history_link a b en d0 :
  page_history true (a ++ b) -> list.last a = Some en -> head b = Some d0 -> li_prev_lsn d0 = li_lsn en.
Proof.
  intros HG Hen Hd. destruct b as [|? b]; [done|]. injection Hd as ->. rewrite last_lookup in Hen.
  destruct a as [|x a]; [done|]. cbn [length pred] in Hen.
  apply (ph_prev _ _ HG eq_refl (length a)).
  - rewrite lookup_app_l by (simpl; lia). done.
  - rewrite lookup_app_r by done. by rewrite Nat.sub_diag.
Qed.

(** ** Searching table after table *)

Section search.
Context (known : bool) (tag : BufferTag) (min max : Z) (Hmm : min <= max).

Record iter_for (it : log_index_page_iter_data_t) (D : list log_index_lsn_t) : Prop := {
  if_tag : pi_tag it = tag;
  if_min : pi_min_lsn it = min;
  if_max : pi_max_lsn it = max;
  if_key : pi_key it = hash tag;
  if_wf : iter_wf it;
  if_pops : iter_pops it = map lsn_pair (filter (lsn_in min max) D)
}.

(** The search goes on: [D] is the history searched so far, and either
    all of it is above the range or its first record tells what to expect. *)
Definition collecting (it : log_index_page_iter_data_t) (D : list log_index_lsn_t) : Prop :=
  iter_for it D /\ pi_state it = ITERATE_STATE_FORWARD /\
  ((pi_lsn_stack it = [] /\ pi_iter_prev_lsn it = InvalidXLogRecPtr /\ pi_iter_max_lsn it = max /\
    forall e, e ∈ D -> max < li_lsn e) \/
   (exists ts st d0, pi_lsn_stack it = ts :: st /\ head D = Some d0 /\ ts_prev_page_lsn ts = li_prev_lsn d0 /\
     (known = false -> li_prev_lsn d0 = InvalidXLogRecPtr /\ pi_iter_prev_lsn it = InvalidXLogRecPtr) /\
     li_lsn d0 <= max /\ li_lsn d0 <= pi_iter_max_lsn it /\ min <= pi_iter_max_lsn it)).

(** The search is over: nothing of the older history [R] is in range. *)
Definition finished (it : log_index_page_iter_data_t) (R D : list log_index_lsn_t) : Prop :=
  iter_for it D /\ pi_state it = ITERATE_STATE_FINISHED /\ forall e, e ∈ R -> ~ lsn_in min max e.

Lemma iter_for_ext it it' D D' :
  iter_for it D -> pi_tag it' = pi_tag it -> pi_min_lsn it' = pi_min_lsn it -> pi_max_lsn it' = pi_max_lsn it ->
  pi_key it' = pi_key it -> pi_lsn_stack it' = pi_lsn_stack it ->
  filter (lsn_in min max) D' = filter (lsn_in min max) D -> iter_for it' D'.
Proof.
  intros [H1 H2 H3 H4 H5 H6] E1 E2 E3 E4 E5 E6. split; try congruence.
  - unfold iter_wf. by rewrite E5.
  - unfold iter_pops. by rewrite E5, E6.
Qed.

(** Entries of one more table none of which is in range. *)
Lemma filter_skip F D : (forall e, e ∈ F -> ~ lsn_in min max e) -> filter (lsn_in min max) (F ++ D) = filter (lsn_in min max) D.
Proof. intros H. by rewrite filter_app, filter_lsn_none. Qed.

Lemma expected_link it R F D en :
  collecting it D -> page_history known ((R ++ F) ++ D) -> list.last F = Some en ->
  expected_prev it = InvalidXLogRecPtr \/ expected_prev it = li_lsn en.
Proof.
  intros (_ & _ & Hc) HG Hen. unfold expected_prev.
  destruct Hc as [(-> & -> & _)|(ts & st & d0 & -> & Hd & Hts & Hun & _)]; [by left|]. rewrite Hts.
  destruct known eqn:Ek.
  - assert (list.last (R ++ F) = Some en) as Hl by (by rewrite last_app, Hen).
    pose proof (history_link (R ++ F) D en d0 HG Hl Hd) as Hlink.
    pose proof (ph_range _ _ HG en ltac:(apply elem_of_app; left; by apply last_Some_elem_of)) as Hr.
    rewrite Hlink. destruct (li_lsn en =? InvalidXLogRecPtr) eqn:E; zbool; [lia|by right].
  - left. destruct (Hun eq_refl) as [-> ->]. done.
Qed.

(** Older entries are below what was collected. *)
Lemma older_below it R F D e :
  collecting it D -> page_history known ((R ++ F) ++ D) -> pi_lsn_stack it <> [] -> e ∈ R ++ F ->
  li_lsn e < max /\ li_lsn e < pi_iter_max_lsn it.
Proof.
  intros (_ & _ & Hc) HG Hne He. destruct Hc as [(E & _)|(ts & st & d0 & _ & Hd & _ & _ & Hle1 & Hle2 & _)]; [done|].
  assert (d0 ∈ D) as Hd0 by (destruct D; [done|]; injection Hd as ->; by left).
  pose proof (sorted_app_lt _ _ e d0 (ph_sorted _ _ HG) He Hd0). lia.
Qed.

Lemma collected_in_range it R F D :
  collecting it D -> page_history known ((R ++ F) ++ D) ->
  filter (in_range (pi_min_lsn it) (pi_iter_max_lsn it)) (map lsn_pair F) = map lsn_pair (filter (lsn_in min max) F).
Proof.
  intros HC HG. rewrite pairs_in_range. f_equal. pose proof HC as ([Ht Hmi Hma _ _ _] & _ & Hc). rewrite Hmi.
  destruct (pi_lsn_stack it) as [|ts0 st0] eqn:Es.
  - destruct Hc as [(_ & _ & -> & _)|(ts & st & d0 & ? & _)]; done.
  - apply filter_ext_in. intros e He.
    destruct (older_below it R F D e HC HG) as [H1 H2]; [by rewrite Es|by apply elem_of_app; right|].
    unfold lsn_in. split; lia.
Qed.

Lemma collected_next it R F D e0 en blocks :
  collecting it D -> page_history known ((R ++ F) ++ D) -> head F = Some e0 -> list.last F = Some en ->
  (known = false -> li_prev_lsn e0 = InvalidXLogRecPtr) ->
  li_lsn e0 <= max -> min <= li_lsn en -> Forall untouched blocks ->
  stack_pops blocks = filter (in_range (pi_min_lsn it) (pi_iter_max_lsn it)) (map lsn_pair F) ->
  collecting (collected it e0 en F blocks) (F ++ D) \/ finished (collected it e0 en F blocks) R (F ++ D).
Proof.
  intros HC HG He0 Hen Hunk Hle0 Hlen Hun Hpops. rewrite (collected_in_range it R F D HC HG) in Hpops.
  assert (e0 ∈ F /\ en ∈ F) as [H0 Hn].
  { split; [destruct F; [done|]; injection He0 as ->; by left|by apply last_Some_elem_of]. }
  assert (e0 ∈ (R ++ F) ++ D /\ en ∈ (R ++ F) ++ D) as [H0' Hn'] by (rewrite !elem_of_app; tauto).
  assert (iter_for (collected it e0 en F blocks) (F ++ D)) as HI.
  { destruct HC as ([H1 H2 H3 H4 H5 H6] & _ & _). split; try done.
    - apply Forall_cons. split; [|exact H5]. eapply Forall_impl; [exact Hun|]. by intros b [? _].
    - unfold iter_pops, collected. cbn [pi_lsn_stack map concat ts_head]. rewrite Hpops, filter_app, map_app. by rewrite <- H6. }
  pose proof HC as ([_ Hmi _ _ _ _] & _ & _).
  destruct (reaches (pi_min_lsn it) (map li_lsn F)) eqn:Efin.
  - right. split; [done|]. split; [by unfold collected; cbn [pi_state]; rewrite Efin|]. intros e He [Hlo _].
    unfold reaches in Efin. apply existsb_exists in Efin as (l & Hl & Hle%Z.leb_le). apply list_elem_of_In in Hl.
    apply list_elem_of_fmap_1 in Hl as (f & -> & Hf). destruct (sorted_app_parts _ _ (ph_sorted _ _ HG)) as [Hs _].
    pose proof (sorted_app_lt R F e f Hs He Hf). lia.
  - left. split; [done|]. split; [by unfold collected; cbn [pi_state]; rewrite Efin|]. right.
    exists (mk_tbl_stack 0 (li_prev_lsn e0) blocks), (pi_lsn_stack it), e0.
    assert (li_lsn e0 <= li_lsn en) as Hle.
    { destruct F as [|f F']; [done|]. injection He0 as ->. rewrite last_cons in Hen.
      destruct (list.last F') as [x|] eqn:El; injection Hen as <-; [|done]. apply last_Some_elem_of in El.
      destruct (sorted_app_parts _ _ (ph_sorted _ _ HG)) as [Hs _]. apply sorted_app_parts in Hs as [_ Hs].
      pose proof (sorted_app_lt [e0] F' e0 x Hs ltac:(by left) El). lia. }
    pose proof (ph_range _ _ HG en Hn') as Hr. unfold InvalidXLogRecPtr, UINT64_MAX in Hr. unfold collected. cbn [pi_lsn_stack pi_iter_max_lsn ts_prev_page_lsn].
    assert (u64 (li_lsn en + 1) = li_lsn en + 1) as -> by (unfold u64; rewrite wrap_small; lia).
    split; [done|]. split; [by destruct F|]. split; [done|]. split; [|split_and!; lia].
    intros Ek. split; [by apply Hunk|]. cbn [pi_iter_prev_lsn]. unfold expected_prev. destruct HC as (_ & _ & Hc).
    destruct Hc as [(-> & -> & _)|(ts & st & d0 & -> & _ & Hts & Hunp & _)]; [done|]. destruct (Hunp Ek) as [Hz ->].
    rewrite Hts, Hz. done.
Qed.

(** One more table, of which [F] is the page's part. *)
Lemma search_table it R D d free L :
  let F := page_log tag L in
  collecting it D -> page_history known ((R ++ F) ++ D) -> represents hash d free L ->
  (known = false -> forall e0, head F = Some e0 -> li_prev_lsn e0 = InvalidXLogRecPtr) ->
  exists it', log_index_push_tbl_lsn it d = Done it' /\ (collecting it' (F ++ D) \/ finished it' R (F ++ D)).
Proof.
  intros F HC HG HL Hunk. pose proof HC as ([H1 H2 H3 H4 H5 H6] & Hst & Hc). destruct (head F) as [e0|] eqn:E0.
  2: { assert (F = []) as HF by (by destruct F). exists it. rewrite HF. cbn [app]. split; [|by left].
       apply (push_tbl_absent d free L); [done|congruence|]. by rewrite H1. }
  destruct (list.last F) as [en|] eqn:En; [|apply last_None in En; by rewrite En in E0].
  destruct (sorted_app_parts _ _ (ph_sorted _ _ HG)) as [Hs _]. pose proof Hs as [_ HsF]%sorted_app_parts.
  pose proof (expected_link it R F D en HC HG En) as Hexp.
  assert (min <= pi_iter_max_lsn it) as Him by (destruct Hc as [(_ & _ & -> & _)|(ts & st & d0 & Hx)]; [done|tauto]).
  assert (page_log (pi_tag it) L = F) as HF by (by rewrite H1).
  pose proof (push_tbl_spec d free L it e0 en HL ltac:(congruence) Hst) as Hpush. rewrite HF in Hpush.
  specialize (Hpush E0 En HsF ltac:(by rewrite H2) Hexp). rewrite H2, H3 in Hpush.
  assert (e0 ∈ F) as H0 by (destruct F; [done|]; injection E0 as ->; by left).
  destruct (li_lsn e0 >? max) eqn:Emax; zbool.
  { assert (pi_lsn_stack it = []) as Hnil.
    { destruct (pi_lsn_stack it) eqn:Es; [done|]. destruct (older_below it R F D e0 HC HG) as [? _]; [by rewrite Es|by apply elem_of_app; right|lia]. }
    destruct Hc as [(_ & Hpz & Him' & Hab)|(ts & st & d0 & E & _)]; [|congruence].
    eexists. split; [exact Hpush|]. left. assert (forall e, e ∈ F -> max < li_lsn e) as Habove.
    { intros e He. destruct F as [|f F']; [done|]. injection E0 as ->. apply elem_of_cons in He as [->|He]; [lia|].
      pose proof (sorted_app_lt [e0] F' e0 e HsF ltac:(by left) He). lia. }
    split; [|split; [done|]].
    - eapply iter_for_ext; [by split|done..|]. apply filter_skip. intros e He [_ ?]. specialize (Habove e He). lia.
    - left. unfold set_iter_prev, expected_prev. cbn. rewrite Hnil, Him'. split_and!; try done.
      intros e [He|He]%elem_of_app; [by apply Habove|by apply Hab]. }
  destruct (li_lsn en <? min) eqn:Emin; zbool.
  { assert (forall e, e ∈ R ++ F -> li_lsn e < min) as Hlow.
    { intros e He. destruct (list.last (R ++ F)) as [x|] eqn:El; [|apply last_None in El; rewrite El in He; by apply not_elem_of_nil in He].
      rewrite last_app, En in El. injection El as <-. apply last_Some in En as [F' HF']. rewrite HF', app_assoc in Hs, He.
      apply elem_of_app in He as [He|He%list_elem_of_singleton]; [|by subst].
      pose proof (sorted_app_lt _ [en] e en Hs He ltac:(by left)). lia. }
    eexists. split; [exact Hpush|]. right. split; [|split; [done|]].
    - eapply iter_for_ext; [by split|done..|]. apply filter_skip. intros e He [? _]. specialize (Hlow e ltac:(apply elem_of_app; by right)). lia.
    - intros e He [? _]. specialize (Hlow e ltac:(apply elem_of_app; by left)). lia. }
  destruct Hpush as (blocks & Hrun & Hpops & Hun). eexists. split; [exact Hrun|].
  apply (collected_next it R F D e0 en blocks); (done || lia || (by rewrite H2) || (intros Ek; by apply Hunk)).
Qed.
End search.
End replay.

(** ** A record lost between two tables *)

Definition demo_gap_iter : log_index_page_iter_data_t :=
  mk_page_iter (demo_tag 5) (7 * 2 ^ 32) (8 * 2 ^ 32) 0 (7 * 2 ^ 32 + 201) 1
    [mk_tbl_stack 0 (7 * 2 ^ 32 + 150) [mk_page_lsn 1 1 ((7 * 2 ^ 32 + 200) :: replicate 63 0) (7 * 2 ^ 32 + 150)]]
    (demo_hash (demo_tag 5)) ITERATE_STATE_FORWARD.

Lemma missing_record_detected_witness :
  log_index_push_tbl_lsn demo_gap_iter (one_entry_table 1 demo_first) = Fault ERROR.
Proof.
  apply (missing_record_detected demo_hash (index_hash_range buffer_tag_hash) (one_entry_table 1 demo_first) 2 [demo_first] demo_gap_iter demo_first demo_first).
  - apply one_entry_repr. vm_compute. split; congruence.
  - reflexivity.
  - reflexivity.
  - vm_compute. reflexivity.
  - vm_compute. reflexivity.
  - vm_compute. discriminate.
  - intros e He. apply list_elem_of_filter in He as [_ He]. apply list_elem_of_singleton in He as ->. vm_compute. discriminate.
  - vm_compute. discriminate.
  - vm_compute. discriminate.
  - vm_compute. discriminate.
Defined.
