(* ===== verification/LogIndexHistory.v ===== *)
(** * The history of a page, from memory and from storage

    The tables are numbered; those from [lo] to [hi] are in memory and
    those from [first] to [lo - 1] only in storage.  [logs tid] is the log
    of table [tid].  Creating a page iterator and calling its [next] gives
    the records of the page in the range of LSNs, from all of them. *)

From S2P Require Import Prelude BufTag HashFn Bloom LogIndexTable LogIndexRepr LogIndexBloom LogIndexSnapshot LogIndexTheorems.
From S2P Require Import LogIndexIter LogIndexReplay LogIndexPages LogIndexFile.

Section history.
Context (hash : BufferTag -> Z) (Hhash : forall tag, 0 <= hash tag < LOG_INDEX_MEM_TBL_HASH_NUM).
Context (known : bool) (tag : BufferTag) (min max : Z) (Hmm : min <= max).
Context (logs : Z -> list log_index_lsn_t) (first lo hi : Z).
Context (Hids : 1 <= first <= lo /\ lo <= hi + 1 /\ 1 <= hi < 2 ^ 64).

(** The log of tables [a .. b]. *)
Definition log_range (a b : Z) : list log_index_lsn_t := concat (map logs (seqZ a (b - a + 1))).
Definition page_range (a b : Z) : list log_index_lsn_t := page_log tag (log_range a b).

Context (HG : page_history known (page_range first hi)).

(** When the previous LSNs are not known, the first record of the page in
    every table has none. *)
Definition heads_unknown (tag : BufferTag) (logs : Z -> list log_index_lsn_t) (first hi : Z) : Prop :=
  forall t e, first <= t <= hi -> head (page_log tag (logs t)) = Some e -> li_prev_lsn e = InvalidXLogRecPtr.
Context (Hunk : known = false -> heads_unknown tag logs first hi).

Lemma log_range_empty a b : b < a -> log_range a b = [].
Proof. intros H. unfold log_range. by rewrite seqZ_nil by lia. Qed.

Lemma log_range_split a m b : a <= m + 1 -> m <= b -> log_range a b = log_range a m ++ log_range (m + 1) b.
Proof.
  intros H1 H2. unfold log_range. replace (b - a + 1) with ((m - a + 1) + (b - (m + 1) + 1)) by lia.
  rewrite seqZ_app by lia. rewrite map_app, concat_app. by replace (a + (m - a + 1)) with (m + 1) by lia.
Qed.

Lemma log_range_one t : log_range t t = logs t.
Proof. unfold log_range. replace (t - t + 1) with 1 by lia. rewrite seqZ_cons by lia. cbn. by rewrite app_nil_r. Qed.

Lemma page_range_split a m b : a <= m + 1 -> m <= b -> page_range a b = page_range a m ++ page_range (m + 1) b.
Proof. intros H1 H2. unfold page_range, page_log. by rewrite (log_range_split a m b), filter_app. Qed.

Lemma page_range_step t : first <= t <= hi ->
  page_range first hi = (page_range first (t - 1) ++ page_log tag (logs t)) ++ page_range (t + 1) hi.
Proof.
  intros Ht. rewrite (page_range_split first t hi) by lia. f_equal. rewrite (page_range_split first (t - 1) t) by lia. f_equal.
  replace (t - 1 + 1) with t by lia. unfold page_range. by rewrite log_range_one.
Qed.

Lemma page_range_below a b e : e ∈ page_range a b -> exists t, a <= t <= b /\ e ∈ logs t /\ li_tag e = tag.
Proof.
  intros [Ht He]%list_elem_of_filter. apply elem_of_concat_map in He as (t & Ht' & He). apply elem_of_seqZ in Ht'.
  exists t. split; [lia|done].
Qed.

Abbreviation collecting := (collecting hash known tag min max).
Abbreviation finished := (finished hash tag min max).
Abbreviation iter_for := (iter_for hash tag min max).

(** Everything was searched. *)
Definition searched (it : log_index_page_iter_data_t) : Prop :=
  iter_for it (page_range first hi) /\ pi_state it = ITERATE_STATE_FINISHED.

Lemma finished_searched it a : first <= a <= hi + 1 -> finished it (page_range first (a - 1)) (page_range a hi) -> searched it.
Proof.
  intros Ha (Hi & Hst & Hno). split; [|done]. eapply iter_for_ext; [exact Hi|done..|].
  rewrite (page_range_split first (a - 1) hi) by lia. replace (a - 1 + 1) with a by lia.
  by apply filter_skip.
Qed.

(** One table with the log [logs t]. *)
Lemma search_one it t d free :
  first <= t <= hi -> collecting it (page_range (t + 1) hi) -> represents hash d free (logs t) ->
  exists it', log_index_push_tbl_lsn it d = Done it' /\ (collecting it' (page_range t hi) \/ searched it').
Proof.
  intros Ht HC HL. rewrite (page_range_step t Ht) in HG.
  assert (page_range t hi = page_log tag (logs t) ++ page_range (t + 1) hi) as Hpr.
  { rewrite (page_range_split t t hi) by lia. f_equal. unfold page_range. by rewrite log_range_one. }
  destruct (search_table hash Hhash known tag min max Hmm it (page_range first (t - 1)) (page_range (t + 1) hi) d free (logs t) HC HG HL)
    as (it' & Hrun & [H|H]); [intros Ek e He; by apply (Hunk Ek t)|..]; exists it'; (split; [done|]); rewrite <- Hpr in H; [by left|right].
  by apply (finished_searched it' t); [lia|].
Qed.

(** Nothing at or below table [t] is in the range: the search stops. *)
Lemma stop_search it t :
  first <= t <= hi -> collecting it (page_range (t + 1) hi) -> (forall e, e ∈ page_range first t -> li_lsn e < min) ->
  searched (set_iter_state it ITERATE_STATE_FINISHED).
Proof.
  intros Ht (Hi & _ & _) Hlow. split; [|done]. eapply iter_for_ext; [exact Hi|done..|].
  rewrite (page_range_split first t hi) by lia. apply filter_skip. intros e He [? _]. specialize (Hlow e He). lia.
Qed.

(** Table [t] has no record of the page in the range. *)
Lemma skip_table it t :
  first <= t <= hi -> collecting it (page_range (t + 1) hi) -> (forall e, e ∈ page_log tag (logs t) -> max < li_lsn e) ->
  collecting it (page_range t hi).
Proof.
  intros Ht HC Hab. pose proof HC as (Hi & Hst & Hc). rewrite (page_range_step t Ht) in HG.
  assert (page_range t hi = page_log tag (logs t) ++ page_range (t + 1) hi) as ->.
  { rewrite (page_range_split t t hi) by lia. f_equal. unfold page_range. by rewrite log_range_one. }
  destruct (pi_lsn_stack it) as [|ts0 st0] eqn:Es.
  - destruct Hc as [(_ & Hp & Hx & Habove)|(ts & st & d0 & E & _)]; [|congruence].
    split; [|split; [done|]].
    + eapply iter_for_ext; [exact Hi|done..|]. apply filter_skip. intros e He [_ ?]. specialize (Hab e He). lia.
    + left. split_and!; [done|done|done|]. intros e [He|He]%elem_of_app; [by apply Hab|by apply Habove].
  - assert (page_log tag (logs t) = []) as ->; [|done].
    destruct (page_log tag (logs t)) as [|e F] eqn:EF; [done|].
    destruct (older_below hash known tag min max it (page_range first (t - 1)) (e :: F) (page_range (t + 1) hi) e HC HG) as [Hlt _];
      [by rewrite Es|apply elem_of_app; right; by left|].
    specialize (Hab e ltac:(by left)). lia.
Qed.

(** ** The tables in memory *)

Record mem_tables (s : log_index_snapshot_t) : Prop := {
  mt_size : 0 < mem_tbl_size s;
  mt_table : forall t, lo <= t <= hi -> let tb := LOG_INDEX_MEM_TBL s ((t - 1) mod mem_tbl_size s) in
    LOG_INDEX_MEM_TBL_TID tb = t /\ lt_state tb <> LOG_INDEX_MEM_TBL_STATE_FREE /\
    (exists free, represents hash (lt_data tb) free (logs t)) /\
    (lt_state tb <> LOG_INDEX_MEM_TBL_STATE_ACTIVE ->
       (forall e, e ∈ logs t -> td_min_lsn (lt_data tb) <= li_lsn e) /\
       (forall t' e, first <= t' <= t -> e ∈ logs t' -> li_lsn e <= td_max_lsn (lt_data tb)));
  mt_end : lo = 1 \/
    let tb := LOG_INDEX_MEM_TBL s ((lo - 2) mod mem_tbl_size s) in
    LOG_INDEX_MEM_TBL_TID tb <> lo - 1 \/ lt_state tb = LOG_INDEX_MEM_TBL_STATE_FREE
}.

Lemma prev_id_mod s t : 0 < mem_tbl_size s -> LOG_INDEX_MEM_TBL_PREV_ID s (t mod mem_tbl_size s) = (t - 1) mod mem_tbl_size s.
Proof.
  intros Hs. unfold LOG_INDEX_MEM_TBL_PREV_ID. destruct (t mod mem_tbl_size s =? 0) eqn:E; zbool.
  - apply Z.mod_unique_pos with (q := t / mem_tbl_size s - 1); mlia.
  - apply Z.mod_unique_pos with (q := t / mem_tbl_size s); mlia.
Qed.

Lemma mem_loop s fuel t it :
  mem_tables s -> lo - 1 <= t <= hi -> t - lo + 1 < Z.of_nat fuel -> collecting it (page_range (t + 1) hi) ->
  exists it' t', push_mem_tbl_loop fuel s it t ((t - 1) mod mem_tbl_size s) = Done (it', t') /\
    ((collecting it' (page_range lo hi) /\ t' = lo - 1) \/ searched it').
Proof.
  intros HM. revert t it. induction fuel as [|n IH]; intros t it Ht Hf HC; [lia|]. cbn [push_mem_tbl_loop]. cbv zeta.
  destruct (decide (t = lo - 1)) as [->|Hne].
  { assert (negb (lo - 1 =? LOG_INDEX_TABLE_INVALID_ID) && (lo - 1 =? LOG_INDEX_MEM_TBL_TID (LOG_INDEX_MEM_TBL s ((lo - 1 - 1) mod mem_tbl_size s))) &&
            negb (lt_state (LOG_INDEX_MEM_TBL s ((lo - 1 - 1) mod mem_tbl_size s)) =? LOG_INDEX_MEM_TBL_STATE_FREE) = false) as ->.
    { replace (lo - 1 - 1) with (lo - 2) by lia. destruct (mt_end s HM) as [->|[H|H]]; [done|..].
      - destruct (lo - 1 =? LOG_INDEX_MEM_TBL_TID _) eqn:E; zbool; [congruence|]. by rewrite andb_false_r.
      - rewrite H. by rewrite andb_false_r. }
    exists it, (lo - 1). split; [done|]. left. split; [|done]. by replace (lo - 1 + 1) with lo in HC by lia. }
  destruct (mt_table s HM t ltac:(lia)) as (Htid & Hfree & (free & HL) & Hrange). cbv zeta in *.
  set (tb := LOG_INDEX_MEM_TBL s ((t - 1) mod mem_tbl_size s)) in *. rewrite Htid, Z.eqb_refl. unfold LOG_INDEX_TABLE_INVALID_ID.
  destruct (t =? 0) eqn:E0; zbool; [lia|]. destruct (lt_state tb =? LOG_INDEX_MEM_TBL_STATE_FREE) eqn:Ef; zbool; [done|]. cbn [negb andb].
  pose proof HC as ([Htag Hmin Hmax _ _ _] & Hst & _).
  assert (exists it' b, log_index_table_in_range it tb = (it', b) /\ exists it'', (if b then log_index_push_tbl_lsn it' (lt_data tb) else Done it') = Done it'' /\
            (collecting it'' (page_range t hi) \/ searched it'')) as (it1 & b & -> & it2 & -> & Hres).
  { unfold log_index_table_in_range. destruct (lt_state tb =? LOG_INDEX_MEM_TBL_STATE_ACTIVE) eqn:Ea; zbool.
    { exists it, true. split; [done|]. apply (search_one it t _ free); [lia|done|done]. }
    destruct (Hrange Ea) as [Hlow Hhigh]. rewrite Hmax, Hmin. destruct (td_min_lsn (lt_data tb) >? max) eqn:E1; zbool.
    { exists it, false. split; [done|]. exists it. split; [done|]. left. apply skip_table; [lia|done|].
      intros e [_ He]%list_elem_of_filter. specialize (Hlow e He). lia. }
    destruct (td_max_lsn (lt_data tb) <? min) eqn:E2; zbool.
    { eexists _, false. split; [done|]. eexists. split; [done|]. right. apply (stop_search it t); [lia|done|].
      intros e (t' & Ht' & He & _)%page_range_below. specialize (Hhigh t' e Ht' He). lia. }
    exists it, true. split; [done|]. apply (search_one it t _ free); [lia|done|done]. }
  cbn [obind]. destruct Hres as [HC'|HS].
  - rewrite decide_True by (by destruct HC' as (_ & ? & _)). rewrite prev_id_mod by apply HM.
    replace (t - 1 - 1) with ((t - 1) - 1) by lia. apply IH; [lia|lia|]. by replace (t - 1 + 1) with t by lia.
  - rewrite decide_False by (destruct HS as [_ ->]; done). exists it2, (t - 1). split; [done|]. by right.
Qed.

Lemma push_mem_spec s it :
  mem_tables s -> pi_max_idx_table_id it = hi -> collecting it [] ->
  exists it' t', log_index_push_mem_tbl_lsn s it = Done (it', t') /\
    ((collecting it' (page_range lo hi) /\ t' = lo - 1 /\ lo <> 1) \/ searched it').
Proof.
  intros HM Hid HC. unfold log_index_push_mem_tbl_lsn. rewrite Hid. rewrite u64_small by (unfold is_u64; lia).
  assert (page_range (hi + 1) hi = []) as Hnil by (unfold page_range; by rewrite log_range_empty by lia).
  destruct (mem_loop s (S (Z.to_nat hi)) hi it HM) as (it' & t' & -> & H); [lia|lia|by rewrite Hnil|]. cbn [obind].
  destruct H as [[HC' ->]|HS].
  - unfold LOG_INDEX_TABLE_INVALID_ID. destruct (lo - 1 =? 0) eqn:E; zbool; [|eexists _, _; split; [done|left; split_and!; [done|done|lia]]].
    eexists _, _. split; [done|]. right. assert (first = lo) as Hfl by lia. split; [|done].
    destruct HC' as (Hi & _ & _). eapply iter_for_ext; [exact Hi|done..|]. by rewrite Hfl.
  - eexists _, _. split; [done|]. right. destruct (t' =? LOG_INDEX_TABLE_INVALID_ID); [|done].
    destruct HS as [Hi _]. split; [|done]. by eapply iter_for_ext.
Qed.

(** ** Reading a segment file *)

Lemma seg_file_lookup n storage a i :
  (i < n)%nat -> (forall j, (j <= i)%nat -> is_Some (storage !! (a + Z.of_nat j))) ->
  seg_file n storage a !! i = storage !! (a + Z.of_nat i).
Proof.
  revert a i. induction n as [|n IH]; intros a i Hi Hall; [lia|]. cbn [seg_file].
  destruct (Hall 0%nat ltac:(lia)) as [d0 Hd0]. replace (a + Z.of_nat 0) with a in Hd0 by lia. rewrite Hd0.
  destruct i as [|i]; [by replace (a + Z.of_nat 0) with a by lia|]. cbn. rewrite IH; [f_equal; lia|lia|].
  intros j Hj. replace (a + 1 + Z.of_nat j) with (a + Z.of_nat (S j)) by lia. apply Hall. lia.
Qed.

Lemma seg_file_elem n storage a i d : seg_file n storage a !! i = Some d -> storage !! (a + Z.of_nat i) = Some d.
Proof.
  revert a i. induction n as [|n IH]; intros a i H; [done|]. cbn [seg_file] in H.
  destruct (storage !! a) as [d0|] eqn:E; [|done]. destruct i as [|i].
  - replace (a + Z.of_nat 0) with a by lia. cbn in H. congruence.
  - cbn in H. apply IH in H. by replace (a + Z.of_nat (S i)) with (a + 1 + Z.of_nat i) by lia.
Qed.

(** The last table of the file that belongs to it and was saved. *)
Lemma max_saved_spec l a b :
  (forall k d, l !! k = Some d -> a <= td_idx_table_id d <= b -> td_idx_table_id d = a + Z.of_nat k) ->
  forall k d, l !! k = Some d -> a <= td_idx_table_id d <= b ->
  let mx := max_saved (rev l) a b in a + Z.of_nat k <= mx <= b /\ exists k' d', l !! k' = Some d' /\ mx = a + Z.of_nat k'.
Proof.
  induction l as [|x l IH] using rev_ind; intros Hl k d Hk Hd; [done|]. rewrite rev_app_distr. cbn [rev app max_saved].
  assert ((l ++ [x]) !! length l = Some x) as Hx by (by apply list_lookup_middle).
  destruct ((td_idx_table_id x >=? a) && (td_idx_table_id x <=? b)) eqn:E.
  - zbool. specialize (Hl _ _ Hx ltac:(lia)). apply lookup_lt_Some in Hk. rewrite length_app in Hk. cbn in Hk.
    split; [lia|]. exists (length l), x. done.
  - destruct (decide (k = length l)) as [->|Hne].
    { rewrite Hx in Hk. injection Hk as <-. exfalso. apply andb_false_iff in E as [E|E]; zbool; lia. }
    apply lookup_app_Some in Hk as [Hk|[Hge Hk]]; [|apply lookup_lt_Some in Hk; cbn in Hk; lia].
    assert (forall k d, l !! k = Some d -> a <= td_idx_table_id d <= b -> td_idx_table_id d = a + Z.of_nat k) as Hl'
      by (intros k0 d0 H0; apply Hl; by apply lookup_app_l_Some).
    destruct (IH Hl' k d Hk Hd) as (H1 & k' & d' & H2 & H3). split; [done|]. exists k', d'. split; [by apply lookup_app_l_Some|done].
Qed.

(** ** The saved tables *)

Context `{env : log_index_env} (try_lock : Z -> Z -> bool) (dir : list Z).

Record saved_tables (s : log_index_snapshot_t) (cache : log_table_cache_t) : Prop := {
  sv_size : 0 < mem_tbl_size s;
  sv_table : forall t, first <= t < lo -> exists d free,
    ls_storage s !! t = Some d /\ td_idx_table_id d = t /\ represents hash d free (logs t);
  sv_stale : forall i d, ls_storage s !! i = Some d -> td_idx_table_id d = i \/ td_idx_table_id d < first;
  sv_bloom : forall t, first <= t < lo -> exists b, ls_bloom s !! t = Some b /\ bloom_of hash_any_extended bloom_rint t (logs t) b /\
    forall t' e, first <= t' <= t -> e ∈ logs t' -> li_lsn e <= bt_max_lsn b;
  sv_meta : lo - 1 <= me_max_idx_table_id (ls_meta s);
  sv_first : fs_min_idx_table_id (me_min_segment_info (ls_meta s)) = first;
  sv_aligned : (first - 1) mod LOG_INDEX_TABLE_NUM_PER_FILE = 0;
  sv_mem : forall mid, 0 <= mid < mem_tbl_size s -> lt_state (LOG_INDEX_MEM_TBL s mid) = LOG_INDEX_MEM_TBL_STATE_FLUSHED ->
    first <= LOG_INDEX_MEM_TBL_TID (LOG_INDEX_MEM_TBL s mid) < lo ->
    exists free, represents hash (lt_data (LOG_INDEX_MEM_TBL s mid)) free (logs (LOG_INDEX_MEM_TBL_TID (LOG_INDEX_MEM_TBL s mid)));
  sv_cache : tc_name cache = dir -> forall t, first <= t < lo -> tc_min_idx_table_id cache <= t <= tc_max_idx_table_id cache ->
    tc_data cache !! Z.to_nat (t - tc_min_idx_table_id cache) = ls_storage s !! t
}.

Lemma read_seg_spec s cache t :
  saved_tables s cache -> first <= t < lo ->
  exists c, log_index_read_seg_file s cache (LOG_INDEX_FILE_TABLE_SEGMENT_NO t) = (c, true) /\
    tc_min_idx_table_id c <= t <= tc_max_idx_table_id c /\
    forall t', first <= t' < lo -> tc_min_idx_table_id c <= t' <= tc_max_idx_table_id c ->
      tc_data c !! Z.to_nat (t' - tc_min_idx_table_id c) = ls_storage s !! t'.
Proof.
  intros HS Ht. unfold log_index_read_seg_file, LOG_INDEX_FILE_TABLE_SEGMENT_NO. rewrite u64_small by (unfold is_u64; lia). set (a := _ * _ + 1).
  pose proof (sv_aligned _ _ HS) as Hal. unfold LOG_INDEX_TABLE_NUM_PER_FILE in *.
  assert (first <= a /\ a <= t < a + 64) as Ha by (unfold a; mlia).
  assert (forall j, (Z.of_nat j <= lo - 1 - a) -> is_Some (ls_storage s !! (a + Z.of_nat j))) as Hsome.
  { intros j Hj. destruct (sv_table _ _ HS (a + Z.of_nat j) ltac:(lia)) as (d & _ & -> & _). done. }
  set (data := seg_file (Z.to_nat 64) (ls_storage s) a).
  assert (forall t', first <= t' < lo -> a <= t' < a + 64 -> data !! Z.to_nat (t' - a) = ls_storage s !! t') as Hdata.
  { intros t' H1 H2. unfold data. rewrite seg_file_lookup; [f_equal; lia|lia|]. intros j Hj. apply Hsome. lia. }
  destruct (sv_table _ _ HS a ltac:(lia)) as (d0 & _ & Hd0 & Hid0 & _).
  assert (data !! 0%nat = Some d0) as H0 by (specialize (Hdata a ltac:(lia) ltac:(lia)); by rewrite Z.sub_diag, Hd0 in Hdata).
  destruct data as [|x data'] eqn:Edata; [done|]. injection H0 as ->. rewrite Hid0, Z.eqb_refl. cbn [negb orb].
  pose proof (sv_meta _ _ HS) as Hmeta. destruct (a >? me_max_idx_table_id (ls_meta s)) eqn:E; zbool; [lia|].
  eexists. split; [reflexivity|]. cbn [tc_min_idx_table_id tc_max_idx_table_id tc_data].
  destruct (sv_table _ _ HS t Ht) as (d & _ & Hd & Hid & _).
  assert (forall k d, (d0 :: data') !! k = Some d -> a <= td_idx_table_id d <= me_max_idx_table_id (ls_meta s) ->
            td_idx_table_id d = a + Z.of_nat k) as Hids'.
  { intros k d' Hk Hr. rewrite <- Edata in Hk. unfold data in Hk. apply seg_file_elem in Hk.
    destruct (sv_stale _ _ HS _ _ Hk); [done|lia]. }
  destruct (max_saved_spec (d0 :: data') a (me_max_idx_table_id (ls_meta s)) Hids' (Z.to_nat (t - a)) d) as (H1 & k & d' & H2 & H3).
  { rewrite Hdata by lia. done. }
  { lia. }
  split; [lia|]. intros t' Ht' Hr. apply Hdata; [done|]. rewrite <- Edata in H2. apply lookup_lt_Some in H2.
  assert (forall n a0, (length (seg_file n (ls_storage s) a0) <= n)%nat) as Hlen.
  { clear. induction n as [|n IH]; intros a0; cbn; [done|]. destruct (_ !! _); cbn; [specialize (IH (a0 + 1)); lia|lia]. }
  specialize (Hlen (Z.to_nat 64) a). fold data in Hlen. lia.
Qed.

Lemma read_table_spec s cache t :
  saved_tables s cache -> first <= t < lo ->
  let mid := (t - 1) mod mem_tbl_size s in
  let tb := LOG_INDEX_MEM_TBL s mid in
  exists s' c d free, log_index_read_table try_lock dir s cache t = Done (s', c, d) /\ represents hash d free (logs t) /\
    saved_tables s' c /\ td_idx_table_id d = t /\
    ((s' = s /\ lt_state tb = LOG_INDEX_MEM_TBL_STATE_FLUSHED /\ d = lt_data tb) \/
     ls_storage s !! t = Some d /\
     (s' = s \/ lt_state tb = LOG_INDEX_MEM_TBL_STATE_FLUSHED /\ s' = set_table s mid (mk_mem_table (lt_free_head tb) (lt_state tb) d))).
Proof.
  intros HS Ht mid tb. unfold log_index_read_table. rewrite u64_small by (unfold is_u64; lia). fold mid. fold tb.
  assert (0 <= mid < mem_tbl_size s) as Hmid by (apply Z.mod_pos_bound, HS).
  destruct (try_lock t 1 && (lt_state tb =? LOG_INDEX_MEM_TBL_STATE_FLUSHED) && (t =? LOG_INDEX_MEM_TBL_TID tb)) eqn:E1.
  { zbool. destruct (sv_mem _ _ HS mid Hmid) as [free Hfree]; [done|fold tb; lia|]. fold tb in Hfree.
    exists s, cache, (lt_data tb), free. split; [done|]. split; [congruence|]. split; [done|]. split; [done|]. by left. }
  assert (exists c, (if negb (bool_decide (tc_name cache = dir)) || (t <? tc_min_idx_table_id cache) || (t >? tc_max_idx_table_id cache) then
         let '(cache, ok) := log_index_read_seg_file s cache (LOG_INDEX_FILE_TABLE_SEGMENT_NO t) in
         if negb ok then Fault FATAL
         else Done (mk_cache dir (tc_min_idx_table_id cache) (tc_max_idx_table_id cache) (tc_data cache))
       else Done cache) = Done c /\ tc_min_idx_table_id c <= t <= tc_max_idx_table_id c /\ tc_name c = dir /\ saved_tables s c) as (c & -> & Hr & Hn & HSc).
  { destruct (_ || (t >? _)) eqn:E.
    - destruct (read_seg_spec s cache t HS Ht) as (c & -> & Hr & Hc). cbn [negb]. eexists. split; [reflexivity|].
      split; [exact Hr|]. split; [done|]. by destruct HS.
    - zbool. exists cache. split; [done|]. split; [lia|]. split; [|done].
      match goal with H : bool_decide _ = true |- _ => by apply bool_decide_eq_true in H end. }
  cbn [obind]. destruct (_ || _) eqn:E2; [apply orb_true_iff in E2 as [?|?]; zbool; lia|].
  destruct (sv_table _ _ HS t Ht) as (d & free & Hd & Hid & Hrep).
  assert (aget zero_data (tc_data c) (t - tc_min_idx_table_id c) = d) as ->.
  { unfold aget. rewrite decide_True by lia. rewrite (sv_cache _ _ HSc Hn t Ht Hr), Hd. done. }
  eexists _, c, d, free. split; [reflexivity|]. split; [done|]. split; [|split; [done|]].
  2: { right. split; [done|]. destruct (_ && negb _) eqn:E3; [|by left]. zbool. by right. }
  destruct (try_lock t 2 && (lt_state tb =? LOG_INDEX_MEM_TBL_STATE_FLUSHED) && negb (t =? LOG_INDEX_MEM_TBL_TID tb)) eqn:E3; [|done].
  destruct HSc as [S1 S2 S3 S4 S5 S6 S7 S8 S9]. split; try done; [by rewrite set_table_size|].
  intros m Hm Hst Htid. rewrite set_table_size in Hm. rewrite get_set_table in Hst, Htid |- * by done.
  destruct (decide (mid = m)) as [<-|Hne]; [|by apply S8]. exists free. unfold LOG_INDEX_MEM_TBL_TID. cbn [lt_data]. by rewrite Hid.
Qed.

(** One round of the loop over the saved tables. *)
Lemma file_round s cache it t :
  saved_tables s cache -> first <= t < lo -> collecting it (page_range (t + 1) hi) ->
  let tb := LOG_INDEX_MEM_TBL s ((t - 1) mod mem_tbl_size s) in
  exists s' c it',
    (if try_lock t 0 && (lt_state tb =? LOG_INDEX_MEM_TBL_STATE_FLUSHED) && (t =? LOG_INDEX_MEM_TBL_TID tb) then
       let! it := log_index_push_tbl_lsn it (lt_data tb) in Done (s, cache, it)
     else
       let! (it, not_exists) := log_index_check_bloom_not_exists s it t in
       if negb not_exists && bool_decide (pi_state it = ITERATE_STATE_FORWARD) then
         let! (s, cache, table) := log_index_read_table try_lock dir s cache t in
         let! it := log_index_push_tbl_lsn it table in
         Done (s, cache, it)
       else Done (s, cache, it)) = Done (s', c, it') /\
    saved_tables s' c /\ (collecting it' (page_range t hi) \/ searched it').
Proof.
  intros HS Ht HC tb. assert (0 <= (t - 1) mod mem_tbl_size s < mem_tbl_size s) as Hmid by (apply Z.mod_pos_bound, HS).
  pose proof HC as ([Htag Hmin _ _ _ _] & Hst & _).
  destruct (try_lock t 0 && (lt_state tb =? LOG_INDEX_MEM_TBL_STATE_FLUSHED) && (t =? LOG_INDEX_MEM_TBL_TID tb)) eqn:E1.
  { zbool. destruct (sv_mem _ _ HS _ Hmid) as [free Hfree]; [done|fold tb; lia|]. fold tb in Hfree.
    destruct (search_one it t (lt_data tb) free) as (it' & -> & Hres); [lia|done|congruence|]. cbn [obind].
    exists s, cache, it'. done. }
  destruct (sv_bloom _ _ HS t Ht) as (b & Hb & Hbo & Hbmax). unfold log_index_check_bloom_not_exists. rewrite Hb. cbn [default].
  unfold id. rewrite (bo_id _ _ _ _ _ Hbo), Z.eqb_refl. cbn [negb]. rewrite Hmin. destruct (bt_max_lsn b <? min) eqn:E2; zbool; cbn [obind].
  { rewrite bool_decide_false by done. eexists _, _, _. split; [reflexivity|]. split; [done|]. right.
    apply (stop_search it t); [lia|done|]. intros e (t' & Ht' & He & _)%page_range_below. specialize (Hbmax t' e Ht' He). lia. }
  rewrite bool_decide_true by done. rewrite andb_true_r.
  destruct (bloom_lacks_element _ _ _) eqn:El; cbn [negb].
  - exists s, cache, it. split; [done|]. split; [done|]. left. apply skip_table; [lia|done|]. intros e [He1 He2]%list_elem_of_filter.
    pose proof (bo_tags _ _ _ _ _ Hbo e He2) as Hno. rewrite He1, <- Htag in Hno. congruence.
  - destruct (read_table_spec s cache t HS Ht) as (s' & c & d & free & -> & Hrep & HS' & _). cbn [obind].
    destruct (search_one it t d free) as (it' & -> & Hres); [lia|done|done|]. cbn [obind]. exists s', c, it'. done.
Qed.

Lemma file_loop fuel s cache it t :
  saved_tables s cache -> first - 1 <= t < lo -> t - first + 1 < Z.of_nat fuel ->
  (collecting it (page_range (t + 1) hi) \/ searched it) ->
  exists s' c it', push_file_loop try_lock dir fuel s cache it first t = Done (s', c, it') /\
    searched (set_iter_state it' ITERATE_STATE_FINISHED).
Proof.
  revert s cache it t. induction fuel as [|n IH]; intros s cache it t HS Ht Hf Hit; [lia|]. cbn [push_file_loop]. cbv zeta.
  assert (forall it, searched it -> searched (set_iter_state it ITERATE_STATE_FINISHED)) as Hset.
  { intros i [Hi _]. split; [|done]. by eapply iter_for_ext. }
  destruct Hit as [HC|HD].
  2: { assert (bool_decide (pi_state it = ITERATE_STATE_FORWARD) = false) as -> by (apply bool_decide_false; by destruct HD as [_ ->]).
       rewrite andb_false_r. exists s, cache, it. split; [done|by apply Hset]. }
  rewrite (bool_decide_true (pi_state it = _)) by apply HC. rewrite andb_true_r. unfold LOG_INDEX_TABLE_INVALID_ID.
  destruct (decide (t = first - 1)) as [->|Hne].
  { destruct (first - 1 >=? first) eqn:E; zbool; [lia|]. rewrite andb_false_r. exists s, cache, it. split; [done|].
    replace (first - 1 + 1) with first in HC by lia. split; [|done]. destruct HC as (Hi & _). by eapply iter_for_ext. }
  destruct (t =? 0) eqn:E0; zbool; [lia|]. destruct (t >=? first) eqn:E1; zbool; [|lia]. cbn [negb andb].
  destruct (file_round s cache it t HS ltac:(lia) HC) as (s' & c & it' & -> & HS' & Hres). cbn [obind].
  apply IH; [done|lia|lia|]. by replace (t - 1 + 1) with t by lia.
Qed.

(** Reading the meta data again when it is behind. *)
Definition refresh_meta (s : log_index_snapshot_t) (t : Z) : log_index_snapshot_t :=
  if me_max_idx_table_id (ls_meta s) <? t then
    mk_snapshot (ls_max_lsn s) (ls_state s) (ls_active_table s) (ls_max_idx_table_id s) (ls_promoted_info s)
      (ls_storage_meta s) (ls_mem_table s) (ls_storage s) (ls_storage_meta s) (ls_bloom s)
  else s.

Lemma push_file_spec s cache it :
  saved_tables (refresh_meta s (lo - 1)) cache -> collecting it (page_range lo hi) ->
  exists s' c it', log_index_push_file_tbl_lsn try_lock dir s cache it (lo - 1) = Done (s', c, it') /\
    searched (set_iter_state it' ITERATE_STATE_FINISHED).
Proof.
  intros HS HC. unfold log_index_push_file_tbl_lsn, log_index_check_hollow_table. fold (refresh_meta s (lo - 1)).
  pose proof (sv_meta _ _ HS) as Hmeta. destruct (me_max_idx_table_id (ls_meta (refresh_meta s (lo - 1))) <? lo - 1) eqn:E; zbool; [lia|].
  rewrite bool_decide_false by (destruct HC as (_ & -> & _); done). rewrite (sv_first _ _ HS).
  apply file_loop; [done|lia|lia|]. left. by replace (lo - 1 + 1) with lo by lia.
Qed.
End history.

(** ** The whole search *)

Section replay.
Context (tag_hash : BufferTag -> Z) `{env : log_index_env} (try_lock : Z -> Z -> bool) (dir : list Z).
Abbreviation hash := (LOG_INDEX_MEM_TBL_HASH_PAGE tag_hash).

Lemma create_iterator_spec known tag min max logs first lo hi s cache (before_promote : bool) :
  min <= max -> 1 <= first <= lo /\ lo <= hi + 1 /\ 1 <= hi < 2 ^ 64 ->
  page_history known (page_log tag (log_range logs first hi)) -> (known = false -> heads_unknown tag logs first hi) ->
  mem_tables hash logs first lo hi s ->
  (lo <> 1 -> saved_tables hash logs first lo dir (refresh_meta s (lo - 1)) cache) ->
  (if before_promote then pr_old_rw_max_tid (ls_promoted_info s) else ls_max_idx_table_id s) = hi ->
  (before_promote = true -> max < pr_old_rw_max_inserted_lsn (ls_promoted_info s)) ->
  exists s' c it, polar_logindex_create_page_iterator try_lock dir tag_hash s cache tag min max before_promote = Done (s', c, it) /\
    pi_state it = ITERATE_STATE_FINISHED /\
    forall fuel, (length (log_range logs first hi) <= fuel)%nat ->
      replay_page fuel it = filter (lsn_in min max) (page_log tag (log_range logs first hi)).
Proof.
  intros Hmm Hids HG Hunk HM HS Hhi Hpro. unfold polar_logindex_create_page_iterator.
  assert (before_promote && (max >=? pr_old_rw_max_inserted_lsn (ls_promoted_info s)) = false) as ->.
  { destruct before_promote; [|done]. specialize (Hpro eq_refl). cbn [andb]. rewrite Z.geb_leb. apply Z.leb_gt. lia. }
  rewrite Hhi. cbv zeta. set (it0 := mk_page_iter _ _ _ _ _ _ _ _ _).
  assert (collecting hash known tag min max it0 []) as HC0.
  { split; [split; try done; constructor|]. split; [done|]. left. split_and!; try done. intros e He. by apply not_elem_of_nil in He. }
  assert (forall it, searched hash tag min max logs first hi it -> pi_state it = ITERATE_STATE_FINISHED /\
            forall fuel, (length (log_range logs first hi) <= fuel)%nat ->
              replay_page fuel it = filter (lsn_in min max) (page_log tag (log_range logs first hi))) as Hend.
  { intros it [[H1 _ _ _ H5 H6] Hst]. split; [done|]. intros fuel Hf. unfold page_range in H6. rewrite replay_page_spec, H6, H1, map_map; [|done|].
    - rewrite <- (map_id (filter _ _)) at 2. apply map_ext_in. intros e He%list_elem_of_In.
      apply list_elem_of_filter in He as [_ He]. apply list_elem_of_filter in He as [<- _]. by destruct e.
    - rewrite H6, length_map. unfold page_log. etransitivity; [apply length_filter|]. etransitivity; [apply length_filter|done]. }
  destruct (push_mem_spec hash (index_hash_range tag_hash) known tag min max Hmm logs first lo hi Hids HG Hunk s it0 HM eq_refl HC0)
    as (it1 & t1 & -> & [(HC & -> & Hlo)|HD]); cbn [obind].
  - rewrite bool_decide_true by apply HC.
    destruct (push_file_spec hash (index_hash_range tag_hash) known tag min max Hmm logs first lo hi Hids HG Hunk try_lock dir s cache it1 (HS Hlo) HC)
      as (s' & c & it' & -> & HD). cbn [obind]. eexists _, _, _. split; [reflexivity|]. by apply Hend.
  - rewrite bool_decide_false by (destruct HD as [_ ->]; done). eexists _, _, _. split; [reflexivity|]. by apply Hend.
Qed.

(** C1: a page iterator returns the history of the page.  The tables
    [lo .. hi] are in memory and [first .. lo - 1] were saved; when the
    page's records in them have increasing LSNs, and the previous LSNs
    were either given with each record or never, creating an iterator for the LSNs from [min] to [max]
    succeeds, whatever locks are got and whatever is cached, and the calls
    of [next] then return exactly the page's records with an LSN in that
    range, from the oldest to the newest, each with the LSN before it. *)
Theorem page_iterator_history known tag min max logs first lo hi s cache (before_promote : bool) :
  min <= max -> 1 <= first <= lo /\ lo <= hi + 1 /\ 1 <= hi < 2 ^ 64 ->
  page_history known (page_log tag (log_range logs first hi)) -> (known = false -> heads_unknown tag logs first hi) ->
  mem_tables hash logs first lo hi s ->
  (lo <> 1 -> saved_tables hash logs first lo dir (refresh_meta s (lo - 1)) cache) ->
  (if before_promote then pr_old_rw_max_tid (ls_promoted_info s) else ls_max_idx_table_id s) = hi ->
  (before_promote = true -> max < pr_old_rw_max_inserted_lsn (ls_promoted_info s)) ->
  exists s' c it, polar_logindex_create_page_iterator try_lock dir tag_hash s cache tag min max before_promote = Done (s', c, it) /\
    pi_state it = ITERATE_STATE_FINISHED /\
    forall fuel, (length (log_range logs first hi) <= fuel)%nat ->
      replay_page fuel it = filter (lsn_in min max) (page_log tag (log_range logs first hi)).
Proof. apply create_iterator_spec. Qed.
End replay.

(** ** A saved table and one in memory *)

Definition demo_logs (t : Z) : list log_index_lsn_t := if t =? 1 then [demo_first] else if t =? 2 then [demo_second] else [].

#[local] Existing Instance demo_env.

Definition demo_bloom : log_file_table_bloom_t :=
  match log_index_get_bloom_data hash_any_extended bloom_rint (one_entry_table 1 demo_first) 1 with Done b => b | Fault _ => zero_bloom end.

Definition demo_history : log_index_snapshot_t :=
  mk_snapshot (7 * 2 ^ 32 + 200) (POLAR_LOGINDEX_STATE_ADDING + POLAR_LOGINDEX_STATE_WRITABLE) 1 2 (mk_promoted 0 0 0 0)
    (mk_meta 1 (mk_file_segment 0 (7 * 2 ^ 32 + 100) 1 1) 0 (7 * 2 ^ 32 + 100))
    [zero_mem_table; mk_mem_table 2 LOG_INDEX_MEM_TBL_STATE_ACTIVE (one_entry_table 2 demo_second); zero_mem_table]
    {[ 1 := log_index_save_table (one_entry_table 1 demo_first) demo_bloom ]}
    (mk_meta 1 (mk_file_segment 0 (7 * 2 ^ 32 + 100) 1 1) 0 (7 * 2 ^ 32 + 100)) {[ 1 := demo_bloom ]}.

Definition empty_cache : log_table_cache_t := mk_cache [] 0 0 [].

Lemma demo_mem : mem_tables demo_hash demo_logs 1 2 2 demo_history.
Proof.
  split; [done| |].
  - intros t Ht. assert (t = 2) as -> by lia. cbv zeta. change ((2 - 1) mod mem_tbl_size demo_history) with 1.
    unfold LOG_INDEX_MEM_TBL, demo_history. cbn [ls_mem_table aget lookup list_lookup].
    destruct (one_entry_repr 2 demo_second) as [H1 H2]; [vm_compute; split; congruence|].
    split; [exact H2|]. split; [done|]. split; [by exists 2|]. done.
  - right. left. vm_compute. discriminate.
Qed.

Lemma demo_bloom_ok : bloom_of hash_any_extended bloom_rint 1 [demo_first] demo_bloom.
Proof.
  destruct (one_entry_repr 1 demo_first) as [(A & Q & HR) _]; [vm_compute; split; congruence|].
  destruct (get_bloom_of hash_any_extended bloom_rint _ _ _ _ _ _ HR 1) as (b & Hb & Ho).
  - intros tag. rewrite filter_cons. destruct (decide _); repeat constructor.
  - unfold demo_bloom. by rewrite Hb.
Qed.

Lemma save_table_id `{env : log_index_env} d b : td_idx_table_id (log_index_save_table d b) = td_idx_table_id d.
Proof. done. Qed.

Lemma demo_saved : saved_tables demo_hash demo_logs 1 2 [112] (refresh_meta demo_history (2 - 1)) empty_cache.
Proof.
  change (refresh_meta demo_history (2 - 1)) with demo_history. destruct (one_entry_repr 1 demo_first) as [H1 H2]; [vm_compute; split; congruence|].
  split; try done.
  - intros t Ht. assert (t = 1) as -> by lia. eexists _, 2. split; [reflexivity|]. split; [rewrite save_table_id; exact H2|].
    destruct H1 as (A & Q & HR). exists A, Q. by apply save_table_repr.
  - intros i d Hd. left. unfold demo_history in Hd. cbn [ls_storage] in Hd. apply lookup_singleton_Some in Hd as [<- <-]. rewrite save_table_id. exact H2.
  - intros t Ht. assert (t = 1) as -> by lia. exists demo_bloom. split; [reflexivity|]. split; [exact demo_bloom_ok|].
    intros t' e Ht' He. assert (t' = 1) as -> by lia. by apply (bo_max _ _ _ _ _ demo_bloom_ok).
  - intros mid Hmid. assert (mid = 0 \/ mid = 1 \/ mid = 2) as [->|[->| ->]] by (change (mem_tbl_size demo_history) with 3 in Hmid; lia); done.
Qed.

(** Both records, one from storage and one from memory. *)
Lemma page_iterator_history_witness :
  exists s' c it, polar_logindex_create_page_iterator (fun _ _ => true) [112] buffer_tag_hash demo_history empty_cache (demo_tag 5)
                    (7 * 2 ^ 32) (8 * 2 ^ 32) false = Done (s', c, it) /\
    pi_state it = ITERATE_STATE_FINISHED /\
    forall fuel, (2 <= fuel)%nat -> replay_page fuel it = [demo_first; demo_second].
Proof.
  apply (page_iterator_history buffer_tag_hash (fun _ _ => true) [112] true (demo_tag 5) (7 * 2 ^ 32) (8 * 2 ^ 32) demo_logs 1 2 2
           demo_history empty_cache false).
  - vm_compute. discriminate.
  - vm_compute. repeat split; congruence.
  - assert (page_log (demo_tag 5) (log_range demo_logs 1 2) = [demo_first; demo_second]) as -> by (vm_compute; reflexivity). split.
    + repeat constructor.
    + intros e [->|[->|He]%elem_of_cons]%elem_of_cons; [vm_compute; split; reflexivity..|inversion He].
    + intros _ [|[|i]] a b Ha Hb; [|discriminate..]. injection Ha as <-. injection Hb as <-. reflexivity.
  - discriminate.
  - exact demo_mem.
  - intros _. exact demo_saved.
  - reflexivity.
  - discriminate.
Defined.
