(* ===== verification/LogIndexLsnIter.v ===== *)
(** * The LSN iterator of the log index (polar_logindex_iterator.c)

    The background replayer reads the entries of all pages from an LSN on,
    in the order in which they were inserted.  The first call of [next]
    searches the tables downwards for the one to start in, in memory and
    then in storage; the later ones read on from a position, a table and an
    index in its insertion order.

    The entry returned is a buffer of the iterator in the code and a value
    here.  A call of [next] is one step.  The lock it holds on a table keeps
    the table from being replaced, but an insertion into the active table
    goes on beside it ([log_index_insert_lsn] updates the entries and
    [last_order] without that lock); such an insertion is modelled before or
    after the call, not within it.  When [log_index_read_table] returns a table with its
    lock, the table is flushed and treated like one read from storage. *)

From S2P Require Import Prelude BufTag LogIndexTable LogIndexSnapshot LogIndexIter LogIndexFile.

Record log_index_lsn_iter_data_t := mk_lsn_iter {
  lit_start_lsn : Z;
  lit_state : log_index_iter_state_t;
  lit_idx_table_id : Z;
  lit_idx : Z;
  lit_last_search_tid : Z
}.

Definition lit_set_state (it : log_index_lsn_iter_data_t) (st : log_index_iter_state_t) : log_index_lsn_iter_data_t :=
  mk_lsn_iter (lit_start_lsn it) st (lit_idx_table_id it) (lit_idx it) (lit_last_search_tid it).
Definition lit_set_table (it : log_index_lsn_iter_data_t) (tid : Z) : log_index_lsn_iter_data_t :=
  mk_lsn_iter (lit_start_lsn it) (lit_state it) tid (lit_idx it) (lit_last_search_tid it).
Definition lit_set_idx (it : log_index_lsn_iter_data_t) (idx : Z) : log_index_lsn_iter_data_t :=
  mk_lsn_iter (lit_start_lsn it) (lit_state it) (lit_idx_table_id it) idx (lit_last_search_tid it).
Definition lit_set_last (it : log_index_lsn_iter_data_t) (tid : Z) : log_index_lsn_iter_data_t :=
  mk_lsn_iter (lit_start_lsn it) (lit_state it) (lit_idx_table_id it) (lit_idx it) tid.

(** ** The search for the first table *)

Definition log_index_set_search_table (it : log_index_lsn_iter_data_t) (table : log_idx_table_data_t) : log_index_lsn_iter_data_t :=
  let tid := td_idx_table_id table in
  let start_lsn := lit_start_lsn it in
  let it :=
    if negb (td_max_lsn table =? InvalidXLogRecPtr) then
      if start_lsn >? td_max_lsn table then
        if lit_last_search_tid it =? LOG_INDEX_TABLE_INVALID_ID then lit_set_state it ITERATE_STATE_FINISHED
        else lit_set_state (lit_set_table it (u64 (tid + 1))) ITERATE_STATE_BACKWARD
      else if (start_lsn >=? td_min_lsn table) && (start_lsn <=? td_max_lsn table) then
        let it := lit_set_table it tid in
        if negb (start_lsn =? td_min_lsn table) then lit_set_state it ITERATE_STATE_BACKWARD else it
      else it
    else it in
  lit_set_last it tid.

(** The loop over the orders of the table; [n] are left. *)
Fixpoint start_order_loop (n : nat) (table : log_idx_table_data_t) (start_lsn order : Z) : outcome (option Z) :=
  match n with
  | O => Done None
  | S n =>
    let! info := log_index_get_order_lsn table order in
    let lsn := match info with Some e => li_lsn e | None => InvalidXLogRecPtr end in
    if lsn >=? start_lsn then Done (Some order) else start_order_loop n table start_lsn (order + 1)
  end.

Definition log_index_set_search_start_order (it : log_index_lsn_iter_data_t) (table : log_idx_table_data_t)
  : outcome log_index_lsn_iter_data_t :=
  if negb (td_idx_table_id table =? lit_idx_table_id it) then Done it
  else
    let! order := start_order_loop (Z.to_nat (td_last_order table)) table (lit_start_lsn it) 0 in
    Done (match order with Some o => lit_set_idx it o | None => it end).

Section iterator.
Context `{env : log_index_env} (try_lock : Z -> Z -> bool) (dir : list Z).

(** The table of the iterator's position: the state of the memory table it
    is in, if it is, and its data. *)
Definition log_index_get_table_data (s : log_index_snapshot_t) (cache : log_table_cache_t) (it : log_index_lsn_iter_data_t)
  : outcome (log_index_snapshot_t * log_table_cache_t * option (option Z * log_idx_table_data_t)) :=
  let tid := lit_idx_table_id it in
  let table := LOG_INDEX_MEM_TBL s (u64 (tid - 1) mod mem_tbl_size s) in
  if LOG_INDEX_MEM_TBL_TID table =? tid then Done (s, cache, Some (Some (lt_state table), lt_data table))
  else if tid >? me_max_idx_table_id (ls_meta s) then Done (s, cache, None)
  else
    let! (s, cache, data) := log_index_read_table try_lock dir s cache tid in
    Done (s, cache, Some (None, data)).

Definition log_index_set_start_order (s : log_index_snapshot_t) (cache : log_table_cache_t) (it : log_index_lsn_iter_data_t)
  : outcome (log_index_snapshot_t * log_table_cache_t * log_index_lsn_iter_data_t) :=
  if bool_decide (lit_state it = ITERATE_STATE_BACKWARD) then
    let! (s, cache, found) := log_index_get_table_data s cache it in
    match found with
    | Some (_, table) => let! it := log_index_set_search_start_order it table in Done (s, cache, it)
    | None => Done (s, cache, it)
    end
  else Done (s, cache, it).

(** The loop over the memory tables, downwards from [tid]. *)
Fixpoint search_mem_loop (fuel : nat) (s : log_index_snapshot_t) (it : log_index_lsn_iter_data_t) (tid mid : Z)
  : outcome log_index_lsn_iter_data_t :=
  match fuel with
  | O => Fault OUT_OF_FUEL
  | S n =>
    let table := LOG_INDEX_MEM_TBL s mid in
    if negb (tid =? LOG_INDEX_TABLE_INVALID_ID) && (tid =? LOG_INDEX_MEM_TBL_TID table) &&
       negb (lt_state table =? LOG_INDEX_MEM_TBL_STATE_FREE) then
      let it := log_index_set_search_table it (lt_data table) in
      if bool_decide (lit_state it = ITERATE_STATE_FORWARD)
      then search_mem_loop n s it (tid - 1) (LOG_INDEX_MEM_TBL_PREV_ID s mid) else Done it
    else Done it
  end.

Definition log_index_search_mem_tbl_lsn (s : log_index_snapshot_t) (cache : log_table_cache_t) (it : log_index_lsn_iter_data_t)
  : outcome (log_index_snapshot_t * log_table_cache_t * log_index_lsn_iter_data_t) :=
  let tid := ls_max_idx_table_id s in
  let! it := search_mem_loop (S (Z.to_nat tid)) s it tid (u64 (tid - 1) mod mem_tbl_size s) in
  log_index_set_start_order s cache it.

(** The table to go on with in storage and whether there is a gap. *)
Definition log_index_next_search_file_tid (prev_idx_tid : Z) (meta : log_index_meta_t) : Z * bool :=
  if prev_idx_tid =? LOG_INDEX_TABLE_INVALID_ID then (me_max_idx_table_id meta, false)
  else
    let tid := prev_idx_tid - 1 in
    if tid =? LOG_INDEX_TABLE_INVALID_ID then (LOG_INDEX_TABLE_INVALID_ID, false)
    else if tid >? me_max_idx_table_id meta then (LOG_INDEX_TABLE_INVALID_ID, true)
    else (tid, false).

(** The loop over the saved tables, downwards. *)
Fixpoint search_file_loop (fuel : nat) (s : log_index_snapshot_t) (cache : log_table_cache_t) (it : log_index_lsn_iter_data_t)
    (min_id tid : Z) : outcome (log_index_snapshot_t * log_table_cache_t * log_index_lsn_iter_data_t) :=
  match fuel with
  | O => Fault OUT_OF_FUEL
  | S n =>
    if negb (tid =? LOG_INDEX_TABLE_INVALID_ID) && (tid >=? min_id) && bool_decide (lit_state it = ITERATE_STATE_FORWARD) then
      let! (s, cache, table) := log_index_read_table try_lock dir s cache tid in
      search_file_loop n s cache (log_index_set_search_table it table) min_id (tid - 1)
    else Done (s, cache, it)
  end.

Definition log_index_search_file_tbl_lsn (s : log_index_snapshot_t) (cache : log_table_cache_t) (it : log_index_lsn_iter_data_t)
  : outcome (log_index_snapshot_t * log_table_cache_t * log_index_lsn_iter_data_t) :=
  let meta := ls_meta s in
  let min_id := fs_min_idx_table_id (me_min_segment_info meta) in
  if lit_start_lsn it >? me_max_lsn meta then
    if lit_last_search_tid it =? LOG_INDEX_TABLE_INVALID_ID then Done (s, cache, lit_set_state it ITERATE_STATE_FINISHED)
    else Done (s, cache, lit_set_state (lit_set_table it (lit_last_search_tid it)) ITERATE_STATE_BACKWARD)
  else
    let '(tid, hollow) := log_index_next_search_file_tid (lit_last_search_tid it) meta in
    if (hollow : bool) then Fault ERROR
    else
      let! (s, cache, it) := search_file_loop (S (Z.to_nat tid)) s cache it min_id tid in
      let it := if bool_decide (lit_state it = ITERATE_STATE_FORWARD)
                then lit_set_state (lit_set_table it min_id) ITERATE_STATE_BACKWARD else it in
      log_index_set_start_order s cache it.

(** ** The iterator *)

Definition polar_logindex_create_lsn_iterator (s : log_index_snapshot_t) (lsn : Z) : outcome log_index_lsn_iter_data_t :=
  let it := mk_lsn_iter lsn ITERATE_STATE_FORWARD LOG_INDEX_TABLE_INVALID_ID 0 LOG_INDEX_TABLE_INVALID_ID in
  if lsn =? InvalidXLogRecPtr then
    if fs_min_idx_table_id (me_min_segment_info (ls_meta s)) >? 1 then Fault PANIC
    else Done (lit_set_table it 1)
  else Done it.

(** Whether the position moves on to the next table. *)
Definition log_index_lsn_iterator_update (it : log_index_lsn_iter_data_t) (state : option Z) (table : log_idx_table_data_t)
  : log_index_lsn_iter_data_t * bool :=
  let next := if lit_idx it =? td_last_order table
              then (lit_set_idx (lit_set_table it (u64 (lit_idx_table_id it + 1))) 0, true) else (it, false) in
  match state with
  | None => next
  | Some st => if negb (st =? LOG_INDEX_MEM_TBL_STATE_ACTIVE) then next else (it, false)
  end.

(** The [do] loop of [next]. *)
Fixpoint lsn_next_loop (fuel : nat) (s : log_index_snapshot_t) (cache : log_table_cache_t) (it : log_index_lsn_iter_data_t)
  : outcome (log_index_snapshot_t * log_table_cache_t * log_index_lsn_iter_data_t * option log_index_lsn_t) :=
  match fuel with
  | O => Fault OUT_OF_FUEL
  | S n =>
    let! (s, cache, found) := log_index_get_table_data s cache it in
    match found with
    | None => Done (s, cache, it, None)
    | Some (state, table) =>
      let! info := log_index_get_order_lsn table (lit_idx it) in
      let info := match info with Some e => if negb (li_lsn e =? InvalidXLogRecPtr) then Some e else None | None => None end in
      let it := match info with Some _ => lit_set_idx it (u32 (lit_idx it + 1)) | None => it end in
      let '(it, new_table) := log_index_lsn_iterator_update it state table in
      match info with
      | Some e => Done (s, cache, it, Some e)
      | None => if (new_table : bool) then lsn_next_loop n s cache it else Done (s, cache, it, None)
      end
    end
  end.

Definition polar_logindex_lsn_iterator_next (s : log_index_snapshot_t) (cache : log_table_cache_t) (it : log_index_lsn_iter_data_t)
  : outcome (log_index_snapshot_t * log_table_cache_t * log_index_lsn_iter_data_t * option log_index_lsn_t) :=
  let! (s, cache, it) :=
    (if lit_idx_table_id it =? LOG_INDEX_TABLE_INVALID_ID then
       log_index_search_mem_tbl_lsn s cache (lit_set_last (lit_set_state it ITERATE_STATE_FORWARD) LOG_INDEX_TABLE_INVALID_ID)
     else Done (s, cache, it)) in
  let! (s, cache, it) :=
    (if bool_decide (lit_state it = ITERATE_STATE_FORWARD) then log_index_search_file_tbl_lsn s cache it else Done (s, cache, it)) in
  if negb (bool_decide (lit_state it = ITERATE_STATE_BACKWARD)) then Done (s, cache, it, None)
  else lsn_next_loop (S (S (Z.to_nat (ls_max_idx_table_id s)))) s cache it.
End iterator.
