(* ===== verification/LogIndexLsnRead.v ===== *)
(** * What the LSN iterator reads

    The tables from [first] to [lo - 1] were saved, those from [lo] to [hi]
    are in memory; some of the saved ones may still be in memory, and
    reading others puts them there.  From the start LSN on, the iterator
    returns all entries in the order in which they were inserted; it goes
    on with the entries that are added between its calls.  An iterator
    without a start LSN is taken to be used after a table was saved, see
    [unsaved_start_fails]. *)

From stdpp Require Import sorting.
From S2P Require Import Prelude BufTag HashFn Bloom LogIndexTable LogIndexRepr LogIndexInsert LogIndexBloom LogIndexSnapshot LogIndexTheorems.
From S2P Require Import LogIndexIter LogIndexFile LogIndexHistory LogIndexLsnIter.

Abbreviation lsn_sorted L := (StronglySorted Z.le (map li_lsn L)).

Section reading.
Context (hash : BufferTag -> Z) `{env : log_index_env} (try_lock : Z -> Z -> bool) (dir : list Z).
Context (logs : Z -> list log_index_lsn_t) (first lo hi : Z) (open : bool).

(** A table with its log and the range of its LSNs. *)
Definition table_log (d : log_idx_table_data_t) (t : Z) (L : list log_index_lsn_t) : Prop :=
  (exists free, represents hash d free L) /\ td_idx_table_id d = t /\
  exists a z, head L = Some a /\ list.last L = Some z /\ td_min_lsn d = li_lsn a /\ td_max_lsn d = li_lsn z.

Record lsn_tables (s : log_index_snapshot_t) (cache : log_table_cache_t) : Prop := {
  ln_size : 0 < mem_tbl_size s;
  ln_max : ls_max_idx_table_id s = hi;
  ln_meta : me_max_idx_table_id (ls_meta s) = lo - 1;
  ln_meta_lsn : forall t e, first <= t < lo -> e ∈ logs t -> li_lsn e <= me_max_lsn (ls_meta s);
  ln_none : first = lo -> me_max_lsn (ls_meta s) = 0;
  ln_saved : first < lo -> saved_tables hash logs first lo dir s cache;
  ln_storage : forall t d, first <= t < lo -> ls_storage s !! t = Some d -> table_log d t (logs t);
  ln_unsaved : forall t, lo <= t <= hi -> let tb := LOG_INDEX_MEM_TBL s ((t - 1) mod mem_tbl_size s) in
    table_log (lt_data tb) t (logs t) /\ lt_state tb <> LOG_INDEX_MEM_TBL_STATE_FREE /\
    lt_state tb <> LOG_INDEX_MEM_TBL_STATE_FLUSHED /\ (lt_state tb = LOG_INDEX_MEM_TBL_STATE_ACTIVE <-> t = hi /\ open = true);
  ln_open : open = true -> lo <= hi;
  ln_slot : forall mid, 0 <= mid < mem_tbl_size s -> let tb := LOG_INDEX_MEM_TBL s mid in let t := LOG_INDEX_MEM_TBL_TID tb in
    t <> 0 -> first <= t <= hi /\
    (t < lo -> lt_state tb = LOG_INDEX_MEM_TBL_STATE_FLUSHED /\ table_log (lt_data tb) t (logs t))
}.

(** The tables are numbered from 1; the log is in the order of the LSNs. *)
Record lsn_log : Prop := {
  ll_ids : 1 <= first <= lo /\ lo <= hi + 1 /\ first <= hi < 2 ^ 64 - 1;
  ll_sorted : lsn_sorted (log_range logs first hi);
  ll_pos : forall e, e ∈ log_range logs first hi -> 0 < li_lsn e;
  ll_full : forall t, first <= t <= hi -> logs t <> []
}.
Context (HL : lsn_log).

Lemma log_range_elem a b e : e ∈ log_range logs a b <-> exists t, a <= t <= b /\ e ∈ logs t.
Proof.
  unfold log_range. rewrite elem_of_concat_map. split; intros (t & Ht & He); exists t; (split; [|done]); [apply elem_of_seqZ in Ht|apply elem_of_seqZ]; lia.
Qed.

Lemma log_range_cons t : t <= hi -> log_range logs t hi = logs t ++ log_range logs (t + 1) hi.
Proof. intros Ht. rewrite (log_range_split logs t t hi) by lia. by rewrite log_range_one. Qed.

(** ** Reading a table *)

Lemma order_at d t k L : table_log d t L -> log_index_get_order_lsn d (Z.of_nat k) = Done (L !! k).
Proof. intros [(free & A & Q & HR) _]. by apply (get_order_lsn_log hash d free A Q L HR). Qed.

Lemma order_len d t L : table_log d t L -> td_last_order d = Z.of_nat (length L).
Proof. intros [(free & A & Q & HR) _]. by rewrite (tr_last _ _ _ _ _ _ HR), (tr_len _ _ _ _ _ _ HR). Qed.

(** Reading a saved table may put it in memory in place of another one. *)
Lemma read_keeps s cache t :
  lsn_tables s cache -> first <= t < lo ->
  exists s' c d, log_index_read_table try_lock dir s cache t = Done (s', c, d) /\ table_log d t (logs t) /\ lsn_tables s' c.
Proof.
  intros HT Ht. pose proof (ll_ids HL) as Hids. pose proof (ln_saved _ _ HT ltac:(lia)) as HS.
  assert (0 <= (t - 1) mod mem_tbl_size s < mem_tbl_size s) as Hmid by (apply Z.mod_pos_bound, HS).
  destruct (read_table_spec hash logs first lo hi ltac:(lia) try_lock dir s cache t HS Ht) as (s' & c & d & free & Hread & Hrep & HS' & Hid & Hcase).
  cbv zeta in Hcase. exists s', c, d. split; [done|].
  assert (table_log d t (logs t)) as Hd.
  { destruct Hcase as [(-> & Hst & ->)|[Hd _]]; [|by eapply ln_storage].
    destruct (ln_slot _ _ HT _ Hmid) as [_ Hs]; [unfold LOG_INDEX_MEM_TBL_TID; lia|].
    unfold LOG_INDEX_MEM_TBL_TID in Hs. rewrite Hid in Hs. apply Hs. lia. }
  split; [done|]. destruct Hcase as [(-> & _)|[_ [->|[Hst ->]]]]; [destruct HT; by split..|].
  destruct HT as [T1 T2 T3 T4 T5 _ T7 T8 T10 T9]. split; try done; [by rewrite set_table_size|..].
  - intros t' Ht' tb. unfold tb. clear tb. rewrite set_table_size, get_set_table by done. destruct (decide _) as [E|]; [|by apply T8].
    destruct (T8 t' Ht') as (_ & _ & Hfl & _). rewrite <- E in Hfl. done.
  - intros mid Hm tb. unfold tb. clear tb. rewrite set_table_size in Hm. rewrite get_set_table by done. destruct (decide _) as [E|]; [|by apply T9].
    unfold LOG_INDEX_MEM_TBL_TID. cbn [lt_data lt_state]. rewrite Hid. intros _. split; [lia|]. done.
Qed.

Lemma get_table_spec s cache it t :
  lsn_tables s cache -> lit_idx_table_id it = t -> first <= t <= hi ->
  exists s' c st d, log_index_get_table_data try_lock dir s cache it = Done (s', c, Some (st, d)) /\ table_log d t (logs t) /\
    lsn_tables s' c /\ (st = Some LOG_INDEX_MEM_TBL_STATE_ACTIVE <-> t = hi /\ open = true).
Proof.
  intros HT Hit Ht. pose proof (ll_ids HL) as Hids. unfold log_index_get_table_data. rewrite Hit, u64_small by (unfold is_u64; lia).
  assert (0 <= (t - 1) mod mem_tbl_size s < mem_tbl_size s) as Hmid by (apply Z.mod_pos_bound, HT).
  destruct (LOG_INDEX_MEM_TBL_TID _ =? t) eqn:E; zbool.
  - eexists s, cache, _, _. split; [done|]. destruct (decide (t < lo)) as [Hlt|Hge].
    + destruct (ln_slot _ _ HT _ Hmid ltac:(lia)) as [_ Hs]. rewrite E in Hs. destruct (Hs Hlt) as [Hst Hd].
      split; [done|]. split; [done|]. rewrite Hst. split; [done|]. intros [? Ho%(ln_open _ _ HT)]. lia.
    + destruct (ln_unsaved _ _ HT t ltac:(lia)) as (Hd & _ & _ & Ha). split; [done|]. split; [done|]. rewrite <- Ha. split; [congruence|by intros ->].
  - assert (t < lo) as Hlt.
    { apply Znot_ge_lt. intros Hge. destruct (ln_unsaved _ _ HT t ltac:(lia)) as ((_ & Hid & _) & _). done. }
    rewrite (ln_meta _ _ HT). destruct (t >? lo - 1) eqn:E2; zbool; [lia|].
    destruct (read_keeps s cache t HT ltac:(lia)) as (s' & c & d & -> & Hd & HT'). cbn [obind].
    eexists s', c, None, d. split; [done|]. split; [done|]. split; [done|]. split; [done|]. intros [? Ho%(ln_open _ _ HT)]. lia.
Qed.

(** After the last table there is none. *)
Lemma get_table_end s cache it :
  lsn_tables s cache -> lit_idx_table_id it = hi + 1 -> log_index_get_table_data try_lock dir s cache it = Done (s, cache, None).
Proof.
  intros HT Hit. pose proof (ll_ids HL) as Hids. unfold log_index_get_table_data. rewrite Hit, u64_small by (unfold is_u64; lia).
  destruct (LOG_INDEX_MEM_TBL_TID _ =? hi + 1) eqn:E; zbool.
  { assert (0 <= (hi + 1 - 1) mod mem_tbl_size s < mem_tbl_size s) as Hmid by (apply Z.mod_pos_bound, HT).
    destruct (ln_slot _ _ HT _ Hmid ltac:(lia)) as [? _]. lia. }
  rewrite (ln_meta _ _ HT). destruct (hi + 1 >? lo - 1) eqn:E2; zbool; [done|lia].
Qed.

(** ** Reading on *)

(** The iterator is at entry [k] of table [t], and [rest] is left. *)
Definition at_pos (it : log_index_lsn_iter_data_t) (rest : list log_index_lsn_t) : Prop :=
  exists t k, lit_state it = ITERATE_STATE_BACKWARD /\ lit_idx_table_id it = t /\ lit_idx it = Z.of_nat k /\
    first <= t <= hi + 1 /\ (t <= hi -> (k <= length (logs t))%nat) /\ (t = hi + 1 -> k = 0%nat /\ open = false) /\
    rest = drop k (log_range logs t hi) /\ exists e, e ∈ log_range logs first hi /\ lit_start_lsn it <= li_lsn e.

Lemma at_pos_next it st d t k (rest : list log_index_lsn_t) :
  at_pos it rest -> lit_idx_table_id it = t -> lit_idx it = Z.of_nat k -> first <= t <= hi -> table_log d t (logs t) ->
  (st = Some LOG_INDEX_MEM_TBL_STATE_ACTIVE <-> t = hi /\ open = true) ->
  exists it' b, log_index_lsn_iterator_update it st d = (it', b) /\ at_pos it' rest /\
    ((b = false /\ it' = it /\ (k < length (logs t) \/ t = hi)%nat) \/
     (b = true /\ k = length (logs t) /\ lit_idx_table_id it' = t + 1)).
Proof.
  intros HP Ht Hk Hr Hd Hact. pose proof (ll_ids HL) as Hids. unfold log_index_lsn_iterator_update.
  destruct HP as (t0 & k0 & Hst & Ht0 & Hk0 & Hr0 & Hlen & _ & Hrest & He). assert (t0 = t) as -> by lia. assert (k0 = k) as -> by lia.
  specialize (Hlen ltac:(lia)). rewrite (order_len d t (logs t) Hd), Hk.
  assert (at_pos it rest) as HP by (exists t, k; repeat split; try done; try lia).
  assert ((k = length (logs t) -> t = hi -> open = false) -> exists it' b, (if Z.of_nat k =? Z.of_nat (length (logs t))
            then (lit_set_idx (lit_set_table it (u64 (lit_idx_table_id it + 1))) 0, true) else (it, false)) = (it', b) /\ at_pos it' rest /\
            ((b = false /\ it' = it /\ (k < length (logs t) \/ t = hi)%nat) \/ (b = true /\ k = length (logs t) /\ lit_idx_table_id it' = t + 1))) as Hnext.
  { intros Hopen. destruct (_ =? _) eqn:E; zbool; [|exists it, false; split; [done|]; split; [done|]; left; split; [done|]; split; [done|]; left; lia].
    eexists _, true. split; [done|]. rewrite Ht, u64_small by (unfold is_u64; lia). split; [|right; split; [done|]; split; [lia|done]].
    exists (t + 1), 0%nat. cbn [lit_set_idx lit_set_table lit_state lit_idx_table_id lit_idx lit_start_lsn].
    split; [done|]. split; [done|]. split; [done|]. split; [lia|]. split; [lia|]. split; [intros; split; [done|]; apply Hopen; lia|]. split; [|done].
    rewrite Hrest, log_range_cons by lia. rewrite drop_app_ge by lia. by replace (k - length (logs t))%nat with 0%nat by lia. }
  assert (st <> Some LOG_INDEX_MEM_TBL_STATE_ACTIVE -> k = length (logs t) -> t = hi -> open = false) as Hclosed.
  { intros Hne _ Hh. destruct open; [|done]. destruct Hne. by apply Hact. }
  destruct st as [st|]; [|apply Hnext, Hclosed; done]. destruct (st =? LOG_INDEX_MEM_TBL_STATE_ACTIVE) eqn:Ea; zbool; [|apply Hnext, Hclosed; congruence].
  cbn [negb]. exists it, false. split; [done|]. split; [done|]. left. split; [done|]. split; [done|]. right. apply Hact. by rewrite Ea.
Qed.

Lemma order_small d t L : table_log d t L -> Z.of_nat (length L) < 2 ^ 32.
Proof.
  intros Hd. rewrite <- (order_len d t L Hd). destruct Hd as [(free & A & Q & HR) _]. pose proof (order_fits hash d free A Q L HR) as H.
  unfold LOG_INDEX_MAX_ORDER_NUM, LOG_INDEX_MEM_TBL_SEG_NUM, LOG_INDEX_ITEM_SEG_LSN_NUM in H. lia.
Qed.

(** The next entry, and the position after it. *)
Lemma at_pos_take it t k e d (rest : list log_index_lsn_t) :
  at_pos it rest -> lit_idx_table_id it = t -> lit_idx it = Z.of_nat k -> first <= t <= hi -> table_log d t (logs t) ->
  logs t !! k = Some e ->
  head rest = Some e /\ 0 < li_lsn e /\ at_pos (lit_set_idx it (u32 (lit_idx it + 1))) (tail rest) /\
  lit_idx (lit_set_idx it (u32 (lit_idx it + 1))) = Z.of_nat (S k).
Proof.
  intros HP Ht Hk Hr Hd He. destruct HP as (t0 & k0 & Hst & Ht0 & Hk0 & Hr0 & Hlen & _ & Hrest & Hex).
  assert (t0 = t) as -> by lia. assert (k0 = k) as -> by lia. pose proof (order_small d t _ Hd) as Hsm. pose proof (lookup_lt_Some _ _ _ He) as Hlt.
  assert (rest = e :: drop (S k) (log_range logs t hi)) as ->.
  { rewrite Hrest. apply drop_S. rewrite log_range_cons by lia. by apply lookup_app_l_Some. }
  assert (u32 (lit_idx it + 1) = Z.of_nat (S k)) as Hu by (rewrite Hk, u32_small; [lia|unfold is_u32; lia]).
  split; [done|]. split; [|split; [|exact Hu]].
  - apply (ll_pos HL). apply log_range_elem. exists t. split; [lia|]. by eapply list_elem_of_lookup_2.
  - exists t, (S k). cbn [lit_set_idx lit_state lit_idx_table_id lit_idx lit_start_lsn tail]. repeat split; try done; lia.
Qed.

Lemma update_start it st d it' b : log_index_lsn_iterator_update it st d = (it', b) -> lit_start_lsn it' = lit_start_lsn it.
Proof.
  unfold log_index_lsn_iterator_update.
  destruct (_ =? td_last_order d); destruct st as [st|]; try destruct (negb _); intros [= <-]; done.
Qed.

Lemma lsn_next_loop_spec fuel s cache it rest :
  lsn_tables s cache -> at_pos it rest -> hi + 1 - lit_idx_table_id it < Z.of_nat fuel ->
  exists s' c it', lsn_next_loop try_lock dir fuel s cache it = Done (s', c, it', head rest) /\ lsn_tables s' c /\
    at_pos it' (tail rest) /\ lit_start_lsn it' = lit_start_lsn it.
Proof.
  revert s cache it. induction fuel as [|n IH]; intros s cache it HT HP Hf.
  { destruct HP as (t & k & ? & ? & ? & ? & _). lia. }
  cbn [lsn_next_loop]. pose proof HP as (t & k & Hst & Ht & Hk & Hr & Hlen & Hend & Hrest & Hex).
  destruct (decide (t = hi + 1)) as [->|Hne].
  { rewrite (get_table_end s cache it HT Ht). cbn [obind]. destruct (Hend eq_refl) as [-> _].
    assert (rest = []) as -> by (rewrite Hrest; by rewrite log_range_empty by lia).
    exists s, cache, it. done. }
  destruct (get_table_spec s cache it t HT Ht ltac:(lia)) as (s' & c & st & d & -> & Hd & HT' & Hact). cbn [obind].
  rewrite Hk, (order_at d t k _ Hd). cbn [obind]. destruct (logs t !! k) as [e|] eqn:Ee.
  - destruct (at_pos_take it t k e d rest HP Ht Hk ltac:(lia) Hd Ee) as (Hh & Hpos & HP1 & Hk1).
    assert ((li_lsn e =? InvalidXLogRecPtr) = false) as -> by (unfold InvalidXLogRecPtr; lia). cbn [negb]. rewrite <- Hk.
    destruct (at_pos_next _ st d t (S k) (tail rest) HP1 Ht Hk1 ltac:(lia) Hd Hact) as (it' & b & Hup & HP' & Hcase). rewrite Hup.
    exists s', c, it'. rewrite Hh. split; [done|]. split; [done|]. split; [done|].
    by apply update_start in Hup.
  - specialize (Hlen ltac:(lia)). apply lookup_ge_None in Ee.
    destruct (at_pos_next it st d t k rest HP Ht Hk ltac:(lia) Hd Hact) as (it' & b & Hup & HP' & Hcase). rewrite Hup.
    destruct Hcase as [(-> & -> & [?| ->])|(-> & _ & Ht')]; [lia|..].
    + assert (rest = []) as ->.
      { rewrite Hrest, log_range_one. apply drop_ge. lia. }
      exists s', c, it. done.
    + destruct (IH s' c it' HT' HP' ltac:(lia)) as (s2 & c2 & it2 & -> & H2 & H3 & H4). exists s2, c2, it2. split; [done|]. split; [done|].
      split; [done|]. rewrite H4. by apply update_start in Hup.
Qed.

(** ** The search for the start *)

Lemma log_mono t1 t2 e1 e2 : first <= t1 < t2 -> t2 <= hi -> e1 ∈ logs t1 -> e2 ∈ logs t2 -> li_lsn e1 <= li_lsn e2.
Proof.
  intros H1 H2 He1 He2. pose proof (ll_sorted HL) as Hs. rewrite (log_range_split logs first t1 hi), map_app in Hs by lia.
  eapply StronglySorted_app_1_elem_of; [exact Hs|..]; apply list_elem_of_fmap_2, log_range_elem; eexists; (split; [|done]); lia.
Qed.

Lemma table_sorted t : first <= t <= hi -> lsn_sorted (logs t).
Proof.
  intros Ht. pose proof (ll_sorted HL) as Hs. rewrite (log_range_split logs first (t - 1) hi), map_app in Hs by lia.
  apply StronglySorted_app_1_r in Hs. replace (t - 1 + 1) with t in Hs by lia. rewrite log_range_cons, map_app in Hs by lia.
  by apply StronglySorted_app_1_l in Hs.
Qed.

Lemma sorted_range L (a z : log_index_lsn_t) e :
  lsn_sorted L -> head L = Some a -> list.last L = Some z -> e ∈ L -> li_lsn a <= li_lsn e <= li_lsn z.
Proof.
  intros Hs Ha Hz He. apply list_elem_of_split in He as (l1 & l2 & ->). rewrite map_app in Hs. cbn [map] in Hs. split.
  - destruct l1 as [|x l1]; cbn in Ha; injection Ha as ->; [lia|]. eapply StronglySorted_app_1_elem_of; [exact Hs|set_solver..].
  - rewrite last_app_cons in Hz. apply StronglySorted_app_1_r in Hs. inversion Hs as [|? ? _ Hall]. rewrite Forall_forall in Hall.
    destruct l2 as [|y l2]; [cbn in Hz; injection Hz as ->; lia|]. rewrite last_cons_cons in Hz.
    apply Hall. apply list_elem_of_fmap_2. rewrite last_lookup in Hz. by eapply list_elem_of_lookup_2.
Qed.

Lemma table_range d t : first <= t <= hi -> table_log d t (logs t) ->
  exists a z, a ∈ logs t /\ z ∈ logs t /\ td_min_lsn d = li_lsn a /\ td_max_lsn d = li_lsn z /\ 0 < li_lsn z /\
    forall e, e ∈ logs t -> li_lsn a <= li_lsn e <= li_lsn z.
Proof.
  intros Ht (_ & _ & a & z & Ha & Hz & Hmin & Hmax). exists a, z.
  assert (z ∈ logs t) as Hzin by (rewrite last_lookup in Hz; by eapply list_elem_of_lookup_2).
  repeat split; try done.
  - rewrite head_lookup in Ha. by eapply list_elem_of_lookup_2.
  - apply (ll_pos HL), log_range_elem. exists t. split; [lia|done].
  - by apply (sorted_range (logs t) a z e (table_sorted t ltac:(lia))).
  - by apply (sorted_range (logs t) a z e (table_sorted t ltac:(lia))).
Qed.

Definition from (start : Z) : list log_index_lsn_t := filter (fun e => start <= li_lsn e) (log_range logs first hi).

(** The tables above [t] were searched: all their entries count. *)
Definition searching (it : log_index_lsn_iter_data_t) (t : Z) : Prop :=
  lit_state it = ITERATE_STATE_FORWARD /\ lit_idx it = 0 /\ first - 1 <= t <= hi /\
  (forall t' e, t < t' <= hi -> e ∈ logs t' -> lit_start_lsn it <= li_lsn e) /\
  ((lit_last_search_tid it = t + 1 /\ t < hi) \/ (lit_last_search_tid it = 0 /\ (t = hi \/ lit_start_lsn it = 0))).

(** The first table with entries that count. *)
Definition found (it : log_index_lsn_iter_data_t) : Prop :=
  lit_state it = ITERATE_STATE_BACKWARD /\ lit_idx it = 0 /\ exists t, lit_idx_table_id it = t /\ first <= t <= hi /\
  (forall t' e, first <= t' < t -> e ∈ logs t' -> li_lsn e < lit_start_lsn it) /\
  (forall t' e, t < t' <= hi -> e ∈ logs t' -> lit_start_lsn it <= li_lsn e) /\
  exists e, e ∈ logs t /\ lit_start_lsn it <= li_lsn e.

Definition nothing (it it' : log_index_lsn_iter_data_t) : Prop :=
  lit_state it' = ITERATE_STATE_FINISHED /\ lit_idx it' = 0 /\ lit_last_search_tid it = 0 /\
  lit_idx_table_id it' = lit_idx_table_id it /\ from (lit_start_lsn it) = [].

Lemma table_entry t : first <= t <= hi -> exists e, e ∈ logs t /\ 0 < li_lsn e.
Proof.
  intros Ht. pose proof (ll_full HL t Ht) as Hne. destruct (logs t) as [|e L] eqn:EL; [done|]. exists e. split; [by left|].
  apply (ll_pos HL), log_range_elem. exists t. split; [done|]. rewrite EL. by left.
Qed.

Lemma meta_lsn_nonneg s cache : lsn_tables s cache -> 0 <= me_max_lsn (ls_meta s).
Proof.
  intros HT. pose proof (ll_ids HL). destruct (decide (first = lo)) as [Heq|]; [by rewrite (ln_none _ _ HT Heq)|].
  destruct (table_entry first ltac:(lia)) as (e & He & Hp). pose proof (ln_meta_lsn _ _ HT first e ltac:(lia) He). lia.
Qed.

Lemma set_search_spec it d t :
  searching it t -> first <= t -> table_log d t (logs t) ->
  let it' := log_index_set_search_table it d in
  lit_start_lsn it' = lit_start_lsn it /\ ((searching it' (t - 1) /\ lit_last_search_tid it' = t) \/ found it' \/ nothing it it').
Proof.
  intros (Hst & Hidx & Ht & Habove & Hlast) Hf Hd. pose proof (ll_ids HL) as Hids.
  destruct (table_range d t ltac:(lia) Hd) as (a & z & Ha & Hz & Hmin & Hmax & Hpos & Hr). destruct Hd as (_ & Hid & _).
  unfold log_index_set_search_table. rewrite Hid, Hmin, Hmax. destruct (li_lsn z =? InvalidXLogRecPtr) eqn:E0; zbool; [unfold InvalidXLogRecPtr in E0; lia|].
  cbn [negb]. destruct (lit_start_lsn it >? li_lsn z) eqn:E1; zbool.
  { assert (forall t' e, first <= t' <= t -> e ∈ logs t' -> li_lsn e < lit_start_lsn it) as Hbelow.
    { intros t' e Ht' He. destruct (decide (t' = t)) as [->|]; [specialize (Hr e He); lia|].
      pose proof (log_mono t' t e z ltac:(lia) ltac:(lia) He Hz). lia. }
    destruct Hlast as [[Hl Hlt]|[Hl Hc]]; rewrite Hl.
    - destruct (t + 1 =? LOG_INDEX_TABLE_INVALID_ID) eqn:E2; zbool; [unfold LOG_INDEX_TABLE_INVALID_ID in E2; lia|].
      split; [done|]. right. left. split; [done|]. split; [done|]. exists (t + 1). rewrite u64_small by (unfold is_u64; lia).
      split; [done|]. split; [lia|]. split; [intros t' e Ht'; apply Hbelow; lia|]. split; [intros t' e Ht'; apply Habove; lia|].
      destruct (table_entry (t + 1) ltac:(lia)) as (e & He & _). exists e. split; [done|]. apply (Habove (t + 1)); [lia|done].
    - split; [done|]. right. right. split; [done|]. split; [done|]. split; [done|]. split; [done|]. apply filter_none.
      intros e (t' & Ht' & He)%log_range_elem Hge. destruct Hc as [->|Hz0]; [specialize (Hbelow t' e ltac:(lia) He); lia|lia]. }
  assert (li_lsn a <= lit_start_lsn it \/ lit_start_lsn it < li_lsn a) as [H2|H2] by lia.
  2: { destruct (lit_start_lsn it >=? li_lsn a) eqn:E2; zbool; [lia|]. cbn [andb]. split; [done|]. left. split; [|done].
       split; [done|]. split; [done|]. split; [lia|]. split; [|cbn; left; split; lia].
       intros t' e Ht' He. cbn. destruct (decide (t' = t)) as [->|]; [specialize (Hr e He); lia|]. apply (Habove t'); [lia|done]. }
  destruct (lit_start_lsn it >=? li_lsn a) eqn:E2; zbool; [|lia]. destruct (lit_start_lsn it <=? li_lsn z) eqn:E3; zbool; [|lia]. cbn [andb].
  destruct (lit_start_lsn it =? li_lsn a) eqn:E4; zbool; cbn [negb].
  - split; [done|]. left. split; [|done]. split; [done|]. split; [done|]. split; [lia|]. split; [|cbn; left; split; lia].
    intros t' e Ht' He. cbn. destruct (decide (t' = t)) as [->|]; [specialize (Hr e He); lia|]. apply (Habove t'); [lia|done].
  - split; [done|]. right. left. split; [done|]. split; [done|]. exists t. cbn. split; [done|]. split; [lia|]. split; [|split; [done|]].
    + intros t' e Ht' He. pose proof (log_mono t' t e a ltac:(lia) ltac:(lia) He Ha). lia.
    + exists z. split; [done|]. lia.
Qed.

Lemma start_order_spec n d t L start k :
  table_log d t L -> lsn_sorted L -> (n + k = length L)%nat -> (exists e, e ∈ drop k L /\ start <= li_lsn e) ->
  exists j, start_order_loop n d start (Z.of_nat k) = Done (Some (Z.of_nat j)) /\ (j <= length L)%nat /\
    filter (fun e => start <= li_lsn e) (drop k L) = drop j L.
Proof.
  intros Hd Hs. revert k. induction n as [|n IH]; intros k Hn (e0 & He0 & Hge).
  { rewrite drop_ge in He0 by lia. by apply not_elem_of_nil in He0. }
  cbn [start_order_loop]. rewrite (order_at d t k L Hd). cbn [obind].
  assert (is_Some (L !! k)) as [e He] by (apply lookup_lt_is_Some; lia). rewrite He. rewrite (drop_S _ _ _ He) in He0 |- *.
  destruct (li_lsn e >=? start) eqn:E; zbool.
  - exists k. split; [done|]. split; [lia|]. rewrite (drop_S _ _ _ He). apply filter_all.
    intros x [->|Hx]%elem_of_cons; [lia|]. rewrite <- (take_drop_middle L k e He), map_app in Hs. apply StronglySorted_app_1_r in Hs.
    inversion Hs as [|? ? _ Hall]. rewrite Forall_forall in Hall. specialize (Hall (li_lsn x) ltac:(by apply list_elem_of_fmap_2)). lia.
  - apply elem_of_cons in He0 as [->|He0]; [lia|]. destruct (IH (S k) ltac:(lia)) as (j & Hl & Hj & Hfl); [by exists e0|].
    exists j. split; [rewrite <- Hl; f_equal; lia|]. split; [done|]. rewrite filter_cons_False by lia. done.
Qed.

Lemma from_split start t : first <= t <= hi ->
  (forall t' e, first <= t' < t -> e ∈ logs t' -> li_lsn e < start) -> (forall t' e, t < t' <= hi -> e ∈ logs t' -> start <= li_lsn e) ->
  from start = filter (fun e => start <= li_lsn e) (logs t) ++ log_range logs (t + 1) hi.
Proof.
  intros Ht Hb Ha. unfold from. rewrite (log_range_split logs first (t - 1) hi) by lia. replace (t - 1 + 1) with t by lia.
  rewrite (log_range_cons t) by lia. rewrite !filter_app. rewrite (filter_none _ (log_range logs first (t - 1))).
  - cbn [app]. f_equal. apply filter_all. intros e (t' & Ht' & He)%log_range_elem. apply (Ha t'); [lia|done].
  - intros e (t' & Ht' & He)%log_range_elem Hge. specialize (Hb t' e ltac:(lia) He). lia.
Qed.

Lemma start_order_found s cache it :
  lsn_tables s cache -> found it ->
  exists s' c it', log_index_set_start_order try_lock dir s cache it = Done (s', c, it') /\ lsn_tables s' c /\
    at_pos it' (from (lit_start_lsn it)) /\ lit_start_lsn it' = lit_start_lsn it.
Proof.
  intros HT (Hst & Hidx & t & Ht & Hr & Hb & Ha & e & He & Hge). unfold log_index_set_start_order. rewrite bool_decide_true by done.
  destruct (get_table_spec s cache it t HT Ht Hr) as (s' & c & st & d & -> & Hd & HT' & _). cbn [obind].
  unfold log_index_set_search_start_order. pose proof Hd as (_ & Hid & _). rewrite Hid, Ht, Z.eqb_refl. cbn [negb].
  rewrite (order_len d t _ Hd), Nat2Z.id.
  destruct (start_order_spec (length (logs t)) d t (logs t) (lit_start_lsn it) 0 Hd (table_sorted t Hr) ltac:(lia)) as (j & Hl & Hj & Hfl).
  { exists e. by rewrite drop_0. }
  change (Z.of_nat 0) with 0 in Hl. rewrite Hl. cbn [obind]. eexists s', c, _. split; [done|]. split; [done|]. split; [|done].
  exists t, j. cbn [lit_set_idx lit_state lit_idx_table_id lit_idx lit_start_lsn]. rewrite drop_0 in Hfl.
  split; [done|]. split; [done|]. split; [done|]. split; [lia|]. split; [done|]. split; [lia|]. split.
  - rewrite (from_split _ t Hr Hb Ha), Hfl, (log_range_cons t) by lia. by rewrite drop_app_le.
  - exists e. split; [|done]. apply log_range_elem. by exists t.
Qed.

Lemma start_order_other s cache it : lit_state it <> ITERATE_STATE_BACKWARD -> log_index_set_start_order try_lock dir s cache it = Done (s, cache, it).
Proof. intros H. unfold log_index_set_start_order. by rewrite bool_decide_false. Qed.

Lemma mem_loop_spec fuel s cache it t :
  lsn_tables s cache -> searching it t -> t - first + 1 < Z.of_nat fuel ->
  exists it', search_mem_loop fuel s it t ((t - 1) mod mem_tbl_size s) = Done it' /\ lit_start_lsn it' = lit_start_lsn it /\
    ((exists t', searching it' t' /\ t' < lo /\ (lit_last_search_tid it' = 0 -> it' = it /\ t' = t)) \/ found it' \/ nothing it it').
Proof.
  intros HT. pose proof (ll_ids HL) as Hids. revert it t. induction fuel as [|n IH]; intros it t HI Hf; [pose proof HI as (_ & _ & ? & _); lia|].
  pose proof HI as (Hst & Hidx & Ht & Habove & Hlast). cbn [search_mem_loop].
  assert (0 <= (t - 1) mod mem_tbl_size s < mem_tbl_size s) as Hmid by (apply Z.mod_pos_bound, HT).
  set (tb := LOG_INDEX_MEM_TBL s ((t - 1) mod mem_tbl_size s)).
  assert (lo <= t -> (t =? LOG_INDEX_MEM_TBL_TID tb) = true /\ lt_state tb <> LOG_INDEX_MEM_TBL_STATE_FREE) as Hlo.
  { intros Hlo. destruct (ln_unsaved _ _ HT t ltac:(lia)) as ((_ & Hid & _) & Hfree & _). fold tb in Hid, Hfree. split; [|done].
    apply Z.eqb_eq. by symmetry. }
  unfold LOG_INDEX_TABLE_INVALID_ID. destruct (negb (t =? 0) && (t =? LOG_INDEX_MEM_TBL_TID tb) && negb (lt_state tb =? LOG_INDEX_MEM_TBL_STATE_FREE)) eqn:E.
  2: { exists it. split; [done|]. split; [done|]. left. exists t. split; [done|]. split; [|done]. apply Znot_ge_lt. intros Hge.
       destruct (Hlo ltac:(lia)) as [H1 H2]. rewrite H1 in E. destruct (t =? 0) eqn:E0; zbool; [lia|].
       destruct (lt_state tb =? LOG_INDEX_MEM_TBL_STATE_FREE) eqn:E1; zbool; [done|]. done. }
  zbool. destruct (ln_slot _ _ HT _ Hmid) as [Hr Hsl]; [fold tb; lia|]. fold tb in Hr, Hsl.
  assert (table_log (lt_data tb) t (logs t)) as Hd.
  { destruct (decide (t < lo)); [|apply (ln_unsaved _ _ HT); lia].
    replace t with (LOG_INDEX_MEM_TBL_TID tb) by congruence. apply Hsl. lia. }
  destruct (set_search_spec it (lt_data tb) t HI ltac:(lia) Hd) as [Hs [[HI' Hlast']|[HF|HN]]].
  - rewrite bool_decide_true by apply HI'. rewrite (prev_id_mod s (t - 1)) by apply HT.
    destruct (IH _ (t - 1) HI' ltac:(lia)) as (it' & -> & Hs' & Hres). exists it'. split; [done|]. split; [congruence|].
    destruct Hres as [(t' & HI2 & Hlt & Hz)|[HF|(_ & _ & HN & _)]]; [|by right; left|lia].
    left. exists t'. split; [done|]. split; [done|]. intros Hz0. destruct (Hz Hz0) as [-> _]. lia.
  - rewrite bool_decide_false by (destruct HF as [-> _]; done). eexists. split; [done|]. split; [done|]. right. by left.
  - rewrite bool_decide_false by (destruct HN as [-> _]; done). eexists. split; [done|]. split; [done|]. right. by right.
Qed.

Lemma file_search_spec fuel s cache it t :
  lsn_tables s cache -> searching it t -> t < lo -> t - first + 1 < Z.of_nat fuel ->
  exists s' c it', search_file_loop try_lock dir fuel s cache it first t = Done (s', c, it') /\ lsn_tables s' c /\
    lit_start_lsn it' = lit_start_lsn it /\ (searching it' (first - 1) \/ found it' \/ nothing it it').
Proof.
  pose proof (ll_ids HL) as Hids. revert s cache it t. induction fuel as [|n IH]; intros s cache it t HT HI Hlt Hf; [pose proof HI as (_ & _ & ? & _); lia|].
  pose proof HI as (Hst & _ & Ht & _). cbn [search_file_loop]. rewrite bool_decide_true by done. rewrite andb_true_r. unfold LOG_INDEX_TABLE_INVALID_ID.
  destruct (t >=? first) eqn:E; zbool; [|rewrite andb_false_r; exists s, cache, it; split; [done|]; split; [done|]; split; [done|]; left; by replace (first - 1) with t by lia].
  destruct (t =? 0) eqn:E0; zbool; [lia|]. cbn [negb andb].
  destruct (read_keeps s cache t HT ltac:(lia)) as (s' & c & d & -> & Hd & HT'). cbn [obind].
  destruct (set_search_spec it d t HI ltac:(lia) Hd) as [Hs [[HI' Hlast']|HD]].
  - destruct (IH s' c _ (t - 1) HT' HI' ltac:(lia) ltac:(lia)) as (s2 & c2 & it' & -> & HT2 & Hs' & Hres). exists s2, c2, it'.
    split; [done|]. split; [done|]. split; [congruence|]. destruct Hres as [HI2|[HF|(_ & _ & HN & _)]]; [by left|by right; left|lia].
  - destruct n as [|n]; [lia|]. cbn [search_file_loop]. rewrite bool_decide_false, andb_false_r by (destruct HD as [[-> _]|[-> _]]; done).
    exists s', c, (log_index_set_search_table it d). split; [done|]. split; [done|]. split; [done|]. by right.
Qed.

(** The outcome of the search: the position of the first entry that counts,
    or nothing yet. *)
Definition searched_to (it it' : log_index_lsn_iter_data_t) : Prop :=
  lit_start_lsn it' = lit_start_lsn it /\ (at_pos it' (from (lit_start_lsn it)) \/ nothing it it').

Lemma search_file_spec s cache it t :
  lsn_tables s cache -> searching it t -> t < lo -> (lit_last_search_tid it = 0 -> t = lo - 1) -> 0 < lit_start_lsn it \/ first < lo ->
  0 <= lit_start_lsn it ->
  exists s' c it', log_index_search_file_tbl_lsn try_lock dir s cache it = Done (s', c, it') /\ lsn_tables s' c /\ searched_to it it'.
Proof.
  intros HT HI Hlt Hlast0 Hstart Hnn. pose proof (ll_ids HL) as Hids. pose proof HI as (Hst & Hidx & Ht & Habove & Hlast).
  unfold log_index_search_file_tbl_lsn. cbv zeta. destruct (lit_start_lsn it >? me_max_lsn (ls_meta s)) eqn:E; zbool.
  { assert (forall t' e, first <= t' <= t -> e ∈ logs t' -> li_lsn e < lit_start_lsn it) as Hbelow.
    { intros t' e Ht' He. pose proof (ln_meta_lsn _ _ HT t' e ltac:(lia) He). lia. }
    unfold LOG_INDEX_TABLE_INVALID_ID. destruct (lit_last_search_tid it =? 0) eqn:E0; zbool.
    - eexists _, _, _. split; [done|]. split; [done|]. split; [done|]. right. split; [done|]. split; [done|]. split; [done|]. split; [done|].
      apply filter_none. intros e (t' & Ht' & He)%log_range_elem Hge.
      destruct Hlast as [[? _]|[_ [->| ?]]]; [lia|specialize (Hbelow t' e ltac:(lia) He); lia|].
      pose proof (meta_lsn_nonneg s cache HT). lia.
    - destruct Hlast as [[Hl Hlt']|[? _]]; [|lia]. eexists _, _, _. split; [done|]. split; [done|]. split; [done|]. left.
      assert (from (lit_start_lsn it) = log_range logs (t + 1) hi) as ->.
      { unfold from. rewrite (log_range_split logs first t hi), filter_app by lia. rewrite filter_none, filter_all; [done|..].
        - intros e (t' & Ht' & He)%log_range_elem. apply (Habove t'); [lia|done].
        - intros e (t' & Ht' & He)%log_range_elem Hge. specialize (Hbelow t' e Ht' He). lia. }
      exists (t + 1), 0%nat. cbn [lit_set_state lit_set_table lit_state lit_idx_table_id lit_idx lit_start_lsn]. rewrite drop_0.
      split; [done|]. split; [done|]. split; [done|]. split; [lia|]. split; [lia|]. split; [lia|]. split; [done|].
      destruct (table_entry (t + 1) ltac:(lia)) as (e & He & _). exists e.
      split; [apply log_range_elem; exists (t + 1); split; [lia|done]|apply (Habove (t + 1)); [lia|done]]. }
  assert (first < lo) as Hfl.
  { destruct (decide (first = lo)) as [Heq|]; [|lia]. pose proof (ln_none _ _ HT Heq). lia. }
  assert (log_index_next_search_file_tid (lit_last_search_tid it) (ls_meta s) = (t, false)) as ->.
  { unfold log_index_next_search_file_tid, LOG_INDEX_TABLE_INVALID_ID. rewrite (ln_meta _ _ HT).
    destruct (lit_last_search_tid it =? 0) eqn:E0; zbool; [by rewrite Hlast0|]. destruct Hlast as [[Hl _]|[? _]]; [|lia].
    rewrite Hl. replace (t + 1 - 1) with t by lia. destruct (t =? 0) eqn:E1; zbool; [by rewrite E1|]. destruct (t >? lo - 1) eqn:E2; zbool; [lia|done]. }
  rewrite (sv_first _ _ _ _ _ _ _ (ln_saved _ _ HT Hfl)).
  destruct (file_search_spec (S (Z.to_nat t)) s cache it t HT HI Hlt ltac:(lia)) as (s' & c & it' & -> & HT' & Hs & Hres). cbn [obind].
  destruct Hres as [HI'|[HF|HN]].
  - rewrite bool_decide_true by apply HI'. destruct HI' as (_ & Hidx' & _ & Ha' & _).
    destruct (start_order_found s' c (lit_set_state (lit_set_table it' first) ITERATE_STATE_BACKWARD) HT') as (s2 & c2 & it2 & -> & HT2 & HP & Hs2).
    { split; [done|]. split; [done|]. exists first. cbn. split; [done|]. split; [lia|]. split; [intros; lia|]. split; [intros t' e Ht'; apply Ha'; lia|].
      destruct (table_entry first ltac:(lia)) as (e & He & _). exists e. split; [done|]. apply (Ha' first); [lia|done]. }
    eexists _, _, _. split; [done|]. split; [done|]. cbn in Hs2, HP. split; [congruence|]. left. by rewrite <- Hs.
  - rewrite bool_decide_false by (destruct HF as [-> _]; done).
    destruct (start_order_found s' c it' HT' HF) as (s2 & c2 & it2 & -> & HT2 & HP & Hs2).
    eexists _, _, _. split; [done|]. split; [done|]. split; [congruence|]. left. by rewrite <- Hs.
  - rewrite bool_decide_false by (destruct HN as [-> _]; done). rewrite start_order_other by (destruct HN as [-> _]; done).
    eexists _, _, _. split; [done|]. split; [done|]. split; [done|]. by right.
Qed.

(** ** The calls of [next] *)

Definition unstarted (it : log_index_lsn_iter_data_t) : Prop :=
  lit_idx it = 0 /\
  ((lit_idx_table_id it = 0 /\ 0 < lit_start_lsn it) \/
   (lit_start_lsn it = 0 /\ lit_idx_table_id it = 1 /\ lit_state it = ITERATE_STATE_FORWARD /\ lit_last_search_tid it = 0 /\ first < lo)).

(** [rest] is what the iterator has still to return. *)
Definition reading (it : log_index_lsn_iter_data_t) (rest : list log_index_lsn_t) : Prop :=
  at_pos it rest \/ (unstarted it /\ rest = from (lit_start_lsn it)).

Lemma search_mem_spec s cache it :
  lsn_tables s cache -> lit_idx it = 0 -> lit_idx_table_id it = 0 -> 0 < lit_start_lsn it ->
  exists s1 c1 it1 s2 c2 it2,
    log_index_search_mem_tbl_lsn try_lock dir s cache (lit_set_last (lit_set_state it ITERATE_STATE_FORWARD) LOG_INDEX_TABLE_INVALID_ID) = Done (s1, c1, it1) /\
    (if bool_decide (lit_state it1 = ITERATE_STATE_FORWARD) then log_index_search_file_tbl_lsn try_lock dir s1 c1 it1 else Done (s1, c1, it1)) =
      Done (s2, c2, it2) /\ lsn_tables s2 c2 /\ lit_start_lsn it2 = lit_start_lsn it /\
    (at_pos it2 (from (lit_start_lsn it)) \/ (lit_state it2 = ITERATE_STATE_FINISHED /\ unstarted it2 /\ from (lit_start_lsn it) = [])).
Proof.
  intros HT Hidx Hid Hpos. pose proof (ll_ids HL) as Hids. unfold LOG_INDEX_TABLE_INVALID_ID.
  set (it0 := lit_set_last (lit_set_state it ITERATE_STATE_FORWARD) 0).
  assert (searching it0 hi) as HI by (split; [done|]; split; [done|]; split; [lia|]; split; [intros; lia|right; split; [done|by left]]).
  unfold log_index_search_mem_tbl_lsn. rewrite (ln_max _ _ HT), u64_small by (unfold is_u64; lia).
  destruct (mem_loop_spec (S (Z.to_nat hi)) s cache it0 hi HT HI ltac:(lia)) as (it1 & -> & Hs1 & Hres). cbn [obind].
  destruct Hres as [(t' & HI1 & Hlt & Hz)|[HF|HN]].
  - exists s, cache, it1. rewrite start_order_other by (destruct HI1 as [-> _]; done). rewrite bool_decide_true by apply HI1.
    destruct (search_file_spec s cache it1 t' HT HI1 Hlt) as (s2 & c2 & it2 & -> & HT2 & Hs2 & Hres); [intros E; destruct (Hz E); lia|rewrite Hs1; by left|rewrite Hs1; cbn; lia|].
    exists s2, c2, it2. split; [done|]. split; [done|]. split; [done|]. rewrite Hs1 in Hs2, Hres. split; [done|]. destruct Hres as [HP|HN]; [by left|right].
    destruct HN as (Hf & Hi0 & Hl & Hi2 & Hfrom). destruct (Hz Hl) as [-> _]. split; [done|]. split; [|done]. split; [done|]. left.
    rewrite Hi2, Hs2. done.
  - destruct (start_order_found s cache it1 HT HF) as (s2 & c2 & it2 & -> & HT2 & HP & Hs2). rewrite Hs1 in HP, Hs2.
    exists s2, c2, it2, s2, c2, it2. split; [done|]. rewrite bool_decide_false by (destruct HP as (? & ? & -> & _); done).
    split; [done|]. split; [done|]. split; [done|]. by left.
  - destruct HN as (Hf & Hi0 & Hl & Hi2 & Hfrom). rewrite start_order_other by (rewrite Hf; done).
    exists s, cache, it1, s, cache, it1. split; [done|]. rewrite bool_decide_false by (rewrite Hf; done). split; [done|]. split; [done|]. split; [done|].
    right. split; [done|]. split; [|done]. split; [done|]. left. rewrite Hi2, Hs1. done.
Qed.

Lemma lsn_next_spec s cache it rest :
  lsn_tables s cache -> reading it rest ->
  exists s' c it', polar_logindex_lsn_iterator_next try_lock dir s cache it = Done (s', c, it', head rest) /\ lsn_tables s' c /\
    reading it' (tail rest) /\ lit_start_lsn it' = lit_start_lsn it.
Proof.
  intros HT HR. pose proof (ll_ids HL) as Hids. unfold polar_logindex_lsn_iterator_next.
  assert (forall s cache it, lsn_tables s cache -> at_pos it rest ->
            exists s' c it', (if negb (bool_decide (lit_state it = ITERATE_STATE_BACKWARD)) then Done (s, cache, it, None)
               else lsn_next_loop try_lock dir (S (S (Z.to_nat (ls_max_idx_table_id s)))) s cache it) = Done (s', c, it', head rest) /\ lsn_tables s' c /\
            reading it' (tail rest) /\ lit_start_lsn it' = lit_start_lsn it) as Hloop.
  { intros s0 c0 it0 HT0 HP0. rewrite bool_decide_true by (destruct HP0 as (? & ? & -> & _); done). cbn [negb].
    destruct (lsn_next_loop_spec (S (S (Z.to_nat (ls_max_idx_table_id s0)))) s0 c0 it0 rest HT0 HP0) as (s' & c & it' & -> & HT' & HP' & Hs).
    { rewrite (ln_max _ _ HT0). destruct HP0 as (t & k & _ & -> & _ & ? & _). lia. }
    exists s', c, it'. split; [done|]. split; [done|]. split; [by left|done]. }
  destruct HR as [HP|[(Hidx & [[Hid Hpos]|(Hs0 & Hid & Hst & Hl & Hfl)]) ->]].
  - pose proof HP as (t & k & Hst & Hid & _ & Hr & _). unfold LOG_INDEX_TABLE_INVALID_ID.
    destruct (lit_idx_table_id it =? 0) eqn:E; zbool; [lia|]. cbn [obind]. rewrite (bool_decide_false (lit_state it = ITERATE_STATE_FORWARD)) by (rewrite Hst; done). cbn [obind].
    by apply Hloop.
  - rewrite Hid. change (0 =? LOG_INDEX_TABLE_INVALID_ID) with true. cbv iota.
    destruct (search_mem_spec s cache it HT Hidx Hid Hpos) as (s1 & c1 & it1 & s2 & c2 & it2 & -> & H2 & HT2 & Hs2 & Hres). cbn [obind].
    rewrite H2. cbn [obind]. destruct Hres as [HP|(Hf & Hun & Hfrom)].
    + destruct (Hloop s2 c2 it2 HT2 HP) as (s' & c & it' & H). rewrite Hs2 in H. by exists s', c, it'.
    + rewrite bool_decide_false by (rewrite Hf; done). cbn [negb]. exists s2, c2, it2. rewrite Hfrom. split; [done|]. split; [done|].
      split; [|done]. right. split; [done|]. by rewrite Hs2, Hfrom.
  - rewrite Hid. change (1 =? LOG_INDEX_TABLE_INVALID_ID) with false. cbn [obind]. rewrite bool_decide_true by done.
    destruct (search_file_spec s cache it (lo - 1) HT) as (s2 & c2 & it2 & -> & HT2 & Hs2 & Hres).
    + split; [done|]. split; [done|]. split; [lia|]. split; [|right; split; [done|by right]].
      intros t' e Ht' He. rewrite Hs0. pose proof (ll_pos HL e). assert (0 < li_lsn e); [|lia].
      apply (ll_pos HL), log_range_elem. exists t'. split; [lia|done].
    + lia.
    + done.
    + by right.
    + lia.
    + cbn [obind]. destruct Hres as [HP|(_ & _ & _ & _ & Hfrom)].
      * destruct (Hloop s2 c2 it2 HT2 HP) as (s' & c & it' & H). rewrite Hs2 in H. by exists s', c, it'.
      * exfalso. destruct (table_entry first ltac:(lia)) as (e & He & Hp). apply (not_elem_of_nil e). rewrite <- Hfrom. apply list_elem_of_filter.
        split; [lia|]. apply log_range_elem. exists first. split; [lia|done].
Qed.

Lemma create_spec s cache start :
  lsn_tables s cache -> 0 <= start -> (start = 0 -> first = 1 /\ first < lo) ->
  exists it, polar_logindex_create_lsn_iterator s start = Done it /\ lit_start_lsn it = start /\ reading it (from start).
Proof.
  intros HT Hs H0. unfold polar_logindex_create_lsn_iterator, InvalidXLogRecPtr. destruct (start =? 0) eqn:E; zbool.
  - destruct (H0 E) as [H1 Hfl]. rewrite (sv_first _ _ _ _ _ _ _ (ln_saved _ _ HT Hfl)), H1. cbn [Z.gtb Z.compare Pos.compare Pos.compare_cont].
    eexists. split; [done|]. split; [done|]. right. split; [|done]. split; [done|]. right. split; [done|]. split; [done|]. split; [done|]. split; [done|]. lia.
  - eexists. split; [done|]. split; [done|]. right. split; [|done]. split; [done|]. left. split; [done|]. cbn. lia.
Qed.
End reading.

(** ** While the log grows *)

(** The tables with their logs at some time; [w_open] tells whether the last
    table is still being filled. *)
Record world := mk_world {
  w_logs : Z -> list log_index_lsn_t;
  w_first : Z;
  w_lo : Z;
  w_hi : Z;
  w_open : bool;
  w_snapshot : log_index_snapshot_t;
  w_cache : log_table_cache_t
}.

Definition w_log (w : world) : list log_index_lsn_t := log_range (w_logs w) (w_first w) (w_hi w).

(** Entries are added to the last table while it is open and to new tables;
    more tables are saved. *)
Record grows (w w' : world) : Prop := {
  gr_first : w_first w' = w_first w;
  gr_lo : w_lo w <= w_lo w';
  gr_hi : w_hi w <= w_hi w';
  gr_old : forall t, t < w_hi w -> w_logs w' t = w_logs w t;
  gr_last : exists more, w_logs w' (w_hi w) = w_logs w (w_hi w) ++ more /\ (w_open w = false -> more = []);
  gr_open : w_open w = false -> w_hi w' = w_hi w -> w_open w' = false
}.

Lemma log_range_ext logs logs' a b : (forall t, a <= t <= b -> logs' t = logs t) -> log_range logs' a b = log_range logs a b.
Proof. intros H. unfold log_range. f_equal. apply map_ext_in. intros t Ht%list_elem_of_In%elem_of_seqZ. apply H. lia. Qed.

Lemma grows_log w w' : grows w w' -> exists ext, forall t, w_first w <= t <= w_hi w + 1 ->
  (t = w_hi w + 1 -> w_open w = false) ->
  log_range (w_logs w') t (w_hi w') = log_range (w_logs w) t (w_hi w) ++ ext.
Proof.
  intros HG. pose proof (gr_hi _ _ HG). destruct (gr_last _ _ HG) as (more & Hmore & Hclosed).
  exists (more ++ log_range (w_logs w') (w_hi w + 1) (w_hi w')). intros t Ht Hopen.
  destruct (decide (t = w_hi w + 1)) as [->|Hne].
  { rewrite (log_range_empty (w_logs w)) by lia. by rewrite Hclosed by auto. }
  rewrite (log_range_split (w_logs w') t (w_hi w) (w_hi w')) by lia. rewrite app_assoc. f_equal.
  rewrite (log_range_split (w_logs w') t (w_hi w - 1) (w_hi w)), (log_range_split (w_logs w) t (w_hi w - 1) (w_hi w)) by lia.
  replace (w_hi w - 1 + 1) with (w_hi w) by lia. rewrite !log_range_one, Hmore, app_assoc. do 2 f_equal.
  apply log_range_ext. intros t' Ht'. apply HG. lia.
Qed.

Section run.
Context (hash : BufferTag -> Z) `{env : log_index_env} (try_lock : Z -> Z -> bool) (dir : list Z).

Definition world_ok (w : world) : Prop :=
  lsn_log (w_logs w) (w_first w) (w_lo w) (w_hi w) /\
  lsn_tables hash dir (w_logs w) (w_first w) (w_lo w) (w_hi w) (w_open w) (w_snapshot w) (w_cache w).

Abbreviation reads w := (reading (w_logs w) (w_first w) (w_lo w) (w_hi w) (w_open w)).
Abbreviation from_lsn w := (from (w_logs w) (w_first w) (w_hi w)).

Lemma reading_grows w w' it rest :
  world_ok w -> grows w w' -> world_ok w' -> reads w it rest ->
  exists new, reads w' it (rest ++ new) /\ from_lsn w' (lit_start_lsn it) = from_lsn w (lit_start_lsn it) ++ new.
Proof.
  intros [HL HT] HG [HL' HT'] HR. pose proof (ll_ids _ _ _ _ HL) as Hids. destruct (grows_log w w' HG) as [ext Hext].
  pose proof (gr_hi _ _ HG) as Hhi. unfold from. rewrite (gr_first _ _ HG), (Hext (w_first w)), filter_app by lia.
  eexists. split; [|reflexivity]. destruct HR as [HP|[[Hi Hun] ->]].
  - left. destruct HP as (t & k & Hst & Hid & Hk & Hr & Hlen & Hend & -> & e & He & Hge).
    assert (filter (fun e => lit_start_lsn it <= li_lsn e) ext = ext) as ->.
    { apply filter_all. intros x Hx. pose proof (ll_sorted _ _ _ _ HL') as Hs. rewrite (gr_first _ _ HG), (Hext (w_first w)), map_app in Hs by lia.
      assert (li_lsn e <= li_lsn x); [|lia]. eapply StronglySorted_app_1_elem_of; [exact Hs|by apply list_elem_of_fmap_2..]. }
    exists t, k. split; [done|]. split; [done|]. split; [done|]. split; [lia|].
    assert (drop k (log_range (w_logs w') t (w_hi w')) = drop k (log_range (w_logs w) t (w_hi w)) ++ ext) as Hd.
    { rewrite Hext; [|lia|intros E; by apply Hend]. apply drop_app_le. destruct (decide (t = w_hi w + 1)) as [E|]; [destruct (Hend E); lia|].
      rewrite log_range_cons, length_app by lia. specialize (Hlen ltac:(lia)). lia. }
    split; [|split; [|split; [done|]]].
    + intros Ht. destruct (decide (t = w_hi w + 1)) as [E|]; [destruct (Hend E); lia|]. specialize (Hlen ltac:(lia)).
      destruct (decide (t = w_hi w)) as [->|]; [|by rewrite (gr_old _ _ HG) by lia].
      destruct (gr_last _ _ HG) as (more & -> & _). rewrite length_app. lia.
    + intros Ht. destruct (Hend ltac:(lia)) as [-> Ho]. split; [done|]. apply (gr_open _ _ HG); [done|lia].
    + exists e. rewrite (Hext (w_first w)) by lia. split; [|done]. apply elem_of_app. by left.
  - right. pose proof (gr_lo _ _ HG). split; [split; [done|]|].
    + destruct Hun as [?|(? & ? & ? & ? & ?)]; [by left|right]. repeat split; try done. lia.
    + unfold from. rewrite (Hext (w_first w)), filter_app by lia. done.
Qed.

(** The calls of an iterator from LSN [start] on, and what they returned,
    while others add and save entries. *)
Inductive lsn_run (start : Z) : world -> log_index_lsn_iter_data_t -> list log_index_lsn_t -> Prop :=
| run_create w it :
    world_ok w -> 0 <= start -> (start = 0 -> w_first w = 1 /\ w_first w < w_lo w) ->
    polar_logindex_create_lsn_iterator (w_snapshot w) start = Done it -> lsn_run start w it []
| run_next w it out s c it' r :
    lsn_run start w it out ->
    polar_logindex_lsn_iterator_next try_lock dir (w_snapshot w) (w_cache w) it = Done (s, c, it', r) ->
    lsn_run start (mk_world (w_logs w) (w_first w) (w_lo w) (w_hi w) (w_open w) s c) it' (out ++ option_list r)
| run_grow w w' it out : lsn_run start w it out -> grows w w' -> world_ok w' -> lsn_run start w' it out.

Lemma lsn_run_inv start w it out :
  lsn_run start w it out ->
  world_ok w /\ lit_start_lsn it = start /\ exists rest, reads w it rest /\ out ++ rest = from_lsn w start.
Proof.
  induction 1 as [w it Hw H0 Hz Hc|w it out s c it' r _ (Hw & Hs & rest & HR & Hout) Hn|w w' it out _ (Hw & Hs & rest & HR & Hout) HG Hw'].
  - split; [done|]. destruct (create_spec hash dir (w_logs w) (w_first w) (w_lo w) (w_hi w) (w_open w) (w_snapshot w) (w_cache w) start) as (it1 & H1 & H2 & H3);
      [apply Hw|done|done|]. assert (it1 = it) as -> by congruence. split; [done|]. by exists (from_lsn w start).
  - destruct (lsn_next_spec hash try_lock dir _ _ _ _ _ (proj1 Hw) _ _ _ _ (proj2 Hw) HR) as (s1 & c1 & it1 & H1 & H2 & H3 & H4).
    rewrite Hn in H1. injection H1 as <- <- <- ->. split; [split; [apply Hw|done]|]. split; [congruence|]. exists (tail rest). split; [done|].
    cbn [w_logs w_first w_hi]. rewrite <- Hout. destruct rest as [|e rest]; cbn; [by rewrite app_nil_r|by rewrite <- app_assoc].
  - split; [done|]. split; [done|]. destruct (reading_grows w w' it rest Hw HG Hw' HR) as (new & HR' & Hf). exists (rest ++ new). split; [done|].
    rewrite Hs in Hf. by rewrite Hf, <- Hout, app_assoc.
Qed.

(** C4: the LSN iterator delivers every entry.  However the calls interleave
    with new entries and with the saving of tables, what an iterator that
    starts at [start] has returned so far is the beginning of the entries
    with an LSN of at least [start], in the order in which they were
    inserted, without gap or repetition; and the next call succeeds and
    returns the first entry that is missing, nothing only when none is. *)
Theorem lsn_iterator_delivers start w it out :
  lsn_run start w it out ->
  exists rest, out ++ rest = filter (fun e => start <= li_lsn e) (w_log w) /\
    exists s c it', polar_logindex_lsn_iterator_next try_lock dir (w_snapshot w) (w_cache w) it = Done (s, c, it', head rest).
Proof.
  intros (Hw & _ & rest & HR & Hout)%lsn_run_inv. exists rest. split; [done|].
  destruct (lsn_next_spec hash try_lock dir _ _ _ _ _ (proj1 Hw) _ _ _ _ (proj2 Hw) HR) as (s & c & it' & H & _). by exists s, c, it'.
Qed.
End run.

(** ** A saved table and one in memory *)

#[local] Existing Instance demo_env.

Definition demo_lsns : log_index_snapshot_t :=
  update_lsn_range (set_data demo_history 1 (one_entry_table 2 demo_second)) 1 (li_lsn demo_second).

Definition demo_world : world := mk_world demo_logs 1 2 2 true demo_lsns empty_cache.

Lemma demo_log : lsn_log demo_logs 1 2 2.
Proof.
  assert (log_range demo_logs 1 2 = [demo_first; demo_second]) as E by (vm_compute; reflexivity). split.
  - lia.
  - rewrite E. repeat constructor. vm_compute. discriminate.
  - rewrite E. intros e [->|[->|He]%elem_of_cons]%elem_of_cons; [vm_compute; reflexivity..|]. by apply not_elem_of_nil in He.
  - intros t Ht. assert (t = 1 \/ t = 2) as [-> | ->] by lia; discriminate.
Qed.

Lemma demo_slots : forall mid, 0 <= mid < mem_tbl_size demo_lsns -> mid = 1 \/ LOG_INDEX_MEM_TBL demo_lsns mid = zero_mem_table.
Proof.
  intros mid Hmid. assert (mid = 0 \/ mid = 1 \/ mid = 2) as [->|[->| ->]] by (change (mem_tbl_size demo_lsns) with 3 in Hmid; lia);
    [right; reflexivity|by left|right; reflexivity].
Qed.

Lemma demo_table2 : let tb := LOG_INDEX_MEM_TBL demo_lsns 1 in
  table_log demo_hash (lt_data tb) 2 [demo_second] /\ lt_state tb = LOG_INDEX_MEM_TBL_STATE_ACTIVE.
Proof.
  destruct (one_entry_repr 2 demo_second) as [H1 H2]; [vm_compute; split; congruence|].
  destruct (finish_insert demo_hash demo_history 1 _ (li_lsn demo_second) _ _ ltac:(vm_compute; split; congruence) H1) as (_ & _ & _ & _ & _ & H3 & H4 & _).
  split; [|reflexivity]. split; [by exists 2|]. split; [etransitivity; [exact H4|exact H2]|].
  exists demo_second, demo_second. split; [done|]. split; [done|]. split; vm_compute; reflexivity.
Qed.

Lemma range_keeps s mid d lsn : let s' := update_lsn_range (set_data s mid d) mid lsn in
  ls_storage s' = ls_storage s /\ ls_bloom s' = ls_bloom s /\ ls_meta s' = ls_meta s.
Proof. done. Qed.

Lemma demo_world_ok : world_ok demo_hash [112] demo_world.
Proof.
  split; [exact demo_log|]. destruct demo_table2 as [Ht2 Ha2]. pose proof demo_saved as [S1 S2 S3 S4 S5 S6 S7 S8 S9].
  change (refresh_meta demo_history (2 - 1)) with demo_history in *.
  destruct (range_keeps demo_history 1 (one_entry_table 2 demo_second) (li_lsn demo_second)) as (Es & Eb & Em).
  fold demo_lsns in Es, Eb, Em. rewrite <- Es in S2, S3, S9. rewrite <- Eb in S4. rewrite <- Em in S5, S6.
  split; cbn [w_logs w_first w_lo w_hi w_open w_snapshot w_cache demo_world].
  - vm_compute. reflexivity.
  - reflexivity.
  - reflexivity.
  - intros t e Ht He. assert (t = 1) as -> by lia. apply list_elem_of_singleton in He as ->. vm_compute. discriminate.
  - lia.
  - intros _. split; [vm_compute; reflexivity|exact S2|exact S3|exact S4|exact S5|exact S6|exact S7| |exact S9]. intros mid Hmid Hst. destruct (demo_slots mid Hmid) as [->|E]; [rewrite Ha2 in Hst|rewrite E in Hst]; done.
  - intros t d Ht Hd. assert (t = 1) as -> by lia. destruct (S2 1 ltac:(lia)) as (d' & free & Hd' & Hid & Hrep).
    rewrite Hd in Hd'. injection Hd' as <-.
    split; [by exists free|]. split; [done|]. exists demo_first, demo_first. split; [done|]. split; [done|].
    rewrite Es in Hd. unfold demo_history in Hd. cbn [ls_storage] in Hd. rewrite lookup_singleton_eq in Hd. injection Hd as <-. split; vm_compute; reflexivity.
  - intros t Ht. assert (t = 2) as -> by lia. change ((2 - 1) mod mem_tbl_size demo_lsns) with 1. clear -Ha2 Ht2. rewrite Ha2. split; [exact Ht2|]. done.
  - done.
  - clear -Ht2. intros mid Hmid. destruct (demo_slots mid Hmid) as [->|E]; [|rewrite E; done]. cbv zeta. intros _. destruct Ht2 as (_ & Hid & _).
    unfold LOG_INDEX_MEM_TBL_TID. rewrite Hid. split; [lia|]. lia.
Qed.

(** After the entry from storage the one from memory is returned. *)
Lemma lsn_iterator_delivers_witness :
  exists w it, lsn_run demo_hash (fun _ _ => true) [112] (7 * 2 ^ 32 + 50) w it [demo_first] /\ w_log w = [demo_first; demo_second] /\
    exists s c it', polar_logindex_lsn_iterator_next (fun _ _ => true) [112] (w_snapshot w) (w_cache w) it = Done (s, c, it', Some demo_second).
Proof.
  pose (it0 := mk_lsn_iter (7 * 2 ^ 32 + 50) ITERATE_STATE_FORWARD 0 0 0).
  assert (lsn_run demo_hash (fun _ _ => true) [112] (7 * 2 ^ 32 + 50) demo_world it0 []) as H0.
  { apply run_create; [exact demo_world_ok|vm_compute; discriminate|vm_compute; discriminate|reflexivity]. }
  destruct (lsn_iterator_delivers demo_hash (fun _ _ => true) [112] _ _ _ _ H0) as (rest & Hr & s & c & it1 & Hn).
  assert (rest = [demo_first; demo_second]) as -> by (rewrite <- (app_nil_l rest), Hr; vm_compute; reflexivity).
  pose proof (run_next _ _ _ _ _ _ _ _ _ _ _ H0 Hn) as H1. change ([] ++ option_list (head [demo_first; demo_second])) with [demo_first] in H1.
  eexists _, it1. split; [exact H1|]. split; [vm_compute; reflexivity|].
  destruct (lsn_iterator_delivers demo_hash (fun _ _ => true) [112] _ _ _ _ H1) as (rest & Hr1 & Hn1).
  assert (rest = [demo_second]) as ->; [|exact Hn1].
  assert ([demo_first] ++ rest = [demo_first] ++ [demo_second]) as E by (rewrite Hr1; vm_compute; reflexivity). by injection E.
Defined.

(** ** Starting before any table was saved *)

(** Before the first table is saved, the meta data names table 0 as the
    least one.  The search of an iterator without a start LSN then goes to
    table 0 instead of table 1; when the memory table this wraps around to
    is in use, [next] fails for want of a file although entries are there. *)
Theorem unsaved_start_fails `{env : log_index_env} try_lock dir s cache :
  fs_min_idx_table_id (me_min_segment_info (ls_meta s)) = 0 -> me_max_idx_table_id (ls_meta s) = 0 -> me_max_lsn (ls_meta s) = 0 ->
  ls_storage s = ∅ -> tc_name cache <> dir ->
  LOG_INDEX_MEM_TBL_TID (LOG_INDEX_MEM_TBL s (UINT64_MAX mod mem_tbl_size s)) <> 0 ->
  exists it, polar_logindex_create_lsn_iterator s InvalidXLogRecPtr = Done it /\
    polar_logindex_lsn_iterator_next try_lock dir s cache it = Fault FATAL.
Proof.
  intros H1 H2 H3 H4 H5 H6. unfold polar_logindex_create_lsn_iterator. rewrite H1. eexists. split; [reflexivity|].
  unfold polar_logindex_lsn_iterator_next, log_index_search_file_tbl_lsn, log_index_next_search_file_tid.
  cbn [lit_set_table lit_idx_table_id lit_state lit_start_lsn lit_last_search_tid obind Z.eqb LOG_INDEX_TABLE_INVALID_ID].
  rewrite bool_decide_true by done. rewrite H1, H2, H3. cbn [InvalidXLogRecPtr Z.gtb Z.compare Z.to_nat search_file_loop LOG_INDEX_TABLE_INVALID_ID Z.eqb negb andb obind].
  rewrite bool_decide_true by done. unfold log_index_set_start_order. rewrite bool_decide_true by done.
  unfold log_index_get_table_data. cbn [lit_set_state lit_set_table lit_idx_table_id]. change (u64 (0 - 1)) with UINT64_MAX.
  destruct (LOG_INDEX_MEM_TBL_TID _ =? 0) eqn:E; zbool; [done|]. rewrite H2. cbn [Z.gtb Z.compare].
  unfold log_index_read_table. change (u64 (0 - 1)) with UINT64_MAX. destruct (_ && (0 =? _)) eqn:E2; zbool; [congruence|].
  rewrite bool_decide_false by done. cbn [negb orb]. unfold log_index_read_seg_file. rewrite H4. reflexivity.
Qed.

(** The first table is in use in a ring of three, and nothing is saved. *)
Lemma unsaved_start_fails_witness :
  exists it, polar_logindex_create_lsn_iterator demo_snapshot InvalidXLogRecPtr = Done it /\
    polar_logindex_lsn_iterator_next (fun _ _ => true) [112] demo_snapshot empty_cache it = Fault FATAL.
Proof. apply unsaved_start_fails; [reflexivity..|discriminate|vm_compute; discriminate]. Defined.
