(* ===== verification/LogIndexTruncate.v ===== *)
(** * Truncating the log index (polar_logindex.c)

    When no page before an LSN is needed any more, the segment files whose
    tables have only older entries are removed, one after the other from
    the oldest: the meta data is updated first, then the Bloom data is cut
    and the file renamed for later use or removed.

    [max_allocated_seg_no] of the snapshot is passed beside it.  The
    checksum of the meta data is a function of its contents; [rename_ok]
    answers whether renaming a file succeeds.  [slru_keeps cutoff page]
    tells which pages [SimpleLruTruncate] leaves: it removes whole SLRU
    segments before the one of [cutoff]. *)

From S2P Require Import Prelude BufTag HashFn Bloom LogIndexTable LogIndexRepr LogIndexBloom LogIndexSnapshot LogIndexTheorems.
From S2P Require Import LogIndexIter LogIndexFile LogIndexHistory.

Definition LOG_INDEX_TBL_BLOOM_PAGE_NO (tid : Z) : Z := u64 (u64 (tid - 1) * LOG_INDEX_FILE_TBL_BLOOM_SIZE) / 8192.

Definition set_storage (s : log_index_snapshot_t) (m : gmap Z log_idx_table_data_t) : log_index_snapshot_t :=
  mk_snapshot (ls_max_lsn s) (ls_state s) (ls_active_table s) (ls_max_idx_table_id s) (ls_promoted_info s) (ls_meta s)
    (ls_mem_table s) m (ls_storage_meta s) (ls_bloom s).
Definition set_bloom (s : log_index_snapshot_t) (m : gmap Z log_file_table_bloom_t) : log_index_snapshot_t :=
  mk_snapshot (ls_max_lsn s) (ls_state s) (ls_active_table s) (ls_max_idx_table_id s) (ls_promoted_info s) (ls_meta s)
    (ls_mem_table s) (ls_storage s) (ls_storage_meta s) m.

(** The tables of segment [old] take the places of those of segment [new]. *)
Definition rename_seg (old new : Z) (m : gmap Z log_idx_table_data_t) : gmap Z log_idx_table_data_t :=
  foldl (fun m i =>
    delete (old * LOG_INDEX_TABLE_NUM_PER_FILE + i)
      (match m !! (old * LOG_INDEX_TABLE_NUM_PER_FILE + i) with
       | Some d => <[new * LOG_INDEX_TABLE_NUM_PER_FILE + i := d]> m
       | None => delete (new * LOG_INDEX_TABLE_NUM_PER_FILE + i) m
       end)) m (seqZ 1 LOG_INDEX_TABLE_NUM_PER_FILE).

Definition unlink_seg (no : Z) (m : gmap Z log_idx_table_data_t) : gmap Z log_idx_table_data_t :=
  foldl (fun m i => delete (no * LOG_INDEX_TABLE_NUM_PER_FILE + i) m) m (seqZ 1 LOG_INDEX_TABLE_NUM_PER_FILE).

Section truncate.
Context `{env : log_index_env} (meta_crc : log_index_meta_t -> Z) (polar_max_logindex_files : Z).
Context (slru_keeps : Z -> Z -> bool) (rename_ok : Z -> Z -> bool).

(** The table as stored, when its checksum is right. *)
Definition log_index_read_table_data (s : log_index_snapshot_t) (tid : Z) : option log_idx_table_data_t :=
  match ls_storage s !! tid with
  | None => None
  | Some d =>
    let zeroed := mk_table (td_idx_table_id d) (td_min_lsn d) (td_max_lsn d) (td_prefix_lsn d) 0 (td_last_order d)
                    (td_idx_order d) (td_hash d) (td_segment d) in
    if negb (td_crc d =? log_index_calc_crc zeroed) then None else Some d
  end.

Definition log_index_update_min_segment (s : log_index_snapshot_t) : outcome log_index_snapshot_t :=
  let meta := ls_meta s in
  let min_seg := me_min_segment_info meta in
  let segment_no := fs_segment_no min_seg + 1 in
  let min_id := segment_no * LOG_INDEX_TABLE_NUM_PER_FILE + 1 in
  let! min_seg :=
    (if LOG_INDEX_FILE_TABLE_SEGMENT_NO (me_max_idx_table_id meta) =? segment_no then
       Done (mk_file_segment segment_no (me_max_lsn meta) (me_max_idx_table_id meta) min_id)
     else
       let max_id := (segment_no + 1) * LOG_INDEX_TABLE_NUM_PER_FILE in
       match log_index_read_table_data s max_id with
       | None => Fault PANIC
       | Some table => Done (mk_file_segment segment_no (td_max_lsn table) max_id min_id)
       end) in
  Done (polar_log_index_write_meta s (mk_meta (me_max_idx_table_id meta) min_seg (me_start_lsn meta) (me_max_lsn meta))).

Definition log_index_rename_segment_file (s : log_index_snapshot_t) (alloc old : Z) : log_index_snapshot_t * Z * bool :=
  let new_seg_no := Z.max (LOG_INDEX_FILE_TABLE_SEGMENT_NO (me_max_idx_table_id (ls_meta s))) alloc + 1 in
  if rename_ok old new_seg_no then (set_storage s (rename_seg old new_seg_no (ls_storage s)), new_seg_no, true)
  else (s, alloc, false).

Definition log_index_truncate (s : log_index_snapshot_t) (alloc lsn : Z) : outcome (log_index_snapshot_t * Z * bool) :=
  let meta := ls_meta s in
  let min_seg := me_min_segment_info meta in
  if (meta_crc meta =? 0) || XLogRecPtrIsInvalid (me_max_lsn meta) || XLogRecPtrIsInvalid (fs_max_lsn min_seg) ||
     (fs_max_lsn min_seg >=? lsn) then Done (s, alloc, false)
  else if LOG_INDEX_FILE_TABLE_SEGMENT_NO (me_max_idx_table_id meta) =? fs_segment_no min_seg then Done (s, alloc, false)
  else
    let max_segment_no := LOG_INDEX_FILE_TABLE_SEGMENT_NO (me_max_idx_table_id meta) in
    let min_segment_no := fs_segment_no min_seg in
    let max_unused_tid := fs_max_idx_table_id min_seg in
    let! s := log_index_update_min_segment s in
    let max_segment_no := Z.max alloc max_segment_no in
    let bloom_page := LOG_INDEX_TBL_BLOOM_PAGE_NO max_unused_tid in
    let s := set_bloom s (filter (fun '(t, _) => slru_keeps bloom_page (LOG_INDEX_TBL_BLOOM_PAGE_NO t) = true) (ls_bloom s)) in
    let '(s, alloc, renamed) :=
      (if max_segment_no - min_segment_no <? polar_max_logindex_files then log_index_rename_segment_file s alloc min_segment_no
       else (s, alloc, false)) in
    Done (if (renamed : bool) then s else set_storage s (unlink_seg min_segment_no (ls_storage s)), alloc, true).

(** The loop of [polar_logindex_truncate]. *)
Fixpoint truncate_loop (fuel : nat) (s : log_index_snapshot_t) (alloc lsn : Z) : outcome (log_index_snapshot_t * Z) :=
  match fuel with
  | O => Fault OUT_OF_FUEL
  | S n =>
    let! (s, alloc, again) := log_index_truncate s alloc lsn in
    if (again : bool) then truncate_loop n s alloc lsn else Done (s, alloc)
  end.

Definition polar_logindex_truncate (s : log_index_snapshot_t) (alloc lsn : Z) : outcome (log_index_snapshot_t * Z) :=
  if negb (XLogRecPtrIsInvalid lsn)
  then truncate_loop (S (Z.to_nat (LOG_INDEX_FILE_TABLE_SEGMENT_NO (me_max_idx_table_id (ls_meta s))))) s alloc lsn
  else Done (s, alloc).
End truncate.

(** ** Files *)

(** The first [k] tables of segment [no]. *)
Definition in_seg (no k t : Z) : Prop := no * 64 + 1 <= t <= no * 64 + k.
#[local] Instance in_seg_dec no k t : Decision (in_seg no k t).
Proof. unfold in_seg. apply _. Defined.

Definition rename_one (old new : Z) (m : gmap Z log_idx_table_data_t) (i : Z) : gmap Z log_idx_table_data_t :=
  delete (old * 64 + i) (match m !! (old * 64 + i) with Some d => <[new * 64 + i := d]> m | None => delete (new * 64 + i) m end).

Lemma rename_one_lookup old new m i t : old * 64 + i <> new * 64 + i ->
  rename_one old new m i !! t =
  if decide (t = old * 64 + i) then None else if decide (t = new * 64 + i) then m !! (old * 64 + i) else m !! t.
Proof.
  intros Hne. unfold rename_one. destruct (decide (t = old * 64 + i)) as [->|H1]; [apply lookup_delete_eq|]. rewrite lookup_delete_ne by done.
  destruct (decide (t = new * 64 + i)) as [->|H2]; destruct (m !! (old * 64 + i)).
  - by rewrite lookup_insert_eq.
  - by rewrite lookup_delete_eq.
  - by rewrite lookup_insert_ne.
  - by rewrite lookup_delete_ne.
Qed.

Lemma rename_upto old new m (k : nat) t : old <> new -> Z.of_nat k <= 64 ->
  foldl (rename_one old new) m (seqZ 1 (Z.of_nat k)) !! t =
  if decide (in_seg new (Z.of_nat k) t) then m !! (t - (new - old) * 64) else if decide (in_seg old (Z.of_nat k) t) then None else m !! t.
Proof.
  intros Hne. unfold in_seg. revert t. induction k as [|k IH]; intros t Hk.
  { rewrite seqZ_nil by lia. cbn [foldl]. rewrite !decide_False by lia. done. }
  rewrite seqZ_S, foldl_app. cbn [foldl]. rewrite rename_one_lookup by lia.
  destruct (decide (t = old * 64 + (1 + Z.of_nat k))) as [->|Hno].
  { rewrite decide_False by lia. by rewrite decide_True by lia. }
  destruct (decide (t = new * 64 + (1 + Z.of_nat k))) as [->|Hnn].
  { rewrite IH by lia. rewrite !decide_False by lia. rewrite decide_True by lia. f_equal. lia. }
  rewrite IH by lia. repeat (destruct (decide _); try done; try lia).
Qed.

Lemma rename_seg_lookup old new m t : old <> new ->
  rename_seg old new m !! t =
  if decide (in_seg new 64 t) then m !! (t - (new - old) * 64) else if decide (in_seg old 64 t) then None else m !! t.
Proof. intros Hne. apply (rename_upto old new m 64 t Hne). lia. Qed.

Lemma unlink_upto no m (k : nat) t :
  foldl (fun m i => delete (no * 64 + i) m) m (seqZ 1 (Z.of_nat k)) !! t = if decide (in_seg no (Z.of_nat k) t) then None else (m : gmap Z log_idx_table_data_t) !! t.
Proof.
  unfold in_seg. revert t. induction k as [|k IH]; intros t.
  { rewrite seqZ_nil by lia. cbn [foldl]. rewrite !decide_False by lia. done. }
  rewrite seqZ_S, foldl_app. cbn [foldl]. destruct (decide (t = no * 64 + (1 + Z.of_nat k))) as [->|Hno].
  { rewrite lookup_delete_eq. by rewrite decide_True by lia. }
  rewrite lookup_delete_ne by done. rewrite IH. repeat (destruct (decide _); try done; try lia).
Qed.

Lemma unlink_seg_lookup no m t : unlink_seg no m !! t = if decide (in_seg no 64 t) then None else m !! t.
Proof. apply (unlink_upto no m 64 t). Qed.

(** ** What is left *)

Section left.
Context (hash : BufferTag -> Z) `{env : log_index_env} (meta_crc : log_index_meta_t -> Z) (polar_max_logindex_files : Z).
Context (slru_keeps : Z -> Z -> bool) (rename_ok : Z -> Z -> bool) (dir : list Z) (cache : log_table_cache_t).
Context (Hslru : forall cutoff page, cutoff <= page -> slru_keeps cutoff page = true).
Context (logs : Z -> list log_index_lsn_t) (lo : Z) (Hlo : lo < 2 ^ 50).

Definition checksum_ok (d : log_idx_table_data_t) : Prop :=
  td_crc d = log_index_calc_crc (mk_table (td_idx_table_id d) (td_min_lsn d) (td_max_lsn d) (td_prefix_lsn d) 0 (td_last_order d)
                                   (td_idx_order d) (td_hash d) (td_segment d)).

(** The tables [first .. lo - 1] are saved; the meta data describes the
    first segment file. *)
Record kept_from (first : Z) (s : log_index_snapshot_t) : Prop := {
  kf_saved : saved_tables hash logs first lo dir s cache;
  kf_some : 1 <= first < lo;
  kf_max : me_max_idx_table_id (ls_meta s) = lo - 1;
  kf_seg : fs_segment_no (me_min_segment_info (ls_meta s)) = (first - 1) / 64;
  kf_seg_max : fs_max_idx_table_id (me_min_segment_info (ls_meta s)) = Z.min (first + 63) (lo - 1);
  kf_seg_lsn : forall t e, first <= t <= Z.min (first + 63) (lo - 1) -> e ∈ logs t ->
    li_lsn e <= fs_max_lsn (me_min_segment_info (ls_meta s));
  kf_max_lsn : forall t e, first <= t < lo -> e ∈ logs t -> li_lsn e <= me_max_lsn (ls_meta s);
  kf_tables : forall t d, first <= t < lo -> ls_storage s !! t = Some d ->
    checksum_ok d /\ forall t' e, first <= t' <= t -> e ∈ logs t' -> li_lsn e <= td_max_lsn d
}.

Lemma seg_no t : 1 <= t < 2 ^ 50 -> LOG_INDEX_FILE_TABLE_SEGMENT_NO t = (t - 1) / 64.
Proof. intros Ht. unfold LOG_INDEX_FILE_TABLE_SEGMENT_NO, LOG_INDEX_TABLE_NUM_PER_FILE. by rewrite u64_small by (unfold is_u64; lia). Qed.

Lemma first_seg first s : kept_from first s -> first = (first - 1) / 64 * 64 + 1.
Proof. intros HK. pose proof (sv_aligned _ _ _ _ _ _ _ (kf_saved _ _ HK)) as Ha. unfold LOG_INDEX_TABLE_NUM_PER_FILE in Ha. mlia. Qed.

Lemma read_table_data_ok first s t : kept_from first s -> first <= t < lo ->
  exists d, log_index_read_table_data s t = Some d /\ ls_storage s !! t = Some d.
Proof.
  intros HK Ht. destruct (sv_table _ _ _ _ _ _ _ (kf_saved _ _ HK) t Ht) as (d & free & Hd & _). exists d. split; [|done].
  unfold log_index_read_table_data. rewrite Hd. destruct (kf_tables _ _ HK t d Ht Hd) as [Hc _]. by rewrite Hc, Z.eqb_refl.
Qed.

(** The meta data after the first segment was given up. *)
Lemma update_min_spec first s : kept_from first s -> first + 64 < lo ->
  exists max_lsn start, log_index_update_min_segment s =
    Done (let me := mk_meta (lo - 1) (mk_file_segment ((first + 63) / 64) max_lsn (Z.min (first + 127) (lo - 1)) (first + 64)) start (me_max_lsn (ls_meta s)) in
          mk_snapshot (ls_max_lsn s) (ls_state s) (ls_active_table s) (ls_max_idx_table_id s) (ls_promoted_info s) me
            (ls_mem_table s) (ls_storage s) me (ls_bloom s)) /\
    forall t e, first + 64 <= t <= Z.min (first + 127) (lo - 1) -> e ∈ logs t -> li_lsn e <= max_lsn.
Proof.
  intros HK Hlt. pose proof (first_seg first s HK) as Hseg. pose proof (kf_some _ _ HK) as Hsome.
  unfold log_index_update_min_segment. rewrite (kf_max _ _ HK), (kf_seg _ _ HK), seg_no by lia. unfold LOG_INDEX_TABLE_NUM_PER_FILE. cbv zeta.
  replace (((first - 1) / 64 + 1) * 64 + 1) with (first + 64) by lia. replace ((first - 1) / 64 + 1) with ((first + 63) / 64) by mlia.
  assert (exists max_lsn, (if (lo - 1 - 1) / 64 =? (first + 63) / 64
       then Done (mk_file_segment ((first + 63) / 64) (me_max_lsn (ls_meta s)) (lo - 1) (first + 64))
       else match log_index_read_table_data s (((first + 63) / 64 + 1) * 64) with
            | None => Fault PANIC
            | Some table => Done (mk_file_segment ((first + 63) / 64) (td_max_lsn table) (((first + 63) / 64 + 1) * 64) (first + 64))
            end) = Done (mk_file_segment ((first + 63) / 64) max_lsn (Z.min (first + 127) (lo - 1)) (first + 64)) /\
       forall t e, first + 64 <= t <= Z.min (first + 127) (lo - 1) -> e ∈ logs t -> li_lsn e <= max_lsn) as (max_lsn & -> & Hmax).
  { destruct (_ =? _) eqn:E; zbool.
    - exists (me_max_lsn (ls_meta s)). split; [do 2 f_equal; mlia|]. intros t e Ht. apply (kf_max_lsn _ _ HK). lia.
    - assert (first + 127 <= lo - 1) as Hmore by mlia. replace (((first + 63) / 64 + 1) * 64) with (first + 127) by mlia.
      destruct (read_table_data_ok first s (first + 127) HK ltac:(lia)) as (d & -> & Hd). exists (td_max_lsn d).
      split; [do 2 f_equal; lia|]. intros t e Ht. apply (kf_tables _ _ HK (first + 127) d ltac:(lia) Hd). lia. }
  cbn [obind]. exists max_lsn, (if negb (me_max_lsn (ls_meta s) =? InvalidXLogRecPtr) then me_max_lsn (ls_meta s) else me_start_lsn (ls_meta s)).
  split; [|exact Hmax]. unfold polar_log_index_write_meta. cbn [me_max_lsn me_max_idx_table_id me_min_segment_info me_start_lsn].
  by destruct (negb _).
Qed.

(** Giving up the first segment: the other tables stay as they are. *)
Lemma kept_shrink first s s' max_lsn start :
  kept_from first s -> first + 64 < lo ->
  ls_meta s' = mk_meta (lo - 1) (mk_file_segment ((first + 63) / 64) max_lsn (Z.min (first + 127) (lo - 1)) (first + 64)) start (me_max_lsn (ls_meta s)) ->
  ls_mem_table s' = ls_mem_table s ->
  (forall t, first + 64 <= t < lo -> ls_storage s' !! t = ls_storage s !! t) ->
  (forall t d, ls_storage s' !! t = Some d -> td_idx_table_id d = t \/ td_idx_table_id d < first + 64) ->
  (forall t, first + 64 <= t < lo -> ls_bloom s' !! t = ls_bloom s !! t) ->
  (forall t e, first + 64 <= t <= Z.min (first + 127) (lo - 1) -> e ∈ logs t -> li_lsn e <= max_lsn) ->
  kept_from (first + 64) s'.
Proof.
  intros HK Hlt Hme Hmem Hst Hstale Hbl Hmax. pose proof (kf_some _ _ HK) as Hsome. pose proof (first_seg first s HK) as Hseg.
  pose proof (kf_saved _ _ HK) as [S1 S2 S3 S4 S5 S6 S7 S8 S9]. unfold mem_tbl_size, LOG_INDEX_MEM_TBL in *.
  split; rewrite ?Hme; cbn [me_max_idx_table_id me_min_segment_info fs_segment_no fs_max_idx_table_id fs_max_lsn me_max_lsn]; [|lia|done|..].
  - split; unfold mem_tbl_size, LOG_INDEX_MEM_TBL in *; rewrite ?Hmem, ?Hme; cbn [me_max_idx_table_id me_min_segment_info fs_min_idx_table_id]; [done|..].
    + intros t Ht. rewrite Hst by lia. apply S2. lia.
    + exact Hstale.
    + intros t Ht. destruct (S4 t ltac:(lia)) as (b & Hb & Hbo & Hle). exists b. rewrite Hbl by lia. split; [done|]. split; [done|].
      intros t' e Ht'. apply Hle. lia.
    + lia.
    + done.
    + unfold LOG_INDEX_TABLE_NUM_PER_FILE in *. mlia.
    + intros mid Hmid Hfl Ht. apply S8; [done|done|lia].
    + intros Hn t Ht Hr. rewrite Hst by lia. apply S9; [done|lia|done].
  - f_equal. lia.
  - f_equal. lia.
  - intros t e Ht. apply Hmax. lia.
  - intros t e Ht. apply (kf_max_lsn _ _ HK). lia.
  - intros t d Ht Hd. rewrite Hst in Hd by lia. destruct (kf_tables _ _ HK t d ltac:(lia) Hd) as [Hc Hle]. split; [done|].
    intros t' e Ht'. apply Hle. lia.
Qed.

Lemma bloom_page t : 1 <= t < 2 ^ 50 -> LOG_INDEX_TBL_BLOOM_PAGE_NO t = (t - 1) / 2.
Proof.
  intros Ht. unfold LOG_INDEX_TBL_BLOOM_PAGE_NO, LOG_INDEX_FILE_TBL_BLOOM_SIZE. rewrite (u64_small (t - 1)) by (unfold is_u64; lia).
  rewrite u64_small by (unfold is_u64; lia). mlia.
Qed.

Abbreviation truncate_once := (log_index_truncate meta_crc polar_max_logindex_files slru_keeps rename_ok).

(** Why a round removes nothing. *)
Definition no_more (first : Z) (s : log_index_snapshot_t) (lsn : Z) : Prop :=
  meta_crc (ls_meta s) = 0 \/ me_max_lsn (ls_meta s) = 0 \/ fs_max_lsn (me_min_segment_info (ls_meta s)) = 0 \/
  lsn <= fs_max_lsn (me_min_segment_info (ls_meta s)) \/ lo - 1 <= first + 63.

Lemma truncate_round first s alloc lsn :
  kept_from first s ->
  (truncate_once s alloc lsn = Done (s, alloc, false) /\ no_more first s lsn) \/
  exists s' alloc', truncate_once s alloc lsn = Done (s', alloc', true) /\ first + 64 < lo /\ kept_from (first + 64) s' /\
    ls_mem_table s' = ls_mem_table s /\ forall t e, first <= t < first + 64 -> e ∈ logs t -> li_lsn e < lsn.
Proof.
  intros HK. pose proof (kf_some _ _ HK) as Hsome. pose proof (first_seg first s HK) as Hseg. unfold log_index_truncate, XLogRecPtrIsInvalid, InvalidXLogRecPtr.
  destruct (_ || (fs_max_lsn _ >=? lsn)) eqn:E.
  { left. split; [done|]. unfold no_more. rewrite !orb_true_iff in E. destruct E as [[[E|E]|E]|E]; zbool; lia. }
  zbool. rewrite (kf_max _ _ HK), (kf_seg _ _ HK), seg_no by lia. destruct ((lo - 1 - 1) / 64 =? (first - 1) / 64) eqn:E2; zbool.
  { left. split; [done|]. unfold no_more. mlia. }
  assert (first + 64 < lo) as Hlt by mlia. right.
  destruct (update_min_spec first s HK Hlt) as (max_lsn & start & -> & Hmax). cbn [obind]. cbv zeta. rewrite (kf_seg_max _ _ HK).
  set (s1 := set_bloom _ _).
  assert (forall t, first + 64 <= t < lo -> ls_bloom s1 !! t = ls_bloom s !! t) as Hbl.
  { intros t Ht. destruct (sv_bloom _ _ _ _ _ _ _ (kf_saved _ _ HK) t ltac:(lia)) as (b & Hb & _). rewrite Hb. unfold s1. cbn [set_bloom ls_bloom].
    apply map_lookup_filter_Some_2; [done|]. apply Hslru. rewrite !bloom_page by lia. apply Z.div_le_mono; lia. }
  assert (forall s2, ls_meta s2 = ls_meta s1 -> ls_mem_table s2 = ls_mem_table s1 -> ls_bloom s2 = ls_bloom s1 ->
            (forall t, first + 64 <= t < lo -> ls_storage s2 !! t = ls_storage s !! t) ->
            (forall t d, ls_storage s2 !! t = Some d -> td_idx_table_id d = t \/ td_idx_table_id d < first + 64) -> kept_from (first + 64) s2) as Hk.
  { intros s2 G1 G2 G3 G4 G5. eapply (kept_shrink first s s2 max_lsn start); try done. intros t Ht. rewrite G3. by apply Hbl. }
  pose proof (sv_stale _ _ _ _ _ _ _ (kf_saved _ _ HK)) as Hstale.
  assert (forall t, ~ in_seg ((first - 1) / 64) 64 t <-> ~ first <= t <= first + 63) as Hin by (intros t; unfold in_seg; lia).
  assert (kept_from (first + 64) (set_storage s1 (unlink_seg ((first - 1) / 64) (ls_storage s1)))) as Hun.
  { apply Hk; [done..| |].
    - intros t Ht. cbn [set_storage ls_storage]. rewrite unlink_seg_lookup, decide_False by (apply Hin; lia). done.
    - intros t d. cbn [set_storage ls_storage]. rewrite unlink_seg_lookup. destruct (decide _); [done|]. intros Hd.
      destruct (Hstale t d Hd); [by left|right; lia]. }
  assert (forall t e, first <= t < first + 64 -> e ∈ logs t -> li_lsn e < lsn) as Hold.
  { intros t e Ht He. pose proof (kf_seg_lsn _ _ HK t e ltac:(lia) He). lia. }
  destruct (_ <? polar_max_logindex_files); [|by eexists _, _; split_and!].
  unfold log_index_rename_segment_file. change (ls_meta s1) with (ls_meta s1). set (new := Z.max _ alloc + 1).
  assert ((lo - 2) / 64 < new) as Hnew.
  { unfold new. change (me_max_idx_table_id (ls_meta s1)) with (lo - 1). rewrite seg_no by lia. replace (lo - 1 - 1) with (lo - 2) by lia. lia. }
  destruct (rename_ok _ new); [|by eexists _, _; split_and!].
  assert ((first - 1) / 64 <> new) as Hnn by mlia.
  eexists _, _. split; [done|]. split; [done|]. split; [|done]. apply Hk; [done..| |].
  - intros t Ht. cbn [set_storage ls_storage]. rewrite rename_seg_lookup by done. rewrite decide_False by (unfold in_seg; mlia).
    rewrite decide_False by (apply Hin; lia). done.
  - intros t d. cbn [set_storage ls_storage]. rewrite rename_seg_lookup by done. destruct (decide (in_seg new 64 t)) as [Hi|_].
    + intros Hd. destruct (Hstale _ d Hd) as [Hid|?]; right; [|lia]. unfold in_seg in Hi. rewrite Hid. lia.
    + destruct (decide _); [done|]. intros Hd. destruct (Hstale t d Hd); [by left|right; lia].
Qed.

Lemma truncate_rounds fuel first s alloc lsn :
  kept_from first s -> (lo - 2) / 64 - (first - 1) / 64 < Z.of_nat fuel ->
  exists s' alloc' first', truncate_loop meta_crc polar_max_logindex_files slru_keeps rename_ok fuel s alloc lsn = Done (s', alloc') /\
    first <= first' /\ kept_from first' s' /\ no_more first' s' lsn /\ ls_mem_table s' = ls_mem_table s /\
    forall t e, first <= t < first' -> e ∈ logs t -> li_lsn e < lsn.
Proof.
  revert first s alloc. induction fuel as [|n IH]; intros first s alloc HK Hf.
  { pose proof (kf_some _ _ HK). mlia. }
  cbn [truncate_loop]. destruct (truncate_round first s alloc lsn HK) as [[-> Hno]|(s1 & a1 & -> & Hlt & HK1 & Hmem & Hold)]; cbn [obind].
  - exists s, alloc, first. split; [done|]. split; [lia|]. split; [done|]. split; [done|]. split; [done|]. lia.
  - destruct (IH (first + 64) s1 a1 HK1) as (s2 & a2 & first' & -> & Hle & HK2 & Hno & Hmem2 & Hold2); [mlia|].
    exists s2, a2, first'. split; [done|]. split; [lia|]. split; [done|]. split; [done|]. split; [congruence|].
    intros t e Ht He. destruct (decide (t < first + 64)); [apply (Hold t e ltac:(lia) He)|apply (Hold2 t e ltac:(lia) He)].
Qed.

(** C14: truncating keeps what is needed.  [polar_logindex_truncate] ends;
    the tables from some table [first'] on are still saved with their Bloom
    data and can be read, whatever happens to the old files, no entry with an LSN of at
    least [lsn] was removed, the memory tables are untouched, and it stops
    only when the oldest segment still has such an entry, is the last one,
    or the meta data has no checksum or LSN. *)
Theorem logindex_truncate_safe first s alloc lsn :
  kept_from first s -> 0 < lsn ->
  exists s' alloc' first',
    polar_logindex_truncate meta_crc polar_max_logindex_files slru_keeps rename_ok s alloc lsn = Done (s', alloc') /\
    first <= first' /\ kept_from first' s' /\ no_more first' s' lsn /\ ls_mem_table s' = ls_mem_table s /\
    filter (fun e => lsn <= li_lsn e) (log_range logs first' (lo - 1)) = filter (fun e => lsn <= li_lsn e) (log_range logs first (lo - 1)).
Proof.
  intros HK Hlsn. unfold polar_logindex_truncate, XLogRecPtrIsInvalid, InvalidXLogRecPtr. destruct (lsn =? 0) eqn:E; zbool; [lia|]. cbn [negb].
  pose proof (kf_some _ _ HK) as Hsome. rewrite (kf_max _ _ HK), seg_no by lia.
  destruct (truncate_rounds (S (Z.to_nat ((lo - 1 - 1) / 64))) first s alloc lsn HK) as (s' & a' & first' & -> & Hle & HK' & Hno & Hmem & Hold); [mlia|].
  exists s', a', first'. split; [done|]. split; [done|]. split; [done|]. split; [done|]. split; [done|]. pose proof (kf_some _ _ HK') as Hsome'.
  rewrite (log_range_split logs first (first' - 1) (lo - 1)), filter_app by lia. replace (first' - 1 + 1) with first' by lia.
  rewrite (filter_none _ (log_range logs first (first' - 1))); [done|].
  intros e He Hge. unfold log_range in He. apply elem_of_concat_map in He as (t & Ht & He). apply elem_of_seqZ in Ht.
  specialize (Hold t e ltac:(lia) He). lia.
Qed.
End left.

(** ** Two segment files *)

#[local] Existing Instance demo_env.

Definition trunc_entry (t : Z) : log_index_lsn_t := demo_info 5 (7 * 2 ^ 32 + 100 * t) 0.
Definition trunc_bloom (t : Z) : log_file_table_bloom_t :=
  match log_index_get_bloom_data hash_any_extended bloom_rint (one_entry_table t (trunc_entry t)) t with Done b => b | Fault _ => zero_bloom end.
Definition trunc_table (t : Z) : log_idx_table_data_t := log_index_save_table (one_entry_table t (trunc_entry t)) (trunc_bloom t).
Definition trunc_ids : list Z := seqZ 1 65.

Definition trunc_snapshot : log_index_snapshot_t :=
  let me := mk_meta 65 (mk_file_segment 0 (7 * 2 ^ 32 + 6400) 64 1) (7 * 2 ^ 32 + 6500) (7 * 2 ^ 32 + 6500) in
  mk_snapshot (7 * 2 ^ 32 + 6500) POLAR_LOGINDEX_STATE_WRITABLE 0 66 (mk_promoted 0 0 0 0) me [zero_mem_table; zero_mem_table]
    (list_to_map (map (fun t => (t, trunc_table t)) trunc_ids)) me (list_to_map (map (fun t => (t, trunc_bloom t)) trunc_ids)).

Lemma ids_lookup {A} (f : Z -> A) t :
  (list_to_map (map (fun t => (t, f t)) trunc_ids) : gmap Z A) !! t = if decide (1 <= t < 66) then Some (f t) else None.
Proof.
  assert (map (fun t => (t, f t)) trunc_ids = (fun t => (t, f t)) <$> trunc_ids) as -> by done. destruct (decide _) as [Ht|Ht].
  - apply elem_of_list_to_map_1.
    + rewrite <- list_fmap_compose. rewrite (list_fmap_ext _ id) by done. rewrite list_fmap_id. apply NoDup_seqZ.
    + apply list_elem_of_fmap. exists t. split; [done|]. apply elem_of_seqZ. lia.
  - apply not_elem_of_list_to_map_1. rewrite <- list_fmap_compose. intros (t' & -> & Ht')%list_elem_of_fmap. apply elem_of_seqZ in Ht'. cbn in Ht. lia.
Qed.

Lemma trunc_lsn t : 1 <= t < 66 -> is_u64 (li_lsn (trunc_entry t)).
Proof. intros Ht. unfold is_u64, trunc_entry, demo_info. cbn [li_lsn]. lia. Qed.

Lemma trunc_bloom_ok t : 1 <= t < 66 -> bloom_of hash_any_extended bloom_rint t [trunc_entry t] (trunc_bloom t).
Proof.
  intros Ht. destruct (one_entry_repr t (trunc_entry t) (trunc_lsn t Ht)) as [(A & Q & HR) _].
  destruct (get_bloom_of hash_any_extended bloom_rint _ _ _ _ _ _ HR t) as (b & Hb & Ho).
  - intros tag. rewrite filter_cons. destruct (decide _); repeat constructor.
  - unfold trunc_bloom. by rewrite Hb.
Qed.

Lemma trunc_max t t' : 1 <= t' <= t -> t < 66 -> li_lsn (trunc_entry t') <= bt_max_lsn (trunc_bloom t).
Proof.
  intros H1 H2. pose proof (bo_max _ _ _ _ _ (trunc_bloom_ok t ltac:(lia)) (trunc_entry t) ltac:(by left)) as H.
  unfold trunc_entry, demo_info in *. cbn [li_lsn] in *. lia.
Qed.

Lemma save_checksum d b : checksum_ok (log_index_save_table d b).
Proof. done. Qed.

Lemma trunc_kept : kept_from demo_hash [112] empty_cache (fun t => [trunc_entry t]) 66 1 trunc_snapshot.
Proof.
  assert (forall t, ls_storage trunc_snapshot !! t = if decide (1 <= t < 66) then Some (trunc_table t) else None) as Hst by (apply ids_lookup).
  assert (forall t, ls_bloom trunc_snapshot !! t = if decide (1 <= t < 66) then Some (trunc_bloom t) else None) as Hbl by (apply ids_lookup).
  assert (forall t, td_idx_table_id (trunc_table t) = td_idx_table_id (one_entry_table t (trunc_entry t))) as Hid by (intros t; apply save_table_id).
  split; [split| | | | | | |].
  - done.
  - intros t Ht. destruct (one_entry_repr t (trunc_entry t) (trunc_lsn t Ht)) as [(A & Q & HR) Htid]. exists (trunc_table t), 2.
    rewrite Hst, decide_True by lia. split; [done|]. split; [by rewrite Hid|]. exists A, Q. by apply save_table_repr.
  - intros i d Hd. rewrite Hst in Hd. destruct (decide _) as [Hi|]; [|done]. injection Hd as <-. left. rewrite Hid.
    apply (one_entry_repr i (trunc_entry i) (trunc_lsn i Hi)).
  - intros t Ht. exists (trunc_bloom t). rewrite Hbl, decide_True by lia. split; [done|]. split; [by apply trunc_bloom_ok|].
    intros t' e Ht' ->%list_elem_of_singleton. apply trunc_max; lia.
  - reflexivity || (cbn; lia).
  - done.
  - done.
  - intros mid Hmid. assert (mid = 0 \/ mid = 1) as [->| ->] by (change (mem_tbl_size trunc_snapshot) with 2 in Hmid; lia); done.
  - done.
  - lia.
  - done.
  - done.
  - done.
  - intros t e Ht ->%list_elem_of_singleton. unfold trunc_entry, demo_info. cbn [li_lsn]. cbn. lia.
  - intros t e Ht ->%list_elem_of_singleton. unfold trunc_entry, demo_info. cbn [li_lsn]. cbn. lia.
  - intros t d Ht Hd. rewrite Hst, decide_True in Hd by lia. injection Hd as <-. split; [apply save_checksum|].
    intros t' e Ht' ->%list_elem_of_singleton. apply trunc_max; lia.
Qed.

Lemma logindex_truncate_safe_witness :
  exists s' alloc' first',
    polar_logindex_truncate (fun _ => 1) 3 (fun cutoff page => cutoff <=? page) (fun _ _ => true) trunc_snapshot 0 (7 * 2 ^ 32 + 6450) = Done (s', alloc') /\
    1 <= first' /\ kept_from demo_hash [112] empty_cache (fun t => [trunc_entry t]) 66 first' s' /\
    no_more (fun _ => 1) 66 first' s' (7 * 2 ^ 32 + 6450) /\ ls_mem_table s' = ls_mem_table trunc_snapshot /\
    filter (fun e => 7 * 2 ^ 32 + 6450 <= li_lsn e) (log_range (fun t => [trunc_entry t]) first' 65) =
    filter (fun e => 7 * 2 ^ 32 + 6450 <= li_lsn e) (log_range (fun t => [trunc_entry t]) 1 65).
Proof.
  apply (logindex_truncate_safe demo_hash (fun _ => 1) 3 (fun cutoff page => cutoff <=? page) (fun _ _ => true) [112] empty_cache
           (fun c p H => proj2 (Z.leb_le c p) H) (fun t => [trunc_entry t]) 66 eq_refl 1 trunc_snapshot 0 (7 * 2 ^ 32 + 6450) trunc_kept).
  reflexivity.
Defined.
