(* ===== verification/LogIndexFlush.v ===== *)
(** * Saving the tables in the background (polar_logindex.c)

    On the primary the background writer saves the inactive tables in the
    order of their ids, a batch at a time, or as far as a checkpoint needs;
    on a replica it reads the meta data and marks the tables that the
    primary saved.

    The static variables are arguments: [last] is the largest LSN of the
    active table when it was last saved, [last_tid] the largest table id
    seen.  A pass of a loop is one step; the table lock is held in it.
    [polar_logindex_invalid_bloom_cache] and the local cache of segment
    files are left out. *)

From S2P Require Import Prelude BufTag HashFn Bloom LogIndexTable LogIndexRepr LogIndexBloom LogIndexSnapshot LogIndexTheorems.

Section flush.
Context `{env : log_index_env} (polar_logindex_table_batch_size : Z).

Definition is_inactive (t : log_mem_table_t) : bool := lt_state t =? LOG_INDEX_MEM_TBL_STATE_INACTIVE.
Definition is_active (t : log_mem_table_t) : bool := lt_state t =? LOG_INDEX_MEM_TBL_STATE_ACTIVE.

(** The part of a pass under the table lock: the new state, [last], whether
    a table was flushed, and whether the loop is left. *)
Definition flush_one (s : log_index_snapshot_t) (last : Z) (flush_active : bool) (mid : Z)
  : outcome (log_index_snapshot_t * Z * bool * bool) :=
  let t := LOG_INDEX_MEM_TBL s mid in
  if is_inactive t || (flush_active && is_active t && negb (LOG_INDEX_MEM_TBL_IS_NEW t)) then
    if flush_active && is_active t && (last =? td_max_lsn (lt_data t)) && negb (LOG_INDEX_MEM_TBL_IS_NEW t) then Done (s, last, false, true)
    else if (is_inactive t || is_active t) && table_flushable t then
      let! before := log_index_table_saved_before_promote s t in
      let! (s, succeed) := (if (before : bool) then Done (s, true) else log_index_write_table s mid) in
      if (succeed : bool) then
        let t := LOG_INDEX_MEM_TBL s mid in
        let s := if is_inactive t then set_table s mid (LOG_INDEX_MEM_TBL_SET_STATE t LOG_INDEX_MEM_TBL_STATE_FLUSHED) else s in
        let last := if flush_active then td_max_lsn (lt_data t) else last in
        Done (s, last, true, false)
      else Done (s, last, false, false)
    else Done (s, last, false, false)
  else Done (s, last, false, false).

(** Whether to go on, and whether all is written. *)
Definition need_flush (s : log_index_snapshot_t) (checkpoint_lsn flushed : Z) : bool * bool :=
  let t := LOG_INDEX_MEM_TBL s (ls_active_table s) in
  if LOG_INDEX_MEM_TBL_TID t >? u64 (me_max_idx_table_id (ls_meta s) + 1) then
    if XLogRecPtrIsInvalid checkpoint_lsn then (flushed <? polar_logindex_table_batch_size, false)
    else ((checkpoint_lsn >? me_max_lsn (ls_meta s)) &&
          negb ((checkpoint_lsn >=? td_min_lsn (lt_data t)) && (checkpoint_lsn <=? td_max_lsn (lt_data t))), false)
  else (false, true).

(** The loop; [mid] is the memory table to look at. *)
Fixpoint flush_loop (fuel : nat) (s : log_index_snapshot_t) (last checkpoint_lsn : Z) (flush_active : bool) (flushed mid : Z)
  : outcome (log_index_snapshot_t * Z * bool) :=
  match fuel with
  | O => Fault OUT_OF_FUEL
  | S n =>
    let! (s, last, wrote, quit) := flush_one s last flush_active mid in
    if (quit : bool) then Done (s, last, true)
    else
      let flushed := if (wrote : bool) then flushed + 1 else flushed in
      let '(need, write_done) := need_flush s checkpoint_lsn flushed in
      let mid := u32 (me_max_idx_table_id (ls_meta s)) mod mem_tbl_size s in
      if (need : bool) then flush_loop n s last checkpoint_lsn flush_active flushed mid else Done (s, last, write_done)
  end.

Definition log_index_flush_table (fuel : nat) (s : log_index_snapshot_t) (last checkpoint_lsn : Z) (flush_active : bool)
  : outcome (log_index_snapshot_t * Z * bool) :=
  flush_loop fuel s last checkpoint_lsn flush_active 0 (me_max_idx_table_id (ls_meta s) mod mem_tbl_size s).

Definition log_index_rw_bg_write (fuel : nat) (s : log_index_snapshot_t) (last : Z) : outcome (log_index_snapshot_t * Z * bool) :=
  log_index_flush_table fuel s last InvalidXLogRecPtr false.

Definition polar_logindex_flush_table (fuel : nat) (s : log_index_snapshot_t) (last checkpoint_lsn : Z) : outcome (log_index_snapshot_t * Z) :=
  let! (s, last, _) := log_index_flush_table fuel s last checkpoint_lsn false in Done (s, last).

Definition polar_logindex_flush_active_table (fuel : nat) (s : log_index_snapshot_t) (last : Z) : outcome (log_index_snapshot_t * Z) :=
  let! (s, last, _) := log_index_flush_table fuel s last InvalidXLogRecPtr true in Done (s, last).

(** The loop of a replica, from the last saved table back. *)
Fixpoint update_ro_loop (fuel : nat) (s : log_index_snapshot_t) (max_saved_tid mid : Z) : outcome log_index_snapshot_t :=
  match fuel with
  | O => Fault OUT_OF_FUEL
  | S n =>
    let t := LOG_INDEX_MEM_TBL s mid in
    if is_inactive t then
      let s := if LOG_INDEX_MEM_TBL_TID t <=? max_saved_tid
               then set_table s mid (LOG_INDEX_MEM_TBL_SET_STATE t LOG_INDEX_MEM_TBL_STATE_FLUSHED) else s in
      update_ro_loop n s max_saved_tid (LOG_INDEX_MEM_TBL_PREV_ID s mid)
    else Done s
  end.

Definition log_index_update_ro_table_state (s : log_index_snapshot_t) (max_saved_tid : Z) : outcome log_index_snapshot_t :=
  if max_saved_tid =? LOG_INDEX_TABLE_INVALID_ID then Done s
  else update_ro_loop (S (Z.to_nat (mem_tbl_size s))) s max_saved_tid ((max_saved_tid - 1) mod mem_tbl_size s).

Definition log_index_ro_bg_write (s : log_index_snapshot_t) (last_tid : Z) : outcome (log_index_snapshot_t * Z * bool) :=
  let max_tid := ls_max_idx_table_id s in
  if max_tid =? last_tid then Done (s, last_tid, true)
  else
    let me := ls_storage_meta s in
    let s := mk_snapshot (ls_max_lsn s) (ls_state s) (ls_active_table s) (ls_max_idx_table_id s) (ls_promoted_info s) me
               (ls_mem_table s) (ls_storage s) (ls_storage_meta s) (ls_bloom s) in
    let! s := log_index_update_ro_table_state s (me_max_idx_table_id me) in
    Done (s, max_tid, true).

Definition polar_logindex_bg_write (fuel : nat) (s : log_index_snapshot_t) (last last_tid : Z)
  : outcome (log_index_snapshot_t * Z * Z * bool) :=
  if polar_logindex_check_state s POLAR_LOGINDEX_STATE_ADDING then
    if negb (polar_logindex_check_state s POLAR_LOGINDEX_STATE_WRITABLE) then
      let! (s, last_tid, write_done) := log_index_ro_bg_write s last_tid in Done (s, last, last_tid, write_done)
    else let! (s, last, write_done) := log_index_rw_bg_write fuel s last in Done (s, last, last_tid, write_done)
  else Done (s, last, last_tid, true).
End flush.

(** ** The primary saves the tables in order *)

Section spec.
Context (hash : BufferTag -> Z) `{env : log_index_env} (polar_logindex_table_batch_size : Z).
Context (logs : Z -> list log_index_lsn_t) (hi : Z).

(** The tables after [max] up to [hi] are in memory, the last one is active
    and the others may be flushed. *)
Record to_save (max : Z) (s : log_index_snapshot_t) : Prop := {
  ts_ids : 0 <= max < hi /\ hi < 2 ^ 32 /\ hi - max <= mem_tbl_size s;
  ts_meta : me_max_idx_table_id (ls_meta s) = max;
  ts_active : ls_active_table s = (hi - 1) mod mem_tbl_size s;
  ts_promoted : pr_old_rw_saved_max_tid (ls_promoted_info s) <= max;
  ts_table : forall t, max < t <= hi -> let tb := LOG_INDEX_MEM_TBL s ((t - 1) mod mem_tbl_size s) in
    LOG_INDEX_MEM_TBL_TID tb = t /\ (exists free, represents hash (lt_data tb) free (logs t)) /\ table_flushable tb = true /\
    lt_state tb = if t =? hi then LOG_INDEX_MEM_TBL_STATE_ACTIVE else LOG_INDEX_MEM_TBL_STATE_INACTIVE
}.

(** The tables from [a + 1] to [b] were saved, with nothing else changed in
    storage. *)
Definition saved_between (a b : Z) (s s' : log_index_snapshot_t) : Prop :=
  (forall t, a < t <= b -> exists d free, ls_storage s' !! t = Some d /\ td_idx_table_id d = t /\ represents hash d free (logs t) /\
     LOG_INDEX_MEM_TBL s' ((t - 1) mod mem_tbl_size s') =
       mk_mem_table (lt_free_head (LOG_INDEX_MEM_TBL s ((t - 1) mod mem_tbl_size s))) LOG_INDEX_MEM_TBL_STATE_FLUSHED d) /\
  (forall t, ~ a < t <= b -> ls_storage s' !! t = ls_storage s !! t) /\
  mem_tbl_size s' = mem_tbl_size s /\
  (forall m, (forall t, a < t <= b -> m <> (t - 1) mod mem_tbl_size s) -> LOG_INDEX_MEM_TBL s' m = LOG_INDEX_MEM_TBL s m).

Lemma slots_differ n t t' : 0 < n -> 0 < Z.abs (t - t') < n -> (t - 1) mod n <> (t' - 1) mod n.
Proof.
  intros Hn Hd E. assert (((t - 1) - (t' - 1)) mod n = 0) as H0 by (rewrite Zminus_mod, E, Z.sub_diag; by apply Z.mod_0_l; lia).
  apply Z.mod_divide in H0 as [q Hq]; [|lia]. assert (q = 0 \/ 1 <= Z.abs q) as [->|?] by lia; nia.
Qed.

(** A table after those the old primary saved was not saved before. *)
Lemma saved_before_promote s t :
  pr_old_rw_saved_max_tid (ls_promoted_info s) < LOG_INDEX_MEM_TBL_TID t -> log_index_table_saved_before_promote s t = Done false.
Proof.
  intros Hlt. unfold log_index_table_saved_before_promote. destruct (negb _); [|done].
  destruct (LOG_INDEX_MEM_TBL_TID t =? _) eqn:E; zbool; [lia|]. cbn [andb]. f_equal. apply Z.leb_gt. lia.
Qed.

(** One pass saves the next table. *)
Lemma flush_one_spec max s last :
  to_save max s -> max + 1 < hi ->
  exists s', flush_one s last false (max mod mem_tbl_size s) = Done (s', last, true, false) /\ to_save (max + 1) s' /\
    saved_between max (max + 1) s s'.
Proof.
  intros HT Hlt. pose proof (ts_ids _ _ HT) as Hids. destruct (ts_table _ _ HT (max + 1) ltac:(lia)) as (Htid & (free & HL) & Hfl & Hst). cbv zeta in *.
  replace (max + 1 - 1) with max in * by lia. set (mid := max mod mem_tbl_size s) in *. set (tb := LOG_INDEX_MEM_TBL s mid) in *.
  assert (0 <= mid < mem_tbl_size s) as Hmid by (apply Z.mod_pos_bound; lia).
  destruct (max + 1 =? hi) eqn:E; zbool; [lia|]. unfold flush_one, is_inactive, is_active. fold tb. rewrite Hst. cbn [Z.eqb orb andb].
  change (LOG_INDEX_MEM_TBL_STATE_INACTIVE =? LOG_INDEX_MEM_TBL_STATE_INACTIVE) with true. cbn [orb andb]. rewrite Hfl.
  rewrite saved_before_promote by (rewrite Htid; pose proof (ts_promoted _ _ HT); lia). cbn [obind].
  destruct (write_table_spec hash s mid free (logs (max + 1)) Hmid) as (s1 & b & Hw & Hsv & Hoth & Hget & Hsz & Hact & Hmax & Hb & Hme & _ & Hpr);
    [by fold tb; rewrite Hst|fold tb; rewrite (ts_meta _ _ HT); done|done|].
  rewrite Hw. cbn [obind]. rewrite Hget, decide_True by done. fold tb. cbn [lt_state]. fold tb in Hsv, Hoth, Hget, Hme, Hb.
  change (LOG_INDEX_MEM_TBL_STATE_FLUSHED =? LOG_INDEX_MEM_TBL_STATE_INACTIVE) with false. cbv iota.
  eexists. split; [done|]. rewrite Htid in Hoth, Hme.
  assert (forall t, max + 1 < t <= hi -> (t - 1) mod mem_tbl_size s <> mid) as Hne.
  { intros t Ht. unfold mid. replace max with (max + 1 - 1) at 1 by lia. apply slots_differ; lia. }
  split; [split|].
  - lia.
  - done.
  - rewrite Hact, Hsz. apply HT.
  - rewrite Hpr. pose proof (ts_promoted _ _ HT). lia.
  - intros t Ht. cbv zeta. rewrite Hsz, Hget, decide_False by (intros E'; symmetry in E'; by apply (Hne t)). apply HT. lia.
  - destruct Hsv as (b' & Hb' & _ & Hsto). split; [|split; [|split; [done|]]].
    + intros t Ht. assert (t = max + 1) as -> by lia. replace (max + 1 - 1) with max by lia. exists (log_index_save_table (lt_data tb) b), free.
      assert (b' = b) as -> by congruence.
      rewrite Htid in Hsto. split; [done|]. split; [done|]. destruct HL as (A & Q & HR). split; [exists A, Q; by apply save_table_repr|].
      rewrite Hsz. fold mid. rewrite Hget, decide_True by done. done.
    + intros t Ht. apply Hoth. lia.
    + intros m Hm. rewrite Hget, decide_False; [done|]. intros E'. apply (Hm (max + 1)); [lia|]. rewrite <- E'. unfold mid. f_equal. lia.
Qed.

Lemma saved_between_trans a b c s s1 s2 :
  0 < mem_tbl_size s -> c - a <= mem_tbl_size s -> a <= b <= c -> saved_between a b s s1 -> saved_between b c s1 s2 -> saved_between a c s s2.
Proof.
  intros Hn Hc Hab (H1 & H2 & H3 & H4) (G1 & G2 & G3 & G4). rewrite H3 in *. split; [|split; [|split]].
  - intros t Ht. destruct (decide (t <= b)) as [Hle|Hgt].
    + destruct (H1 t ltac:(lia)) as (d & free & Hd & Hid & Hr & Hs). exists d, free. rewrite G2 by lia. rewrite G3.
      split; [done|]. split; [done|]. split; [done|]. rewrite G4; [done|]. intros t' Ht'. apply slots_differ; lia.
    + destruct (G1 t ltac:(lia)) as (d & free & Hd & Hid & Hr & Hs). exists d, free. split; [done|]. split; [done|]. split; [done|].
      rewrite Hs. f_equal. f_equal. apply H4. intros t' Ht'. apply slots_differ; lia.
  - intros t Ht. rewrite G2 by lia. apply H2. lia.
  - done.
  - intros m Hm. rewrite G4 by (intros t Ht; apply Hm; lia). apply H4. intros t Ht. apply Hm. lia.
Qed.

(** A pass that finds the active table does nothing. *)
Lemma flush_one_active max s last :
  to_save max s -> max + 1 = hi -> flush_one s last false (max mod mem_tbl_size s) = Done (s, last, false, false).
Proof.
  intros HT Hlt. destruct (ts_table _ _ HT (max + 1)) as (_ & _ & _ & Hst); [pose proof (ts_ids _ _ HT); lia|]. cbv zeta in Hst.
  replace (max + 1 - 1) with max in Hst by lia. unfold flush_one, is_inactive, is_active. rewrite Hst, Hlt, Z.eqb_refl. done.
Qed.

Lemma need_flush_spec max s k :
  to_save max s -> need_flush polar_logindex_table_batch_size s InvalidXLogRecPtr k =
  if max + 1 <? hi then (k <? polar_logindex_table_batch_size, false) else (false, true).
Proof.
  intros HT. pose proof (ts_ids _ _ HT) as Hids. unfold need_flush. rewrite (ts_active _ _ HT), (ts_meta _ _ HT).
  destruct (ts_table _ _ HT hi ltac:(lia)) as (Htid & _). cbv zeta in Htid. rewrite Htid. rewrite u64_small by (unfold is_u64; lia).
  destruct (hi >? max + 1) eqn:E; zbool; [rewrite (proj2 (Z.ltb_lt (max + 1) hi)) by lia|rewrite (proj2 (Z.ltb_ge (max + 1) hi)) by lia]; done.
Qed.

Lemma flush_rounds fuel max s last k :
  to_save max s -> 0 <= k -> k < polar_logindex_table_batch_size ->
  hi - max <= Z.of_nat fuel ->
  let n := Z.min (hi - 1 - max) (polar_logindex_table_batch_size - k) in
  exists s', flush_loop polar_logindex_table_batch_size fuel s last InvalidXLogRecPtr false k (max mod mem_tbl_size s) =
      Done (s', last, hi - 1 - max <=? polar_logindex_table_batch_size - k) /\
    to_save (max + n) s' /\ saved_between max (max + n) s s'.
Proof.
  revert max s k. induction fuel as [|f IH]; intros max s k HT Hk Hb Hf n; pose proof (ts_ids _ _ HT) as Hids; [lia|]. cbn [flush_loop].
  destruct (decide (max + 1 = hi)) as [Heq|Hne].
  { rewrite (flush_one_active max s last HT Heq). cbn [obind]. rewrite (need_flush_spec max s k HT). rewrite (proj2 (Z.ltb_ge (max + 1) hi)) by lia.
    exists s. rewrite (proj2 (Z.leb_le _ _)) by lia. split; [done|]. replace (max + n) with max by lia. split; [done|].
    split; [intros; lia|]. split; [done|]. split; done. }
  destruct (flush_one_spec max s last HT ltac:(lia)) as (s1 & -> & HT1 & HS1). cbn [obind]. rewrite (need_flush_spec (max + 1) s1 (k + 1) HT1).
  destruct (max + 1 + 1 <? hi) eqn:E; zbool.
  - destruct (k + 1 <? polar_logindex_table_batch_size) eqn:E2; zbool.
    + rewrite (ts_meta _ _ HT1), u32_small by (unfold is_u32; lia).
      destruct (IH (max + 1) s1 (k + 1) HT1 ltac:(lia) ltac:(lia) ltac:(lia)) as (s2 & -> & HT2 & HS2). exists s2.
      split; [do 2 f_equal; lia|]. replace (max + 1 + _) with (max + n) in HT2, HS2 by lia. split; [done|].
      eapply (saved_between_trans max (max + 1)); [lia|lia|lia|exact HS1|exact HS2].
    + exists s1. rewrite (proj2 (Z.leb_gt _ _)) by lia. split; [done|]. by replace (max + n) with (max + 1) by lia.
  - exists s1. rewrite (proj2 (Z.leb_le _ _)) by lia. split; [done|]. by replace (max + n) with (max + 1) by lia.
Qed.

(** C16: background writing saves the tables in order.  When the tables after
    table [max] are in memory and may be flushed, one round of the writer
    ends and saves the next [n] of them, all that are not active or as many
    as a batch allows: storage then holds their logs under their ids, they
    are marked flushed, and nothing else in storage or in memory changed;
    it reports that all is written exactly when no inactive table is left. *)
Theorem bg_write_saves_in_order fuel max s last :
  to_save max s -> 0 < polar_logindex_table_batch_size -> hi - max <= Z.of_nat fuel ->
  let n := Z.min (hi - 1 - max) polar_logindex_table_batch_size in
  exists s', log_index_rw_bg_write polar_logindex_table_batch_size fuel s last =
      Done (s', last, hi - 1 - max <=? polar_logindex_table_batch_size) /\
    to_save (max + n) s' /\ saved_between max (max + n) s s'.
Proof.
  intros HT Hb Hf n. unfold log_index_rw_bg_write, log_index_flush_table. rewrite (ts_meta _ _ HT).
  destruct (flush_rounds fuel max s last 0 HT ltac:(lia) Hb Hf) as (s' & -> & HT' & HS). rewrite Z.sub_0_r in *. by exists s'.
Qed.
End spec.

(** ** One inactive table *)

#[local] Existing Instance demo_env.

Definition flush_logs (t : Z) : list log_index_lsn_t := if t =? 1 then [demo_first] else [demo_second].

Definition flush_snapshot : log_index_snapshot_t :=
  let me := mk_meta 0 (mk_file_segment 0 0 0 0) 0 0 in
  mk_snapshot (7 * 2 ^ 32 + 200) (POLAR_LOGINDEX_STATE_ADDING + POLAR_LOGINDEX_STATE_WRITABLE) 1 2 (mk_promoted 0 0 0 0) me
    [mk_mem_table 2 LOG_INDEX_MEM_TBL_STATE_INACTIVE (one_entry_table 1 demo_first);
     mk_mem_table 2 LOG_INDEX_MEM_TBL_STATE_ACTIVE (one_entry_table 2 demo_second); zero_mem_table] ∅ me ∅.

Lemma flush_to_save : to_save demo_hash flush_logs 2 0 flush_snapshot.
Proof.
  split; [vm_compute; repeat split; congruence|reflexivity..|vm_compute; discriminate|].
  intros t Ht. assert (t = 1 \/ t = 2) as [->| ->] by lia; cbv zeta.
  - change ((1 - 1) mod mem_tbl_size flush_snapshot) with 0. destruct (one_entry_repr 1 demo_first) as [H1 H2]; [vm_compute; split; congruence|].
    unfold LOG_INDEX_MEM_TBL, flush_snapshot. cbn [ls_mem_table aget lookup list_lookup]. split; [exact H2|]. split; [exists 2; exact H1|]. split; reflexivity.
  - change ((2 - 1) mod mem_tbl_size flush_snapshot) with 1. destruct (one_entry_repr 2 demo_second) as [H1 H2]; [vm_compute; split; congruence|].
    unfold LOG_INDEX_MEM_TBL, flush_snapshot. cbn [ls_mem_table aget lookup list_lookup]. split; [exact H2|]. split; [exists 2; exact H1|]. split; reflexivity.
Qed.

Lemma bg_write_saves_in_order_witness :
  exists s', log_index_rw_bg_write 10 2 flush_snapshot 0 = Done (s', 0, true) /\
    to_save demo_hash flush_logs 2 1 s' /\ saved_between demo_hash flush_logs 0 1 flush_snapshot s'.
Proof. apply (bg_write_saves_in_order demo_hash 10 flush_logs 2 2 0 flush_snapshot 0 flush_to_save); [reflexivity|vm_compute; discriminate]. Defined.
