(* ===== verification/LogIndexStartup.v ===== *)
(** * Starting the log index and promoting a replica (polar_logindex.c)

    At start-up the meta data is read from its file, the newest saved
    tables are loaded into memory, as many as are needed or fit, and the
    table after the last saved one becomes active.  Later a replica calls
    the same loading function to follow the primary.  Promotion makes a
    replica writable.

    The meta file is passed beside the snapshot, as is the static variable
    [table] the tables are read into; a table that is not on storage leaves
    [table] as it was.  The fields [magic], [version] and [crc] of the meta
    data occur only in the file.  [meta_crc] is the checksum of the meta
    data; [polar_is_standby], [in_recovery] and [reached_consistency] are
    answers of the server.  [polar_logindex_invalid_bloom_cache] and
    [polar_validate_dir] are left out. *)

From stdpp Require Import sorting.
From S2P Require Import Prelude BufTag HashFn Bloom LogIndexTable LogIndexRepr LogIndexBloom LogIndexSnapshot LogIndexTheorems.
From S2P Require Import LogIndexIter LogIndexFile LogIndexReplay LogIndexPages LogIndexHistory LogIndexTruncate LogIndexFlush.

Definition POLAR_LOGINDEX_STATE_INITIALIZED : Z := 1.
Definition LOG_INDEX_MAGIC : Z := 0xFDFE.
Definition LOG_INDEX_VERSION : Z := 2.

Record meta_image := mk_image {
  im_magic : Z;
  im_version : Z;
  im_crc : Z;
  im_meta : log_index_meta_t
}.

(** A file that is too short leaves something in the buffer. *)
Inductive meta_file :=
| NoFile
| ShortFile (buffer : log_index_meta_t)
| MetaFile (im : meta_image).

Definition zero_meta : log_index_meta_t := mk_meta 0 (mk_file_segment 0 0 0 0) 0 0.

Definition set_meta (s : log_index_snapshot_t) (me : log_index_meta_t) : log_index_snapshot_t :=
  mk_snapshot (ls_max_lsn s) (ls_state s) (ls_active_table s) (ls_max_idx_table_id s) (ls_promoted_info s) me
    (ls_mem_table s) (ls_storage s) (ls_storage_meta s) (ls_bloom s).
Definition set_promoted (s : log_index_snapshot_t) (p : log_index_promoted_info_t) : log_index_snapshot_t :=
  mk_snapshot (ls_max_lsn s) (ls_state s) (ls_active_table s) (ls_max_idx_table_id s) p (ls_meta s)
    (ls_mem_table s) (ls_storage s) (ls_storage_meta s) (ls_bloom s).
Definition or_state (s : log_index_snapshot_t) (st : Z) : log_index_snapshot_t :=
  mk_snapshot (ls_max_lsn s) (Z.lor (ls_state s) st) (ls_active_table s) (ls_max_idx_table_id s) (ls_promoted_info s) (ls_meta s)
    (ls_mem_table s) (ls_storage s) (ls_storage_meta s) (ls_bloom s).

(** Active table, largest table id and largest LSN. *)
Definition set_active_table (s : log_index_snapshot_t) (mid tid lsn : Z) : log_index_snapshot_t :=
  mk_snapshot lsn (ls_state s) mid tid (ls_promoted_info s) (ls_meta s) (ls_mem_table s) (ls_storage s) (ls_storage_meta s) (ls_bloom s).

Section startup.
Context `{env : log_index_env} (meta_crc : Z -> Z -> log_index_meta_t -> Z) (polar_is_standby : bool).

Definition log_index_handle_update_v1_to_v2 : bool := if polar_is_standby then false else true.

Definition log_index_data_compatible (version : Z) : bool :=
  if version =? 1 then log_index_handle_update_v1_to_v2 else version =? LOG_INDEX_VERSION.

(** Whether the meta data is good, and what is left in the buffer. *)
Definition log_index_get_meta (f : meta_file) : bool * log_index_meta_t :=
  match f with
  | NoFile => (false, zero_meta)
  | ShortFile buffer => (false, buffer)
  | MetaFile im =>
    if negb (im_magic im =? LOG_INDEX_MAGIC) then (false, im_meta im)
    else if negb (im_crc im =? meta_crc (im_magic im) (im_version im) (im_meta im)) then (false, im_meta im)
    else if negb (im_version im =? LOG_INDEX_VERSION) && negb (log_index_data_compatible (im_version im)) then (false, im_meta im)
    else (true, im_meta im)
  end.

(** The file that [polar_log_index_write_meta] writes. *)
Definition written_meta (me : log_index_meta_t) : meta_file :=
  MetaFile (mk_image LOG_INDEX_MAGIC LOG_INDEX_VERSION (meta_crc LOG_INDEX_MAGIC LOG_INDEX_VERSION me) me).

(** Reading a table into the variable [table]. *)
Definition read_table_into (s : log_index_snapshot_t) (table : log_idx_table_data_t) (tid : Z) : log_idx_table_data_t * bool :=
  match ls_storage s !! tid with
  | None => (table, false)
  | Some d =>
    let with_crc crc := mk_table (td_idx_table_id d) (td_min_lsn d) (td_max_lsn d) (td_prefix_lsn d) crc (td_last_order d)
                          (td_idx_order d) (td_hash d) (td_segment d) in
    let crc := log_index_calc_crc (with_crc 0) in (with_crc crc, td_crc d =? crc)
  end.

(** ** Loading tables *)

(** The loop over the tables, from the last one down to [min_tid]. *)
Fixpoint load_loop (fuel : nat) (s : log_index_snapshot_t) (table : log_idx_table_data_t) (tid min_tid start_lsn : Z)
  : outcome (log_index_snapshot_t * log_idx_table_data_t) :=
  match fuel with
  | O => Fault OUT_OF_FUEL
  | S n =>
    if tid >=? min_tid then
      let mid := u64 (tid - 1) mod mem_tbl_size s in
      let '(table, _) := read_table_into s table tid in
      let s := set_table s mid (mk_mem_table LOG_INDEX_MEM_TBL_SEG_NUM LOG_INDEX_MEM_TBL_STATE_FLUSHED table) in
      if negb (XLogRecPtrIsInvalid start_lsn) && (start_lsn >=? td_min_lsn table) then Done (s, table)
      else load_loop n s table (u64 (tid - 1)) min_tid start_lsn
    else Done (s, table)
  end.

(** The loop that finds the first segment of the active table not in use. *)
Fixpoint free_head_loop (fuel : nat) (t : log_mem_table_t) : outcome log_mem_table_t :=
  match fuel with
  | O => Fault OUT_OF_FUEL
  | S n =>
    if negb (LOG_INDEX_MEM_TBL_FULL t) then
      let! item := log_index_item_head (lt_data t) (lt_free_head t) in
      match item with
      | None => Done t
      | Some item =>
        if seg_head_seg item =? LOG_INDEX_TBL_INVALID_SEG then Done t
        else free_head_loop n (LOG_INDEX_MEM_TBL_UPDATE_FREE_HEAD t).1
      end
    else Done t
  end.

(** The tables to load when the snapshot is being initialized. *)
Definition first_load (s : log_index_snapshot_t) (new_max : Z) : Z :=
  let min_seg_tid := fs_min_idx_table_id (me_min_segment_info (ls_meta s)) in
  let min_tid := if new_max >? mem_tbl_size s then Z.max (u64 (u64 (new_max - mem_tbl_size s) + 1)) min_seg_tid else min_seg_tid in
  if min_tid =? LOG_INDEX_TABLE_INVALID_ID then new_max else min_tid.

(** The part that loads the tables [min_tid .. new_max] and makes the next
    one active. *)
Definition load_tables (fuel : nat) (s : log_index_snapshot_t) (table : log_idx_table_data_t) (min_tid new_max start_lsn : Z)
  : outcome (log_index_snapshot_t * log_idx_table_data_t) :=
  if new_max >=? min_tid then
    let! (s, table) := load_loop (S (Z.to_nat (new_max - min_tid + 1))) s table new_max min_tid start_lsn in
    let last := LOG_INDEX_MEM_TBL s (u64 (new_max - 1) mod mem_tbl_size s) in
    let s := set_active_table s (new_max mod mem_tbl_size s) new_max (td_max_lsn (lt_data last)) in
    let! s := log_index_wait_active fuel s (ls_active_table s) InvalidXLogRecPtr in
    Done (s, table)
  else Done (s, table).

(** The part that reads the active table again. *)
Definition load_active (s : log_index_snapshot_t) (table : log_idx_table_data_t) : outcome (log_index_snapshot_t * log_idx_table_data_t) :=
  let active := ls_active_table s in
  let t := LOG_INDEX_MEM_TBL s active in
  let '(table, ok) := read_table_into s table (LOG_INDEX_MEM_TBL_TID t) in
  if ok && (td_idx_table_id table =? LOG_INDEX_MEM_TBL_TID t) then
    let t := if td_max_lsn table >? td_max_lsn (lt_data t) then mk_mem_table (lt_free_head t) (lt_state t) table else t in
    let s := set_active_table (set_table s active t) active (LOG_INDEX_MEM_TBL_TID t) (td_max_lsn (lt_data t)) in
    let! t := free_head_loop (S (Z.to_nat LOG_INDEX_MEM_TBL_SEG_NUM)) t in
    Done (set_table s active t, table)
  else Done (s, table).

Definition polar_load_logindex_snapshot_from_storage (fuel : nat) (s : log_index_snapshot_t) (f : meta_file) (table : log_idx_table_data_t)
  (start_lsn : Z) : outcome (log_index_snapshot_t * log_idx_table_data_t) :=
  let active := ls_active_table s in
  let initialized := polar_logindex_check_state s POLAR_LOGINDEX_STATE_INITIALIZED in
  let '(ok, me) := log_index_get_meta f in
  let s := set_meta s me in
  let new_max := if (ok : bool) then me_max_idx_table_id me else LOG_INDEX_TABLE_INVALID_ID in
  if new_max =? LOG_INDEX_TABLE_INVALID_ID then Done (s, table)
  else if negb initialized then load_tables fuel s table (first_load s new_max) new_max start_lsn
  else
    let! s := (if LOG_INDEX_MEM_TBL_TID (LOG_INDEX_MEM_TBL s active) =? LOG_INDEX_TABLE_INVALID_ID
               then log_index_wait_active fuel s active InvalidXLogRecPtr else Done s) in
    let min_tid := LOG_INDEX_MEM_TBL_TID (LOG_INDEX_MEM_TBL s active) in
    let new_max := Z.min new_max (u64 (u64 (min_tid + mem_tbl_size s) - 1)) in
    let! (s, table) := load_tables fuel s table min_tid new_max start_lsn in
    load_active s table.

(** ** Start-up *)

Definition logindex_snapshot_init_promoted_info (s : log_index_snapshot_t) : log_index_snapshot_t :=
  set_promoted s (mk_promoted InvalidXLogRecPtr LOG_INDEX_TABLE_INVALID_ID InvalidXLogRecPtr LOG_INDEX_TABLE_INVALID_ID).

(** The snapshot and its meta file without the directory [dir]. *)
Definition polar_logindex_snapshot_remove_data (dir : list Z) (s : log_index_snapshot_t) (f : meta_file) : log_index_snapshot_t * meta_file :=
  if negb (polar_logindex_check_state s POLAR_LOGINDEX_STATE_WRITABLE) then (s, f)
  else if (0 <? length dir)%nat then (set_bloom (set_storage s ∅) ∅, NoFile) else (s, f).

(** The snapshot before the tables are loaded, its meta file and the start
    LSN. *)
Definition base_reset (dir : list Z) (s : log_index_snapshot_t) (f : meta_file) (checkpoint_lsn : Z) : log_index_snapshot_t * meta_file * Z :=
  let '(ok, me) := log_index_get_meta f in
  let '(s, f) := (if (ok : bool) then (set_meta s me, f)
                  else let '(s, f) := polar_logindex_snapshot_remove_data dir (set_meta s me) f in (set_meta s zero_meta, f)) in
  let me := ls_meta s in
  let s := logindex_snapshot_init_promoted_info s in
  let s := set_active_table s (me_max_idx_table_id me mod mem_tbl_size s) (me_max_idx_table_id me) (me_max_lsn me) in
  let s := mk_snapshot (ls_max_lsn s) (ls_state s) (ls_active_table s) (ls_max_idx_table_id s) (ls_promoted_info s) (ls_meta s)
             (replicate (length (ls_mem_table s)) zero_mem_table) (ls_storage s) (ls_storage_meta s) (ls_bloom s) in
  (s, f, if negb (XLogRecPtrIsInvalid (me_start_lsn me)) && (me_start_lsn me <? checkpoint_lsn) then me_start_lsn me else checkpoint_lsn).

Definition polar_logindex_snapshot_base_init (dir : list Z) (fuel : nat) (s : log_index_snapshot_t) (f : meta_file)
  (table : log_idx_table_data_t) (checkpoint_lsn : Z) : outcome (log_index_snapshot_t * meta_file * log_idx_table_data_t * Z) :=
  let '(s, f, start_lsn) := base_reset dir s f checkpoint_lsn in
  let! (s, table) := polar_load_logindex_snapshot_from_storage fuel s f table checkpoint_lsn in
  Done (or_state s POLAR_LOGINDEX_STATE_INITIALIZED, f, table, start_lsn).

Definition polar_logindex_snapshot_init (dir : list Z) (fuel : nat) (s : log_index_snapshot_t) (f : meta_file)
  (table : log_idx_table_data_t) (checkpoint_lsn : Z) (read_only : bool)
  : outcome (log_index_snapshot_t * meta_file * log_idx_table_data_t * Z) :=
  let s := if negb read_only then or_state s POLAR_LOGINDEX_STATE_WRITABLE else s in
  polar_logindex_snapshot_base_init dir fuel s f table checkpoint_lsn.

(** ** The start LSN and the least LSN on storage *)

Definition polar_logindex_check_valid_start_lsn (in_recovery reached_consistency : bool) (s : log_index_snapshot_t) (f : meta_file)
  : outcome (log_index_snapshot_t * Z) :=
  if negb (XLogRecPtrIsInvalid (me_start_lsn (ls_meta s))) then Done (s, me_start_lsn (ls_meta s))
  else if in_recovery && reached_consistency then
    if negb (polar_logindex_check_state s POLAR_LOGINDEX_STATE_WRITABLE) then
      let '(ok, me) := log_index_get_meta f in
      if (ok : bool) then Done (set_meta s me, me_start_lsn me) else Fault FATAL
    else Done (s, InvalidXLogRecPtr)
  else Done (s, InvalidXLogRecPtr).

Definition polar_logindex_set_start_lsn (s : log_index_snapshot_t) (start_lsn : Z) : log_index_snapshot_t * meta_file :=
  let me := ls_meta s in
  let s := polar_log_index_write_meta s (mk_meta (me_max_idx_table_id me) (me_min_segment_info me) start_lsn (me_max_lsn me)) in
  (s, written_meta (ls_meta s)).

Definition polar_logindex_start_lsn (s : option log_index_snapshot_t) : Z :=
  match s with Some s => me_start_lsn (ls_meta s) | None => InvalidXLogRecPtr end.

Definition polar_get_logindex_snapshot_storage_min_lsn (s : log_index_snapshot_t) : outcome Z :=
  let min_tid := fs_min_idx_table_id (me_min_segment_info (ls_meta s)) in
  if negb (min_tid =? LOG_INDEX_TABLE_INVALID_ID) then
    match log_index_read_table_data s min_tid with
    | Some table => Done (td_min_lsn table)
    | None => Fault PANIC
    end
  else Done InvalidXLogRecPtr.

Definition polar_logindex_used_mem_tbl_size (s : option log_index_snapshot_t) : Z :=
  match s with Some s => u64 (ls_max_idx_table_id s - me_max_idx_table_id (ls_meta s)) | None => 0 end.

(** ** Promotion *)

Definition polar_logindex_online_promote (s : log_index_snapshot_t) (f : meta_file) : outcome log_index_snapshot_t :=
  let '(ok, me) := log_index_get_meta f in
  let s := set_meta s me in
  if (ok : bool) then
    let s := set_promoted s (mk_promoted (me_max_lsn me) (me_max_idx_table_id me)
               (pr_old_rw_max_inserted_lsn (ls_promoted_info s)) (me_max_idx_table_id me)) in
    let s := or_state s POLAR_LOGINDEX_STATE_WRITABLE in
    log_index_update_ro_table_state s (me_max_idx_table_id me)
  else Fault FATAL.

Definition polar_logindex_update_promoted_info (s : log_index_snapshot_t) (last_replayed_lsn : Z) : log_index_snapshot_t :=
  let p := ls_promoted_info s in
  set_promoted s (mk_promoted (pr_old_rw_saved_max_lsn p) (pr_old_rw_saved_max_tid p) last_replayed_lsn (ls_max_idx_table_id s)).
End startup.

(** ** Loading *)

Definition with_tables (s : log_index_snapshot_t) (l : list log_mem_table_t) : log_index_snapshot_t :=
  mk_snapshot (ls_max_lsn s) (ls_state s) (ls_active_table s) (ls_max_idx_table_id s) (ls_promoted_info s) (ls_meta s)
    l (ls_storage s) (ls_storage_meta s) (ls_bloom s).

Section loading.
Context `{env : log_index_env}.

Lemma read_into_read s table tid d : log_index_read_table_data s tid = Some d -> read_table_into s table tid = (d, true).
Proof.
  unfold log_index_read_table_data, read_table_into. intros Hr. destruct (ls_storage s !! tid) as [d0|]; [|done].
  destruct (negb _) eqn:E in Hr; [done|]. injection Hr as <-. apply negb_false_iff, Z.eqb_eq in E. rewrite <- E, Z.eqb_refl. by destruct d0.
Qed.

Lemma read_data_storage s s' tid : ls_storage s' = ls_storage s -> log_index_read_table_data s' tid = log_index_read_table_data s tid.
Proof. intros E. unfold log_index_read_table_data. by rewrite E. Qed.

(** A flushed or free table is taken over at once. *)
Lemma wait_active_reuse n s mid lsn :
  0 <= mid < mem_tbl_size s ->
  LOG_INDEX_MEM_TBL s mid = zero_mem_table \/ lt_state (LOG_INDEX_MEM_TBL s mid) = LOG_INDEX_MEM_TBL_STATE_FLUSHED ->
  log_index_wait_active (S n) s mid lsn =
  Done (set_table (set_active_table s (ls_active_table s) (u64 (ls_max_idx_table_id s + 1)) (ls_max_lsn s)) mid
          (fresh_active (u64 (ls_max_idx_table_id s + 1)) lsn)).
Proof.
  intros Hm Hst. cbn [log_index_wait_active].
  assert (forall s0, mem_tbl_size s0 = mem_tbl_size s -> LOG_INDEX_MEM_TBL s0 mid = zero_mem_table ->
    wait_active_pass s0 mid lsn = Done (LOG_INDEX_MEM_TBL_NEW_ACTIVE s0 mid lsn, true)) as Hfree.
  { intros s0 Hsz Hz. unfold wait_active_pass. rewrite Hz. cbn [zero_mem_table lt_state].
    change (0 =? LOG_INDEX_MEM_TBL_STATE_INACTIVE) with false. cbn [obind]. rewrite Hz. cbn [zero_mem_table lt_state].
    change (0 =? LOG_INDEX_MEM_TBL_STATE_FLUSHED) with false. cbv zeta iota. rewrite Hz. cbn [zero_mem_table lt_state].
    change (0 =? LOG_INDEX_MEM_TBL_STATE_FREE) with true. cbv iota.
    destruct (new_active_zero s0 mid lsn) as (H1 & _); [by rewrite Hsz|by rewrite Hz|]. by rewrite H1. }
  destruct Hst as [Hz|Hfl].
  - rewrite Hfree by done. cbn [obind]. unfold LOG_INDEX_MEM_TBL_NEW_ACTIVE. rewrite Hz. done.
  - assert (wait_active_pass s mid lsn = wait_active_pass (set_table s mid zero_mem_table) mid lsn) as ->.
    { unfold wait_active_pass. rewrite Hfl. rewrite !get_set_table, !decide_True by done. cbn [zero_mem_table lt_state].
      change (LOG_INDEX_MEM_TBL_STATE_FLUSHED =? LOG_INDEX_MEM_TBL_STATE_INACTIVE) with false.
      change (0 =? LOG_INDEX_MEM_TBL_STATE_INACTIVE) with false. cbn [obind]. rewrite Hfl.
      rewrite !get_set_table, !decide_True by done. done. }
    rewrite Hfree; [|apply set_table_size|by rewrite get_set_table, decide_True]. cbn [obind].
    unfold LOG_INDEX_MEM_TBL_NEW_ACTIVE. rewrite get_set_table, decide_True by done. cbv zeta. cbn [zero_mem_table lt_data].
    unfold set_table, set_active_table. cbn [ls_mem_table ls_max_lsn ls_state ls_active_table ls_max_idx_table_id ls_promoted_info ls_meta ls_storage ls_storage_meta ls_bloom].
    do 2 f_equal. unfold aset. rewrite !decide_True by lia. by rewrite list_insert_insert_eq.
Qed.

(** The tables from some [lo] on are loaded, all others left. *)
Definition loaded (s s' : log_index_snapshot_t) (lo hi : Z) : Prop :=
  (exists l, s' = with_tables s l /\ length l = length (ls_mem_table s)) /\
  (forall t, lo <= t <= hi -> exists d, log_index_read_table_data s t = Some d /\
     LOG_INDEX_MEM_TBL s' ((t - 1) mod mem_tbl_size s) = mk_mem_table LOG_INDEX_MEM_TBL_SEG_NUM LOG_INDEX_MEM_TBL_STATE_FLUSHED d) /\
  (forall m, 0 <= m < mem_tbl_size s -> (forall t, lo <= t <= hi -> m <> (t - 1) mod mem_tbl_size s) -> LOG_INDEX_MEM_TBL s' m = LOG_INDEX_MEM_TBL s m).

Lemma loaded_size s s' lo hi : loaded s s' lo hi -> mem_tbl_size s' = mem_tbl_size s.
Proof. intros [(l & -> & Hl) _]. unfold mem_tbl_size. cbn. by rewrite Hl. Qed.

Lemma load_loop_spec fuel s table tid min_tid start_lsn :
  1 <= min_tid <= tid + 1 -> tid < 2 ^ 64 -> tid - min_tid + 1 <= mem_tbl_size s -> 0 < mem_tbl_size s -> tid - min_tid + 1 < Z.of_nat fuel ->
  (forall t, min_tid <= t <= tid -> is_Some (log_index_read_table_data s t)) ->
  exists s' table' lo, load_loop fuel s table tid min_tid start_lsn = Done (s', table') /\
    min_tid <= lo <= tid + 1 /\ (min_tid <= tid -> lo <= tid) /\ loaded s s' lo tid /\
    (min_tid < lo -> start_lsn <> 0).
Proof.
  revert s table tid. induction fuel as [|n IH]; intros s table tid Hmin Htid Hfit Hsz Hf Hrd; [lia|]. cbn [load_loop].
  destruct (tid >=? min_tid) eqn:E; zbool.
  2: { exists s, table, min_tid. split; [done|]. split; [lia|]. split; [lia|]. split; [|lia]. split; [by exists (ls_mem_table s); destruct s|].
       split; [intros; lia|done]. }
  destruct (Hrd tid ltac:(lia)) as [d Hd]. rewrite (read_into_read _ _ _ _ Hd). rewrite u64_small by (unfold is_u64; lia).
  set (mid := (tid - 1) mod mem_tbl_size s). assert (0 <= mid < mem_tbl_size s) as Hmid by (apply Z.mod_pos_bound; lia).
  set (s1 := set_table s mid _). cbv zeta.
  destruct (negb (XLogRecPtrIsInvalid start_lsn) && (start_lsn >=? td_min_lsn d)) eqn:Eb.
  - apply andb_prop in Eb as [Eb _]. apply negb_true_iff in Eb. unfold XLogRecPtrIsInvalid, InvalidXLogRecPtr in Eb. zbool. exists s1, d, tid. split; [done|]. split; [lia|]. split; [lia|]. split; [split; [|split]|].
    + exists (aset (ls_mem_table s) mid (mk_mem_table LOG_INDEX_MEM_TBL_SEG_NUM LOG_INDEX_MEM_TBL_STATE_FLUSHED d)). by rewrite length_aset.
    + intros t Ht. assert (t = tid) as -> by lia. exists d. split; [done|]. unfold s1. by rewrite get_set_table, decide_True.
    + intros m Hm Hne. unfold s1. rewrite get_set_table, decide_False by (try done; intros E'; symmetry in E'; by apply (Hne tid); [lia|]). done.
    + done.
  - assert (mem_tbl_size s1 = mem_tbl_size s) as Hsz1 by apply set_table_size.
    destruct (IH s1 d (tid - 1)) as (s2 & table' & lo & -> & Hlo & Hlt & (Hw & Hl & Hk) & Hmore); [lia..| |].
    { intros t Ht. rewrite (read_data_storage s s1) by done. apply Hrd. lia. }
    exists s2, table', lo. split; [done|]. split; [lia|]. split; [lia|]. rewrite Hsz1 in *.
    split; [split; [|split]|done].
    + destruct Hw as (l & -> & Hlen). exists l. split; [done|]. rewrite Hlen. unfold s1, set_table. cbn. apply length_aset.
    + intros t Ht. destruct (decide (t = tid)) as [->|Hne].
      * exists d. split; [done|]. fold mid. rewrite Hk; [unfold s1; by rewrite get_set_table, decide_True|done|].
        intros t' Ht'. apply slots_differ; lia.
      * destruct (Hl t ltac:(lia)) as (d' & Hd' & Hm). exists d'. by rewrite (read_data_storage s s1) in Hd'.
    + intros m Hm Hne. rewrite Hk by (try done; intros t Ht; apply Hne; lia). unfold s1.
      rewrite get_set_table, decide_False by (try done; intros E'; symmetry in E'; by apply (Hne tid); [lia|]). done.
Qed.

(** The tables are loaded, and the one after the last becomes active. *)
Lemma load_tables_spec n s table min_tid new_max start_lsn :
  1 <= min_tid <= new_max -> new_max < 2 ^ 63 -> new_max - min_tid + 1 <= mem_tbl_size s -> 0 < mem_tbl_size s ->
  (forall t, min_tid <= t <= new_max -> is_Some (log_index_read_table_data s t)) ->
  (LOG_INDEX_MEM_TBL s (new_max mod mem_tbl_size s) = zero_mem_table \/
   lt_state (LOG_INDEX_MEM_TBL s (new_max mod mem_tbl_size s)) = LOG_INDEX_MEM_TBL_STATE_FLUSHED \/ new_max - min_tid + 1 = mem_tbl_size s /\ start_lsn = 0) ->
  exists s1 table' lo d, min_tid <= lo <= new_max /\ (start_lsn = 0 -> lo = min_tid) /\ loaded s s1 lo new_max /\ log_index_read_table_data s new_max = Some d /\
    load_tables (S n) s table min_tid new_max start_lsn =
      Done (set_table (set_active_table s1 (new_max mod mem_tbl_size s) (new_max + 1) (td_max_lsn d)) (new_max mod mem_tbl_size s)
              (fresh_active (new_max + 1) 0), table').
Proof.
  intros Hmin Hmax Hfit Hsz Hrd Hact. unfold load_tables. destruct (new_max >=? min_tid) eqn:E; zbool; [|lia].
  destruct (load_loop_spec (S (Z.to_nat (new_max - min_tid + 1))) s table new_max min_tid start_lsn) as (s1 & table' & lo & -> & Hlo & Hlt & HL & Hmore);
    [lia..|done|]. cbn [obind]. pose proof (loaded_size _ _ _ _ HL) as Hsz1. rewrite Hsz1, u64_small by (unfold is_u64; lia).
  destruct HL as (Hw & Hld & Hk). destruct (Hld new_max ltac:(lia)) as (d & Hd & Hlast). rewrite Hlast. cbn [lt_data].
  exists s1, table', lo, d. split; [lia|]. split; [lia|]. split; [done|]. split; [done|].
  set (mid := new_max mod mem_tbl_size s) in *. assert (0 <= mid < mem_tbl_size s) as Hmid by (apply Z.mod_pos_bound; lia).
  cbn [set_active_table ls_active_table]. rewrite wait_active_reuse.
  - cbn [obind set_active_table ls_max_idx_table_id ls_active_table ls_max_lsn]. rewrite u64_small by (unfold is_u64; lia). done.
  - unfold mem_tbl_size in *. cbn. rewrite Hsz1. exact Hmid.
  - change (LOG_INDEX_MEM_TBL (set_active_table _ _ _ _) mid) with (LOG_INDEX_MEM_TBL s1 mid).
    destruct (decide (lo <= new_max + 1 - mem_tbl_size s)) as [Hin|Hout].
    + right. destruct (Hld (new_max + 1 - mem_tbl_size s) ltac:(lia)) as (d' & _ & Hm).
      replace ((new_max + 1 - mem_tbl_size s - 1) mod mem_tbl_size s) with mid in Hm; [by rewrite Hm|].
      unfold mid. replace (new_max + 1 - mem_tbl_size s - 1) with (new_max + (-1) * mem_tbl_size s) by lia. by rewrite Z.mod_add by lia.
    + assert (LOG_INDEX_MEM_TBL s1 mid = LOG_INDEX_MEM_TBL s mid) as Eq.
      { apply Hk; [done|]. intros t Ht. unfold mid. replace new_max with (new_max + 1 - 1) at 1 by lia. apply slots_differ; lia. }
      rewrite Eq. destruct Hact as [?|[?|[? ?]]]; [by left|by right|]. lia.
Qed.
End loading.

(** ** Start-up finds the saved tables *)

Section restart.
Context (tag_hash : BufferTag -> Z) `{env : log_index_env} (meta_crc : Z -> Z -> log_index_meta_t -> Z) (polar_is_standby : bool).
Context (dir : list Z) (logs : Z -> list log_index_lsn_t) (first last : Z).
Abbreviation hash := (LOG_INDEX_MEM_TBL_HASH_PAGE tag_hash).
Abbreviation get_meta := (log_index_get_meta meta_crc polar_is_standby).

(** Storage has the tables [first .. last] with their logs and their Bloom
    data, and [me] is the meta data of them. *)
Record on_storage (s : log_index_snapshot_t) (me : log_index_meta_t) : Prop := {
  os_ids : 1 <= first <= last /\ last < 2 ^ 63;
  os_table : forall t, first <= t <= last -> exists d free,
    log_index_read_table_data s t = Some d /\ td_idx_table_id d = t /\ represents hash d free (logs t) /\
    (forall e, e ∈ logs t -> td_min_lsn d <= li_lsn e) /\ (forall t' e, first <= t' <= t -> e ∈ logs t' -> li_lsn e <= td_max_lsn d);
  os_stale : forall i d, ls_storage s !! i = Some d -> td_idx_table_id d = i \/ td_idx_table_id d < first;
  os_bloom : forall t, first <= t <= last -> exists b, ls_bloom s !! t = Some b /\ bloom_of hash_any_extended bloom_rint t (logs t) b /\
    forall t' e, first <= t' <= t -> e ∈ logs t' -> li_lsn e <= bt_max_lsn b;
  os_next : logs (last + 1) = [];
  os_max : me_max_idx_table_id me = last;
  os_first : fs_min_idx_table_id (me_min_segment_info me) = first;
  os_aligned : (first - 1) mod LOG_INDEX_TABLE_NUM_PER_FILE = 0
}.

Lemma read_data_stored s t d : log_index_read_table_data s t = Some d -> ls_storage s !! t = Some d.
Proof.
  unfold log_index_read_table_data. destruct (ls_storage s !! t) as [d0|]; [|done]. destruct (negb _); [done|]. by intros [= ->].
Qed.

(** The snapshot [s1] with its tables [lo ..] loaded into zeroed memory and
    table [last + 1] made active. *)
Definition started (s1 : log_index_snapshot_t) (lsn : Z) : log_index_snapshot_t :=
  set_table (set_active_table s1 (last mod mem_tbl_size s1) (last + 1) lsn) (last mod mem_tbl_size s1) (fresh_active (last + 1) 0).

Lemma get_started s1 lsn m : 0 < mem_tbl_size s1 ->
  LOG_INDEX_MEM_TBL (started s1 lsn) m = if decide (last mod mem_tbl_size s1 = m) then fresh_active (last + 1) 0 else LOG_INDEX_MEM_TBL s1 m.
Proof. intros Hs. unfold started. rewrite get_set_table; [done|]. apply Z.mod_pos_bound. exact Hs. Qed.

Context (s0 s1 : log_index_snapshot_t) (me : log_index_meta_t) (lo0 lsn : Z).
Context (HO : on_storage s0 me) (Hsz : 0 < mem_tbl_size s0) (Hme : ls_meta s0 = me).
Context (Hzero : forall m, LOG_INDEX_MEM_TBL s0 m = zero_mem_table).
Context (HL : loaded s0 s1 lo0 last) (Hlo0 : first <= lo0 <= last) (Hfit : last - lo0 + 1 <= mem_tbl_size s0).

(** The first table that is still in memory. *)
Definition in_memory_from : Z := if decide (lo0 <= last + 1 - mem_tbl_size s0) then lo0 + 1 else lo0.

Lemma started_slot t : in_memory_from <= t <= last + 1 ->
  LOG_INDEX_MEM_TBL (started s1 lsn) ((t - 1) mod mem_tbl_size s0) =
  if decide (t = last + 1) then fresh_active (last + 1) 0 else LOG_INDEX_MEM_TBL s1 ((t - 1) mod mem_tbl_size s0).
Proof.
  intros Ht. pose proof (loaded_size _ _ _ _ HL) as E. rewrite get_started, E by lia. unfold in_memory_from in Ht.
  destruct (decide (t = last + 1)) as [->|Hne]; [by rewrite decide_True by (f_equal; lia)|].
  rewrite decide_False; [done|]. replace last with (last + 1 - 1) by lia. apply not_eq_sym, slots_differ; [done|]. destruct (decide _); lia.
Qed.

Lemma started_mem_tables : mem_tables hash logs first in_memory_from (last + 1) (started s1 lsn).
Proof.
  pose proof (loaded_size _ _ _ _ HL) as E. destruct HL as (Hw & Hld & Hk). pose proof (os_ids _ _ HO) as Hids.
  assert (mem_tbl_size (started s1 lsn) = mem_tbl_size s0) as Esz by (unfold started; rewrite set_table_size; exact E).
  split; rewrite ?Esz; [done| |].
  - intros t Ht. cbv zeta. rewrite started_slot by done. destruct (decide (t = last + 1)) as [->|Hne].
    + split; [done|]. split; [done|]. split; [|done]. exists 1. rewrite (os_next _ _ HO). by apply fresh_table_repr.
    + destruct (Hld t) as (d & Hd & ->); [unfold in_memory_from in Ht; destruct (decide _); lia|].
      destruct (os_table _ _ HO t) as (d' & free & Hd' & Hid & HR & Hlow & Hhigh); [unfold in_memory_from in Ht; destruct (decide _); lia|].
      assert (d' = d) as -> by congruence. cbn [lt_data lt_state]. split; [done|]. split; [done|]. split; [by exists free|]. intros _. split; [done|]. exact Hhigh.
  - destruct (decide (in_memory_from = 1)) as [|Hne]; [by left|]. right. rewrite get_started, E by lia. destruct (decide _) as [_|Hsl].
    { left. unfold in_memory_from. cbn. destruct (decide _); lia. }
    right. unfold in_memory_from in *. destruct (decide (lo0 <= last + 1 - mem_tbl_size s0)) as [Hc|Hc].
    + destruct Hsl. replace (lo0 + 1 - 2) with (last + (-1) * mem_tbl_size s0) by lia. by rewrite Z.mod_add by lia.
    + rewrite Hk, Hzero; [done|apply Z.mod_pos_bound; lia|]. intros t Ht. replace (lo0 - 2) with (lo0 - 1 - 1) by lia. apply slots_differ; lia.
Qed.

Lemma started_saved_tables cache : tc_name cache <> dir -> saved_tables hash logs first in_memory_from dir (started s1 lsn) cache.
Proof.
  intros Hc. pose proof (loaded_size _ _ _ _ HL) as E. pose proof HL as ((l & Hs1 & _) & Hld & Hk). pose proof (os_ids _ _ HO) as Hids.
  assert (mem_tbl_size (started s1 lsn) = mem_tbl_size s0) as Esz by (unfold started; rewrite set_table_size; exact E).
  assert (in_memory_from <= last + 1) as Hup by (unfold in_memory_from; destruct (decide _); lia).
  assert (ls_storage (started s1 lsn) = ls_storage s0 /\ ls_bloom (started s1 lsn) = ls_bloom s0 /\ ls_meta (started s1 lsn) = me) as (Est & Ebl & Eme)
    by (subst s1; rewrite <- Hme; done).
  split; rewrite ?Esz, ?Est, ?Ebl, ?Eme.
  - done.
  - intros t Ht. destruct (os_table _ _ HO t) as (d & free & Hd & Hid & HR & _); [lia|]. exists d, free. split; [by apply read_data_stored|done].
  - apply HO.
  - intros t Ht. apply HO. lia.
  - rewrite (os_max _ _ HO). lia.
  - apply HO.
  - apply HO.
  - intros mid Hmid Hst Ht. rewrite get_started in Hst, Ht |- * by lia. destruct (decide _) as [Hm|Hm]; [done|].
    destruct (decide (Exists (fun t => mid = (t - 1) mod mem_tbl_size s0) (seqZ lo0 (last + 1 - lo0)))) as [Hex|Hno].
    + apply Exists_exists in Hex as (t & Htr & ->). apply elem_of_seqZ in Htr. destruct (Hld t ltac:(lia)) as (d & Hd & Hslot). rewrite Hslot in *.
      destruct (os_table _ _ HO t ltac:(lia)) as (d' & free & Hd' & Hid & HR & _). assert (d' = d) as -> by congruence.
      exists free. unfold LOG_INDEX_MEM_TBL_TID. cbn [lt_data]. by rewrite Hid.
    + rewrite Hk, Hzero in Hst; [done|done|]. intros t Ht' Eq. apply Hno, Exists_exists. exists t. split; [apply elem_of_seqZ; lia|done].
  - intros Hn. by destruct (Hc Hn).
Qed.
End restart.

Section init.
Context (tag_hash : BufferTag -> Z) `{env : log_index_env} (meta_crc : Z -> Z -> log_index_meta_t -> Z) (polar_is_standby : bool).
Context (try_lock : Z -> Z -> bool) (dir : list Z) (logs : Z -> list log_index_lsn_t) (first last : Z).
Abbreviation hash := (LOG_INDEX_MEM_TBL_HASH_PAGE tag_hash).
Abbreviation get_meta := (log_index_get_meta meta_crc polar_is_standby).
Abbreviation on_storage := (on_storage tag_hash logs first last).

Lemma on_storage_ext s s' me : ls_storage s' = ls_storage s -> ls_bloom s' = ls_bloom s -> on_storage s me -> on_storage s' me.
Proof.
  intros Es Eb HO. destruct HO as [H1 H2 H3 H4 H5 H6 H7 H8]. split; rewrite ?Es, ?Eb; try done.
  intros t Ht. destruct (H2 t Ht) as (d & free & Hd & Hrest). exists d, free. split; [|done]. by rewrite (read_data_storage s s').
Qed.

(** Where redo of the log index starts. *)
Definition start_of (me : log_index_meta_t) (checkpoint_lsn : Z) : Z :=
  if negb (XLogRecPtrIsInvalid (me_start_lsn me)) && (me_start_lsn me <? checkpoint_lsn) then me_start_lsn me else checkpoint_lsn.

(** The snapshot whose memory is zeroed. *)
Definition reset (s : log_index_snapshot_t) (me : log_index_meta_t) : log_index_snapshot_t :=
  mk_snapshot (me_max_lsn me) (ls_state s) (me_max_idx_table_id me mod mem_tbl_size s) (me_max_idx_table_id me) (mk_promoted 0 0 0 0) me
    (replicate (length (ls_mem_table s)) zero_mem_table) (ls_storage s) (ls_storage_meta s) (ls_bloom s).

Lemma reset_size s me : mem_tbl_size (reset s me) = mem_tbl_size s.
Proof. unfold mem_tbl_size, reset. cbn [ls_mem_table]. by rewrite length_replicate. Qed.

Lemma reset_zero s me m : LOG_INDEX_MEM_TBL (reset s me) m = zero_mem_table.
Proof. unfold LOG_INDEX_MEM_TBL, reset. cbn [ls_mem_table]. apply aget_replicate. Qed.

Lemma base_reset_good s f me checkpoint_lsn :
  get_meta f = (true, me) -> base_reset meta_crc polar_is_standby dir s f checkpoint_lsn = (reset s me, f, start_of me checkpoint_lsn).
Proof. intros Hf. unfold base_reset. rewrite Hf. done. Qed.

Lemma first_load_range s me :
  on_storage s me -> ls_meta s = me -> 0 < mem_tbl_size s ->
  first <= first_load s last <= last /\ last - first_load s last + 1 <= mem_tbl_size s.
Proof.
  intros HO Hme Hsz. pose proof (os_ids _ _ _ _ _ _ HO) as Hids. unfold first_load. rewrite Hme, (os_first _ _ _ _ _ _ HO).
  unfold LOG_INDEX_TABLE_INVALID_ID. destruct (last >? mem_tbl_size s) eqn:E; zbool.
  - rewrite (u64_small (last - mem_tbl_size s)) by (unfold is_u64; lia). rewrite u64_small by (unfold is_u64; lia).
    destruct (Z.max _ _ =? 0) eqn:E0; zbool; lia.
  - destruct (first =? 0) eqn:E0; zbool; lia.
Qed.

Lemma base_init_spec n s f me table checkpoint_lsn :
  on_storage s me -> get_meta f = (true, me) -> 0 < mem_tbl_size s -> polar_logindex_check_state s POLAR_LOGINDEX_STATE_INITIALIZED = false ->
  exists s1 table' lo lsn, loaded (reset s me) s1 lo last /\ first <= lo <= last /\ last - lo + 1 <= mem_tbl_size s /\
    polar_logindex_snapshot_base_init meta_crc polar_is_standby dir (S n) s f table checkpoint_lsn =
      Done (or_state (started last s1 lsn) POLAR_LOGINDEX_STATE_INITIALIZED, f, table', start_of me checkpoint_lsn).
Proof.
  intros HO Hf Hsz Hst. unfold polar_logindex_snapshot_base_init. rewrite (base_reset_good _ _ _ _ Hf).
  pose proof (os_ids _ _ _ _ _ _ HO) as Hids. pose proof (reset_size s me) as Ers.
  assert (on_storage (reset s me) me) as HOr by (by apply (on_storage_ext s)).
  unfold polar_load_logindex_snapshot_from_storage. rewrite Hf.
  change (set_meta (reset s me) me) with (reset s me). change (polar_logindex_check_state (reset s me) _) with (polar_logindex_check_state s POLAR_LOGINDEX_STATE_INITIALIZED).
  rewrite Hst, (os_max _ _ _ _ _ _ HO). unfold LOG_INDEX_TABLE_INVALID_ID. destruct (last =? 0) eqn:E0; zbool; [lia|]. cbn [negb].
  destruct (first_load_range (reset s me) me HOr eq_refl ltac:(by rewrite Ers)) as [Hfl Hfit].
  destruct (load_tables_spec n (reset s me) table (first_load (reset s me) last) last checkpoint_lsn) as (s1 & table' & lo & d & Hlo & _ & HL & Hd & ->).
  - lia.
  - lia.
  - done.
  - by rewrite Ers.
  - intros t Ht. destruct (os_table _ _ _ _ _ _ HOr t ltac:(lia)) as (d & free & -> & _). done.
  - left. apply reset_zero.
  - exists s1, table', lo, (td_max_lsn d). split; [done|]. split; [lia|]. split; [lia|]. cbn [obind].
    unfold started. by rewrite (loaded_size _ _ _ _ HL).
Qed.

Lemma writable_not_initialized s : polar_logindex_check_state s POLAR_LOGINDEX_STATE_INITIALIZED = false ->
  polar_logindex_check_state (or_state s POLAR_LOGINDEX_STATE_WRITABLE) POLAR_LOGINDEX_STATE_INITIALIZED = false.
Proof.
  unfold polar_logindex_check_state, or_state. cbn [ls_state]. rewrite Z.land_lor_distr_l. change (Z.land POLAR_LOGINDEX_STATE_WRITABLE _) with 0.
  by rewrite Z.lor_0_r.
Qed.

(** The snapshot after start-up: [started], from a state [sr] whose memory
    tables are zero. *)
Lemma init_spec n s f me table checkpoint_lsn (read_only : bool) :
  on_storage s me -> get_meta f = (true, me) -> 0 < mem_tbl_size s -> polar_logindex_check_state s POLAR_LOGINDEX_STATE_INITIALIZED = false ->
  exists sr s1 table' lo lsn, on_storage sr me /\ ls_meta sr = me /\ mem_tbl_size sr = mem_tbl_size s /\
    ls_storage sr = ls_storage s /\ ls_bloom sr = ls_bloom s /\
    polar_logindex_check_state sr POLAR_LOGINDEX_STATE_ADDING = polar_logindex_check_state s POLAR_LOGINDEX_STATE_ADDING /\
    (forall m, LOG_INDEX_MEM_TBL sr m = zero_mem_table) /\ loaded sr s1 lo last /\ first <= lo <= last /\ last - lo + 1 <= mem_tbl_size sr /\
    polar_logindex_snapshot_init meta_crc polar_is_standby dir (S n) s f table checkpoint_lsn read_only =
      Done (or_state (started last s1 lsn) POLAR_LOGINDEX_STATE_INITIALIZED, f, table', start_of me checkpoint_lsn).
Proof.
  intros HO Hf Hsz Hst. unfold polar_logindex_snapshot_init. set (sw := if negb read_only then _ else _).
  assert (on_storage sw me /\ mem_tbl_size sw = mem_tbl_size s /\ ls_storage sw = ls_storage s /\ ls_bloom sw = ls_bloom s) as (HOw & Ew & Es & Eb)
    by (unfold sw; destruct (negb read_only); [split; [by apply (on_storage_ext s)|done]|done]).
  destruct (base_init_spec n sw f me table checkpoint_lsn HOw Hf) as (s1 & table' & lo & lsn & HL & Hlo & Hfit & ->);
    [by rewrite Ew|unfold sw; destruct (negb read_only); [by apply writable_not_initialized|done]|].
  exists (reset sw me), s1, table', lo, lsn. split; [by apply (on_storage_ext s)|]. split; [done|]. rewrite !reset_size. split; [done|].
  split; [done|]. split; [done|]. split; [|split; [apply reset_zero|done]].
  unfold polar_logindex_check_state, reset, sw. cbn [ls_state]. destruct (negb read_only); [|done]. cbn [or_state ls_state].
  rewrite Z.land_lor_distr_l. change (Z.land POLAR_LOGINDEX_STATE_WRITABLE _) with 0. by rewrite Z.lor_0_r.
Qed.

(** C15: a restart keeps the history of every page.  When storage has the
    tables [first .. last] and a good meta file of them, initializing the
    snapshot succeeds on a primary or a replica, whatever was in memory and
    whatever the number of memory tables, changes nothing on storage, makes
    table [last + 1] active and tells where to start redo; a page iterator
    then returns exactly the records of its page in all saved tables, some
    found in the memory tables that were loaded and some on storage. *)
Theorem restart_keeps_history n s f me table checkpoint_lsn (read_only : bool) known tag min max cache :
  on_storage s me -> get_meta f = (true, me) -> 0 < mem_tbl_size s -> polar_logindex_check_state s POLAR_LOGINDEX_STATE_INITIALIZED = false ->
  tc_name cache <> dir -> min <= max -> page_history known (page_log tag (log_range logs first last)) ->
  (known = false -> heads_unknown tag logs first last) ->
  exists s' table', polar_logindex_snapshot_init meta_crc polar_is_standby dir (S n) s f table checkpoint_lsn read_only =
      Done (s', f, table', start_of me checkpoint_lsn) /\
    ls_storage s' = ls_storage s /\ ls_bloom s' = ls_bloom s /\ ls_meta s' = me /\ ls_max_idx_table_id s' = last + 1 /\
    LOG_INDEX_MEM_TBL s' (ls_active_table s') = fresh_active (last + 1) 0 /\
    exists s'' c it, polar_logindex_create_page_iterator try_lock dir tag_hash s' cache tag min max false = Done (s'', c, it) /\
      forall fuel, (length (log_range logs first last) <= fuel)%nat ->
        replay_page fuel it = filter (lsn_in min max) (page_log tag (log_range logs first last)).
Proof.
  intros HO Hf Hsz Hst Hc Hmm HG Hunk. pose proof (os_ids _ _ _ _ _ _ HO) as Hids.
  destruct (init_spec n s f me table checkpoint_lsn read_only HO Hf Hsz Hst)
    as (sr & s1 & table' & lo & lsn & HOr & Hmr & Er & Es & Eb & _ & Hz & HL & Hlo & Hfit & ->).
  pose proof HL as ((l & Hs1 & _) & _).
  assert (log_range logs first (last + 1) = log_range logs first last) as Elog.
  { rewrite (log_range_split logs first last (last + 1)) by lia. rewrite log_range_one, (os_next _ _ _ _ _ _ HO). apply app_nil_r. }
  eexists _, table'. split; [reflexivity|]. assert (mem_tbl_size s1 = mem_tbl_size s) as E1 by (rewrite (loaded_size _ _ _ _ HL); done).
  split; [by subst s1|]. split; [by subst s1|]. split; [by subst s1|]. split; [by subst s1|].
  split; [change (LOG_INDEX_MEM_TBL (or_state _ _) _) with (LOG_INDEX_MEM_TBL (started last s1 lsn) (last mod mem_tbl_size s1));
          rewrite get_started, decide_True by (done || lia); done|].
  assert (0 < mem_tbl_size sr) as Hrs by (rewrite Er; done).
  set (s' := or_state (started last s1 lsn) _). set (from := in_memory_from last sr lo).
  assert (first <= from <= last + 1) as Hfrom by (unfold from, in_memory_from; destruct (decide _); lia).
  assert (mem_tables hash logs first from (last + 1) s') as HM by
    (destruct (started_mem_tables tag_hash logs first last sr s1 me lo lsn HOr Hrs Hz HL Hlo Hfit); by split).
  assert (saved_tables hash logs first from dir s' cache) as HS by
    (destruct (started_saved_tables tag_hash dir logs first last sr s1 me lo lsn HOr Hrs Hmr Hz HL Hlo cache Hc); by split).
  destruct (create_iterator_spec tag_hash try_lock dir known tag min max logs first from (last + 1) s' cache false Hmm) as (s'' & c & it & Hrun & _ & Hit).
  - lia.
  - by rewrite Elog.
  - intros Hk t e Ht He. destruct (decide (t = last + 1)) as [->|]; [by rewrite (os_next _ _ _ _ _ _ HO) in He|]. by apply (Hunk Hk t); [lia|].
  - done.
  - intros _. unfold refresh_meta. assert (ls_meta s' = me) as -> by (subst s1; exact Hmr). rewrite (os_max _ _ _ _ _ _ HO).
    by rewrite (proj2 (Z.ltb_ge last (from - 1))) by lia.
  - done.
  - done.
  - exists s'', c, it. rewrite Elog in Hit. done.
Qed.

(** ** Redo after a restart *)

End init.

(** ** Promotion *)

Section promote.
Context (hash : BufferTag -> Z) `{env : log_index_env} (meta_crc : Z -> Z -> log_index_meta_t -> Z) (polar_is_standby : bool).
Context (logs : Z -> list log_index_lsn_t) (lo hi : Z).
Abbreviation slot s t := ((t - 1) mod mem_tbl_size s).

(** A replica has the tables [lo .. hi] in memory, which may fill all
    slots, not marked as flushed; the table before is not inactive. *)
Record replica_tables (s : log_index_snapshot_t) : Prop := {
  rt_ids : 1 <= lo <= hi /\ hi < 2 ^ 32 /\ hi - lo + 1 <= mem_tbl_size s;
  rt_active : ls_active_table s = slot s hi;
  rt_table : forall t, lo <= t <= hi -> let tb := LOG_INDEX_MEM_TBL s (slot s t) in
    LOG_INDEX_MEM_TBL_TID tb = t /\ (exists free, represents hash (lt_data tb) free (logs t)) /\ table_flushable tb = true /\
    lt_state tb = if t =? hi then LOG_INDEX_MEM_TBL_STATE_ACTIVE else LOG_INDEX_MEM_TBL_STATE_INACTIVE;
  rt_before : lt_state (LOG_INDEX_MEM_TBL s (slot s (lo - 1))) <> LOG_INDEX_MEM_TBL_STATE_INACTIVE
}.

(** The tables [lo .. m] are marked as flushed. *)
Definition marked (s s' : log_index_snapshot_t) (m : Z) : Prop :=
  (exists l, s' = with_tables s l /\ length l = length (ls_mem_table s)) /\
  (forall t, lo <= t <= m -> LOG_INDEX_MEM_TBL s' (slot s t) = LOG_INDEX_MEM_TBL_SET_STATE (LOG_INDEX_MEM_TBL s (slot s t)) LOG_INDEX_MEM_TBL_STATE_FLUSHED) /\
  (forall i, 0 <= i < mem_tbl_size s -> (forall t, lo <= t <= m -> i <> slot s t) -> LOG_INDEX_MEM_TBL s' i = LOG_INDEX_MEM_TBL s i).

Lemma update_ro_spec fuel s max_saved t :
  0 < mem_tbl_size s -> lo - 1 <= t <= max_saved -> t - lo + 1 < mem_tbl_size s -> t - lo + 1 < Z.of_nat fuel ->
  (forall t', lo <= t' <= t -> LOG_INDEX_MEM_TBL_TID (LOG_INDEX_MEM_TBL s (slot s t')) = t' /\
     lt_state (LOG_INDEX_MEM_TBL s (slot s t')) = LOG_INDEX_MEM_TBL_STATE_INACTIVE) ->
  lt_state (LOG_INDEX_MEM_TBL s (slot s (lo - 1))) <> LOG_INDEX_MEM_TBL_STATE_INACTIVE ->
  exists s', update_ro_loop fuel s max_saved (slot s t) = Done s' /\ marked s s' t.
Proof.
  revert s t. induction fuel as [|n IH]; intros s t Hsz Ht Hfit Hf Htab Hend; [lia|]. cbn [update_ro_loop]. cbv zeta. unfold is_inactive.
  destruct (decide (t = lo - 1)) as [->|Hne].
  { rewrite (proj2 (Z.eqb_neq _ _) Hend). exists s. split; [done|]. split; [by exists (ls_mem_table s); destruct s|]. split; [intros; lia|done]. }
  destruct (Htab t ltac:(lia)) as [Htid Hst]. rewrite Htid, Hst, Z.eqb_refl. rewrite (proj2 (Z.leb_le t max_saved)) by lia.
  set (s1 := set_table s (slot s t) _). assert (mem_tbl_size s1 = mem_tbl_size s) as E1 by apply set_table_size.
  assert (0 <= slot s t < mem_tbl_size s) as Hsl by (apply Z.mod_pos_bound; lia).
  assert (forall t', lo - 1 <= t' < t -> LOG_INDEX_MEM_TBL s1 (slot s t') = LOG_INDEX_MEM_TBL s (slot s t')) as Hkeep.
  { intros t' Ht'. unfold s1. rewrite get_set_table, decide_False; [done| |done]. apply slots_differ; lia. }
  replace (LOG_INDEX_MEM_TBL_PREV_ID s1 (slot s t)) with (slot s1 (t - 1)) by (rewrite <- E1, prev_id_mod by lia; done).
  destruct (IH s1 (t - 1)) as (s' & -> & Hw & Hm & Hk); [lia..| | |].
  { intros t' Ht'. rewrite E1, Hkeep by lia. apply Htab. lia. }
  { rewrite E1, Hkeep by lia. done. }
  exists s'. rewrite E1 in *. split; [done|]. split; [|split].
  - destruct Hw as (l & -> & Hl). exists l. split; [done|]. rewrite Hl. unfold s1, set_table. cbn. apply length_aset.
  - intros t' Ht'. destruct (decide (t' = t)) as [->|].
    + rewrite Hk; [unfold s1; by rewrite get_set_table, decide_True|done|]. intros t' Ht''. apply slots_differ; lia.
    + rewrite Hm by lia. by rewrite Hkeep by lia.
  - intros i Hi Hno. rewrite Hk by (try done; intros t' Ht'; apply Hno; lia). unfold s1. rewrite get_set_table, decide_False; [done| |done].
    intros Eq. by apply (Hno t); [lia|].
Qed.

(** Only inactive tables that were saved are marked, and nothing else
    changes in memory. *)
Definition only_saved_marked (s s' : log_index_snapshot_t) (m : Z) : Prop :=
  (exists l, s' = with_tables s l /\ length l = length (ls_mem_table s)) /\
  forall i, 0 <= i < mem_tbl_size s -> let t := LOG_INDEX_MEM_TBL s i in
    LOG_INDEX_MEM_TBL s' i = t \/
    (is_inactive t = true /\ LOG_INDEX_MEM_TBL_TID t <= m /\
     LOG_INDEX_MEM_TBL s' i = LOG_INDEX_MEM_TBL_SET_STATE t LOG_INDEX_MEM_TBL_STATE_FLUSHED).

Lemma with_own_tables s : s = with_tables s (ls_mem_table s).
Proof. by destruct s. Qed.

(** Wherever the loop starts it ends at the active table at the latest. *)
Lemma update_ro_safe fuel s m t :
  0 < mem_tbl_size s -> hi <= t -> t - hi < Z.of_nat fuel -> t - hi < mem_tbl_size s ->
  is_inactive (LOG_INDEX_MEM_TBL s (slot s hi)) = false ->
  exists s', update_ro_loop fuel s m (slot s t) = Done s' /\ only_saved_marked s s' m.
Proof.
  revert s t. induction fuel as [|n IH]; intros s t Hsz Ht Hf Hd Hact; [lia|]. cbn [update_ro_loop]. cbv zeta.
  destruct (is_inactive (LOG_INDEX_MEM_TBL s (slot s t))) eqn:Ei.
  2:{ exists s. split; [done|]. split; [exists (ls_mem_table s); split; [apply with_own_tables|done]|]. by left. }
  assert (t <> hi) as Hne by (intros ->; congruence).
  set (s1 := if _ <=? m then _ else s).
  assert (mem_tbl_size s1 = mem_tbl_size s) as E1 by (unfold s1; destruct (_ <=? m); [apply set_table_size|done]).
  assert (0 <= slot s t < mem_tbl_size s) as Hsl by (apply Z.mod_pos_bound; lia).
  assert (only_saved_marked s s1 m) as [Hw1 Hm1].
  { unfold s1. destruct (LOG_INDEX_MEM_TBL_TID _ <=? m) eqn:El; zbool.
    - split; [eexists; split; [reflexivity|apply length_aset]|]. intros i Hi. cbv zeta.
      rewrite get_set_table by done. destruct (decide _) as [<-|Hni]; [by right|by left].
    - split; [exists (ls_mem_table s); split; [apply with_own_tables|done]|]. by left. }
  replace (LOG_INDEX_MEM_TBL_PREV_ID s1 (slot s t)) with (slot s1 (t - 1)) by (rewrite <- E1, prev_id_mod by lia; done).
  assert (is_inactive (LOG_INDEX_MEM_TBL s1 (slot s1 hi)) = false) as Hact1.
  { rewrite E1. destruct (Hm1 (slot s hi)) as [->|(Hc & _)]; [apply Z.mod_pos_bound; lia|done|congruence]. }
  destruct (IH s1 (t - 1)) as (s' & -> & Hw & Hm); [lia..|done|]. exists s'. rewrite E1 in *. split; [done|]. split.
  - destruct Hw as (l & -> & Hl), Hw1 as (l1 & E & Hl1). exists l. rewrite E. split; [done|].
    rewrite Hl, E. exact Hl1.
  - intros i Hi. destruct (Hm i Hi) as [->|(Hc & Hle & ->)]; [by apply Hm1|].
    destruct (Hm1 i Hi) as [E|(Hc1 & Hle1 & E)]; rewrite E in *; [by right|done].
Qed.

(** The tables up to [m] when it is before the active one. *)
Lemma promote_marks s m :
  replica_tables s -> lo - 1 <= m < hi -> (m = 0 -> lo = 1) ->
  exists s', log_index_update_ro_table_state s m = Done s' /\ marked s s' m.
Proof.
  intros HR Hm H0. pose proof (rt_ids s HR) as Hids.
  unfold log_index_update_ro_table_state, LOG_INDEX_TABLE_INVALID_ID. destruct (m =? 0) eqn:E; zbool.
  - exists s. split; [done|]. split; [exists (ls_mem_table s); split; [apply with_own_tables|done]|]. split; [intros; lia|done].
  - apply (update_ro_spec _ s m m); [lia..| |apply HR].
    intros t Ht. destruct (rt_table s HR t ltac:(lia)) as (H1 & _ & _ & H4). cbv zeta in *.
    destruct (t =? hi) eqn:E'; zbool; [lia|]. done.
Qed.

(** Any [m], also one of a table the replica does not have yet. *)
Lemma promote_safe s m :
  replica_tables s -> exists s', log_index_update_ro_table_state s m = Done s' /\ only_saved_marked s s' m /\
    (m = hi -> s' = s).
Proof.
  intros HR. pose proof (rt_ids s HR) as Hids.
  assert (is_inactive (LOG_INDEX_MEM_TBL s (slot s hi)) = false) as Hact.
  { destruct (rt_table s HR hi ltac:(lia)) as (_ & _ & _ & H4). unfold is_inactive. rewrite H4, Z.eqb_refl. done. }
  unfold log_index_update_ro_table_state, LOG_INDEX_TABLE_INVALID_ID. destruct (m =? 0) eqn:E; zbool.
  { exists s. split; [done|]. split; [|done]. split; [exists (ls_mem_table s); split; [apply with_own_tables|done]|]. by left. }
  assert (slot s m = slot s (hi + (m - hi) mod mem_tbl_size s)) as ->.
  { replace (hi + (m - hi) mod mem_tbl_size s - 1) with (hi - 1 + (m - hi) mod mem_tbl_size s) by lia.
    rewrite Zplus_mod_idemp_r. f_equal. lia. }
  pose proof (Z.mod_pos_bound (m - hi) (mem_tbl_size s) ltac:(lia)) as Hmod.
  destruct (update_ro_safe (S (Z.to_nat (mem_tbl_size s))) s m (hi + (m - hi) mod mem_tbl_size s)) as (s' & E1 & H); [lia..|done|].
  exists s'. split; [done|]. split; [done|]. intros ->. rewrite Z.sub_diag, Z.mod_0_l, Z.add_0_r in E1 by lia.
  cbn [update_ro_loop] in E1. rewrite Hact in E1. congruence.
Qed.

(** C17: promotion hands the unsaved tables over.  When a replica with the
    tables [lo .. hi] in memory is promoted, the snapshot becomes writable
    and storage is not touched; of its tables only saved ones are marked as
    flushed, with their contents left, and the others stay as they are.
    When the old primary saved the tables up to an [m] before the active
    one, all tables up to [m] are marked, and those after [m] are ready for
    the background writer, which starts at table [m + 1].  When it saved
    the replica's active table as its last one, nothing is marked. *)
Theorem promote_hands_over s f me :
  replica_tables s -> log_index_get_meta meta_crc polar_is_standby f = (true, me) ->
  let m := me_max_idx_table_id me in
  exists s', polar_logindex_online_promote meta_crc polar_is_standby s f = Done s' /\
    polar_logindex_check_state s' POLAR_LOGINDEX_STATE_WRITABLE = true /\ ls_storage s' = ls_storage s /\
    (forall t, lo <= t <= hi -> let tb := LOG_INDEX_MEM_TBL s (slot s t) in
       LOG_INDEX_MEM_TBL s' (slot s t) = tb \/
       (t <= m /\ LOG_INDEX_MEM_TBL s' (slot s t) = LOG_INDEX_MEM_TBL_SET_STATE tb LOG_INDEX_MEM_TBL_STATE_FLUSHED)) /\
    (lo - 1 <= m < hi -> (m = 0 -> lo = 1) -> to_save hash logs hi m s' /\
       forall t, lo <= t <= m -> LOG_INDEX_MEM_TBL s' (slot s t) =
         LOG_INDEX_MEM_TBL_SET_STATE (LOG_INDEX_MEM_TBL s (slot s t)) LOG_INDEX_MEM_TBL_STATE_FLUSHED) /\
    (m = hi -> ls_mem_table s' = ls_mem_table s).
Proof.
  intros HR Hf m. unfold polar_logindex_online_promote. rewrite Hf. pose proof (rt_ids s HR) as Hids. fold m.
  set (s1 := or_state _ _). assert (mem_tbl_size s1 = mem_tbl_size s) as E1 by done.
  assert (replica_tables s1) as HR1 by (by destruct HR; split).
  destruct (promote_safe s1 m HR1) as (s' & E & [Hw Hsafe] & Heq). exists s'. split; [done|].
  split.
  { destruct Hw as (l & -> & _). unfold polar_logindex_check_state. cbn [ls_state with_tables s1 or_state].
    rewrite Z.land_lor_distr_l.
    change (Z.land POLAR_LOGINDEX_STATE_WRITABLE _) with 4. apply negb_true_iff, Z.eqb_neq. intros E'%Z.lor_eq_0_iff. lia. }
  split; [by destruct Hw as (l & -> & _)|]. split; [|split].
  - intros t Ht. cbv zeta. destruct (Hsafe (slot s t)) as [?|(_ & Hle & ?)]; [rewrite E1; apply Z.mod_pos_bound; lia|by left|right].
    split; [|done]. destruct (rt_table s HR t Ht) as (Htid & _). cbv zeta in Htid.
    change (LOG_INDEX_MEM_TBL s1 (slot s t)) with (LOG_INDEX_MEM_TBL s (slot s t)) in Hle. by rewrite Htid in Hle.
  - intros Hm H0. destruct (promote_marks s1 m HR1 Hm H0) as (s'' & E'' & _ & Hmk & Hk).
    assert (s'' = s') as -> by congruence. split; [|exact Hmk].
    destruct Hw as (l & -> & Hl). set (s2 := with_tables s1 l) in *.
    assert (mem_tbl_size s2 = mem_tbl_size s) as E2 by (unfold mem_tbl_size; cbn; rewrite Hl; done).
    split; rewrite ?E2; [lia|done|exact (rt_active s HR)|cbn; fold m; lia|].
    intros t Ht. cbv zeta. rewrite E1 in *. rewrite Hk; [apply (rt_table s HR); lia|apply Z.mod_pos_bound; lia|].
    intros t' Ht'. apply slots_differ; lia.
  - intros Hm. by rewrite (Heq Hm).
Qed.
End promote.

(** ** A meta file that is not accepted *)

Section rejected.
Context `{env : log_index_env} (meta_crc : Z -> Z -> log_index_meta_t -> Z) (polar_is_standby : bool).

(** What is written is accepted. *)
Lemma written_meta_read me : log_index_get_meta meta_crc polar_is_standby (written_meta meta_crc me) = (true, me).
Proof. unfold log_index_get_meta, written_meta. cbn [im_magic im_version im_crc im_meta]. by rewrite !Z.eqb_refl. Qed.

(** On a replica a meta file that is not accepted is used in part.
    Start-up resets the meta data, but loading the tables reads the file
    again and leaves its contents, which are not zeroed this time: no table
    is loaded, yet the start LSN of the rejected file is then taken for
    valid. *)
Theorem rejected_meta_kept dir fuel s f me table checkpoint_lsn in_recovery reached_consistency :
  log_index_get_meta meta_crc polar_is_standby f = (false, me) -> me_start_lsn me <> InvalidXLogRecPtr ->
  polar_logindex_check_state s POLAR_LOGINDEX_STATE_WRITABLE = false ->
  exists s', polar_logindex_snapshot_init meta_crc polar_is_standby dir fuel s f table checkpoint_lsn true = Done (s', f, table, checkpoint_lsn) /\
    ls_max_idx_table_id s' = LOG_INDEX_TABLE_INVALID_ID /\ ls_meta s' = me /\
    polar_logindex_check_valid_start_lsn meta_crc polar_is_standby in_recovery reached_consistency s' f = Done (s', me_start_lsn me).
Proof.
  intros Hf Hst Hw. unfold polar_logindex_snapshot_init, polar_logindex_snapshot_base_init, base_reset. cbn [negb]. rewrite Hf.
  unfold polar_logindex_snapshot_remove_data. change (polar_logindex_check_state (set_meta s me) _) with (polar_logindex_check_state s POLAR_LOGINDEX_STATE_WRITABLE).
  rewrite Hw. cbn [negb]. cbv zeta. unfold polar_load_logindex_snapshot_from_storage. rewrite Hf. cbn [Z.eqb LOG_INDEX_TABLE_INVALID_ID obind].
  eexists. split; [reflexivity|]. split; [done|]. split; [done|]. unfold polar_logindex_check_valid_start_lsn. cbn [ls_meta or_state set_meta].
  unfold XLogRecPtrIsInvalid. by rewrite (proj2 (Z.eqb_neq _ _) Hst).
Qed.
End rejected.

(** ** A replica reads what the primary saves *)

Section follow.
Context (hash : BufferTag -> Z) `{env : log_index_env} (meta_crc : Z -> Z -> log_index_meta_t -> Z) (polar_is_standby : bool).

(** The segments below [free] are in use. *)
Definition dense (d : log_idx_table_data_t) (free : Z) : Prop := forall id, 1 <= id < free -> seg_head_seg (seg_at d id) <> LOG_INDEX_TBL_INVALID_SEG.

Lemma free_head_spec fuel d free L st fh :
  represents hash d free L -> dense d free -> 1 <= fh <= free -> free - fh < Z.of_nat fuel ->
  free_head_loop fuel (mk_mem_table fh st d) = Done (mk_mem_table free st d).
Proof.
  intros (A & Q & HR) Hd. revert fh. induction fuel as [|n IH]; intros fh Hfh Hf; [lia|]. cbn [free_head_loop]. pose proof (tr_free _ _ _ _ _ _ HR) as Hfree.
  unfold LOG_INDEX_MEM_TBL_FULL. cbn [lt_free_head lt_data]. unfold LOG_INDEX_MEM_TBL_SEG_NUM in *.
  destruct (fh =? 4096) eqn:E; zbool; cbn [negb]; [by replace free with fh by lia|]. rewrite item_head_at by lia. cbn [obind].
  destruct (decide (fh = free)) as [->|Hne].
  - rewrite (tr_fresh _ _ _ _ _ _ HR free) by (unfold LOG_INDEX_MEM_TBL_SEG_NUM; lia). done.
  - rewrite (proj2 (Z.eqb_neq _ _) (Hd fh ltac:(lia))). cbn [LOG_INDEX_MEM_TBL_UPDATE_FREE_HEAD fst lt_free_head lt_state lt_data].
    unfold u16. rewrite wrap_small by lia. apply IH; lia.
Qed.
Lemma set_table_twice s m t t' mid tid lsn :
  set_table (set_active_table (set_table s m t) mid tid lsn) m t' = set_table (set_active_table s mid tid lsn) m t'.
Proof. unfold set_table, set_active_table. cbn. f_equal. unfold aset. case_decide; [by rewrite list_insert_insert_eq|done]. Qed.

Lemma load_active_spec s table d free L :
  let act := ls_active_table s in let t := LOG_INDEX_MEM_TBL s act in
  0 <= act < mem_tbl_size s -> log_index_read_table_data s (LOG_INDEX_MEM_TBL_TID t) = Some d -> td_idx_table_id d = LOG_INDEX_MEM_TBL_TID t ->
  td_max_lsn (lt_data t) < td_max_lsn d -> represents hash d free L -> dense d free -> 1 <= lt_free_head t <= free ->
  load_active s table = Done (set_table (set_active_table s act (td_idx_table_id d) (td_max_lsn d)) act (mk_mem_table free (lt_state t) d), d).
Proof.
  intros act t Hact Hd Hid Hlt HR Hdense Hfh. unfold load_active. fold act t. rewrite (read_into_read _ _ _ _ Hd), Hid, Z.eqb_refl. cbn [andb].
  rewrite (proj2 (Z.gtb_lt _ _)) by lia. cbv zeta.
  assert (free <= LOG_INDEX_MEM_TBL_SEG_NUM) as Hle by (destruct HR as (A & Q & HR'); apply (tr_free _ _ _ _ _ _ HR')).
  rewrite (free_head_spec _ d free L) by (try done; unfold LOG_INDEX_MEM_TBL_SEG_NUM in *; lia). cbn [obind]. rewrite set_table_twice.
  unfold LOG_INDEX_MEM_TBL_TID at 1. cbn [lt_data]. by rewrite Hid.
Qed.

(** Table [a] is active in a snapshot that was initialized. *)
Record following (s : log_index_snapshot_t) (a : Z) : Prop := {
  fo_init : polar_logindex_check_state s POLAR_LOGINDEX_STATE_INITIALIZED = true;
  fo_size : 0 < mem_tbl_size s < 2 ^ 31;
  fo_active : ls_active_table s = (a - 1) mod mem_tbl_size s;
  fo_tid : 1 <= a < 2 ^ 62 /\ LOG_INDEX_MEM_TBL_TID (LOG_INDEX_MEM_TBL s (ls_active_table s)) = a;
  fo_state : lt_state (LOG_INDEX_MEM_TBL s (ls_active_table s)) = LOG_INDEX_MEM_TBL_STATE_ACTIVE
}.

(** A replica follows the primary.  Table [a] is active, the primary
    saved the tables up to the one the meta file names and has written an
    unfinished table [next] after them.  Loading reads the tables from [a]
    on, as many as there is room for, marks them as flushed, and leaves
    table [next] active with the contents on storage and its free head at
    the first segment that is not in use; storage is not changed. *)
Theorem replica_follows_storage n s f me table a d free L :
  following s a -> log_index_get_meta meta_crc polar_is_standby f = (true, me) -> 1 <= me_max_idx_table_id me < 2 ^ 62 ->
  let new_max := Z.min (me_max_idx_table_id me) (a + mem_tbl_size s - 1) in let next := Z.max a (new_max + 1) in
  let t := LOG_INDEX_MEM_TBL s (ls_active_table s) in let sl := (next - 1) mod mem_tbl_size s in
  (forall i, a <= i <= new_max -> is_Some (log_index_read_table_data s i)) ->
  (a <= new_max -> LOG_INDEX_MEM_TBL s sl = zero_mem_table \/ lt_state (LOG_INDEX_MEM_TBL s sl) = LOG_INDEX_MEM_TBL_STATE_FLUSHED \/
     new_max - a + 1 = mem_tbl_size s) ->
  log_index_read_table_data s next = Some d -> td_idx_table_id d = next -> represents hash d free L -> dense d free -> 0 < td_max_lsn d ->
  (new_max < a -> td_max_lsn (lt_data t) < td_max_lsn d /\ 1 <= lt_free_head t <= free) ->
  exists s', polar_load_logindex_snapshot_from_storage meta_crc polar_is_standby (S n) s f table InvalidXLogRecPtr = Done (s', d) /\
    ls_storage s' = ls_storage s /\ ls_meta s' = me /\ ls_max_idx_table_id s' = next /\ ls_max_lsn s' = td_max_lsn d /\ ls_active_table s' = sl /\
    LOG_INDEX_MEM_TBL s' sl = mk_mem_table free LOG_INDEX_MEM_TBL_STATE_ACTIVE d /\
    forall i, a <= i <= new_max -> (i - 1) mod mem_tbl_size s <> sl -> exists di, log_index_read_table_data s i = Some di /\
      LOG_INDEX_MEM_TBL s' ((i - 1) mod mem_tbl_size s) = mk_mem_table LOG_INDEX_MEM_TBL_SEG_NUM LOG_INDEX_MEM_TBL_STATE_FLUSHED di.
Proof.
  intros HF Hf Hmax new_max next t sl Hrd Hsl Hd Hid HR Hdense Hpos Hcur. destruct HF as [F1 F2 F3 [F4 F5] F6].
  unfold polar_load_logindex_snapshot_from_storage. rewrite F1, Hf. cbn [negb]. unfold LOG_INDEX_TABLE_INVALID_ID.
  destruct (me_max_idx_table_id me =? 0) eqn:E0; zbool; [lia|]. set (s0 := set_meta s me). change (LOG_INDEX_MEM_TBL s0 ?m) with (LOG_INDEX_MEM_TBL s m).
  rewrite F5. destruct (a =? 0) eqn:Ea; zbool; [lia|]. cbn [obind]. change (LOG_INDEX_MEM_TBL s0 ?m) with (LOG_INDEX_MEM_TBL s m).
  change (mem_tbl_size s0) with (mem_tbl_size s). rewrite F5, (u64_small (a + _)) by (unfold is_u64; lia). rewrite u64_small by (unfold is_u64; lia). fold new_max.
  assert (0 <= sl < mem_tbl_size s) as Hslr by (apply Z.mod_pos_bound; lia).
  destruct (decide (a <= new_max)) as [Hle|Hgt].
  - assert (next = new_max + 1) as En by lia. assert (sl = new_max mod mem_tbl_size s) as Esl by (unfold sl; f_equal; lia).
    destruct (load_tables_spec n s0 table a new_max InvalidXLogRecPtr) as (s1 & table' & lo & dm & _ & Elo & HL & Hdm & ->);
      [lia|lia|change (mem_tbl_size s0) with (mem_tbl_size s); lia|change (mem_tbl_size s0) with (mem_tbl_size s); lia|exact Hrd| |].
    { change (mem_tbl_size s0) with (mem_tbl_size s). rewrite <- Esl. destruct (Hsl Hle) as [H|[H|H]]; [by left|by right; left|by right; right]. }
    cbn [obind]. change (mem_tbl_size s0) with (mem_tbl_size s). rewrite <- Esl, <- En. set (s2 := set_table _ sl _).
    pose proof (loaded_size _ _ _ _ HL) as E1. change (mem_tbl_size s0) with (mem_tbl_size s) in E1.
    assert (mem_tbl_size s2 = mem_tbl_size s) as E2 by (unfold s2; rewrite set_table_size; exact E1). pose proof HL as ((l & -> & _) & Hld & _).
    assert (LOG_INDEX_MEM_TBL s2 sl = fresh_active next 0) as Hslot
      by (unfold s2; rewrite get_set_table, decide_True by (try done; change (0 <= sl < mem_tbl_size (with_tables s0 l)); rewrite E1; done); done).
    rewrite (load_active_spec s2 table' d free L); change (ls_active_table s2) with sl; rewrite ?Hslot, ?E2; try done.
    2: { destruct HR as (A & Q & HR'). pose proof (tr_free _ _ _ _ _ _ HR'). cbn. lia. }
    eexists. split; [reflexivity|]. do 2 (split; [done|]). split; [exact Hid|]. do 2 (split; [done|]).
    assert (forall m, LOG_INDEX_MEM_TBL (set_table (set_active_table s2 sl (td_idx_table_id d) (td_max_lsn d)) sl (mk_mem_table free LOG_INDEX_MEM_TBL_STATE_ACTIVE d)) m =
      if decide (sl = m) then mk_mem_table free LOG_INDEX_MEM_TBL_STATE_ACTIVE d else LOG_INDEX_MEM_TBL s2 m) as Hget
      by (intros m; rewrite get_set_table; [done|change (0 <= sl < mem_tbl_size s2); rewrite E2; done]).
    cbn [fresh_active lt_state]. split; [rewrite Hget; by rewrite decide_True|].
    intros i Hi Hne. destruct (Hld i) as (di & Hdi & Hsi); [rewrite Elo by done; lia|]. exists di. split; [exact Hdi|].
    rewrite Hget, decide_False by done. unfold s2. rewrite get_set_table, decide_False; [exact Hsi|done|].
    change (0 <= sl < mem_tbl_size (with_tables s0 l)). rewrite E1. done.
  - assert (next = a) as En by lia. assert (sl = ls_active_table s) as Esl by (unfold sl; rewrite En; done). destruct (Hcur ltac:(lia)) as [Hlt Hfh].
    unfold load_tables. destruct (new_max >=? a) eqn:E; zbool; [lia|]. cbn [obind].
    rewrite (load_active_spec s0 table d free L); change (ls_active_table s0) with (ls_active_table s);
      change (LOG_INDEX_MEM_TBL s0 ?m) with (LOG_INDEX_MEM_TBL s m); rewrite ?F5; try done.
    2: { rewrite <- Esl. done. }
    2: { rewrite <- En, (read_data_storage s); done. }
    2: { by rewrite Hid. }
    eexists. split; [reflexivity|]. do 2 (split; [done|]). split; [exact Hid|]. split; [done|]. split; [done|]. split; [|intros; lia].
    rewrite F6, Esl, get_set_table, decide_True; [done|done|]. change (0 <= ls_active_table s < mem_tbl_size s). by rewrite <- Esl.
Qed.
End follow.

(** ** One saved table *)

#[local] Existing Instance demo_env.

Definition start_logs (t : Z) : list log_index_lsn_t := if t =? 1 then [demo_first] else [].
Definition start_meta : log_index_meta_t := mk_meta 1 (mk_file_segment 0 (7 * 2 ^ 32 + 100) 1 1) (7 * 2 ^ 32 + 100) (7 * 2 ^ 32 + 100).
Definition start_crc (magic version : Z) (me : log_index_meta_t) : Z := u32 (magic + version + me_max_lsn me).

(** Memory holds something else. *)
Definition start_snapshot : log_index_snapshot_t :=
  mk_snapshot 5 0 1 9 (mk_promoted 1 1 1 1) zero_meta (replicate 3 (mk_mem_table 2 LOG_INDEX_MEM_TBL_STATE_ACTIVE (one_entry_table 2 demo_second)))
    {[ 1 := log_index_save_table (one_entry_table 1 demo_first) demo_bloom ]} start_meta {[ 1 := demo_bloom ]}.

Lemma start_read s t d b :
  ls_storage s !! t = Some (log_index_save_table d b) -> log_index_read_table_data s t = Some (log_index_save_table d b).
Proof. intros Hs. unfold log_index_read_table_data. rewrite Hs. rewrite (proj2 (Z.eqb_eq _ _) (save_checksum d b)). done. Qed.

Lemma start_on_storage : on_storage buffer_tag_hash start_logs 1 1 start_snapshot start_meta.
Proof.
  destruct (one_entry_repr 1 demo_first) as [H1 H2]; [vm_compute; split; congruence|].
  split; [lia| | | |done..].
  - intros t Ht. assert (t = 1) as -> by lia. eexists _, 2. split; [apply start_read; reflexivity|]. split; [rewrite save_table_id; exact H2|].
    split; [destruct H1 as (A & Q & HR); exists A, Q; by apply save_table_repr|].
    split; [intros e ->%list_elem_of_singleton|intros t' e Ht' He; assert (t' = 1) as -> by lia; apply list_elem_of_singleton in He as ->];
      vm_compute; discriminate.
  - intros i d Hd. left. unfold start_snapshot in Hd. cbn [ls_storage] in Hd. apply lookup_singleton_Some in Hd as [<- <-]. rewrite save_table_id. exact H2.
  - intros t Ht. assert (t = 1) as -> by lia. exists demo_bloom. split; [reflexivity|]. split; [exact demo_bloom_ok|].
    intros t' e Ht' He. assert (t' = 1) as -> by lia. by apply (bo_max _ _ _ _ _ demo_bloom_ok).
Qed.

Lemma restart_keeps_history_witness :
  exists s' table', polar_logindex_snapshot_init start_crc false [112] 1 start_snapshot (written_meta start_crc start_meta) zero_data (8 * 2 ^ 32) false =
      Done (s', written_meta start_crc start_meta, table', 7 * 2 ^ 32 + 100) /\
    ls_storage s' = ls_storage start_snapshot /\ ls_bloom s' = ls_bloom start_snapshot /\ ls_meta s' = start_meta /\ ls_max_idx_table_id s' = 2 /\
    LOG_INDEX_MEM_TBL s' (ls_active_table s') = fresh_active 2 0 /\
    exists s'' c it, polar_logindex_create_page_iterator (fun _ _ => true) [112] buffer_tag_hash s' empty_cache (demo_tag 5) (7 * 2 ^ 32) (8 * 2 ^ 32) false =
        Done (s'', c, it) /\
      forall fuel, (1 <= fuel)%nat -> replay_page fuel it = [demo_first].
Proof.
  apply (restart_keeps_history buffer_tag_hash start_crc false (fun _ _ => true) [112] start_logs 1 1 0 start_snapshot (written_meta start_crc start_meta)
           start_meta zero_data (8 * 2 ^ 32) false true (demo_tag 5) (7 * 2 ^ 32) (8 * 2 ^ 32) empty_cache).
  - exact start_on_storage.
  - apply written_meta_read.
  - reflexivity.
  - reflexivity.
  - discriminate.
  - vm_compute. discriminate.
  - assert (page_log (demo_tag 5) (log_range start_logs 1 1) = [demo_first]) as -> by (vm_compute; reflexivity). split.
    + repeat constructor.
    + intros e ->%list_elem_of_singleton. vm_compute. split; reflexivity.
    + intros _ [|i] a b Ha Hb; discriminate.
  - discriminate.
Defined.


Definition promote_meta : log_index_meta_t := mk_meta 1 (mk_file_segment 0 (7 * 2 ^ 32 + 100) 1 1) (7 * 2 ^ 32 + 100) (7 * 2 ^ 32 + 100).

Lemma promote_replica : replica_tables demo_hash flush_logs 1 2 flush_snapshot.
Proof.
  split; [vm_compute; repeat split; congruence|reflexivity| |vm_compute; discriminate].
  intros t Ht. apply (ts_table _ _ _ _ _ flush_to_save). lia.
Qed.

Lemma promote_hands_over_witness :
  exists s', polar_logindex_online_promote start_crc false flush_snapshot (written_meta start_crc promote_meta) = Done s' /\
    polar_logindex_check_state s' POLAR_LOGINDEX_STATE_WRITABLE = true /\ ls_storage s' = ls_storage flush_snapshot /\
    to_save demo_hash flush_logs 2 1 s' /\
    forall t, 1 <= t <= 1 -> LOG_INDEX_MEM_TBL s' ((t - 1) mod 3) =
      LOG_INDEX_MEM_TBL_SET_STATE (LOG_INDEX_MEM_TBL flush_snapshot ((t - 1) mod 3)) LOG_INDEX_MEM_TBL_STATE_FLUSHED.
Proof.
  destruct (promote_hands_over demo_hash start_crc false flush_logs 1 2 flush_snapshot (written_meta start_crc promote_meta) promote_meta
    promote_replica (written_meta_read start_crc false promote_meta)) as (s' & H1 & H2 & H3 & _ & H4 & _).
  exists s'. split; [exact H1|]. split; [exact H2|]. split; [exact H3|].
  apply H4; [vm_compute; split; congruence|reflexivity].
Defined.

(** A version this code does not know. *)
Definition newer_file : meta_file := MetaFile (mk_image LOG_INDEX_MAGIC 3 (start_crc LOG_INDEX_MAGIC 3 start_meta) start_meta).

Lemma rejected_meta_kept_witness :
  exists s', polar_logindex_snapshot_init start_crc false [112] 1 start_snapshot newer_file zero_data (8 * 2 ^ 32) true =
      Done (s', newer_file, zero_data, 8 * 2 ^ 32) /\
    ls_max_idx_table_id s' = LOG_INDEX_TABLE_INVALID_ID /\ ls_meta s' = start_meta /\
    polar_logindex_check_valid_start_lsn start_crc false true true s' newer_file = Done (s', 7 * 2 ^ 32 + 100).
Proof.
  apply (rejected_meta_kept start_crc false [112] 1 start_snapshot newer_file start_meta zero_data (8 * 2 ^ 32) true true);
    [reflexivity|vm_compute; discriminate|reflexivity].
Defined.

(** Table 1 is active and empty; the primary saved it and wrote table 2. *)
Definition follow_table (t : Z) (e : log_index_lsn_t) : log_idx_table_data_t :=
  log_index_save_table (one_entry_table t e)
    (mk_tbl_bloom t (bt_min_lsn demo_bloom) (li_lsn e) 0 []).
Definition follow_snapshot : log_index_snapshot_t :=
  mk_snapshot 0 POLAR_LOGINDEX_STATE_INITIALIZED 0 1 (mk_promoted 0 0 0 0) zero_meta [fresh_active 1 0; zero_mem_table; zero_mem_table]
    {[ 1 := follow_table 1 demo_first; 2 := follow_table 2 demo_second ]} start_meta ∅.

Lemma follow_dense : dense (follow_table 2 demo_second) 2.
Proof. intros id Hid. assert (id = 1) as -> by lia. vm_compute. discriminate. Qed.

Lemma follow_table_id t e : is_u64 (li_lsn e) -> td_idx_table_id (follow_table t e) = t.
Proof. intros He. unfold follow_table. rewrite save_table_id. by apply one_entry_repr. Qed.

Lemma follow_table_max t e : td_max_lsn (follow_table t e) = li_lsn e.
Proof. done. Qed.

Lemma replica_follows_storage_witness :
  exists s', polar_load_logindex_snapshot_from_storage start_crc false 1 follow_snapshot (written_meta start_crc start_meta) zero_data InvalidXLogRecPtr =
      Done (s', follow_table 2 demo_second) /\
    ls_storage s' = ls_storage follow_snapshot /\ ls_meta s' = start_meta /\ ls_max_idx_table_id s' = 2 /\ ls_max_lsn s' = td_max_lsn (follow_table 2 demo_second) /\
    ls_active_table s' = 1 /\ LOG_INDEX_MEM_TBL s' 1 = mk_mem_table 2 LOG_INDEX_MEM_TBL_STATE_ACTIVE (follow_table 2 demo_second) /\
    forall i, 1 <= i <= 1 -> (i - 1) mod 3 <> 1 -> exists di, log_index_read_table_data follow_snapshot i = Some di /\
      LOG_INDEX_MEM_TBL s' ((i - 1) mod 3) = mk_mem_table LOG_INDEX_MEM_TBL_SEG_NUM LOG_INDEX_MEM_TBL_STATE_FLUSHED di.
Proof.
  destruct (one_entry_repr 2 demo_second) as [(A & Q & HR) _]; [vm_compute; split; congruence|].
  apply (replica_follows_storage demo_hash start_crc false 0 follow_snapshot (written_meta start_crc start_meta) start_meta zero_data 1
           (follow_table 2 demo_second) 2 [demo_second]).
  - split; [reflexivity|vm_compute; split; congruence|reflexivity|vm_compute; repeat split; congruence|reflexivity].
  - apply written_meta_read.
  - vm_compute. split; congruence.
  - intros i Hi. change (1 <= i <= 1) in Hi. assert (i = 1) as -> by lia. eexists. apply start_read. reflexivity.
  - intros _. left. reflexivity.
  - apply start_read. reflexivity.
  - apply follow_table_id. vm_compute. split; congruence.
  - exists A, Q. by apply save_table_repr.
  - exact follow_dense.
  - rewrite follow_table_max. vm_compute. reflexivity.
  - intros Hlt. change (1 < 1) in Hlt. lia.
Defined.
