(* ===== verification/RedoPage.v ===== *)
(** * Replaying a page on demand

    polar_logindex_redo.c: on a replica the startup process does not change
    pages; it only adds the LSN of a record to the log index of each page
    and marks the page in the buffer pool as outdated.  A backend that reads the page from
    storage, or finds it outdated, applies the missing records, and a
    background process applies records to the pages that are in the pool.
    The redo state of a buffer and the page lock of the mini transaction
    are what they synchronise with.

    The file has the functions on one page and the steps of the processes
    ([rstep]); a step is what one process does under one lock. *)

From S2P Require Import Prelude.

(** ** The redo state of a buffer (polar_logindex_redo.h) *)

Definition POLAR_REDO_LOCKED : Z := Z.shiftl 1 1.
Definition POLAR_REDO_READ_IO_END : Z := Z.shiftl 1 2.
Definition POLAR_REDO_REPLAYING : Z := Z.shiftl 1 3.
Definition POLAR_REDO_OUTDATE : Z := Z.shiftl 1 4.
Definition POLAR_REDO_INVALIDATE : Z := Z.shiftl 1 5.

Definition redo_set (f m : Z) : Z := Z.lor f m.
Definition redo_clear (f m : Z) : Z := Z.land f (Z.lnot m).

Definition polar_redo_check_state (f m : Z) : bool := negb (Z.land f m =? 0).

(** ** Records and pages *)

(** A WAL record: [ReadRecPtr] and [EndRecPtr]. *)
Record wrec := mk_wrec { w_start : Z; w_end : Z }.

(** A page: its LSN, [PageIsNew], [PageIsEmpty], and what it holds. *)
Record page (C : Type) := mk_page { pg_lsn : Z; pg_new : bool; pg_empty : bool; pg_data : C }.
Arguments mk_page {C} _ _ _ _.
Arguments pg_lsn {C} _.
Arguments pg_new {C} _.
Arguments pg_empty {C} _.
Arguments pg_data {C} _.

(** What replay relies on of the redo functions of the resource managers:
    a record at or before the LSN of the page is not applied
    again, and one that is applied sets the LSN to its end. *)
Class IdxRedo (C : Type) := {
  rm_polar_idx_redo : wrec -> page C -> page C;
  idx_redo_done r pg : w_end r <= pg_lsn pg -> rm_polar_idx_redo r pg = pg;
  idx_redo_lsn r pg : pg_lsn pg < w_end r -> pg_lsn (rm_polar_idx_redo r pg) = w_end r }.

(** ** Positions *)

Definition polar_max_xlog_rec_ptr (a b : Z) : Z :=
  if XLogRecPtrIsInvalid a then b else if XLogRecPtrIsInvalid b then a else Z.max a b.

Definition polar_min_xlog_rec_ptr (a b : Z) : Z :=
  if XLogRecPtrIsInvalid a then b else if XLogRecPtrIsInvalid b then a else Z.min a b.

(** [polar_logindex_redo_get_min_replay_from_lsn] with both snapshots or
    without that of the full pages. *)
Definition polar_logindex_redo_get_min_replay_from_lsn (has_instance has_fullpage : bool)
    (redo_rec_ptr bg_replayed_lsn consist_lsn : Z) : Z :=
  if negb has_instance then consist_lsn
  else
    let result :=
      if has_fullpage && negb (XLogRecPtrIsInvalid consist_lsn)
         && negb (XLogRecPtrIsInvalid redo_rec_ptr) && (redo_rec_ptr <? consist_lsn)
      then redo_rec_ptr else consist_lsn in
    if negb (XLogRecPtrIsInvalid bg_replayed_lsn) && (bg_replayed_lsn <? result) then bg_replayed_lsn
    else result.

(** The states of the background process. *)
Definition POLAR_BG_REDO_NOT_START : Z := 0.
Definition POLAR_BG_RO_BUF_REPLAYING : Z := 1.
Definition POLAR_BG_PARALLEL_REPLAYING : Z := 2.
Definition POLAR_BG_WAITING_RESET : Z := 3.
Definition POLAR_BG_ONLINE_PROMOTE : Z := 4.

(** What [polar_logindex_require_backend_redo] asks the server. *)
Record redo_env := mk_redo_env {
  re_replica : bool;             (* polar_in_replica_mode *)
  re_standby_parallel : bool;    (* POLAR_IN_PARALLEL_REPLAY_STANDBY_MODE *)
  re_streaming : bool;           (* WalRcvStreaming *)
  re_bg_redo_state : Z;
  re_bg_replayed_lsn : Z;
  re_last_replayed_read_ptr : Z;
  re_consist_lsn : Z;            (* polar_get_primary_consist_ptr *)
  re_redo_lsn : Z }.             (* GetRedoRecPtr *)

(** Whether a page read from storage has to be replayed, from where, and the
    minimal LSN that is announced for this backend. *)
Definition polar_logindex_require_backend_redo (e : redo_env) : bool * Z * option Z :=
  if negb (re_replica e || (re_bg_redo_state e =? POLAR_BG_PARALLEL_REPLAYING)) then
    if (re_bg_redo_state e =? POLAR_BG_ONLINE_PROMOTE)
       && (re_bg_replayed_lsn e <=? re_last_replayed_read_ptr e) then
      (true,
       if negb (XLogRecPtrIsInvalid (re_consist_lsn e)) then Z.max (re_consist_lsn e) (re_bg_replayed_lsn e)
       else re_bg_replayed_lsn e,
       Some (re_bg_replayed_lsn e))
    else (false, InvalidXLogRecPtr, None)
  else if re_standby_parallel e then
    let from := if negb (XLogRecPtrIsInvalid (re_bg_replayed_lsn e)) then re_bg_replayed_lsn e
                else re_redo_lsn e in
    (true, from, Some from)
  else
    (true,
     if negb (XLogRecPtrIsInvalid (re_consist_lsn e)) && re_streaming e then re_consist_lsn e
     else re_redo_lsn e,
     Some (re_redo_lsn e)).

(** ** Applying records to a page *)

Section replay.
Context {C : Type} `{!IdxRedo C}.

(** What a page iterator returns for a page with the records [L]: those
    that start in the range, oldest first. *)
Definition page_records (L : list wrec) (min_lsn max_lsn : Z) : list wrec :=
  filter (fun r => min_lsn <= w_start r <= max_lsn) L.

(** [polar_logindex_apply_one_page]: read each record and apply it. *)
Definition polar_logindex_apply_one_page (rs : list wrec) (pg : page C) : page C :=
  foldl (fun pg r => rm_polar_idx_redo r pg) pg rs.

(** The LSN up to which the page is replayed now, and the page. *)
Definition polar_logindex_apply_page (L : list wrec) (start_lsn end_lsn : Z) (pg : page C) : Z * page C :=
  let start_lsn := if negb (pg_new pg) then Z.max start_lsn (pg_lsn pg) else start_lsn in
  if end_lsn <=? start_lsn then (start_lsn, pg)
  else (end_lsn, polar_logindex_apply_one_page (page_records L start_lsn (end_lsn - 1)) pg).

(** The start and the end that [polar_logindex_apply_page_from] passes on.
    [truncated] is the LSN of a truncation that the relation size
    cache knows for the block, [added] the answer of
    [polar_logindex_mini_trans_get_page_added] with the page lock, [None] without it. *)
Definition apply_page_from_start (truncated : option Z) (start_lsn : Z) : Z :=
  match truncated with Some lsn_changed => lsn_changed | None => start_lsn end.

Definition apply_page_from_end (added : option bool) (replay_end replayed : Z) : Z :=
  match added with Some true => replay_end | _ => replayed end.

Definition polar_logindex_apply_page_from (L : list wrec) (truncated : option Z) (start_lsn : Z)
    (added : option bool) (replay_end replayed : Z) (pg : page C) : Z * page C :=
  polar_logindex_apply_page L (apply_page_from_start truncated start_lsn)
    (apply_page_from_end added replay_end replayed) pg.

(** What [polar_logindex_lock_apply_page_from] does to the redo state before
    the loop and at the end of a round. *)
Definition lock_apply_begin (f : Z) : Z :=
  redo_clear (redo_set f (Z.lor POLAR_REDO_READ_IO_END POLAR_REDO_REPLAYING)) POLAR_REDO_OUTDATE.

Definition lock_apply_round (f : Z) : Z :=
  if polar_redo_check_state f POLAR_REDO_OUTDATE then redo_clear f POLAR_REDO_OUTDATE
  else redo_clear f POLAR_REDO_REPLAYING.

Definition polar_logindex_abort_replaying_buffer (f : Z) : Z := redo_clear f POLAR_REDO_REPLAYING.

(** [polar_promote_mark_buf_dirty]: whether the buffer is marked dirty. *)
Definition polar_promote_mark_buf_dirty (bg_redo_state replayed : Z) (pg : page C) (start_lsn : Z) : bool :=
  if negb ((bg_redo_state =? POLAR_BG_ONLINE_PROMOTE) || (bg_redo_state =? POLAR_BG_PARALLEL_REPLAYING)) then false
  else if negb (bg_redo_state =? POLAR_BG_PARALLEL_REPLAYING) && (pg_lsn pg >? replayed) then false
  else if pg_lsn pg <=? start_lsn then false
  else true.

(** The test of [polar_logindex_outdate_parse] on the redo state: the record
    can be added at once, because the process that replays the buffer will see it. *)
Definition outdate_parse_busy (f : Z) (get_cleanup_lock : bool) : bool :=
  negb (polar_redo_check_state f POLAR_REDO_READ_IO_END)
  || (polar_redo_check_state f POLAR_REDO_REPLAYING && negb get_cleanup_lock).

Inductive buf_replay_stat_t : Set :=
  BUF_NEED_REPLAY | BUF_IS_REPLAYING | BUF_IS_REPLAYED | BUF_IS_FLUSHED | BUF_IS_TRUNCATED.

(** [in_range]: the relation size cache has the block at this LSN. *)
Definition polar_buffer_need_replay (f : Z) (in_range : bool) (pg : page C) (lsn : Z) : buf_replay_stat_t :=
  if polar_redo_check_state f POLAR_REDO_INVALIDATE then BUF_IS_TRUNCATED
  else if polar_redo_check_state f POLAR_REDO_REPLAYING then BUF_IS_REPLAYING
  else if pg_new pg || pg_empty pg then (if negb in_range then BUF_IS_TRUNCATED else BUF_NEED_REPLAY)
  else if negb (XLogRecPtrIsInvalid (pg_lsn pg)) && (pg_lsn pg >? lsn) then BUF_IS_REPLAYED
  else BUF_NEED_REPLAY.

(** [polar_pin_buffer_for_replay] on a buffer that is in the pool: whether
    it is returned. *)
Definition polar_pin_buffer_for_replay (valid : bool) (f : Z) : bool :=
  valid || (polar_redo_check_state f POLAR_REDO_READ_IO_END && polar_redo_check_state f POLAR_REDO_OUTDATE
            && negb (polar_redo_check_state f POLAR_REDO_REPLAYING)).

(** [polar_bg_redo_apply_read_record] on a buffer, with its content lock. *)
Definition polar_bg_redo_apply_read_record (r : wrec) (pg : page C) : page C :=
  if pg_lsn pg <=? w_start r then rm_polar_idx_redo r pg else pg.
End replay.

(** ** The processes *)

(** [XLogCtl->lastReplayedEndRecPtr], [XLogCtl->replayEndRecPtr] and
    [last_replayed_read_ptr]. *)
Record wal_pos := mk_wal_pos { wp_replayed : Z; wp_replay_end : Z; wp_read_ptr : Z }.

(** The mini transaction as far as the page is concerned: [started], the slot
    of the page with its [added], and who has the page lock. *)
Inductive lock_holder : Set := by_startup | by_backend.
Record page_slot := mk_page_slot { sl_started : bool; sl_added : option bool; sl_holder : option lock_holder }.

(** Where the startup process is with the record. *)
Inductive startup_pc : Set :=
| S_idle
| S_parse (r : wrec)            (* rm_polar_idx_parse, in the mini transaction *)
| S_locked (r : wrec)           (* has the page lock *)
| S_add (r : wrec)              (* will add without the buffer *)
| S_wait (r : wrec)             (* released the page lock, waits for the content lock *)
| S_content (r : wrec)
| S_content_locked (r : wrec)   (* has content lock and page lock *)
| S_content_added (r : wrec)
| S_added (r : wrec)
| S_parsed (r : wrec)
| S_read (r : wrec)             (* set last_replayed_read_ptr *)
| S_replayed (r : wrec)         (* set lastReplayedEndRecPtr *)
| S_ending.                     (* in polar_logindex_mini_trans_end *)

(** The process that has the I/O lock or, exclusively, the content lock of the
    buffer; [locked] is whether it got a page lock. *)
Inductive owner : Set :=
| O_none
| O_io (start : Z)                         (* reads the page from storage *)
| O_check                                  (* polar_logindex_lock_apply_buffer *)
| O_begin (start : Z)                      (* polar_logindex_lock_apply_page_from *)
| O_replay (start : Z)
| O_wait (start : Z)                       (* waits for the page lock *)
| O_locked (start : Z) (locked : bool)
| O_apply (start end_ : Z) (locked : bool)
| O_applied (start : Z) (locked : bool)
| O_unlock (start : Z) (locked again : bool)
| O_hold                                   (* uses the page *)
| O_startup
| O_bg.

#[export] Instance owner_eq_dec : EqDecision owner.
Proof. solve_decision. Defined.

(** The buffer: redo state, [BM_VALID], page, owner, and how many readers
    have the content lock shared and still check or already use the page. *)
Record redo_buf (C : Type) := mk_redo_buf {
  rb_flags : Z; rb_valid : bool; rb_page : page C; rb_owner : owner; rb_checking : nat; rb_readers : nat }.
Arguments mk_redo_buf {C} _ _ _ _ _ _.
Arguments rb_flags {C} _.
Arguments rb_valid {C} _.
Arguments rb_page {C} _.
Arguments rb_owner {C} _.
Arguments rb_checking {C} _.
Arguments rb_readers {C} _.

(** The background process: whether it has pinned the buffer, the number of
    the page's records it is done with, and [bg_replayed_lsn]. *)
Record bg_state := mk_bg_state { bg_pinned : bool; bg_next : nat; bg_lsn : Z }.

(** Storage: how many records of the page it has, the consistent LSN
    of the primary and the redo LSN. *)
Record storage := mk_storage { sto_count : nat; sto_consist : Z; sto_redo : Z }.

Record rstate (C : Type) := mk_rstate {
  rs_log : list wrec;       (* the page's records in the log index *)
  rs_pos : wal_pos;
  rs_startup : startup_pc;
  rs_slot : page_slot;
  rs_buf : option (redo_buf C);
  rs_bg : bg_state;
  rs_storage : storage }.
Arguments mk_rstate {C} _ _ _ _ _ _ _.
Arguments rs_log {C} _.
Arguments rs_pos {C} _.
Arguments rs_startup {C} _.
Arguments rs_slot {C} _.
Arguments rs_buf {C} _.
Arguments rs_bg {C} _.
Arguments rs_storage {C} _.

Section steps.
Context {C : Type} `{!IdxRedo C} (pg0 : page C).

(** The page with all of some records applied. *)
Definition replayed_page (L : list wrec) : page C := polar_logindex_apply_one_page L pg0.

(** The startup process: the main loop of redo with
    [polar_logindex_parse_xlog], [polar_logindex_parse_tag] and
    [polar_logindex_outdate_parse]. *)
Inductive startup_step : rstate C -> rstate C -> Prop :=
| su_start L W sl B G D r :
    wp_replayed W <= w_start r -> w_start r < w_end r ->
    startup_step (mk_rstate L W S_idle sl B G D)
      (mk_rstate L (mk_wal_pos (wp_replayed W) (w_end r) (wp_read_ptr W)) (S_parse r)
         (mk_page_slot true (sl_added sl) (sl_holder sl)) B G D)
| su_start_plain L W sl B G D r :   (* no rm_polar_idx_parse *)
    wp_replayed W <= w_start r -> w_start r < w_end r ->
    startup_step (mk_rstate L W S_idle sl B G D)
      (mk_rstate L (mk_wal_pos (wp_replayed W) (w_end r) (wp_read_ptr W)) (S_parsed r) sl B G D)
| su_other L W sl B G D r :         (* the record is not about this page *)
    startup_step (mk_rstate L W (S_parse r) sl B G D) (mk_rstate L W (S_parsed r) sl B G D)
| su_lock L W sl B G D r :
    sl_holder sl = None ->
    startup_step (mk_rstate L W (S_parse r) sl B G D)
      (mk_rstate L W (S_locked r)
         (mk_page_slot (sl_started sl) (Some (default false (sl_added sl))) (Some by_startup)) B G D)
| su_no_buffer L W sl G D r :
    startup_step (mk_rstate L W (S_locked r) sl None G D) (mk_rstate L W (S_add r) sl None G D)
| su_outdate L W sl f v pg o c n G D r get_cleanup_lock :
    outdate_parse_busy f get_cleanup_lock = true ->
    startup_step (mk_rstate L W (S_locked r) sl (Some (mk_redo_buf f v pg o c n)) G D)
      (mk_rstate L W (S_add r) sl (Some (mk_redo_buf (redo_set f POLAR_REDO_OUTDATE) v pg o c n)) G D)
| su_unlock_first L W sl b G D r get_cleanup_lock :
    outdate_parse_busy (rb_flags b) get_cleanup_lock = false ->
    startup_step (mk_rstate L W (S_locked r) sl (Some b) G D)
      (mk_rstate L W (S_wait r) (mk_page_slot (sl_started sl) (sl_added sl) None) (Some b) G D)
| su_add L W sl B G D r :           (* POLAR_LOGINDEX_MINI_TRANS_ADD_LSN *)
    startup_step (mk_rstate L W (S_add r) sl B G D)
      (mk_rstate (L ++ [r]) W (S_added r) (mk_page_slot (sl_started sl) (Some true) (sl_holder sl)) B G D)
| su_content_lock L W sl f pg G D r :
    startup_step (mk_rstate L W (S_wait r) sl (Some (mk_redo_buf f true pg O_none 0 0)) G D)
      (mk_rstate L W (S_content r) sl (Some (mk_redo_buf f true pg O_startup 0 0)) G D)
| su_relock L W sl B G D r :
    sl_holder sl = None ->
    startup_step (mk_rstate L W (S_content r) sl B G D)
      (mk_rstate L W (S_content_locked r)
         (mk_page_slot (sl_started sl) (Some (default false (sl_added sl))) (Some by_startup)) B G D)
| su_content_add L W sl B G D r :
    startup_step (mk_rstate L W (S_content_locked r) sl B G D)
      (mk_rstate (L ++ [r]) W (S_content_added r)
         (mk_page_slot (sl_started sl) (Some true) (sl_holder sl)) B G D)
| su_content_outdate L W sl f v pg c n G D r :  (* set the flag and UnlockReleaseBuffer *)
    startup_step (mk_rstate L W (S_content_added r) sl (Some (mk_redo_buf f v pg O_startup c n)) G D)
      (mk_rstate L W (S_added r) sl
         (Some (mk_redo_buf (redo_set f POLAR_REDO_OUTDATE) v pg O_none c n)) G D)
| su_unlock L W sl B G D r :
    startup_step (mk_rstate L W (S_added r) sl B G D)
      (mk_rstate L W (S_parsed r) (mk_page_slot (sl_started sl) (sl_added sl) None) B G D)
| su_read_ptr L W sl B G D r :      (* polar_set_last_replayed_read_ptr *)
    startup_step (mk_rstate L W (S_parsed r) sl B G D)
      (mk_rstate L (mk_wal_pos (wp_replayed W) (wp_replay_end W) (w_start r)) (S_read r) sl B G D)
| su_replayed L W sl B G D r :
    startup_step (mk_rstate L W (S_read r) sl B G D)
      (mk_rstate L (mk_wal_pos (w_end r) (wp_replay_end W) (wp_read_ptr W)) (S_replayed r) sl B G D)
| su_end_plain L W sl B G D r :
    sl_started sl = false ->
    startup_step (mk_rstate L W (S_replayed r) sl B G D) (mk_rstate L W S_idle sl B G D)
| su_end L W sl B G D r :           (* polar_logindex_mini_trans_end *)
    sl_started sl = true ->
    startup_step (mk_rstate L W (S_replayed r) sl B G D)
      (mk_rstate L W S_ending (mk_page_slot false (sl_added sl) (sl_holder sl)) B G D)
| su_ended L W sl B G D :           (* once the reference count of the slot is zero *)
    sl_holder sl = None -> (forall b s, B = Some b -> rb_owner b <> O_wait s) ->
    startup_step (mk_rstate L W S_ending sl B G D)
      (mk_rstate L W S_idle (mk_page_slot (sl_started sl) None None) B G D).

(** A backend that reads the page from storage: [ReadBuffer_common] with
    [polar_logindex_io_lock_apply]. *)
Inductive io_step : rstate C -> rstate C -> Prop :=
| io_start L W s sl G D e start min_lsn pg :
    re_replica e = true -> re_standby_parallel e = false ->
    re_consist_lsn e = sto_consist D -> re_redo_lsn e = sto_redo D ->
    polar_logindex_require_backend_redo e = (true, start, min_lsn) ->
    io_step (mk_rstate L W s sl None G D)
      (mk_rstate L W s sl (Some (mk_redo_buf 0 false pg (O_io start) 0 0)) G D)
| io_read L W s sl f pg start c n G D :
    io_step (mk_rstate L W s sl (Some (mk_redo_buf f false pg (O_io start) c n)) G D)
      (mk_rstate L W s sl
         (Some (mk_redo_buf f false (replayed_page (take (sto_count D) L)) (O_begin start) c n)) G D)
| io_done L W s sl f pg c n G D :   (* TerminateBufferIO *)
    io_step (mk_rstate L W s sl (Some (mk_redo_buf f false pg O_hold c n)) G D)
      (mk_rstate L W s sl (Some (mk_redo_buf f true pg O_none c n)) G D).

(** [polar_logindex_lock_apply_page_from], by the owner of the buffer; the
    block is not truncated. *)
Inductive replay_step : rstate C -> rstate C -> Prop :=
| rp_begin L W s sl f v pg start c n G D :
    replay_step (mk_rstate L W s sl (Some (mk_redo_buf f v pg (O_begin start) c n)) G D)
      (mk_rstate L W s sl (Some (mk_redo_buf (lock_apply_begin f) v pg (O_replay start) c n)) G D)
| rp_no_slot L W s sl f v pg start c n G D : (* polar_logindex_mini_trans_cond_lock *)
    sl_started sl = false \/ sl_added sl = None ->
    replay_step (mk_rstate L W s sl (Some (mk_redo_buf f v pg (O_replay start) c n)) G D)
      (mk_rstate L W s sl (Some (mk_redo_buf f v pg (O_locked start false) c n)) G D)
| rp_slot L W s sl f v pg start c n G D a :
    sl_started sl = true -> sl_added sl = Some a ->
    replay_step (mk_rstate L W s sl (Some (mk_redo_buf f v pg (O_replay start) c n)) G D)
      (mk_rstate L W s sl (Some (mk_redo_buf f v pg (O_wait start) c n)) G D)
| rp_locked L W s sl f v pg start c n G D :
    sl_holder sl = None ->
    replay_step (mk_rstate L W s sl (Some (mk_redo_buf f v pg (O_wait start) c n)) G D)
      (mk_rstate L W s (mk_page_slot (sl_started sl) (sl_added sl) (Some by_backend))
         (Some (mk_redo_buf f v pg (O_locked start true) c n)) G D)
| rp_end_lsn L W s sl f v pg start (locked : bool) c n G D :
    replay_step (mk_rstate L W s sl (Some (mk_redo_buf f v pg (O_locked start locked) c n)) G D)
      (mk_rstate L W s sl
         (Some (mk_redo_buf f v pg
           (O_apply (apply_page_from_start None start)
              (apply_page_from_end (if locked then sl_added sl else None) (wp_replay_end W) (wp_replayed W))
              locked) c n)) G D)
| rp_apply L W s sl f v pg start end_ locked c n G D :
    replay_step (mk_rstate L W s sl (Some (mk_redo_buf f v pg (O_apply start end_ locked) c n)) G D)
      (mk_rstate L W s sl
         (Some (mk_redo_buf f v (polar_logindex_apply_page L start end_ pg).2
           (O_applied (polar_logindex_apply_page L start end_ pg).1 locked) c n)) G D)
| rp_round L W s sl f v pg start locked c n G D :
    replay_step (mk_rstate L W s sl (Some (mk_redo_buf f v pg (O_applied start locked) c n)) G D)
      (mk_rstate L W s sl
         (Some (mk_redo_buf (lock_apply_round f) v pg
           (O_unlock start locked (polar_redo_check_state (lock_apply_round f) POLAR_REDO_REPLAYING)) c n)) G D)
| rp_unlock L W s sl f v pg start (locked again : bool) c n G D :
    replay_step (mk_rstate L W s sl (Some (mk_redo_buf f v pg (O_unlock start locked again) c n)) G D)
      (mk_rstate L W s
         (if locked then mk_page_slot (sl_started sl) (sl_added sl) None else sl)
         (Some (mk_redo_buf f v pg (if again then O_replay start else O_hold) c n)) G D).

(** Backends that lock a buffer: [polar_lock_buffer_ext] with a check for
    freshness, and eviction. *)
Inductive lock_step : rstate C -> rstate C -> Prop :=
| lk_exclusive L W s sl f pg G D :
    lock_step (mk_rstate L W s sl (Some (mk_redo_buf f true pg O_none 0 0)) G D)
      (mk_rstate L W s sl (Some (mk_redo_buf f true pg O_check 0 0)) G D)
| lk_fresh L W s sl f v pg c n G D :
    polar_redo_check_state f POLAR_REDO_OUTDATE = false ->
    lock_step (mk_rstate L W s sl (Some (mk_redo_buf f v pg O_check c n)) G D)
      (mk_rstate L W s sl (Some (mk_redo_buf f v pg O_hold c n)) G D)
| lk_outdated L W s sl f v pg c n G D :  (* polar_logindex_lock_apply_buffer *)
    polar_redo_check_state f POLAR_REDO_OUTDATE = true ->
    lock_step (mk_rstate L W s sl (Some (mk_redo_buf f v pg O_check c n)) G D)
      (mk_rstate L W s sl (Some (mk_redo_buf f v pg (O_begin (bg_lsn G)) c n)) G D)
| lk_release L W s sl f pg c n G D :
    lock_step (mk_rstate L W s sl (Some (mk_redo_buf f true pg O_hold c n)) G D)
      (mk_rstate L W s sl (Some (mk_redo_buf f true pg O_none c n)) G D)
| lk_share L W s sl f pg c n G D :
    lock_step (mk_rstate L W s sl (Some (mk_redo_buf f true pg O_none c n)) G D)
      (mk_rstate L W s sl (Some (mk_redo_buf f true pg O_none (S c) n)) G D)
| lk_share_fresh L W s sl f v pg o c n G D :
    polar_redo_check_state f POLAR_REDO_OUTDATE = false ->
    lock_step (mk_rstate L W s sl (Some (mk_redo_buf f v pg o (S c) n)) G D)
      (mk_rstate L W s sl (Some (mk_redo_buf f v pg o c (S n))) G D)
| lk_share_outdated L W s sl f v pg o c n G D :  (* release, and take it exclusively *)
    polar_redo_check_state f POLAR_REDO_OUTDATE = true ->
    lock_step (mk_rstate L W s sl (Some (mk_redo_buf f v pg o (S c) n)) G D)
      (mk_rstate L W s sl (Some (mk_redo_buf f v pg o c n)) G D)
| lk_share_release L W s sl f v pg o c n G D :
    lock_step (mk_rstate L W s sl (Some (mk_redo_buf f v pg o c (S n))) G D)
      (mk_rstate L W s sl (Some (mk_redo_buf f v pg o c n)) G D)
| lk_evict L W s sl f pg G D :
    (forall r, s <> S_wait r) -> bg_pinned G = false ->
    lock_step (mk_rstate L W s sl (Some (mk_redo_buf f true pg O_none 0 0)) G D)
      (mk_rstate L W s sl None G D).

(** What [polar_only_replay_exists_buffer] decides at first: whether it goes
    on to apply the record (or to evict the buffer). *)
Definition bg_wants (b : redo_buf C) (lsn : Z) : bool :=
  polar_pin_buffer_for_replay (rb_valid b) (rb_flags b) &&
  match polar_buffer_need_replay (rb_flags b) true (rb_page b) lsn with
  | BUF_NEED_REPLAY => true
  | _ => false
  end.

(** The background process: [polar_logindex_apply_xlog_background] with
    [polar_only_replay_exists_buffer]. *)
Inductive bg_step : rstate C -> rstate C -> Prop :=
| bg_other L W s sl B D k x x' :    (* a record of other pages *)
    x <= x' <= wp_read_ptr W -> (forall r, L !! k = Some r -> x' < w_start r) ->
    bg_step (mk_rstate L W s sl B (mk_bg_state false k x) D) (mk_rstate L W s sl B (mk_bg_state false k x') D)
| bg_absent L W s sl D k x r :
    L !! k = Some r -> w_start r <= wp_read_ptr W ->
    bg_step (mk_rstate L W s sl None (mk_bg_state false k x) D)
      (mk_rstate L W s sl None (mk_bg_state false (S k) (w_start r)) D)
| bg_skip L W s sl b D k x r :
    L !! k = Some r -> w_start r <= wp_read_ptr W -> bg_wants b (w_start r) = false ->
    bg_step (mk_rstate L W s sl (Some b) (mk_bg_state false k x) D)
      (mk_rstate L W s sl (Some b) (mk_bg_state false (S k) (w_start r)) D)
| bg_evict L W s sl f pg D k x r :  (* polar_evict_buffer: no other pin *)
    L !! k = Some r -> w_start r <= wp_read_ptr W ->
    bg_wants (mk_redo_buf f true pg O_none 0 0) (w_start r) = true ->
    w_start r < sto_consist D -> (forall r, s <> S_wait r) ->
    bg_step (mk_rstate L W s sl (Some (mk_redo_buf f true pg O_none 0 0)) (mk_bg_state false k x) D)
      (mk_rstate L W s sl None (mk_bg_state false (S k) (w_start r)) D)
| bg_pin L W s sl b D k x r :
    L !! k = Some r -> w_start r <= wp_read_ptr W -> bg_wants b (w_start r) = true ->
    bg_step (mk_rstate L W s sl (Some b) (mk_bg_state false k x) D)
      (mk_rstate L W s sl (Some b) (mk_bg_state true k x) D)
| bg_lock L W s sl f v pg D k x :
    bg_step (mk_rstate L W s sl (Some (mk_redo_buf f v pg O_none 0 0)) (mk_bg_state true k x) D)
      (mk_rstate L W s sl (Some (mk_redo_buf f v pg O_bg 0 0)) (mk_bg_state true k x) D)
| bg_apply L W s sl f v pg c n D k x r :
    L !! k = Some r ->
    bg_step (mk_rstate L W s sl (Some (mk_redo_buf f v pg O_bg c n)) (mk_bg_state true k x) D)
      (mk_rstate L W s sl (Some (mk_redo_buf f v (polar_bg_redo_apply_read_record r pg) O_none c n))
         (mk_bg_state false (S k) (w_start r)) D).

(** The primary writes the page, and its consistent LSN and the redo LSN
    move on.  Pages ahead of what the replica has replayed are restored
    from full page snapshots, which are not part of the system. *)
Inductive storage_step : rstate C -> rstate C -> Prop :=
| st_write L W s sl B G D m :
    (sto_count D <= m <= length L)%nat ->
    (forall i r, (i < m)%nat -> L !! i = Some r -> w_end r <= wp_replayed W) ->
    storage_step (mk_rstate L W s sl B G D)
      (mk_rstate L W s sl B G (mk_storage m (sto_consist D) (sto_redo D)))
| st_consist L W s sl B G D x y :
    x <= wp_replayed W -> y <= wp_replayed W ->
    (forall i r, L !! i = Some r -> w_start r < Z.max x y -> (i < sto_count D)%nat) ->
    storage_step (mk_rstate L W s sl B G D) (mk_rstate L W s sl B G (mk_storage (sto_count D) x y)).

Inductive rstep (a b : rstate C) : Prop :=
| r_startup : startup_step a b -> rstep a b
| r_io : io_step a b -> rstep a b
| r_replay : replay_step a b -> rstep a b
| r_lock : lock_step a b -> rstep a b
| r_bg : bg_step a b -> rstep a b
| r_storage : storage_step a b -> rstep a b.

(** A replica that reached consistency with a record from [read_ptr] to [lsn],
    with nothing in the pool: [polar_logindex_wakeup_bg_replay]. *)
Definition redo_init (read_ptr lsn : Z) : rstate C :=
  mk_rstate [] (mk_wal_pos lsn lsn read_ptr) S_idle (mk_page_slot false None None) None
    (mk_bg_state false 0 lsn) (mk_storage 0 lsn lsn).

(** An [ERROR] in the replay of a buffer with its content lock:
    [polar_logindex_redo_abort] and the release of the content lock. *)
Inductive abort_step : rstate C -> rstate C -> Prop :=
| ab_replay L W s sl f pg start end_ locked c n G D :
    abort_step (mk_rstate L W s sl (Some (mk_redo_buf f true pg (O_apply start end_ locked) c n)) G D)
      (mk_rstate L W s
         (if locked : bool then mk_page_slot (sl_started sl) (sl_added sl) None else sl)
         (Some (mk_redo_buf (polar_logindex_abort_replaying_buffer f) true pg O_none c n)) G D).
End steps.
