(* ===== verification/RedoReplay.v ===== *)
(** * The invariant of replaying a page on demand

    What every step of [RedoPage] preserves ([redo_inv]): the page in the
    buffer pool is always the first page with a beginning of its records
    applied, and it lacks a record only if the buffer is marked as outdated,
    if a backend is about to apply the record, or if the startup process has the content lock. *)

From S2P Require Import Prelude RedoPage.

(** ** The redo state *)

Lemma check_set f m m' :
  polar_redo_check_state (redo_set f m) m' = polar_redo_check_state f m' || polar_redo_check_state m m'.
Proof.
  unfold polar_redo_check_state, redo_set. rewrite Z.land_lor_distr_l.
  destruct (Z.land f m' =? 0) eqn:E1, (Z.land m m' =? 0) eqn:E2; zbool; simpl.
  - by rewrite E1, E2.
  - apply negb_true_iff, Z.eqb_neq. by rewrite Z.lor_eq_0_iff; intros [].
  - apply negb_true_iff, Z.eqb_neq. by rewrite Z.lor_eq_0_iff; intros [].
  - apply negb_true_iff, Z.eqb_neq. by rewrite Z.lor_eq_0_iff; intros [].
Qed.

Lemma check_clear f m m' :
  polar_redo_check_state (redo_clear f m) m' = polar_redo_check_state f (Z.land (Z.lnot m) m').
Proof. unfold polar_redo_check_state, redo_clear. by rewrite Z.land_assoc. Qed.

Lemma check_0 f : polar_redo_check_state f 0 = false.
Proof. unfold polar_redo_check_state. by rewrite Z.land_0_r. Qed.

Abbreviation io_end f := (polar_redo_check_state f POLAR_REDO_READ_IO_END).
Abbreviation replaying f := (polar_redo_check_state f POLAR_REDO_REPLAYING).
Abbreviation outdate f := (polar_redo_check_state f POLAR_REDO_OUTDATE).
Abbreviation invalidate f := (polar_redo_check_state f POLAR_REDO_INVALIDATE).

Lemma set_outdate_flags f :
  let f' := redo_set f POLAR_REDO_OUTDATE in
  io_end f' = io_end f /\ replaying f' = replaying f /\ outdate f' = true /\ invalidate f' = invalidate f.
Proof.
  simpl. rewrite !check_set.
  change (io_end POLAR_REDO_OUTDATE) with false. change (replaying POLAR_REDO_OUTDATE) with false.
  change (outdate POLAR_REDO_OUTDATE) with true. change (invalidate POLAR_REDO_OUTDATE) with false.
  by rewrite !orb_false_r, orb_true_r.
Qed.

Lemma begin_flags f :
  let f' := lock_apply_begin f in
  io_end f' = true /\ replaying f' = true /\ invalidate f' = invalidate f.
Proof.
  simpl. unfold lock_apply_begin. rewrite !check_clear.
  change (Z.land (Z.lnot POLAR_REDO_OUTDATE) POLAR_REDO_READ_IO_END) with POLAR_REDO_READ_IO_END.
  change (Z.land (Z.lnot POLAR_REDO_OUTDATE) POLAR_REDO_REPLAYING) with POLAR_REDO_REPLAYING.
  change (Z.land (Z.lnot POLAR_REDO_OUTDATE) POLAR_REDO_INVALIDATE) with POLAR_REDO_INVALIDATE.
  rewrite !check_set, orb_true_r. split_and!; [done|apply orb_true_r|apply orb_false_r].
Qed.

(** At the end of a round an outdated buffer is replayed again, and another
    one is done. *)
Lemma round_flags f :
  let f' := lock_apply_round f in
  io_end f' = io_end f /\ outdate f' = false /\ invalidate f' = invalidate f /\
  replaying f' = outdate f && replaying f.
Proof.
  simpl. unfold lock_apply_round. destruct (outdate f) eqn:E; rewrite !check_clear.
  - change (Z.land (Z.lnot POLAR_REDO_OUTDATE) POLAR_REDO_READ_IO_END) with POLAR_REDO_READ_IO_END.
    change (Z.land (Z.lnot POLAR_REDO_OUTDATE) POLAR_REDO_REPLAYING) with POLAR_REDO_REPLAYING.
    change (Z.land (Z.lnot POLAR_REDO_OUTDATE) POLAR_REDO_INVALIDATE) with POLAR_REDO_INVALIDATE.
    change (Z.land (Z.lnot POLAR_REDO_OUTDATE) POLAR_REDO_OUTDATE) with 0. by rewrite check_0.
  - change (Z.land (Z.lnot POLAR_REDO_REPLAYING) POLAR_REDO_READ_IO_END) with POLAR_REDO_READ_IO_END.
    change (Z.land (Z.lnot POLAR_REDO_REPLAYING) POLAR_REDO_OUTDATE) with POLAR_REDO_OUTDATE.
    change (Z.land (Z.lnot POLAR_REDO_REPLAYING) POLAR_REDO_INVALIDATE) with POLAR_REDO_INVALIDATE.
    change (Z.land (Z.lnot POLAR_REDO_REPLAYING) POLAR_REDO_REPLAYING) with 0. by rewrite check_0.
Qed.

Lemma abort_flags f :
  let f' := polar_logindex_abort_replaying_buffer f in
  io_end f' = io_end f /\ outdate f' = outdate f /\ replaying f' = false.
Proof.
  simpl. unfold polar_logindex_abort_replaying_buffer. rewrite !check_clear.
  change (Z.land (Z.lnot POLAR_REDO_REPLAYING) POLAR_REDO_READ_IO_END) with POLAR_REDO_READ_IO_END.
  change (Z.land (Z.lnot POLAR_REDO_REPLAYING) POLAR_REDO_OUTDATE) with POLAR_REDO_OUTDATE.
  change (Z.land (Z.lnot POLAR_REDO_REPLAYING) POLAR_REDO_REPLAYING) with 0. by rewrite check_0.
Qed.

(** ** Pages and their records *)

(** The records of a page follow each other in the WAL, behind [base]. *)
Definition wal_ok (base : Z) (L : list wrec) : Prop :=
  (forall i r, L !! i = Some r -> base <= w_start r < w_end r) /\
  forall i j a b, (i < j)%nat -> L !! i = Some a -> L !! j = Some b -> w_end a <= w_start b.

(** Every record that starts before [lsn] is one of the first [p]. *)
Definition covers (L : list wrec) (lsn : Z) (p : nat) : Prop :=
  forall i r, L !! i = Some r -> w_start r < lsn -> (i < p)%nat.

Lemma wal_ok_snoc base L r :
  wal_ok base L -> base <= w_start r < w_end r -> (forall x, x ∈ L -> w_end x <= w_start r) ->
  wal_ok base (L ++ [r]).
Proof.
  intros [H1 H2] Hr Hx. split.
  - intros i x [H|[_ H]]%lookup_app_Some; [by eapply H1|]. by apply list_lookup_singleton_Some in H as [_ <-].
  - intros i j a b Hij Ha [Hb|[Hl Hb]]%lookup_app_Some.
    + apply lookup_lt_Some in Hb as Hj. rewrite lookup_app_l in Ha by lia. by apply (H2 i j a b).
    + apply list_lookup_singleton_Some in Hb as [Hj <-]. rewrite lookup_app_l in Ha by lia.
      apply Hx. by eapply list_elem_of_lookup_2.
Qed.

Lemma wal_ok_prefix base L r : wal_ok base (L ++ [r]) ->
  wal_ok base L /\ base <= w_start r < w_end r /\ forall i x, L !! i = Some x -> w_end x <= w_start r.
Proof.
  intros [H1 H2]. assert (Hr : (L ++ [r]) !! length L = Some r) by (by rewrite lookup_app_r, Nat.sub_diag by lia).
  assert (HL : forall i x, L !! i = Some x -> (L ++ [r]) !! i = Some x) by (intros; by apply lookup_app_l_Some).
  split; [split|split].
  - intros i x Hx. by apply (H1 i x), HL.
  - intros i j a b Hij Ha Hb. by apply (H2 i j a b Hij); apply HL.
  - by apply (H1 (length L) r).
  - intros i x Hx. apply (H2 i (length L) x r); [by eapply lookup_lt_Some|by apply HL|done].
Qed.

Section pages.
Context {C : Type} `{!IdxRedo C} (pg0 : page C) (base : Z) (Hbase : pg_lsn pg0 <= base).

(** The page with the first [p] of its records. *)
Definition page_at (L : list wrec) (p : nat) : page C := replayed_page pg0 (take p L).

Lemma page_at_S L p r : L !! p = Some r -> page_at L (S p) = rm_polar_idx_redo r (page_at L p).
Proof.
  intros H. unfold page_at, replayed_page, polar_logindex_apply_one_page.
  by rewrite (take_S_r _ _ _ H), foldl_app.
Qed.

Lemma page_at_app L r p : (p <= length L)%nat -> page_at (L ++ [r]) p = page_at L p.
Proof. intros H. unfold page_at. by rewrite take_app_le. Qed.

Lemma page_at_full L : page_at L (length L) = replayed_page pg0 L.
Proof. unfold page_at. by rewrite firstn_all. Qed.

(** The LSN of a page is between the records it has and those it lacks. *)
Lemma page_lsn_le L p i r : wal_ok base L -> (p <= i)%nat -> L !! i = Some r -> pg_lsn (page_at L p) <= w_start r.
Proof.
  intros [H1 H2] Hp Hi. induction p as [|p IH].
  - transitivity base; [done|]. by apply (H1 i r).
  - destruct (lookup_lt_is_Some_2 L p) as [x Hx]; [apply lookup_lt_Some in Hi; lia|].
    rewrite (page_at_S _ _ x Hx). assert (w_end x <= w_start r) by (apply (H2 p i x r); [lia|done|done]).
    destruct (Z.le_gt_cases (w_end x) (pg_lsn (page_at L p))) as [Hle|Hlt].
    + rewrite idx_redo_done by done. apply IH. lia.
    + rewrite idx_redo_lsn by done. done.
Qed.

Lemma page_lsn_S L p r : wal_ok base L -> L !! p = Some r -> pg_lsn (page_at L (S p)) = w_end r.
Proof.
  intros Hw Hr. rewrite (page_at_S _ _ r Hr). apply idx_redo_lsn.
  pose proof (page_lsn_le L p p r Hw (Nat.le_refl p) Hr). destruct Hw as [H1 _]. specialize (H1 _ _ Hr). lia.
Qed.

Lemma page_lsn_ge L p i r : wal_ok base L -> (i < p)%nat -> (p <= length L)%nat -> L !! i = Some r ->
  w_end r <= pg_lsn (page_at L p).
Proof.
  intros Hw Hi Hp Hr. destruct p as [|p]; [lia|].
  destruct (lookup_lt_is_Some_2 L p) as [x Hx]; [lia|]. rewrite (page_lsn_S L p x Hw Hx).
  destruct (decide (i = p)) as [->|]; [by simplify_eq|].
  destruct Hw as [H1 H2]. specialize (H1 p x Hx). specialize (H2 i p r x ltac:(lia) Hr Hx). lia.
Qed.

Lemma page_lsn_cases L p : wal_ok base L -> (p <= length L)%nat ->
  pg_lsn (page_at L p) <= base \/ exists i r, L !! i = Some r /\ pg_lsn (page_at L p) = w_end r.
Proof.
  intros Hw Hp. destruct p as [|p]; [by left|].
  destruct (lookup_lt_is_Some_2 L p) as [x Hx]; [lia|]. right. exists p, x. by rewrite (page_lsn_S L p x Hw Hx).
Qed.

Lemma page_covers L p : wal_ok base L -> (p <= length L)%nat -> covers L (pg_lsn (page_at L p)) p.
Proof.
  intros Hw Hp i r Hr Hlt. destruct (decide (i < p)%nat); [done|].
  pose proof (page_lsn_le L p i r Hw ltac:(lia) Hr). lia.
Qed.

(** Applying a range of records, some of which the page already has. *)
Lemma apply_range L p lo hi :
  wal_ok base L -> (p <= length L)%nat -> covers L lo p ->
  exists p', (p <= p' <= length L)%nat /\ covers L (hi + 1) p' /\
    polar_logindex_apply_one_page (page_records L lo hi) (page_at L p) = page_at L p'.
Proof.
  revert p. induction L as [|r L IH] using rev_ind; intros p Hw Hp Hc.
  { exists p. split_and!; [lia|done| |done]. intros i x Hx. done. }
  destruct (wal_ok_prefix base L r Hw) as (Hw' & Hr & Hend).
  unfold page_records, polar_logindex_apply_one_page. rewrite filter_app, foldl_app.
  rewrite length_app in *; simpl in *.
  destruct (decide (p = S (length L))) as [->|Hne].
  - (* the page has all records *)
    exists (S (length L)). split_and!; [lia|lia| |].
    { intros i x Hx _. apply lookup_lt_Some in Hx. rewrite length_app in Hx. simpl in Hx. lia. }
    assert (Hno : forall l, (forall x, x ∈ l -> exists i, (L ++ [r]) !! i = Some x) ->
      foldl (fun pg x => rm_polar_idx_redo x pg) (page_at (L ++ [r]) (S (length L))) l
      = page_at (L ++ [r]) (S (length L))).
    { induction l as [|x l IHl]; intros Hl; [done|]. simpl. destruct (Hl x) as [i Hi]; [set_solver|].
      rewrite idx_redo_done; [apply IHl; set_solver|].
      apply (page_lsn_ge _ _ i); [done| |rewrite length_app; simpl; lia|done].
      apply lookup_lt_Some in Hi. rewrite length_app in Hi. simpl in Hi. lia. }
    rewrite <- foldl_app, <- filter_app. apply Hno. intros x [_ Hx]%list_elem_of_filter.
    by apply list_elem_of_lookup_1.
  - destruct (IH p Hw' ltac:(lia)) as (p' & Hp' & Hc' & Hpg).
    { intros i x Hx Hlt. apply (Hc i x); [by apply lookup_app_l_Some|done]. }
    rewrite page_at_app by lia. unfold polar_logindex_apply_one_page, page_records in Hpg. rewrite Hpg.
    destruct (decide (lo <= w_start r <= hi)) as [Hin|Hout].
    + rewrite filter_cons_True, filter_nil by done. simpl. assert (p' = length L) as ->.
      { destruct (decide (p' < length L)%nat) as [Hlt|]; [|lia].
        destruct (lookup_lt_is_Some_2 L p' Hlt) as [x Hx].
        pose proof (Hend p' x Hx). destruct Hw' as [H1 _]. specialize (H1 p' x Hx).
        specialize (Hc' p' x Hx ltac:(lia)). lia. }
      exists (S (length L)). split_and!; [lia|lia| |].
      { intros i x Hx _. apply lookup_lt_Some in Hx. rewrite length_app in Hx. simpl in Hx. lia. }
      rewrite (page_at_S (L ++ [r]) (length L) r) by (by rewrite lookup_app_r, Nat.sub_diag by lia).
      by rewrite page_at_app.
    + rewrite filter_cons_False, filter_nil by done. simpl. exists p'. split_and!; [lia|lia| |by rewrite page_at_app by lia].
      intros i x [Hx|[Hi Hx]]%lookup_app_Some Hlt; [by eapply Hc'|].
      apply list_lookup_singleton_Some in Hx as [Hi' <-]. exfalso.
      destruct (Z.lt_ge_cases (w_start r) lo); [|lia].
      specialize (Hc (length L) r). rewrite lookup_app_r, Nat.sub_diag in Hc by lia. specialize (Hc eq_refl ltac:(lia)). lia.
Qed.

(** [polar_logindex_apply_page] brings the page to a later beginning of its
    records that has every record before [end_lsn], and returns a position
    before which the page has them all. *)
Lemma apply_page_spec L p start end_ :
  wal_ok base L -> (p <= length L)%nat -> covers L start p ->
  exists p', (p <= p' <= length L)%nat /\ (polar_logindex_apply_page L start end_ (page_at L p)).2 = page_at L p' /\
    covers L end_ p' /\ covers L (polar_logindex_apply_page L start end_ (page_at L p)).1 p' /\
    ((polar_logindex_apply_page L start end_ (page_at L p)).1 ∈ [end_; start; pg_lsn (page_at L p)]).
Proof.
  intros Hw Hp Hc. unfold polar_logindex_apply_page.
  set (s := if negb (pg_new (page_at L p)) then Z.max start (pg_lsn (page_at L p)) else start).
  assert (covers L s p /\ s ∈ [end_; start; pg_lsn (page_at L p)]) as [Hcs Hin].
  { subst s. destruct (negb _); [|split; [done|set_solver]].
    destruct (Z.max_spec start (pg_lsn (page_at L p))) as [[_ ->]|[_ ->]]; [|split; [done|set_solver]].
    split; [by apply page_covers|set_solver]. }
  destruct (end_ <=? s) eqn:E; zbool; cbn [fst snd].
  - exists p. split_and!; [lia|lia|done| |done|done]. intros i r Hr Hlt. apply (Hcs i r Hr). lia.
  - destruct (apply_range L p s (end_ - 1) Hw Hp Hcs) as (p' & Hp' & Hc' & Hpg).
    replace (end_ - 1 + 1) with end_ in Hc' by lia. exists p'. split_and!; [lia|lia|done|done|done|set_solver].
Qed.
End pages.

(** ** The invariant *)

(** The startup process will not add its record to the log index of this page any more. *)
Definition past_add (s : startup_pc) : Prop :=
  match s with
  | S_content_added _ | S_added _ | S_parsed _ | S_read _ | S_replayed _ | S_ending => True
  | _ => False
  end.

(** It adds the record without looking at the buffer again. *)
Definition pending (s : startup_pc) : Prop := match s with S_add _ => True | _ => False end.

Definition startup_holds (s : startup_pc) : Prop :=
  match s with
  | S_locked _ | S_add _ | S_content_locked _ | S_content_added _ | S_added _ => True
  | _ => False
  end.

Definition in_content (s : startup_pc) : Prop :=
  match s with S_content _ | S_content_locked _ | S_content_added _ => True | _ => False end.

Definition content_added (s : startup_pc) : Prop := match s with S_content_added _ => True | _ => False end.

(** No record that is added later starts before [z]. *)
Definition settled (W : wal_pos) (s : startup_pc) (z : Z) : Prop :=
  z <= wp_replayed W \/ (past_add s /\ z <= wp_replay_end W).

(** The startup process works on [r]. *)
Definition working (W : wal_pos) (r : wrec) : Prop :=
  wp_replayed W <= w_start r < w_end r /\ wp_replay_end W = w_end r.

Definition startup_inv (W : wal_pos) (s : startup_pc) (sl : page_slot) : Prop :=
  match s with
  | S_idle => wp_replayed W = wp_replay_end W /\ sl_started sl = false /\ sl_added sl = None
  | S_parse r => working W r /\ sl_started sl = true /\ sl_added sl = None
  | S_locked r | S_add r | S_wait r | S_content r | S_content_locked r =>
      working W r /\ sl_started sl = true /\ sl_added sl = Some false
  | S_content_added r | S_added r => working W r /\ sl_started sl = true /\ sl_added sl = Some true
  | S_parsed r | S_read r =>
      working W r /\ sl_added sl <> Some false /\ (sl_started sl = false -> sl_added sl = None)
  | S_replayed r =>
      wp_replayed W = wp_replay_end W /\ sl_added sl <> Some false /\
      (sl_started sl = false -> sl_added sl = None)
  | S_ending => wp_replayed W = wp_replay_end W /\ sl_started sl = false /\ sl_added sl <> Some false
  end.

Definition owner_locked (o : owner) : Prop :=
  match o with
  | O_locked _ b | O_apply _ _ b | O_applied _ b | O_unlock _ b _ => b = true
  | _ => False
  end.

Definition owner_waits (o : owner) : Prop := match o with O_wait _ => True | _ => False end.

Definition buf_owner {C} (B : option (redo_buf C)) : owner := default O_none (rb_owner <$> B).

(** Who has the page lock and the content lock. *)
Record lock_inv (s : startup_pc) (sl : page_slot) (o : owner) : Prop := {
  li_startup : sl_holder sl = Some by_startup <-> startup_holds s;
  li_backend : sl_holder sl = Some by_backend <-> owner_locked o;
  li_slot : owner_locked o \/ owner_waits o -> is_Some (sl_added sl);
  li_content : in_content s <-> o = O_startup }.

(** The buffer is not being read or replayed. *)
Definition resting (f : Z) : Prop := io_end f = true /\ replaying f = false.
Definition in_replay (f : Z) : Prop := io_end f = true /\ replaying f = true.

Section inv.
Context {C : Type} `{!IdxRedo C} (pg0 : page C) (base : Z) (Hbase : pg_lsn pg0 <= base).

(** The owner of the buffer, with [p] records in the page. *)
Definition owner_inv (L : list wrec) (W : wal_pos) (s : startup_pc) (k : nat) (b : redo_buf C) (p : nat) : Prop :=
  let f := rb_flags b in
  let sure Q := outdate f = true \/ (~ pending s /\ Q) in
  let from z := settled W s z /\ covers L z p in
  let quiet := rb_valid b = true /\ resting f /\ ~ pending s /\ (k <= p)%nat in
  let current := resting f /\ outdate f = false /\ ~ pending s /\ p = length L in
  match rb_owner b with
  | O_io _ => True
  | O_begin z => from z
  | O_replay z | O_wait z => in_replay f /\ from z
  | O_locked z locked =>
      in_replay f /\ from z /\ (locked = false -> sure (forall r, r ∈ L -> w_end r <= wp_replayed W))
  | O_apply z e locked => in_replay f /\ from z /\ settled W s e /\ sure (forall r, r ∈ L -> w_start r < e)
  | O_applied z locked => in_replay f /\ from z /\ sure (p = length L)
  | O_unlock z locked true => in_replay f /\ from z
  | O_unlock z locked false => current
  | O_hold => current
  | O_none | O_check | O_bg => quiet /\ (outdate f = true \/ p = length L)
  | O_startup => quiet /\ (outdate f = true \/ p = length L \/ content_added s)
  end.

Record buf_inv (L : list wrec) (W : wal_pos) (s : startup_pc) (k m : nat) (b : redo_buf C) : Prop := {
  bi_invalidate : invalidate (rb_flags b) = false;
  bi_readers : rb_owner b <> O_none -> rb_checking b = 0%nat /\ rb_readers b = 0%nat;
  bi_fresh : (0 < rb_readers b)%nat -> outdate (rb_flags b) = false;
  bi_page : match rb_owner b with
    | O_io z => settled W s z /\ covers L z m
    | _ => exists p, (p <= length L)%nat /\ rb_page b = page_at pg0 L p /\ owner_inv L W s k b p
    end }.

Record redo_inv (st : rstate C) : Prop := {
  ri_wal : wal_ok base (rs_log st);
  ri_base : base <= wp_replayed (rs_pos st);
  ri_startup : startup_inv (rs_pos st) (rs_startup st) (rs_slot st);
  ri_locks : lock_inv (rs_startup st) (rs_slot st) (buf_owner (rs_buf st));
  ri_log : forall r, r ∈ rs_log st ->
    w_end r <= wp_replayed (rs_pos st) \/
    (sl_added (rs_slot st) = Some true /\ w_end r <= wp_replay_end (rs_pos st));
  ri_read_ptr : settled (rs_pos st) (rs_startup st) (wp_read_ptr (rs_pos st));
  ri_bg : (bg_next (rs_bg st) <= length (rs_log st))%nat /\
    settled (rs_pos st) (rs_startup st) (bg_lsn (rs_bg st)) /\
    covers (rs_log st) (bg_lsn (rs_bg st)) (bg_next (rs_bg st)) /\
    (bg_pinned (rs_bg st) = true -> exists r, rs_log st !! bg_next (rs_bg st) = Some r /\
       settled (rs_pos st) (rs_startup st) (w_start r));
  ri_storage : (sto_count (rs_storage st) <= length (rs_log st))%nat /\
    (forall z, z = sto_consist (rs_storage st) \/ z = sto_redo (rs_storage st) ->
      z <= wp_replayed (rs_pos st) /\ covers (rs_log st) z (sto_count (rs_storage st)));
  ri_buf : forall b, rs_buf st = Some b ->
    buf_inv (rs_log st) (rs_pos st) (rs_startup st) (bg_next (rs_bg st)) (sto_count (rs_storage st)) b }.

Lemma redo_inv_init read_ptr lsn : read_ptr <= lsn -> base <= lsn -> redo_inv (redo_init read_ptr lsn).
Proof.
  intros Hr Hl. split; cbn.
  - split; [intros i r H; done|intros i j a b ? H; done].
  - done.
  - done.
  - split; cbn; [by split| |intros [[]|[]]|by split]. by split.
  - intros r H. by apply not_elem_of_nil in H.
  - by left.
  - split_and!; [done|by left|intros i r H; done|done].
  - split; [done|]. intros z [-> | ->]; (split; [done|intros i r H; done]).
  - done.
Qed.

Lemma covers_mono L z p q : covers L z p -> (p <= q)%nat -> covers L z q.
Proof. intros H Hq i r Hr Hz. specialize (H i r Hr Hz). lia. Qed.

Lemma covers_le L z z' p : covers L z p -> z' <= z -> covers L z' p.
Proof. intros H Hz i r Hr Hlt. apply (H i r Hr). lia. Qed.

Lemma covers_snoc L r z p : covers L z p -> z <= w_start r -> covers (L ++ [r]) z p.
Proof.
  intros H Hz i x [Hx|[_ Hx]]%lookup_app_Some Hlt; [by eapply H|].
  apply list_lookup_singleton_Some in Hx as [_ <-]. lia.
Qed.

(** The invariant of a buffer only gets easier when the startup process
    goes on without adding a record. *)
Lemma buf_inv_mono L W s k m W' s' b :
  buf_inv L W s k m b ->
  (forall z, settled W s z -> settled W' s' z) -> wp_replayed W <= wp_replayed W' ->
  (pending s' -> pending s) -> (content_added s -> content_added s') ->
  buf_inv L W' s' k m b.
Proof.
  intros [H1 H2 H3 H4] Hset Hrep Hpend Hca. split; [done..|].
  destruct (rb_owner b) eqn:Eo; [|by destruct H4; split; [apply Hset|]|..];
    destruct H4 as (p & Hp & Hpg & H4); exists p; (split; [done|]); (split; [done|]);
    unfold owner_inv in *; rewrite Eo in *.
  all: try (destruct again).
  all: repeat match goal with H : _ /\ _ |- _ => destruct H | |- _ /\ _ => split end; auto.
  { intros Hl. destruct (H4 Hl) as [?|[? Hd]]; [by left|right]. split; [auto|].
    intros r Hr. specialize (Hd r Hr). lia. }
  all: match goal with H : outdate _ = true \/ _ |- _ => destruct H as [?|H]; [by left|right] end; naive_solver.
Qed.

(** *** The startup process *)

(** A step that adds nothing to the log index. *)
Lemma startup_frame L W s sl B G D W' s' sl' B' :
  redo_inv (mk_rstate L W s sl B G D) ->
  (forall z, settled W s z -> settled W' s' z) -> wp_replayed W <= wp_replayed W' ->
  (wp_read_ptr W' = wp_read_ptr W \/ settled W' s' (wp_read_ptr W')) ->
  startup_inv W' s' sl' -> lock_inv s' sl' (buf_owner B') ->
  (forall r, r ∈ L -> w_end r <= wp_replayed W \/ (sl_added sl = Some true /\ w_end r <= wp_replay_end W) ->
     w_end r <= wp_replayed W' \/ (sl_added sl' = Some true /\ w_end r <= wp_replay_end W')) ->
  (forall b, B' = Some b -> buf_inv L W' s' (bg_next G) (sto_count D) b) ->
  redo_inv (mk_rstate L W' s' sl' B' G D).
Proof.
  intros [H1 H2 H3 H4 H5 H6 H7 H8 H9] Hset Hrep Hread Hs Hl Hlog Hb. cbn in *. split; cbn; [done|lia|done|done|..].
  - intros r Hr. apply Hlog; [done|]. by apply H5.
  - destruct Hread as [->|]; [by apply Hset|done].
  - destruct H7 as (? & ? & ? & Hpin). split_and!; [done|by apply Hset|done|naive_solver].
  - destruct H8 as [? H8]. split; [done|]. intros z Hz. destruct (H8 z Hz). split; [lia|done].
  - done.
Qed.

(** In the steps below only the startup process moves. *)
Lemma startup_move L W s sl B G D W' s' sl' :
  redo_inv (mk_rstate L W s sl B G D) ->
  (forall z, settled W s z -> settled W' s' z) -> wp_replayed W <= wp_replayed W' ->
  (wp_read_ptr W' = wp_read_ptr W \/ settled W' s' (wp_read_ptr W')) ->
  startup_inv W' s' sl' -> lock_inv s' sl' (buf_owner B) ->
  (forall r, r ∈ L -> w_end r <= wp_replayed W \/ (sl_added sl = Some true /\ w_end r <= wp_replay_end W) ->
     w_end r <= wp_replayed W' \/ (sl_added sl' = Some true /\ w_end r <= wp_replay_end W')) ->
  (pending s' -> pending s) -> (content_added s -> content_added s') ->
  redo_inv (mk_rstate L W' s' sl' B G D).
Proof.
  intros Hi Hset Hrep Hread Hs Hl Hlog Hp Hc. apply (startup_frame L W s sl B G D); [done..|].
  intros b ->. apply (buf_inv_mono L W s); [|done..]. by apply (ri_buf _ Hi).
Qed.

Lemma owner_add L W s k b p r s' :
  owner_inv L W s k b p -> ~ past_add s -> wp_replayed W <= w_start r -> past_add s' -> ~ pending s' ->
  (p <= length L)%nat ->
  (pending s /\ rb_owner b <> O_startup \/ rb_owner b = O_startup /\ content_added s') ->
  owner_inv (L ++ [r]) W s' k b p.
Proof.
  intros H Hpa Hr Hpa' Hp' Hp Hown.
  assert (Hset : forall z, settled W s z -> settled W s' z /\ z <= w_start r).
  { intros z [?|[? _]]; [|done]. split; [by left|lia]. }
  assert (Hfrom : forall z, settled W s z /\ covers L z p -> settled W s' z /\ covers (L ++ [r]) z p).
  { intros z [H1 H2]. destruct (Hset z H1). split; [done|by apply covers_snoc]. }
  unfold owner_inv in *. destruct (rb_owner b) eqn:Eo; try (destruct again).
  all: destruct Hown as [[Hown Hno]|[Hown Hno]]; try discriminate; try done; try naive_solver.
Qed.

(** Adding the record to the log index. *)
Lemma startup_add L W s sl B G D r s' :
  redo_inv (mk_rstate L W s sl B G D) ->
  startup_inv W s' (mk_page_slot (sl_started sl) (Some true) (sl_holder sl)) ->
  lock_inv s' (mk_page_slot (sl_started sl) (Some true) (sl_holder sl)) (buf_owner B) ->
  working W r -> sl_added sl = Some false -> ~ past_add s -> past_add s' -> ~ pending s' ->
  (pending s /\ buf_owner B <> O_startup \/ buf_owner B = O_startup /\ content_added s') ->
  redo_inv (mk_rstate (L ++ [r]) W s' (mk_page_slot (sl_started sl) (Some true) (sl_holder sl)) B G D).
Proof.
  intros [H1 H2 H3 H4 H5 H6 H7 H8 H9] Hs Hl [Hr He] Ha Hpa Hpa' Hp' Hown. cbn in *.
  assert (Hset : forall z, settled W s z -> settled W s' z /\ z <= w_start r).
  { intros z [?|[? _]]; [|done]. split; [by left|lia]. }
  assert (Hend : forall x, x ∈ L -> w_end x <= wp_replayed W).
  { intros x Hx. destruct (H5 x Hx) as [?|[? _]]; [done|congruence]. }
  split; cbn; [|done|done|done|..].
  - apply wal_ok_snoc; [done|lia|]. intros x Hx. specialize (Hend x Hx). lia.
  - intros x [Hx|Hx]%elem_of_app; [left; by apply Hend|]. apply list_elem_of_singleton in Hx as ->.
    right. split; [done|lia].
  - by apply Hset.
  - destruct H7 as (? & Hb & ? & Hpin). destruct (Hset _ Hb). rewrite length_app.
    split_and!; [lia|done|by apply covers_snoc|]. intros (x & Hx & ?)%Hpin. exists x.
    split; [by apply lookup_app_l_Some|by apply Hset].
  - destruct H8 as [? H8]. rewrite length_app. split; [lia|]. intros z Hz. destruct (H8 z Hz).
    split; [done|apply covers_snoc; [done|lia]].
  - intros b ->. destruct (H9 b eq_refl) as [B1 B2 B3 B4]. split; [done..|]. cbn in Hown.
    destruct (rb_owner b) eqn:Eo; [|destruct B4 as [B4 B5]; destruct (Hset _ B4); split; [done|by apply covers_snoc]|..].
    all: destruct B4 as (p & Hp & Hpg & B4); exists p; rewrite length_app; split; [lia|];
      rewrite page_at_app by done; split; [done|].
    all: apply (owner_add L W s); try done; try lia; rewrite Eo; done.
Qed.

(** A buffer that is read or replayed is marked as outdated before the
    record is added. *)
Lemma resting_not_busy f cl : resting f -> outdate_parse_busy f cl = false.
Proof. unfold resting, outdate_parse_busy. by intros [-> ->]. Qed.

Lemma buf_mark L W s k m f v pg o c n cl r :
  buf_inv L W s k m (mk_redo_buf f v pg o c n) -> outdate_parse_busy f cl = true -> ~ past_add s ->
  buf_inv L W (S_add r) k m (mk_redo_buf (redo_set f POLAR_REDO_OUTDATE) v pg o c n).
Proof.
  intros [H1 H2 H3 H4] Hb Hpa. cbn in *. destruct (set_outdate_flags f) as (F1 & F2 & F3 & F4).
  assert (Hset : forall z, settled W s z -> settled W (S_add r) z).
  { intros z [?|[? _]]; [by left|done]. }
  assert (Hrest : resting f -> False) by (intros ?%(resting_not_busy _ cl); congruence).
  split; cbn; [by rewrite F4|done| |].
  - intros Hn. destruct (decide (o = O_none)) as [->|Ho]; [|destruct (H2 Ho); lia].
    destruct H4 as (p & _ & _ & [(_ & ? & _) _]). exfalso. by apply Hrest.
  - destruct o; [|by destruct H4; split; [apply Hset|]|..];
      destruct H4 as (p & Hp & Hpg & H4); exists p; (split; [done|]); (split; [done|]); unfold owner_inv in *;
      cbn in *; unfold in_replay, resting in *; rewrite ?F1, ?F2, ?F3 in *; try (destruct again); naive_solver.
Qed.

(** The startup process gets the content lock, marks and releases the buffer. *)
Lemma buf_take L W r k m f pg :
  buf_inv L W (S_wait r) k m (mk_redo_buf f true pg O_none 0 0) ->
  buf_inv L W (S_content r) k m (mk_redo_buf f true pg O_startup 0 0).
Proof.
  intros [H1 H2 H3 H4]. split; cbn in *; [done..|]. destruct H4 as (p & Hp & Hpg & H4).
  exists p. unfold owner_inv in *. cbn in *. naive_solver.
Qed.

Lemma buf_release L W r k m f v pg c n :
  buf_inv L W (S_content_added r) k m (mk_redo_buf f v pg O_startup c n) ->
  buf_inv L W (S_added r) k m (mk_redo_buf (redo_set f POLAR_REDO_OUTDATE) v pg O_none c n).
Proof.
  intros [H1 H2 H3 H4]. cbn in *. destruct (set_outdate_flags f) as (F1 & F2 & F3 & F4).
  destruct H2 as [-> ->]; [done|]. split; cbn; [by rewrite F4|done|lia|].
  destruct H4 as (p & Hp & Hpg & H4). exists p. unfold owner_inv, resting in *. cbn in *.
  rewrite F1, F2, F3. naive_solver.
Qed.

(** The side conditions of [startup_move]. *)
Ltac lock_cases := match goal with
  | H : lock_inv _ _ _ |- lock_inv _ _ _ => destruct H as [? ? ? ?]; split; cbn in *; naive_solver
  end.
Ltac settle := unfold settled, startup_inv, working in *; cbn in *;
  first [lock_cases | tauto | intuition (first [lia | congruence])].

Lemma startup_preserves st st' : startup_step st st' -> redo_inv st -> redo_inv st'.
Proof.
  intros Hstep Hi. pose proof (ri_startup _ Hi) as Hs. pose proof (ri_locks _ Hi) as Hl.
  destruct Hstep; cbn [rs_pos rs_startup rs_slot rs_buf rs_log] in Hs, Hl.
  all: try (destruct sl as [started added holder]; cbn in Hs; cbn [sl_started sl_added sl_holder] in * ).
  - eapply startup_move; [exact Hi|..]; settle.
  - eapply startup_move; [exact Hi|..]; settle.
  - eapply startup_move; [exact Hi|..]; settle.
  - destruct Hs as (? & ? & ->). eapply startup_move; [exact Hi|..]; settle.
  - eapply startup_frame; [exact Hi|..|done]; settle.
  - eapply startup_frame; [exact Hi|..]; try settle. intros b [= <-].
    eapply buf_mark; [by apply (ri_buf _ Hi)|done|intros []].
  - eapply startup_move; [exact Hi|..]; settle.
  - destruct Hs as (Hs & ? & ->). apply (startup_add L W (S_add r) (mk_page_slot started (Some false) holder));
      [exact Hi|settle|settle|apply Hs|done|by intros []|done|by intros []|].
    left. split; [done|]. destruct Hl as [_ _ _ Hc]. cbn in *. naive_solver.
  - eapply startup_frame; [exact Hi|..]; try settle. intros b [= <-]. apply buf_take. by apply (ri_buf _ Hi).
  - destruct Hs as (? & ? & ->). eapply startup_move; [exact Hi|..]; settle.
  - destruct Hs as (Hs & ? & ->).
    apply (startup_add L W (S_content_locked r) (mk_page_slot started (Some false) holder));
      [exact Hi|settle|settle|apply Hs|done|by intros []|done|by intros []|].
    right. split; [|done]. destruct Hl as [_ _ _ Hc]. cbn in *. naive_solver.
  - eapply startup_frame; [exact Hi|..]; try settle. intros b [= <-]. apply buf_release. by apply (ri_buf _ Hi).
  - eapply startup_move; [exact Hi|..]; settle.
  - eapply startup_move; [exact Hi|..]; settle.
  - eapply startup_move; [exact Hi|..]; settle.
  - eapply startup_move; [exact Hi|..]; settle.
  - eapply startup_move; [exact Hi|..]; settle.
  - assert (Hnw : ~ owner_waits (buf_owner B)).
    { destruct B as [b|]; [|intros []]. cbn. intros Hw. destruct (rb_owner b) eqn:Eo; try done.
      by destruct (H0 b start eq_refl). }
    assert (lock_inv S_idle (mk_page_slot started None None) (buf_owner B)).
    { clear Hs Hi H0. destruct Hl as [L1 L2 L3 L4]. subst holder. split; cbn in *; [done|tauto| |tauto].
      intros [?|?]; [|done]. exfalso. naive_solver. }
    clear Hl Hnw H0. eapply startup_move; [exact Hi|..]; try done; settle.
Qed.
End inv.
Arguments ri_wal {C _ pg0 base} _ _.
Arguments ri_base {C _ pg0 base} _ _.
Arguments ri_startup {C _ pg0 base} _ _.
Arguments ri_locks {C _ pg0 base} _ _.
Arguments ri_log {C _ pg0 base} _ _ _ _.
Arguments ri_read_ptr {C _ pg0 base} _ _.
Arguments ri_bg {C _ pg0 base} _ _.
Arguments ri_storage {C _ pg0 base} _ _.
Arguments ri_buf {C _ pg0 base} _ _ _ _.
