(* ===== verification/RedoSteps.v ===== *)
(** * Every step of replaying a page keeps the invariant

    The steps of the backends, the background process and the primary; those
    of the startup process are in [RedoReplay]. *)

From S2P Require Import Prelude RedoPage RedoReplay.

Section inv.
Context {C : Type} `{!IdxRedo C} (pg0 : page C) (base : Z) (Hbase : pg_lsn pg0 <= base).

Abbreviation redo_inv := (redo_inv pg0 base).
Abbreviation buf_inv := (buf_inv pg0).

(** ** Backends that replay *)


(** A step that changes the buffer and the holder of the page lock only. *)
Lemma buffer_frame L W s sl B G D sl' B' :
  redo_inv (mk_rstate L W s sl B G D) ->
  sl_started sl' = sl_started sl -> sl_added sl' = sl_added sl -> lock_inv s sl' (buf_owner B') ->
  (forall b, B' = Some b -> buf_inv L W s (bg_next G) (sto_count D) b) ->
  redo_inv (mk_rstate L W s sl' B' G D).
Proof.
  intros [H1 H2 H3 H4 H5 H6 H7 H8 H9] Hst Ha Hl Hb. cbn in *. split; cbn; try done.
  - unfold startup_inv in *. by rewrite Hst, Ha.
  - intros r Hr. rewrite Ha. by apply H5.
Qed.

Lemma startup_past W s sl : startup_inv W s sl -> sl_added sl = Some true ->
  past_add s /\ wp_replayed W <= wp_replay_end W.
Proof. unfold working. destruct s; cbn; unfold working; intuition (first [lia|congruence]). Qed.

Lemma startup_no_slot W s sl : startup_inv W s sl -> sl_started sl = false \/ sl_added sl = None ->
  ~ pending s /\ (sl_added sl = Some true -> wp_replayed W = wp_replay_end W).
Proof. destruct s; cbn; intuition congruence. Qed.

Lemma settled_page L W s sl B G D p :
  redo_inv (mk_rstate L W s sl B G D) -> (p <= length L)%nat -> settled W s (pg_lsn (page_at pg0 L p)).
Proof.
  intros [H1 H2 H3 H4 H5 H6 H7 H8 H9] Hp. cbn in *.
  destruct (page_lsn_cases pg0 base Hbase L p H1 Hp) as [?|(i & r & Hr & ->)]; [left; lia|].
  destruct (H5 r) as [?|[Ha ?]]; [by eapply list_elem_of_lookup_2|by left|right].
  split; [|done]. by apply (startup_past W s sl).
Qed.

(** Without a slot for the page every record of it is replayed; with the page
    lock, the slot says up to where the log index is complete. *)
Lemma no_slot_done L W s sl B G D :
  redo_inv (mk_rstate L W s sl B G D) -> sl_started sl = false \/ sl_added sl = None ->
  ~ pending s /\ forall r, r ∈ L -> w_end r <= wp_replayed W.
Proof.
  intros [H1 H2 H3 H4 H5 H6 H7 H8 H9] Hn. cbn in *. destruct (startup_no_slot _ _ _ H3 Hn) as [Hp He].
  split; [done|]. intros r Hr. destruct (H5 r Hr) as [?|[Ha ?]]; [done|]. specialize (He Ha). lia.
Qed.

Lemma locked_end L W s sl B G D z :
  redo_inv (mk_rstate L W s sl B G D) -> buf_owner B = O_locked z true ->
  let e := apply_page_from_end (sl_added sl) (wp_replay_end W) (wp_replayed W) in
  ~ pending s /\ settled W s e /\ forall r, r ∈ L -> w_start r < e.
Proof.
  intros [H1 H2 H3 H4 H5 H6 H7 H8 H9] Ho. cbn [rs_log rs_pos rs_startup rs_slot rs_buf] in *. rewrite Ho in H4. destruct H4 as [L1 L2 L3 L4]. cbn in *.
  assert (Hh : sl_holder sl = Some by_backend) by (by apply L2).
  assert (Hns : ~ startup_holds s) by (intros ?%L1; congruence).
  assert (Hlt : forall r, r ∈ L -> w_start r < w_end r).
  { intros r [i Hr]%list_elem_of_lookup_1. by apply (proj1 H1 i r). }
  split; [by destruct s|]. unfold apply_page_from_end. destruct (sl_added sl) as [[]|] eqn:Ea.
  - destruct (startup_past _ _ _ H3 Ea). split; [right; split; [done|lia]|].
    intros r Hr. specialize (Hlt r Hr). destruct (H5 r Hr) as [?|[_ ?]]; lia.
  - split; [left; lia|]. intros r Hr. specialize (Hlt r Hr). destruct (H5 r Hr) as [?|[? _]]; [lia|done].
  - destruct L3; [by left|done].
Qed.

Ltac lock_cases := match goal with
  | H : lock_inv _ _ _ |- lock_inv _ _ _ => clear -H; destruct H as [? ? ? ?]; split; cbn in *; naive_solver
  end.

Lemma replay_preserves st st' : replay_step st st' -> redo_inv st -> redo_inv st'.
Proof.
  intros Hstep Hi. pose proof (ri_locks _ Hi) as Hl.
  destruct Hstep; pose proof (ri_buf _ Hi _ eq_refl) as [B1 B2 B3 B4]; cbn in Hl, B1, B2, B3, B4;
    destruct B2 as [-> ->]; try done; destruct B4 as (p & Hp & -> & B4); unfold owner_inv in B4; cbn in B4.
  - (* rp_begin *) destruct (begin_flags f) as (F1 & F2 & F3).
    eapply buffer_frame; [exact Hi|done|done|lock_cases|]. intros b [= <-]. split; cbn; [congruence|done|lia|].
    exists p. done.
  - (* rp_no_slot *) eapply buffer_frame; [exact Hi|done|done|lock_cases|].
    intros b [= <-]. split; cbn; [done|done|lia|]. exists p. refine (conj Hp (conj eq_refl _)). unfold owner_inv. cbn.
    destruct B4 as [? ?]. split; [done|]. split; [done|]. intros _. right. by apply (no_slot_done _ _ _ _ _ _ _ Hi).
  - (* rp_slot *) eapply buffer_frame; [exact Hi|done|done| |].
    { clear -Hl H0. destruct Hl as [? ? ? ?]. split; cbn in *; naive_solver. }
    intros b [= <-]. split; cbn; [done|done|lia|]. by exists p.
  - (* rp_locked *) eapply buffer_frame; [exact Hi|done|done| |].
    { clear -Hl H. destruct Hl as [? ? ? ?]. split; cbn in *; naive_solver. }
    intros b [= <-]. split; cbn; [done|done|lia|]. exists p. refine (conj Hp (conj eq_refl _)). unfold owner_inv. cbn. naive_solver.
  - (* rp_end_lsn *) eapply buffer_frame; [exact Hi|done|done|lock_cases|].
    intros b [= <-]. split; cbn; [done|done|lia|]. exists p. refine (conj Hp (conj eq_refl _)). unfold owner_inv. cbn.
    destruct B4 as (? & ? & B4). split; [done|]. split; [done|]. destruct locked.
    + destruct (locked_end _ _ _ _ _ _ _ start Hi eq_refl) as (? & ? & ?). split; [done|]. by right.
    + cbn. split; [left; lia|]. destruct (B4 eq_refl) as [?|[? Hd]]; [by left|right]. split; [done|].
      intros r Hr. specialize (Hd r Hr). apply list_elem_of_lookup_1 in Hr as [j Hr].
      pose proof (proj1 (ri_wal _ Hi) j r Hr). lia.
  - (* rp_apply *) destruct B4 as (Hin & [Hs Hc] & He & Hsure).
    destruct (apply_page_spec pg0 base Hbase L p start end_ (ri_wal _ Hi) Hp Hc) as (p' & Hp' & -> & Hce & Hcs & Hel).
    eapply buffer_frame; [exact Hi|done|done|lock_cases|].
    intros b [= <-]. split; cbn; [done|done|lia|]. exists p'. refine (conj _ (conj eq_refl _)); [lia|]. unfold owner_inv. cbn.
    split; [done|]. split; [split; [|done]|].
    + apply elem_of_cons in Hel as [->|Hel]; [done|]. apply elem_of_cons in Hel as [->|Hel]; [done|].
      apply list_elem_of_singleton in Hel as ->. by apply (settled_page _ _ _ _ _ _ _ _ Hi).
    + destruct Hsure as [?|[? Hall]]; [by left|right]. split; [done|].
      destruct (decide (p' = length L)); [done|]. destruct (lookup_lt_is_Some_2 L p') as [r Hr]; [lia|].
      specialize (Hce p' r Hr (Hall r (list_elem_of_lookup_2 _ _ _ Hr))). lia.
  - (* rp_round *) destruct (round_flags f) as (F1 & F2 & F3 & F4). destruct B4 as ([I1 I2] & Hf & Hsure).
    eapply buffer_frame; [exact Hi|done|done|lock_cases|].
    intros b [= <-]. split; cbn; [congruence|done|lia|]. exists p. refine (conj Hp (conj eq_refl _)). unfold owner_inv. cbn.
    rewrite F4, I2, andb_true_r. destruct (outdate f) eqn:Eo.
    + split; [|done]. split; [congruence|by rewrite F4].
    + destruct Hsure as [?|[? ->]]; [done|]. split; [split; [congruence|by rewrite F4]|done].
  - (* rp_unlock *) eapply buffer_frame; [exact Hi|by destruct locked|by destruct locked| |].
    { clear -Hl. destruct Hl as [? ? ? ?]. split; destruct locked, again; cbn in *; naive_solver. }
    intros b [= <-]. split; cbn; [done|done|lia|]. destruct again; by exists p.
Qed.

(** ** Backends that read and lock the page *)

Lemma io_preserves st st' : io_step pg0 st st' -> redo_inv st -> redo_inv st'.
Proof.
  intros Hstep Hi. pose proof (ri_locks _ Hi) as Hl. destruct Hstep.
  - (* io_start *) assert (Hz : start = sto_consist D \/ start = sto_redo D).
    { unfold polar_logindex_require_backend_redo in *. rewrite H, H0 in H3. cbn in H3.
      injection H3 as <- _. rewrite H1, H2. by destruct (_ && _); [left|right]. }
    destruct (proj2 (ri_storage _ Hi) start Hz) as [Hr Hc]. cbn in Hr, Hc.
    eapply buffer_frame; [exact Hi|done|done|cbn in Hl; lock_cases|].
    intros b [= <-]. split; cbn; [done|done|lia|]. split; [by left|done].
  - (* io_read *) destruct (ri_buf _ Hi _ eq_refl) as [B1 B2 B3 B4]; cbn in Hl, B1, B2, B3, B4.
    destruct B2 as [-> ->]; [done|]. destruct (ri_storage _ Hi) as [Hcnt _]. cbn in Hcnt.
    eapply buffer_frame; [exact Hi|done|done|lock_cases|].
    intros b [= <-]. split; cbn; [done|done|lia|]. by exists (sto_count D).
  - (* io_done *) destruct (ri_buf _ Hi _ eq_refl) as [B1 B2 B3 B4]; cbn in Hl, B1, B2, B3, B4.
    destruct B2 as [-> ->]; [done|]. destruct B4 as (p & Hp & -> & (? & ? & ? & ->)).
    destruct (ri_bg _ Hi) as [Hk _]. cbn in Hk.
    eapply buffer_frame; [exact Hi|done|done|lock_cases|].
    intros b [= <-]. split; cbn; [done|done|lia|]. exists (length L). refine (conj Hp (conj eq_refl _)).
    split; [done|by right].
Qed.

Lemma lock_preserves st st' : lock_step st st' -> redo_inv st -> redo_inv st'.
Proof.
  intros Hstep Hi. pose proof (ri_locks _ Hi) as Hl. destruct (ri_bg _ Hi) as (Hk & Hbs & Hbc & _).
  destruct Hstep; pose proof (ri_buf _ Hi _ eq_refl) as [B1 B2 B3 B4]; cbn in Hl, Hk, Hbs, Hbc, B1, B2, B3, B4.
  - (* lk_exclusive *) eapply buffer_frame; [exact Hi|done|done|lock_cases|].
    intros b [= <-]. by split.
  - (* lk_fresh *) destruct B2 as [-> ->]; [done|]. eapply buffer_frame; [exact Hi|done|done|lock_cases|].
    intros b [= <-]. split; cbn; [done|done|lia|].
    destruct B4 as (p & Hp & Hpg & ((? & ? & ? & ?) & [?|Hn])); [congruence|]. exists p. by rewrite <- Hpg.
  - (* lk_outdated *) destruct B2 as [-> ->]; [done|]. eapply buffer_frame; [exact Hi|done|done|lock_cases|].
    intros b [= <-]. split; cbn; [done|done|lia|].
    destruct B4 as (p & Hp & Hpg & ((? & ? & ? & ?) & _)). exists p. rewrite <- Hpg. split; [done|]. split; [done|].
    split; [done|]. by apply (covers_mono _ _ (bg_next G)).
  - (* lk_release *) destruct B2 as [-> ->]; [done|]. eapply buffer_frame; [exact Hi|done|done|lock_cases|].
    intros b [= <-]. split; cbn; [done|done|lia|]. destruct B4 as (p & Hp & Hpg & (? & ? & ? & ->)).
    exists (length L). rewrite <- Hpg. split; [done|]. split; [done|]. split; [done|by right].
  - (* lk_share *) eapply buffer_frame; [exact Hi|done|done|lock_cases|]. intros b [= <-]. by split.
  - (* lk_share_fresh *) destruct (decide (o = O_none)) as [->|Ho]; [|by destruct (B2 Ho)].
    eapply buffer_frame; [exact Hi|done|done|lock_cases|]. intros b [= <-]. by split.
  - (* lk_share_outdated *) destruct (decide (o = O_none)) as [->|Ho]; [|by destruct (B2 Ho)].
    eapply buffer_frame; [exact Hi|done|done|lock_cases|]. intros b [= <-]. by split.
  - (* lk_share_release *) destruct (decide (o = O_none)) as [->|Ho]; [|by destruct (B2 Ho)].
    eapply buffer_frame; [exact Hi|done|done|lock_cases|]. intros b [= <-]. split; cbn; [done|done| |done].
    intros Hn. apply B3. lia.
  - (* lk_evict *) eapply buffer_frame; [exact Hi|done|done|lock_cases|done].
Qed.

(** ** The background process and the primary *)

Lemma bg_frame L W s sl B G D B' G' :
  redo_inv (mk_rstate L W s sl B G D) -> buf_owner B' = buf_owner B \/ lock_inv s sl (buf_owner B') ->
  (bg_next G' <= length L)%nat -> settled W s (bg_lsn G') -> covers L (bg_lsn G') (bg_next G') ->
  (bg_pinned G' = true -> exists r, L !! bg_next G' = Some r /\ settled W s (w_start r)) ->
  (forall b, B' = Some b -> buf_inv L W s (bg_next G') (sto_count D) b) ->
  redo_inv (mk_rstate L W s sl B' G' D).
Proof.
  intros [H1 H2 H3 H4 H5 H6 H7 H8 H9] Hl ? ? ? ? Hb. cbn in *. split; cbn; try done.
  destruct Hl as [Hl|Hl]; [|done]. unfold buf_owner in *. by rewrite Hl.
Qed.

(** The record the background process is at. *)
Lemma bg_record L W s sl B G D r :
  redo_inv (mk_rstate L W s sl B G D) -> L !! bg_next G = Some r -> w_start r <= wp_read_ptr W ->
  settled W s (w_start r) /\ covers L (w_start r) (S (bg_next G)) /\ (S (bg_next G) <= length L)%nat.
Proof.
  intros [H1 H2 H3 H4 H5 H6 H7 H8 H9] Hr Hle. cbn in *. split_and!.
  - destruct H6 as [?|[? ?]]; [left; lia|right; split; [done|lia]].
  - intros i x Hx Hlt. destruct (decide (i < S (bg_next G))%nat); [done|].
    pose proof (proj2 H1 (bg_next G) i r x ltac:(lia) Hr Hx). pose proof (proj1 H1 _ _ Hr). lia.
  - by apply lookup_lt_Some in Hr.
Qed.

(** A buffer the background process leaves alone has the record, or the
    process that replays it will apply it. *)
Lemma skip_keeps L W s sl b k x D r :
  redo_inv (mk_rstate L W s sl (Some b) (mk_bg_state false k x) D) ->
  L !! k = Some r -> bg_wants b (w_start r) = false -> buf_inv L W s (S k) (sto_count D) b.
Proof.
  intros Hi Hr Hw. pose proof (ri_buf _ Hi _ eq_refl) as Hb. pose proof (ri_wal _ Hi) as HL. cbn in Hb, HL.
  pose proof (lookup_lt_Some _ _ _ Hr) as Hk. destruct Hb as [B1 B2 B3 B4].
  assert (Hskip : forall p, (p <= length L)%nat -> rb_page b = page_at pg0 L p -> rb_valid b = true ->
    resting (rb_flags b) -> (S k <= p)%nat).
  { intros p Hp Hpg Hv [Hio Hrp]. unfold bg_wants, polar_pin_buffer_for_replay, polar_buffer_need_replay in Hw.
    rewrite Hv, B1, Hrp in Hw. cbn in Hw. destruct (pg_new _ || pg_empty _); [done|].
    destruct (negb _ && _) eqn:E; [|done]. zbool. destruct (decide (S k <= p)%nat); [done|].
    pose proof (page_lsn_le pg0 base Hbase L p k r HL ltac:(lia) Hr). rewrite Hpg in *. lia. }
  split; [done..|]. destruct (rb_owner b) eqn:Eo; try done;
    destruct B4 as (p & Hp & Hpg & B4); exists p; (split; [done|]); (split; [done|]);
    unfold owner_inv in *; rewrite Eo in *; try done.
  all: destruct B4 as [(? & ? & ? & ?) ?]; split; [|done]; repeat (split; [done|]); by apply Hskip.
Qed.

(** The record is applied exactly when it is the next one of the page. *)
Lemma bg_applied L W s k f v p r :
  (p <= length L)%nat -> owner_inv L W s k (mk_redo_buf f v (page_at pg0 L p) O_bg 0 0) p ->
  L !! k = Some r -> wal_ok base L ->
  exists p', (p' <= length L)%nat /\
    polar_bg_redo_apply_read_record r (page_at pg0 L p) = page_at pg0 L p' /\
    owner_inv L W s (S k) (mk_redo_buf f v (page_at pg0 L p') O_none 0 0) p'.
Proof.
  intros Hp [(Hv & Hre & Hnp & Hkp) Ho] Hr HL. pose proof (lookup_lt_Some _ _ _ Hr) as Hk.
  unfold polar_bg_redo_apply_read_record, owner_inv. cbn in *. destruct (_ <=? _) eqn:E; zbool.
  - assert (p = k) as ->.
    { destruct (decide (p = k)); [done|]. pose proof (page_lsn_ge pg0 base Hbase L p k r HL ltac:(lia) Hp Hr).
      pose proof (proj1 HL k r Hr). lia. }
    exists (S k). split; [done|]. rewrite (page_at_S pg0 L k r Hr). split; [done|]. split; [done|].
    destruct Ho as [?|?]; [by left|lia].
  - exists p. split; [done|]. split; [done|]. split; [|done]. repeat (split; [done|]).
    destruct (decide (p = k)) as [->|]; [|lia].
    pose proof (page_lsn_le pg0 base Hbase L k k r HL ltac:(lia) Hr). lia.
Qed.

Lemma bg_preserves st st' : bg_step st st' -> redo_inv st -> redo_inv st'.
Proof.
  intros Hstep Hi. pose proof (ri_locks _ Hi) as Hl. destruct Hstep.
  - (* bg_other *) pose proof (ri_read_ptr _ Hi) as Hrp. destruct (ri_bg _ Hi) as (Hk & Hs & Hc & _). cbn in *.
    eapply bg_frame; [exact Hi|by left|done| | |done|].
    + cbn. destruct Hrp as [?|[? ?]]; [left; lia|right; split; [done|lia]].
    + intros i r Hr Hlt. destruct (decide (i < k)%nat); [done|].
      destruct (lookup_lt_is_Some_2 L k) as [y Hy]; [apply lookup_lt_Some in Hr; lia|].
      specialize (H0 y Hy). pose proof (ri_wal _ Hi) as [W1 W2]. cbn in *.
      destruct (decide (i = k)) as [->|]; [simplify_eq; lia|].
      pose proof (W1 k y Hy). pose proof (W2 k i y r ltac:(lia) Hy Hr). lia.
    + intros b ->. by apply (ri_buf _ Hi).
  - (* bg_absent *) destruct (bg_record _ _ _ _ _ _ _ r Hi H H0) as (? & ? & ?).
    by eapply bg_frame; [exact Hi|left|..].
  - (* bg_skip *) destruct (bg_record _ _ _ _ _ _ _ r Hi H H0) as (? & ? & ?).
    eapply bg_frame; [exact Hi|by left|done..|]. intros b' [= <-]. by eapply skip_keeps.
  - (* bg_evict *) destruct (bg_record _ _ _ _ _ _ _ r Hi H H0) as (? & ? & ?).
    by eapply bg_frame; [exact Hi|left|..].
  - (* bg_pin *) destruct (bg_record _ _ _ _ _ _ _ r Hi H H0) as (? & _ & _).
    destruct (ri_bg _ Hi) as (Hk & Hs & Hc & _).
    eapply bg_frame; [exact Hi|by left|done..| |]; [intros _; by exists r|]. intros b' [= <-]. by apply (ri_buf _ Hi).
  - (* bg_lock *) pose proof (ri_buf _ Hi _ eq_refl) as [B1 B2 B3 B4].
    eapply buffer_frame; [exact Hi|done|done|cbn in Hl; lock_cases|]. intros b' [= <-]. by split.
  - (* bg_apply *) pose proof (ri_buf _ Hi _ eq_refl) as [B1 B2 B3 B4]. cbn in *.
    destruct B2 as [-> ->]; [done|]. destruct B4 as (p & Hp & -> & B4).
    destruct (ri_bg _ Hi) as (_ & _ & _ & Hpin). destruct Hpin as (r' & Hr' & Hs); [done|]. cbn in Hr', Hs.
    rewrite H in Hr'. injection Hr' as <-. destruct (bg_applied L W s k f v p r Hp B4 H (ri_wal _ Hi)) as (p' & Hp' & Hpg & B4').
    eapply bg_frame; [exact Hi|right; cbn; lock_cases|..].
    + by apply lookup_lt_Some in H.
    + done.
    + cbn. apply (covers_le _ (w_end r)); [|by apply Z.lt_le_incl, (proj1 (ri_wal _ Hi) k)].
      intros i y Hy Hlt. destruct (decide (i < S k)%nat); [done|].
      pose proof (proj2 (ri_wal _ Hi) k i r y ltac:(lia) H Hy). lia.
    + done.
    + intros b [= <-]. split; cbn; [done|done|lia|]. exists p'. refine (conj _ (conj Hpg B4')). lia.
Qed.

Lemma storage_preserves st st' : storage_step st st' -> redo_inv st -> redo_inv st'.
Proof.
  intros Hstep [H1 H2 H3 H4 H5 H6 H7 H8 H9]. destruct Hstep; cbn in *.
  - split; cbn; try done.
    + destruct H8 as [? H8]. split; [lia|]. intros z Hz. destruct (H8 z Hz). split; [done|].
      eapply covers_mono; [done|lia].
    + intros b Hb. destruct (H9 b Hb) as [B1 B2 B3 B4]. split; [done..|].
      destruct (rb_owner b); try done. destruct B4. split; [done|]. eapply covers_mono; [done|lia].
  - split; cbn; try done. split; [by destruct H8|]. intros z Hz.
    assert (z <= Z.max x y) by (destruct Hz as [-> | ->]; lia).
    split; [destruct Hz as [-> | ->]; lia|]. intros i r Hr Hlt.
    match goal with H : forall _ _, _ -> _ < Z.max x y -> _ |- _ => apply (H i r Hr) end. lia.
Qed.

(** The invariant holds in every reachable state. *)
Lemma redo_inv_reachable st st' : rtc (rstep pg0) st st' -> redo_inv st -> redo_inv st'.
Proof.
  induction 1 as [|x y z Hxy _ IH]; [done|]. intros Hx. apply IH. destruct Hxy.
  - by eapply startup_preserves.
  - by eapply io_preserves.
  - by eapply replay_preserves.
  - by eapply lock_preserves.
  - by eapply bg_preserves.
  - by eapply storage_preserves.
Qed.
End inv.
