(* ===== verification/RedoTheorems.v ===== *)
(** * Properties of replaying a page on demand

    Whatever the interleaving, a process that got a page has it with every
    record the log index has for it; replay ends; and what an error during
    replay leaves behind. *)

From S2P Require Import Prelude RedoPage RedoReplay RedoSteps.

(** ** Where replay starts *)

(** The LSN that is announced for the backend, below which neither WAL nor
    log index is removed, is not behind the start of the replay. *)
Lemma announced_min_covers e start min_lsn :
  polar_logindex_require_backend_redo e = (true, start, Some min_lsn) ->
  XLogRecPtrIsInvalid (re_consist_lsn e) = false -> re_redo_lsn e <= re_consist_lsn e -> min_lsn <= start.
Proof.
  unfold polar_logindex_require_backend_redo. intros He Hv Hle. rewrite Hv in He. cbn in He.
  destruct (negb _); [destruct (_ && _)|destruct (re_standby_parallel e)]; simplify_eq; [lia|done|].
  destruct (re_streaming e); lia.
Qed.

(** What a replica reports to the primary is neither behind the consistent
    LSN nor behind what the background process is done with. *)
Lemma min_replay_from_bounds has_instance has_fullpage redo bg consist :
  let m := polar_logindex_redo_get_min_replay_from_lsn has_instance has_fullpage redo bg consist in
  m <= consist /\ (has_instance = true -> XLogRecPtrIsInvalid bg = false -> m <= bg).
Proof.
  simpl. unfold polar_logindex_redo_get_min_replay_from_lsn.
  destruct has_instance; cbn; [|by split; [lia|]]. split_ifs; zbool; split; try lia; intros _ Hb; try lia.
  all: rewrite Hb in *; cbn in *; zbool; lia.
Qed.

(** The minimum of two positions, one of which may be invalid, is a valid lower bound. *)
Lemma min_xlog_rec_ptr_valid a b : 0 <= a -> 0 <= b -> a <> 0 \/ b <> 0 ->
  let m := polar_min_xlog_rec_ptr a b in
  m <> 0 /\ (a <> 0 -> m <= a) /\ (b <> 0 -> m <= b) /\ m <= polar_max_xlog_rec_ptr a b.
Proof.
  intros Ha Hb Hab. simpl. unfold polar_min_xlog_rec_ptr, polar_max_xlog_rec_ptr, XLogRecPtrIsInvalid, InvalidXLogRecPtr.
  split_ifs; zbool; lia.
Qed.

(** In promotion a page is marked dirty exactly if replay may have changed
    it: its LSN is behind the start and not behind the end of the replayed WAL. *)
Lemma promote_marks_dirty {C} (pg : page C) replayed start :
  polar_promote_mark_buf_dirty POLAR_BG_ONLINE_PROMOTE replayed pg start = true <->
  start < pg_lsn pg <= replayed.
Proof. unfold polar_promote_mark_buf_dirty. cbn. split_ifs; zbool; split; intros; try done; lia. Qed.

(** ** The page a process uses *)

Section theorems.
Context {C : Type} `{!IdxRedo C}.

(** The processes that use a page: those with the content lock shared whose
    check passed, and the one that has the buffer after its replay. *)
Definition page_in_use (b : redo_buf C) : Prop := (0 < rb_readers b)%nat \/ rb_owner b = O_hold.

Lemma in_use_current pg0 L W s k m (b : redo_buf C) :
  buf_inv pg0 L W s k m b -> page_in_use b -> rb_page b = replayed_page pg0 L.
Proof.
  intros [H1 H2 H3 H4] Hu. rewrite <- page_at_full. destruct (decide (rb_owner b = O_none)) as [Ho|Ho].
  - destruct Hu as [Hr|?]; [|congruence]. rewrite Ho in H4. destruct H4 as (p & Hp & Hpg & H4).
    unfold owner_inv in H4. rewrite Ho in H4. destruct H4 as [_ [Hout|Hn]]; [|by subst p].
    rewrite (H3 Hr) in Hout. done.
  - destruct Hu as [Hr|Hh]; [destruct (H2 Ho); lia|]. rewrite Hh in H4. destruct H4 as (p & Hp & Hpg & H4).
    unfold owner_inv in H4. rewrite Hh in H4. by destruct H4 as (_ & _ & _ & ->).
Qed.

Lemma reachable_inv (pg0 : page C) read_ptr lsn st :
  pg_lsn pg0 <= lsn -> read_ptr <= lsn -> rtc (rstep pg0) (redo_init read_ptr lsn) st -> redo_inv pg0 lsn st.
Proof.
  intros Hl Hr Hrun. apply (redo_inv_reachable pg0 lsn Hl _ _ Hrun). by apply redo_inv_init.
Qed.

(** C3: However the startup process, backends, the background process and
    the primary interleave, a page that a process uses is the original page
    with every record applied that the log index has for it, in the order of the WAL. *)
Theorem replayed_page_current (pg0 : page C) read_ptr lsn st b :
  pg_lsn pg0 <= lsn -> read_ptr <= lsn ->
  rtc (rstep pg0) (redo_init read_ptr lsn) st -> rs_buf st = Some b -> page_in_use b ->
  rb_page b = replayed_page pg0 (rs_log st) /\ wal_ok lsn (rs_log st).
Proof.
  intros Hl Hr Hrun Hb Hu. pose proof (reachable_inv _ _ _ _ Hl Hr Hrun) as Hi.
  split; [|by apply (ri_wal _ Hi)]. eapply in_use_current; [|done]. by apply (ri_buf _ Hi).
Qed.

(** ** Replay ends *)

(** A round of the loop while the startup process waits for WAL. *)
Lemma replay_round (L : list wrec) W s sl f v (pg : page C) z c n G D :
  sl_started sl = false \/ sl_added sl = None ->
  exists z' pg', nsteps replay_step 5 (mk_rstate L W s sl (Some (mk_redo_buf f v pg (O_replay z) c n)) G D)
    (mk_rstate L W s sl
       (Some (mk_redo_buf (lock_apply_round f) v pg'
          (if replaying (lock_apply_round f) then O_replay z' else O_hold) c n)) G D).
Proof.
  intros Hn. eexists _, _. eapply nsteps_l; [by apply rp_no_slot|]. eapply nsteps_l; [apply rp_end_lsn|].
  eapply nsteps_l; [apply rp_apply|]. eapply nsteps_l; [apply rp_round|]. eapply nsteps_l; [apply rp_unlock|].
  apply nsteps_O.
Qed.

Lemma replay_step_det (st st1 st2 : rstate C) : replay_step st st1 -> replay_step st st2 -> st1 = st2.
Proof.
  intros H1 H2. destruct H1; inversion H2; subst; try done; try (by destruct_or!; congruence).
Qed.

(** A run of a deterministic relation to a state without a step has every
    other run as a prefix. *)
Lemma det_run {A} (R : A -> A -> Prop) N x y n z :
  (forall a b c, R a b -> R a c -> b = c) -> nsteps R N x y -> (forall w, ~ R y w) ->
  nsteps R n x z -> (n <= N)%nat /\ nsteps R (N - n) z y.
Proof.
  intros Hdet HN Hend. revert n z. induction HN as [x|N x x1 y H1 HN IH]; intros n z Hn.
  - inversion Hn as [|? ? ? ? Hs]; subst; [|by destruct (Hend _ Hs)]. split; [lia|apply nsteps_O].
  - inversion Hn as [|n' ? x2 ? Hs Hn']; subst; [split; [lia|by eapply nsteps_l]|].
    rewrite (Hdet _ _ _ Hs H1) in Hn'. destruct (IH Hend n' z Hn'). split; [lia|done].
Qed.

Lemma nsteps_rtc_of {A} (R : A -> A -> Prop) n x y : nsteps R n x y -> rtc R x y.
Proof. intros H. apply rtc_nsteps. by exists n. Qed.

Lemma replay_is_rstep pg0 (st st' : rstate C) : rtc replay_step st st' -> rtc (rstep pg0) st st'.
Proof. induction 1; [done|]. eapply rtc_l; [by apply r_replay|done]. Qed.

(** C31: a backend that replays a page gets it: when the startup process
    has ended its record and no other process interferes, the backend
    leaves the loop of [polar_logindex_lock_apply_page_from] after one or
    two rounds of five steps each, with the page current; every run of its
    steps is part of this one, so no run is longer and none ends
    elsewhere. *)
Theorem replay_completes (pg0 : page C) read_ptr lsn st b z :
  pg_lsn pg0 <= lsn -> read_ptr <= lsn ->
  rtc (rstep pg0) (redo_init read_ptr lsn) st ->
  rs_startup st = S_idle -> rs_buf st = Some b -> rb_owner b = O_replay z ->
  exists rounds st' b', (rounds = 1 \/ rounds = 2)%nat /\ nsteps replay_step (5 * rounds) st st' /\
    (forall n st'', nsteps replay_step n st st'' ->
       (n <= 5 * rounds)%nat /\ nsteps replay_step (5 * rounds - n) st'' st') /\
    rs_log st' = rs_log st /\ rs_buf st' = Some b' /\
    rb_owner b' = O_hold /\ rb_page b' = replayed_page pg0 (rs_log st).
Proof.
  intros Hl Hr Hrun Hs Hb Ho. pose proof (reachable_inv _ _ _ _ Hl Hr Hrun) as Hi.
  assert (Hsl : sl_started (rs_slot st) = false) by (pose proof (ri_startup _ Hi) as H; rewrite Hs in H; apply H).
  destruct st as [L W s sl B G D]. cbn in *. subst B s. destruct b as [f v pg o c n]. cbn in Ho. subst o.
  set (st := mk_rstate L W S_idle sl (Some (mk_redo_buf f v pg (O_replay z) c n)) G D) in *.
  assert (Hfin : forall k f' v' pg' c' n', (k = 1 \/ k = 2)%nat ->
    let b' := mk_redo_buf f' v' pg' O_hold c' n' in let st' := mk_rstate L W S_idle sl (Some b') G D in
    nsteps replay_step (5 * k) st st' -> exists rounds st' b', (rounds = 1 \/ rounds = 2)%nat /\
    nsteps replay_step (5 * rounds) st st' /\ (forall n st'', nsteps replay_step n st st'' ->
       (n <= 5 * rounds)%nat /\ nsteps replay_step (5 * rounds - n) st'' st') /\
    rs_log st' = L /\ rs_buf st' = Some b' /\ rb_owner b' = O_hold /\ rb_page b' = replayed_page pg0 L).
  { intros k f' v' pg' c' n' Hk b' st' HR. exists k, st', b'. split; [done|]. split; [done|]. split.
    { intros m st'' Hm. apply (det_run replay_step (5 * k) st st' m st'' replay_step_det HR); [|done].
      intros w Hw. inversion Hw. }
    split_and!; try done. change L with (rs_log st'). eapply in_use_current; [|by right].
    apply (ri_buf _ (reachable_inv pg0 read_ptr lsn st' Hl Hr
      ltac:(etrans; [done|by eapply replay_is_rstep, nsteps_rtc_of]))). done. }
  destruct (replay_round L W S_idle sl f v pg z c n G D (or_introl Hsl)) as (z1 & pg1 & R1).
  destruct (round_flags f) as (_ & F1 & _ & F2).
  destruct (replaying (lock_apply_round f)) eqn:E; [|by eapply (Hfin 1%nat); [left|exact R1]].
  destruct (replay_round L W S_idle sl (lock_apply_round f) v pg1 z1 c n G D (or_introl Hsl)) as (z2 & pg2 & R2).
  destruct (round_flags (lock_apply_round f)) as (_ & _ & _ & F3). rewrite F1 in F3. cbn in F3. rewrite F3 in R2.
  eapply (Hfin 2%nat); [by right|exact (nsteps_trans _ _ _ _ _ R1 R2)].
Qed.

(** ** Some runs *)

(** The startup process replays a record of the page that is not in the pool. *)
Lemma run_log_absent pg0 (L : list wrec) x y G D r :
  x <= w_start r < w_end r ->
  rtc (rstep pg0) (mk_rstate (C:=C) L (mk_wal_pos x x y) S_idle (mk_page_slot false None None) None G D)
    (mk_rstate (L ++ [r]) (mk_wal_pos (w_end r) (w_end r) (w_start r)) S_idle (mk_page_slot false None None) None G D).
Proof.
  intros Hr. eapply rtc_l; [apply r_startup, su_start; cbn; apply Hr|].
  eapply rtc_l; [by apply r_startup, su_lock|]. eapply rtc_l; [apply r_startup, su_no_buffer|].
  eapply rtc_l; [apply r_startup, su_add|]. eapply rtc_l; [apply r_startup, su_unlock|].
  eapply rtc_l; [apply r_startup, su_read_ptr|]. eapply rtc_l; [apply r_startup, su_replayed|].
  eapply rtc_l; [by apply r_startup, su_end|]. eapply rtc_l; [by apply r_startup, su_ended|]. apply rtc_refl.
Qed.

(** A record of a page that is in the pool and not in use. *)
Lemma run_log_present pg0 (L : list wrec) x y G D r f (pg : page C) :
  x <= w_start r < w_end r -> resting f ->
  rtc (rstep pg0)
    (mk_rstate L (mk_wal_pos x x y) S_idle (mk_page_slot false None None) (Some (mk_redo_buf f true pg O_none 0 0)) G D)
    (mk_rstate (L ++ [r]) (mk_wal_pos (w_end r) (w_end r) (w_start r)) S_idle (mk_page_slot false None None)
       (Some (mk_redo_buf (redo_set f POLAR_REDO_OUTDATE) true pg O_none 0 0)) G D).
Proof.
  intros Hr Hf. eapply rtc_l; [apply r_startup, su_start; cbn; apply Hr|].
  eapply rtc_l; [by apply r_startup, su_lock|].
  eapply rtc_l; [by eapply r_startup, (su_unlock_first _ _ _ _ _ _ _ false), resting_not_busy|].
  eapply rtc_l; [apply r_startup, su_content_lock|]. eapply rtc_l; [by apply r_startup, su_relock|].
  eapply rtc_l; [apply r_startup, su_content_add|]. eapply rtc_l; [apply r_startup, su_content_outdate|].
  eapply rtc_l; [apply r_startup, su_unlock|].
  eapply rtc_l; [apply r_startup, su_read_ptr|]. eapply rtc_l; [apply r_startup, su_replayed|].
  eapply rtc_l; [by apply r_startup, su_end|].
  eapply rtc_l; [apply r_startup, su_ended; [done|by intros b s [= <-]]|]. apply rtc_refl.
Qed.

(** A backend starts to read the page. *)
Lemma run_read pg0 (L : list wrec) W s sl G D (pg : page C) :
  rtc (rstep pg0) (mk_rstate L W s sl None G D)
    (mk_rstate L W s sl (Some (mk_redo_buf (lock_apply_begin 0) false (replayed_page pg0 (take (sto_count D) L))
       (O_replay (sto_redo D)) 0 0)) G D).
Proof.
  eapply rtc_l.
  { apply r_io, (io_start pg0 _ _ _ _ _ _ (mk_redo_env true false false POLAR_BG_RO_BUF_REPLAYING 0 0 (sto_consist D) (sto_redo D))
      (sto_redo D) (Some (sto_redo D)) pg); try done. unfold polar_logindex_require_backend_redo. cbn. by rewrite andb_false_r. }
  eapply rtc_l; [apply r_io, io_read|]. eapply rtc_l; [apply r_replay, rp_begin|]. apply rtc_refl.
Qed.
End theorems.

(** Pages that list the ends of the records applied to them. *)
#[export] Instance demo_redo : IdxRedo (list Z).
Proof.
  refine {| rm_polar_idx_redo := fun r pg =>
    if w_end r <=? pg_lsn pg then pg
    else mk_page (w_end r) false false (pg_data pg ++ [w_end r]) |}.
  - intros r pg H. by rewrite (proj2 (Z.leb_le _ _) H).
  - intros r pg H. by rewrite (proj2 (Z.leb_gt _ _) H).
Defined.

Definition demo_page0 : page (list Z) := mk_page 0 true false [].
Definition demo_rec1 : wrec := mk_wrec 100 130.
Definition demo_rec2 : wrec := mk_wrec 150 180.

(** The page was read and replayed with its first record. *)
Definition demo_read (owner : owner) (f : Z) (pg : page (list Z)) : rstate (list Z) :=
  mk_rstate [demo_rec1] (mk_wal_pos 130 130 100) S_idle (mk_page_slot false None None)
    (Some (mk_redo_buf f false pg owner 0 0)) (mk_bg_state false 0 90) (mk_storage 0 90 90).

Lemma demo_reading :
  rtc (rstep demo_page0) (redo_init 80 90) (demo_read (O_replay 90) (lock_apply_begin 0) demo_page0).
Proof.
  etrans; [apply (run_log_absent demo_page0 [] 90 80 _ _ demo_rec1); cbn; lia|].
  exact (run_read demo_page0 [demo_rec1] (mk_wal_pos 130 130 100) S_idle (mk_page_slot false None None)
    (mk_bg_state false 0 90) (mk_storage 0 90 90) demo_page0).
Qed.

Lemma demo_replayed :
  rtc (rstep demo_page0) (redo_init 80 90) (demo_read O_hold 4 (replayed_page demo_page0 [demo_rec1])).
Proof.
  etrans; [apply demo_reading|]. apply replay_is_rstep.
  eapply rtc_l; [apply rp_no_slot; by left|]. eapply rtc_l; [apply rp_end_lsn|].
  eapply rtc_l; [apply rp_apply|]. eapply rtc_l; [apply rp_round|]. eapply rtc_l; [apply rp_unlock|]. apply rtc_refl.
Qed.

Lemma replayed_page_current_witness :
  replayed_page demo_page0 [demo_rec1] = mk_page 130 false false [130] /\
  replayed_page demo_page0 [demo_rec1] = replayed_page demo_page0 [demo_rec1] /\ wal_ok 90 [demo_rec1].
Proof.
  split; [reflexivity|].
  apply (replayed_page_current demo_page0 80 90 _ (mk_redo_buf 4 false (replayed_page demo_page0 [demo_rec1]) O_hold 0 0)
    ltac:(simpl; lia) ltac:(lia) demo_replayed eq_refl). by right.
Defined.

Lemma replay_completes_witness :
  let st := demo_read (O_replay 90) (lock_apply_begin 0) demo_page0 in
  exists rounds st' b', (rounds = 1 \/ rounds = 2)%nat /\ nsteps replay_step (5 * rounds) st st' /\
    (forall n st'', nsteps replay_step n st st'' ->
       (n <= 5 * rounds)%nat /\ nsteps replay_step (5 * rounds - n) st'' st') /\
    rs_log st' = [demo_rec1] /\ rs_buf st' = Some b' /\ rb_owner b' = O_hold /\
    rb_page b' = replayed_page demo_page0 [demo_rec1].
Proof.
  apply (replay_completes demo_page0 80 90 _ (mk_redo_buf (lock_apply_begin 0) false demo_page0 (O_replay 90) 0 0) 90
    ltac:(simpl; lia) ltac:(lia) demo_reading eq_refl eq_refl eq_refl).
Defined.

(** ** An error during replay *)

(** C36: An error while a backend replays an outdated page, such as a block
    image that cannot be restored, loses the mark: the startup process is idle, no
    record is missing from the log index, and still a later reader finds the
    buffer fresh and uses a page without the last record. *)
Theorem abort_replay_loses_outdate :
  exists st1 st2 st3 b,
    rtc (rstep demo_page0) (redo_init 80 90) st1 /\ abort_step st1 st2 /\ rtc (rstep demo_page0) st2 st3 /\
    rs_startup st3 = S_idle /\ rs_log st3 = [demo_rec1; demo_rec2] /\
    rs_buf st3 = Some b /\ rb_valid b = true /\ rb_readers b = 1%nat /\
    rb_page b = replayed_page demo_page0 [demo_rec1] /\ rb_page b <> replayed_page demo_page0 (rs_log st3).
Proof.
  eexists _, _, _, _. split_and!.
  - etrans; [apply demo_replayed|]. eapply rtc_l; [apply r_io, io_done|].
    etrans; [apply (run_log_present demo_page0 [demo_rec1] 130 100 _ _ demo_rec2); [cbn; lia|done]|].
    eapply rtc_l; [apply r_lock, lk_exclusive|]. eapply rtc_l; [by apply r_lock, lk_outdated|].
    eapply rtc_l; [apply r_replay, rp_begin|]. eapply rtc_l; [apply r_replay, rp_no_slot; by left|].
    eapply rtc_l; [apply r_replay, rp_end_lsn|]. apply rtc_refl.
  - apply ab_replay.
  - eapply rtc_l; [apply r_lock, lk_share|]. eapply rtc_l; [by apply r_lock, lk_share_fresh|]. apply rtc_refl.
  - done.
  - done.
  - done.
  - done.
  - done.
  - done.
  - vm_compute. done.
Qed.
