(* ===== verification/RelSizeSearch.v ===== *)
(** * What the relation size cache stands for, and what a search finds

    A table stands for two lists of entries, and the tables that are kept for
    the lists one after the other.  A search goes back from the newest
    entry and stops at the first one that is not behind the given LSN. *)

From S2P Require Import Prelude BufTag RelSize.

(** ** Scanning a list from its newest entry *)

Inductive scan_result (A : Type) : Type := ScanFound (a : A) | ScanStop | ScanCont.
Arguments ScanFound {A} a.
Arguments ScanStop {A}.
Arguments ScanCont {A}.

Section scan.
Context {A : Type} (lsn_of : A -> Z) (p : A -> bool) (lsn : Z).

Fixpoint scan (l : list A) : scan_result A :=
  match l with
  | [] => ScanCont
  | a :: l => if lsn_of a <=? lsn then ScanStop else if p a then ScanFound a else scan l
  end.

(** Newest first. *)
Definition newest_first : list A -> Prop := StronglySorted (fun a b => lsn_of b <= lsn_of a).

Lemma scan_spec l : newest_first l ->
  match scan l with
  | ScanFound a => a ∈ l /\ p a = true /\ lsn < lsn_of a /\ forall b, b ∈ l -> p b = true -> lsn_of b <= lsn_of a
  | ScanStop => (exists a, a ∈ l /\ lsn_of a <= lsn) /\ forall b, b ∈ l -> p b = true -> lsn_of b <= lsn
  | ScanCont => forall b, b ∈ l -> p b = false
  end.
Proof.
  induction 1 as [|a l Hl IH Ha]; simpl; [intros b Hb; by apply not_elem_of_nil in Hb|].
  rewrite List.Forall_forall in Ha. setoid_rewrite <- list_elem_of_In in Ha.
  destruct (lsn_of a <=? lsn) eqn:E1; zbool.
  { split; [exists a; split; [set_solver|lia]|]. intros b [->|Hb]%elem_of_cons _; [lia|]. specialize (Ha b Hb). lia. }
  destruct (p a) eqn:E2.
  { split_and!; [set_solver|done|lia|]. intros b [->|Hb]%elem_of_cons _; [lia|auto]. }
  destruct (scan l).
  - destruct IH as (? & ? & ? & IH). split_and!; [set_solver|done..|].
    intros b [->|Hb]%elem_of_cons Hp; [congruence|auto].
  - destruct IH as [(b & ? & ?) IH]. split; [exists b; split; [set_solver|done]|].
    intros b' [->|Hb]%elem_of_cons Hp; [congruence|auto].
  - intros b [->|Hb]%elem_of_cons; auto.
Qed.
End scan.

(** ** Tables *)

(** The entries of a table, oldest first, and its largest LSN. *)
Record rel_entries := mk_entries {
  re_rels : list polar_relation_size_t; re_dbs : list polar_database_state_t; re_max : Z }.

(** The entries are ordered and not behind [re_max]; only creations and drops of
    databases are recorded. *)
Record entries_ok (x : rel_entries) : Prop := {
  eo_rels : newest_first rz_lsn (rev (re_rels x));
  eo_dbs : newest_first ds_lsn (rev (re_dbs x));
  eo_rel_lsn : forall e, e ∈ re_rels x -> 0 < rz_lsn e <= re_max x;
  eo_db_lsn : forall d, d ∈ re_dbs x -> 0 < ds_lsn d <= re_max x;
  eo_db_state : forall d, d ∈ re_dbs x -> ds_state d = POLAR_DB_NEW \/ ds_state d = POLAR_DB_DROPED }.

Record table_repr (t : polar_rel_size_table_t) (tid : Z) (x : rel_entries) : Prop := {
  tr_tid : rt_tid t = tid;
  tr_rel_tail : rt_rel_tail t = 32 * Z.of_nat (length (re_rels x));
  tr_db_tail : rt_db_tail t = 8160 - 24 * Z.of_nat (length (re_dbs x));
  tr_apart : rt_rel_tail t <= rt_db_tail t;
  tr_max : rt_max_lsn t = re_max x;
  tr_rels : forall i e, re_rels x !! i = Some e -> rt_rel_info t !! (32 * Z.of_nat i) = Some e;
  tr_dbs : forall i d, re_dbs x !! i = Some d -> rt_db_info t !! (8160 - 24 * (Z.of_nat i + 1)) = Some d }.

Lemma elem_of_rev {A} (l : list A) a : a ∈ rev l <-> a ∈ l.
Proof. by rewrite !list_elem_of_In, <- in_rev. Qed.

Lemma rev_take_S {A} (l : list A) k a : l !! k = Some a -> rev (take (S k) l) = a :: rev (take k l).
Proof. intros H. by rewrite (take_S_r _ _ _ H), rev_app_distr. Qed.

Lemma search_db_scan t tid x lsn spc db result k fuel :
  table_repr t tid x -> (k <= length (re_dbs x))%nat -> (k <= fuel)%nat ->
  search_db_loop fuel t lsn spc db (8160 - 24 * Z.of_nat k) result =
  Done (match scan ds_lsn (fun d => (ds_db d =? db) && (ds_spc d =? spc)) lsn (rev (take k (re_dbs x))) with
        | ScanFound d => mk_search_result (ds_state d) (ds_lsn d) (sr_ignore_error result)
        | _ => result
        end).
Proof.
  intros Ht. revert fuel. induction k as [|k IH]; intros fuel Hk Hf.
  { destruct fuel; reflexivity. }
  destruct fuel as [|fuel]; [lia|]. destruct (lookup_lt_is_Some_2 (re_dbs x) k) as [d Hd]; [lia|].
  rewrite (rev_take_S _ _ _ Hd). cbn [search_db_loop scan].
  replace (8160 - 24 * Z.of_nat (S k)) with (8160 - 24 * (Z.of_nat k + 1)) by lia.
  rewrite (tr_dbs _ _ _ Ht k d Hd). cbn [from_option id].
  rewrite (proj2 (Z.ltb_lt _ _)) by (unfold REL_INFO_TOTAL_SIZE, POLAR_REL_CACHE_TABLE_SIZE; lia).
  destruct (ds_lsn d <=? lsn); [done|]. destruct (_ && _); [done|].
  replace (8160 - 24 * (Z.of_nat k + 1) + sizeof_database_state) with (8160 - 24 * Z.of_nat k)
    by (unfold sizeof_database_state; lia).
  apply IH; lia.
Qed.

Lemma search_truncate_scan t tid x min_tid lsn tag result k fuel :
  table_repr t tid x -> (k <= length (re_rels x))%nat -> (k <= fuel)%nat ->
  search_truncate_loop fuel t min_tid lsn tag (32 * Z.of_nat k) result =
  Done (match scan rz_lsn (rel_truncates tag) lsn (rev (take k (re_rels x))) with
        | ScanFound e => (END, mk_search_result POLAR_DB_BLOCK_TRUNCATED (rz_lsn e) (sr_ignore_error result))
        | ScanStop => (END, result)
        | ScanCont => (if tid >? min_tid then NEXT else END, result)
        end).
Proof.
  intros Ht. revert fuel. induction k as [|k IH]; intros fuel Hk Hf.
  { rewrite <- (tr_tid _ _ _ Ht). destruct fuel; reflexivity. }
  destruct fuel as [|fuel]; [lia|]. destruct (lookup_lt_is_Some_2 (re_rels x) k) as [d Hd]; [lia|].
  rewrite (rev_take_S _ _ _ Hd). cbn [search_truncate_loop scan].
  replace (32 * Z.of_nat (S k) - sizeof_relation_size) with (32 * Z.of_nat k) by (unfold sizeof_relation_size; lia).
  rewrite (tr_rels _ _ _ Ht k d Hd). cbn [from_option id].
  rewrite Z.gtb_ltb, (proj2 (Z.ltb_lt _ _)) by lia.
  destruct (rz_lsn d <=? lsn); [done|]. destruct (rel_truncates tag d); [done|]. apply IH; lia.
Qed.

(** ** The history of the cache *)

(** The tables that are kept, oldest first. *)
Record history_ok (T : list rel_entries) : Prop := {
  ho_tables : forall x, x ∈ T -> entries_ok x;
  ho_order : forall i j x y, (i < j)%nat -> T !! i = Some x -> T !! j = Some y ->
    re_max x <= re_max y /\
    (forall e, e ∈ re_rels y -> re_max x <= rz_lsn e) /\ (forall d, d ∈ re_dbs y -> re_max x <= ds_lsn d) }.

Definition all_rels (T : list rel_entries) : list polar_relation_size_t := T ≫= re_rels.
Definition all_dbs (T : list rel_entries) : list polar_database_state_t := T ≫= re_dbs.

Lemma elem_of_rels T e : e ∈ all_rels T <-> exists x, x ∈ T /\ e ∈ re_rels x.
Proof. unfold all_rels. rewrite list_elem_of_bind. naive_solver. Qed.

Lemma elem_of_dbs T d : d ∈ all_dbs T <-> exists x, x ∈ T /\ d ∈ re_dbs x.
Proof. unfold all_dbs. rewrite list_elem_of_bind. naive_solver. Qed.

Section search.
Context (lsn : Z) (tag : BufferTag).

(** The entry is about the database of the block. *)
Definition db_matches (d : polar_database_state_t) : bool := (ds_db d =? dbOid tag) && (ds_spc d =? spcOid tag).

(** No truncation cuts the block off after [lsn]. *)
Definition not_truncated (N : list rel_entries) : Prop :=
  forall e, e ∈ all_rels N -> rel_truncates tag e = true -> rz_lsn e <= lsn.

(** The newest entry about the database after [lsn]. *)
Definition last_db_event (N : list rel_entries) (st : polar_db_state_t) (l : Z) : Prop :=
  (exists d, d ∈ all_dbs N /\ db_matches d = true /\ ds_state d = st /\ ds_lsn d = l) /\ lsn < l /\
  forall d, d ∈ all_dbs N -> db_matches d = true -> ds_lsn d <= l.

(** The newest truncation that cuts the block off after [lsn]. *)
Definition last_truncation (N : list rel_entries) (l : Z) : Prop :=
  (exists e, e ∈ all_rels N /\ rel_truncates tag e = true /\ rz_lsn e = l) /\ lsn < l /\
  forall e, e ∈ all_rels N -> rel_truncates tag e = true -> rz_lsn e <= l.

(** The newest event of the database is not a drop behind [l]. *)
Definition no_drop_behind (N : list rel_entries) (l : Z) : Prop :=
  forall l', last_db_event N POLAR_DB_DROPED l' -> l' <= l \/ last_db_event N POLAR_DB_NEW l'.

(** What a result says of the history [N]. *)
Definition search_says (N : list rel_entries) (st : polar_db_state_t) (l : Z) : Prop :=
  match st with
  | POLAR_DB_NOTFOUND =>
      not_truncated N /\ forall d, d ∈ all_dbs N -> db_matches d = true -> ds_lsn d <= lsn
  | POLAR_DB_NEW => not_truncated N /\ last_db_event N POLAR_DB_NEW l
  | POLAR_DB_BLOCK_TRUNCATED => last_truncation N l /\ no_drop_behind N l
  | POLAR_DB_DROPED => last_db_event N POLAR_DB_DROPED l
  end.

(** Everything in the tables [O] is not behind [b]. *)
Definition not_behind (O : list rel_entries) (b : Z) : Prop :=
  (forall e, e ∈ all_rels O -> rz_lsn e <= b) /\ (forall d, d ∈ all_dbs O -> ds_lsn d <= b).

Lemma no_drop_extend O N l :
  no_drop_behind N l -> (forall d, d ∈ all_dbs O -> ds_lsn d <= l) -> no_drop_behind (O ++ N) l.
Proof.
  assert (Hd : forall d, d ∈ all_dbs (O ++ N) <-> d ∈ all_dbs O \/ d ∈ all_dbs N).
  { intros e. unfold all_dbs. by rewrite bind_app, elem_of_app. }
  intros Hn Ho l' ((d & [Hin|Hin]%Hd & Hm & Hst & <-) & Hlt & Hmax); [left; by apply Ho|].
  destruct (Hn (ds_lsn d)) as [?|((d2 & Hd2 & Hm2 & Hs2 & E2) & _ & _)]; [|by left|].
  - split; [by exists d|]. split; [done|]. intros d' Hd' Hm'. apply Hmax; [|done]. apply Hd. by right.
  - right. split; [|done]. exists d2. split; [|done]. apply Hd. by right.
Qed.

Lemma says_extend O N st l :
  search_says N st l ->
  not_behind O (match st with POLAR_DB_NOTFOUND | POLAR_DB_NEW => lsn | _ => l end) ->
  search_says (O ++ N) st l.
Proof.
  assert (Hr : forall e, e ∈ all_rels (O ++ N) <-> e ∈ all_rels O \/ e ∈ all_rels N).
  { intros e. unfold all_rels. by rewrite bind_app, elem_of_app. }
  assert (Hd : forall d, d ∈ all_dbs (O ++ N) <-> d ∈ all_dbs O \/ d ∈ all_dbs N).
  { intros e. unfold all_dbs. by rewrite bind_app, elem_of_app. }
  intros Hs [H1 H2]. assert (st = POLAR_DB_BLOCK_TRUNCATED \/ st <> POLAR_DB_BLOCK_TRUNCATED) as [->|Hst] by (destruct st; auto).
  { destruct Hs as [[(e & ? & ? & ?) [S2 S3]] S4]. split; [|by apply no_drop_extend].
    split; [exists e; rewrite Hr; auto|]. split; [done|]. intros e' [?|?]%Hr ?; auto. }
  destruct st; try done; unfold search_says, not_truncated, last_db_event, last_truncation in *;
    setoid_rewrite Hr || idtac; setoid_rewrite Hd || idtac.
  - destruct Hs as [S1 S2]. split; [intros e [?|?] ?|intros d [?|?] ?]; auto.
  - destruct Hs as [S1 [(d & ? & ? & ? & ?) [S2 S3]]]. split; [intros e [?|?] ?; auto|].
    split; [exists d; auto|]. split; [done|]. intros d' [Hd'|?] ?; [|auto]. specialize (H2 _ Hd'). lia.
  - destruct Hs as [(d & ? & ? & ? & ?) [S2 S3]]. split; [exists d; auto|]. split; [done|]. intros d' [?|?] ?; auto.
Qed.
End search.

(** Older tables have only older entries. *)
Lemma older_tables T k x b :
  history_ok T -> T !! k = Some x ->
  (re_max x <= b \/ (exists e, e ∈ re_rels x /\ rz_lsn e <= b) \/ (exists d, d ∈ re_dbs x /\ ds_lsn d <= b)) ->
  not_behind (take k T) b.
Proof.
  intros [H1 H2] Hx Hb.
  assert (Hall : forall y, y ∈ take k T -> entries_ok y /\ re_max y <= b).
  { intros y [i Hi]%list_elem_of_lookup_1. apply lookup_take_Some in Hi as [Hi Hlt].
    split; [apply H1; by eapply list_elem_of_lookup_2|].
    destruct (H2 i k y x Hlt Hi Hx) as (M1 & M2 & M3).
    destruct Hb as [?|[(e & He & ?)|(d & Hd & ?)]]; [lia|specialize (M2 e He); lia|specialize (M3 d Hd); lia]. }
  split.
  - intros e (y & Hy & He)%elem_of_rels. destruct (Hall y Hy) as [Ho ?]. pose proof (eo_rel_lsn _ Ho e He). lia.
  - intros d (y & Hy & Hd)%elem_of_dbs. destruct (Hall y Hy) as [Ho ?]. pose proof (eo_db_lsn _ Ho d Hd). lia.
Qed.

Lemma rels_cons x N e : e ∈ all_rels (x :: N) <-> e ∈ re_rels x \/ e ∈ all_rels N.
Proof. unfold all_rels. rewrite bind_cons. apply elem_of_app. Qed.
Lemma dbs_cons x N d : d ∈ all_dbs (x :: N) <-> d ∈ re_dbs x \/ d ∈ all_dbs N.
Proof. unfold all_dbs. rewrite bind_cons. apply elem_of_app. Qed.

(** Newer tables have only newer entries. *)
Lemma newer_dbs T k x d : history_ok T -> T !! k = Some x -> d ∈ all_dbs (drop (S k) T) -> re_max x <= ds_lsn d.
Proof.
  intros [_ H] Hx (y & [i Hi]%list_elem_of_lookup_1 & Hd)%elem_of_dbs. rewrite lookup_drop in Hi.
  destruct (H k (S k + i)%nat x y) as (_ & _ & Hc); [lia|done..|auto].
Qed.

Lemma last_db_event_unique lsn tag N st st' l l' :
  last_db_event lsn tag N st l -> last_db_event lsn tag N st' l' -> l = l'.
Proof.
  intros ((d & Hd & Hm & _ & <-) & _ & Hmax) ((d' & Hd' & Hm' & _ & <-) & _ & Hmax').
  specialize (Hmax d' Hd' Hm'). specialize (Hmax' d Hd Hm). lia.
Qed.

Section tables.
Context (lsn : Z) (tag : BufferTag).

(** The part of the search that looks for the database. *)
Lemma db_step T k x t tid r :
  history_ok T -> T !! k = Some x -> table_repr t tid x ->
  sr_state r = POLAR_DB_NOTFOUND -> search_says lsn tag (drop (S k) T) POLAR_DB_NOTFOUND (sr_lsn r) ->
  exists st l, polar_search_db_state t lsn (spcOid tag) (dbOid tag) r =
      Done (mk_search_result st l (sr_ignore_error r)) /\
    ((st = POLAR_DB_NOTFOUND /\ forall d, d ∈ all_dbs (x :: drop (S k) T) -> db_matches tag d = true -> ds_lsn d <= lsn) \/
     ((st = POLAR_DB_NEW \/ st = POLAR_DB_DROPED) /\ last_db_event lsn tag (x :: drop (S k) T) st l /\
      not_behind (take k T) l)).
Proof.
  intros HT Hx Ht Hr [Hnt Hnd]. pose proof (ho_tables _ HT x (list_elem_of_lookup_2 _ _ _ Hx)) as Ho.
  unfold polar_search_db_state.
  replace (rt_db_tail t) with (8160 - 24 * Z.of_nat (length (re_dbs x))) by (symmetry; apply (tr_db_tail _ _ _ Ht)).
  rewrite (search_db_scan t tid x) by
    (first [done | unfold REL_INFO_TOTAL_SIZE, POLAR_REL_CACHE_TABLE_SIZE; lia]).
  rewrite firstn_all. change (fun d => _ && _) with (db_matches tag).
  pose proof (scan_spec ds_lsn (db_matches tag) lsn _ (eo_dbs _ Ho)) as Hs.
  destruct (scan _ _ _ _) as [d| |]; eexists _, _; (split; [reflexivity|]).
  - destruct Hs as (Hd & Hm & Hlt & Hmax). rewrite elem_of_rev in Hd.
    right. split; [by apply (eo_db_state _ Ho)|]. split.
    + split; [exists d; rewrite dbs_cons; auto|]. split; [done|].
      intros d' [Hd'|Hd']%dbs_cons Hm'; [apply Hmax; [by rewrite elem_of_rev|done]|].
      specialize (Hnd d' Hd' Hm'). lia.
    + apply (older_tables T k x); [done..|]. right. right. exists d. split; [done|lia].
  - destruct Hs as [_ Hs]. left. split; [done|]. intros d' [Hd'|Hd']%dbs_cons Hm'; [|auto].
    apply Hs; [by rewrite elem_of_rev|done].
  - left. split; [done|]. intros d' [Hd'|Hd']%dbs_cons Hm'; [|auto].
    rewrite Hs in Hm'; [done|by rewrite elem_of_rev].
Qed.

(** The part that looks for a truncation, with what is known of the database. *)
Lemma truncate_step c T k x t tid st l ign :
  history_ok T -> T !! k = Some x -> table_repr t tid x -> not_truncated lsn tag (drop (S k) T) ->
  (st = POLAR_DB_NOTFOUND /\ (forall d, d ∈ all_dbs (x :: drop (S k) T) -> db_matches tag d = true -> ds_lsn d <= lsn) \/
   st = POLAR_DB_NEW /\ last_db_event lsn tag (x :: drop (S k) T) st l) ->
  exists go st' l', polar_search_truncate_info c t lsn tag (mk_search_result st l ign) =
      Done (go, mk_search_result st' l' ign) /\
    search_says lsn tag (x :: drop (S k) T) st' l' /\
    match go with
    | END => tid <= rc_min_tid c \/
        not_behind (take k T) (match st' with POLAR_DB_NOTFOUND | POLAR_DB_NEW => lsn | _ => l' end)
    | NEXT => rc_min_tid c < tid /\ (st' = POLAR_DB_NOTFOUND \/ st' = POLAR_DB_NEW)
    end.
Proof.
  intros HT Hx Ht Hnt Hdb. pose proof (ho_tables _ HT x (list_elem_of_lookup_2 _ _ _ Hx)) as Ho.
  unfold polar_search_truncate_info.
  replace (rt_rel_tail t) with (32 * Z.of_nat (length (re_rels x))) by (symmetry; apply (tr_rel_tail _ _ _ Ht)).
  rewrite (search_truncate_scan t tid x) by (first [done | lia]). rewrite firstn_all.
  pose proof (scan_spec rz_lsn (rel_truncates tag) lsn _ (eo_rels _ Ho)) as Hs.
  assert (Hsay : not_truncated lsn tag (x :: drop (S k) T) -> search_says lsn tag (x :: drop (S k) T) st l).
  { intros Hn. destruct Hdb as [[-> ?]|[-> ?]]; by split. }
  destruct (scan _ _ _ _) as [e| |]; eexists _, _, _; (split; [reflexivity|]).
  - destruct Hs as (He & Hm & Hlt & Hmax). rewrite elem_of_rev in He. split.
    + split; [split; [exists e; rewrite rels_cons; auto|]; split; [done|]|].
      * intros e' [He'|He']%rels_cons Hm'; [apply Hmax; [by rewrite elem_of_rev|done]|].
        specialize (Hnt e' He' Hm'). lia.
      * intros l' Hl'. destruct Hdb as [[_ Hno]|[-> Hnew]].
        -- destruct Hl' as ((d & Hd & Hmd & _ & <-) & Hlt' & _). specialize (Hno d Hd Hmd). lia.
        -- right. by rewrite (last_db_event_unique _ _ _ _ _ _ _ Hl' Hnew).
    + right. apply (older_tables T k x); [done..|]. right. left. exists e. split; [done|lia].
  - destruct Hs as [(e & He & Hle) Hs]. rewrite elem_of_rev in He. split.
    + apply Hsay. intros e' [He'|He']%rels_cons Hm'; [apply Hs; [by rewrite elem_of_rev|done]|by apply Hnt].
    + right. destruct Hdb as [[-> _]|[-> _]]; apply (older_tables T k x); try done; right; left; by exists e.
  - split.
    + apply Hsay. intros e' [He'|He']%rels_cons Hm'; [|by apply Hnt]. rewrite Hs in Hm'; [done|by rewrite elem_of_rev].
    + cbn [fst snd]. destruct (tid >? rc_min_tid c) eqn:E; zbool; [|left; lia]. split; [lia|]. destruct Hdb as [[? _]|[? _]]; auto.
Qed.

(** One table. *)
Lemma table_step c T k x t tid st l ign :
  history_ok T -> T !! k = Some x -> table_repr t tid x ->
  st = POLAR_DB_NOTFOUND \/ st = POLAR_DB_NEW -> search_says lsn tag (drop (S k) T) st l ->
  match polar_check_table_rel_size c t lsn tag (mk_search_result st l ign) with
  | Done (END, r) => search_says lsn tag (x :: drop (S k) T) (sr_state r) (sr_lsn r) /\
      (tid <= rc_min_tid c \/ not_behind (take k T)
         (match sr_state r with POLAR_DB_NOTFOUND | POLAR_DB_NEW => lsn | _ => sr_lsn r end))
  | Done (NEXT, r) => search_says lsn tag (x :: drop (S k) T) (sr_state r) (sr_lsn r) /\ rc_min_tid c < tid /\
      (sr_state r = POLAR_DB_NOTFOUND \/ sr_state r = POLAR_DB_NEW) /\ sr_ignore_error r = ign
  | Fault f => f = PANIC /\ ign = false /\ exists l', last_db_event lsn tag (x :: drop (S k) T) POLAR_DB_NEW l' /\
      not_behind (take k T) l'
  end.
Proof.
  intros HT Hx Ht Hst Hsay. pose proof (ho_tables _ HT x (list_elem_of_lookup_2 _ _ _ Hx)) as Ho.
  unfold polar_check_table_rel_size. rewrite (tr_max _ _ _ Ht).
  destruct (lsn >? re_max x) eqn:E; zbool.
  { (* everything from here on is older *)
    assert (Hx1 : not_behind [x] lsn).
    { split; [intros e He|intros d Hd]; [rewrite rels_cons in He|rewrite dbs_cons in Hd].
      - destruct He as [He|He]; [|by apply not_elem_of_nil in He]. pose proof (eo_rel_lsn _ Ho e He). lia.
      - destruct Hd as [Hd|Hd]; [|by apply not_elem_of_nil in Hd]. pose proof (eo_db_lsn _ Ho d Hd). lia. }
    cbn [sr_state sr_lsn]. split.
    - apply (says_extend lsn tag [x]); [done|]. by destruct Hst as [-> | ->].
    - right. destruct Hst as [-> | ->]; (apply (older_tables T k x); [done..|left; lia]). }
  destruct Hst as [-> | ->]; cbn [sr_state].
  - destruct (db_step T k x t tid (mk_search_result POLAR_DB_NOTFOUND l ign) HT Hx Ht eq_refl Hsay) as (st & l' & -> & Hc).
    cbn [obind sr_state sr_ignore_error sr_lsn]. destruct Hsay as [Hnt Hnd].
    destruct Hc as [[-> Hd]|([-> | ->] & Hl & Hold)].
    + destruct (truncate_step c T k x t tid POLAR_DB_NOTFOUND l' ign HT Hx Ht Hnt ltac:(by left))
        as (go & st' & l'' & -> & ? & Hgo). cbn [obind sr_state sr_lsn sr_ignore_error]. destruct go; naive_solver.
    + destruct (negb ign && (lsn <? l')) eqn:Ep; zbool; [split_and!; [done|done|by exists l']|].
      destruct (truncate_step c T k x t tid POLAR_DB_NEW l' ign HT Hx Ht Hnt ltac:(by right))
        as (go & st' & l'' & -> & ? & Hgo). cbn [obind sr_state sr_lsn sr_ignore_error]. destruct go; naive_solver.
    + destruct Hl as (? & Hlt & ?).
      destruct (negb ign && (lsn >=? l')) eqn:Ep; zbool; [lia|]. cbn [sr_state sr_lsn]. split; [by split|by right].
  - cbn [obind sr_state sr_ignore_error sr_lsn]. destruct Hsay as [Hnt Hl].
    assert (Hl' : last_db_event lsn tag (x :: drop (S k) T) POLAR_DB_NEW l /\ not_behind (take k T) l).
    { destruct Hl as ((d & Hd & Hm & Hs & <-) & Hlt & Hmax).
      assert (re_max x <= ds_lsn d) by (by eapply newer_dbs). split; [split; [|split; [done|]]|].
      - exists d. rewrite dbs_cons. auto.
      - intros d' [Hd'|Hd']%dbs_cons Hm'; [|auto]. pose proof (eo_db_lsn _ Ho d' Hd'). lia.
      - apply (older_tables T k x); [done..|]. by left. }
    destruct Hl' as [Hl' Hold].
    destruct (negb ign && (lsn <? l)) eqn:Ep; zbool; [split_and!; [done|done|by exists l]|].
    destruct (truncate_step c T k x t tid POLAR_DB_NEW l ign HT Hx Ht Hnt ltac:(by right))
      as (go & st' & l'' & -> & ? & Hgo). cbn [obind sr_state sr_lsn sr_ignore_error]. destruct go; naive_solver.
Qed.
End tables.
