(* ===== verification/RelSizeTheorems.v ===== *)
(** * Properties of the relation size cache

    Recording adds an entry to the history the cache stands for, truncation
    takes away only old entries, and a check of a block finds the newest
    entry about it. *)

From S2P Require Import Prelude BufTag RelSize RelSizeSearch.

(** ** The cache stands for a history *)

Definition top_tid (c : polar_rel_size_cache_data_t) (T : list rel_entries) : Z :=
  rc_min_tid c + Z.of_nat (length T) - 1.

(** The tables from [min_tid] to the active one have the entries [T]. *)
Record cache_repr (c : polar_rel_size_cache_data_t) (T : list rel_entries) : Prop := {
  cr_history : history_ok T;
  cr_some : (0 < length T)%nat;
  cr_min : 1 <= rc_min_tid c;
  cr_size : 0 < rc_table_size c;
  cr_active : rc_active_mid c = (top_tid c T - 1) mod rc_table_size c;
  cr_active_tid : rt_tid (REL_SIZE_CACHE_TABLE c (rc_active_mid c)) = top_tid c T;
  cr_get : forall k x, T !! k = Some x -> exists t,
    polar_get_rel_size_table c (rc_min_tid c + Z.of_nat k) = Done t /\ table_repr t (rc_min_tid c + Z.of_nat k) x;
  cr_slots : forall mid, 0 <= mid < rc_table_size c ->
    let t := REL_SIZE_CACHE_TABLE c mid in
    rt_tid t = 0 \/ ((rt_tid t - 1) mod rc_table_size c = mid /\ 0 < rt_tid t <= top_tid c T);
  cr_used : forall x, last T = Some x -> re_max x = 0 -> T = [mk_entries [] [] 0] }.

Lemma cr_last c T : cache_repr c T -> exists x, last T = Some x /\ T !! (length T - 1)%nat = Some x /\
  table_repr (REL_SIZE_CACHE_TABLE c (rc_active_mid c)) (top_tid c T) x.
Proof.
  intros H. pose proof (cr_some _ _ H). destruct (lookup_lt_is_Some_2 T (length T - 1)) as [x Hx]; [lia|].
  exists x. split; [rewrite last_lookup; by replace (pred (length T)) with (length T - 1)%nat by lia|].
  split; [done|]. destruct (cr_get _ _ H _ _ Hx) as (t & Ht & Hr).
  replace (rc_min_tid c + Z.of_nat (length T - 1)) with (top_tid c T) in * by (unfold top_tid; lia).
  unfold polar_get_rel_size_table in Ht. rewrite <- (cr_active _ _ H), (cr_active_tid _ _ H), Z.eqb_refl in Ht.
  by injection Ht as ->.
Qed.

(** ** Checking a block *)

Lemma check_tables c T lsn tag k x t st l ign fuel :
  cache_repr c T -> T !! k = Some x -> table_repr t (rc_min_tid c + Z.of_nat k) x -> (k < fuel)%nat ->
  st = POLAR_DB_NOTFOUND \/ st = POLAR_DB_NEW -> search_says lsn tag (drop (S k) T) st l ->
  match check_tables_loop fuel c t lsn tag (mk_search_result st l ign) with
  | Done r => search_says lsn tag T (sr_state r) (sr_lsn r)
  | Fault f => f = PANIC /\ ign = false /\ exists l', last_db_event lsn tag T POLAR_DB_NEW l'
  end.
Proof.
  intros Hc. revert x t st l fuel. induction k as [k IH] using lt_wf_ind; intros x t st l fuel Hx Ht Hf Hst Hsay.
  destruct fuel as [|fuel]; [lia|]. cbn [check_tables_loop].
  pose proof (table_step lsn tag c T k x t _ st l ign (cr_history _ _ Hc) Hx Ht Hst Hsay) as Hstep.
  assert (HT : T = take k T ++ x :: drop (S k) T) by (by rewrite take_drop_middle).
  destruct (polar_check_table_rel_size _ _ _ _ _) as [[[] r]|f]; cbn [obind].
  - destruct Hstep as (Hs & Hlt & Hr & <-). rewrite (tr_tid _ _ _ Ht), Z.gtb_ltb, (proj2 (Z.ltb_lt _ _)) by lia.
    destruct k as [|k]; [lia|]. destruct (lookup_lt_is_Some_2 T k) as [y Hy]; [apply lookup_lt_Some in Hx; lia|].
    destruct (cr_get _ _ Hc _ _ Hy) as (t' & Ht' & Hr').
    replace (rc_min_tid c + Z.of_nat (S k) - 1) with (rc_min_tid c + Z.of_nat k) by lia. rewrite Ht'. cbn [obind].
    destruct r as [st' l' ign']. cbn [sr_state sr_lsn sr_ignore_error] in *.
    apply (IH k ltac:(lia) y t' st' l' fuel); [done|done|lia|done|].
    by rewrite (drop_S T x (S k) Hx).
  - destruct Hstep as [Hs Hold]. rewrite HT. apply says_extend; [done|].
    destruct Hold as [Hmin|Hold]; [|done]. assert (k = 0)%nat as -> by lia.
    split; [intros e He|intros d Hd]; [by apply not_elem_of_nil in He|by apply not_elem_of_nil in Hd].
  - destruct Hstep as (-> & -> & l' & Hl & Hold). split_and!; [done|done|]. exists l'. rewrite HT.
    destruct Hl as ((d & Hd & ? & ? & ?) & ? & Hmax). split; [|split; [done|]].
    + exists d. split; [|done]. unfold all_dbs. rewrite bind_app, elem_of_app. by right.
    + intros d' Hd' Hm. unfold all_dbs in Hd'. rewrite bind_app, elem_of_app in Hd'. destruct Hd' as [Hd'|Hd'].
      * by apply (proj2 Hold).
      * by apply Hmax.
Qed.

(** What the search has found. *)
Definition check_found (T : list rel_entries) (lsn : Z) (tag : BufferTag) (valid : bool) (changed : Z) : Prop :=
  if valid then
    not_truncated lsn tag T /\
    ((changed = lsn /\ forall d, d ∈ all_dbs T -> db_matches tag d = true -> ds_lsn d <= lsn) \/
     last_db_event lsn tag T POLAR_DB_NEW changed)
  else (last_truncation lsn tag T changed /\ no_drop_behind lsn tag T changed) \/
       last_db_event lsn tag T POLAR_DB_DROPED changed.

(** A WAL record does not both create and drop the block's database. *)
Definition one_event_per_lsn (T : list rel_entries) (tag : BufferTag) : Prop :=
  forall d d', d ∈ all_dbs T -> d' ∈ all_dbs T -> db_matches tag d = true -> db_matches tag d' = true ->
    ds_lsn d = ds_lsn d' -> ds_state d = ds_state d'.

(** What a check answers for a block and an LSN: whether it is valid, and
    from where its records count or which event made it invalid. *)
Definition check_says (T : list rel_entries) (lsn : Z) (tag : BufferTag) (valid : bool) (changed : Z) : Prop :=
  (valid = true <->
     not_truncated lsn tag T /\ ~ exists l, last_db_event lsn tag T POLAR_DB_DROPED l) /\
  if valid then
    (changed = lsn /\ forall d, d ∈ all_dbs T -> db_matches tag d = true -> ds_lsn d <= lsn) \/
    last_db_event lsn tag T POLAR_DB_NEW changed
  else (last_truncation lsn tag T changed /\ forall l, last_db_event lsn tag T POLAR_DB_DROPED l -> l <= changed) \/
       last_db_event lsn tag T POLAR_DB_DROPED changed.

Lemma one_event T lsn tag l l' :
  one_event_per_lsn T tag -> last_db_event lsn tag T POLAR_DB_DROPED l ->
  last_db_event lsn tag T POLAR_DB_NEW l' -> False.
Proof.
  intros Hone Hd Hn. pose proof (last_db_event_unique _ _ _ _ _ _ _ Hd Hn) as ->.
  destruct Hd as ((d & D1 & D2 & D3 & D4) & _), Hn as ((d' & N1 & N2 & N3 & N4) & _).
  specialize (Hone d d' D1 N1 D2 N2 ltac:(congruence)). congruence.
Qed.

Lemma found_says T lsn tag valid changed :
  one_event_per_lsn T tag -> check_found T lsn tag valid changed -> check_says T lsn tag valid changed.
Proof.
  intros Hone. destruct valid; intros Hf.
  - destruct Hf as [Hn Hc]. split; [|done]. split; [|done]. intros _. split; [done|]. intros [l Hl].
    destruct Hc as [[-> Ho]|Hnew]; [|by apply (one_event T lsn tag l changed)].
    destruct Hl as ((d & D1 & D2 & _ & <-) & Hlt & _). specialize (Ho d D1 D2). lia.
  - split; [split; [done|]|].
    + intros [Hn Hnd]. destruct Hf as [[((e & He & Hm & <-) & Hlt & _) _]|Hd]; [|by destruct Hnd; eexists].
      specialize (Hn e He Hm). lia.
    + destruct Hf as [[Ht Hb]|Hd]; [left|by right]. split; [done|]. intros l Hl.
      destruct (Hb l Hl) as [|Hnew]; [done|]. by destruct (one_event T lsn tag l l Hone Hl Hnew).
Qed.

Lemma check_internal c T lsn tag want :
  cache_repr c T ->
  match polar_check_rel_block_valid_internal c lsn tag want with
  | Done (valid, changed) => check_found T lsn tag valid changed
  | Fault f => f = PANIC /\ want = false /\ exists l, last_db_event lsn tag T POLAR_DB_NEW l
  end.
Proof.
  intros Hc. unfold polar_check_rel_block_valid_internal. destruct (cr_last _ _ Hc) as (x & Hlast & Hx & Ht).
  pose proof (cr_some _ _ Hc). pose proof (cr_min _ _ Hc). rewrite (tr_max _ _ _ Ht).
  destruct (XLogRecPtrIsInvalid (re_max x)) eqn:E; cbn [negb].
  - apply Z.eqb_eq in E. rewrite (cr_used _ _ Hc x Hlast E). cbn [obind sr_state].
    split; [intros e He; by apply not_elem_of_nil in He|]. left. split; [done|].
    intros d Hd. by apply not_elem_of_nil in Hd.
  - rewrite (cr_active_tid _ _ Hc).
    pose proof (check_tables c T lsn tag (length T - 1) x
      (REL_SIZE_CACHE_TABLE c (rc_active_mid c)) POLAR_DB_NOTFOUND InvalidXLogRecPtr want
      (Z.to_nat (top_tid c T)) Hc Hx) as Hs.
    replace (rc_min_tid c + Z.of_nat (length T - 1)) with (top_tid c T) in Hs by (unfold top_tid; lia).
    specialize (Hs Ht ltac:(unfold top_tid; lia) ltac:(by left)).
    rewrite drop_ge in Hs by lia.
    destruct (check_tables_loop _ _ _ _ _ _) as [r|f]; cbn [obind].
    + assert (Hsay : search_says lsn tag T (sr_state r) (sr_lsn r)).
      { apply Hs. split; [intros e He|intros d Hd]; [by apply not_elem_of_nil in He|by apply not_elem_of_nil in Hd]. }
      destruct (sr_state r); cbn in *; tauto.
    + apply Hs. split; [intros e He|intros d Hd]; [by apply not_elem_of_nil in He|by apply not_elem_of_nil in Hd].
Qed.

(** C12: for a block and an LSN, the relation size cache answers "valid"
    exactly if it has no truncation after the LSN that cuts the block off
    and the newest event of the block's database after the LSN, if any, is
    not a drop (a drop before the newest creation does not count).  A valid
    block counts from the LSN, or from the newest creation of its database
    after it.  For one that is not valid the LSN of the newest truncation
    that cuts it off is given, if the drop is not newer, or that of the
    drop.  No table that is needed is missing. *)
Theorem rel_block_check_correct c T lsn tag :
  cache_repr c T -> one_event_per_lsn T tag ->
  exists valid changed, polar_check_rel_block_valid_and_lsn c lsn tag = Done (valid, changed) /\
    check_says T lsn tag valid changed.
Proof.
  intros Hc Hone. unfold polar_check_rel_block_valid_and_lsn. pose proof (check_internal c T lsn tag true Hc) as H.
  destruct (polar_check_rel_block_valid_internal _ _ _ _) as [[v l]|f]; [|by destruct H as (_ & ? & _)].
  exists v, l. split; [done|]. by apply found_says.
Qed.

(** The other check PANICs only for a record of a database that was created
    after it; a record behind the drop of its database, which is said to PANIC, is found valid. *)
Theorem valid_only_ignores_drop c T lsn tag :
  cache_repr c T ->
  (forall d, d ∈ all_dbs T -> db_matches tag d = true -> ds_lsn d <= lsn) -> not_truncated lsn tag T ->
  polar_check_rel_block_valid_only c lsn tag = Done true.
Proof.
  intros Hc Hd Hn. unfold polar_check_rel_block_valid_only. pose proof (check_internal c T lsn tag false Hc) as H.
  assert (Hno : forall st l, last_db_event lsn tag T st l -> False).
  { intros st l ((d & Hin & Hm & _ & <-) & Hlt & _). specialize (Hd d Hin Hm). lia. }
  destruct (polar_check_rel_block_valid_internal _ _ _ _) as [[[] l]|f]; cbn [obind]; [done|..].
  - destruct H as [[((e & He & Hm & <-) & Hlt & _) _]|H]; [|by destruct (Hno _ _ H)].
    specialize (Hn e He Hm). lia.
  - destruct H as (_ & _ & l & H). by destruct (Hno _ _ H).
Qed.

(** ** Recording *)

(** The new entry at the end of a table. *)
Definition push_rel (x : rel_entries) (e : polar_relation_size_t) : rel_entries :=
  mk_entries (re_rels x ++ [e]) (re_dbs x) (rz_lsn e).
Definition push_db (x : rel_entries) (d : polar_database_state_t) : rel_entries :=
  mk_entries (re_rels x) (re_dbs x ++ [d]) (ds_lsn d).

Definition table_push_rel (t : polar_rel_size_table_t) (e : polar_relation_size_t) : polar_rel_size_table_t :=
  polar_update_lsn_range
    (mk_rel_table (rt_tid t) (rt_rel_tail t + sizeof_relation_size) (rt_db_tail t) (rt_min_lsn t) (rt_max_lsn t)
       (<[rt_rel_tail t := e]> (rt_rel_info t)) (rt_db_info t)) (rz_lsn e).
Definition table_push_db (t : polar_rel_size_table_t) (d : polar_database_state_t) : polar_rel_size_table_t :=
  polar_update_lsn_range
    (mk_rel_table (rt_tid t) (rt_rel_tail t) (rt_db_tail t - sizeof_database_state) (rt_min_lsn t) (rt_max_lsn t)
       (rt_rel_info t) (<[rt_db_tail t - sizeof_database_state := d]> (rt_db_info t))) (ds_lsn d).

Lemma table_push_rel_repr t tid x e :
  table_repr t tid x -> polar_table_space_available t sizeof_relation_size = true ->
  table_repr (table_push_rel t e) tid (push_rel x e).
Proof.
  intros [H1 H2 H3 H4 H5 H6 H7] Hs%Z.ltb_lt. unfold sizeof_relation_size in *.
  split; cbn; try done; unfold sizeof_relation_size; rewrite ?length_app; cbn; try lia.
  intros i a [Ha|[Hi Ha]]%lookup_app_Some.
  - apply lookup_lt_Some in Ha as Hlt. rewrite lookup_insert_ne by lia. by apply H6.
  - apply list_lookup_singleton_Some in Ha as [Hi' <-]. replace (32 * Z.of_nat i) with (rt_rel_tail t) by lia.
    apply lookup_insert_eq.
Qed.

Lemma table_push_db_repr t tid x d :
  table_repr t tid x -> polar_table_space_available t sizeof_database_state = true ->
  table_repr (table_push_db t d) tid (push_db x d).
Proof.
  intros [H1 H2 H3 H4 H5 H6 H7] Hs%Z.ltb_lt. unfold sizeof_database_state in *.
  split; cbn; try done; unfold sizeof_database_state; rewrite ?length_app; cbn; try lia.
  intros i a [Ha|[Hi Ha]]%lookup_app_Some.
  - apply lookup_lt_Some in Ha as Hlt. rewrite lookup_insert_ne by lia. by apply H7.
  - apply list_lookup_singleton_Some in Ha as [Hi' <-].
    replace (8160 - 24 * (Z.of_nat i + 1)) with (rt_db_tail t - 24) by lia. apply lookup_insert_eq.
Qed.

Lemma newest_first_push {A} (f : A -> Z) l a :
  newest_first f (rev l) -> (forall b, b ∈ l -> f b <= f a) -> newest_first f (rev (l ++ [a])).
Proof.
  intros H Ha. rewrite rev_app_distr. constructor; [done|]. apply List.Forall_forall.
  intros b Hb. apply Ha. apply list_elem_of_In. by apply in_rev.
Qed.

Lemma entries_push_rel x e : entries_ok x -> re_max x <= rz_lsn e -> 0 < rz_lsn e -> entries_ok (push_rel x e).
Proof.
  intros [H1 H2 H3 H4 H5] Hm Hp. split; cbn; try done.
  - apply newest_first_push; [done|]. intros b Hb. specialize (H3 b Hb). lia.
  - intros b [Hb|Hb]%elem_of_app; [specialize (H3 b Hb); lia|]. apply list_elem_of_singleton in Hb as ->. lia.
  - intros b Hb. specialize (H4 b Hb). lia.
Qed.

Lemma entries_push_db x d : entries_ok x -> re_max x <= ds_lsn d -> 0 < ds_lsn d ->
  ds_state d = POLAR_DB_NEW \/ ds_state d = POLAR_DB_DROPED -> entries_ok (push_db x d).
Proof.
  intros [H1 H2 H3 H4 H5] Hm Hp Hst. split; cbn; try done.
  - apply newest_first_push; [done|]. intros b Hb. specialize (H4 b Hb). lia.
  - intros b Hb. specialize (H3 b Hb). lia.
  - intros b [Hb|Hb]%elem_of_app; [specialize (H4 b Hb); lia|]. apply list_elem_of_singleton in Hb as ->. lia.
  - intros b [Hb|Hb]%elem_of_app; [by apply H5|]. by apply list_elem_of_singleton in Hb as ->.
Qed.

Definition empty_entries : rel_entries := mk_entries [] [] 0.

Lemma empty_ok : entries_ok empty_entries.
Proof. split; cbn; [apply SSorted_nil|apply SSorted_nil|..]; intros ? H; by apply not_elem_of_nil in H. Qed.

Lemma init_repr tid : 0 <= tid < 2 ^ 32 -> table_repr (polar_init_rel_size_table tid) tid empty_entries.
Proof. intros H. split; cbn; try done. by apply wrap_small. Qed.

Lemma history_prefix T x : history_ok (T ++ [x]) -> history_ok T.
Proof.
  intros [H1 H2]. split.
  - intros y Hy. apply H1. set_solver.
  - intros i j y z Hij Hy Hz. apply (H2 i j y z Hij); by apply lookup_app_l_Some.
Qed.

Lemma history_nil : history_ok [].
Proof. split; [intros x Hx; by apply not_elem_of_nil in Hx|done]. Qed.

Lemma history_snoc T x : history_ok T -> entries_ok x ->
  (forall y, y ∈ T -> re_max y <= re_max x /\ (forall e, e ∈ re_rels x -> re_max y <= rz_lsn e) /\
     (forall d, d ∈ re_dbs x -> re_max y <= ds_lsn d)) ->
  history_ok (T ++ [x]).
Proof.
  intros [H1 H2] Hx Ho. split.
  - intros y [Hy|Hy]%elem_of_app; [by apply H1|]. by apply list_elem_of_singleton in Hy as ->.
  - intros i j y z Hij Hy [Hz|[Hj Hz]]%lookup_app_Some.
    + apply lookup_lt_Some in Hz as Hlt. rewrite lookup_app_l in Hy by lia. by apply (H2 i j).
    + apply list_lookup_singleton_Some in Hz as [Hj' <-]. rewrite lookup_app_l in Hy by lia.
      apply Ho. by eapply list_elem_of_lookup_2.
Qed.

Lemma table_at_set c i t j :
  0 <= i < rc_table_size c ->
  REL_SIZE_CACHE_TABLE (set_rel_table c i t) j = if decide (i = j) then t else REL_SIZE_CACHE_TABLE c j.
Proof. intros H. unfold REL_SIZE_CACHE_TABLE. cbn. by apply aget_aset. Qed.

Lemma size_set c i t : rc_table_size (set_rel_table c i t) = rc_table_size c.
Proof. unfold rc_table_size. cbn. by rewrite length_aset. Qed.

(** The active table gets other entries. *)
Lemma set_active c T x t' x' :
  cache_repr c (T ++ [x]) -> table_repr t' (top_tid c (T ++ [x])) x' -> history_ok (T ++ [x']) -> re_max x' <> 0 ->
  cache_repr (set_rel_table c (rc_active_mid c) t') (T ++ [x']).
Proof.
  intros Hc Ht Hh Hm. pose proof (cr_size _ _ Hc) as Hn.
  assert (Htop : top_tid (set_rel_table c (rc_active_mid c) t') (T ++ [x']) = top_tid c (T ++ [x])).
  { unfold top_tid. cbn. by rewrite !length_app. }
  assert (Hmid : 0 <= rc_active_mid c < rc_table_size c) by (rewrite (cr_active _ _ Hc); by apply Z.mod_pos_bound).
  split.
  - done.
  - rewrite length_app. cbn. lia.
  - apply (cr_min _ _ Hc).
  - by rewrite size_set.
  - rewrite Htop, size_set. apply (cr_active _ _ Hc).
  - rewrite Htop. cbn [set_rel_table rc_active_mid]. rewrite table_at_set, decide_True by done. apply (tr_tid _ _ _ Ht).
  - intros k y Hy. cbn [set_rel_table rc_min_tid]. unfold polar_get_rel_size_table. rewrite size_set, table_at_set by done.
    pose proof (lookup_lt_Some _ _ _ Hy) as Hk. rewrite length_app in Hk. cbn in Hk.
    destruct (decide (k = length T)) as [->|Hne].
    + rewrite lookup_app_r, Nat.sub_diag in Hy by lia. injection Hy as <-.
      replace (rc_min_tid c + Z.of_nat (length T)) with (top_tid c (T ++ [x])) by (unfold top_tid; rewrite length_app; cbn; lia).
      rewrite <- (cr_active _ _ Hc), decide_True by done. exists t'. rewrite (tr_tid _ _ _ Ht), Z.eqb_refl. done.
    + rewrite lookup_app_l in Hy by lia. destruct (cr_get _ _ Hc k y) as (t & Hg & Hr); [by apply lookup_app_l_Some|].
      exists t. split; [|done]. unfold polar_get_rel_size_table in Hg. rewrite <- Hg. clear Hg. cbn [set_rel_table rc_files].
      destruct (decide _) as [E|E]; [|done]. rewrite <- E, (cr_active_tid _ _ Hc), (tr_tid _ _ _ Ht).
      by rewrite (proj2 (Z.eqb_neq _ _)) by (unfold top_tid; rewrite length_app; cbn; lia).
  - intros mid Hmid'. rewrite size_set in *. cbn zeta. rewrite table_at_set, Htop by done.
    destruct (decide _) as [<-|]; [|by apply (cr_slots _ _ Hc)]. right. rewrite (tr_tid _ _ _ Ht), <- (cr_active _ _ Hc).
    pose proof (cr_min _ _ Hc). split; [done|]. unfold top_tid. rewrite length_app. cbn. lia.
  - intros y Hy Hz. rewrite last_snoc in Hy. congruence.
Qed.

(** The ring goes on to the slot of the next table id. *)
Lemma loop_next_mod a n : 0 < n -> REL_LOOP_NEXT ((a - 1) mod n) n = a mod n.
Proof.
  intros Hn. unfold REL_LOOP_NEXT. replace a with (a - 1 + 1) at 3 by lia.
  pose proof (Z.mod_pos_bound (a - 1) n Hn). rewrite <- Zplus_mod_idemp_l.
  destruct (_ =? _) eqn:E; zbool; [rewrite E; replace (n - 1 + 1) with n by lia; by rewrite Z_mod_same_full|].
  symmetry. apply Z.mod_small. lia.
Qed.

(** A new active table. *)
Lemma push_table c T t' x' :
  cache_repr c T -> table_repr t' (top_tid c T + 1) x' -> history_ok (T ++ [x']) -> re_max x' <> 0 ->
  let mid := REL_LOOP_NEXT (rc_active_mid c) (rc_table_size c) in
  let old := REL_SIZE_CACHE_TABLE c mid in
  cache_repr (mk_rel_cache mid (rc_min_tid c) (aset (rc_tables c) mid t')
    (if rt_tid old >? 0 then <[rt_tid old := old]> (rc_files c) else rc_files c)) (T ++ [x']).
Proof.
  intros Hc Ht Hh Hm mid old. pose proof (cr_size _ _ Hc) as Hn. pose proof (cr_min _ _ Hc) as Hmin.
  pose proof (cr_some _ _ Hc) as Hlen.
  assert (Hmid : mid = top_tid c T mod rc_table_size c) by (subst mid; rewrite (cr_active _ _ Hc); by apply loop_next_mod).
  assert (Hr : 0 <= mid < rc_table_size c) by (rewrite Hmid; by apply Z.mod_pos_bound).
  set (files := if rt_tid old >? 0 then _ else _).
  set (c' := mk_rel_cache mid (rc_min_tid c) (aset (rc_tables c) mid t') files).
  assert (Hsz : rc_table_size c' = rc_table_size c) by (unfold rc_table_size; cbn; by rewrite length_aset).
  assert (Hat : forall j, REL_SIZE_CACHE_TABLE c' j = if decide (mid = j) then t' else REL_SIZE_CACHE_TABLE c j).
  { intros j. unfold REL_SIZE_CACHE_TABLE. cbn. by apply aget_aset. }
  assert (Htop : top_tid c' (T ++ [x']) = top_tid c T + 1) by (unfold top_tid; cbn; rewrite length_app; cbn; lia).
  assert (Hold : rt_tid old = 0 \/ ((rt_tid old - 1) mod rc_table_size c = mid /\ 0 < rt_tid old <= top_tid c T))
    by (by apply (cr_slots _ _ Hc)).
  split.
  - done.
  - rewrite length_app. cbn. lia.
  - done.
  - by rewrite Hsz.
  - rewrite Htop, Hsz. cbn. by replace (top_tid c T + 1 - 1) with (top_tid c T) by lia.
  - rewrite Htop, Hat. cbn [rc_active_mid c']. rewrite decide_True by done. apply (tr_tid _ _ _ Ht).
  - intros k y Hy. change (rc_min_tid c') with (rc_min_tid c). unfold polar_get_rel_size_table. rewrite Hsz, Hat.
    destruct (decide (k = length T)) as [->|Hne].
    + rewrite lookup_app_r, Nat.sub_diag in Hy by lia. injection Hy as <-.
      replace (rc_min_tid c + Z.of_nat (length T)) with (top_tid c T + 1) by (unfold top_tid; lia).
      rewrite decide_True by (rewrite Hmid; f_equal; lia). exists t'. rewrite (tr_tid _ _ _ Ht), Z.eqb_refl. done.
    + pose proof (lookup_lt_Some _ _ _ Hy) as Hk. rewrite length_app in Hk. cbn in Hk.
      rewrite lookup_app_l in Hy by lia. destruct (cr_get _ _ Hc k y Hy) as (t & Hg & Hrep). exists t. split; [|done].
      unfold polar_get_rel_size_table in Hg. set (tid := rc_min_tid c + Z.of_nat k) in *.
      assert (Htid : 0 < tid <= top_tid c T) by (unfold tid, top_tid; lia).
      change (rc_files c') with files. destruct (decide _) as [E|E].
      * rewrite (tr_tid _ _ _ Ht). rewrite (proj2 (Z.eqb_neq _ _)) by lia. rewrite <- E in Hg. fold old in Hg.
        unfold files. destruct (rt_tid old =? tid) eqn:Eo; zbool.
        -- injection Hg as ->. rewrite Eo, Z.gtb_ltb, (proj2 (Z.ltb_lt _ _)) by lia. by rewrite lookup_insert_eq.
        -- destruct (rt_tid old >? 0); [by rewrite lookup_insert_ne|done].
      * destruct (_ =? _); [done|]. unfold files. destruct (rt_tid old >? 0) eqn:Eo; [|done].
        rewrite lookup_insert_ne; [done|]. intros Et. zbool. destruct Hold as [?|[Ho _]]; [lia|]. rewrite Et in Ho. congruence.
  - intros j Hj. rewrite Hsz in *. cbn zeta. rewrite Hat, Htop. destruct (decide _) as [<-|].
    + right. rewrite (tr_tid _ _ _ Ht). unfold top_tid in *. split; [rewrite Hmid; f_equal; lia|lia].
    + destruct (cr_slots _ _ Hc j Hj) as [?|[? ?]]; [by left|right; split; [done|lia]].
  - intros y Hy Hz. rewrite last_snoc in Hy. congruence.
Qed.

Section record.
Context (size lsn : Z) (push : polar_rel_size_table_t -> polar_rel_size_table_t) (pushx : rel_entries -> rel_entries).
Context (Hpush : forall t tid x, table_repr t tid x -> polar_table_space_available t size = true ->
  table_repr (push t) tid (pushx x)).
Context (Hok : forall x, entries_ok x -> re_max x <= lsn -> entries_ok (pushx x)).
Context (Hmax : forall x, re_max (pushx x) = lsn).
Context (Hrels : forall x e, e ∈ re_rels (pushx x) -> e ∈ re_rels x \/ rz_lsn e = lsn).
Context (Hdbs : forall x d, d ∈ re_dbs (pushx x) -> d ∈ re_dbs x \/ ds_lsn d = lsn).
Context (Hroom : forall tid, polar_table_space_available (polar_init_rel_size_table tid) size = true).

(** Both functions that record make room and put the entry in the active table. *)
Definition record_entry (c : polar_rel_size_cache_data_t) : polar_rel_size_cache_data_t :=
  let c := polar_allocate_table_space c size in
  set_rel_table c (rc_active_mid c) (push (REL_SIZE_CACHE_TABLE c (rc_active_mid c))).

Lemma record_entry_repr c T x :
  cache_repr c (T ++ [x]) -> (forall y, y ∈ T ++ [x] -> re_max y <= lsn) -> 0 < lsn ->
  top_tid c (T ++ [x]) + 1 < 2 ^ 32 ->
  cache_repr (record_entry c) (T ++ [pushx x]) \/ cache_repr (record_entry c) ((T ++ [x]) ++ [pushx empty_entries]).
Proof.
  intros Hc Hb Hp Htop. destruct (cr_last _ _ Hc) as (x' & Hlast & _ & Ht). rewrite last_snoc in Hlast.
  injection Hlast as <-. pose proof (cr_history _ _ Hc) as HT. pose proof (cr_size _ _ Hc) as Hn.
  assert (Hx : x ∈ T ++ [x]) by set_solver. pose proof (ho_tables _ HT x Hx) as Hox.
  unfold record_entry, polar_allocate_table_space.
  destruct (polar_table_space_available _ size) eqn:Ea; cbn [negb].
  - left. apply (set_active c T x); [done|by apply Hpush| |by rewrite Hmax; lia].
    apply history_snoc; [by eapply history_prefix|apply Hok; [done|by apply Hb]|].
    intros y Hy. rewrite Hmax. split; [apply Hb; set_solver|]. pose proof Hy as [i Hi]%list_elem_of_lookup_1.
    destruct (ho_order _ HT i (length T) y x) as (_ & Hr & Hd).
    { by eapply lookup_lt_Some. }
    { by apply lookup_app_l_Some. }
    { by rewrite lookup_app_r, Nat.sub_diag by lia. }
    assert (re_max y <= lsn) by (apply Hb; set_solver).
    split; [intros e [He|He]%Hrels; [by apply Hr|lia]|intros d [Hd'|Hd']%Hdbs; [by apply Hd|lia]].
  - right. pose proof (cr_active_tid _ _ Hc) as Htid. rewrite Htid.
    pose proof (cr_min _ _ Hc) as Hmin.
    assert (Htt : 0 <= top_tid c (T ++ [x]) + 1 < 2 ^ 32) by (split; [unfold top_tid; rewrite length_app; cbn; lia|done]).
    pose proof (push_table c (T ++ [x]) (push (polar_init_rel_size_table (top_tid c (T ++ [x]) + 1)))
      (pushx empty_entries) Hc) as Hpt. cbn zeta in Hpt.
    set (mid := REL_LOOP_NEXT (rc_active_mid c) (rc_table_size c)) in *.
    assert (Hmid : 0 <= mid < Z.of_nat (length (rc_tables c))).
    { change (0 <= mid < rc_table_size c). subst mid. rewrite (cr_active _ _ Hc), loop_next_mod by done.
      by apply Z.mod_pos_bound. }
    assert (Hset : forall fl,
      set_rel_table (mk_rel_cache mid (rc_min_tid c)
        (aset (rc_tables c) mid (polar_init_rel_size_table (top_tid c (T ++ [x]) + 1))) fl) mid
        (push (REL_SIZE_CACHE_TABLE (mk_rel_cache mid (rc_min_tid c)
          (aset (rc_tables c) mid (polar_init_rel_size_table (top_tid c (T ++ [x]) + 1))) fl) mid))
      = mk_rel_cache mid (rc_min_tid c)
          (aset (rc_tables c) mid (push (polar_init_rel_size_table (top_tid c (T ++ [x]) + 1)))) fl).
    { intros fl. unfold set_rel_table, REL_SIZE_CACHE_TABLE. cbn. rewrite aget_aset_eq by done. f_equal.
      unfold aset. rewrite !decide_True by lia. apply list_insert_insert_eq. }
    change (REL_SIZE_CACHE_TABLE (mk_rel_cache mid _ _ _) mid) with (REL_SIZE_CACHE_TABLE c mid).
    specialize (Hpt ltac:(apply Hpush; [by apply init_repr|apply Hroom])).
    assert (history_ok ((T ++ [x]) ++ [pushx empty_entries])) as Hh.
    { apply history_snoc; [done|apply Hok; [apply empty_ok|cbn; lia]|]. intros y Hy. rewrite Hmax.
      split; [by apply Hb|]. specialize (Hb y Hy).
      split; [intros e [He|He]%Hrels|intros d [He|He]%Hdbs]; try lia; by apply not_elem_of_nil in He. }
    specialize (Hpt Hh ltac:(rewrite Hmax; lia)). clear Hh.
    destruct (rt_tid (REL_SIZE_CACHE_TABLE c mid) >? 0); cbn [polar_save_rel_size_table rc_active_mid rc_min_tid rc_tables rc_files set_rel_table] in *;
      (unfold set_rel_table in *; cbn in *; rewrite Hset; exact Hpt).
Qed.
End record.

Lemma snoc_view {A} (T : list A) : (0 < length T)%nat -> exists T0 x, T = T0 ++ [x].
Proof. intros H. destruct T as [|x T _] using rev_ind; [cbn in H; lia|]. by exists T, x. Qed.

Lemma all_rels_snoc T x : all_rels (T ++ [x]) = all_rels T ++ re_rels x.
Proof. unfold all_rels. by rewrite bind_app, bind_singleton. Qed.
Lemma all_dbs_snoc T x : all_dbs (T ++ [x]) = all_dbs T ++ re_dbs x.
Proof. unfold all_dbs. by rewrite bind_app, bind_singleton. Qed.

(** C23: Recording the size of a truncated relation appends the entry to the
    history, in the active table or, when it is full, in the next one, whose old
    content is first saved to its file. *)
Theorem rel_size_recorded c T lsn spc db rel fork size :
  cache_repr c T -> (forall x, x ∈ T -> re_max x <= lsn) -> 0 < lsn -> top_tid c T + 1 < 2 ^ 32 ->
  exists T', cache_repr (polar_record_rel_size c lsn spc db rel fork size) T' /\
    all_rels T' = all_rels T ++ [mk_rel_size lsn spc db rel fork size] /\ all_dbs T' = all_dbs T.
Proof.
  intros Hc Hb Hp Htop. destruct (snoc_view T (cr_some _ _ Hc)) as (T0 & x & ->).
  set (e := mk_rel_size lsn spc db rel fork size).
  destruct (record_entry_repr sizeof_relation_size lsn (fun t => table_push_rel t e) (fun x => push_rel x e)
    ltac:(intros; by apply table_push_rel_repr) ltac:(intros; by apply entries_push_rel) ltac:(done)
    ltac:(intros ? ? [?|Hs%list_elem_of_singleton]%elem_of_app; [auto|subst; auto]) ltac:(auto) ltac:(done) c T0 x Hc Hb Hp Htop) as [H|H];
    (eexists; split; [exact H|]); rewrite ?all_rels_snoc, ?all_dbs_snoc; cbn;
    by rewrite ?app_nil_r, <- ?app_assoc.
Qed.

(** The same for the creation or the drop of a database. *)
Theorem db_state_recorded c T lsn spc db state :
  cache_repr c T -> (forall x, x ∈ T -> re_max x <= lsn) -> 0 < lsn -> top_tid c T + 1 < 2 ^ 32 ->
  state = POLAR_DB_NEW \/ state = POLAR_DB_DROPED ->
  exists T', cache_repr (polar_record_db_state c lsn spc db state) T' /\
    all_dbs T' = all_dbs T ++ [mk_db_state lsn spc db state] /\ all_rels T' = all_rels T.
Proof.
  intros Hc Hb Hp Htop Hst. destruct (snoc_view T (cr_some _ _ Hc)) as (T0 & x & ->).
  set (d := mk_db_state lsn spc db state).
  destruct (record_entry_repr sizeof_database_state lsn (fun t => table_push_db t d) (fun x => push_db x d)
    ltac:(intros; by apply table_push_db_repr) ltac:(intros; by apply entries_push_db) ltac:(done)
    ltac:(auto) ltac:(intros ? ? [?|Hs%list_elem_of_singleton]%elem_of_app; [auto|subst; auto]) ltac:(done) c T0 x Hc Hb Hp Htop) as [H|H];
    (eexists; split; [exact H|]); rewrite ?all_rels_snoc, ?all_dbs_snoc; cbn;
    by rewrite ?app_nil_r, <- ?app_assoc.
Qed.

(** A new cache. *)
Lemma rel_size_init n : cache_repr (polar_rel_size_shmem_init (S n)) [empty_entries].
Proof.
  assert (H0 : forall j, REL_SIZE_CACHE_TABLE (polar_rel_size_shmem_init (S n)) j =
    if decide (0 = j) then polar_init_rel_size_table 1 else zero_rel_table).
  { intros j. unfold REL_SIZE_CACHE_TABLE. cbn [rc_tables polar_rel_size_shmem_init].
    rewrite aget_aset by (rewrite length_replicate; lia). by rewrite aget_replicate. }
  assert (Hs : rc_table_size (polar_rel_size_shmem_init (S n)) = Z.of_nat (S n)).
  { unfold rc_table_size. cbn [rc_tables polar_rel_size_shmem_init]. by rewrite length_aset, length_replicate. }
  split.
  - split; [|intros [|i] [|j] x y ? ? ?; try lia; done].
    intros x ->%list_elem_of_singleton. apply empty_ok.
  - cbn. lia.
  - done.
  - lia.
  - by rewrite Hs.
  - by rewrite H0.
  - intros [|k] x Hx; [|done]. injection Hx as <-. exists (polar_init_rel_size_table 1).
    unfold polar_get_rel_size_table. rewrite Hs, H0. split; [done|by apply (init_repr 1)].
  - intros mid _. cbn zeta. rewrite H0. destruct (decide _) as [<-|]; [|by left]. right. by rewrite Hs.
  - done.
Qed.

(** ** Truncation *)

(** The oldest table is taken away. *)
Lemma drop_table c x T :
  cache_repr c (x :: T) -> (0 < length T)%nat -> rc_min_tid c + 1 < 2 ^ 32 ->
  let mid := (rc_min_tid c - 1) mod rc_table_size c in
  let shared := rt_tid (REL_SIZE_CACHE_TABLE c mid) =? rc_min_tid c in
  cache_repr (mk_rel_cache (rc_active_mid c) (u32 (rc_min_tid c + 1))
    (if shared then aset (rc_tables c) mid zero_rel_table else rc_tables c)
    (if shared then rc_files c else delete (rc_min_tid c) (rc_files c))) T.
Proof.
  intros Hc Hl Hmax mid shared. pose proof (cr_size _ _ Hc) as Hn. pose proof (cr_min _ _ Hc) as Hmin.
  assert (Hu : u32 (rc_min_tid c + 1) = rc_min_tid c + 1) by (apply wrap_small; lia).
  assert (Hr : 0 <= mid < rc_table_size c) by (by apply Z.mod_pos_bound).
  set (c' := mk_rel_cache _ _ _ _).
  assert (Hsz : rc_table_size c' = rc_table_size c).
  { unfold rc_table_size. cbn. destruct shared; [by rewrite length_aset|done]. }
  assert (Htop : top_tid c' T = top_tid c (x :: T)) by (unfold top_tid; cbn [c' rc_min_tid length]; lia).
  assert (Hat : forall j, REL_SIZE_CACHE_TABLE c' j =
    if decide (shared = true /\ mid = j) then zero_rel_table else REL_SIZE_CACHE_TABLE c j).
  { intros j. unfold REL_SIZE_CACHE_TABLE. cbn. destruct shared.
    - rewrite aget_aset by done. destruct (decide (mid = j)), (decide _); naive_solver.
    - by rewrite decide_False by naive_solver. }
  assert (Hother : forall tid, tid <> rc_min_tid c -> 0 < tid ->
    polar_get_rel_size_table c' tid = polar_get_rel_size_table c tid).
  { intros tid Hne Hpos. unfold polar_get_rel_size_table. rewrite Hsz, Hat. destruct (decide _) as [[Hs E]|_].
    - rewrite <- E. cbn [rt_tid zero_rel_table]. rewrite (proj2 (Z.eqb_neq 0 tid)) by lia.
      apply Z.eqb_eq in Hs as Hs'. rewrite Hs', (proj2 (Z.eqb_neq (rc_min_tid c) tid)) by lia.
      cbn. by rewrite Hs.
    - destruct (_ =? tid); [done|].
      change (rc_files c') with (if shared then rc_files c else delete (rc_min_tid c) (rc_files c)).
      destruct shared; [done|]. by rewrite lookup_delete_ne by done. }
  pose proof (cr_history _ _ Hc) as [HT1 HT2]. split.
  - split; [intros y Hy; apply HT1; set_solver|]. intros i j y z Hij Hy Hz. by apply (HT2 (S i) (S j) y z ltac:(lia)).
  - done.
  - cbn. lia.
  - by rewrite Hsz.
  - rewrite Htop, Hsz. apply (cr_active _ _ Hc).
  - rewrite Htop. change (rc_active_mid c') with (rc_active_mid c). rewrite Hat, decide_False; [apply (cr_active_tid _ _ Hc)|].
    intros [Hs E]. apply Z.eqb_eq in Hs. pose proof (cr_active_tid _ _ Hc) as Ha. rewrite <- E, Hs in Ha.
    unfold top_tid in Ha. cbn [length] in Ha. lia.
  - intros k y Hy. change (rc_min_tid c') with (u32 (rc_min_tid c + 1)). rewrite Hu.
    replace (rc_min_tid c + 1 + Z.of_nat k) with (rc_min_tid c + Z.of_nat (S k)) by lia.
    rewrite Hother by lia. by apply (cr_get _ _ Hc (S k)).
  - intros j Hj. rewrite Hsz in *. cbn zeta. rewrite Hat, Htop. destruct (decide _); [by left|].
    by apply (cr_slots _ _ Hc).
  - intros y Hy Hz. assert (E : x :: T = [mk_entries [] [] 0]).
    { apply (cr_used _ _ Hc y); [|done]. by rewrite last_cons, Hy. }
    injection E as _ ->. cbn in Hl. lia.
Qed.

(** Tables with newer entries stay. *)
Lemma truncate_keeps c T lsn fuel k :
  cache_repr c T -> (k < length T)%nat -> (length T - 1 - k <= fuel)%nat ->
  (forall j x, (k <= j)%nat -> T !! j = Some x -> lsn < re_max x \/ j = (length T - 1)%nat) ->
  truncate_cache_loop fuel c lsn (rc_min_tid c + Z.of_nat k) (top_tid c T) = Done c.
Proof.
  intros Hc. revert k. induction fuel as [|fuel IH]; intros k Hk Hf Hj; cbn [truncate_cache_loop];
    destruct (_ <? _) eqn:E; zbool; unfold top_tid in E; try done; [lia|].
  destruct (lookup_lt_is_Some_2 T k Hk) as [x Hx]. destruct (cr_get _ _ Hc k x Hx) as (t & -> & Ht). cbn [obind].
  rewrite (tr_max _ _ _ Ht), Z.geb_leb. destruct (Hj k x (Nat.le_refl k) Hx) as [Hlt|]; [|lia].
  rewrite (proj2 (Z.leb_gt _ _)) by lia.
  replace (rc_min_tid c + Z.of_nat k + 1) with (rc_min_tid c + Z.of_nat (S k)) by lia.
  apply IH; [lia|lia|]. intros j y Hjk Hy. apply Hj; [lia|done].
Qed.

Lemma truncate_loop c T lsn fuel :
  cache_repr c T -> top_tid c T + 1 < 2 ^ 32 -> (length T - 1 <= fuel)%nat ->
  exists c' k, truncate_cache_loop fuel c lsn (rc_min_tid c) (top_tid c T) = Done c' /\ (k < length T)%nat /\
    cache_repr c' (drop k T) /\ (forall x, x ∈ take k T -> re_max x <= lsn) /\
    forall x, T !! k = Some x -> S k = length T \/ lsn < re_max x.
Proof.
  revert c fuel. induction T as [|x T IH]; intros c fuel Hc Htop Hf; [pose proof (cr_some _ _ Hc) as H; cbn in H; lia|].
  destruct (decide (T <> [] /\ re_max x <= lsn)) as [[HT Hle]|Hno].
  - assert (Hl : (0 < length T)%nat) by (destruct T; [done|cbn; lia]). cbn [length] in Hf.
    destruct fuel as [|fuel]; [lia|]. cbn [truncate_cache_loop].
    rewrite (proj2 (Z.ltb_lt _ _)) by (unfold top_tid; cbn [length]; lia).
    destruct (cr_get _ _ Hc 0%nat x eq_refl) as (t & Hg & Ht). rewrite Z.add_0_r in Hg, Ht. rewrite Hg. cbn [obind].
    rewrite (tr_max _ _ _ Ht), Z.geb_leb, (proj2 (Z.leb_le _ _)) by done.
    pose proof (cr_min _ _ Hc) as Hmin.
    assert (Hm : rc_min_tid c + 1 < 2 ^ 32) by (unfold top_tid in Htop; cbn [length] in Htop; lia).
    pose proof (drop_table c x T Hc Hl Hm) as Hd. cbn zeta in Hd. set (c1 := mk_rel_cache _ _ _ _) in *.
    assert (Hu : rc_min_tid c1 = rc_min_tid c + 1) by (apply wrap_small; lia).
    assert (Ht1 : top_tid c1 T = top_tid c (x :: T)) by (unfold top_tid; rewrite Hu; cbn [length]; lia).
    destruct (IH c1 fuel Hd ltac:(by rewrite Ht1) ltac:(lia)) as (c' & k & Hrun & Hk & Hc' & Hall & Hstop).
    rewrite Ht1, Hu in Hrun. exists c', (S k). split; [exact Hrun|]. split; [cbn; lia|]. split; [done|].
    split; [intros y [->|Hy]%elem_of_cons; auto|]. intros y Hy. cbn [length lookup list_lookup] in *.
    destruct (Hstop y Hy); [left; lia|by right].
  - exists c, 0%nat. rewrite <- (Z.add_0_r (rc_min_tid c)) at 1. split.
    + apply (truncate_keeps c (x :: T) lsn fuel 0); [done|cbn; lia|lia|]. intros j y _ Hy.
      destruct (decide (T = [])) as [->|HT].
      { right. apply lookup_lt_Some in Hy. cbn [length] in *. lia. }
      left. assert (lsn < re_max x) by (destruct (Z.le_gt_cases (re_max x) lsn); [naive_solver|lia]).
      destruct j as [|j]; [by injection Hy as <-|].
      destruct (ho_order _ (cr_history _ _ Hc) 0 (S j) x y ltac:(lia) eq_refl Hy). lia.
    + split; [cbn; lia|]. split; [done|]. split; [intros y Hy; by apply not_elem_of_nil in Hy|].
      intros y Hy. injection Hy as <-. destruct (decide (T = [])) as [->|HT]; [by left|right].
      destruct (Z.le_gt_cases (re_max x) lsn); [naive_solver|lia].
Qed.

Lemma elem_of_take {A} (a : A) k l : a ∈ take k l -> a ∈ l.
Proof. intros [i Hi]%list_elem_of_lookup_1. apply lookup_take_Some in Hi as [Hi _]. by eapply list_elem_of_lookup_2. Qed.

(** C24: truncating the cache takes away exactly the oldest tables whose
    entries are all not behind the given LSN, up to the active table, which
    stays: the first table that is left is the active one or has its
    maximum behind the LSN, no entry behind the LSN goes, and the tables
    that are left are still found, in memory or in their files. *)
Theorem rel_size_truncate_safe c T lsn :
  cache_repr c T -> top_tid c T + 1 < 2 ^ 32 ->
  exists c' k, polar_truncate_rel_size_cache c lsn = Done c' /\ (k < length T)%nat /\ cache_repr c' (drop k T) /\
    (forall e, e ∈ all_rels (take k T) -> rz_lsn e <= lsn) /\ (forall d, d ∈ all_dbs (take k T) -> ds_lsn d <= lsn) /\
    (forall x, T !! k = Some x -> S k = length T \/ lsn < re_max x).
Proof.
  intros Hc Htop. unfold polar_truncate_rel_size_cache. rewrite (cr_active_tid _ _ Hc).
  destruct (truncate_loop c T lsn (Z.to_nat (top_tid c T - rc_min_tid c)) Hc Htop) as (c' & k & Hr & Hk & Hc' & Hall & Hstop).
  { unfold top_tid. lia. }
  exists c', k. split_and!; [done..| | |done].
  - intros e (x & Hx & He)%elem_of_rels. specialize (Hall x Hx).
    pose proof (eo_rel_lsn _ (ho_tables _ (cr_history _ _ Hc) x (elem_of_take x k T Hx)) e He). lia.
  - intros d (x & Hx & Hd)%elem_of_dbs. specialize (Hall x Hx).
    pose proof (eo_db_lsn _ (ho_tables _ (cr_history _ _ Hc) x (elem_of_take x k T Hx)) d Hd). lia.
Qed.

(** ** Examples *)

(** Two relations of database 5 were truncated, and database 6 was dropped. *)
Definition demo_tag (block : Z) : BufferTag := mk_tag 1663 5 70 0 block.

Definition demo_cache : polar_rel_size_cache_data_t :=
  polar_record_db_state
    (polar_record_rel_size
      (polar_record_rel_size (polar_rel_size_shmem_init 2) 100 1663 5 70 0 10) 120 1663 5 70 0 8)
    150 1663 6 POLAR_DB_DROPED.

Definition demo_history : rel_entries :=
  mk_entries [mk_rel_size 100 1663 5 70 0 10; mk_rel_size 120 1663 5 70 0 8]
    [mk_db_state 150 1663 6 POLAR_DB_DROPED] 150.

Lemma demo_cache_repr : cache_repr demo_cache [demo_history].
Proof.
  assert (H1 : cache_repr (polar_rel_size_shmem_init 2) ([] ++ [empty_entries])) by apply rel_size_init.
  assert (H2 : cache_repr (polar_record_rel_size (polar_rel_size_shmem_init 2) 100 1663 5 70 0 10)
    ([] ++ [push_rel empty_entries (mk_rel_size 100 1663 5 70 0 10)])).
  { apply (set_active _ [] empty_entries); [done| | |done].
    - by apply table_push_rel_repr; [apply (init_repr 1)|].
    - apply history_snoc; [apply history_nil|by apply entries_push_rel; [apply empty_ok|..]|].
      intros y Hy. by apply not_elem_of_nil in Hy. }
  set (x1 := push_rel empty_entries (mk_rel_size 100 1663 5 70 0 10)) in *.
  assert (O1 : entries_ok x1) by (by apply entries_push_rel; [apply empty_ok|..]).
  destruct (cr_last _ _ H2) as (y1 & E1 & _ & T1). injection E1 as <-.
  assert (O2 : entries_ok (push_rel x1 (mk_rel_size 120 1663 5 70 0 8))) by (by apply entries_push_rel).
  assert (H3 : cache_repr (polar_record_rel_size (polar_record_rel_size (polar_rel_size_shmem_init 2) 100 1663 5 70 0 10)
    120 1663 5 70 0 8) ([] ++ [push_rel x1 (mk_rel_size 120 1663 5 70 0 8)])).
  { apply (set_active _ [] x1); [done|by apply table_push_rel_repr| |done].
    apply history_snoc; [apply history_nil|done|]. intros y Hy. by apply not_elem_of_nil in Hy. }
  destruct (cr_last _ _ H3) as (y2 & E2 & _ & T2). injection E2 as <-.
  apply (set_active _ [] _ _ demo_history H3); [by apply (table_push_db_repr _ _ _ (mk_db_state 150 1663 6 POLAR_DB_DROPED) T2)| |done].
  apply history_snoc; [apply history_nil|apply (entries_push_db _ (mk_db_state 150 1663 6 POLAR_DB_DROPED) O2); auto; done|].
  intros y Hy. by apply not_elem_of_nil in Hy.
Qed.

Lemma demo_one_event : one_event_per_lsn [demo_history] (demo_tag 9).
Proof.
  intros d d' Hd _ Hm. unfold all_dbs in Hd. cbn in Hd. apply list_elem_of_singleton in Hd as ->. done.
Qed.

Lemma rel_block_check_correct_witness :
  polar_check_rel_block_valid_and_lsn demo_cache 90 (demo_tag 9) = Done (false, 120) /\
  exists valid changed, polar_check_rel_block_valid_and_lsn demo_cache 90 (demo_tag 9) = Done (valid, changed) /\
    check_says [demo_history] 90 (demo_tag 9) valid changed.
Proof.
  split; [vm_compute; reflexivity|].
  apply (rel_block_check_correct demo_cache _ 90 (demo_tag 9) demo_cache_repr demo_one_event).
Defined.

Lemma rel_size_recorded_witness :
  exists T', cache_repr (polar_record_rel_size demo_cache 160 1663 5 71 0 3) T' /\
    all_rels T' = all_rels [demo_history] ++ [mk_rel_size 160 1663 5 71 0 3] /\ all_dbs T' = all_dbs [demo_history].
Proof.
  apply (rel_size_recorded demo_cache [demo_history] 160 1663 5 71 0 3 demo_cache_repr); [|lia|vm_compute; reflexivity].
  intros x Hx. apply list_elem_of_singleton in Hx. subst x. vm_compute. discriminate.
Defined.

(** The same cache with a second table, which has a truncation at 200. *)
Definition demo_rel2 : polar_relation_size_t := mk_rel_size 200 1663 5 71 0 3.
Definition demo_history2 : rel_entries := push_rel empty_entries demo_rel2.
Definition demo_cache2 : polar_rel_size_cache_data_t :=
  mk_rel_cache 1 1 (aset (rc_tables demo_cache) 1 (table_push_rel (polar_init_rel_size_table 2) demo_rel2))
    (rc_files demo_cache).

Lemma demo_cache2_repr : cache_repr demo_cache2 [demo_history; demo_history2].
Proof.
  apply (push_table demo_cache [demo_history] (table_push_rel (polar_init_rel_size_table 2) demo_rel2) demo_history2
    demo_cache_repr).
  - by apply table_push_rel_repr; [apply (init_repr 2)|].
  - apply history_snoc; [apply (cr_history _ _ demo_cache_repr)|by apply entries_push_rel; [apply empty_ok|..]|].
    intros y Hy. apply list_elem_of_singleton in Hy as ->. split_and!; [done| |].
    + intros e He. cbn in He. apply list_elem_of_singleton in He as ->. done.
    + intros d Hd. by apply not_elem_of_nil in Hd.
  - done.
Qed.

(** The first table goes. *)
Lemma rel_size_truncate_safe_witness :
  exists c' k, polar_truncate_rel_size_cache demo_cache2 150 = Done c' /\ (k < length [demo_history; demo_history2])%nat /\
    cache_repr c' (drop k [demo_history; demo_history2]) /\
    (forall e, e ∈ all_rels (take k [demo_history; demo_history2]) -> rz_lsn e <= 150) /\
    (forall d, d ∈ all_dbs (take k [demo_history; demo_history2]) -> ds_lsn d <= 150) /\
    (forall x, [demo_history; demo_history2] !! k = Some x ->
       S k = length [demo_history; demo_history2] \/ 150 < re_max x).
Proof.
  apply (rel_size_truncate_safe demo_cache2 [demo_history; demo_history2] 150 demo_cache2_repr).
  vm_compute. reflexivity.
Defined.

Example demo_truncation_removes :
  match polar_truncate_rel_size_cache demo_cache2 150 with Done c => rc_min_tid c = 2 | Fault _ => False end.
Proof. vm_compute. reflexivity. Qed.

(** The drop of database 6 at 150 is not noticed for a record at 160. *)
Lemma valid_only_ignores_drop_witness :
  polar_check_rel_block_valid_only demo_cache 160 (mk_tag 1663 6 70 0 1) = Done true.
Proof.
  apply (valid_only_ignores_drop demo_cache [demo_history] 160 (mk_tag 1663 6 70 0 1) demo_cache_repr).
  - intros d Hd _. unfold all_dbs in Hd. cbn in Hd. apply list_elem_of_singleton in Hd. subst d. cbn. lia.
  - intros e He _. unfold all_rels in He. cbn in He. apply elem_of_cons in He as [->|He]; [cbn; lia|].
    apply list_elem_of_singleton in He. subst e. cbn. lia.
Defined.
